(* ===== verification/_CoqProject ===== *)
-Q . S2P
Prelude.v
GoTime.v
Text.v
Limits.v
Api.v
Vocabulary.v
Machine.v
Park.v
Clocks.v
Unpark.v
ObjBudget.v
Lifecycle.v
Transition.v
Budget.v
Settings.v
Own.v
Logins.v
Approval.v
Ship.v
Seq.v
Names.v
TtlStop.v
Patch.v
LivePods.v
Queue.v
Dispatch.v
Refs.v
Checks.v
Corridor.v
Merge.v
Escalate.v
Drivers.v
Calls.v
Release.v
Reaper.v
Mirror.v
Intake.v
Events.v
Proposals.v
Goals.v
Adopt.v
Ownership.v
Sweep.v
Resume.v
Reviewing.v
StageGuards.v
Deploy.v
PodStage.v
Reconciler.v
Outcome.v
Submissions.v
Deliveries.v
HumanReview.v
