(* ===== verification/Prelude.v ===== *)
(** * A verification library for tatara-operator

    tatara-operator is a Kubernetes operator that runs coding agents.  A Task moves
    through eight states (new, refined, under-implementation, awaiting-review,
    merged, deployed, done, rejected); while it waits for a human, for CI or for
    capacity it is parked, which is a flag beside the state; a Task in a live state
    owns an agent pod.  Issue and MergeRequest mirrors of the forge carry the
    comments that approve a Task or un-park it.  This library models the operator's
    own decisions as Rocq functions and proves what they promise.

    ** The parts, where they are modelled, and what is shown

    - [Prelude], [GoTime], [Text]: Go's int as [Z] wrapped at 64 bits ([i64]), map
      literals as tables ([tbl], [in_set]), record updates, errors ([result]);
      time.Time and Duration with their saturating subtraction, float64 as
      SpecFloat; byte strings, with SHA-256 written out and run on its test vectors.
    - [Api] (api/v1alpha1): Task in full and the fields of Issue, MergeRequest,
      Project and Repository that the modelled code touches, with the helpers of
      task_types.go.
    - [Vocabulary], [Machine] (internal/stage/stage.go): states, agent kinds and the
      closed sets of reasons; the table [Transitions], the guards [LegalFor], and
      [Enter], which stamps a transition.  Shown: [Enter] refines a declarative
      contract of an edge, and from which states a kind of Task can still be done.
    - [Park] (internal/stage/park.go, and the un-parks the operator starts itself in
      stage.go): the park tuple, the class of a reason (who may lift it), the retry
      lane with its doubling backoff.  Shown: a park never moves a Task, the bounds
      and schedule of the backoff, a maintainer's comment is spent once.
    - [Clocks] (stage.go, liveness.go): the one armed clock of a Task, its deadline,
      the residency bound.  Shown: the deadline is exact, every operator-driven
      state times out, parked time is not residency, and (a finding) pod loss
      restarts the residency clock.
    - [Unpark] (stage.go: Unpark, HeadMoved, CIRed, MergeConflict and the review
      re-entry).  Shown: un-parking is never a transition; one comment releases at
      most once; a timeout releases three times and then never; bounces are bounded;
      a review Task with a merged request is never re-entered.
    - [ObjBudget] (internal/objbudget/objbudget.go): eviction, spilling, the three
      guarded writes and the minimal patch.  The class [Commented] is what the guard
      needs of a mirror (Issue and MergeRequest are its instances), the class
      [GuardedWrite] what the guards promise their callers.  Shown: nothing is
      dropped before its batch was accepted by the spiller, and no more is dropped
      than must be.
    - [Lifecycle]: every operation of internal/stage as an [op], [exec] as its
      effect on a Task, and [step], which interleaves them with arbitrary writes of
      the rest of the program outside the fields the package owns.  Shown by
      induction on reachability: the well-formedness invariant [wf]; that only
      [Enter] and the takeover move a Task; that no reachable Task is without a
      timer, but for the named exceptions.
    - [Transition] (internal/controller/transition.go with agent/wrapper.go,
      task_workspace.go, turn_annotations.go): the choke points [EnterStage],
      [MintParked], [ParkTask] and [UpgradeDeclinedTakeoverPark], as functions of
      everything the outside answers ([World]) to an error, the caller's mutated
      Task and an ordered list of effects.  Proved against [GuardedWrite]: each
      writes at most once and what it writes is reached by [Lifecycle] steps from
      the read the write was accepted against (a refinement); a nil answer means
      what it says, lost races included; a Task minted to be parked is never live;
      nothing is torn down or counted for an outcome that was not stored; and (a
      finding) a dropped transition can still un-park.
    - [Budget] (internal/budget/budget.go): the token gate, its windows and
      thresholds; the gate is exactly its declarative reading.
    - [Own] (internal/own/own.go): owner references, the handover of control and the
      repair of an artifact without a controller.
    - [Logins], [Approval] (api/v1alpha1: logins.go, proposal_marker.go,
      significance.go; internal/controller/approval_grammar.go): whose comment
      approves, and when an automatic approval applies.
    - [Ship] (internal/controller/approval_ship.go, internal/restapi/approval_ship.go):
      the gate in front of opening and submitting a change.  Shown: exactly when it
      lets a Task through, and what every blocker says.
    - [Seq] (internal/queue/seq.go): the compare-and-swap counter of the admission
      queue, with strconv's decimal numbers written out, and a step relation of any
      number of callers on one counter, lost answers included.  Shown: no two calls
      get the same number, and thirty callers never run out of attempts.

    - [Limits] (api/v1alpha1/limits.go): UTF-8 as unicode/utf8 reads it and the cuts to a
      byte or character limit.  Shown: a cut is a prefix, fits and is valid, and a title
      that was clamped fits the forge's limit.
    - [Settings] (api/v1alpha1/project_types.go): the Project's settings with their
      defaults, floors and ceilings.  Shown: a slot is always left for other work.
    - [Names] (internal/slug, internal/agent/pod.go): the DNS label slug, pod names and
      branches.  Shown: the slug is a label, a pod's name keeps the number of its work item.
    - [TtlStop] (internal/agent/ttlstop.go): the deadline of a pod, its last turn, the two
      waits, the notes left behind and the stop.  Shown: the waits end; nothing that ends a
      pod happens before its continuation is in the journal; the notes fit.
    - [Queue] (internal/queue/enqueue.go, queuedevent_types.go): the queued event, its
      validation, deduplication, and the Task it mints.  Shown over any interleaving of
      calls: one event per key at a time; what a minted Task carries.
    - [Patch] (task_controller.go, queue_controller.go): read, change, write, retried on
      conflict.
    - [LivePods] (internal/controller/livepods.go): the mint budget, the eviction pass over
      the ceiling and the end of a conversation.  Shown: only idle conversations above the
      ceiling are evicted, longest idle first; the pass comes back while it has to; a
      conversation is closed only on a handoff and otherwise gets a new pod.
    - [Dispatch] (internal/controller/queue_controller.go): one pass of admission over the two
      pools, as a function of what the outside answers for each event ([EventWorld]).  Shown:
      capacities hold, mints stay within the room that was read, an event mints once, a slot
      is kept for a starving event, and an event that stays queued stays for a reason that
      brings the reconcile back.

    - [Refs] (internal/scm/github.go, slug.go, internal/controller/writeback_util.go,
      semver_label.go): a repository's URL as a slug, and the references by which issues and
      merge requests are addressed on GitHub and GitLab.  Shown: a reference that is written
      parses back to its slug and number on the forge it was written for.
    - [Checks] (internal/scm/checks.go, scm.go, ci_status.go, github.go, gitlab.go): the folds
      of check runs, pipelines and commit statuses into one word, the checks an agent reads,
      when a red is suppressed, the tail of a log.  Shown: the fold an agent reads and the
      gate's agree on what both know (and, a finding, where they do not); a green of GitLab is
      of this head; the tail is the longest valid suffix within its limit, but (a finding) a
      stray byte costs all of it.
    - [Corridor] (internal/controller/ci_gate.go, semver_label.go, reviewpost.go): the effects
      and errors of the merge path, the operator's note, the red-CI gate and the projection of
      the release label.  Shown: the gate finds the first red at a reviewed head, the mirror's
      verdict does not depend on order, and a label is projected once.
    - [Merge] (internal/controller/merge.go, brainstorm_resume.go): one pass of
      [ReconcileMerging] over the merge order, with all its exits, and the delivery that closes
      the Issues.  Shown: what is merged is what was reviewed, on a head the checks let
      through; a Task is deployed only past an order that is merged; a pass ends in a requeue,
      in a move or in an error; a resumed merge asks for no release job (a finding); Issues are
      closed before the Task is done.

    - [Escalate] (internal/controller/retry_escalation.go): what happens when the retry lane
      is used up.  Shown: the humans are told at most once per park.
    - [Drivers] (internal/controller/unpark.go): the one application of [Unpark] to a stored
      Task, the retry lane, the one-shot migrations, the CI recovery, and their pacing.
      Shown: a retry lane ends; what a refused status write leaves on the Task.
    - [Calls]: the answers of the outside as a type, and controller procedures as call trees
      over it ([Prog]; see State and effects below).
    - [Release] (reaper.go, sever.go, ownership.go): the release of a Task's artifacts and
      its deletion.  Shown: a Task is deleted only after its artifacts were let go.
    - [Reaper] (reaper.go, docbatch.go): which terminal and parked Tasks are collected, the
      wait for documentation, the orphaned pods, services and claims.
    - [Mirror] (mirror.go): the merge of a forge thread into its mirror, and the syncs.
    - [Intake] (intake.go, ensure_task.go, sweep.go, task_stage.go): who owns an item of the
      forge, and the minting of one Task per item.
    - [Events] (task_events.go): the comments a Task was not told of, bounded at twenty, with
      a step relation of writers and turns.
    - [Proposals] (issue_apply.go): Issues that a person closes or opens again.
    - [Goals] (internal/upgrade/goal.go): the goal text of an upgrade Task.
    - [Adopt] (upgrade_adopt.go, takeover_mint.go): adoption of a bot's merge request and the
      takeover a maintainer asks for.
    - [Ownership] (ownership.go, ownership_redeliver.go): stand-down and hand-back of merge
      requests somebody else pushes to.
    - [Sweep] (sweep.go): the pass over everything the forge lists, and its mint budget.
    - [Resume] (resume.go, mr_only_unpark.go, strand.go): parks that are left behind for a new
      Task, released in place, or collected.
    - [Reviewing] (reviewpost.go, internal/scm/review.go): the review, comment, edit and close
      an agent asked for, posted once.
    - [StageGuards] (task_stage.go, reset_guard.go, parked_terminal.go, issue_url.go): the
      checks a pass of the reconciler makes before it runs an agent.
    - [Deploy] (deploy_stage.go, deploy_supervision.go, stage_controller.go): when a merged
      change counts as deployed, and the bounded wait for its fan-out.
    - [PodStage] (task_stage.go, stall.go, task_workspace.go, proposalhistory.go,
      task_controller.go; internal/agent: session.go, pod.go, workspace.go): the ticket, the
      pod, the turns, the probe of a silent turn, the stops.
    - [Reconciler] (task_controller.go, labels.go): a whole pass over a Task, composed of the
      parts above in the order of the code.
    - [Outcome] (internal/restapi: outcome.go, readiness.go, approval_ship.go): the claim and
      the commit of the outcome an agent ends its turn with, the readiness of merge requests,
      the outcomes of a change and of its review; in its Module [Lease], the claims of any
      number of requests as a step relation.  Shown: two runs of one outcome do not overlap,
      (a finding) unless another outcome's claim comes between; a transition and its record
      are one write; an accepted review is of the live head.
    - [Submissions] (outcome.go, handlers_v2.go, closeinvariant.go): the approval gate, the
      proposals of a brainstorm, an incident's tracker, the folds of a refinement, and the
      request itself, which decodes, peeks at the claim and dispatches ([postOutcome]).  Shown:
      an outcome writes nothing before its claim, (a finding) but a refinement does; the gate
      writes nothing before every Issue in scope is verified; a fold deletes a Task only after
      a fresh read of everything it controlled names the new controller.
    - [Deliveries] (internal/scm: github.go, gitlab.go, registry.go, scm.go): which forge a
      webhook is from, its signature, with HMAC-SHA256 written out and run on test vectors of
      RFC 4231, and the event it is read as.  Shown: only what was signed with the project's
      secret is let through; every event that is let through is one the server can route; (a
      finding) which of two added labels is reported is up to the order of a Go map.
    - [HumanReview] (internal/controller/review_apply.go, and the record of applied reviews of
      internal/webhook/server.go): the changes a person asks for and the approval a person
      gives.  Shown: a Task with merged work is not sent back; an approval moves a Task only
      after its pod is gone and no review is pending, (a finding) but a parked one is approved
      by half; a review that was applied is remembered.

    How they call each other.  [Reconciler] runs [StageGuards] and, past them, [PodStage];
    [Deploy]'s stage reconciler runs [Merge] and the deploy stage; [PodStage] spawns, drives
    and stops the pod and drains [Events] and [Reviewing].  [Sweep] hands what it finds to [Intake], [Adopt],
    [Ownership] and [Resume]; those, [Drivers] and [Reaper] let go of artifacts through
    [Release] and refresh them through [Mirror].  [Merge] runs [Corridor]'s gate and label,
    reads the forge through [Checks] and [Refs], and leaves through [Transition]; [Dispatch]
    builds Tasks with [Queue], asks [LivePods] for room, [Budget] and [Settings] for limits,
    and writes with [Patch]; [LivePods] runs [TtlStop], [Transition]'s park and [Unpark];
    [Transition] runs [Machine], [Park] and [ObjBudget] on the Task a fresh read returns;
    [Unpark] re-arms and re-parks through [Park] and re-enters through [Machine]; [Clocks]
    reads what they stamp; [Approval] and [Ship] read [Logins].  [Submissions] runs [Outcome],
    which asks [Approval] and [Ship] for the verdicts, [Checks] for a suppressed red, enters and
    parks through [Machine] and [Park] inside one guarded write of [ObjBudget], and follows a
    moved head with [Mirror]; what it queues on an Issue is posted by [Reviewing].  A delivery of [Deliveries] that is a
    person's review is applied by [HumanReview], which enters through [Machine] and re-enters
    through [Unpark] on reads of [Reviewing].  [Lifecycle] closes the
    operations of [Machine], [Park], [Clocks], [Unpark] and [ObjBudget] under interleaving.

    ** State and effects

    A Go function that mutates its Task is a function from the Task to the Task it
    leaves, paired with what it returns; on an error that leaves the Task alone the
    value is dropped ([result]).  In the packages without I/O and in the choke points the
    API server, the clock and the other services are arguments, one answer per call, and
    writes, deletes and counters are values of an effect type in the order they happen.

    From [Calls] on, a controller procedure is a [Prog]: a tree that ends with a value or
    asks the outside a [Call] and goes on with whatever answer comes.  A [World] answers
    from the calls made so far, so every failure, lost race and interleaved writer is one of
    its answers; [run] gives the value and the trace.  Theorems about all worlds are proved
    through predicates on trees: [does] (what a trace and its result satisfy), [keeps] and
    [each] (what every call satisfies), [guarded] and [always] (what holds of the calls
    before a call), [settles] (how a procedure may end).  A handler of the REST API is such a
    tree that ends in a value or in an answer to its caller ([Http] in [Outcome]); its commit
    reads the clock once for every stamp of one write.

    ** Bounds and fuel

    [RetryWait] doubles a minute up to thirty, so five rounds reach the cap and its
    eight rounds of fuel are never used up (RetryWait_loop_total).  [RetryOnConflict]
    and the create-lag read make client-go's five attempts.  [search_fuel] in
    [Budget] is the number of whole seconds in the search range plus three, and a
    schedule fires on whole seconds, each later than the one before
    (fires_until_spec).  Trimming white space has the length of the string as fuel and
    drops at least a byte a round.  [FormatInt] has twenty digits for a 64-bit number
    (format_parse) and [seqRetrySteps] is the source's thirty attempts.  A wait of [TtlStop]
    has one round more than polls fit before its deadline (wait_returns); the eviction backoff
    reaches its maximum in five doublings and has seven rounds (evictionBackoffAfter_exact);
    cutting to valid UTF-8 drops a byte a round.  The merge cursor is only ever written one
    past a place of the order, so it is never negative and the loop over the order is
    structural.  The pool loop, the spill loop and the
    marker scan are structural.  A [Prog] is finite, so loops over lists are structural in the
    list; the loops that wait for a race to end have the source's own number of tries:
    five of RetryOnConflict ([on_conflict]) and of the marker's retry, two rounds of
    resolveLiveOwner, one retry of a takeover's mint, five laps, two reads and ten migrations
    in the drivers.  The bounds the theorems speak of are the source's: twenty pending
    events, three automatic re-entries, the probes of a silent turn, forty-five minutes for
    the fan-out of a pin.

    ** What the outside is

    Arguments of the definitions, never definitions of our own: the cron library
    (parse and next firing), encoding/json's size of an object, the API server's
    reads, writes and deletes, html.UnescapeString, the Unicode folding of
    strings.EqualFold and strings.ToLower, strconv.Quote, the host and path url.Parse finds, what the
    forge answers, the wrapper's session client, the spiller's tatara-memory, the forge behind the terminal
    issue release, Kubernetes' Set and RemoveStatusCondition, resource.ParseQuantity, the
    capacity a Go slice grows to, the order in which a range visits a map, the rendered prompts,
    encoding/json's decoding of a request's or a delivery's payload and its canonical form, and
    time.Now.  A hypothesis on one of them is named in the
    section that uses it and has an instance among the witnesses.

    ** What is not modelled, and why

    Left out of every modelled function: log lines, the wording of errors (an error is kept
    as a value where code looks at it), metrics that are only set, and the contract prose of
    the table.  Not modelled at all:
    - the other handlers of the REST API (the context bundle, notes, listings, CI reads,
      issue_write, mr_write, the takeover endpoint): they decode, read and render, and their
      writes meet the controllers' only through the objects, where they are steps of any other
      writer; of an answer, its status and its kind are kept, not its wording;
    - the webhook server's handlers of issues, comments, pushes, CI and alerts
      (internal/webhook) and the pacing of the scan (projectscan.go): request handling and
      timers around [Deliveries], [Intake], [Events] and [Sweep];
    - the specification of a pod (BuildPod), prompts, the memory stack, deep copies: large
      literals and text, generated code;
    - the HTTP clients of the forges and of the wrapper, the callback of a finished turn,
      metrics, configuration, authentication, the manager's entry point: I/O and wiring. *)

From stdpp Require Export base gmap strings list.
From Stdlib Require Export ZArith Lia Bool.
From Stdlib Require Import String.

#[export] Set Default Proof Using "Type".

(** ** Scope and notations *)

Declare Scope go_scope.
Delimit Scope go_scope with go.

(** Go's [==] and [!=] on strings. *)
Notation "s == t" := (String.eqb s%string t%string) (at level 70, no associativity) : go_scope.
Notation "s != t" := (negb (String.eqb s%string t%string)) (at level 70, no associativity) : go_scope.

(** ** Machine integers: Go's [int] and [int64] wrap at 64 bits. *)

Definition two63 : Z := 9223372036854775808.
Definition i64 (z : Z) : Z := (z + two63) `mod` (2 * two63) - two63.
Definition in_i64 (z : Z) : Prop := (- two63 <= z < two63)%Z.

(** ** Record updates: [r <| field ::= f |>] and [r <| field := v |>]. *)

Class Settable {R T : Type} (proj : R -> T) := upd : (T -> T) -> R -> R.
#[global] Hint Mode Settable - - ! : typeclass_instances.

Notation "r <| proj ::= f |>" := (upd (proj := proj) f r)
  (at level 1, left associativity, f at level 200, format "r  <|  proj  ::=  f  |>") : go_scope.
Notation "r <| proj := v |>" := (upd (proj := proj) (fun _ => v) r)
  (at level 1, left associativity, v at level 200, format "r  <|  proj  :=  v  |>") : go_scope.

(** Builds the setter of [proj] out of the eta-expanded record [eta]. *)
Ltac setter_of proj eta :=
  let body := eval cbv beta delta [eta] in eta in
  match eval pattern proj in body with
  | ?F _ =>
      let s := eval cbv beta in (fun f r => F (fun r' => f (proj r')) r) in
      exact s
  end.

(** ** Go map literals: a lookup table is an association list with unique keys. *)

Fixpoint tbl {V : Type} (l : list (string * V)) (k : string) : option V :=
  match l with
  | [] => None
  | (k', v) :: l' => if String.eqb k k' then Some v else tbl l' k
  end.

(** Reading a [map[string]bool] literal: an absent key reads [false]. *)
Definition in_set (l : list (string * bool)) (k : string) : bool := default false (tbl l k).

(** A slice of strings read as a set ([reasonIndex] builds the map once). *)
Fixpoint str_mem (l : list string) (k : string) : bool :=
  match l with
  | [] => false
  | x :: l' => String.eqb k x || str_mem l' k
  end.

(** Go's [strings.Join] for the one separator the modelled code uses at each site. *)
Fixpoint str_join (sep : string) (l : list string) : string :=
  match l with
  | [] => EmptyString
  | [x] => x
  | x :: l' => String.append x (String.append sep (str_join sep l'))
  end.

(** ** Results: a Go [(T, error)] pair whose value is only read when the error is nil. *)

Inductive result (E A : Type) :=
  | Ok (a : A)
  | Err (e : E).
Arguments Ok {E A} a.
Arguments Err {E A} e.

Definition is_ok {E A : Type} (r : result E A) : bool :=
  match r with Ok _ => true | Err _ => false end.

(** [p != nil] for a Go pointer. *)
Definition is_set {A : Type} (o : option A) : bool :=
  match o with Some _ => true | None => false end.

(** ** Tactics shared by the development *)

(** Decides a closed proposition by evaluating its [Decision] instance. *)
Ltac by_compute := refine (bool_decide_unpack _ _); vm_compute; exact I.

(** Case analysis on every string test of the goal and the hypotheses. *)
Ltac str_case a b :=
  let E := fresh "Es" in
  destruct (String.eqb_spec a b) as [E|E];
  [try first [subst a | subst b]|].

Ltac str_cases :=
  repeat match goal with
  | |- context [String.eqb ?a ?a] => rewrite (String.eqb_refl a)
  | H : context [String.eqb ?a ?a] |- _ => rewrite (String.eqb_refl a) in H
  | |- context [String.eqb ?a ?b] => str_case a b
  | H : context [String.eqb ?a ?b] |- _ => str_case a b
  end.

(** Splits the membership of a concrete list into its cases. *)
Ltac in_cases H :=
  cbn [In map fst snd app] in H;
  repeat (destruct H as [H|H];
          [try first [injection H as ? ?; subst | injection H as ?; subst | subst]|]);
  [..|try contradiction].

(** ** Lemmas *)

Lemma i64_small z : in_i64 z -> i64 z = z.
Proof.
  unfold in_i64, i64, two63. intros H.
  rewrite Z.mod_small by lia. lia.
Qed.

Lemma i64_range z : in_i64 (i64 z).
Proof.
  unfold in_i64, i64, two63.
  pose proof (Z.mod_pos_bound (z + 9223372036854775808) (2 * 9223372036854775808)).
  lia.
Qed.

Lemma i64_i64_add (a b : Z) : i64 (i64 a + b)%Z = i64 (a + b)%Z.
Proof.
  unfold i64. f_equal.
  replace ((a + two63) `mod` (2 * two63) - two63 + b + two63)%Z
    with ((a + two63) `mod` (2 * two63) + b)%Z by lia.
  rewrite Z.add_mod_idemp_l by (unfold two63; lia). f_equal. lia.
Qed.

Lemma tbl_In {V : Type} (l : list (string * V)) k v : tbl l k = Some v -> In (k, v) l.
Proof.
  induction l as [|[k' v'] l IH]; cbn; [done|].
  destruct (String.eqb_spec k k') as [->|_]; [intros [= ->]; auto|auto].
Qed.

Lemma tbl_NoDup {V : Type} (l : list (string * V)) k v :
  NoDup (map fst l) -> In (k, v) l -> tbl l k = Some v.
Proof.
  induction l as [|[k' v'] l IH]; cbn; [done|]. intros Hn [[= -> ->]|Hin].
  - by rewrite String.eqb_refl.
  - apply NoDup_cons in Hn as [Hn1 Hn2].
    destruct (String.eqb_spec k k') as [->|_]; [|by apply IH].
    destruct Hn1. apply list_elem_of_In. exact (in_map fst _ _ Hin).
Qed.

Lemma tbl_None_In {V : Type} (l : list (string * V)) k :
  tbl l k = None <-> ~ In k (map fst l).
Proof.
  induction l as [|[k' v'] l IH]; cbn; [tauto|].
  destruct (String.eqb_spec k k') as [->|Hne]; [split; [done|tauto]|].
  rewrite IH. split; intros H; [intros [->|?]; tauto|tauto].
Qed.

Lemma in_set_In l k : in_set l k = true -> In (k, true) l.
Proof.
  unfold in_set. destruct (tbl l k) as [b|] eqn:E; cbn; [|done].
  intros ->. by apply tbl_In.
Qed.

Lemma str_mem_In l k : str_mem l k = true <-> In k l.
Proof.
  induction l as [|x l IH]; cbn; [done|].
  rewrite orb_true_iff, String.eqb_eq, IH. intuition congruence.
Qed.

Lemma str_neq_eqb (a b : string) : a <> b -> String.eqb a b = false.
Proof. apply String.eqb_neq. Qed.

Lemma eqb_to_eq (a b : string) : String.eqb a b = true <-> a = b.
Proof. apply String.eqb_eq. Qed.

Lemma neqb_to_neq (a b : string) : negb (String.eqb a b) = true <-> a <> b.
Proof. rewrite negb_true_iff. apply String.eqb_neq. Qed.

Lemma neqb_false (a b : string) : negb (String.eqb a b) = false <-> a = b.
Proof. rewrite negb_false_iff. apply String.eqb_eq. Qed.

#[global] Arguments i64 : simpl never.

Create HintDb go_db.
#[export] Hint Resolve i64_range : go_db.
