(* ===== verification/GoTime.v ===== *)
(** * Go's time values, durations and float64 as the modelled code uses them. *)

From S2P Require Import Prelude.
From Stdlib Require Import SpecFloat String Ascii.

Open Scope Z_scope.
Open Scope go_scope.

(** ** time.Time and time.Duration *)

(** An instant, in nanoseconds since Go's zero time (0001-01-01T00:00:00Z), so
    that [IsZero] is [t = 0].  [time.Time] reaches far beyond what any field of
    the program holds, so instants do not wrap; durations are [int64]. *)
Definition Time := Z.
Definition Duration := Z.

Definition IsZero (t : Time) : bool := t =? 0.
Definition Before (t u : Time) : bool := t <? u.
Definition After (t u : Time) : bool := u <? t.
Definition Add (t : Time) (d : Duration) : Time := t + d.

(** [Time.Sub] saturates at the ends of [int64]. *)
Definition Sub (t u : Time) : Duration := Z.max (- two63) (Z.min (two63 - 1) (t - u)).

Definition Nanosecond : Duration := 1.
Definition Second : Duration := 1000000000.
Definition Minute : Duration := 60 * Second.
Definition Hour : Duration := 60 * Minute.

(** ** float64 *)

Definition float64 := spec_float.
Definition f64_of_int (z : Z) : float64 := binary_normalize 53 1024 z 0 false.
Definition f64_add : float64 -> float64 -> float64 := SFadd 53 1024.
Definition f64_div : float64 -> float64 -> float64 := SFdiv 53 1024.
Definition f64_mul : float64 -> float64 -> float64 := SFmul 53 1024.
Definition f64_ltb : float64 -> float64 -> bool := SFltb.
Definition f64_leb : float64 -> float64 -> bool := SFleb.
Definition f64_zero : float64 := S754_zero false.

(** Conversion to [int] truncates toward zero.  Go leaves NaN, the infinities and
    the values outside [int64] implementation-defined; no modelled call reaches
    them, and they read 0 here. *)
Definition int_of_f64 (f : float64) : Z :=
  match f with
  | S754_finite s m e =>
      let a := if 0 <=? e then Z.pos m * 2 ^ e else Z.pos m / 2 ^ (- e) in
      if s then - a else a
  | _ => 0
  end.

(** [Duration.Seconds]: the whole seconds and the fraction are converted apart. *)
Definition Seconds (d : Duration) : float64 :=
  let sec := Z.quot d Second in
  let nsec := Z.rem d Second in
  f64_add (f64_of_int sec) (f64_div (f64_of_int nsec) (f64_of_int 1000000000)).

(** ** The civil calendar *)

Definition isLeap (y : Z) : bool :=
  (y mod 4 =? 0) && (negb (y mod 100 =? 0) || (y mod 400 =? 0)).

Definition daysIn (m y : Z) : Z :=
  if m =? 2 then (if isLeap y then 29 else 28)
  else if (m =? 4) || (m =? 6) || (m =? 9) || (m =? 11) then 30 else 31.

Fixpoint days_before_month (n : nat) (m y : Z) : Z :=
  match n with
  | O => 0
  | S n' => if Z.of_nat n <? m then daysIn (Z.of_nat n) y + days_before_month n' m y
            else days_before_month n' m y
  end.

(** Days from 0001-01-01 to the date, by the proleptic Gregorian calendar. *)
Definition date_days (y m d : Z) : Z :=
  365 * (y - 1) + (y - 1) / 4 - (y - 1) / 100 + (y - 1) / 400
  + days_before_month 12 m y + (d - 1).

Definition Date (y m d hh mm ss ns : Z) : Time :=
  (((date_days y m d * 24 + hh) * 60 + mm) * 60 + ss) * Second + ns.

(** ** time.Parse(time.RFC3339, s) *)

Definition digit (a : ascii) : option Z :=
  let n := Z.of_nat (nat_of_ascii a) in
  if (48 <=? n) && (n <=? 57) then Some (n - 48) else None.

(** [getnum]: one or two digits, exactly two when [fixed]. *)
Definition getnum (s : string) (fixed : bool) : option (Z * string) :=
  match s with
  | String a s1 =>
      match digit a with
      | None => None
      | Some x =>
          match s1 with
          | String b s2 =>
              match digit b with
              | Some y => Some (x * 10 + y, s2)
              | None => if fixed then None else Some (x, s1)
              end
          | EmptyString => if fixed then None else Some (x, s1)
          end
      end
  | EmptyString => None
  end.

Definition skip (a : ascii) (s : string) : option string :=
  match s with
  | String b s' => if Ascii.eqb a b then Some s' else None
  | EmptyString => None
  end.

Definition parse_year (s : string) : option (Z * string) :=
  match s with
  | String a (String b (String c (String d s'))) =>
      match digit a, digit b, digit c, digit d with
      | Some w, Some x, Some y, Some z => Some (w * 1000 + x * 100 + y * 10 + z, s')
      | _, _, _, _ => None
      end
  | _ => None
  end.

(** A fraction of a second: nine digits count, the rest are read and dropped. *)
Fixpoint frac_digits (s : string) (weight acc : Z) : Z * string :=
  match s with
  | String a s' =>
      match digit a with
      | Some x => frac_digits s' (weight / 10) (acc + x * weight)
      | None => (acc, s)
      end
  | EmptyString => (acc, s)
  end.

Definition parse_frac (s : string) : Z * string :=
  match s with
  | String p (String a s') =>
      if (Ascii.eqb p "."%char || Ascii.eqb p ","%char)
         && (if digit a is Some _ then true else false)
      then frac_digits (String a s') 100000000 0
      else (0, s)
  | _ => (0, s)
  end.

(** The [Z07:00] element: [Z], or a signed [hh:mm]. The offset is in seconds. *)
Definition parse_zone (s : string) : option (Z * string) :=
  match s with
  | String "Z"%char s' => Some (0, s')
  | String sg (String h1 (String h2 (String c (String m1 (String m2 s'))))) =>
      if Ascii.eqb c ":"%char then
        match getnum (String h1 (String h2 EmptyString)) true,
              getnum (String m1 (String m2 EmptyString)) true with
        | Some (hr, _), Some (mm, _) =>
            if (24 <? hr) || (60 <? mm) then None
            else
              let off := (hr * 60 + mm) * 60 in
              if Ascii.eqb sg "+"%char then Some (off, s')
              else if Ascii.eqb sg "-"%char then Some (- off, s')
              else None
        | _, _ => None
        end
      else None
  | _ => None
  end.

Definition guard_range (lo hi : Z) (r : option (Z * string)) : option (Z * string) :=
  match r with
  | Some (x, s) => if (lo <=? x) && (x <=? hi) then Some (x, s) else None
  | None => None
  end.

Definition ParseRFC3339 (s : string) : option Time :=
  '(y, s) ← parse_year s;
  s ← skip "-" s;
  '(mo, s) ← guard_range 1 12 (getnum s true);
  s ← skip "-" s;
  '(d, s) ← getnum s true;
  s ← skip "T" s;
  '(hh, s) ← guard_range 0 23 (getnum s false);
  s ← skip ":" s;
  '(mm, s) ← guard_range 0 59 (getnum s true);
  s ← skip ":" s;
  '(ss, s) ← guard_range 0 59 (getnum s true);
  let '(ns, s) := parse_frac s in
  '(off, s) ← parse_zone s;
  match s with
  | EmptyString =>
      if (1 <=? d) && (d <=? daysIn mo y)
      then Some (Date y mo d hh mm ss ns - off * Second)
      else None
  | _ => None
  end.

(** ** Time.UTC().Format(time.RFC3339) *)

(** The civil date of a day counted from 0001-01-01: the year and the day in it. *)
Definition civil_year (days : Z) : Z * Z :=
  let n400 := days / 146097 in
  let r := days mod 146097 in
  let n100 := Z.min 3 (r / 36524) in
  let r := r - n100 * 36524 in
  let n4 := r / 1461 in
  let r := r mod 1461 in
  let n1 := Z.min 3 (r / 365) in
  (400 * n400 + 100 * n100 + 4 * n4 + n1 + 1, r - 365 * n1).

(** The month a day of the year falls in, and its day of the month. *)
Fixpoint civil_month (n : nat) (m y yday : Z) : Z * Z :=
  match n with
  | O => (m, yday + 1)
  | S n' => if yday <? daysIn m y then (m, yday + 1) else civil_month n' (m + 1) y (yday - daysIn m y)
  end.

Definition digit_char (z : Z) : ascii := ascii_of_nat (Z.to_nat (48 + z mod 10)).

Definition two_digits (z : Z) (s : string) : string :=
  String (digit_char (z / 10)) (String (digit_char z) s).

(** A year of four digits, which every instant of the program has. *)
Definition FormatRFC3339 (t : Time) : string :=
  let secs := t / Second in
  let '(y, yday) := civil_year (secs / 86400) in
  let '(m, d) := civil_month 11 1 y yday in
  let r := secs mod 86400 in
  two_digits (y / 100) (two_digits (y mod 100) (String "-" (two_digits m (String "-" (two_digits d
    (String "T" (two_digits (r / 3600) (String ":" (two_digits (r / 60 mod 60)
      (String ":" (two_digits (r mod 60) "Z"))))))))))).

(** ** time.ParseDuration *)

Definition Millisecond : Duration := 1000000.
Definition Microsecond : Duration := 1000.

(** [leadingInt]: digits, [None] when they pass [1<<63]. *)
Fixpoint leadingInt (s : string) (x : Z) : option (Z * string) :=
  match s with
  | String a s' =>
      match digit a with
      | None => Some (x, s)
      | Some c =>
          if two63 / 10 <? x then None
          else let x := x * 10 + c in if two63 <? x then None else leadingInt s' x
      end
  | EmptyString => Some (x, s)
  end.

(** [leadingFraction]: digits past what 63 bits hold are read and dropped. *)
Fixpoint leadingFraction (s : string) (x : Z) (scale : float64) (overflow : bool)
  : Z * float64 * string :=
  match s with
  | String a s' =>
      match digit a with
      | None => (x, scale, s)
      | Some c =>
          if overflow then leadingFraction s' x scale true
          else if (two63 - 1) / 10 <? x then leadingFraction s' x scale true
          else let y := x * 10 + c in
               if two63 <? y then leadingFraction s' x scale true
               else leadingFraction s' y (f64_mul scale (f64_of_int 10)) false
      end
  | EmptyString => (x, scale, s)
  end.

(** The bytes up to the next digit or period. *)
Fixpoint span_unit (s : string) : string * string :=
  match s with
  | String a s' =>
      if Ascii.eqb a "." || is_set (digit a) then (EmptyString, s)
      else let '(u, r) := span_unit s' in (String a u, r)
  | EmptyString => (EmptyString, s)
  end.

(** A micro sign is U+00B5 or U+03BC, in UTF-8. *)
Definition micro (a b : nat) : string :=
  String (ascii_of_nat a) (String (ascii_of_nat b) "s").

Definition unitMap : list (string * Z) :=
  [("ns", Nanosecond); ("us", Microsecond); (micro 194 181, Microsecond);
   (micro 206 188, Microsecond); ("ms", Millisecond); ("s", Second); ("m", Minute);
   ("h", Hour)]%string.

(** One number with its unit: its value in nanoseconds and the rest. *)
Definition parse_term (s : string) : option (Z * string) :=
  match leadingInt s 0 with
  | None => None
  | Some (v, s1) =>
      let pre := negb (String.eqb s1 s) in
      let '(f, scale, s2, post) :=
        match s1 with
        | String "." s1' =>
            let '(f, scale, s2) := leadingFraction s1' 0 (f64_of_int 1) false in
            (f, scale, s2, negb (String.eqb s2 s1'))
        | _ => (0, f64_of_int 1, s1, false)
        end in
      if negb pre && negb post then None
      else
        let '(u, s3) := span_unit s2 in
        if u == "" then None
        else match tbl unitMap u with
             | None => None
             | Some unit =>
                 if two63 / unit <? v then None
                 else
                   let v := v * unit in
                   if 0 <? f then
                     let v := v + int_of_f64 (f64_mul (f64_of_int f) (f64_div (f64_of_int unit) scale)) in
                     if two63 <? v then None else Some (v, s3)
                   else Some (v, s3)
             end
  end.

(** The sum of the terms, in [uint64]. *)
Fixpoint parse_terms (fuel : nat) (s : string) (d : Z) : option Z :=
  match fuel, s with
  | _, EmptyString => Some d
  | O, _ => None
  | S fuel', String _ _ =>
      match parse_term s with
      | None => None
      | Some (v, s') =>
          let d := (d + v) mod (2 * two63) in
          if two63 <? d then None else parse_terms fuel' s' d
      end
  end.

(** Every term reads at least a byte, so the length of the string is fuel enough. *)
Definition ParseDuration (s : string) : option Duration :=
  let '(neg, s) := match s with
                   | String "-" s' => (true, s')
                   | String "+" s' => (false, s')
                   | _ => (false, s)
                   end in
  if s == "0" then Some 0
  else if s == "" then None
  else match parse_terms (String.length s) s 0 with
       | None => None
       | Some d => if neg then Some (i64 (- d))
                   else if two63 - 1 <? d then None else Some d
       end.

(** ** Exact integers

    The closed form of the conversion of an integer below [2^53]: the number of
    binary digits of its magnitude and its mantissa shifted up to 53 digits. *)
Definition dg (p : positive) : Z := Z.pos (digits2_pos p).

(** The 53-bit mantissa of an integer below [2^53]. *)
Definition norm_m (p : positive) : positive :=
  match (53 - dg p)%Z with Z.pos k => Pos.iter xO p k | _ => p end.

Definition f64_int (z : Z) : float64 :=
  match z with
  | Z0 => S754_zero false
  | Z.pos p => S754_finite false (norm_m p) (dg p - 53)
  | Z.neg p => S754_finite true (norm_m p) (dg p - 53)
  end.

(** ** Float lemmas *)

Lemma dg_xO_iter p n : dg (Pos.iter xO p n) = dg p + Z.pos n.
Proof.
  unfold dg. induction n using Pos.peano_ind; [cbn; lia|].
  rewrite Pos.iter_succ. cbn [digits2_pos]. lia.
Qed.

Lemma xO_iter_val p n : Z.pos (Pos.iter xO p n) = Z.pos p * 2 ^ Z.pos n.
Proof.
  induction n using Pos.peano_ind; [cbn; lia|].
  rewrite Pos.iter_succ, Pos2Z.inj_succ, Z.pow_succ_r by lia. lia.
Qed.

Lemma dg_bounds p : 2 ^ (dg p - 1) <= Z.pos p < 2 ^ dg p.
Proof.
  unfold dg. induction p as [p IH|p IH|]; cbn [digits2_pos].
  - rewrite Pos2Z.inj_succ. replace (Z.succ _ - 1) with (Z.succ (Z.pos (digits2_pos p) - 1)) by lia.
    rewrite !Z.pow_succ_r by lia. lia.
  - rewrite Pos2Z.inj_succ. replace (Z.succ _ - 1) with (Z.succ (Z.pos (digits2_pos p) - 1)) by lia.
    rewrite !Z.pow_succ_r by lia. lia.
  - cbn. lia.
Qed.

Lemma dg_le_53 p : Z.pos p < 2 ^ 53 -> dg p <= 53.
Proof.
  intros H. pose proof (dg_bounds p) as [Hl _].
  destruct (Z.le_gt_cases (dg p) 53) as [|Hgt]; [done|].
  assert (2 ^ 53 <= 2 ^ (dg p - 1)) by (apply Z.pow_le_mono_r; lia). lia.
Qed.

(** Shifting out zero bits is exact. *)
Lemma shr_1_zero m :
  shr_1 (Build_shr_record (Z.pos (xO m)) false false) = Build_shr_record (Z.pos m) false false.
Proof. reflexivity. Qed.


Lemma iter_pos_iter {A} (f : A -> A) n x : iter_pos f n x = Pos.iter f x n.
Proof.
  revert x. induction n as [n IH|n IH|]; intros x; cbn; rewrite ?IH, ?Pos.iter_swap; done.
Qed.

Lemma shr_iter_zero p n :
  iter_pos shr_1 n (Build_shr_record (Z.pos (Pos.iter xO p n)) false false)
  = Build_shr_record (Z.pos p) false false.
Proof.
  rewrite iter_pos_iter. induction n using Pos.peano_ind; [done|].
  rewrite Pos.iter_succ_r, Pos.iter_succ, shr_1_zero. done.
Qed.

(** [binary_round_aux] is the identity on a 53-bit mantissa in range. *)
Lemma round_aux_full s m e :
  dg m = 53 -> -1074 <= e -> e <= 971 ->
  binary_round_aux 53 1024 s (Z.pos m) e loc_Exact = S754_finite s m e.
Proof.
  intros Hd Hlo Hhi. unfold binary_round_aux, shr_fexp, fexp, emin. cbn [Zdigits2].
  fold (dg m). rewrite Hd.
  replace (Z.max _ _ - e) with 0 by lia. cbn [shr shr_m shr_record_of_loc loc_of_shr_record round_nearest_even].
  cbn [Zdigits2]. fold (dg m). rewrite Hd.
  replace (Z.max _ _ - e) with 0 by lia. cbn.
  destruct (Z.leb_spec e (1024 - 53)); [done|lia].
Qed.

(** Same, when the mantissa carries [n] extra zero bits. *)
Lemma round_aux_zeros s m e n :
  dg m = 53 -> -1074 <= e -> e + Z.pos n <= 971 ->
  binary_round_aux 53 1024 s (Z.pos (Pos.iter xO m n)) e loc_Exact = S754_finite s m (e + Z.pos n).
Proof.
  intros Hd Hlo Hhi. unfold binary_round_aux, shr_fexp, fexp, emin. cbn [Zdigits2].
  fold (dg (Pos.iter xO m n)). rewrite dg_xO_iter, Hd.
  replace (Z.max _ _ - e) with (Z.pos n) by lia.
  cbn [shr shr_record_of_loc]. rewrite shr_iter_zero.
  cbn [shr_m loc_of_shr_record round_nearest_even].
  cbn [Zdigits2 shr_record_of_loc]. fold (dg m). rewrite Hd.
  replace (Z.max _ _ - (e + Z.pos n)) with 0 by lia. cbn.
  destruct (Z.leb_spec (e + Z.pos n) (1024 - 53)); [done|lia].
Qed.

Lemma norm_m_val p : dg p <= 53 -> Z.pos (norm_m p) = Z.pos p * 2 ^ (53 - dg p).
Proof.
  intros H. unfold norm_m. destruct (53 - dg p)%Z eqn:E; [lia| |lia]. apply xO_iter_val.
Qed.

Lemma norm_m_dg p : dg p <= 53 -> dg (norm_m p) = 53.
Proof.
  intros H. unfold norm_m. destruct (53 - dg p)%Z eqn:E; [lia| |lia]. rewrite dg_xO_iter. lia.
Qed.

Lemma binary_round_scaled s p k q :
  dg p <= 53 -> 0 <= k <= 53 -> Z.pos q = Z.pos p * 2 ^ k ->
  binary_round 53 1024 s q (- k) = S754_finite s (norm_m p) (dg p - 53).
Proof.
  intros Hd Hk Hq.
  assert (Hdg1 : 1 <= dg p) by (unfold dg; lia).
  assert (Hqi : q = match k with Z.pos n => Pos.iter xO p n | _ => p end).
  { destruct k as [|n|]; [|  |lia].
    - cbn in Hq. lia.
    - pose proof (xO_iter_val p n). lia. }
  assert (Hdq : dg q = dg p + k).
  { rewrite Hqi. destruct k; [lia|apply dg_xO_iter|lia]. }
  unfold binary_round, fexp, emin. fold (dg q). rewrite Hdq.
  replace (Z.max _ _) with (dg p - 53) by lia.
  unfold shl_align. destruct (dg p - 53 - - k) eqn:E.
  - rewrite round_aux_full by lia. f_equal; [|lia].
    assert (Z.pos q = Z.pos (norm_m p)); [|congruence].
    rewrite norm_m_val by lia. rewrite Hq. do 2 f_equal. lia.
  - replace q with (Pos.iter xO (norm_m p) p0).
    + rewrite round_aux_zeros by (rewrite ?norm_m_dg; lia). f_equal. lia.
    + assert (Z.pos (Pos.iter xO (norm_m p) p0) = Z.pos q); [|congruence].
      rewrite xO_iter_val, norm_m_val, Hq by lia.
      rewrite <- Z.mul_assoc, <- Z.pow_add_r by lia. do 2 f_equal. lia.
  - rewrite round_aux_full.
    + f_equal.
      assert (Z.pos (Pos.iter xO q p0) = Z.pos (norm_m p)); [|congruence].
      rewrite xO_iter_val, norm_m_val, Hq by lia.
      rewrite <- Z.mul_assoc, <- Z.pow_add_r by lia. do 2 f_equal. lia.
    + rewrite dg_xO_iter. lia.
    + lia.
    + lia.
Qed.

Lemma normalize_scaled z k :
  Z.abs z < 2 ^ 53 -> 0 <= k <= 53 ->
  binary_normalize 53 1024 (z * 2 ^ k) (- k) false = f64_int z.
Proof.
  intros Hz Hk. assert (0 < 2 ^ k) by (apply Z.pow_pos_nonneg; lia).
  destruct z as [|p|p]; cbn [f64_int].
  - done.
  - destruct (Z.pos p * 2 ^ k) eqn:E; [nia| |nia]. cbn [binary_normalize].
    apply binary_round_scaled; [apply dg_le_53; lia|lia|lia].
  - destruct (Z.neg p * 2 ^ k) eqn:E; [nia|nia|]. cbn [binary_normalize].
    apply binary_round_scaled; [apply dg_le_53; lia|lia|nia].
Qed.

Lemma f64_of_int_exact z : Z.abs z < 2 ^ 53 -> f64_of_int z = f64_int z.
Proof.
  intros Hz. unfold f64_of_int. rewrite <- (normalize_scaled z 0) by lia.
  rewrite Z.mul_1_r. done.
Qed.

Lemma shl_align_val m e k :
  0 <= k -> - k <= e -> Z.pos (fst (shl_align m e (- k))) = Z.pos m * 2 ^ (e + k).
Proof.
  intros Hk He. unfold shl_align. destruct (- k - e) eqn:E; cbn [fst].
  - replace (e + k) with 0 by lia. lia.
  - lia.
  - rewrite xO_iter_val. do 2 f_equal. lia.
Qed.

Lemma norm_shift p k :
  dg p <= 53 -> 53 - dg p <= k ->
  Z.pos (norm_m p) * 2 ^ (dg p - 53 + k) = Z.pos p * 2 ^ k.
Proof.
  intros Hd Hk. rewrite norm_m_val by lia.
  rewrite <- Z.mul_assoc, <- Z.pow_add_r by lia. do 2 f_equal. lia.
Qed.

Lemma f64_add_int a b :
  Z.abs a < 2 ^ 53 -> Z.abs b < 2 ^ 53 -> Z.abs (a + b) < 2 ^ 53 ->
  f64_add (f64_int a) (f64_int b) = f64_int (a + b).
Proof.
  intros Ha Hb Hab.
  destruct a as [|p|p]; [destruct b; done| |].
  all: destruct b as [|q|q]; [rewrite ?Z.add_0_r; done| |].
  all: unfold f64_add; cbn [f64_int SFadd];
    pose proof (dg_le_53 p ltac:(lia)); pose proof (dg_le_53 q ltac:(lia));
    assert (1 <= dg p) by (unfold dg; lia); assert (1 <= dg q) by (unfold dg; lia);
    set (k := 53 - Z.min (dg p) (dg q));
    replace (Z.min (dg p - 53) (dg q - 53)) with (- k) by lia;
    rewrite !shl_align_val, !norm_shift by lia; cbn [cond_Zopp];
    rewrite <- (normalize_scaled _ k) by lia; f_equal; lia.
Qed.

Lemma norm_compare p q :
  dg p <= 53 -> dg q <= 53 ->
  match dg p - 53 ?= dg q - 53 with
  | Lt => Lt | Gt => Gt | Eq => Pos.compare_cont Eq (norm_m p) (norm_m q)
  end = (Z.pos p ?= Z.pos q).
Proof.
  intros Hp Hq. pose proof (dg_bounds p). pose proof (dg_bounds q).
  destruct (Z.compare_spec (dg p - 53) (dg q - 53)) as [E|E|E].
  - assert (Hpq : dg p = dg q) by lia.
    change (Pos.compare_cont Eq (norm_m p) (norm_m q)) with (Z.pos (norm_m p) ?= Z.pos (norm_m q)).
    rewrite !norm_m_val, Hpq by lia.
    assert (0 < 2 ^ (53 - dg q)) by (apply Z.pow_pos_nonneg; lia).
    destruct (Z.compare_spec (Z.pos p) (Z.pos q)) as [E'|E'|E'].
    + apply Z.compare_eq_iff. nia.
    + apply Z.compare_lt_iff. nia.
    + apply Z.compare_gt_iff. nia.
  - symmetry. apply Z.compare_lt_iff.
    assert (2 ^ dg p <= 2 ^ (dg q - 1)) by (apply Z.pow_le_mono_r; lia). lia.
  - symmetry. apply Z.compare_gt_iff.
    assert (2 ^ dg q <= 2 ^ (dg p - 1)) by (apply Z.pow_le_mono_r; lia). lia.
Qed.

Lemma f64_compare_int a b :
  Z.abs a < 2 ^ 53 -> Z.abs b < 2 ^ 53 -> SFcompare (f64_int a) (f64_int b) = Some (a ?= b).
Proof.
  intros Ha Hb. destruct a as [|p|p], b as [|q|q]; cbn [f64_int SFcompare]; try done.
  all: pose proof (dg_le_53 p ltac:(lia)); pose proof (dg_le_53 q ltac:(lia)).
  - rewrite norm_compare by lia. done.
  - replace (Z.neg p ?= Z.neg q) with (CompOpp (Z.pos p ?= Z.pos q))
      by (rewrite <- Z.compare_antisym; cbn; rewrite Pos.compare_antisym; done).
    rewrite <- norm_compare by lia. destruct (_ ?= _); done.
Qed.

Lemma f64_ltb_int a b :
  Z.abs a < 2 ^ 53 -> Z.abs b < 2 ^ 53 -> f64_ltb (f64_int a) (f64_int b) = (a <? b).
Proof.
  intros Ha Hb. unfold f64_ltb, SFltb, Z.ltb. rewrite f64_compare_int by done. by destruct (_ ?= _).
Qed.

Lemma f64_leb_int a b :
  Z.abs a < 2 ^ 53 -> Z.abs b < 2 ^ 53 -> f64_leb (f64_int a) (f64_int b) = (a <=? b).
Proof.
  intros Ha Hb. unfold f64_leb, SFleb, Z.leb. rewrite f64_compare_int by done. by destruct (_ ?= _).
Qed.

Lemma int_of_f64_int z : Z.abs z < 2 ^ 53 -> int_of_f64 (f64_int z) = z.
Proof.
  assert (Hpos : forall p, Z.pos p < 2 ^ 53 ->
    (if 0 <=? dg p - 53 then Z.pos (norm_m p) * 2 ^ (dg p - 53)
     else Z.pos (norm_m p) / 2 ^ (- (dg p - 53))) = Z.pos p).
  { intros p Hp. pose proof (dg_le_53 p Hp). rewrite norm_m_val by lia.
    destruct (Z.leb_spec 0 (dg p - 53)) as [Hle|Hlt].
    - replace (dg p - 53) with 0 by lia. replace (53 - dg p) with 0 by lia. lia.
    - replace (- (dg p - 53)) with (53 - dg p) by lia. apply Z.div_mul.
      apply Z.pow_nonzero; lia. }
  intros Hz. destruct z as [|p|p]; cbn [f64_int int_of_f64]; [done|..]; rewrite Hpos by lia; lia.
Qed.

(** The order on floats is lexicographic, hence transitive, also off the canonical ones. *)
Lemma f64_leb_trans x y z : f64_leb x y = true -> f64_leb y z = true -> f64_leb x z = true.
Proof.
  unfold f64_leb, SFleb.
  destruct x as [[]|[]| |[] p e], y as [[]|[]| |[] q f], z as [[]|[]| |[] r g]; cbn;
    try discriminate; try reflexivity.
  - destruct (Z.compare_spec e f), (Z.compare_spec f g), (Z.compare_spec e g);
      cbn; try discriminate; try reflexivity; try lia;
      change (Pos.compare_cont Eq) with Pos.compare;
      destruct (Pos.compare_spec p q), (Pos.compare_spec q r), (Pos.compare_spec p r);
      cbn; try discriminate; try reflexivity; lia.
  - destruct (Z.compare_spec e f), (Z.compare_spec f g), (Z.compare_spec e g);
      cbn; try discriminate; try reflexivity; try lia;
      change (Pos.compare_cont Eq) with Pos.compare;
      destruct (Pos.compare_spec p q), (Pos.compare_spec q r), (Pos.compare_spec p r);
      cbn; try discriminate; try reflexivity; lia.
Qed.

(** A whole number of seconds converts exactly. *)
Lemma Seconds_whole k : Z.abs k < 2 ^ 53 -> Seconds (k * Second) = f64_int k.
Proof.
  intros Hk. unfold Seconds.
  rewrite Z.quot_mul, Z.rem_mul, f64_of_int_exact by (unfold Second; lia).
  replace (f64_div (f64_of_int 0) (f64_of_int 1000000000)) with (f64_int 0) by (vm_compute; done).
  rewrite f64_add_int by lia. by rewrite Z.add_0_r.
Qed.

(** ** Instants *)

Lemma Sub_exact t u : in_i64 (t - u) -> Sub t u = t - u.
Proof. unfold in_i64, Sub, two63. lia. Qed.

Lemma Sub_range t u : in_i64 (Sub t u).
Proof. unfold in_i64, Sub, two63. lia. Qed.

Lemma Sub_mono t t' u : t <= t' -> Sub t u <= Sub t' u.
Proof. unfold Sub. lia. Qed.

(** Two instants a whole number of seconds apart, at most [2^33] of them. *)
Lemma Sub_whole u k : 0 <= k <= 2 ^ 33 -> Sub (u + k * Second) u = k * Second.
Proof. intros Hk. rewrite Sub_exact; [lia|]. unfold in_i64, two63, Second. lia. Qed.

Lemma Seconds_between u k : 0 <= k <= 2 ^ 33 -> Seconds (Sub (u + k * Second) u) = f64_int k.
Proof. intros Hk. rewrite Sub_whole by lia. apply Seconds_whole. lia. Qed.

(** A saturated difference still compares correctly with a budget inside [int64]. *)
Lemma Sub_leb t u b : - two63 <= b < two63 - 1 -> (Sub t u <=? b) = (t <=? u + b).
Proof.
  intros Hb. unfold Sub. destruct (Z.leb_spec t (u + b)), (Z.leb_spec (Z.max (- two63) (Z.min (two63 - 1) (t - u))) b); lia.
Qed.

#[export] Hint Resolve Sub_range : go_db.

(** ** Worked instants *)

Example parse_2026 : ParseRFC3339 "2026-08-22T10:11:12Z" = Some (Date 2026 8 22 10 11 12 0).
Proof. vm_compute. reflexivity. Qed.
Example parse_off : ParseRFC3339 "2026-08-22T10:11:12.5+02:00" = Some (Date 2026 8 22 8 11 12 500000000).
Proof. vm_compute. reflexivity. Qed.
Example parse_bad : ParseRFC3339 "2026-02-29T10:11:12Z" = None.
Proof. vm_compute. reflexivity. Qed.
Example sec_15 : int_of_f64 (Seconds (1500000000)) = 1.
Proof. vm_compute. reflexivity. Qed.

Example parse_hours : ParseDuration "1h30m" = Some (90 * Minute)
  /\ ParseDuration "168h" = Some (7 * 24 * Hour) /\ ParseDuration "1.5h" = Some (90 * Minute)
  /\ ParseDuration "-2us" = Some (-2000) /\ ParseDuration "1d" = None /\ ParseDuration "5" = None
  /\ ParseDuration "9223372036854775808ns" = None /\ ParseDuration ".5s" = Some (500 * Millisecond).
Proof. repeat split; vm_compute; reflexivity. Qed.

Example format_instants :
  map (fun t => ParseRFC3339 (FormatRFC3339 t))
    [Date 2026 8 22 10 11 12 0; Date 2024 2 29 23 59 59 0; Date 2000 12 31 0 0 0 0; Date 1 1 1 0 0 0 0]
  = [Some (Date 2026 8 22 10 11 12 0); Some (Date 2024 2 29 23 59 59 0);
     Some (Date 2000 12 31 0 0 0 0); Some (Date 1 1 1 0 0 0 0)]
  /\ FormatRFC3339 (Date 2026 8 22 10 11 12 0) = "2026-08-22T10:11:12Z"%string.
Proof. split; vm_compute; reflexivity. Qed.
