(* ===== verification/Limits.v ===== *)
(** * Byte and character limits on externally sized text (api/v1alpha1/limits.go), and
    the part of unicode/utf8 they rest on. *)

From S2P Require Import Prelude Text.
From Stdlib Require Import String Ascii.

Open Scope Z_scope.
Open Scope go_scope.

(** ** UTF-8 *)

Definition byte_of (a : ascii) : Z := Z.of_N (N_of_ascii a).

Definition within (lo hi : Z) (a : ascii) : bool := (lo <=? byte_of a) && (byte_of a <=? hi).

Definition continues (a : ascii) : bool := within 128 191 a.

(** The second byte a leading byte accepts. *)
Definition second (a b : ascii) : bool :=
  if byte_of a =? 224 then within 160 191 b
  else if byte_of a =? 237 then within 128 159 b
  else if byte_of a =? 240 then within 144 191 b
  else if byte_of a =? 244 then within 128 143 b
  else continues b.

(** What [for i, r := range s] steps over: the encodings of the runes, a byte that
    starts none standing alone. *)
Fixpoint runes (s : string) : list string :=
  match s with
  | EmptyString => []
  | String a s1 =>
      if within 194 223 a then
        match s1 with
        | String b s2 =>
            if continues b then String a (String b "") :: runes s2 else String a "" :: runes s1
        | _ => String a "" :: runes s1
        end
      else if within 224 239 a then
        match s1 with
        | String b (String c s3) =>
            if second a b && continues c then String a (String b (String c "")) :: runes s3
            else String a "" :: runes s1
        | _ => String a "" :: runes s1
        end
      else if within 240 244 a then
        match s1 with
        | String b (String c (String d s4)) =>
            if second a b && continues c && continues d then
              String a (String b (String c (String d ""))) :: runes s4
            else String a "" :: runes s1
        | _ => String a "" :: runes s1
        end
      else String a "" :: runes s1
  end%string.

(** A step that is no encoding error. *)
Definition encoded (w : string) : bool :=
  match w with String a EmptyString => within 0 127 a | _ => true end.

Definition ValidString (s : string) : bool := forallb encoded (runes s).

Definition RuneCountInString (s : string) : Z := Z.of_nat (List.length (runes s)).

Definition join (l : list string) : string := fold_right String.append "" l.

(** ** The limits *)

Definition GoalMaxBytes : Z := 16384.
Definition NoteBodyMaxBytes : Z := 4096.
Definition TaskEventBodyMaxBytes : Z := 4096.
Definition CommentBodyMaxBytes : Z := 8192.
Definition ReviewFindingBodyMaxBytes : Z := 8192.
Definition PendingReviewBodyMaxBytes : Z := 16384.
Definition PendingCommentBodyMaxBytes : Z := 16384.
Definition IssueBodyMaxBytes : Z := 65536.
Definition MergeRequestBodyMaxBytes : Z := 65536.
Definition LastTurnReposTurnIDMaxBytes : Z := 256.
Definition IssueTitleMaxChars : Z := 255.
Definition titleTruncatedMarker : string := "...(truncated)".

(** [s[:n]]. *)
Fixpoint take_bytes (n : nat) (s : string) : string :=
  match n, s with
  | S n', String a s' => String a (take_bytes n' s')
  | _, _ => EmptyString
  end.

(** The loop that drops the last byte of [s[:n]] while it is not valid. *)
Fixpoint cut_back (n : nat) (s : string) : string :=
  match n with
  | O => EmptyString
  | S n' => if ValidString (take_bytes n s) then take_bytes n s else cut_back n' s
  end.

(** The callers pass one of the constants, so [maxBytes] is not negative. *)
Definition TruncateUTF8 (s : string) (maxBytes : Z) : string :=
  if Z.of_nat (String.length s) <=? maxBytes then s else cut_back (Z.to_nat maxBytes) s.

(** The loop over the runes, [n] of them behind it. *)
Fixpoint truncate_runes (l : list string) (n maxRunes : Z) : string :=
  match l with
  | [] => EmptyString
  | w :: l' => if n =? maxRunes then EmptyString else String.append w (truncate_runes l' (n + 1) maxRunes)
  end.

Definition TruncateRunes (s : string) (maxRunes : Z) : string :=
  if maxRunes <=? 0 then EmptyString else truncate_runes (runes s) 0 maxRunes.

(** ** Titles *)

(** LF, CR, VT, FF, NEL and the line and paragraph separators. *)
Definition titleLineBreaks : list string :=
  map of_bytes [[10]; [13]; [11]; [12]; [194; 133]; [226; 128; 168]; [226; 128; 169]]%nat.

Definition is_break (w : string) : bool := str_mem titleLineBreaks w.

Definition RuneError : string := of_bytes [239; 191; 189]%nat.

(** What strings.Map writes for one step: a space for a line break, and an encoding
    error becomes U+FFFD. *)
Definition flat_rune (w : string) : string :=
  if is_break w then " "%string else if encoded w then w else RuneError.

Definition flattenTitleLines (title : string) : string :=
  if negb (existsb is_break (runes title)) then title
  else join (map flat_rune (runes (replace_crlf title))).

(** [strings.TrimRightFunc(s, unicode.IsSpace)]. *)
Definition TrimRight (s : string) : string :=
  let r := rev_string s "" in
  rev_string (trim_front (String.length r) (map (fun w => rev_string w "") spaces) r) "".

Definition ClampIssueTitle (title : string) : string :=
  let title := flattenTitleLines title in
  let title := TrimSpace title in
  if RuneCountInString title <=? IssueTitleMaxChars then title
  else
    let cut := TruncateRunes title (IssueTitleMaxChars - RuneCountInString titleTruncatedMarker) in
    String.append (TrimRight cut) titleTruncatedMarker.

(** ** Vocabulary of the lemmas *)

(** Whether a string starts with a continuation byte, and so may complete what is in
    front of it. *)
Definition detached (s : string) : bool :=
  match s with String c _ => negb (continues c) | EmptyString => true end.

(** Whether [a] and what follows it encode a rune of several bytes. *)
Definition opens (a : ascii) (s : string) : bool :=
  (within 194 223 a && match s with String b _ => continues b | _ => false end)
  || (within 224 239 a &&
      match s with String b (String c _) => second a b && continues c | _ => false end)
  || (within 240 244 a &&
      match s with
      | String b (String c (String d _)) => second a b && continues c && continues d
      | _ => false
      end).

(** ** Lemmas on steps *)

Lemma app_cons a s t : String.append (String a s) t = String a (String.append s t).
Proof. reflexivity. Qed.

Lemma app_start s : String.append "" s = s.
Proof. reflexivity. Qed.

Lemma app_nil_s s : String.append s "" = s.
Proof. induction s as [|a s IH]; [done|]. rewrite app_cons. by rewrite IH. Qed.

Lemma app_assoc_s s t u : String.append (String.append s t) u = String.append s (String.append t u).
Proof. induction s as [|a s IH]; [done|]. rewrite !app_cons. by rewrite IH. Qed.

Lemma length_app_s s t : String.length (String.append s t) = (String.length s + String.length t)%nat.
Proof. induction s as [|a s IH]; [done|]. rewrite app_cons. cbn. by rewrite IH. Qed.

(** Case analysis on the tests a step makes. *)
Ltac step_cases :=
  repeat match goal with
  | |- context [if ?c then _ else _] => let E := fresh "E" in destruct c eqn:E
  | |- context [match ?s with EmptyString => _ | String _ _ => _ end] => destruct s
  end.

Lemma runes_step s : s <> EmptyString ->
  exists w t, s = String.append w t /\ runes s = w :: runes t
    /\ (1 <= String.length w <= 4)%nat
    /\ (encoded w = true -> forall t', runes (String.append w t') = w :: runes t').
Proof.
  destruct s as [|a s1]; [done|]. intros _.
  assert (exists w t, String a s1 = String.append w t /\ runes (String a s1) = w :: runes t
    /\ (1 <= String.length w <= 4)%nat
    /\ (w = String a "" /\ encoded w = within 0 127 a
        \/ forall t', runes (String.append w t') = w :: runes t')) as (w & t & H1 & H2 & H3 & H4).
  { cbn [runes]. step_cases;
      match goal with |- exists w t, _ /\ ?w' :: runes ?t' = _ /\ _ => exists w', t' end;
      (split; [reflexivity|]); (split; [reflexivity|]); (split; [cbn; lia|]);
      first [ left; split; reflexivity
            | right; intros t'; rewrite ?app_cons; cbn [runes];
              repeat match goal with H : _ = true |- _ => rewrite H end; cbn;
              repeat match goal with H : _ = false |- _ => rewrite H end; reflexivity ]. }
  exists w, t. do 3 (split; [done|]). intros He t'. destruct H4 as [[-> Hw]|H4]; [|done].
  rewrite Hw in He. rewrite app_cons. cbn [runes].
  unfold within in *. apply andb_true_iff in He as [_ He%Z.leb_le].
  destruct (Z.leb_spec 194 (byte_of a)), (Z.leb_spec 224 (byte_of a)),
    (Z.leb_spec 240 (byte_of a)); try lia. reflexivity.
Qed.

(** Induction along the steps of a string. *)
Lemma rune_ind (P : string -> Prop) :
  P EmptyString ->
  (forall w t, runes (String.append w t) = w :: runes t -> (1 <= String.length w <= 4)%nat ->
     (encoded w = true -> forall t', runes (String.append w t') = w :: runes t') ->
     P t -> P (String.append w t)) ->
  forall s, P s.
Proof.
  intros H0 HS s. remember (String.length s) as n eqn:Hn. revert s Hn.
  induction n as [n IH] using lt_wf_ind. intros s ->.
  destruct s as [|a s]; [done|].
  destruct (runes_step (String a s)) as (w & t & Hs & Hr & Hl & He); [done|].
  rewrite Hs in *. apply HS; [done|done|done|]. eapply IH; [|reflexivity]. rewrite length_app_s. lia.
Qed.

Lemma join_cons w l : join (w :: l) = String.append w (join l).
Proof. reflexivity. Qed.

Lemma join_runes s : join (runes s) = s.
Proof.
  induction s as [|w t Hr _ _ IH] using rune_ind; [done|]. rewrite Hr, join_cons. by rewrite IH.
Qed.

Lemma join_app l l' : join (l ++ l') = String.append (join l) (join l').
Proof.
  induction l as [|w l IH]; [done|]. cbn [app]. by rewrite !join_cons, IH, app_assoc_s.
Qed.

Lemma take_bytes_app w t n : (String.length w <= n)%nat ->
  take_bytes n (String.append w t) = String.append w (take_bytes (n - String.length w) t).
Proof.
  revert n. induction w as [|a w IH]; intros n Hn; [by rewrite Nat.sub_0_r|].
  destruct n as [|n]; cbn in Hn; [lia|]. rewrite !app_cons. cbn. rewrite IH by lia. done.
Qed.

Lemma take_bytes_length n s : (n <= String.length s)%nat -> String.length (take_bytes n s) = n.
Proof.
  revert s. induction n as [|n IH]; intros [|a s] H; cbn in *; try lia. rewrite IH; lia.
Qed.

Lemma take_bytes_prefix n s : HasPrefix s (take_bytes n s) = true.
Proof.
  revert s. induction n as [|n IH]; intros [|a s]; cbn; try done. by rewrite Ascii.eqb_refl, IH.
Qed.

(** Below any length of a valid string there is a boundary at most three bytes down. *)
Lemma valid_boundary s : ValidString s = true -> forall m, (m <= String.length s)%nat ->
  exists m', (m' <= m <= m' + 3)%nat /\ ValidString (take_bytes m' s) = true.
Proof.
  unfold ValidString. induction s as [|w t Hr Hl He IH] using rune_ind; intros Hv m Hm.
  { exists O. cbn in *. split; [lia|done]. }
  rewrite Hr in Hv. apply andb_true_iff in Hv as [Hw Hv]. specialize (He Hw).
  rewrite length_app_s in Hm. destruct (Nat.lt_ge_cases m (String.length w)) as [Hlt|Hge].
  - exists O. split; [lia|done].
  - destruct (IH Hv (m - String.length w)%nat ltac:(lia)) as (m' & Hm' & Hv').
    exists (String.length w + m')%nat. split; [lia|]. rewrite take_bytes_app by lia.
    replace (String.length w + m' - String.length w)%nat with m' by lia.
    rewrite He. cbn. by rewrite Hw, Hv'.
Qed.

Lemma cut_back_spec n s : exists k, (k <= n)%nat /\ cut_back n s = take_bytes k s
  /\ ValidString (take_bytes k s) = true
  /\ forall j, (k < j <= n)%nat -> ValidString (take_bytes j s) = false.
Proof.
  induction n as [|n (k & Hk & Hc & Hv & Hmax)].
  { exists O. repeat split; [done|]. intros; lia. }
  cbn [cut_back]. destruct (ValidString (take_bytes (S n) s)) eqn:E.
  - exists (S n). repeat split; [lia|done|]. intros; lia.
  - exists k. repeat split; [lia|done|done|]. intros j Hj.
    destruct (decide (j = S n)) as [->|]; [done|]. apply Hmax. lia.
Qed.

(** a cut to a byte limit is a prefix that fits and is whole UTF-8; a string that
    fits is not touched; and a valid string loses at most three bytes more than the
    limit asks for. *)
Theorem TruncateUTF8_cut (s : string) (maxBytes : Z) :
  0 <= maxBytes ->
  let r := TruncateUTF8 s maxBytes in
  HasPrefix s r = true /\ Z.of_nat (String.length r) <= maxBytes
  /\ (Z.of_nat (String.length s) <= maxBytes -> r = s)
  /\ (maxBytes < Z.of_nat (String.length s) -> ValidString r = true)
  /\ (ValidString s = true -> maxBytes < Z.of_nat (String.length s) ->
      maxBytes - 3 <= Z.of_nat (String.length r)).
Proof.
  intros Hm r. subst r. unfold TruncateUTF8. destruct (Z.leb_spec (Z.of_nat (String.length s)) maxBytes) as [Hf|Hf].
  - repeat split; try done; try lia. clear. induction s as [|a s IH]; [done|]. cbn. by rewrite Ascii.eqb_refl, IH.
  - destruct (cut_back_spec (Z.to_nat maxBytes) s) as (k & Hk & -> & Hv & Hmax).
    pose proof (take_bytes_length k s ltac:(lia)) as Hl.
    repeat split; [apply take_bytes_prefix|lia|lia|done|]. intros Hs _.
    destruct (valid_boundary s Hs (Z.to_nat maxBytes) ltac:(lia)) as (m' & Hm' & Hv').
    destruct (Nat.lt_ge_cases k m'); [|lia]. rewrite Hmax in Hv' by lia. done.
Qed.

Lemma TruncateUTF8_cut_witness :
  TruncateUTF8 (of_bytes [97; 226; 130; 172; 98])%nat 3 = "a"%string
  /\ 3 - 3 <= Z.of_nat (String.length (TruncateUTF8 (of_bytes [97; 226; 130; 172; 98])%nat 3)).
Proof.
  split; [vm_compute; reflexivity|].
  exact (proj2 (proj2 (proj2 (proj2 (TruncateUTF8_cut (of_bytes [97; 226; 130; 172; 98])%nat 3
           ltac:(discriminate))))) eq_refl ltac:(vm_compute; reflexivity)).
Defined.

(** ** Lemmas on appending *)

Lemma runes_opens a s : opens a s = false <-> runes (String a s) = String a "" :: runes s.
Proof.
  unfold opens. cbn [runes]. unfold within.
  destruct (Z.leb_spec 194 (byte_of a)), (Z.leb_spec (byte_of a) 223), (Z.leb_spec 224 (byte_of a)),
    (Z.leb_spec (byte_of a) 239), (Z.leb_spec 240 (byte_of a)), (Z.leb_spec (byte_of a) 244);
    try lia; cbn; step_cases; cbn;
    repeat match goal with H : _ = true |- _ => rewrite H end; cbn;
    try (split; [done|intros [=]]); try (split; intros; congruence); try done.
Qed.

Lemma second_continues a b : second a b = true -> continues b = true.
Proof.
  unfold second, continues, within. rewrite !andb_true_iff, !Z.leb_le. step_cases;
    rewrite ?andb_true_iff, ?Z.leb_le; lia.
Qed.

Lemma opens_extend a p q : opens a p = true -> opens a (String.append p q) = true.
Proof.
  unfold opens. destruct p as [|b [|c [|d p]]]; rewrite ?app_cons; cbn;
    rewrite ?andb_false_r, ?orb_false_r; try done.
  - intros ->. done.
  - rewrite orb_true_iff. intros [->| ->]; rewrite ?orb_true_r; done.
Qed.

Lemma opens_detached a p q : detached q = true ->
  opens a (String.append p q) = true -> opens a p = true.
Proof.
  intros Hq. destruct q as [|x q]; [by rewrite app_nil_s|]. cbn in Hq. apply negb_true_iff in Hq.
  assert (second a x = false) as Hs.
  { destruct (second a x) eqn:E; [|done]. by rewrite (second_continues a x E) in Hq. }
  unfold opens. destruct p as [|b [|c [|d p]]]; rewrite ?app_cons, ?app_start; cbn;
    destruct q as [|y [|z q]]; cbn;
    rewrite ?Hq, ?Hs; cbn; rewrite ?andb_false_r, ?orb_false_r; try done;
    repeat rewrite ?Hq, ?Hs, ?andb_false_r, ?orb_false_r; try done.
Qed.

(** A step that an encoding error is not reads the same whatever follows it. *)
Definition self_delimiting (w : string) : Prop :=
  forall t, runes (String.append w t) = w :: runes t.

Lemma encoding_error w : encoded w = false -> exists a, w = String a "".
Proof. destruct w as [|a [|b w]]; [done| |done]. by exists a. Qed.

Lemma runes_app a b : detached b = true -> runes (String.append a b) = (runes a ++ runes b)%list.
Proof.
  intros Hb. induction a as [|w t Hr _ He IH] using rune_ind; [done|].
  rewrite app_assoc_s, Hr. cbn [app]. destruct (encoded w) eqn:E; [by rewrite He, IH|].
  destruct (encoding_error w E) as [x ->]. rewrite app_cons, app_start in *.
  apply runes_opens in Hr. rewrite <- IH. apply runes_opens.
  destruct (opens x (String.append t b)) eqn:Ho; [|done]. by rewrite (opens_detached x t b Hb Ho) in Hr.
Qed.

Lemma runes_firstn n s : runes (join (firstn n (runes s))) = firstn n (runes s).
Proof.
  revert n. induction s as [|w t Hr _ He IH] using rune_ind; intros n; [by destruct n|].
  rewrite Hr. destruct n as [|n]; [done|]. cbn [firstn]. rewrite join_cons.
  destruct (encoded w) eqn:E; [by rewrite He, IH|].
  destruct (encoding_error w E) as [x ->]. rewrite app_cons, app_start in *.
  apply runes_opens in Hr. transitivity (String x "" :: runes (join (firstn n (runes t)))); [|by rewrite IH].
  apply runes_opens. destruct (opens x (join (firstn n (runes t)))) eqn:Ho; [|done].
  apply (opens_extend _ _ (join (skipn n (runes t)))) in Ho.
  rewrite <- join_app, firstn_skipn, join_runes in Ho. congruence.
Qed.

Lemma steps_self_delimiting s :
  Forall (fun w => encoded w = true -> self_delimiting w) (runes s).
Proof.
  induction s as [|w t Hr _ He IH] using rune_ind; [constructor|]. rewrite Hr. by constructor.
Qed.

Lemma runes_join l : Forall self_delimiting l -> runes (join l) = l.
Proof. induction 1 as [|w l Hw _ IH]; [done|]. by rewrite join_cons, Hw, IH. Qed.

Lemma truncate_runes_firstn l n m : n <= m ->
  truncate_runes l n m = join (firstn (Z.to_nat (m - n)) l).
Proof.
  revert n. induction l as [|w l IH]; intros n Hn; cbn [truncate_runes]; [by rewrite firstn_nil|].
  destruct (Z.eqb_spec n m) as [->|Hne]; [by rewrite Z.sub_diag|].
  rewrite IH by lia. replace (Z.to_nat (m - n)) with (S (Z.to_nat (m - (n + 1)))) by lia.
  cbn [firstn]. by rewrite join_cons.
Qed.

Lemma TruncateRunes_count s n : 0 <= n -> RuneCountInString (TruncateRunes s n) <= n.
Proof.
  intros Hn. unfold TruncateRunes, RuneCountInString. destruct (Z.leb_spec n 0) as [H|H]; [cbn; lia|].
  rewrite truncate_runes_firstn, runes_firstn by lia. rewrite length_firstn. lia.
Qed.

(** ** Lemmas on trimming *)

Lemma HasPrefix_split s w : HasPrefix s w = true -> s = String.append w (drop_bytes (String.length w) s).
Proof.
  revert s. induction w as [|a w IH]; intros s; [by destruct s|].
  destruct s as [|b s]; [done|]. cbn. intros H. apply andb_true_iff in H as [Ha H].
  apply Ascii.eqb_eq in Ha as ->. rewrite app_cons. by rewrite <- (IH s H).
Qed.

Lemma trim_front_split fuel ws s :
  exists l, Forall (fun w => In w ws) l /\ s = String.append (join l) (trim_front fuel ws s).
Proof.
  revert s. induction fuel as [|fuel IH]; intros s; cbn [trim_front]; [by exists []|].
  destruct (List.find (HasPrefix s) ws) as [w|] eqn:E; [|by exists []].
  apply find_some in E as [Hin Hp]. destruct (IH (drop_bytes (String.length w) s)) as (l & Hl & Hs).
  exists (w :: l). split; [by constructor|]. rewrite join_cons, app_assoc_s.
  etransitivity; [apply (HasPrefix_split s w Hp)|]. by f_equal.
Qed.

Lemma rev_string_rev s acc b : rev_string (rev_string s acc) b = rev_string acc (String.append s b).
Proof. revert acc b. induction s as [|a s IH]; intros acc b; [done|]. cbn [rev_string]. by rewrite IH. Qed.

Lemma rev_string_app s t acc : rev_string (String.append s t) acc = rev_string t (rev_string s acc).
Proof. revert acc. induction s as [|a s IH]; intros acc; [done|]. rewrite app_cons. apply IH. Qed.

Lemma rev_string_acc s acc : rev_string s acc = String.append (rev_string s "") acc.
Proof.
  revert acc. induction s as [|a s IH]; intros acc; [done|]. cbn [rev_string].
  by rewrite IH, (IH (String a "")), app_assoc_s.
Qed.

Lemma rev_join l ws : Forall (fun w => In w (map (fun w => rev_string w "") ws)) l ->
  exists l', Forall (fun w => In w ws) l' /\ rev_string (join l) "" = join l'.
Proof.
  induction 1 as [|w l Hw _ (l' & Hl' & Hj)]; [by exists []|].
  apply in_map_iff in Hw as (w' & <- & Hw'). exists (l' ++ [w'])%list.
  split; [apply Forall_app; by repeat constructor|].
  rewrite join_cons, rev_string_app, rev_string_rev, rev_string_acc, Hj, join_app.
  by rewrite join_cons.
Qed.

Lemma TrimRight_split s : exists l, Forall (fun w => In w spaces) l
  /\ s = String.append (TrimRight s) (join l).
Proof.
  unfold TrimRight. set (r := rev_string s "").
  destruct (trim_front_split (String.length r) (map (fun w => rev_string w "") spaces) r) as (l & Hl & Hr).
  destruct (rev_join l spaces Hl) as (l' & Hl' & Hj). exists l'. split; [done|].
  rewrite <- Hj. rewrite <- rev_string_acc, <- rev_string_app, <- Hr. subst r.
  by rewrite rev_string_rev, app_nil_s.
Qed.

Lemma spaces_are_steps : Forall (fun w => self_delimiting w /\ w <> EmptyString /\ detached w = true) spaces.
Proof.
  repeat (constructor; [split; [intros t; reflexivity|split; [discriminate|reflexivity]]|]). constructor.
Qed.

Lemma space_step w : In w spaces -> self_delimiting w /\ w <> EmptyString /\ detached w = true.
Proof. intros H. pose proof spaces_are_steps as HF. rewrite List.Forall_forall in HF. by apply HF. Qed.

Lemma spaces_detached l : Forall (fun w => In w spaces) l -> detached (join l) = true.
Proof.
  destruct 1 as [|w l Hw _]; [done|]. rewrite join_cons.
  destruct (space_step w Hw) as (_ & Hne & Hd). by destruct w.
Qed.

(** Trimming takes whole runes off the two ends. *)
Lemma TrimRight_runes s : exists l, runes s = (runes (TrimRight s) ++ l)%list.
Proof.
  destruct (TrimRight_split s) as (l & Hl & Hs). exists (runes (join l)).
  rewrite Hs at 1. apply runes_app. by apply spaces_detached.
Qed.

Lemma TrimSpace_runes s : exists k l, runes s = (k ++ runes (TrimSpace s) ++ l)%list.
Proof.
  change (TrimSpace s) with (TrimRight (trim_front (String.length s) spaces s)).
  destruct (trim_front_split (String.length s) spaces s) as (k & Hk & Hs).
  destruct (TrimRight_runes (trim_front (String.length s) spaces s)) as (l & Hl).
  exists k, l. rewrite <- Hl, Hs at 1. clear Hs Hl l. induction Hk as [|w k Hw _ IH]; [done|].
  destruct (space_step w Hw) as (Hd & _). by rewrite join_cons, app_assoc_s, Hd, IH.
Qed.

Lemma existsb_infix {A} (f : A -> bool) k m l :
  existsb f (k ++ m ++ l)%list = false -> existsb f m = false.
Proof. rewrite !existsb_app, !orb_false_iff. tauto. Qed.

Lemma flatten_no_break title : existsb is_break (runes (flattenTitleLines title)) = false.
Proof.
  unfold flattenTitleLines. destruct (existsb is_break (runes title)) eqn:E; [cbn|done].
  rewrite runes_join.
  - induction (runes (replace_crlf title)) as [|w l IH]; [done|]. cbn [map existsb].
    rewrite IH, orb_false_r. unfold flat_rune. destruct (is_break w) eqn:Ew; [reflexivity|].
    by destruct (encoded w).
  - pose proof (steps_self_delimiting (replace_crlf title)) as H.
    induction H as [|w l Hw _ IH]; [constructor|]. cbn [map]. constructor; [|done].
    unfold flat_rune. destruct (is_break w); [intros t; reflexivity|].
    destruct (encoded w); [by apply Hw|intros t; reflexivity].
Qed.

(** an issue title handed to the forge has at most 255 characters and no line
    break anywhere, so the line-oriented encoding of a deferred edit cannot be split by
    it; a title that fits once trimmed is not cut, and a cut one says so. *)
Theorem ClampIssueTitle_fits (title : string) :
  let flat := TrimSpace (flattenTitleLines title) in
  let r := ClampIssueTitle title in
  RuneCountInString r <= IssueTitleMaxChars
  /\ existsb is_break (runes r) = false
  /\ if RuneCountInString flat <=? IssueTitleMaxChars then r = flat
     else exists cut, r = String.append cut titleTruncatedMarker.
Proof.
  cbv zeta. unfold ClampIssueTitle. set (flat := TrimSpace (flattenTitleLines title)).
  assert (existsb is_break (runes flat) = false) as Hflat.
  { destruct (TrimSpace_runes (flattenTitleLines title)) as (k & l & H).
    apply (existsb_infix _ k _ l). fold flat in H. rewrite <- H. apply flatten_no_break. }
  destruct (Z.leb_spec (RuneCountInString flat) IssueTitleMaxChars) as [H|H]; [done|].
  set (n := IssueTitleMaxChars - RuneCountInString titleTruncatedMarker).
  assert (n = 241) as Hn by (vm_compute; reflexivity).
  set (cut := TruncateRunes flat n). destruct (TrimRight_runes cut) as (l & Hl).
  assert (runes (String.append (TrimRight cut) titleTruncatedMarker)
          = (runes (TrimRight cut) ++ runes titleTruncatedMarker)%list) as Hr by by apply runes_app.
  split; [|split; [|by eexists]].
  - pose proof (TruncateRunes_count flat n ltac:(lia)) as Hc. fold cut in Hc.
    unfold RuneCountInString in *. rewrite Hl in Hc. rewrite Hr. rewrite length_app in *.
    change (List.length (runes titleTruncatedMarker)) with 14%nat.
    unfold IssueTitleMaxChars in *. lia.
  - rewrite Hr, existsb_app. change (existsb is_break (runes titleTruncatedMarker)) with false.
    rewrite orb_false_r. apply (existsb_infix is_break [] _ l). cbn [app]. rewrite <- Hl.
    unfold cut, TruncateRunes. rewrite Hn. cbn [Z.leb Z.compare].
    rewrite truncate_runes_firstn, runes_firstn by lia.
    rewrite <- (firstn_skipn (Z.to_nat (241 - 0)) (runes flat)), existsb_app in Hflat.
    by apply orb_false_iff in Hflat as [-> _].
Qed.

Example clamp_flattens :
  ClampIssueTitle (String.append " Fix crash" (String "013" (String "010" "STATUS: done")))
  = "Fix crash STATUS: done"%string.
Proof. vm_compute. reflexivity. Qed.

(** ** Lemmas on dropping *)

Lemma drop_bytes_length n s : String.length (drop_bytes n s) = (String.length s - n)%nat.
Proof. revert s. induction n as [|n IH]; intros [|a s]; cbn; auto. Qed.

Lemma drop_bytes_drop m n s : drop_bytes m (drop_bytes n s) = drop_bytes (n + m) s.
Proof. revert s. induction n as [|n IH]; intros [|a s]; cbn; auto. by destruct m. Qed.

Lemma drop_bytes_app j s t : (j <= String.length s)%nat ->
  drop_bytes j (String.append s t) = String.append (drop_bytes j s) t.
Proof.
  revert s. induction j as [|j IH]; intros [|a s] H; cbn in H; try lia; try done.
  rewrite app_cons. cbn. apply IH. lia.
Qed.

Lemma drop_bytes_skip w t n : (String.length w <= n)%nat ->
  drop_bytes n (String.append w t) = drop_bytes (n - String.length w) t.
Proof.
  revert n. induction w as [|a w IH]; intros n Hn; [by rewrite Nat.sub_0_r|].
  destruct n as [|n]; cbn in Hn; [lia|]. rewrite app_cons. cbn. apply IH. lia.
Qed.
