(* ===== verification/Api.v ===== *)
(** * The API types (api/v1alpha1): Task, Issue, MergeRequest and their helpers.

    The structs carry every field the modelled code reads or writes; metadata is
    reduced to the names, the labels, the annotations and the timestamps.  [*metav1.Time] is [option Time] and
    Go's [int] fields are [Z]. *)

From S2P Require Import Prelude GoTime.
From Stdlib Require Import Ascii String.

Open Scope Z_scope.
Open Scope go_scope.

(** ** Constants (api/v1alpha1/constants.go, task_types.go, annotations.go) *)

Definition ParkRetention : Duration := 7 * 24 * Hour.
Definition MaxAutoReentries : Z := 3.
Definition ConversationIdleDefault : Duration := 60 * Minute.
Definition ConversationIdleFloor : Duration := 5 * Minute.
Definition DefaultMaxLivePods : Z := 2.
Definition DefaultMaxConcurrentAgents : Z := 3.
Definition DeliveredRetention : Duration := 48 * Hour.
Definition RejectedRetention : Duration := 24 * Hour.
Definition FoldInFlightTTL : Duration := 1 * Hour.
Definition AdmissionStarvedBudget : Duration := 24 * Hour.
Definition PodReadyTimeout : Duration := 5 * Minute.
Definition AgentStopReArmCap : Z := 3.
Definition MaxMergeReentries : Z := 3.
Definition MaxDeployReentries : Z := 3.
Definition TimeoutReentryBudget : Duration := 30 * Minute.
Definition MaxHeadMoveReentries : Z := 3.
Definition MaxCIRedReentries : Z := 3.
Definition MaxMergeConflictReentries : Z := 3.
Definition MaxHumanReviewRounds : Z := 5.
(** How long a request for an outcome may run, and how long its claim is held. *)
Definition OutcomeHandlerBudget : Duration := 3 * Minute.
Definition OutcomeClaimTTL : Duration := 5 * Minute.
Definition MaxProposalsPerOutcome : Z := 5.
Definition UnparkRetryBackoffBase : Duration := 1 * Minute.
Definition UnparkRetryBackoffCap : Duration := 30 * Minute.
Definition MaxUnparkRetries : Z := 5.
Definition ObjectByteBudget : Z := 800000.
Definition MaxNotes : Z := 50.

Definition StateNew : string := "new".
Definition StateRefined : string := "refined".
Definition StateUnderImplementation : string := "under-implementation".
Definition StateAwaitingReview : string := "awaiting-review".
Definition StateMerged : string := "merged".
Definition StateDeployed : string := "deployed".
Definition StateDone : string := "done".
Definition StateRejected : string := "rejected".

Definition OwnershipTatara : string := "tatara".
Definition OwnershipExternal : string := "external".

Definition AnnCurrentTurn : string := "tatara.dev/current-turn".
Definition AnnTurnComplete : string := "tatara.dev/turn-complete".
Definition AnnTurnStartedAt : string := "tatara.dev/turn-started-at".
Definition AnnTurnLastActivity : string := "tatara.dev/turn-last-activity-at".
Definition AnnStallProbeID : string := "tatara.dev/stall-probe-id".
Definition AnnStallProbeAt : string := "tatara.dev/stall-probe-at".
Definition AnnStallProbeAttempts : string := "tatara.dev/stall-probe-attempts".
Definition AnnDeclineCI : string := "tatara.dev/decline-ci".
Definition AnnDeclineHeads : string := "tatara.dev/decline-heads".

Definition AnnBrainstormQuota : string := "tatara.dev/brainstorm-quota".
Definition AnnReviewHeadBranch : string := "tatara.dev/review-head-branch".
Definition LabelUpgradeOrigin : string := "tatara.dev/upgrade-origin".
Definition UpgradeOriginAdopted : string := "adopted".
Definition AnnTakeoverHeadBranch : string := "tatara.dev/takeover-head-branch".
Definition AnnSourceHeadSHA : string := "tatara.dev/source-head-sha".
Definition LabelActivity : string := "tatara.io/activity".

Definition ConditionOutcomeAccepted : string := "OutcomeAccepted".
Definition ConditionTrue : string := "True".
Definition OutcomeReasonClaimed : string := "Outcome".

(** ** Data *)

(** Where a Task came from: [Task.spec.source]. *)
Record TaskSource := mkTaskSource {
  src_Provider : string;
  src_IssueRef : string;
  src_URL : string;
  src_AuthorLogin : string;
  src_IsPR : bool;
  src_Number : Z;
  src_HeadSHA : string;
  src_Title : string
}.

(** [Task.spec]. *)
Record TaskSpec := mkTaskSpec {
  ProjectRef : string;
  RepositoryRef : string;
  Goal : string;
  Source : option TaskSource;
  Kind : string;
  DedupKey : string;
  GroupKey : string;
  MergeOrder : list string;
  AlertRules : list string;
  DocumentsTasks : list string;
  MaxTurnsPerTask : Z;
  InitialState : string;
  InitialParkReason : string
}.

(** [metav1.Condition], the fields the program reads. *)
Record Condition := mkCondition {
  c_Type : string;
  c_Status : string;
  c_Reason : string;
  c_LastTransitionTime : Time;
  c_Message : string
}.

(** One entry of the journal. *)
Record Note := mkNote {
  n_ID : string;
  n_At : Time;
  n_Agent : string;
  n_Kind : string;
  n_Body : string
}.

(** [status.stats]. *)
Record TaskStats := mkTaskStats {
  TokensInput : Z;
  TokensOutput : Z;
  TokensCacheRead : Z;
  TokensCacheCreation : Z;
  Turns : Z;
  PodRuns : Z;
  WallSeconds : Z;
  AgentsRun : list string;
  IssueCount : Z;
  MRCount : Z;
  PodRecreations : Z;
  AgentStops : Z;
  NotesSpilled : Z;
  NotesSpilledRefs : list string
}.

(** A queued external event: [status.pendingEvents]. *)
Record TaskEvent := mkTaskEvent {
  ev_At : Time;
  ev_Kind : string;
  ev_Repo : string;
  ev_Number : Z;
  ev_Author : string;
  ev_Body : string;
  UnparkConsumedAt : option Time
}.

(** [Task.status]. *)
Record TaskStatus := mkTaskStatus {
  PodName : string;
  Conditions : list Condition;
  State : string;
  StateEnteredAt : option Time;
  StateReason : string;
  ParkReason : string;
  ParkedAt : option Time;
  ParkedFromState : string;
  StateWorkStartedAt : option Time;
  AgentKind : string;
  PodStartedAt : option Time;
  Notes : list Note;
  PendingEvents : list TaskEvent;
  Stats : TaskStats;
  DeliveredAt : option Time;
  DocumentedBy : string;
  IssueRefs : list string;
  MRRefs : list string;
  ConversationLastEventAt : option Time;
  BotRounds : Z;
  MergeCursor : Z;
  MergeReentries : Z;
  DeployReentries : Z;
  StageElapsedCarrySeconds : Z;
  HeadMoveReentries : Z;
  CIRedReentries : Z;
  MergeConflictReentries : Z;
  CIWaitSince : option Time;
  HumanReviewRounds : Z;
  RetryAttempts : Z;
  RetryBlocker : string;
  RetryNextAt : option Time;
  FoldInFlight : list string;
  FoldInFlightSince : option Time;
  ResolvedModel : string;
  PinnedPlanNoteID : string;
  ShortDescription : string;
  LastTurnFinalText : string;
  LastTurnPushedRepos : list string;
  LastTurnFailedRepos : list string;
  LastTurnReposTurnID : string
}.

(** A Task object: the metadata the program reads, the spec and the status. *)
Record Task := mkTask {
  task_Name : string;
  task_GenerateName : string;
  Labels : gmap string string;
  Annotations : gmap string string;
  CreationTimestamp : Time;
  DeletionTimestamp : option Time;
  Spec : TaskSpec;
  Status : TaskStatus;
  task_UID : string
}.

(** A mirrored forge comment. *)
Record Comment := mkComment {
  cm_ExternalID : string;
  cm_Author : string;
  cm_Body : string;
  cm_CreatedAt : Time;
  cm_IsBot : bool;
  cm_Truncated : bool;
  cm_AgentKind : string;
  cm_Path : string;
  cm_Line : Z;
  cm_InReplyTo : string;
  cm_ReviewRound : Z
}.

(** One finding of a pending review. *)
Record ReviewFinding := mkReviewFinding {
  rf_Path : string;
  rf_Line : option Z;
  rf_Body : string;
  rf_Severity : string
}.

(** A review owed to the forge. *)
Record PendingReview := mkPendingReview {
  pr_Body : string;
  pr_Findings : list ReviewFinding;
  pr_SHA : string;
  pr_Round : Z
}.

(** Who approved an Issue, and on which comment. *)
Record ApprovalEvidence := mkApprovalEvidence {
  ae_Login : string;
  ae_CommentID : string;
  ae_CreatedAt : Time;
  ae_Phrase : string;
  ae_Auto : bool;
  ae_PlanHash : string
}.

(** The comment an agent cites, and its verbatim quote. *)
Record ApprovalCitation := mkApprovalCitation {
  ac_ID : string;
  ac_Quote : string
}.

(** [metav1.OwnerReference]. *)
Record OwnerReference := mkOwnerReference {
  ref_APIVersion : string;
  ref_Kind : string;
  ref_Name : string;
  ref_UID : string;
  Controller : option bool;
  BlockOwnerDeletion : option bool
}.

(** A comment owed to the forge. *)
Record PendingComment := mkPendingComment {
  pc_RequestID : string;
  pc_Action : string;
  pc_Body : string;
  pc_InReplyTo : string
}.

(** [Issue.spec]. *)
Record IssueSpec := mkIssueSpec {
  is_RepositoryRef : string;
  is_Number : Z;
  is_URL : string;
  is_ProjectRef : string;
  is_ProposalBodyHash : string;
  is_ProposalKind : string
}.

(** [Issue.status], the fields the modelled code reads. *)
Record IssueStatus := mkIssueStatus {
  iss_Title : string;
  iss_Author : string;
  iss_Body : string;
  iss_State : string;
  iss_StatusWord : string;
  iss_Labels : list string;
  iss_Comments : list Comment;
  iss_CommentCount : Z;
  iss_SpilledComments : Z;
  iss_SpilledCommentsRefs : list string;
  iss_Approval : option ApprovalEvidence;
  iss_CommentsRetainedFrom : option Time;
  iss_CreatedAt : option Time;
  iss_UpdatedAt : option Time;
  iss_LastSyncedAt : option Time;
  iss_PendingComments : list PendingComment;
  iss_LastDeployTimeoutCommentAt : option Time;
  iss_LastInvestigationCommentAt : option Time;
  iss_SuppressedInvestigationCount : Z;
  iss_RefireCount : Z;
  iss_LastRefireCommentAt : option Time;
  iss_EscalatedAt : option Time
}.

(** An Issue mirror. *)
Record Issue := mkIssue {
  iss_Name : string;
  iss_MetaLabels : gmap string string;
  iss_CreationTimestamp : Time;
  iss_Spec : IssueSpec;
  iss_Status : IssueStatus;
  iss_Annotations : gmap string string;
  iss_OwnerReferences : list OwnerReference
}.

(** [MergeRequest.spec]. *)
Record MergeRequestSpec := mkMergeRequestSpec {
  mrs_RepositoryRef : string;
  mrs_Number : Z;
  mrs_URL : string;
  mrs_ProjectRef : string
}.

(** [MergeRequest.status], the fields the modelled code reads. *)
Record MergeRequestStatus := mkMergeRequestStatus {
  mr_Title : string;
  mr_Author : string;
  mr_Body : string;
  mr_State : string;
  mr_StatusWord : string;
  mr_HeadBranch : string;
  mr_HeadSHA : string;
  mr_CIStatus : string;
  mr_Mergeable : bool;
  mr_MergedAt : option Time;
  mr_MergedSHA : string;
  mr_DeployedAt : option Time;
  mr_DeployedVersion : string;
  mr_Significance : string;
  mr_ReviewedSHA : string;
  mr_ReviewRounds : Z;
  mr_Ownership : string;
  mr_OwnershipReason : string;
  mr_LastBotHeadSHA : string;
  mr_PendingReview : option PendingReview;
  mr_Comments : list Comment;
  mr_CommentCount : Z;
  mr_SpilledComments : Z;
  mr_SpilledCommentsRefs : list string;
  mr_CommentsRetainedFrom : option Time;
  mr_CreatedAt : option Time;
  mr_UpdatedAt : option Time;
  mr_LastSyncedAt : option Time;
  mr_PendingComments : list PendingComment;
  mr_OwnershipChangedAt : option Time;
  mr_LastExternalAssistSHA : string;
  mr_LastMirroredCommentID : string;
  mr_CIUpdatedAt : option Time
}.

(** A MergeRequest mirror. *)
Record MergeRequest := mkMergeRequest {
  mr_Name : string;
  mr_Annotations : gmap string string;
  mr_Spec : MergeRequestSpec;
  mr_Status : MergeRequestStatus;
  mr_OwnerReferences : list OwnerReference
}.

(** [Project.spec.scm], the fields the modelled code reads. *)
Record ScmSpec := mkScmSpec {
  scm_Provider : string;
  scm_BotLogin : string;
  scm_MaintainerLogins : list string;
  scm_ReporterLogins : list string;
  scm_ApprovedLabel : string;
  scm_MergePolicy : string;
  scm_ConversationIdleMinutes : Z;
  scm_PRReactionScope : string;
  scm_DocumentationSchedule : option string;
  scm_BrainstormingLabel : string;
  scm_ImplementationLabel : string;
  scm_DeclinedLabel : string
}.

(** [QueueSpec]: the capacities of the two admission pools. *)
Record QueueSpec := mkQueueSpec { q_Capacity : Z; q_AlertCapacity : Z }.

(** [TokenBudgetSpec], but for the two settings of the usage poller. *)
Record TokenBudgetSpec := mkTokenBudgetSpec {
  tb_Enabled : bool;
  tb_Mode : string;
  tb_ProactivePercent : Z;
  tb_EmergencyPercent : Z;
  tb_FiveHourProactivePercent : Z;
  tb_FiveHourEmergencyPercent : Z;
  tb_WeeklyProactivePercent : Z;
  tb_WeeklyEmergencyPercent : Z;
  tb_ResetSchedule : string;
  tb_WindowDuration : string;
  tb_TokenLimit : Z;
  tb_SpawnCeilingByKind : gmap string Z
}.

(** [TokenBudgetStatus]. *)
Record TokenBudgetStatus := mkTokenBudgetStatus {
  tbs_WindowStart : option Time;
  tbs_WindowTokens : Z;
  tbs_FiveHourPercent : Z;
  tbs_FiveHourReset : option Time;
  tbs_WeeklyPercent : Z;
  tbs_WeeklyReset : option Time
}.

(** [ReleaseAgeSpec] and [UpgradePolicySpec], the fields the modelled code reads. *)
Record ReleaseAgeSpec := mkReleaseAgeSpec { ra_Major : Z; ra_Minor : Z; ra_Patch : Z }.

Record UpgradePolicySpec := mkUpgradePolicySpec {
  Engine : string;
  MajorStrategy : string;
  AdoptBranchPrefix : string;
  UpgradeEngineLogins : list string;
  MinimumReleaseAge : option ReleaseAgeSpec
}.

(** [DocumentationSpec]. *)
Record DocumentationSpec := mkDocumentationSpec { doc_Enabled : bool; doc_Repo : string }.

(** [GrafanaSpec], the fields the alert webhook reads. *)
Record GrafanaSpec := mkGrafanaSpec { gr_Enabled : bool; gr_SecretRef : string }.

(** A Project: its name, the fields of its spec the modelled code reads, and the token
    ledger of its status. *)
Record Project := mkProject {
  proj_Name : string;
  proj_Scm : option ScmSpec;
  proj_AutoApproveMaxSignificance : string;
  proj_MaxConcurrentAgents : Z;
  proj_MaxLivePods : Z;
  proj_MaxOpenTasks : Z;
  proj_AgentPodTTLSeconds : Z;
  proj_TurnTimeoutSeconds : Z;
  proj_Queue : option QueueSpec;
  proj_TokenBudget : option TokenBudgetSpec;
  proj_TokenBudgetStatus : option TokenBudgetStatus;
  proj_Annotations : gmap string string;
  proj_TriggerLabel : string;
  proj_MaxNewTasksPerSweep : Z;
  proj_UpgradePolicy : option UpgradePolicySpec;
  proj_Documentation : option DocumentationSpec;
  proj_StallProbeGraceSeconds : Z;
  proj_StallProbeMaxAttempts : Z;
  proj_ScmSecretRef : string;
  proj_Model : string;
  proj_ModelByKind : gmap string string;
  proj_MemoryEnabled : option bool;
  proj_MemoryPhase : string;
  proj_MemoryReadySince : option Time;
  proj_WorkspaceEnabled : option bool;
  proj_WorkspaceCacheEnabled : option bool;
  proj_WorkspaceSize : string;
  proj_WorkspaceCacheSize : string;
  proj_BrainstormHistory : option (option Z);
  proj_BrainstormPausedAt : option Time;
  proj_BrainstormPauseReason : string;
  proj_LastMovementAt : option Time;
  proj_Grafana : option GrafanaSpec
}.

(** A Repository: its remote and its per-repository login overrides, [None] when unset. *)
Record Repository := mkRepository {
  repo_Name : string;
  repo_URL : string;
  repo_DefaultBranch : string;
  repo_ReporterLogins : option (list string);
  repo_MaintainerLogins : option (list string);
  repo_ProjectRef : string;
  repo_Annotations : gmap string string
}.

(** ** Field setters *)

Definition eta_TaskSpec (x : TaskSpec) : TaskSpec :=
  mkTaskSpec (ProjectRef x) (RepositoryRef x) (Goal x) (Source x)
    (Kind x) (DedupKey x) (GroupKey x) (MergeOrder x)
    (AlertRules x) (DocumentsTasks x) (MaxTurnsPerTask x) (InitialState x)
    (InitialParkReason x).

#[export] Instance set_ProjectRef : Settable ProjectRef := ltac:(setter_of ProjectRef eta_TaskSpec).
#[export] Instance set_RepositoryRef : Settable RepositoryRef := ltac:(setter_of RepositoryRef eta_TaskSpec).
#[export] Instance set_Goal : Settable Goal := ltac:(setter_of Goal eta_TaskSpec).
#[export] Instance set_Source : Settable Source := ltac:(setter_of Source eta_TaskSpec).
#[export] Instance set_Kind : Settable Kind := ltac:(setter_of Kind eta_TaskSpec).
#[export] Instance set_DedupKey : Settable DedupKey := ltac:(setter_of DedupKey eta_TaskSpec).
#[export] Instance set_GroupKey : Settable GroupKey := ltac:(setter_of GroupKey eta_TaskSpec).
#[export] Instance set_MergeOrder : Settable MergeOrder := ltac:(setter_of MergeOrder eta_TaskSpec).
#[export] Instance set_AlertRules : Settable AlertRules := ltac:(setter_of AlertRules eta_TaskSpec).
#[export] Instance set_DocumentsTasks : Settable DocumentsTasks := ltac:(setter_of DocumentsTasks eta_TaskSpec).
#[export] Instance set_MaxTurnsPerTask : Settable MaxTurnsPerTask := ltac:(setter_of MaxTurnsPerTask eta_TaskSpec).
#[export] Instance set_InitialState : Settable InitialState := ltac:(setter_of InitialState eta_TaskSpec).
#[export] Instance set_InitialParkReason : Settable InitialParkReason := ltac:(setter_of InitialParkReason eta_TaskSpec).

Definition eta_TaskStats (x : TaskStats) : TaskStats :=
  mkTaskStats (TokensInput x) (TokensOutput x) (TokensCacheRead x) (TokensCacheCreation x)
    (Turns x) (PodRuns x) (WallSeconds x) (AgentsRun x)
    (IssueCount x) (MRCount x) (PodRecreations x) (AgentStops x)
    (NotesSpilled x) (NotesSpilledRefs x).

#[export] Instance set_TokensInput : Settable TokensInput := ltac:(setter_of TokensInput eta_TaskStats).
#[export] Instance set_TokensOutput : Settable TokensOutput := ltac:(setter_of TokensOutput eta_TaskStats).
#[export] Instance set_TokensCacheRead : Settable TokensCacheRead := ltac:(setter_of TokensCacheRead eta_TaskStats).
#[export] Instance set_TokensCacheCreation : Settable TokensCacheCreation := ltac:(setter_of TokensCacheCreation eta_TaskStats).
#[export] Instance set_Turns : Settable Turns := ltac:(setter_of Turns eta_TaskStats).
#[export] Instance set_PodRuns : Settable PodRuns := ltac:(setter_of PodRuns eta_TaskStats).
#[export] Instance set_WallSeconds : Settable WallSeconds := ltac:(setter_of WallSeconds eta_TaskStats).
#[export] Instance set_AgentsRun : Settable AgentsRun := ltac:(setter_of AgentsRun eta_TaskStats).
#[export] Instance set_IssueCount : Settable IssueCount := ltac:(setter_of IssueCount eta_TaskStats).
#[export] Instance set_MRCount : Settable MRCount := ltac:(setter_of MRCount eta_TaskStats).
#[export] Instance set_PodRecreations : Settable PodRecreations := ltac:(setter_of PodRecreations eta_TaskStats).
#[export] Instance set_AgentStops : Settable AgentStops := ltac:(setter_of AgentStops eta_TaskStats).
#[export] Instance set_NotesSpilled : Settable NotesSpilled := ltac:(setter_of NotesSpilled eta_TaskStats).
#[export] Instance set_NotesSpilledRefs : Settable NotesSpilledRefs := ltac:(setter_of NotesSpilledRefs eta_TaskStats).

Definition eta_TaskEvent (x : TaskEvent) : TaskEvent :=
  mkTaskEvent (ev_At x) (ev_Kind x) (ev_Repo x) (ev_Number x)
    (ev_Author x) (ev_Body x) (UnparkConsumedAt x).

#[export] Instance set_ev_At : Settable ev_At := ltac:(setter_of ev_At eta_TaskEvent).
#[export] Instance set_ev_Kind : Settable ev_Kind := ltac:(setter_of ev_Kind eta_TaskEvent).
#[export] Instance set_ev_Repo : Settable ev_Repo := ltac:(setter_of ev_Repo eta_TaskEvent).
#[export] Instance set_ev_Number : Settable ev_Number := ltac:(setter_of ev_Number eta_TaskEvent).
#[export] Instance set_ev_Author : Settable ev_Author := ltac:(setter_of ev_Author eta_TaskEvent).
#[export] Instance set_ev_Body : Settable ev_Body := ltac:(setter_of ev_Body eta_TaskEvent).
#[export] Instance set_UnparkConsumedAt : Settable UnparkConsumedAt := ltac:(setter_of UnparkConsumedAt eta_TaskEvent).

Definition eta_TaskStatus (x : TaskStatus) : TaskStatus :=
  mkTaskStatus (PodName x) (Conditions x) (State x) (StateEnteredAt x)
    (StateReason x) (ParkReason x) (ParkedAt x) (ParkedFromState x)
    (StateWorkStartedAt x) (AgentKind x) (PodStartedAt x) (Notes x)
    (PendingEvents x) (Stats x) (DeliveredAt x) (DocumentedBy x)
    (IssueRefs x) (MRRefs x) (ConversationLastEventAt x) (BotRounds x)
    (MergeCursor x) (MergeReentries x) (DeployReentries x) (StageElapsedCarrySeconds x)
    (HeadMoveReentries x) (CIRedReentries x) (MergeConflictReentries x) (CIWaitSince x)
    (HumanReviewRounds x) (RetryAttempts x) (RetryBlocker x) (RetryNextAt x)
    (FoldInFlight x) (FoldInFlightSince x) (ResolvedModel x) (PinnedPlanNoteID x)
    (ShortDescription x) (LastTurnFinalText x) (LastTurnPushedRepos x) (LastTurnFailedRepos x)
    (LastTurnReposTurnID x).

#[export] Instance set_PodName : Settable PodName := ltac:(setter_of PodName eta_TaskStatus).
#[export] Instance set_Conditions : Settable Conditions := ltac:(setter_of Conditions eta_TaskStatus).
#[export] Instance set_State : Settable State := ltac:(setter_of State eta_TaskStatus).
#[export] Instance set_StateEnteredAt : Settable StateEnteredAt := ltac:(setter_of StateEnteredAt eta_TaskStatus).
#[export] Instance set_StateReason : Settable StateReason := ltac:(setter_of StateReason eta_TaskStatus).
#[export] Instance set_ParkReason : Settable ParkReason := ltac:(setter_of ParkReason eta_TaskStatus).
#[export] Instance set_ParkedAt : Settable ParkedAt := ltac:(setter_of ParkedAt eta_TaskStatus).
#[export] Instance set_ParkedFromState : Settable ParkedFromState := ltac:(setter_of ParkedFromState eta_TaskStatus).
#[export] Instance set_StateWorkStartedAt : Settable StateWorkStartedAt := ltac:(setter_of StateWorkStartedAt eta_TaskStatus).
#[export] Instance set_AgentKind : Settable AgentKind := ltac:(setter_of AgentKind eta_TaskStatus).
#[export] Instance set_PodStartedAt : Settable PodStartedAt := ltac:(setter_of PodStartedAt eta_TaskStatus).
#[export] Instance set_Notes : Settable Notes := ltac:(setter_of Notes eta_TaskStatus).
#[export] Instance set_PendingEvents : Settable PendingEvents := ltac:(setter_of PendingEvents eta_TaskStatus).
#[export] Instance set_Stats : Settable Stats := ltac:(setter_of Stats eta_TaskStatus).
#[export] Instance set_DeliveredAt : Settable DeliveredAt := ltac:(setter_of DeliveredAt eta_TaskStatus).
#[export] Instance set_DocumentedBy : Settable DocumentedBy := ltac:(setter_of DocumentedBy eta_TaskStatus).
#[export] Instance set_IssueRefs : Settable IssueRefs := ltac:(setter_of IssueRefs eta_TaskStatus).
#[export] Instance set_MRRefs : Settable MRRefs := ltac:(setter_of MRRefs eta_TaskStatus).
#[export] Instance set_ConversationLastEventAt : Settable ConversationLastEventAt := ltac:(setter_of ConversationLastEventAt eta_TaskStatus).
#[export] Instance set_BotRounds : Settable BotRounds := ltac:(setter_of BotRounds eta_TaskStatus).
#[export] Instance set_MergeCursor : Settable MergeCursor := ltac:(setter_of MergeCursor eta_TaskStatus).
#[export] Instance set_MergeReentries : Settable MergeReentries := ltac:(setter_of MergeReentries eta_TaskStatus).
#[export] Instance set_DeployReentries : Settable DeployReentries := ltac:(setter_of DeployReentries eta_TaskStatus).
#[export] Instance set_StageElapsedCarrySeconds : Settable StageElapsedCarrySeconds := ltac:(setter_of StageElapsedCarrySeconds eta_TaskStatus).
#[export] Instance set_HeadMoveReentries : Settable HeadMoveReentries := ltac:(setter_of HeadMoveReentries eta_TaskStatus).
#[export] Instance set_CIRedReentries : Settable CIRedReentries := ltac:(setter_of CIRedReentries eta_TaskStatus).
#[export] Instance set_MergeConflictReentries : Settable MergeConflictReentries := ltac:(setter_of MergeConflictReentries eta_TaskStatus).
#[export] Instance set_CIWaitSince : Settable CIWaitSince := ltac:(setter_of CIWaitSince eta_TaskStatus).
#[export] Instance set_HumanReviewRounds : Settable HumanReviewRounds := ltac:(setter_of HumanReviewRounds eta_TaskStatus).
#[export] Instance set_RetryAttempts : Settable RetryAttempts := ltac:(setter_of RetryAttempts eta_TaskStatus).
#[export] Instance set_RetryBlocker : Settable RetryBlocker := ltac:(setter_of RetryBlocker eta_TaskStatus).
#[export] Instance set_RetryNextAt : Settable RetryNextAt := ltac:(setter_of RetryNextAt eta_TaskStatus).
#[export] Instance set_FoldInFlight : Settable FoldInFlight := ltac:(setter_of FoldInFlight eta_TaskStatus).
#[export] Instance set_FoldInFlightSince : Settable FoldInFlightSince := ltac:(setter_of FoldInFlightSince eta_TaskStatus).
#[export] Instance set_ResolvedModel : Settable ResolvedModel := ltac:(setter_of ResolvedModel eta_TaskStatus).
#[export] Instance set_PinnedPlanNoteID : Settable PinnedPlanNoteID := ltac:(setter_of PinnedPlanNoteID eta_TaskStatus).
#[export] Instance set_ShortDescription : Settable ShortDescription := ltac:(setter_of ShortDescription eta_TaskStatus).
#[export] Instance set_LastTurnFinalText : Settable LastTurnFinalText := ltac:(setter_of LastTurnFinalText eta_TaskStatus).
#[export] Instance set_LastTurnPushedRepos : Settable LastTurnPushedRepos := ltac:(setter_of LastTurnPushedRepos eta_TaskStatus).
#[export] Instance set_LastTurnFailedRepos : Settable LastTurnFailedRepos := ltac:(setter_of LastTurnFailedRepos eta_TaskStatus).
#[export] Instance set_LastTurnReposTurnID : Settable LastTurnReposTurnID := ltac:(setter_of LastTurnReposTurnID eta_TaskStatus).

Definition eta_Task (x : Task) : Task :=
  mkTask (task_Name x) (task_GenerateName x) (Labels x) (Annotations x)
    (CreationTimestamp x) (DeletionTimestamp x) (Spec x) (Status x)
    (task_UID x).

#[export] Instance set_task_Name : Settable task_Name := ltac:(setter_of task_Name eta_Task).
#[export] Instance set_task_GenerateName : Settable task_GenerateName := ltac:(setter_of task_GenerateName eta_Task).
#[export] Instance set_Labels : Settable Labels := ltac:(setter_of Labels eta_Task).
#[export] Instance set_Annotations : Settable Annotations := ltac:(setter_of Annotations eta_Task).
#[export] Instance set_CreationTimestamp : Settable CreationTimestamp := ltac:(setter_of CreationTimestamp eta_Task).
#[export] Instance set_DeletionTimestamp : Settable DeletionTimestamp := ltac:(setter_of DeletionTimestamp eta_Task).
#[export] Instance set_Spec : Settable Spec := ltac:(setter_of Spec eta_Task).
#[export] Instance set_Status : Settable Status := ltac:(setter_of Status eta_Task).
#[export] Instance set_task_UID : Settable task_UID := ltac:(setter_of task_UID eta_Task).

Definition eta_IssueStatus (x : IssueStatus) : IssueStatus :=
  mkIssueStatus (iss_Title x) (iss_Author x) (iss_Body x) (iss_State x)
    (iss_StatusWord x) (iss_Labels x) (iss_Comments x) (iss_CommentCount x)
    (iss_SpilledComments x) (iss_SpilledCommentsRefs x) (iss_Approval x) (iss_CommentsRetainedFrom x)
    (iss_CreatedAt x) (iss_UpdatedAt x) (iss_LastSyncedAt x) (iss_PendingComments x)
    (iss_LastDeployTimeoutCommentAt x) (iss_LastInvestigationCommentAt x) (iss_SuppressedInvestigationCount x)
    (iss_RefireCount x) (iss_LastRefireCommentAt x) (iss_EscalatedAt x).

#[export] Instance set_iss_RefireCount : Settable iss_RefireCount := ltac:(setter_of iss_RefireCount eta_IssueStatus).
#[export] Instance set_iss_LastRefireCommentAt : Settable iss_LastRefireCommentAt :=
  ltac:(setter_of iss_LastRefireCommentAt eta_IssueStatus).
#[export] Instance set_iss_EscalatedAt : Settable iss_EscalatedAt := ltac:(setter_of iss_EscalatedAt eta_IssueStatus).

#[export] Instance set_iss_LastInvestigationCommentAt : Settable iss_LastInvestigationCommentAt :=
  ltac:(setter_of iss_LastInvestigationCommentAt eta_IssueStatus).
#[export] Instance set_iss_SuppressedInvestigationCount : Settable iss_SuppressedInvestigationCount :=
  ltac:(setter_of iss_SuppressedInvestigationCount eta_IssueStatus).
#[export] Instance set_iss_Title : Settable iss_Title := ltac:(setter_of iss_Title eta_IssueStatus).
#[export] Instance set_iss_Author : Settable iss_Author := ltac:(setter_of iss_Author eta_IssueStatus).
#[export] Instance set_iss_Body : Settable iss_Body := ltac:(setter_of iss_Body eta_IssueStatus).
#[export] Instance set_iss_State : Settable iss_State := ltac:(setter_of iss_State eta_IssueStatus).
#[export] Instance set_iss_StatusWord : Settable iss_StatusWord := ltac:(setter_of iss_StatusWord eta_IssueStatus).
#[export] Instance set_iss_Labels : Settable iss_Labels := ltac:(setter_of iss_Labels eta_IssueStatus).
#[export] Instance set_iss_Comments : Settable iss_Comments := ltac:(setter_of iss_Comments eta_IssueStatus).
#[export] Instance set_iss_CommentCount : Settable iss_CommentCount := ltac:(setter_of iss_CommentCount eta_IssueStatus).
#[export] Instance set_iss_SpilledComments : Settable iss_SpilledComments := ltac:(setter_of iss_SpilledComments eta_IssueStatus).
#[export] Instance set_iss_SpilledCommentsRefs : Settable iss_SpilledCommentsRefs := ltac:(setter_of iss_SpilledCommentsRefs eta_IssueStatus).
#[export] Instance set_iss_Approval : Settable iss_Approval := ltac:(setter_of iss_Approval eta_IssueStatus).
#[export] Instance set_iss_CommentsRetainedFrom : Settable iss_CommentsRetainedFrom := ltac:(setter_of iss_CommentsRetainedFrom eta_IssueStatus).
#[export] Instance set_iss_CreatedAt : Settable iss_CreatedAt := ltac:(setter_of iss_CreatedAt eta_IssueStatus).
#[export] Instance set_iss_UpdatedAt : Settable iss_UpdatedAt := ltac:(setter_of iss_UpdatedAt eta_IssueStatus).
#[export] Instance set_iss_LastSyncedAt : Settable iss_LastSyncedAt := ltac:(setter_of iss_LastSyncedAt eta_IssueStatus).
#[export] Instance set_iss_PendingComments : Settable iss_PendingComments := ltac:(setter_of iss_PendingComments eta_IssueStatus).
#[export] Instance set_iss_LastDeployTimeoutCommentAt : Settable iss_LastDeployTimeoutCommentAt := ltac:(setter_of iss_LastDeployTimeoutCommentAt eta_IssueStatus).

Definition eta_IssueSpec (x : IssueSpec) : IssueSpec :=
  mkIssueSpec (is_RepositoryRef x) (is_Number x) (is_URL x) (is_ProjectRef x) (is_ProposalBodyHash x) (is_ProposalKind x).

#[export] Instance set_is_ProposalBodyHash : Settable is_ProposalBodyHash := ltac:(setter_of is_ProposalBodyHash eta_IssueSpec).
#[export] Instance set_is_ProposalKind : Settable is_ProposalKind := ltac:(setter_of is_ProposalKind eta_IssueSpec).

Definition eta_Issue (x : Issue) : Issue :=
  mkIssue (iss_Name x) (iss_MetaLabels x) (iss_CreationTimestamp x) (iss_Spec x)
    (iss_Status x) (iss_Annotations x) (iss_OwnerReferences x).

#[export] Instance set_iss_Name : Settable iss_Name := ltac:(setter_of iss_Name eta_Issue).
#[export] Instance set_iss_MetaLabels : Settable iss_MetaLabels := ltac:(setter_of iss_MetaLabels eta_Issue).
#[export] Instance set_iss_Spec : Settable iss_Spec := ltac:(setter_of iss_Spec eta_Issue).
#[export] Instance set_iss_Status : Settable iss_Status := ltac:(setter_of iss_Status eta_Issue).
#[export] Instance set_iss_Annotations : Settable iss_Annotations := ltac:(setter_of iss_Annotations eta_Issue).
#[export] Instance set_iss_OwnerReferences : Settable iss_OwnerReferences := ltac:(setter_of iss_OwnerReferences eta_Issue).

Definition eta_MergeRequestStatus (x : MergeRequestStatus) : MergeRequestStatus :=
  mkMergeRequestStatus (mr_Title x) (mr_Author x) (mr_Body x) (mr_State x)
    (mr_StatusWord x) (mr_HeadBranch x) (mr_HeadSHA x) (mr_CIStatus x)
    (mr_Mergeable x) (mr_MergedAt x) (mr_MergedSHA x) (mr_DeployedAt x)
    (mr_DeployedVersion x) (mr_Significance x) (mr_ReviewedSHA x) (mr_ReviewRounds x)
    (mr_Ownership x) (mr_OwnershipReason x) (mr_LastBotHeadSHA x) (mr_PendingReview x)
    (mr_Comments x) (mr_CommentCount x) (mr_SpilledComments x) (mr_SpilledCommentsRefs x)
    (mr_CommentsRetainedFrom x) (mr_CreatedAt x) (mr_UpdatedAt x) (mr_LastSyncedAt x)
    (mr_PendingComments x) (mr_OwnershipChangedAt x) (mr_LastExternalAssistSHA x) (mr_LastMirroredCommentID x)
    (mr_CIUpdatedAt x).

#[export] Instance set_mr_CIUpdatedAt : Settable mr_CIUpdatedAt := ltac:(setter_of mr_CIUpdatedAt eta_MergeRequestStatus).

#[export] Instance set_mr_Title : Settable mr_Title := ltac:(setter_of mr_Title eta_MergeRequestStatus).
#[export] Instance set_mr_Author : Settable mr_Author := ltac:(setter_of mr_Author eta_MergeRequestStatus).
#[export] Instance set_mr_Body : Settable mr_Body := ltac:(setter_of mr_Body eta_MergeRequestStatus).
#[export] Instance set_mr_State : Settable mr_State := ltac:(setter_of mr_State eta_MergeRequestStatus).
#[export] Instance set_mr_StatusWord : Settable mr_StatusWord := ltac:(setter_of mr_StatusWord eta_MergeRequestStatus).
#[export] Instance set_mr_HeadBranch : Settable mr_HeadBranch := ltac:(setter_of mr_HeadBranch eta_MergeRequestStatus).
#[export] Instance set_mr_HeadSHA : Settable mr_HeadSHA := ltac:(setter_of mr_HeadSHA eta_MergeRequestStatus).
#[export] Instance set_mr_CIStatus : Settable mr_CIStatus := ltac:(setter_of mr_CIStatus eta_MergeRequestStatus).
#[export] Instance set_mr_Mergeable : Settable mr_Mergeable := ltac:(setter_of mr_Mergeable eta_MergeRequestStatus).
#[export] Instance set_mr_MergedAt : Settable mr_MergedAt := ltac:(setter_of mr_MergedAt eta_MergeRequestStatus).
#[export] Instance set_mr_MergedSHA : Settable mr_MergedSHA := ltac:(setter_of mr_MergedSHA eta_MergeRequestStatus).
#[export] Instance set_mr_DeployedAt : Settable mr_DeployedAt := ltac:(setter_of mr_DeployedAt eta_MergeRequestStatus).
#[export] Instance set_mr_DeployedVersion : Settable mr_DeployedVersion := ltac:(setter_of mr_DeployedVersion eta_MergeRequestStatus).
#[export] Instance set_mr_Significance : Settable mr_Significance := ltac:(setter_of mr_Significance eta_MergeRequestStatus).
#[export] Instance set_mr_ReviewedSHA : Settable mr_ReviewedSHA := ltac:(setter_of mr_ReviewedSHA eta_MergeRequestStatus).
#[export] Instance set_mr_ReviewRounds : Settable mr_ReviewRounds := ltac:(setter_of mr_ReviewRounds eta_MergeRequestStatus).
#[export] Instance set_mr_Ownership : Settable mr_Ownership := ltac:(setter_of mr_Ownership eta_MergeRequestStatus).
#[export] Instance set_mr_OwnershipReason : Settable mr_OwnershipReason := ltac:(setter_of mr_OwnershipReason eta_MergeRequestStatus).
#[export] Instance set_mr_LastBotHeadSHA : Settable mr_LastBotHeadSHA := ltac:(setter_of mr_LastBotHeadSHA eta_MergeRequestStatus).
#[export] Instance set_mr_PendingReview : Settable mr_PendingReview := ltac:(setter_of mr_PendingReview eta_MergeRequestStatus).
#[export] Instance set_mr_Comments : Settable mr_Comments := ltac:(setter_of mr_Comments eta_MergeRequestStatus).
#[export] Instance set_mr_CommentCount : Settable mr_CommentCount := ltac:(setter_of mr_CommentCount eta_MergeRequestStatus).
#[export] Instance set_mr_SpilledComments : Settable mr_SpilledComments := ltac:(setter_of mr_SpilledComments eta_MergeRequestStatus).
#[export] Instance set_mr_SpilledCommentsRefs : Settable mr_SpilledCommentsRefs := ltac:(setter_of mr_SpilledCommentsRefs eta_MergeRequestStatus).
#[export] Instance set_mr_CommentsRetainedFrom : Settable mr_CommentsRetainedFrom := ltac:(setter_of mr_CommentsRetainedFrom eta_MergeRequestStatus).
#[export] Instance set_mr_CreatedAt : Settable mr_CreatedAt := ltac:(setter_of mr_CreatedAt eta_MergeRequestStatus).
#[export] Instance set_mr_UpdatedAt : Settable mr_UpdatedAt := ltac:(setter_of mr_UpdatedAt eta_MergeRequestStatus).
#[export] Instance set_mr_LastSyncedAt : Settable mr_LastSyncedAt := ltac:(setter_of mr_LastSyncedAt eta_MergeRequestStatus).
#[export] Instance set_mr_PendingComments : Settable mr_PendingComments := ltac:(setter_of mr_PendingComments eta_MergeRequestStatus).
#[export] Instance set_mr_OwnershipChangedAt : Settable mr_OwnershipChangedAt := ltac:(setter_of mr_OwnershipChangedAt eta_MergeRequestStatus).
#[export] Instance set_mr_LastExternalAssistSHA : Settable mr_LastExternalAssistSHA := ltac:(setter_of mr_LastExternalAssistSHA eta_MergeRequestStatus).
#[export] Instance set_mr_LastMirroredCommentID : Settable mr_LastMirroredCommentID := ltac:(setter_of mr_LastMirroredCommentID eta_MergeRequestStatus).

Definition eta_MergeRequest (x : MergeRequest) : MergeRequest :=
  mkMergeRequest (mr_Name x) (mr_Annotations x) (mr_Spec x) (mr_Status x)
    (mr_OwnerReferences x).

#[export] Instance set_mr_Name : Settable mr_Name := ltac:(setter_of mr_Name eta_MergeRequest).
#[export] Instance set_mr_Annotations : Settable mr_Annotations := ltac:(setter_of mr_Annotations eta_MergeRequest).
#[export] Instance set_mr_Spec : Settable mr_Spec := ltac:(setter_of mr_Spec eta_MergeRequest).
#[export] Instance set_mr_Status : Settable mr_Status := ltac:(setter_of mr_Status eta_MergeRequest).
#[export] Instance set_mr_OwnerReferences : Settable mr_OwnerReferences := ltac:(setter_of mr_OwnerReferences eta_MergeRequest).

Definition eta_Project (x : Project) : Project :=
  mkProject (proj_Name x) (proj_Scm x) (proj_AutoApproveMaxSignificance x) (proj_MaxConcurrentAgents x)
    (proj_MaxLivePods x) (proj_MaxOpenTasks x) (proj_AgentPodTTLSeconds x) (proj_TurnTimeoutSeconds x)
    (proj_Queue x) (proj_TokenBudget x) (proj_TokenBudgetStatus x) (proj_Annotations x)
    (proj_TriggerLabel x) (proj_MaxNewTasksPerSweep x) (proj_UpgradePolicy x) (proj_Documentation x)
    (proj_StallProbeGraceSeconds x) (proj_StallProbeMaxAttempts x) (proj_ScmSecretRef x) (proj_Model x)
    (proj_ModelByKind x) (proj_MemoryEnabled x) (proj_MemoryPhase x) (proj_MemoryReadySince x)
    (proj_WorkspaceEnabled x) (proj_WorkspaceCacheEnabled x) (proj_WorkspaceSize x) (proj_WorkspaceCacheSize x)
    (proj_BrainstormHistory x) (proj_BrainstormPausedAt x) (proj_BrainstormPauseReason x) (proj_LastMovementAt x)
    (proj_Grafana x).

#[export] Instance set_proj_Grafana : Settable proj_Grafana := ltac:(setter_of proj_Grafana eta_Project).

#[export] Instance set_proj_BrainstormPausedAt : Settable proj_BrainstormPausedAt :=
  ltac:(setter_of proj_BrainstormPausedAt eta_Project).
#[export] Instance set_proj_BrainstormPauseReason : Settable proj_BrainstormPauseReason :=
  ltac:(setter_of proj_BrainstormPauseReason eta_Project).
#[export] Instance set_proj_LastMovementAt : Settable proj_LastMovementAt :=
  ltac:(setter_of proj_LastMovementAt eta_Project).
#[export] Instance set_proj_Name : Settable proj_Name := ltac:(setter_of proj_Name eta_Project).
#[export] Instance set_proj_Scm : Settable proj_Scm := ltac:(setter_of proj_Scm eta_Project).
#[export] Instance set_proj_AutoApproveMaxSignificance : Settable proj_AutoApproveMaxSignificance :=
  ltac:(setter_of proj_AutoApproveMaxSignificance eta_Project).
#[export] Instance set_proj_MaxConcurrentAgents : Settable proj_MaxConcurrentAgents :=
  ltac:(setter_of proj_MaxConcurrentAgents eta_Project).
#[export] Instance set_proj_MaxLivePods : Settable proj_MaxLivePods :=
  ltac:(setter_of proj_MaxLivePods eta_Project).
#[export] Instance set_proj_MaxOpenTasks : Settable proj_MaxOpenTasks :=
  ltac:(setter_of proj_MaxOpenTasks eta_Project).
#[export] Instance set_proj_AgentPodTTLSeconds : Settable proj_AgentPodTTLSeconds :=
  ltac:(setter_of proj_AgentPodTTLSeconds eta_Project).
#[export] Instance set_proj_TurnTimeoutSeconds : Settable proj_TurnTimeoutSeconds :=
  ltac:(setter_of proj_TurnTimeoutSeconds eta_Project).
#[export] Instance set_proj_Queue : Settable proj_Queue := ltac:(setter_of proj_Queue eta_Project).
#[export] Instance set_proj_Annotations : Settable proj_Annotations := ltac:(setter_of proj_Annotations eta_Project).
#[export] Instance set_proj_TriggerLabel : Settable proj_TriggerLabel := ltac:(setter_of proj_TriggerLabel eta_Project).
#[export] Instance set_proj_MaxNewTasksPerSweep : Settable proj_MaxNewTasksPerSweep := ltac:(setter_of proj_MaxNewTasksPerSweep eta_Project).
#[export] Instance set_proj_UpgradePolicy : Settable proj_UpgradePolicy := ltac:(setter_of proj_UpgradePolicy eta_Project).
#[export] Instance set_proj_Documentation : Settable proj_Documentation := ltac:(setter_of proj_Documentation eta_Project).
#[export] Instance set_proj_StallProbeGraceSeconds : Settable proj_StallProbeGraceSeconds := ltac:(setter_of proj_StallProbeGraceSeconds eta_Project).
#[export] Instance set_proj_StallProbeMaxAttempts : Settable proj_StallProbeMaxAttempts := ltac:(setter_of proj_StallProbeMaxAttempts eta_Project).
#[export] Instance set_proj_ScmSecretRef : Settable proj_ScmSecretRef := ltac:(setter_of proj_ScmSecretRef eta_Project).
#[export] Instance set_proj_Model : Settable proj_Model := ltac:(setter_of proj_Model eta_Project).
#[export] Instance set_proj_ModelByKind : Settable proj_ModelByKind := ltac:(setter_of proj_ModelByKind eta_Project).
#[export] Instance set_proj_MemoryEnabled : Settable proj_MemoryEnabled := ltac:(setter_of proj_MemoryEnabled eta_Project).
#[export] Instance set_proj_MemoryPhase : Settable proj_MemoryPhase := ltac:(setter_of proj_MemoryPhase eta_Project).
#[export] Instance set_proj_MemoryReadySince : Settable proj_MemoryReadySince := ltac:(setter_of proj_MemoryReadySince eta_Project).
#[export] Instance set_proj_WorkspaceEnabled : Settable proj_WorkspaceEnabled := ltac:(setter_of proj_WorkspaceEnabled eta_Project).
#[export] Instance set_proj_WorkspaceCacheEnabled : Settable proj_WorkspaceCacheEnabled := ltac:(setter_of proj_WorkspaceCacheEnabled eta_Project).
#[export] Instance set_proj_WorkspaceSize : Settable proj_WorkspaceSize := ltac:(setter_of proj_WorkspaceSize eta_Project).
#[export] Instance set_proj_WorkspaceCacheSize : Settable proj_WorkspaceCacheSize := ltac:(setter_of proj_WorkspaceCacheSize eta_Project).
#[export] Instance set_proj_BrainstormHistory : Settable proj_BrainstormHistory := ltac:(setter_of proj_BrainstormHistory eta_Project).
#[export] Instance set_proj_TokenBudget : Settable proj_TokenBudget :=
  ltac:(setter_of proj_TokenBudget eta_Project).
#[export] Instance set_proj_TokenBudgetStatus : Settable proj_TokenBudgetStatus :=
  ltac:(setter_of proj_TokenBudgetStatus eta_Project).

(** ** Go zero values *)

Definition zero_TaskSource : TaskSource :=
  mkTaskSource ""%string ""%string ""%string ""%string false 0 ""%string ""%string.

Definition zero_TaskSpec : TaskSpec :=
  mkTaskSpec ""%string ""%string ""%string None ""%string ""%string ""%string [] [] []
    0 ""%string ""%string.

Definition zero_TaskStats : TaskStats :=
  mkTaskStats 0 0 0 0 0 0 0 [] 0 0
    0 0 0 [].

Definition zero_TaskStatus : TaskStatus :=
  mkTaskStatus ""%string [] ""%string None ""%string ""%string None ""%string None ""%string
    None [] [] zero_TaskStats None ""%string [] [] None 0
    0 0 0 0 0 0 0 None 0 0
    ""%string None [] None ""%string ""%string ""%string ""%string [] []
    ""%string.

Definition zero_Task : Task :=
  mkTask ""%string ""%string ∅ ∅ 0 None zero_TaskSpec zero_TaskStatus ""%string.

Definition zero_ApprovalEvidence : ApprovalEvidence :=
  mkApprovalEvidence ""%string ""%string 0 ""%string false ""%string.

Definition zero_IssueSpec : IssueSpec :=
  mkIssueSpec ""%string 0 ""%string ""%string ""%string ""%string.

Definition zero_IssueStatus : IssueStatus :=
  mkIssueStatus ""%string ""%string ""%string ""%string ""%string [] [] 0 0 []
    None None None None None [] None None 0 0 None None.

Definition zero_Issue : Issue :=
  mkIssue ""%string ∅ 0 zero_IssueSpec zero_IssueStatus ∅ [].

Definition zero_MergeRequestSpec : MergeRequestSpec :=
  mkMergeRequestSpec ""%string 0 ""%string ""%string.

Definition zero_MergeRequestStatus : MergeRequestStatus :=
  mkMergeRequestStatus ""%string ""%string ""%string ""%string ""%string ""%string ""%string ""%string false None
    ""%string None ""%string ""%string ""%string 0 ""%string ""%string ""%string None [] 0 0 [] None None None None [] None ""%string ""%string None.

Definition zero_MergeRequest : MergeRequest :=
  mkMergeRequest ""%string ∅ zero_MergeRequestSpec zero_MergeRequestStatus [].

Definition zero_ScmSpec : ScmSpec :=
  mkScmSpec ""%string ""%string [] [] ""%string ""%string 0 ""%string None ""%string ""%string ""%string.

Definition zero_Project : Project :=
  mkProject ""%string None ""%string 0 0 0 0 0 None None None ∅ ""%string 0 None None 0 0 ""%string ""%string ∅ None ""%string None None None ""%string ""%string None None ""%string None None.

Definition zero_Repository : Repository :=
  mkRepository ""%string ""%string ""%string None None ""%string ∅.

(** ** Accessors *)

(** Reading an annotation of a Go map: an absent key reads the empty string. *)
Definition ann (t : Task) (k : string) : string := default ""%string (Annotations t !! k).

(** Applies a function to the status of a Task: what [t.Status.f = v] does to it. *)
Definition on_status (t : Task) (f : TaskStatus -> TaskStatus) : Task := t <| Status ::= f |>.

(** ** Task predicates (api/v1alpha1/task_types.go) *)

Definition repoScopedKinds : list (string * bool) := [("documentation", true)]%string.

Definition projectScopedKinds : list (string * bool) :=
  [("brainstorm", true); ("incident", true); ("refine", true)]%string.

Definition unconstrainedKinds : list (string * bool) :=
  [("review", true); ("implement", true); ("takeover", true); ("upgrade", true)]%string.

Definition IsProjectScopedKind (kind : string) : bool := in_set projectScopedKinds kind.

Definition IsKnownKind (kind : string) : bool :=
  in_set repoScopedKinds kind || in_set projectScopedKinds kind || in_set unconstrainedKinds kind.

(** The two errors of [ValidateTaskSpec]. *)
Inductive TaskSpecError :=
  | RepositoryRefRequired (kind : string)
  | RepositoryRefForbidden (kind repo : string).

Definition ValidateTaskSpec (spec : TaskSpec) : option TaskSpecError :=
  let kind := Kind spec in
  if kind == "" then None
  else if in_set repoScopedKinds kind && (RepositoryRef spec == "") then
    Some (RepositoryRefRequired kind)
  else if in_set projectScopedKinds kind && (RepositoryRef spec != "") then
    Some (RepositoryRefForbidden kind (RepositoryRef spec))
  else None.

Definition TaskDone (t : Task) : bool :=
  (State (Status t) == StateDone) || (State (Status t) == StateRejected).

Definition Parked (t : Task) : bool := ParkReason (Status t) != "".

Definition TaskIsTerminalOutcome (state : string) : bool :=
  (state == StateDone) || (state == StateRejected).

Definition FoldStartedAt (t : Task) : Time :=
  match FoldInFlightSince (Status t) with
  | Some s => s
  | None => match StateEnteredAt (Status t) with Some e => e | None => 0 end
  end.

Definition FoldInFlightActive (t : Task) (now : Time) : bool :=
  match FoldInFlight (Status t) with
  | [] => false
  | _ :: _ =>
      if TaskDone t then false
      else Before now (Add (FoldStartedAt t) FoldInFlightTTL)
  end.

(** [strings.ToUpper] of one byte: an ASCII letter is raised, and a byte that is
    not ASCII is not valid UTF-8 on its own, so it becomes U+FFFD. *)
Definition upper_byte (a : ascii) : string :=
  let n := Z.of_nat (nat_of_ascii a) in
  if (97 <=? n) && (n <=? 122) then String (ascii_of_nat (Z.to_nat (n - 32))) ""
  else if n <? 128 then String a ""
  else String (ascii_of_nat 239) (String (ascii_of_nat 191) (String (ascii_of_nat 189) "")).

Definition OutcomeReasonFor (agentKind : string) : string :=
  match agentKind with
  | EmptyString => OutcomeReasonClaimed
  | String a rest => String.append (upper_byte a) rest
  end.

Definition OutcomeCondition (t : Task) : option Condition :=
  find (fun c => c_Type c == ConditionOutcomeAccepted) (Conditions (Status t)).

Definition OutcomeCommitted (t : Task) : bool :=
  match OutcomeCondition t with
  | Some c => (c_Status c == ConditionTrue) && (c_Reason c != OutcomeReasonClaimed)
  | None => false
  end.

Definition OutcomeCommittedFor (t : Task) (agentKind : string) : bool :=
  if agentKind == "" then false
  else OutcomeCommitted t &&
       match OutcomeCondition t with
       | Some c => c_Reason c == OutcomeReasonFor agentKind
       | None => false
       end.
