(* ===== verification/Vocabulary.v ===== *)
(** * The vocabulary of the Task state machine (internal/stage): states, agent
    kinds, reasons, and the properties keyed on them. *)

From S2P Require Import Prelude GoTime Api.

Open Scope Z_scope.
Open Scope go_scope.

(** ** Pseudo-states and pseudo-targets *)

Definition Create : string := "(create)".
Definition Reap : string := "(reap)".
Definition Respawn : string := "(respawn)".
Definition ParkTarget : string := "(park)".

(** ** Kinds *)

Definition AgentBrainstorm : string := "brainstorm".
Definition AgentIncident : string := "incident".
Definition AgentRefine : string := "refine".
Definition AgentImplement : string := "implement".
Definition AgentReview : string := "review".
Definition AgentDocumentation : string := "documentation".
Definition AgentUpgrade : string := "upgrade".
Definition kindReview : string := "review".
Definition kindTakeover : string := "takeover".

Definition refinedDoneKinds : list (string * bool) :=
  [(AgentBrainstorm, true); (AgentRefine, true); (AgentIncident, true)].

(** ** Clocks *)

Definition ClockNone : string := "none".
Definition ClockAdmission : string := "admission".
Definition ClockReadiness : string := "readiness".
Definition ClockWork : string := "work".

(** ** Reasons *)

Definition ReasonBacklogSweep : string := "backlog-sweep".
Definition ReasonTriageStalled : string := "triage-stalled".
Definition ReasonNameTooLong : string := "name-too-long".
Definition ReasonStageDeadline : string := "stage-deadline".
Definition ReasonAwaitingHuman : string := "awaiting-human".
Definition ReasonIdentityUnverified : string := "identity-unverified".
Definition ReasonImplementDeclined : string := "implement-declined".
Definition ReasonDeclined : string := "declined".
Definition ReasonFalsePositive : string := "false-positive".
Definition ReasonTrackedElsewhere : string := "tracked-elsewhere".
Definition ReasonReviewLoopExhausted : string := "review-loop-exhausted".
Definition ReasonReviewPostRefused : string := "review-post-refused".
Definition ReasonMergeTimeout : string := "merge-timeout".
Definition ReasonMergeBlocked : string := "merge-blocked".
Definition ReasonMergeOrderMissing : string := "merge-order-missing".
Definition ReasonDeployTimeout : string := "deploy-timeout".
Definition ReasonDeployBlocked : string := "deploy-blocked".
Definition ReasonNoOutcome : string := "no-outcome".
Definition ReasonTurnBudgetExhausted : string := "turn-budget-exhausted".
Definition ReasonPodRecreationExhausted : string := "pod-recreation-exhausted".
Definition ReasonObjectTooLarge : string := "object-too-large".
Definition ReasonFoldAdoptionUnverified : string := "fold-adoption-unverified".
Definition ReasonAdmissionStarved : string := "admission-starved".
Definition ReasonAgentContractMismatch : string := "agent-contract-mismatch".
Definition ReasonDocTimeout : string := "doc-timeout".
Definition ReasonOperatorError : string := "operator-error".
Definition ReasonHeadMoving : string := "head-moving".
Definition ReasonHandoffStalled : string := "handoff-stalled".
Definition ReasonIssueClosed : string := "issue-closed".
Definition ReasonOwnershipLost : string := "ownership-lost".
Definition ReasonMRMergedExternally : string := "mr-merged-externally".
Definition ReasonMRClosedExternally : string := "mr-closed-externally".
Definition ReasonMergeAuthRefused : string := "merge-auth-refused".
Definition ReasonMRTakenOver : string := "mr-taken-over".
Definition ReasonCIRed : string := "ci-red".
Definition ReasonCIBlocked : string := "ci-blocked".
Definition ReasonMergeConflict : string := "merge-conflict".
Definition ReasonCIPending : string := "ci-pending".
Definition ReasonCIFailed : string := "ci-failed".
Definition ReasonMergeConflictRetry : string := "merge-conflict-retry".
Definition ReasonMRSurfaceSpent : string := "mr-surface-spent".
Definition ReasonRetryExhausted : string := "retry-exhausted".

Definition ParkReasons : list string :=
  [ReasonBacklogSweep; ReasonTriageStalled; ReasonNameTooLong;
   ReasonStageDeadline; ReasonAwaitingHuman; ReasonIdentityUnverified;
   ReasonImplementDeclined; ReasonReviewLoopExhausted; ReasonReviewPostRefused;
   ReasonMergeTimeout; ReasonMergeBlocked; ReasonMergeOrderMissing;
   ReasonDeployTimeout; ReasonDeployBlocked; ReasonNoOutcome;
   ReasonTurnBudgetExhausted; ReasonPodRecreationExhausted; ReasonObjectTooLarge;
   ReasonFoldAdoptionUnverified; ReasonAdmissionStarved; ReasonAgentContractMismatch;
   ReasonOperatorError; ReasonHeadMoving; ReasonHandoffStalled;
   ReasonOwnershipLost; ReasonMergeAuthRefused; ReasonCIRed;
   ReasonCIBlocked; ReasonMergeConflict; ReasonCIPending;
   ReasonCIFailed; ReasonMergeConflictRetry; ReasonMRSurfaceSpent;
   ReasonRetryExhausted].

Definition RejectReasons : list string :=
  [ReasonDeclined; ReasonFalsePositive; ReasonTrackedElsewhere;
   ReasonIssueClosed; ReasonMRClosedExternally; ReasonMRTakenOver].

Definition DoneReasons : list string :=
  [ReasonDocTimeout; ReasonMRMergedExternally].

(** The closed set: the three vocabularies, in this order. *)
Definition Reasons : list string := (ParkReasons ++ RejectReasons ++ DoneReasons)%list.

Definition IsParkReason (r : string) : bool := str_mem ParkReasons r.
Definition IsRejectReason (r : string) : bool := str_mem RejectReasons r.
Definition IsDoneReason (r : string) : bool := str_mem DoneReasons r.
Definition ValidReason (r : string) : bool := str_mem Reasons r.

(** ** State properties (internal/stage/liveness.go) *)

Definition AllStates : list string :=
  [StateNew; StateRefined; StateUnderImplementation; StateAwaitingReview;
   StateMerged; StateDeployed; StateDone; StateRejected].

Definition liveStates : list (string * bool) :=
  [(StateRefined, true); (StateUnderImplementation, true); (StateAwaitingReview, true)].

Definition Live (state : string) : bool := in_set liveStates state.

Definition operatorDriven : list (string * bool) :=
  [(StateMerged, true); (StateDeployed, true)].

Definition OperatorDriven (state : string) : bool := in_set operatorDriven state.

Definition issueClosedStopStates : list (string * bool) :=
  [(StateNew, true); (StateRefined, true); (StateUnderImplementation, true);
   (StateAwaitingReview, true); (StateMerged, true)].

Definition AllowsIssueClosedStop (state : string) : bool := in_set issueClosedStopStates state.

Definition originAgentKinds : list (string * string) :=
  [("implement", AgentImplement); ("takeover", AgentImplement); ("review", AgentReview);
   ("brainstorm", AgentBrainstorm); ("incident", AgentIncident); ("refine", AgentRefine);
   ("documentation", AgentDocumentation); ("upgrade", AgentUpgrade)]%string.

Definition AgentKindFor (state specKind : string) : string :=
  if (state == StateRefined) || (state == StateUnderImplementation) then
    default ""%string (tbl originAgentKinds specKind)
  else if state == StateAwaitingReview then AgentReview
  else "".

(** ** Lemmas *)

Lemma Live_spec s :
  Live s = true <->
  s = StateRefined \/ s = StateUnderImplementation \/ s = StateAwaitingReview.
Proof.
  split.
  - intros H. apply in_set_In in H. in_cases H; auto.
  - intros [->|[->| ->]]; reflexivity.
Qed.

Lemma reasons_NoDup : NoDup Reasons.
Proof. by_compute. Qed.

Lemma park_reason_nonempty r : IsParkReason r = true -> r <> ""%string.
Proof. intros H ->. vm_compute in H. discriminate. Qed.

Lemma IsParkReason_In r : IsParkReason r = true <-> In r ParkReasons.
Proof. apply str_mem_In. Qed.

Lemma IsParkReason_notIn r : IsParkReason r = false <-> ~ In r ParkReasons.
Proof. rewrite <- IsParkReason_In. by rewrite not_true_iff_false. Qed.
