(* ===== verification/Machine.v ===== *)
(** * The transition table and the one way a state is entered
    (internal/stage/stage.go: Transitions, LegalFor, Enter). *)

From S2P Require Import Prelude GoTime Api Vocabulary.

Open Scope Z_scope.
Open Scope go_scope.

(** ** The table *)

(** One row of the table.  The contract prose of each row is not modelled. *)
Record Edge := mkEdge { To : string; Reason : string }.

(** The Go zero value [Edge{}]. *)
Definition noEdge : Edge := mkEdge "" "".

Definition Transitions : list (string * list Edge) :=
  [(Create,
     [mkEdge StateNew ""; mkEdge StateUnderImplementation "";
      mkEdge StateDone ""; mkEdge StateRejected ""]);
   (StateNew,
     [mkEdge StateRefined ""; mkEdge StateAwaitingReview ""; mkEdge StateRejected ""]);
   (StateRefined,
     [mkEdge StateUnderImplementation ""; mkEdge StateDone ""; mkEdge StateRejected ""]);
   (StateUnderImplementation,
     [mkEdge StateAwaitingReview ""; mkEdge StateMerged ""; mkEdge StateRefined "";
      mkEdge StateDone ""; mkEdge StateRejected ""]);
   (StateAwaitingReview,
     [mkEdge StateUnderImplementation ""; mkEdge StateMerged "";
      mkEdge StateDone ReasonMRMergedExternally; mkEdge StateRejected ""]);
   (StateMerged,
     [mkEdge StateDeployed ""; mkEdge StateAwaitingReview "";
      mkEdge StateUnderImplementation ""; mkEdge StateRejected ""]);
   (StateDeployed, [mkEdge StateDone ""]);
   (StateDone, [mkEdge Reap ""]);
   (StateRejected, [mkEdge Reap ""])].

(** [Transitions] collapsed to its from/to pairs. *)
Definition legalPairs : list (string * string) :=
  flat_map (fun '(from, edges) => map (fun e => (from, To e)) edges) Transitions.

Definition Legal (from to : string) : bool :=
  existsb (fun '(f, t) => (from == f) && (to == t)) legalPairs.

(** ** Facts about the owned merge requests *)

Definition reviewGateOpen (mrs : list MergeRequest) : bool :=
  match mrs with
  | [] => false
  | _ => forallb (fun mr => negb (is_set (mr_PendingReview (mr_Status mr)))) mrs
  end.

Definition MRTerminal (mr : MergeRequest) : bool :=
  (mr_State (mr_Status mr) == "merged") || (mr_State (mr_Status mr) == "closed").

Definition AllMRsTerminal (mrs : list MergeRequest) : bool :=
  match mrs with
  | [] => false
  | _ => forallb MRTerminal mrs
  end.

Definition AllMRsMerged (mrs : list MergeRequest) : bool :=
  match mrs with
  | [] => false
  | _ => forallb (fun mr => mr_State (mr_Status mr) == "merged") mrs
  end.

Definition openMRs (mrs : list MergeRequest) : list MergeRequest :=
  List.filter (fun mr => negb (MRTerminal mr)) mrs.

Definition openIssues (issues : list Issue) : list Issue :=
  List.filter (fun i => iss_State (iss_Status i) == "open") issues.

Definition anyMerged (mrs : list MergeRequest) : bool :=
  existsb (fun mr => (mr_State (mr_Status mr) == "merged")
                     || is_set (mr_MergedAt (mr_Status mr))) mrs.

Definition anyExternallyOwned (mrs : list MergeRequest) : bool :=
  existsb (fun mr => mr_Ownership (mr_Status mr) == OwnershipExternal) mrs.

(** ** The guarded edge relation *)

(** The [*Task] arguments of these predicates may be nil. *)
Definition kind_of (t : option Task) : string :=
  match t with Some t => Kind (Spec t) | None => "" end.

Definition AdoptedMR (t : option Task) : bool :=
  match t with
  | Some t =>
      match Source (Spec t) with
      | Some s => src_IsPR s && (0 <? src_Number s)
      | None => false
      end
  | None => false
  end.

Definition AdoptedUpgrade (t : option Task) : bool :=
  match t with
  | Some t' => (Kind (Spec t') == AgentUpgrade) && AdoptedMR t
  | None => false
  end.

Definition is_nil (t : option Task) : bool := negb (is_set t).

Definition LegalFor (t : option Task) (mrs : list MergeRequest) (from to : string) : bool :=
  if negb (Legal from to) then false
  else if negb (is_nil t) && (kind_of t == kindReview)
          && ((to == StateUnderImplementation) || (to == StateMerged)) then false
  else if (from == StateAwaitingReview)
          && ((to == StateUnderImplementation) || (to == StateMerged))
          && negb (reviewGateOpen mrs) then false
  else if (from == StateAwaitingReview) && (to == StateDone)
          && (is_nil t || (kind_of t != kindReview) || negb (AllMRsMerged mrs)) then false
  else if (from == StateUnderImplementation) && (to == StateDone)
          && (is_nil t || (kind_of t != AgentDocumentation)) then false
  else if (from == StateNew) && (to == StateAwaitingReview)
          && ((is_nil t || (kind_of t != kindReview)) && negb (AdoptedUpgrade t)) then false
  else if (from == StateRefined) && (to == StateDone)
          && (is_nil t || negb (in_set refinedDoneKinds (kind_of t))) then false
  else if (from == StateUnderImplementation) && (to == StateMerged)
          && negb (AllMRsMerged mrs) then false
  else true.

(** ** Errors *)

(** The typed errors of the package; [ErrorF] is an untyped [fmt.Errorf] one. *)
Inductive StageError :=
  | IllegalTransition (from to : string)
  | UnknownReason (reason : string)
  | MissingReason (to : string)
  | StillParked (state parkReason : string)
  | NotParked (state : string)
  | ErrorF (what : string).

(** ** Entering a state *)

Definition pseudoTarget (to : string) : bool :=
  (to == Create) || (to == Reap) || (to == Respawn) || (to == ParkTarget).

Definition reasonAllowedFor (to reason : string) : bool :=
  if reason == "" then true
  else if to == StateRejected then IsRejectReason reason
  else if to == StateDone then IsDoneReason reason
  else ValidReason reason.

Definition reasonRequired (to : string) : bool := to == StateRejected.

(** Launders the retry lane's three fields (park.go). *)
Definition ResetRetryBudget (t : Task) : Task :=
  on_status t (fun s => s <| RetryAttempts := 0 |> <| RetryBlocker := ""%string |>
                          <| RetryNextAt := None |>).

(** The per-transition stamps: no validation here. *)
Definition stampEnter (t : Task) (to reason : string) (now : Time) : Task :=
  let t := on_status t (fun s =>
    s <| State := to |>
      <| StateReason := reason |>
      <| AgentKind := AgentKindFor to (Kind (Spec t)) |>
      <| StateEnteredAt := Some now |>
      <| PodStartedAt := None |>
      <| StateWorkStartedAt := None |>
      <| LastTurnFinalText := ""%string |>
      <| LastTurnPushedRepos := [] |>
      <| LastTurnFailedRepos := [] |>
      <| LastTurnReposTurnID := ""%string |>
      <| Stats ::= fun st => st <| PodRecreations := 0 |> <| AgentStops := 0 |> |>
      <| StageElapsedCarrySeconds := 0 |>) in
  let t := ResetRetryBudget t in
  on_status t (fun s =>
    s <| ConversationLastEventAt := if Live to then Some now else None |>).

Definition Enter (t : Task) (mrs : list MergeRequest) (to reason : string) (now : Time)
  : result StageError Task :=
  if ParkReason (Status t) != "" then
    Err (StillParked (State (Status t)) (ParkReason (Status t)))
  else
    let from := if State (Status t) == "" then Create else State (Status t) in
    if pseudoTarget to then Err (IllegalTransition from to)
    else if negb (LegalFor (Some t) mrs from to) then Err (IllegalTransition from to)
    else if negb (reasonAllowedFor to reason) then Err (UnknownReason reason)
    else if (reason == "") && reasonRequired to then Err (MissingReason to)
    else Ok (stampEnter t to reason now).

(** ** The contract *)

(** The declarative contract of an edge: the seven guards of [LegalFor], each an
    implication over the Task's kind and the merge requests it owns. *)
Record edge_contract (t : Task) (mrs : list MergeRequest) (from to : string) : Prop := {
  ec_table : In (from, to) legalPairs;
  ec_review_never_writes :
    Kind (Spec t) = kindReview -> to <> StateUnderImplementation /\ to <> StateMerged;
  ec_review_posted :
    from = StateAwaitingReview -> to = StateUnderImplementation \/ to = StateMerged ->
    mrs <> [] /\ Forall (fun mr => mr_PendingReview (mr_Status mr) = None) mrs;
  ec_external_finalize :
    from = StateAwaitingReview -> to = StateDone ->
    Kind (Spec t) = kindReview /\ mrs <> []
    /\ Forall (fun mr => mr_State (mr_Status mr) = "merged"%string) mrs;
  ec_doc_batch :
    from = StateUnderImplementation -> to = StateDone -> Kind (Spec t) = AgentDocumentation;
  ec_review_lane :
    from = StateNew -> to = StateAwaitingReview ->
    Kind (Spec t) = kindReview \/
    (Kind (Spec t) = AgentUpgrade /\
     exists s, Source (Spec t) = Some s /\ src_IsPR s = true /\ 0 < src_Number s);
  ec_refined_done :
    from = StateRefined -> to = StateDone ->
    Kind (Spec t) = AgentBrainstorm \/ Kind (Spec t) = AgentRefine \/ Kind (Spec t) = AgentIncident;
  ec_shipped_out_of_band :
    from = StateUnderImplementation -> to = StateMerged ->
    mrs <> [] /\ Forall (fun mr => mr_State (mr_Status mr) = "merged"%string) mrs
}.

(** A route of a Task through the states, every hop legal for it under the guards
    with some set of owned merge requests. *)
Inductive route (t : Task) : string -> string -> Prop :=
  | route_here s : route t s s
  | route_hop s m u mrs :
      LegalFor (Some t) mrs s m = true -> In m AllStates -> route t m u -> route t s u.

(** A merge request that has merged on the forge and owes no review. *)
Definition merged_mr : MergeRequest :=
  zero_MergeRequest <| mr_Status ::= fun s => s <| mr_State := "merged"%string |> |>.

Definition mrs1 : list MergeRequest := [merged_mr].

(** A Task of the given kind that has entered no state yet. *)
Definition fresh_task (kind : string) : Task :=
  zero_Task <| Spec ::= fun s => s <| Kind := kind |> |>.

(** A Task of the given kind at rest in a state. *)
Definition idle_in (kind state : string) : Task :=
  (fresh_task kind) <| Status ::= fun s => s <| State := state |> <| StateEnteredAt := Some 1 |> |>.

(** ** Lemmas *)

Lemma Legal_In from to : Legal from to = true <-> In (from, to) legalPairs.
Proof.
  unfold Legal. rewrite existsb_exists. split.
  - intros [[f t] [Hin H]]. apply andb_true_iff in H as [Hf Ht].
    apply String.eqb_eq in Hf as ->. by apply String.eqb_eq in Ht as ->.
  - intros Hin. exists (from, to). by rewrite !String.eqb_refl.
Qed.

Ltac legal_cases H :=
  apply Legal_In in H; cbv in H;
  repeat (destruct H as [H|H]; [injection H as <- <-|]); [..|destruct H].

Lemma reviewGateOpen_spec mrs :
  reviewGateOpen mrs = true <->
  mrs <> [] /\ Forall (fun mr => mr_PendingReview (mr_Status mr) = None) mrs.
Proof.
  unfold reviewGateOpen. destruct mrs as [|mr mrs]; [intuition congruence|].
  rewrite forallb_forall, List.Forall_forall. split.
  - intros H. split; [done|]. intros x Hx. specialize (H x Hx).
    by destruct (mr_PendingReview _).
  - intros [_ H] x Hx. by rewrite (H x Hx).
Qed.

Lemma AllMRsMerged_spec mrs :
  AllMRsMerged mrs = true <->
  mrs <> [] /\ Forall (fun mr => mr_State (mr_Status mr) = "merged"%string) mrs.
Proof.
  unfold AllMRsMerged. destruct mrs as [|mr mrs]; [intuition congruence|].
  rewrite forallb_forall, List.Forall_forall. split.
  - intros H. split; [done|]. intros x Hx. by apply String.eqb_eq, H.
  - intros [_ H] x Hx. by apply String.eqb_eq, H.
Qed.

Lemma refinedDoneKinds_spec k :
  in_set refinedDoneKinds k = true <-> k = AgentBrainstorm \/ k = AgentRefine \/ k = AgentIncident.
Proof.
  split; [intros H; apply in_set_In in H; in_cases H; auto|].
  intros [->|[->| ->]]; reflexivity.
Qed.

Lemma AdoptedUpgrade_spec t :
  AdoptedUpgrade (Some t) = true <->
  Kind (Spec t) = AgentUpgrade /\
  exists s, Source (Spec t) = Some s /\ src_IsPR s = true /\ 0 < src_Number s.
Proof.
  cbn. rewrite andb_true_iff, String.eqb_eq. destruct (Source (Spec t)) as [s|]; cbn.
  - rewrite andb_true_iff, Z.ltb_lt. split.
    + intros (Hk & Hp & Hn). eauto.
    + intros (Hk & s' & [= ->] & Hp & Hn). auto.
  - split; [by intros [_ ?]|by intros (_ & s' & ? & _)].
Qed.

Lemma guard_false (b : bool) (x : bool) : (if b then false else x) = negb b && x.
Proof. by destruct b. Qed.

(** A refused edge: the guard's test holds, so its conjuncts do. *)
Ltac guard_contra H :=
  rewrite negb_true_iff; apply not_true_iff_false; intros H;
  rewrite ?andb_true_iff, ?orb_true_iff, ?negb_true_iff, ?String.eqb_eq, ?String.eqb_neq in H.

Lemma LegalFor_contract t mrs from to :
  LegalFor (Some t) mrs from to = true -> edge_contract t mrs from to.
Proof.
  unfold LegalFor. rewrite !guard_false, !andb_true_iff, !negb_involutive, Legal_In.
  cbn [is_nil is_set negb orb andb kind_of].
  intros (Ht & H1 & H2 & H3 & H4 & H5 & H6 & H7 & _).
  split; [done|..].
  - intros Hk. rewrite Hk in H1. cbn in H1. split; intros ->; cbn in H1; done.
  - intros -> Hto. rewrite <- reviewGateOpen_spec.
    destruct (reviewGateOpen mrs); [done|].
    destruct Hto as [-> | ->]; cbn in H2; done.
  - intros -> ->. cbn in H3. rewrite <- AllMRsMerged_spec.
    destruct (AllMRsMerged mrs), (String.eqb_spec (Kind (Spec t)) kindReview); cbn in H3; done.
  - intros -> ->. cbn in H4. by destruct (String.eqb_spec (Kind (Spec t)) AgentDocumentation).
  - intros -> ->. cbn -[AdoptedUpgrade] in H5.
    destruct (String.eqb_spec (Kind (Spec t)) kindReview); [by left|right].
    apply AdoptedUpgrade_spec. by destruct (AdoptedUpgrade (Some t)).
  - intros -> ->. cbn -[refinedDoneKinds in_set] in H6. apply refinedDoneKinds_spec.
    by destruct (in_set refinedDoneKinds (Kind (Spec t))).
  - intros -> ->. cbn in H7. apply AllMRsMerged_spec. by destruct (AllMRsMerged mrs).
Qed.

Lemma contract_LegalFor t mrs from to :
  edge_contract t mrs from to -> LegalFor (Some t) mrs from to = true.
Proof.
  intros [Ht H1 H2 H3 H4 H5 H6 H7].
  unfold LegalFor. rewrite !guard_false, !andb_true_iff, !negb_involutive, Legal_In.
  cbn [is_nil is_set negb orb andb kind_of].
  repeat split; [done|..]; guard_contra H.
  - destruct H as [Hk Hto], (H1 Hk) as [Hu Hm]. by destruct Hto.
  - destruct H as [[-> Hto] Hg]. apply reviewGateOpen_spec in H2; [congruence|done|done].
  - destruct H as [[-> ->] Hg]. destruct (H3 eq_refl eq_refl) as (Hk & Hm).
    apply AllMRsMerged_spec in Hm. destruct Hg; congruence.
  - destruct H as [[-> ->] Hg]. by apply Hg, H4.
  - destruct H as [[-> ->] [Hg Ha]].
    destruct (H5 eq_refl eq_refl) as [|Hu]; [congruence|].
    apply AdoptedUpgrade_spec in Hu. congruence.
  - destruct H as [[-> ->] Hg]. specialize (H6 eq_refl eq_refl).
    apply refinedDoneKinds_spec in H6. congruence.
  - destruct H as [[-> ->] Hg]. specialize (H7 eq_refl eq_refl).
    apply AllMRsMerged_spec in H7. congruence.
Qed.

Lemma Enter_Ok t mrs to r now t' :
  Enter t mrs to r now = Ok t' ->
  ParkReason (Status t) = ""%string /\ pseudoTarget to = false
  /\ LegalFor (Some t) mrs (if State (Status t) == "" then Create else State (Status t)) to = true
  /\ reasonAllowedFor to r = true /\ (r = ""%string -> reasonRequired to = false)
  /\ t' = stampEnter t to r now.
Proof.
  unfold Enter. intros H.
  destruct (String.eqb_spec (ParkReason (Status t)) "") as [Hp|]; [|done].
  cbn [negb] in H. destruct (pseudoTarget to); [done|].
  destruct (LegalFor _ _ _ _) eqn:El; [|done].
  destruct (reasonAllowedFor to r) eqn:Er; [|done]. cbn [negb] in H.
  destruct (String.eqb_spec r "") as [->|Hr]; cbn [andb] in H.
  - destruct (reasonRequired to); [done|]. injection H as <-. auto 10.
  - injection H as <-. repeat split; auto. by intros ->.
Qed.

(** The converse of [Enter_Ok]. *)
Lemma Enter_accepts t mrs to r now :
  ParkReason (Status t) = ""%string -> pseudoTarget to = false ->
  LegalFor (Some t) mrs (if State (Status t) == "" then Create else State (Status t)) to = true ->
  reasonAllowedFor to r = true -> (r == "") && reasonRequired to = false ->
  is_ok (Enter t mrs to r now) = true.
Proof.
  intros Hp Hps Hl Ha Hq. unfold Enter. by rewrite Hp, Hps, Hl, Ha, Hq.
Qed.

Lemma legal_to_state from to :
  In (from, to) legalPairs -> pseudoTarget to = false -> In to AllStates.
Proof.
  intros H Hp. apply Legal_In in H. legal_cases H; try discriminate; cbv; tauto.
Qed.

(** The vocabulary a state's reason is drawn from. *)
Lemma reasonAllowedFor_spec to r :
  reasonAllowedFor to r = true <->
  r = ""%string \/ In r (if to == StateRejected then RejectReasons
                         else if to == StateDone then DoneReasons else Reasons).
Proof.
  unfold reasonAllowedFor, IsRejectReason, IsDoneReason, ValidReason.
  destruct (String.eqb_spec r "") as [->|Hr]; [intuition|].
  destruct (to == StateRejected); [|destruct (to == StateDone)];
    rewrite str_mem_In; intuition.
Qed.

#[global] Arguments stampEnter : simpl never.

Lemma hop_intro t s m u mrs :
  edge_contract t mrs s m -> In m AllStates -> route t m u -> route t s u.
Proof. intros Hc Hm Hr. eapply route_hop; [by apply contract_LegalFor|done|done]. Qed.

Lemma mrs1_merged : mrs1 <> [] /\ Forall (fun mr => mr_State (mr_Status mr) = "merged"%string) mrs1.
Proof. split; [done|]. by repeat constructor. Qed.

Lemma mrs1_reviewed : mrs1 <> [] /\ Forall (fun mr => mr_PendingReview (mr_Status mr) = None) mrs1.
Proof. split; [done|]. by repeat constructor. Qed.

(** One hop along a route: the edge's contract, field by field. *)
Ltac hop_to m :=
  apply (hop_intro _ _ m _ mrs1);
  [split; intros; try discriminate; subst;
   first [ exact mrs1_merged | exact mrs1_reviewed
         | (split; [assumption|exact mrs1_merged])
         | (split; (discriminate || congruence)) | (left; assumption) | congruence
         | (cbv; tauto) ]
  | cbv; tauto | ].

Lemma merged_to_done t : route t StateMerged StateDone.
Proof. hop_to StateDeployed. hop_to StateDone. constructor. Qed.

Lemma awaiting_to_done t : route t StateAwaitingReview StateDone.
Proof.
  destruct (String.eqb_spec (Kind (Spec t)) kindReview) as [Hk|Hk].
  - hop_to StateDone. constructor.
  - hop_to StateMerged. apply merged_to_done.
Qed.

Lemma implementing_to_done t : route t StateUnderImplementation StateDone.
Proof. hop_to StateAwaitingReview. apply awaiting_to_done. Qed.

Lemma route_to_done t s :
  In s (Create :: AllStates) -> s <> StateRejected ->
  (s = StateRefined -> Kind (Spec t) <> kindReview) -> route t s StateDone.
Proof.
  intros Hs Hr Hk. unfold AllStates in Hs. in_cases Hs.
  - hop_to StateDone. constructor.
  - destruct (String.eqb_spec (Kind (Spec t)) kindReview) as [Hk'|Hk'].
    + hop_to StateAwaitingReview. apply awaiting_to_done.
    + hop_to StateRefined. hop_to StateUnderImplementation. apply implementing_to_done.
  - specialize (Hk eq_refl). hop_to StateUnderImplementation. apply implementing_to_done.
  - apply implementing_to_done.
  - apply awaiting_to_done.
  - apply merged_to_done.
  - hop_to StateDone. constructor.
  - constructor.
  - done.
Qed.

Lemma Reap_not_state : ~ In Reap AllStates.
Proof. intros H. apply str_mem_In in H. discriminate. Qed.

Lemma no_route_from_rejected t : ~ route t StateRejected StateDone.
Proof.
  intros H. inversion H as [|? m ? mrs Hl Hm _ E1 E2]; subst.
  apply LegalFor_contract, ec_table, Legal_In in Hl.
  remember StateRejected as from eqn:Ef. legal_cases Hl; try discriminate Ef.
  by apply Reap_not_state.
Qed.

Lemma no_route_from_refined t :
  Kind (Spec t) = kindReview -> ~ route t StateRefined StateDone.
Proof.
  intros Hk H. inversion H as [|? m ? mrs Hl Hm Hr E1 E2]; subst.
  apply LegalFor_contract in Hl as [Ht H1 _ _ _ _ H6 _].
  apply Legal_In in Ht. remember StateRefined as from eqn:Ef. legal_cases Ht; try discriminate Ef.
  - by destruct (H1 Hk) as [[] _].
  - rewrite Hk in H6. destruct (H6 eq_refl eq_refl) as [?|[?|?]]; discriminate.
  - by apply no_route_from_rejected in Hr.
Qed.

(** ** Properties *)

(** C1: [Enter] implements the transition contract exactly.  It succeeds if and
    only if the Task is not parked, the target is a member of the state enum, the
    edge satisfies the table and all seven guards for this Task and the merge
    requests it owns, and the reason is drawn from the target's own closed
    vocabulary ([rejected] must carry one). *)
Theorem Enter_refines_contract t mrs to r now :
  is_ok (Enter t mrs to r now) = true <->
  ParkReason (Status t) = ""%string
  /\ In to AllStates
  /\ edge_contract t mrs (if State (Status t) == "" then Create else State (Status t)) to
  /\ (r = ""%string /\ to <> StateRejected \/
      In r (if to == StateRejected then RejectReasons
            else if to == StateDone then DoneReasons else Reasons)).
Proof.
  split.
  - destruct (Enter t mrs to r now) as [t'|] eqn:E; [intros _|done].
    apply Enter_Ok in E as (Hp & Hps & Hl & Ha & Hq & _).
    apply LegalFor_contract in Hl. pose proof (ec_table _ _ _ _ Hl) as Ht.
    split; [done|]. split; [by eapply legal_to_state|]. split; [done|].
    apply reasonAllowedFor_spec in Ha as [->|]; [left|by right].
    split; [done|]. intros ->. by specialize (Hq eq_refl).
  - intros (Hp & Hin & Hc & Hr). unfold Enter. rewrite Hp. cbn [negb String.eqb].
    replace (pseudoTarget to) with false by (cbv in Hin; in_cases Hin; reflexivity).
    apply contract_LegalFor in Hc. rewrite Hc. cbn [negb].
    replace (reasonAllowedFor to r) with true.
    2:{ symmetry. apply reasonAllowedFor_spec. destruct Hr as [[? _]|?]; auto. }
    cbn [negb]. destruct (String.eqb_spec r "") as [->|]; cbn; [|done].
    unfold reasonRequired. destruct (String.eqb_spec to StateRejected) as [->|]; [|done].
    destruct Hr as [[_ ?]|Hr]; [done|]. cbn in Hr. by in_cases Hr.
Qed.

(** Entering a state makes every per-transition stamp at once: the state, its
    reason and its agent kind; fresh clocks (no pod, no work start, no residency
    carry); zero pod recreations and agent stops; an empty last-turn record; a full
    retry budget; and the idle clock armed exactly on the live states.  Nothing
    else of the Task moves. *)
Theorem Enter_stamps t mrs to r now t' :
  Enter t mrs to r now = Ok t' ->
  let s := Status t in
  let s' := Status t' in
  State s' = to /\ StateReason s' = r /\ AgentKind s' = AgentKindFor to (Kind (Spec t))
  /\ StateEnteredAt s' = Some now /\ PodStartedAt s' = None /\ StateWorkStartedAt s' = None
  /\ StageElapsedCarrySeconds s' = 0
  /\ PodRecreations (Stats s') = 0 /\ AgentStops (Stats s') = 0
  /\ Turns (Stats s') = Turns (Stats s)
  /\ (LastTurnFinalText s', LastTurnPushedRepos s', LastTurnFailedRepos s',
      LastTurnReposTurnID s') = (""%string, [], [], ""%string)
  /\ (RetryAttempts s', RetryBlocker s', RetryNextAt s') = (0, ""%string, None)
  /\ ConversationLastEventAt s' = (if Live to then Some now else None)
  /\ Spec t' = Spec t /\ Annotations t' = Annotations t
  /\ ParkReason s' = ParkReason s /\ PendingEvents s' = PendingEvents s /\ Notes s' = Notes s
  /\ (MergeReentries s', DeployReentries s', HeadMoveReentries s', CIRedReentries s',
      MergeConflictReentries s', HumanReviewRounds s')
     = (MergeReentries s, DeployReentries s, HeadMoveReentries s, CIRedReentries s,
        MergeConflictReentries s, HumanReviewRounds s).
Proof.
  intros E. apply Enter_Ok in E as (_ & _ & _ & _ & _ & ->).
  unfold stampEnter. cbn. repeat split; reflexivity.
Qed.

(** C40: The table is closed and final where it must be: every edge leaves the
    create pseudo-state or a state of the enum and lands on a state of the enum or
    on [Reap]; [done] and [rejected] lead nowhere but [Reap]; only they do; and no
    edge parks or respawns, so parking is never a transition. *)
Theorem table_closed from to :
  Legal from to = true ->
  (from = Create \/ In from AllStates)
  /\ (In to AllStates \/ to = Reap)
  /\ (to = Reap <-> from = StateDone \/ from = StateRejected)
  /\ from <> to.
Proof.
  intros H. legal_cases H; cbv; repeat split; try tauto; try discriminate; intuition discriminate.
Qed.

(** where a Task can still finish.  From any state there is a route to [done]
    whose every hop the guards allow for this Task, except from [rejected] and,
    for a review Task, from [refined]; from those two no route exists. *)
Theorem done_reachable_iff t s :
  In s (Create :: AllStates) ->
  (route t s StateDone <-> s <> StateRejected /\ (s = StateRefined -> Kind (Spec t) <> kindReview)).
Proof.
  intros Hs. split; [|intros [Hr Hf]; by apply route_to_done].
  intros Hroute. split; [intros ->; by apply no_route_from_rejected in Hroute|].
  intros -> Hk. by apply (no_route_from_refined t) in Hroute.
Qed.

Lemma Enter_stamps_witness :
  exists t', Enter (fresh_task "implement") [] StateNew "" 1700000000 = Ok t'
             /\ State (Status t') = StateNew.
Proof.
  eexists. split; [reflexivity|].
  exact (proj1 (Enter_stamps (fresh_task "implement") [] StateNew "" 1700000000 _ eq_refl)).
Defined.

Lemma table_closed_witness :
  Legal StateDeployed StateDone = true /\ (In StateDone AllStates \/ StateDone = Reap).
Proof. split; [reflexivity|]. exact (proj1 (proj2 (table_closed StateDeployed StateDone eq_refl))). Defined.

Lemma done_reachable_iff_witness :
  In StateRefined (Create :: AllStates) /\ ~ route (fresh_task kindReview) StateRefined StateDone.
Proof.
  split; [cbv; tauto|]. intros H.
  apply (done_reachable_iff (fresh_task kindReview) StateRefined) in H; [|cbv; tauto].
  exact (proj2 H eq_refl eq_refl).
Defined.
