(* ===== verification/Park.v ===== *)
(** * Parking (internal/stage/park.go): the park flag, the classes that say who
    un-parks, the retry lane and the operator's own un-parks. *)

From S2P Require Import Prelude GoTime Api Vocabulary Machine.

Open Scope Z_scope.
Open Scope go_scope.

(** ** Who un-parks a park reason *)

Inductive UnparkClass := UnparkNever | UnparkHuman | UnparkTimer | UnparkRetired | UnparkRetry.

#[export] Instance UnparkClass_eq_dec : EqDecision UnparkClass.
Proof. solve_decision. Defined.

Definition unparkClasses : list (string * UnparkClass) :=
  [(ReasonBacklogSweep, UnparkHuman);
   (ReasonAwaitingHuman, UnparkHuman);
   (ReasonIdentityUnverified, UnparkHuman);
   (ReasonHandoffStalled, UnparkHuman);
   (ReasonMergeTimeout, UnparkTimer);
   (ReasonDeployTimeout, UnparkTimer);
   (ReasonNoOutcome, UnparkTimer);
   (ReasonCIPending, UnparkRetry);
   (ReasonCIFailed, UnparkRetry);
   (ReasonMergeConflictRetry, UnparkRetry);
   (ReasonMRSurfaceSpent, UnparkRetry);
   (ReasonRetryExhausted, UnparkHuman);
   (ReasonTurnBudgetExhausted, UnparkRetired);
   (ReasonReviewLoopExhausted, UnparkRetired);
   (ReasonPodRecreationExhausted, UnparkRetired);
   (ReasonStageDeadline, UnparkNever);
   (ReasonNameTooLong, UnparkNever);
   (ReasonImplementDeclined, UnparkNever);
   (ReasonReviewPostRefused, UnparkNever);
   (ReasonMergeBlocked, UnparkNever);
   (ReasonDeployBlocked, UnparkNever);
   (ReasonHeadMoving, UnparkNever);
   (ReasonCIRed, UnparkNever);
   (ReasonCIBlocked, UnparkNever);
   (ReasonMergeConflict, UnparkNever);
   (ReasonOwnershipLost, UnparkNever);
   (ReasonTriageStalled, UnparkNever);
   (ReasonOperatorError, UnparkNever);
   (ReasonObjectTooLarge, UnparkNever);
   (ReasonAgentContractMismatch, UnparkNever);
   (ReasonMergeOrderMissing, UnparkNever);
   (ReasonAdmissionStarved, UnparkNever);
   (ReasonMergeAuthRefused, UnparkNever);
   (ReasonFoldAdoptionUnverified, UnparkNever)].

Definition UnparkClassFor (reason : string) : option UnparkClass := tbl unparkClasses reason.

(** The comparisons of the code on [class, ok := UnparkClassFor(r)]. *)
Definition class_is (reason : string) (c : UnparkClass) : bool :=
  match UnparkClassFor reason with
  | Some c' => bool_decide (c' = c)
  | None => false
  end.

(** Parks written at or after the merge: the second axis. *)
Definition mergeStageParks : list (string * bool) :=
  [(ReasonMergeTimeout, true);
   (ReasonMergeBlocked, true);
   (ReasonMergeAuthRefused, true);
   (ReasonMergeOrderMissing, true);
   (ReasonHeadMoving, true);
   (ReasonCIRed, true);
   (ReasonMergeConflict, true);
   (ReasonCIFailed, true);
   (ReasonMergeConflictRetry, true);
   (ReasonDeployTimeout, true);
   (ReasonDeployBlocked, true)].

Definition IsMergeStagePark (reason : string) : bool := in_set mergeStageParks reason.

(** ** Parking *)

(** The seconds of residency folded into the carry: [int(now.Sub(x).Seconds())]. *)
Definition residency_seconds (entered now : Time) : Z := int_of_f64 (Seconds (Sub now entered)).

Definition Park (t : Task) (reason : string) (now : Time) : result StageError Task :=
  if negb (IsParkReason reason) then Err (UnknownReason reason)
  else if ParkReason (Status t) != "" then Ok t
  else Ok (on_status t (fun s =>
    let s := s <| ParkReason := reason |>
               <| ParkedAt := Some now |>
               <| ParkedFromState := State s |> in
    let s := match StateEnteredAt s with
             | Some e => s <| StageElapsedCarrySeconds ::=
                                fun c => i64 (c + residency_seconds e now) |>
             | None => s
             end in
    s <| StateEnteredAt := Some now |>)).

Definition clearPark (t : Task) : Task :=
  on_status t (fun s => s <| ParkReason := ""%string |> <| ParkedAt := None |>
                          <| RetryNextAt := None |>).

(** The error of [Park] is discarded, as [_ = Park(t, reason, now)] does. *)
Definition repark (t : Task) (reason : string) (now : Time) : Task :=
  let t := clearPark t in
  match Park t reason now with Ok t' => t' | Err _ => t end.

Definition Repark (t : Task) (reason : string) (now : Time) : result StageError Task :=
  if ParkReason (Status t) == "" then Err (NotParked (State (Status t)))
  else if negb (IsParkReason reason) then Err (UnknownReason reason)
  else Ok (repark t reason now).

(** ** Re-arming in place *)

Definition reArm (t : Task) (now : Time) : Task :=
  let t := clearPark t in
  on_status t (fun s =>
    s <| StateEnteredAt := Some now |>
      <| PodStartedAt := None |>
      <| StateWorkStartedAt := None |>
      <| Stats ::= fun st => st <| PodRecreations := 0 |> <| AgentStops := 0 |> |>
      <| ConversationLastEventAt ::= fun c => if Live (State s) then Some now else c |>).

(** ** The retry lane *)

(** The doubling loop [for i := 0; i < attempts; i++], which breaks at the cap.
    It doubles a minute past the cap in five rounds, so eight rounds of fuel are
    never used up whatever [attempts] is ([RetryWait_loop_total]). *)
Fixpoint RetryWait_loop (fuel : nat) (i attempts : Z) (wait : Duration) : option Duration :=
  match fuel with
  | O => None
  | S fuel' =>
      if attempts <=? i then Some wait
      else if UnparkRetryBackoffCap <=? wait then Some wait
      else RetryWait_loop fuel' (i + 1) attempts (i64 (wait * 2))
  end.

Definition RetryWait (attempts : Z) : Duration :=
  match RetryWait_loop 8 0 attempts UnparkRetryBackoffBase with
  | Some wait => if UnparkRetryBackoffCap <? wait then UnparkRetryBackoffCap else wait
  | None => 0
  end.

Definition notRetryLane : StageError := ErrorF "park reason is not in the retry lane".

Definition ArmRetry (t : Task) (now : Time) : result StageError Task :=
  if ParkReason (Status t) == "" then Err (NotParked (State (Status t)))
  else if negb (class_is (ParkReason (Status t)) UnparkRetry) then Err notRetryLane
  else
    let t := if RetryBlocker (Status t) != ParkReason (Status t)
             then on_status t (fun s => s <| RetryBlocker := ParkReason s |> <| RetryAttempts := 0 |>)
             else t in
    Ok (on_status t (fun s =>
      s <| RetryNextAt := Some (Add now (RetryWait (RetryAttempts s))) |>
        <| RetryAttempts ::= fun n => i64 (n + 1) |>)).

Definition RescheduleRetry (t : Task) (now : Time) : result StageError Task :=
  if ParkReason (Status t) == "" then Err (NotParked (State (Status t)))
  else if negb (class_is (ParkReason (Status t)) UnparkRetry) then Err notRetryLane
  else Ok (on_status t (fun s =>
      s <| RetryNextAt := Some (Add now (RetryWait (i64 (RetryAttempts s - 1)))) |>)).

Definition RetryDue (t : Task) (now : Time) : bool :=
  match RetryNextAt (Status t) with
  | Some at_ => negb (Before now at_)
  | None => false
  end.

Definition ExhaustRetry (t : Task) (now : Time) : result StageError (string * Task) :=
  if ParkReason (Status t) == "" then Err (NotParked (State (Status t)))
  else if negb (class_is (ParkReason (Status t)) UnparkRetry) then Err notRetryLane
  else Ok (ParkReason (Status t), repark t ReasonRetryExhausted now).

Definition LaneStranded (t : Task) : bool :=
  if (ParkReason (Status t) != ReasonNoOutcome) || (RetryAttempts (Status t) <=? 0) then false
  else class_is (RetryBlocker (Status t)) UnparkRetry.

Definition StrandRetryLane (t : Task) (now : Time) : result StageError (string * Task) :=
  if negb (LaneStranded t) then Err (ErrorF "not a stranded retry lane")
  else Ok (RetryBlocker (Status t), repark t ReasonRetryExhausted now).

(** ** Events spent by a release *)

Definition consume_event (botLogin : string) (now : Time) (e : TaskEvent) : TaskEvent :=
  if ev_Author e == botLogin then e
  else match UnparkConsumedAt e with
       | Some _ => e
       | None => e <| UnparkConsumedAt := Some now |>
       end.

Definition consumeUnparkEvents (t : Task) (botLogin : string) (now : Time) : Task :=
  on_status t (fun s => s <| PendingEvents ::= map (consume_event botLogin now) |>).

Definition hasNonBotEvent (t : Task) (botLogin : string) : bool :=
  existsb (fun e => (ev_Author e != botLogin)
                    && negb (is_set (UnparkConsumedAt e)))
          (PendingEvents (Status t)).

(** ** The operator's own un-parks *)

(** [now], or the wall clock when the caller passed the zero time. *)
Definition now_or (now wall : Time) : Time := if IsZero now then wall else now.

Definition UpgradeDeclineToOwnershipLost (t : Task) (now : Time)
  : result StageError (bool * Task) :=
  if Kind (Spec t) != kindTakeover then Err (ErrorF "decline upgrade is takeover-only")
  else if ParkReason (Status t) == ReasonOwnershipLost then Ok (false, t)
  else if ParkReason (Status t) != ReasonImplementDeclined then
    Err (ErrorF "decline upgrade requires implement-declined")
  else Ok (true, on_status t (fun s => s <| ParkReason := ReasonOwnershipLost |>
                                         <| ParkedAt := Some now |>)).

Definition takeoverTargets : list (string * bool) :=
  [(StateUnderImplementation, true); (StateMerged, true)].

Definition UnparkTakeover (t : Task) (to : string) (now : Time) : result StageError Task :=
  if ParkReason (Status t) != ReasonOwnershipLost then
    Err (ErrorF "takeover un-park requires ownership-lost")
  else if negb (in_set takeoverTargets to) then Err (IllegalTransition (State (Status t)) to)
  else if Kind (Spec t) == kindReview then Err (IllegalTransition (State (Status t)) to)
  else Ok (stampEnter (clearPark t) to "" now).

Definition UnparkMaintainerComment (t : Task) (botLogin : string) (now wall : Time)
  : result StageError Task :=
  if ParkReason (Status t) == "" then Err (NotParked (State (Status t)))
  else if negb (class_is (ParkReason (Status t)) UnparkNever
                || class_is (ParkReason (Status t)) UnparkRetired) then
    Err (ErrorF "maintainer un-park requires an UnparkNever or UnparkRetired park")
  else if IsMergeStagePark (ParkReason (Status t)) then
    Err (ErrorF "maintainer un-park refuses a merge-stage park")
  else
    let now := now_or now wall in
    let t := clearPark t in
    let t := on_status t (fun s =>
      s <| StateEnteredAt := Some now |> <| PodStartedAt := None |>
        <| StateWorkStartedAt := None |> <| StageElapsedCarrySeconds := 0 |>) in
    Ok (consumeUnparkEvents (ResetRetryBudget t) botLogin now).

Definition ConsumeUnparkEvents (t : Task) (botLogin : string) (now wall : Time) : Task :=
  consumeUnparkEvents t botLogin (now_or now wall).

Definition mrTerminalReasons : list (string * bool) :=
  [(ReasonMRMergedExternally, true); (ReasonMRClosedExternally, true); (ReasonMRTakenOver, true)].

Definition UnparkForMRTerminal (t : Task) (to reason : string) : result StageError Task :=
  if ParkReason (Status t) == "" then Ok t
  else if negb (TaskIsTerminalOutcome to) then
    Err (ErrorF "mr-terminal un-park requires a terminal outcome")
  else if negb (in_set mrTerminalReasons reason) then
    Err (ErrorF "mr-terminal un-park requires an external-terminal reason")
  else Ok (clearPark t).

Definition UnparkCIRecovered (t : Task) (now wall : Time) : result StageError Task :=
  if (ParkReason (Status t) != ReasonImplementDeclined)
     && (ParkReason (Status t) != ReasonAwaitingHuman) then
    Err (ErrorF "ci-recovery un-park requires implement-declined or awaiting-human")
  else if Kind (Spec t) == kindTakeover then
    Err (ErrorF "ci-recovery un-park is never for a takeover")
  else Ok (reArm t (now_or now wall)).

Definition UnparkRetiredPark (t : Task) (now wall : Time) : result StageError Task :=
  if negb (class_is (ParkReason (Status t)) UnparkRetired) then
    Err (ErrorF "retired un-park requires a retired-ceiling parkReason")
  else Ok (reArm t (now_or now wall)).

(** [Park] where it cannot fail. *)
Definition re_parked (t : Task) (reason : string) (now : Time) : Task :=
  match Park t reason now with Ok t' => t' | Err _ => t end.

(** The same Task parked for a reason. *)
Definition parked_in (kind state reason : string) : Task :=
  re_parked (idle_in kind state) reason 5.

(** The reasons of each class. *)
Definition reasons_of (c : UnparkClass) : list string :=
  map fst (List.filter (fun '(_, c') => bool_decide (c' = c)) unparkClasses).

(** ** Lemmas *)

Lemma unparkClasses_keys : map fst unparkClasses ≡ₚ ParkReasons.
Proof. by_compute. Qed.

Lemma class_spec r c : class_is r c = true <-> UnparkClassFor r = Some c.
Proof.
  unfold class_is. destruct (UnparkClassFor r) as [c'|]; [|done].
  rewrite bool_decide_eq_true. split; congruence.
Qed.

Lemma class_is_park r c : UnparkClassFor r = Some c -> IsParkReason r = true.
Proof.
  intros H. apply str_mem_In, list_elem_of_In.
  rewrite <- unparkClasses_keys. apply list_elem_of_In, in_map_iff.
  exists (r, c). split; [done|]. by apply tbl_In.
Qed.

#[global] Arguments reasons_of : simpl never.

Lemma class_is_In r c : class_is r c = true -> In r (reasons_of c).
Proof.
  rewrite class_spec. intros H. apply tbl_In in H. apply in_map_iff.
  exists (r, c). split; [done|]. apply filter_In. split; [done|]. by rewrite bool_decide_eq_true.
Qed.

Lemma unparkClasses_In r c : In (r, c) unparkClasses -> UnparkClassFor r = Some c.
Proof. apply tbl_NoDup. by_compute. Qed.

Lemma In_class_is r c : In r (reasons_of c) -> class_is r c = true.
Proof.
  unfold reasons_of. rewrite in_map_iff. intros ([r' c'] & E & H).
  rewrite filter_In, bool_decide_eq_true in H. destruct H as [H Hc].
  cbn in E. rewrite E, Hc in H. rewrite class_spec. exact (unparkClasses_In _ _ H).
Qed.

Lemma Park_fresh t reason now :
  IsParkReason reason = true -> ParkReason (Status t) = ""%string ->
  exists t', Park t reason now = Ok t'
  /\ ParkReason (Status t') = reason /\ ParkedAt (Status t') = Some now
  /\ ParkedFromState (Status t') = State (Status t) /\ State (Status t') = State (Status t)
  /\ StateEnteredAt (Status t') = Some now
  /\ StageElapsedCarrySeconds (Status t') =
       match StateEnteredAt (Status t) with
       | Some e => i64 (StageElapsedCarrySeconds (Status t) + residency_seconds e now)
       | None => StageElapsedCarrySeconds (Status t)
       end.
Proof.
  intros Hr Hp. unfold Park. rewrite Hr, Hp. cbn [negb String.eqb].
  eexists. split; [reflexivity|]. unfold on_status. cbn.
  destruct (StateEnteredAt (Status t)); cbn; auto 10.
Qed.

(** What a re-park leaves alone. *)
Lemma Park_clear_ok t reason now :
  IsParkReason reason = true -> Park (clearPark t) reason now = Ok (repark t reason now).
Proof.
  intros Hr. unfold repark. destruct (Park_fresh (clearPark t) reason now Hr eq_refl) as (t' & E & _).
  by rewrite E.
Qed.

Lemma RetryWait_loop_last fuel i a w : a <= i -> RetryWait_loop (S fuel) i a w = Some w.
Proof. intros H. cbn. by rewrite (proj2 (Z.leb_le a i) H). Qed.

Lemma RetryWait_loop_next fuel i a w :
  i < a -> (UnparkRetryBackoffCap <=? w) = false ->
  RetryWait_loop (S fuel) i a w = RetryWait_loop fuel (i + 1) a (i64 (w * 2)).
Proof. intros H Hw. cbn [RetryWait_loop]. by rewrite (proj2 (Z.leb_gt a i) H), Hw. Qed.

Lemma RetryWait_loop_cap fuel i a w :
  i < a -> (UnparkRetryBackoffCap <=? w) = true -> RetryWait_loop (S fuel) i a w = Some w.
Proof. intros H Hw. cbn [RetryWait_loop]. by rewrite (proj2 (Z.leb_gt a i) H), Hw. Qed.

(** The closed form of the doubling: the loop stops by itself in every case. *)
Lemma RetryWait_loop_total a :
  RetryWait_loop 8 0 a UnparkRetryBackoffBase
  = Some (UnparkRetryBackoffBase * 2 ^ (Z.max 0 (Z.min 5 a))).
Proof.
  destruct (Z.leb_spec a 0).
  { rewrite RetryWait_loop_last by lia. by rewrite Z.min_r, Z.max_l by lia. }
  destruct (Z.leb_spec 6 a).
  { rewrite Z.min_l, Z.max_r by lia.
    do 5 (rewrite RetryWait_loop_next by (lia || reflexivity)).
    rewrite RetryWait_loop_cap by (lia || reflexivity). reflexivity. }
  assert (a = 1 \/ a = 2 \/ a = 3 \/ a = 4 \/ a = 5) as Ha by lia.
  destruct Ha as [->|[->|[->|[->| ->]]]]; reflexivity.
Qed.

Lemma RetryWait_min a :
  RetryWait a = Z.min UnparkRetryBackoffCap (UnparkRetryBackoffBase * 2 ^ Z.max 0 a).
Proof.
  unfold RetryWait. rewrite RetryWait_loop_total.
  destruct (Z.leb_spec a 4) as [Ha|Ha].
  - rewrite (Z.min_r 5 a) by lia.
    destruct (Z.leb_spec a 0); [rewrite Z.max_l by lia; reflexivity|].
    assert (a = 1 \/ a = 2 \/ a = 3 \/ a = 4) as Ha' by lia.
    destruct Ha' as [->|[->|[->| ->]]]; reflexivity.
  - rewrite (Z.min_l 5 a), (Z.max_r 0 a), (Z.max_r 0 5) by lia.
    assert (2 ^ 5 <= 2 ^ a) as Hp by (apply Z.pow_le_mono_r; lia).
    rewrite Z.min_l; [reflexivity|].
    unfold UnparkRetryBackoffCap, UnparkRetryBackoffBase, Minute, Second. lia.
Qed.

Lemma RetryWait_bounds a : UnparkRetryBackoffBase <= RetryWait a <= UnparkRetryBackoffCap.
Proof.
  rewrite RetryWait_min. split; [|lia].
  assert (2 ^ 0 <= 2 ^ Z.max 0 a) as Hp by (apply Z.pow_le_mono_r; lia).
  unfold UnparkRetryBackoffCap, UnparkRetryBackoffBase, Minute, Second in *. lia.
Qed.

(** Consuming spends exactly the events [hasNonBotEvent] looks for. *)
Lemma consume_no_event t bot now : hasNonBotEvent (consumeUnparkEvents t bot now) bot = false.
Proof.
  unfold hasNonBotEvent, consumeUnparkEvents, on_status. cbn.
  induction (PendingEvents (Status t)) as [|e l IH]; [done|]. cbn.
  rewrite IH. unfold consume_event.
  destruct (String.eqb_spec (ev_Author e) bot) as [->|Hne].
  - by rewrite String.eqb_refl.
  - destruct (UnparkConsumedAt e) eqn:E; cbn; [by rewrite E, andb_false_r|].
    by rewrite andb_false_r.
Qed.

#[global] Arguments RetryWait : simpl never.
#[global] Arguments repark : simpl never.
#[export] Hint Resolve RetryWait_bounds consume_no_event : go_db.

(** ** Properties *)

(** Every park reason has exactly one answer to who un-parks it, and nothing
    else has one; the merge-stage axis and the retry lane only classify park
    reasons; and the park, reject and done vocabularies are disjoint. *)
Theorem park_vocabulary_classified r :
  (In r ParkReasons <-> is_set (UnparkClassFor r) = true)
  /\ length unparkClasses = length ParkReasons
  /\ (IsMergeStagePark r = true -> In r ParkReasons)
  /\ (In r ParkReasons -> ~ In r RejectReasons /\ ~ In r DoneReasons)
  /\ (In r RejectReasons -> ~ In r DoneReasons).
Proof.
  split; [|split; [reflexivity|split; [|split]]].
  - rewrite <- list_elem_of_In, <- unparkClasses_keys, list_elem_of_In.
    unfold UnparkClassFor. pose proof (tbl_None_In unparkClasses r) as Ht.
    destruct (tbl unparkClasses r) as [c|] eqn:E; cbn.
    + split; [done|intros _]. exact (in_map fst _ (r, c) (tbl_In _ _ _ E)).
    + split; [|done]. intros H. by apply Ht in H.
  - intros H. apply in_set_In in H. apply str_mem_In. in_cases H; reflexivity.
  - intros H. split; intros H'; apply str_mem_In in H'; in_cases H; vm_compute in H'; discriminate.
  - intros H H'. apply str_mem_In in H'. in_cases H; vm_compute in H'; discriminate.
Qed.

(** the retry lane's wait is a capped exponential backoff whatever the attempt
    count: one minute doubled per attempt, never more than half an hour, never
    shrinking as attempts grow.  The loop that computes it ends by itself. *)
Theorem RetryWait_backoff a :
  RetryWait a = Z.min UnparkRetryBackoffCap (UnparkRetryBackoffBase * 2 ^ Z.max 0 a)
  /\ 1 * Minute <= RetryWait a <= 30 * Minute
  /\ (forall b, a <= b -> RetryWait a <= RetryWait b)
  /\ (5 <= a -> RetryWait a = 30 * Minute).
Proof.
  split; [apply RetryWait_min|]. split; [apply RetryWait_bounds|]. split.
  - intros b Hab. rewrite !RetryWait_min.
    assert (2 ^ Z.max 0 a <= 2 ^ Z.max 0 b) as Hp by (apply Z.pow_le_mono_r; lia).
    unfold UnparkRetryBackoffBase, Minute, Second. lia.
  - intros Ha. rewrite RetryWait_min.
    assert (2 ^ 5 <= 2 ^ Z.max 0 a) as Hp by (apply Z.pow_le_mono_r; lia).
    unfold UnparkRetryBackoffBase, UnparkRetryBackoffCap, Minute, Second. lia.
Qed.

(** Parking is a flag, not a transition.  It refuses a reason outside the park
    vocabulary; the first reason wins over a second park; otherwise it writes the
    reason, the time and the state it happened in together, leaves the state, its
    reason and the agent kind alone, and moves the residency clock into the carry. *)
Theorem Park_is_a_flag t reason now :
  match Park t reason now with
  | Err e => ~ In reason ParkReasons /\ e = UnknownReason reason
  | Ok t' =>
      In reason ParkReasons
      /\ State (Status t') = State (Status t)
      /\ StateReason (Status t') = StateReason (Status t)
      /\ AgentKind (Status t') = AgentKind (Status t)
      /\ if ParkReason (Status t) == "" then
           (ParkReason (Status t'), ParkedAt (Status t'), ParkedFromState (Status t'),
            StateEnteredAt (Status t')) = (reason, Some now, State (Status t), Some now)
           /\ StageElapsedCarrySeconds (Status t') =
                match StateEnteredAt (Status t) with
                | Some e => i64 (StageElapsedCarrySeconds (Status t) + residency_seconds e now)
                | None => StageElapsedCarrySeconds (Status t)
                end
         else t' = t
  end.
Proof.
  unfold Park. destruct (IsParkReason reason) eqn:Hr; cbn [negb].
  - apply IsParkReason_In in Hr.
    destruct (String.eqb_spec (ParkReason (Status t)) "") as [Hp|Hp]; cbn [negb]; [|auto 10].
    unfold on_status; cbn -[In]. destruct (StateEnteredAt (Status t)); cbn -[In]; auto 10.
  - by apply IsParkReason_notIn in Hr.
Qed.

(** arming the retry lane.  It is refused unless the Task is parked for a reason
    of the retry class.  Otherwise the lane is due exactly from [now] plus the wait
    of the attempts already spent on this blocker, a wait of at least one minute and
    at most half an hour, and one more attempt is spent; a changed blocker starts
    again from zero.  The park itself does not move. *)
Theorem ArmRetry_schedules t now :
  match ArmRetry t now with
  | Err _ => ParkReason (Status t) = ""%string \/ UnparkClassFor (ParkReason (Status t)) <> Some UnparkRetry
  | Ok t' =>
      UnparkClassFor (ParkReason (Status t)) = Some UnparkRetry
      /\ (ParkReason (Status t'), ParkedAt (Status t'), State (Status t'))
         = (ParkReason (Status t), ParkedAt (Status t), State (Status t))
      /\ RetryBlocker (Status t') = ParkReason (Status t)
      /\ exists n, n = (if RetryBlocker (Status t) == ParkReason (Status t)
                        then RetryAttempts (Status t) else 0)
         /\ RetryAttempts (Status t') = i64 (n + 1)
         /\ (forall at_, RetryDue t' at_ = true <-> now + RetryWait n <= at_)
         /\ 1 * Minute <= RetryWait n <= 30 * Minute
  end.
Proof.
  unfold ArmRetry. destruct (String.eqb_spec (ParkReason (Status t)) "") as [|Hp]; [by left|].
  destruct (class_is (ParkReason (Status t)) UnparkRetry) eqn:Hc; cbn [negb].
  - apply class_spec in Hc. split; [done|].
    destruct (String.eqb_spec (RetryBlocker (Status t)) (ParkReason (Status t))) as [Hb|Hb];
      cbn; (split; [done|]; split; [done|]; eexists; split; [reflexivity|]; split; [done|]).
    all: split; [|apply RetryWait_bounds].
    all: intros at_; unfold RetryDue, Before, Add; cbn; rewrite negb_true_iff, Z.ltb_ge; done.
  - right. intros H. apply class_spec in H. congruence.
Qed.

(** A re-park replaces a park by another without touching the state.  Only a
    parked Task and a reason of the vocabulary are accepted; the retry schedule of
    the old park is dropped, and [ParkedFromState] keeps naming the present state. *)
Theorem Repark_replaces t reason now :
  match Repark t reason now with
  | Err _ => ParkReason (Status t) = ""%string \/ ~ In reason ParkReasons
  | Ok t' =>
      ParkReason (Status t) <> ""%string /\ In reason ParkReasons
      /\ (ParkReason (Status t'), ParkedAt (Status t'), RetryNextAt (Status t'))
         = (reason, Some now, None)
      /\ State (Status t') = State (Status t) /\ ParkedFromState (Status t') = State (Status t)
      /\ (RetryAttempts (Status t'), RetryBlocker (Status t'))
         = (RetryAttempts (Status t), RetryBlocker (Status t))
      /\ PendingEvents (Status t') = PendingEvents (Status t)
  end.
Proof.
  unfold Repark. destruct (String.eqb_spec (ParkReason (Status t)) "") as [|Hp]; [by left|].
  destruct (IsParkReason reason) eqn:Hr; cbn [negb].
  - unfold repark, Park. rewrite Hr. apply IsParkReason_In in Hr. cbn -[In].
    destruct (StateEnteredAt (Status t)); cbn -[In]; auto 10.
  - right. by apply IsParkReason_notIn.
Qed.

(** a maintainer's comment un-parks exactly the parks whose class is never or
    retired and that were not written at or after the merge.  It clears the park in
    place, restarts every clock with no carry, hands back a full retry budget, and
    spends the comment, so the same comment cannot release a second park. *)
Theorem UnparkMaintainerComment_once t bot now wall :
  match UnparkMaintainerComment t bot now wall with
  | Err _ =>
      ParkReason (Status t) = ""%string
      \/ ~ In (ParkReason (Status t)) (reasons_of UnparkNever ++ reasons_of UnparkRetired)
      \/ IsMergeStagePark (ParkReason (Status t)) = true
  | Ok t' =>
      In (ParkReason (Status t)) (reasons_of UnparkNever ++ reasons_of UnparkRetired)
      /\ IsMergeStagePark (ParkReason (Status t)) = false
      /\ State (Status t') = State (Status t)
      /\ (ParkReason (Status t'), ParkedAt (Status t'), RetryNextAt (Status t'),
          RetryAttempts (Status t'), StageElapsedCarrySeconds (Status t'))
         = (""%string, None, None, 0, 0)
      /\ StateEnteredAt (Status t') = Some (now_or now wall)
      /\ hasNonBotEvent t' bot = false
  end.
Proof.
  unfold UnparkMaintainerComment.
  destruct (String.eqb_spec (ParkReason (Status t)) "") as [|Hp]; [by left|].
  destruct (class_is _ UnparkNever || class_is _ UnparkRetired) eqn:Hc; cbn [negb].
  - destruct (IsMergeStagePark _) eqn:Hm; [auto|].
    split; [|split; [done|cbn; repeat split; apply consume_no_event]].
    apply in_or_app. apply orb_true_iff in Hc as [Hc|Hc]; [left|right]; exact (class_is_In _ _ Hc).
  - right. left. intros Hin. apply orb_false_iff in Hc as [Hn Hr].
    apply in_app_or in Hin as [Hin|Hin]; rewrite (In_class_is _ _ Hin) in *; done.
Qed.
