(* ===== verification/Clocks.v ===== *)
(** * The three clocks and the residency bound (internal/stage/stage.go,
    internal/stage/liveness.go). *)

From S2P Require Import Prelude GoTime Api Vocabulary Machine Park.

Open Scope Z_scope.
Open Scope go_scope.

(** ** The work-clock table *)

Definition budgets : list (string * Duration) :=
  [(StateNew, 5 * Minute);
   (StateRefined, ConversationIdleDefault);
   (StateUnderImplementation, ConversationIdleDefault);
   (StateAwaitingReview, ConversationIdleDefault);
   (StateMerged, 4 * Hour);
   (StateDeployed, 2 * Hour);
   (StateDone, DeliveredRetention);
   (StateRejected, RejectedRetention)].

Definition onElapse : list (string * Edge) :=
  [(StateNew, mkEdge ParkTarget ReasonTriageStalled);
   (StateRefined, mkEdge ParkTarget ReasonAwaitingHuman);
   (StateUnderImplementation, mkEdge ParkTarget ReasonAwaitingHuman);
   (StateAwaitingReview, mkEdge ParkTarget ReasonAwaitingHuman);
   (StateMerged, mkEdge ParkTarget ReasonMergeTimeout);
   (StateDeployed, mkEdge ParkTarget ReasonDeployTimeout);
   (StateDone, mkEdge Reap "");
   (StateRejected, mkEdge Reap "")].

Definition Budget (state : string) : option Duration := tbl budgets state.
Definition OnElapse (state : string) : option Edge := tbl onElapse state.

(** ** Turns and the idle base *)

Definition turnInFlight (t : Task) : bool :=
  (ann t AnnCurrentTurn != "") && (ann t AnnTurnComplete == "").

Definition TurnInFlight (t : Task) : bool := turnInFlight t.

Definition idleBase (t : Task) : option Time :=
  match ConversationLastEventAt (Status t) with
  | None => None
  | Some base =>
      let base := match StateWorkStartedAt (Status t) with
                  | Some w => if After w base then w else base
                  | None => base
                  end in
      let raw := ann t AnnTurnComplete in
      let base := if raw != "" then
                    match ParseRFC3339 raw with
                    | Some at_ => if After at_ base then at_ else base
                    | None => base
                    end
                  else base in
      Some base
  end.

(** ** The clock selector *)

(** The four results of [ArmedClock], in the order the code returns them. *)
Record ClockReading := mkClock {
  ck_clock : string;
  ck_since : Time;
  ck_budget : Duration;
  ck_edge : Edge
}.

Definition noClock : ClockReading := mkClock ClockNone 0 0 noEdge.

(** The part of the selector for a Task that is not parked. *)
Definition ArmedClock_unparked (t : Task) (paused : bool) : ClockReading :=
  let s := Status t in
  let st := State s in
  match Budget st, StateEnteredAt s with
  | Some budget, Some entered =>
      match OnElapse st with
      | None => noClock
      | Some elapse =>
          let pod := PodStartedAt s in
          let work := StateWorkStartedAt s in
          if Live st && is_set pod && is_set work then
            if turnInFlight t then noClock
            else match idleBase t with
                 | Some base => mkClock ClockWork base budget elapse
                 | None => noClock
                 end
          else if OperatorDriven st || negb (Live st) then
            if paused && (Reason elapse == ReasonAdmissionStarved) then noClock
            else if ((st == StateMerged) || (st == StateDeployed))
                    && (0 <? StageElapsedCarrySeconds s)
            then mkClock ClockWork entered TimeoutReentryBudget elapse
            else mkClock ClockWork entered budget elapse
          else match pod with
               | None =>
                   if paused then noClock
                   else mkClock ClockAdmission entered AdmissionStarvedBudget
                          (mkEdge ParkTarget ReasonAdmissionStarved)
               | Some started =>
                   mkClock ClockReadiness started PodReadyTimeout (mkEdge Respawn "")
               end
      end
  | _, _ => noClock
  end.

Definition ArmedClock (t : Task) (paused : bool) : ClockReading :=
  let s := Status t in
  if ParkReason s != "" then
    if ParkReason s == ReasonBacklogSweep then noClock
    else match ParkedAt s with
         | None => noClock
         | Some at_ => mkClock ClockWork at_ ParkRetention (mkEdge Reap "")
         end
  else ArmedClock_unparked t paused.

Definition Elapsed (t : Task) (paused : bool) (now : Time) : option Edge :=
  let r := ArmedClock t paused in
  if ck_clock r == ClockNone then None
  else if Sub now (ck_since r) <=? ck_budget r then None
  else Some (ck_edge r).

(** ** Residency *)

Definition StateElapsedSeconds (t : Task) (now : Time) : float64 :=
  match StateEnteredAt (Status t) with
  | None => f64_zero
  | Some e => f64_add (Seconds (Sub now e)) (f64_of_int (StageElapsedCarrySeconds (Status t)))
  end.

Definition ResidencyCapAll : Duration := 24 * Hour.

Definition residencyCaps : list (string * Duration) :=
  [(StateRefined, ResidencyCapAll);
   (StateUnderImplementation, ResidencyCapAll);
   (StateAwaitingReview, ResidencyCapAll)].

Definition ResidencyCap (state : string) : option Duration := tbl residencyCaps state.

Definition workStartedHere (t : Task) : bool :=
  is_set (StateWorkStartedAt (Status t)) || (0 <? AgentStops (Stats (Status t))).

Definition ResidencyExceeded (t : Task) (now : Time) : bool :=
  match tbl residencyCaps (State (Status t)) with
  | None => false
  | Some capacity =>
      match StateEnteredAt (Status t) with
      | None => false
      | Some _ =>
          if negb (workStartedHere t) then false
          else f64_ltb (Seconds capacity) (StateElapsedSeconds t now)
      end
  end.

(** [t == nil] reads false. *)
Definition AgentStopReArmExhausted (t : option Task) : bool :=
  match t with
  | None => false
  | Some t =>
      match PendingEvents (Status t) with
      | _ :: _ => false
      | [] => AgentStopReArmCap <=? AgentStops (Stats (Status t))
      end
  end.

(** ** Pod loss *)

Definition RecordRespawn (t : Task) : Edge * Task :=
  (mkEdge Respawn "",
   on_status t (fun s => s <| Stats ::= fun st => st <| PodRecreations ::= fun n => i64 (n + 1) |> |>)).

Definition ReArmAfterPodLoss (t : Task) (now : Time) : Edge * Task :=
  let '(edge, t) := RecordRespawn t in
  (edge, on_status t (fun s =>
     s <| StateEnteredAt := Some now |> <| PodStartedAt := None |>
       <| StateWorkStartedAt := None |>)).

Definition BudgetExit (t : Task) (podStoppedNoOutcome : bool) : option Edge :=
  if negb (Live (State (Status t))) then None
  else if podStoppedNoOutcome then Some (mkEdge ParkTarget ReasonNoOutcome)
  else None.

(** ** A Task whose pods keep dying *)

(** The agent's pod starts and its work begins. *)
Definition working (t : Task) (now : Time) : Task :=
  on_status t (fun s => s <| PodStartedAt := Some now |> <| StateWorkStartedAt := Some now |>).

(** Pods that each live the given seconds and end with no handoff: the residency
    verdict at each loss, just before the Task is re-armed for the next pod. *)
Fixpoint pod_losses (lives : list Z) (t : Task) (now : Time) : list bool :=
  match lives with
  | [] => []
  | life :: lives' =>
      let t := working t now in
      let now' := now + life * Second in
      ResidencyExceeded t now' :: pod_losses lives' (snd (ReArmAfterPodLoss t now')) now'
  end.

(** ** Lemmas *)

Lemma residency_whole e k : 0 <= k <= 2 ^ 33 -> residency_seconds e (e + k * Second) = k.
Proof.
  intros Hk. unfold residency_seconds. rewrite Seconds_between by lia.
  apply int_of_f64_int. lia.
Qed.

Lemma elapsed_whole t e k :
  StateEnteredAt (Status t) = Some e ->
  0 <= k <= 2 ^ 33 -> 0 <= StageElapsedCarrySeconds (Status t) <= 2 ^ 33 ->
  StateElapsedSeconds t (e + k * Second) = f64_int (StageElapsedCarrySeconds (Status t) + k).
Proof.
  intros He Hk Hc. unfold StateElapsedSeconds. rewrite He, Seconds_between by lia.
  rewrite f64_of_int_exact by lia. rewrite f64_add_int by lia. f_equal. lia.
Qed.

Lemma residencyCaps_live st :
  tbl residencyCaps st = if Live st then Some ResidencyCapAll else None.
Proof.
  unfold Live, in_set. cbn. destruct (st == StateRefined); [done|].
  destruct (st == StateUnderImplementation); [done|]. by destruct (st == StateAwaitingReview).
Qed.

Lemma exceeded_whole t e k :
  StateEnteredAt (Status t) = Some e ->
  0 <= k <= 2 ^ 33 -> 0 <= StageElapsedCarrySeconds (Status t) <= 2 ^ 33 ->
  ResidencyExceeded t (e + k * Second)
  = Live (State (Status t)) && workStartedHere t
    && (86400 <? StageElapsedCarrySeconds (Status t) + k).
Proof.
  intros He Hk Hc. unfold ResidencyExceeded. rewrite residencyCaps_live.
  destruct (Live _); [|done]. rewrite He. destruct (workStartedHere t); [|done]. cbn [negb andb].
  rewrite (elapsed_whole t e k) by done.
  replace ResidencyCapAll with (86400 * Second) by reflexivity.
  rewrite Seconds_whole by lia. apply f64_ltb_int; lia.
Qed.

Lemma Budget_bounds st b : Budget st = Some b -> 5 * Minute <= b <= 48 * Hour.
Proof.
  intros H. apply tbl_In in H. unfold Minute, Hour, Second.
  unfold budgets in H. in_cases H; vm_compute; split; discriminate.
Qed.

(** The window of an armed clock always fits [int64]. *)
Lemma clock_budget_bounds t paused :
  ck_clock (ArmedClock t paused) <> ClockNone ->
  5 * Minute <= ck_budget (ArmedClock t paused) <= ParkRetention.
Proof.
  unfold ArmedClock. destruct (ParkReason _ != "").
  { destruct (_ == _); [done|]. destruct (ParkedAt _); [|done].
    intros _. vm_compute. split; discriminate. }
  unfold ArmedClock_unparked.
  destruct (Budget _) as [b|] eqn:Hb; [|done]. apply Budget_bounds in Hb.
  assert (48 * Hour <= ParkRetention) as Hle by (vm_compute; discriminate).
  destruct (StateEnteredAt _); [|done]. destruct (OnElapse _); [|done].
  destruct (_ && _ && _).
  { destruct (turnInFlight _); [done|]. destruct (idleBase _); [|done]. cbn. lia. }
  destruct (_ || _).
  { destruct (_ && _); [done|]. destruct (_ && _); cbn; [|lia]. intros _. vm_compute. split; discriminate. }
  destruct (PodStartedAt _); [cbn; intros _; vm_compute; split; discriminate|].
  destruct paused; [done|]. cbn. intros _. vm_compute. split; discriminate.
Qed.

Lemma Elapsed_closed t paused now :
  Elapsed t paused now =
  let r := ArmedClock t paused in
  if ck_clock r == ClockNone then None
  else if now <=? ck_since r + ck_budget r then None else Some (ck_edge r).
Proof.
  unfold Elapsed. cbv zeta.
  destruct (String.eqb_spec (ck_clock (ArmedClock t paused)) ClockNone) as [|Hn]; [done|].
  pose proof (clock_budget_bounds _ _ Hn) as Hb.
  rewrite Sub_leb; [done|]. revert Hb.
  unfold ParkRetention, Hour, Minute, Second, two63. lia.
Qed.

(** A state just entered, or re-armed in place, whose pod has not started. *)
Lemma fresh_clock t paused now :
  ParkReason (Status t) = ""%string -> StateEnteredAt (Status t) = Some now ->
  PodStartedAt (Status t) = None ->
  ck_clock (ArmedClock t paused) <> ClockNone -> ck_since (ArmedClock t paused) = now.
Proof.
  intros Hp He Hpod. unfold ArmedClock. rewrite Hp. cbn [negb String.eqb].
  unfold ArmedClock_unparked. rewrite He, Hpod. cbn [is_set]. rewrite andb_false_r. cbn [andb].
  destruct (Budget _); [|done]. destruct (OnElapse _); [|done].
  destruct (_ || _); [|by destruct paused].
  destruct (_ && _); [done|]. by destruct (_ && _).
Qed.

Lemma fresh_window t paused now now' :
  ParkReason (Status t) = ""%string -> StateEnteredAt (Status t) = Some now ->
  PodStartedAt (Status t) = None -> now' <= now + 5 * Minute -> Elapsed t paused now' = None.
Proof.
  intros Hp He Hpod Hle. rewrite Elapsed_closed. cbv zeta.
  destruct (String.eqb_spec (ck_clock (ArmedClock t paused)) ClockNone) as [|Hn]; [done|].
  rewrite (fresh_clock t paused now) by done. pose proof (clock_budget_bounds _ _ Hn).
  destruct (Z.leb_spec now' (now + ck_budget (ArmedClock t paused))); [done|lia].
Qed.

Lemma tables_total st :
  In st AllStates -> exists b e, Budget st = Some b /\ OnElapse st = Some e
  /\ (if TaskIsTerminalOutcome st then To e = Reap else To e = ParkTarget /\ IsParkReason (Reason e) = true)
  /\ Reason e <> ReasonAdmissionStarved.
Proof.
  intros H. unfold AllStates in H.
  in_cases H; do 2 eexists; (split; [reflexivity|]); (split; [reflexivity|]); cbn;
    (split; [repeat split|discriminate]).
Qed.

Lemma live_not_driven st : Live st = true -> OperatorDriven st = false.
Proof. intros H. apply Live_spec in H. destruct H as [->|[->| ->]]; reflexivity. Qed.

(** Which unparked Tasks have no clock, read off the selector. *)
Lemma unparked_clock_none t :
  In (State (Status t)) AllStates -> is_set (StateEnteredAt (Status t)) = true ->
  (ck_clock (ArmedClock_unparked t false) = ClockNone <->
   Live (State (Status t)) = true /\ is_set (PodStartedAt (Status t)) = true
   /\ is_set (StateWorkStartedAt (Status t)) = true
   /\ (turnInFlight t = true \/ ConversationLastEventAt (Status t) = None)).
Proof.
  intros Hs He. destruct (tables_total _ Hs) as (b & e & Hb & Hel & _ & _).
  unfold ArmedClock_unparked. rewrite Hb, Hel.
  destruct (StateEnteredAt (Status t)) as [en|]; [|done].
  destruct (Live (State (Status t))) eqn:Hl; cbn [andb negb].
  - rewrite (live_not_driven _ Hl). cbn [orb].
    destruct (PodStartedAt (Status t)), (StateWorkStartedAt (Status t)) as [w|] eqn:Ew; cbn;
      try (split; [discriminate|intros (_ & ? & ? & _); discriminate]).
    destruct (turnInFlight t); cbn; [by split; auto 10|].
    unfold idleBase. destruct (ConversationLastEventAt (Status t)); cbn; [|by split; auto 10].
    split; [discriminate|]. intros (_ & _ & _ & [?|?]); discriminate.
  - rewrite orb_true_r. destruct (_ && _); cbn; (split; [discriminate|by intros [? _]]).
Qed.

(** ** Properties *)

(** The clock tables cover the whole enum and agree with the vocabulary.  Every
    state has a positive work budget and an on-elapse edge; the edge parks, for a
    reason the park vocabulary holds, exactly where the state is not terminal, and
    reaps exactly where it is. *)
Theorem clock_tables_cover_states st :
  In st AllStates ->
  exists b e, Budget st = Some b /\ 5 * Minute <= b <= 48 * Hour /\ OnElapse st = Some e
  /\ (if TaskIsTerminalOutcome st then e = mkEdge Reap ""
      else To e = ParkTarget /\ In (Reason e) ParkReasons).
Proof.
  intros H. destruct (tables_total st H) as (b & e & Hb & He & Hk & _).
  exists b, e. split; [done|]. split; [by apply (Budget_bounds st)|]. split; [done|].
  destruct (TaskIsTerminalOutcome st) eqn:Ht;
    [|destruct Hk as [Hk1 Hk2]; split; [exact Hk1|exact (proj1 (IsParkReason_In _) Hk2)]].
  unfold AllStates in H. in_cases H; try discriminate Ht; injection He as <-; reflexivity.
Qed.

(** a clock is a deadline.  While a clock is armed nothing fires up to and
    including the instant [since + budget] and its edge fires at every later one; an
    unarmed clock never fires.  The bound is exact: the subtraction cannot saturate
    into the wrong verdict however far apart the instants are. *)
Theorem Elapsed_deadline t paused now e :
  Elapsed t paused now = Some e <->
  ck_clock (ArmedClock t paused) <> ClockNone
  /\ e = ck_edge (ArmedClock t paused)
  /\ ck_since (ArmedClock t paused) + ck_budget (ArmedClock t paused) < now.
Proof.
  rewrite Elapsed_closed. cbv zeta.
  destruct (String.eqb_spec (ck_clock (ArmedClock t paused)) ClockNone) as [E|E];
    [split; [done|by intros []]|].
  destruct (Z.leb_spec now (ck_since (ArmedClock t paused) + ck_budget (ArmedClock t paused))).
  - split; [done|]. intros (_ & _ & ?). lia.
  - split; [intros [= <-]; auto|by intros (_ & -> & _)].
Qed.

(** a retry is a retry.  A state that was just entered, and a park that was just
    lifted in place, has at least five minutes before any clock can fire, whatever
    residency it carries, so no un-park is undone by the next pass. *)
Theorem entry_and_rearm_open_a_window t mrs to r now paused now' :
  now' <= now + 5 * Minute ->
  Elapsed (reArm t now) paused now' = None
  /\ (forall t', Enter t mrs to r now = Ok t' -> Elapsed t' paused now' = None).
Proof.
  intros Hle. split.
  - by apply (fresh_window _ _ now).
  - intros t' H. apply Enter_Ok in H as (Hp & _ & _ & _ & _ & ->).
    by apply (fresh_window _ _ now).
Qed.

(** The operator-driven states time out on their own table, and a re-entry gets
    a window of its own.  In [merged] and [deployed] the work clock runs from the
    entry stamp for the state's whole budget the first time and for half an hour once
    residency has been carried over, then parks the Task as that state's timeout. *)
Theorem operator_states_time_out t paused now entered st budget reason :
  In (st, budget, reason)
     [(StateMerged, 4 * Hour, ReasonMergeTimeout); (StateDeployed, 2 * Hour, ReasonDeployTimeout)] ->
  State (Status t) = st -> ParkReason (Status t) = ""%string ->
  StateEnteredAt (Status t) = Some entered ->
  Elapsed t paused now =
  (if entered + (if 0 <? StageElapsedCarrySeconds (Status t) then 30 * Minute else budget) <? now
   then Some (mkEdge ParkTarget reason) else None).
Proof.
  intros Hin Hs Hp He. rewrite Elapsed_closed. unfold ArmedClock, ArmedClock_unparked.
  rewrite Hp, Hs, He.
  in_cases Hin; cbn; rewrite ?andb_false_r; cbn;
    destruct (0 <? StageElapsedCarrySeconds (Status t)); cbn; rewrite Z.ltb_antisym;
    unfold TimeoutReentryBudget; by destruct (_ <=? _).
Qed.

(** residency is time in the state while not parked.  Parking at [p], being
    released at [u] and looking at [now] counts the seconds before the park and the
    seconds after the release on top of what was already carried, and none of the
    seconds spent parked. *)
Theorem residency_excludes_parked_time t reason e a u b parked :
  ParkReason (Status t) = ""%string -> StateEnteredAt (Status t) = Some e ->
  0 <= a <= 2 ^ 32 -> 0 <= b <= 2 ^ 32 -> 0 <= StageElapsedCarrySeconds (Status t) <= 2 ^ 32 ->
  Park t reason (e + a * Second) = Ok parked ->
  StateElapsedSeconds (reArm parked u) (u + b * Second)
  = f64_int (StageElapsedCarrySeconds (Status t) + a + b).
Proof.
  intros Hp He Ha Hb Hc Hpark.
  assert (IsParkReason reason = true) as Hr.
  { unfold Park in Hpark. by destruct (IsParkReason reason). }
  destruct (Park_fresh t reason (e + a * Second) Hr Hp) as (t' & Hok & _ & _ & _ & _ & _ & Hcarry).
  rewrite Hok in Hpark. injection Hpark as <-.
  rewrite He, residency_whole, i64_small in Hcarry by (unfold in_i64, two63; lia).
  assert (StageElapsedCarrySeconds (Status (reArm t' u)) = StageElapsedCarrySeconds (Status t) + a)
    as Hk by exact Hcarry.
  rewrite (elapsed_whole _ u b); rewrite ?Hk; [done|reflexivity|lia|lia].
Qed.

(** the residency cap is twenty-four hours of live time, exactly.  It is exceeded
    if and only if the state runs an agent, work has started in this visit, and the
    carried seconds plus those since the entry stamp are more than 86400. *)
Theorem ResidencyExceeded_iff t e k :
  StateEnteredAt (Status t) = Some e ->
  0 <= k <= 2 ^ 33 -> 0 <= StageElapsedCarrySeconds (Status t) <= 2 ^ 33 ->
  ResidencyExceeded t (e + k * Second) = true <->
  (State (Status t) = StateRefined \/ State (Status t) = StateUnderImplementation
   \/ State (Status t) = StateAwaitingReview)
  /\ (StateWorkStartedAt (Status t) <> None \/ 0 < AgentStops (Stats (Status t)))
  /\ 86400 < StageElapsedCarrySeconds (Status t) + k.
Proof.
  intros He Hk Hc. rewrite exceeded_whole by done.
  rewrite !andb_true_iff, Live_spec, Z.ltb_lt. unfold workStartedHere.
  rewrite orb_true_iff, Z.ltb_lt.
  destruct (StateWorkStartedAt (Status t)); cbn; intuition congruence.
Qed.

(** the residency cap does not bound a loop of lost pods.  Each loss re-stamps
    the entry and carries nothing over, so a Task whose pods keep ending without a
    handoff, each after at most twenty-four hours of work, never exceeds its
    residency, however many of them there were and however long they add up to. *)
Theorem pod_loss_forgets_residency lives t now :
  Live (State (Status t)) = true ->
  StateEnteredAt (Status t) = Some now -> StageElapsedCarrySeconds (Status t) = 0 ->
  Forall (fun life => 0 <= life <= 86400) lives ->
  pod_losses lives t now = repeat false (length lives).
Proof.
  intros Hl He Hc Hall. revert t now Hl He Hc.
  induction Hall as [|life lives Hlife _ IH]; intros t now Hl He Hc; [done|].
  assert (StageElapsedCarrySeconds (Status (working t now)) = 0) as Hc' by exact Hc.
  cbn [pod_losses length repeat].
  rewrite (exceeded_whole (working t now) now life); rewrite ?Hc'; [|exact He|lia|lia].
  rewrite (proj2 (Z.ltb_ge _ _)), andb_false_r by lia. f_equal.
  apply IH; [exact Hl|reflexivity|exact Hc].
Qed.

(** ** Witnesses *)

Lemma clock_tables_cover_states_witness :
  exists b e, Budget StateMerged = Some b /\ 5 * Minute <= b <= 48 * Hour
              /\ OnElapse StateMerged = Some e.
Proof.
  destruct (clock_tables_cover_states StateMerged) as (b & e & Hb & Hr & He & _); [cbv; tauto|].
  exists b, e. split; [exact Hb|]. split; [exact Hr|exact He].
Defined.

Lemma entry_and_rearm_open_a_window_witness :
  Elapsed (reArm (parked_in AgentImplement StateMerged ReasonMergeTimeout) 100) false (100 + 5 * Minute)
  = None.
Proof.
  exact (proj1 (entry_and_rearm_open_a_window
    (parked_in AgentImplement StateMerged ReasonMergeTimeout) [] "" "" 100 false (100 + 5 * Minute)
    (Z.le_refl _))).
Defined.

Lemma operator_states_time_out_witness :
  Elapsed (idle_in AgentImplement StateMerged) false (1 + 4 * Hour) = None
  /\ Elapsed (idle_in AgentImplement StateMerged) false (2 + 4 * Hour)
     = Some (mkEdge ParkTarget ReasonMergeTimeout).
Proof.
  split.
  - rewrite (operator_states_time_out (idle_in AgentImplement StateMerged) false (1 + 4 * Hour) 1
      StateMerged (4 * Hour) ReasonMergeTimeout); try reflexivity. by left.
  - rewrite (operator_states_time_out (idle_in AgentImplement StateMerged) false (2 + 4 * Hour) 1
      StateMerged (4 * Hour) ReasonMergeTimeout); try reflexivity. by left.
Defined.

Lemma residency_excludes_parked_time_witness :
  StateElapsedSeconds
    (reArm (re_parked (idle_in AgentImplement StateUnderImplementation) ReasonAwaitingHuman (1 + 10 * Second))
       (1000 * Second)) (1000 * Second + 5 * Second) = f64_int 15.
Proof.
  apply (residency_excludes_parked_time (idle_in AgentImplement StateUnderImplementation)
    ReasonAwaitingHuman 1 10 (1000 * Second) 5); try reflexivity; vm_compute; split; discriminate.
Defined.

Lemma ResidencyExceeded_iff_witness :
  ResidencyExceeded (working (idle_in AgentImplement StateUnderImplementation) 1) (1 + 86401 * Second) = true
  /\ ResidencyExceeded (working (idle_in AgentImplement StateUnderImplementation) 1) (1 + 86400 * Second)
     <> true.
Proof.
  split.
  - apply (ResidencyExceeded_iff (working (idle_in AgentImplement StateUnderImplementation) 1) 1 86401);
      [reflexivity|vm_compute; split; discriminate..|].
    split; [right; left; reflexivity|]. split; [left; discriminate|reflexivity].
  - intros H. apply (ResidencyExceeded_iff
      (working (idle_in AgentImplement StateUnderImplementation) 1) 1 86400) in H;
      [|reflexivity|vm_compute; split; discriminate..].
    destruct H as (_ & _ & H). discriminate H.
Defined.

Lemma pod_loss_forgets_residency_witness :
  pod_losses [80000; 86400; 80000; 3] (idle_in AgentImplement StateUnderImplementation) 1
  = [false; false; false; false].
Proof.
  apply (pod_loss_forgets_residency [80000; 86400; 80000; 3]); try reflexivity.
  repeat constructor; vm_compute; discriminate.
Defined.
