(* ===== verification/Unpark.v ===== *)
(** * Un-parking and the bounce cycles (internal/stage/stage.go: Unpark,
    RequestChanges, HeadMoved, CIRed, MergeConflict and the review re-entry). *)

From S2P Require Import Prelude GoTime Api Vocabulary Machine Park.

Open Scope Z_scope.
Open Scope go_scope.

(** ** The un-park rules *)

Record UnparkInput := mkUnparkInput {
  in_Task : Task;
  in_Issues : list Issue;
  in_MRs : list MergeRequest;
  in_ActiveTasks : Z;
  in_MaxOpenTasks : Z;
  in_BotLogin : string;
  in_LiveHasRoom : bool;
  in_Now : Time
}.

Definition DeclineNone : string := "".
Definition DeclineNotParked : string := "not-parked".
Definition DeclineNoHumanEvent : string := "no-human-event".
Definition DeclineOverCap : string := "over-cap".
Definition DeclineNoLiveRoom : string := "no-live-room".
Definition DeclineNoOpenIssues : string := "no-open-issues".
Definition DeclineMergedMR : string := "merged-mr".
Definition DeclineRoundsExhausted : string := "rounds-exhausted".
Definition DeclineTurnsExhausted : string := "turns-exhausted".
Definition DeclineWrongParkedFrom : string := "wrong-parked-from".
Definition DeclineNoReentry : string := "no-reentry".
Definition DeclineRetryBudgetSpent : string := "retry-budget-spent".
Definition DeclineRetryNotDue : string := "retry-not-due".

Definition UnparkDeclines : list string :=
  [DeclineNotParked; DeclineNoHumanEvent; DeclineOverCap; DeclineNoLiveRoom;
   DeclineNoOpenIssues; DeclineMergedMR; DeclineRoundsExhausted; DeclineTurnsExhausted;
   DeclineWrongParkedFrom; DeclineNoReentry; DeclineRetryBudgetSpent; DeclineRetryNotDue].

Definition liveRoomDecline (t : Task) (inp : UnparkInput) : string :=
  if Live (State (Status t)) && negb (in_LiveHasRoom inp) then DeclineNoLiveRoom
  else DeclineNone.

(** The live-room gate in front of a release: [if d := liveRoomDecline(...)]. *)
Definition gate_room (t : Task) (inp : UnparkInput) (release : Task) : string * Task :=
  let d := liveRoomDecline t inp in
  if d != DeclineNone then (d, t) else (DeclineNone, release).

(** One more human review round, then back in place. *)
Definition spend_round (t : Task) (now : Time) : Task :=
  reArm (on_status t (fun s => s <| HumanReviewRounds ::= fun n => i64 (n + 1) |>)) now.

(** The [ReasonAwaitingHuman, ReasonRetryExhausted] arm. *)
Definition unpark_awaiting_human (inp : UnparkInput) (now : Time) : string * Task :=
  let t := in_Task inp in
  if Kind (Spec t) == kindReview then
    if anyMerged (in_MRs inp) then (DeclineMergedMR, t)
    else if negb (anyExternallyOwned (in_MRs inp)) then
      if MaxHumanReviewRounds <=? HumanReviewRounds (Status t) then (DeclineRoundsExhausted, t)
      else gate_room t inp (spend_round t now)
    else gate_room t inp (reArm t now)
  else
    match openIssues (in_Issues inp), openMRs (in_MRs inp) with
    | [], [] => (DeclineNoOpenIssues, t)
    | _, _ => gate_room t inp (reArm t now)
    end.

(** The [ReasonIdentityUnverified] arm: the live-room gate comes first. *)
Definition unpark_identity_unverified (inp : UnparkInput) (now : Time) : string * Task :=
  let t := in_Task inp in
  let d := liveRoomDecline t inp in
  if d != DeclineNone then (d, t)
  else if Kind (Spec t) == kindReview then
    if anyMerged (in_MRs inp) then (DeclineMergedMR, t)
    else if MaxHumanReviewRounds <=? HumanReviewRounds (Status t) then (DeclineRoundsExhausted, t)
    else (DeclineNone, spend_round t now)
  else (DeclineNone, reArm t now).

(** The switch of [unparkRule] on the park reason. *)
Definition unpark_arm (inp : UnparkInput) (now : Time) : string * Task :=
  let t := in_Task inp in
  let r := ParkReason (Status t) in
  if r == ReasonBacklogSweep then
    if in_MaxOpenTasks inp <=? in_ActiveTasks inp then (DeclineOverCap, t)
    else (DeclineNone, reArm t now)
  else if (r == ReasonCIPending) || (r == ReasonCIFailed) || (r == ReasonMergeConflictRetry)
          || (r == ReasonMRSurfaceSpent) then
    if negb (RetryDue t now) then (DeclineRetryNotDue, t)
    else gate_room t inp (reArm t now)
  else if (r == ReasonAwaitingHuman) || (r == ReasonRetryExhausted) then
    unpark_awaiting_human inp now
  else if r == ReasonIdentityUnverified then unpark_identity_unverified inp now
  else if r == ReasonHandoffStalled then
    if anyMerged (in_MRs inp) then (DeclineMergedMR, t)
    else if MaxHumanReviewRounds <=? HumanReviewRounds (Status t) then (DeclineRoundsExhausted, t)
    else gate_room t inp (spend_round t now)
  else if r == ReasonMergeTimeout then
    if MaxMergeReentries <=? MergeReentries (Status t) then
      (DeclineRetryBudgetSpent, repark t ReasonMergeBlocked now)
    else (DeclineNone,
          reArm (on_status t (fun s => s <| MergeReentries ::= fun n => i64 (n + 1) |>)) now)
  else if r == ReasonDeployTimeout then
    if MaxDeployReentries <=? DeployReentries (Status t) then
      (DeclineRetryBudgetSpent, repark t ReasonDeployBlocked now)
    else (DeclineNone,
          reArm (on_status t (fun s => s <| DeployReentries ::= fun n => i64 (n + 1) |>)) now)
  else if r == ReasonNoOutcome then
    if (ParkedFromState (Status t) != StateUnderImplementation)
       && (ParkedFromState (Status t) != StateAwaitingReview) then (DeclineWrongParkedFrom, t)
    else if anyMerged (in_MRs inp) then (DeclineMergedMR, t)
    else gate_room t inp (reArm t now)
  else (DeclineNoReentry, t).

(** [wall] is what [time.Now()] would return where the caller left [Now] zero. *)
Definition unparkRule (inp : UnparkInput) (wall : Time) : string * Task :=
  let t := in_Task inp in
  let now := now_or (in_Now inp) wall in
  let r := ParkReason (Status t) in
  if r == "" then (DeclineNotParked, t)
  else match UnparkClassFor r with
       | None | Some UnparkNever | Some UnparkRetired => (DeclineNoReentry, t)
       | Some class =>
           if bool_decide (class = UnparkHuman) && negb (hasNonBotEvent t (in_BotLogin inp))
           then (DeclineNoHumanEvent, t)
           else unpark_arm inp now
       end.

(** The clock is read once by [unparkRule] and once more for the consumption
    stamp, so a zero [Now] reads two instants. *)
Definition Unpark (inp : UnparkInput) (wall wall' : Time) : string * Task :=
  let reason := ParkReason (Status (in_Task inp)) in
  let '(decline, t) := unparkRule inp wall in
  if decline != DeclineNone then (decline, t)
  else if class_is reason UnparkHuman then
    (DeclineNone,
     ResetRetryBudget (consumeUnparkEvents t (in_BotLogin inp) (now_or (in_Now inp) wall')))
  else (DeclineNone, t).

(** ** The bounce cycles: the edge to take and the Task with its counter bumped *)

Definition RequestChanges (t : Task) : Edge :=
  if Kind (Spec t) == kindReview then mkEdge ParkTarget ReasonAwaitingHuman
  else mkEdge StateUnderImplementation "".

Definition HeadMoved (t : Task) (maxHeadMoveReentries : Z) : Edge * Task :=
  if maxHeadMoveReentries <=? HeadMoveReentries (Status t)
  then (mkEdge ParkTarget ReasonHeadMoving, t)
  else (mkEdge StateAwaitingReview "",
        on_status t (fun s => s <| HeadMoveReentries ::= fun n => i64 (n + 1) |>)).

Definition CIRed (t : Task) (mrs : list MergeRequest) (maxCIRedReentries : Z) : Edge * Task :=
  if Kind (Spec t) == kindReview then (mkEdge ParkTarget ReasonAwaitingHuman, t)
  else if anyMerged mrs then (mkEdge ParkTarget ReasonCIFailed, t)
  else if maxCIRedReentries <=? CIRedReentries (Status t)
  then (mkEdge ParkTarget ReasonCIBlocked, t)
  else (mkEdge StateUnderImplementation ReasonCIRed,
        on_status t (fun s => s <| CIRedReentries ::= fun n => i64 (n + 1) |>)).

Definition MergeConflict (t : Task) (mrs : list MergeRequest) (maxMergeConflictReentries : Z)
  : Edge * Task :=
  if Kind (Spec t) == kindReview then (mkEdge ParkTarget ReasonAwaitingHuman, t)
  else if anyMerged mrs then (mkEdge ParkTarget ReasonMergeConflictRetry, t)
  else if maxMergeConflictReentries <=? MergeConflictReentries (Status t)
  then (mkEdge ParkTarget ReasonMergeBlocked, t)
  else (mkEdge StateUnderImplementation ReasonMergeConflict,
        on_status t (fun s => s <| MergeConflictReentries ::= fun n => i64 (n + 1) |>)).

(** ** Review re-entry *)

(** F3: a fresh implementation gets fresh merge, head-move, red-CI and conflict budgets. *)
Definition zero_reentries (t : Task) : Task :=
  on_status t (fun s => s <| HeadMoveReentries := 0 |> <| MergeReentries := 0 |>
                          <| CIRedReentries := 0 |> <| MergeConflictReentries := 0 |>).

Definition enterFreshImplementing (t : Task) (mrs : list MergeRequest) (now : Time) : bool * Task :=
  match Enter t mrs StateUnderImplementation "" now with
  | Err _ => (false, t)
  | Ok t' => (true, zero_reentries t')
  end.

Definition reenterParkedOnReview (t : Task) (mrs : list MergeRequest) (now : Time) : bool * Task :=
  let r := ParkReason (Status t) in
  if r == ReasonMergeTimeout then
    if MaxMergeReentries <=? MergeReentries (Status t) then (false, t)
    else (true, reArm (on_status t (fun s => s <| MergeReentries ::= fun n => i64 (n + 1) |>)) now)
  else if r == ReasonNoOutcome then
    if anyMerged mrs then (false, t)
    else (true, zero_reentries (reArm t now))
  else (false, t).

Definition ReenterOnReviewChangesRequested (t : Task) (mrs : list MergeRequest) (now wall : Time)
  : bool * Task :=
  let now := now_or now wall in
  if ParkReason (Status t) != "" then reenterParkedOnReview t mrs now
  else if (State (Status t) == StateAwaitingReview) || (State (Status t) == StateMerged)
  then enterFreshImplementing t mrs now
  else (false, t).

(** ** The shape of an un-park *)

(** The counters a release may spend. *)
Inductive spends : Task -> Task -> Prop :=
  | spends_none t : spends t t
  | spends_round t :
      HumanReviewRounds (Status t) < MaxHumanReviewRounds ->
      spends t (on_status t (fun s => s <| HumanReviewRounds ::= fun n => i64 (n + 1) |>))
  | spends_merge t :
      MergeReentries (Status t) < MaxMergeReentries ->
      spends t (on_status t (fun s => s <| MergeReentries ::= fun n => i64 (n + 1) |>))
  | spends_deploy t :
      DeployReentries (Status t) < MaxDeployReentries ->
      spends t (on_status t (fun s => s <| DeployReentries ::= fun n => i64 (n + 1) |>)).

(** What a rule may answer: a decline that leaves the Task alone, a spent timeout
    budget that re-parks it for good, or a release in place. *)
Inductive answer (t : Task) (now : Time) : string * Task -> Prop :=
  | answer_decline d : In d UnparkDeclines -> answer t now (d, t)
  | answer_spent r :
      In r [ReasonMergeBlocked; ReasonDeployBlocked] ->
      answer t now (DeclineRetryBudgetSpent, repark t r now)
  | answer_release t0 : spends t t0 -> answer t now (DeclineNone, reArm t0 now).

(** One timeout and the un-park pass after it. *)
Definition timeout_cycle (reason : string) (now : Time) (t : Task) : string * Task :=
  match Park t reason now with
  | Ok t' => Unpark (mkUnparkInput t' [] [] 0 0 "" true now) now now
  | Err _ => (DeclineNone, t)
  end.

(** Timeouts at the given instants, each followed by its un-park pass. *)
Fixpoint timeout_cycles (nows : list Time) (reason : string) (t : Task) : list string :=
  match nows with
  | [] => []
  | now :: nows' =>
      let '(d, t') := timeout_cycle reason now t in d :: timeout_cycles nows' reason t'
  end.

(** [k] releases, then the refusal that spends the budget, then refusals only. *)
Definition timeout_answers (k n : nat) : list string :=
  firstn n (repeat DeclineNone k) ++
  match (n - k)%nat with
  | O => []
  | S n' => DeclineRetryBudgetSpent :: repeat DeclineNoReentry n'
  end.

(** The re-entry counter a timeout spends, and the reason it ends in. *)
Definition timeout_counter (reason : string) (t : Task) : Z :=
  if reason == ReasonMergeTimeout then MergeReentries (Status t) else DeployReentries (Status t).

Definition timeout_dead_end (reason : string) : string :=
  if reason == ReasonMergeTimeout then ReasonMergeBlocked else ReasonDeployBlocked.

(** ** Concrete inputs *)

(** A parked review Task owning a merge request of somebody else, and one comment. *)
Definition with_comment (state reason : string) : UnparkInput :=
  mkUnparkInput
    (on_status (parked_in kindReview state reason) (fun s =>
       s <| PendingEvents := [mkTaskEvent 6 "comment" "r" 1 "alice" "please go on" None] |>))
    [] [zero_MergeRequest <| mr_Status ::= fun s => s <| mr_Ownership := OwnershipExternal |> |>]
    0 0 "tatara-bot" true 7.

Definition merged_review_input (reason : string) : UnparkInput :=
  mkUnparkInput (parked_in kindReview StateAwaitingReview reason) [] [merged_mr] 0 0 "tatara-bot" true 7.

(** A Task parked in the retry lane, due at [due], asked at 100. *)
Definition due_input (due : Time) : UnparkInput :=
  mkUnparkInput
    (on_status (parked_in AgentImplement StateMerged ReasonCIFailed) (fun s =>
       s <| RetryNextAt := Some due |>))
    [] [] 0 0 "tatara-bot" true 100.

(** ** Lemmas *)

Lemma decline_In d : str_mem UnparkDeclines d = true -> In d UnparkDeclines.
Proof. apply str_mem_In. Qed.

Ltac declined := apply answer_decline, decline_In; reflexivity.

Lemma gate_room_answer t inp t0 now :
  spends t t0 -> answer t now (gate_room t inp (reArm t0 now)).
Proof.
  intros Hs. unfold gate_room, liveRoomDecline.
  destruct (Live _ && _); cbn; [declined|by constructor].
Qed.

Ltac rounds_open := apply Z.leb_gt; assumption.

Lemma unpark_awaiting_human_answer inp now :
  answer (in_Task inp) now (unpark_awaiting_human inp now).
Proof.
  unfold unpark_awaiting_human, spend_round.
  destruct (Kind _ == kindReview).
  - destruct (anyMerged _); [declined|]. destruct (anyExternallyOwned _); cbn [negb].
    + apply gate_room_answer. constructor.
    + destruct (_ <=? _) eqn:E; [declined|]. apply gate_room_answer. constructor. rounds_open.
  - destruct (openIssues (in_Issues inp)), (openMRs (in_MRs inp)); try declined; apply gate_room_answer; constructor.
Qed.

Lemma unpark_identity_unverified_answer inp now :
  answer (in_Task inp) now (unpark_identity_unverified inp now).
Proof.
  unfold unpark_identity_unverified, spend_round, liveRoomDecline.
  destruct (Live _ && _); cbn [negb String.eqb]; [declined|].
  replace (DeclineNone != DeclineNone) with false by reflexivity.
  destruct (Kind _ == kindReview); [|by repeat constructor].
  destruct (anyMerged _); [declined|].
  destruct (_ <=? _) eqn:E; [declined|]. constructor. constructor. rounds_open.
Qed.

Lemma unpark_arm_answer inp now : answer (in_Task inp) now (unpark_arm inp now).
Proof.
  unfold unpark_arm.
  destruct (_ == ReasonBacklogSweep).
  { destruct (_ <=? _); [declined|by repeat constructor]. }
  destruct (_ || _ || _ || _).
  { destruct (RetryDue _ _); cbn [negb]; [apply gate_room_answer; constructor|declined]. }
  destruct (_ || _); [apply unpark_awaiting_human_answer|].
  destruct (_ == ReasonIdentityUnverified); [apply unpark_identity_unverified_answer|].
  destruct (_ == ReasonHandoffStalled).
  { destruct (anyMerged _); [declined|]. destruct (_ <=? _) eqn:E; [declined|].
    apply gate_room_answer. constructor. rounds_open. }
  destruct (_ == ReasonMergeTimeout).
  { destruct (_ <=? _) eqn:E; [apply answer_spent; cbn; auto|].
    constructor. constructor. rounds_open. }
  destruct (_ == ReasonDeployTimeout).
  { destruct (_ <=? _) eqn:E; [apply answer_spent; cbn; auto|].
    constructor. constructor. rounds_open. }
  destruct (_ == ReasonNoOutcome); [|declined].
  destruct (_ && _); [declined|]. destruct (anyMerged _); [declined|].
  apply gate_room_answer. constructor.
Qed.

Lemma unparkRule_answer inp wall :
  answer (in_Task inp) (now_or (in_Now inp) wall) (unparkRule inp wall).
Proof.
  unfold unparkRule. destruct (_ == ""); [declined|].
  destruct (UnparkClassFor _) as [[]|]; try declined.
  all: destruct (_ && _); [declined|apply unpark_arm_answer].
Qed.

(** [Unpark] is the rule's answer, the release of a human park laundered. *)
Definition launder (inp : UnparkInput) (wall' : Time) (t : Task) : Task :=
  if class_is (ParkReason (Status (in_Task inp))) UnparkHuman
  then ResetRetryBudget (consumeUnparkEvents t (in_BotLogin inp) (now_or (in_Now inp) wall'))
  else t.

Lemma declines_nonempty d : In d UnparkDeclines -> d <> DeclineNone.
Proof. intros H ->. apply str_mem_In in H. discriminate. Qed.

Lemma Unpark_answer inp wall wall' :
  exists t1, answer (in_Task inp) (now_or (in_Now inp) wall) (fst (Unpark inp wall wall'), t1)
  /\ snd (Unpark inp wall wall')
     = if fst (Unpark inp wall wall') == DeclineNone then launder inp wall' t1 else t1.
Proof.
  unfold Unpark, launder. pose proof (unparkRule_answer inp wall) as Ha.
  destruct (unparkRule inp wall) as [d t1]. exists t1.
  destruct (String.eqb_spec d DeclineNone) as [->|Hd]; cbn [negb].
  - destruct (class_is _ UnparkHuman); split; try exact Ha; reflexivity.
  - split; [exact Ha|]. cbn [fst snd]. by rewrite (str_neq_eqb _ _ Hd).
Qed.

Lemma spends_frame t t0 :
  spends t t0 ->
  State (Status t0) = State (Status t) /\ StateReason (Status t0) = StateReason (Status t)
  /\ AgentKind (Status t0) = AgentKind (Status t) /\ Spec t0 = Spec t
  /\ PendingEvents (Status t0) = PendingEvents (Status t).
Proof. by intros []. Qed.

Lemma launder_frame inp wall' t :
  exists es a b c, launder inp wall' t =
  on_status t (fun s => s <| PendingEvents := es |> <| RetryAttempts := a |>
                          <| RetryBlocker := b |> <| RetryNextAt := c |>)
  /\ (RetryNextAt (Status t) = None -> c = None).
Proof.
  unfold launder. destruct (class_is _ _).
  - repeat eexists.
  - exists (PendingEvents (Status t)), (RetryAttempts (Status t)), (RetryBlocker (Status t)),
      (RetryNextAt (Status t)). split; [|done]. by destruct t as [? ? ? ? ? ? ? []].
Qed.

Lemma repark_frame t r now :
  State (Status (repark t r now)) = State (Status t)
  /\ StateReason (Status (repark t r now)) = StateReason (Status t)
  /\ AgentKind (Status (repark t r now)) = AgentKind (Status t)
  /\ Spec (repark t r now) = Spec t
  /\ PendingEvents (Status (repark t r now)) = PendingEvents (Status t)
  /\ (IsParkReason r = true -> ParkReason (Status (repark t r now)) = r).
Proof.
  unfold repark, Park. destruct (IsParkReason r); [|done]. cbn.
  destruct (StateEnteredAt (Status t)); cbn; auto 10.
Qed.

Lemma class_of_none c : class_is "" c = false.
Proof. reflexivity. Qed.

(** A human park without an unspent comment is declined outright. *)
Lemma Unpark_no_event inp w w' :
  class_is (ParkReason (Status (in_Task inp))) UnparkHuman = true ->
  hasNonBotEvent (in_Task inp) (in_BotLogin inp) = false ->
  Unpark inp w w' = (DeclineNoHumanEvent, in_Task inp).
Proof.
  intros Hc He. unfold Unpark, unparkRule.
  destruct (String.eqb_spec (ParkReason (Status (in_Task inp))) "") as [E|_];
    [by rewrite E, class_of_none in Hc|].
  apply class_spec in Hc. rewrite Hc, bool_decide_eq_true_2 by done. by rewrite He.
Qed.

Lemma reset_keeps_events t bot : hasNonBotEvent (ResetRetryBudget t) bot = hasNonBotEvent t bot.
Proof. reflexivity. Qed.

(** A released human park has no unspent comment left. *)
Lemma Unpark_human_release inp w w' :
  class_is (ParkReason (Status (in_Task inp))) UnparkHuman = true ->
  fst (Unpark inp w w') = DeclineNone ->
  ParkReason (Status (snd (Unpark inp w w'))) = ""%string
  /\ hasNonBotEvent (snd (Unpark inp w w')) (in_BotLogin inp) = false.
Proof.
  intros Hc Hd. destruct (Unpark_answer inp w w') as (t1 & Ha & ->).
  rewrite Hd in *. rewrite String.eqb_refl. unfold launder. rewrite Hc.
  inversion Ha as [d' Hd' E|r Hr E|t0 Hs E]; subst.
  - by apply declines_nonempty in Hd'.
  - split; [reflexivity|]. rewrite reset_keeps_events. apply consume_no_event.
Qed.

Lemma Park_keeps_events t reason now t' :
  ParkReason (Status t) = ""%string -> Park t reason now = Ok t' ->
  ParkReason (Status t') = reason /\ PendingEvents (Status t') = PendingEvents (Status t).
Proof.
  intros Hp. unfold Park. rewrite Hp. destruct (IsParkReason reason); [|done].
  cbn [negb String.eqb]. intros [= <-]. cbn. destruct (StateEnteredAt (Status t)); done.
Qed.

Lemma Unpark_merge_timeout inp w w' :
  ParkReason (Status (in_Task inp)) = ReasonMergeTimeout ->
  Unpark inp w w' =
  let t := in_Task inp in
  let now := now_or (in_Now inp) w in
  if MaxMergeReentries <=? MergeReentries (Status t) then
    (DeclineRetryBudgetSpent, repark t ReasonMergeBlocked now)
  else (DeclineNone,
        reArm (on_status t (fun s => s <| MergeReentries ::= fun n => i64 (n + 1) |>)) now).
Proof.
  intros Hp. unfold Unpark, unparkRule, unpark_arm. rewrite Hp. cbv zeta.
  destruct (MaxMergeReentries <=? MergeReentries (Status (in_Task inp))) eqn:E; reflexivity.
Qed.

Lemma Unpark_deploy_timeout inp w w' :
  ParkReason (Status (in_Task inp)) = ReasonDeployTimeout ->
  Unpark inp w w' =
  let t := in_Task inp in
  let now := now_or (in_Now inp) w in
  if MaxDeployReentries <=? DeployReentries (Status t) then
    (DeclineRetryBudgetSpent, repark t ReasonDeployBlocked now)
  else (DeclineNone,
        reArm (on_status t (fun s => s <| DeployReentries ::= fun n => i64 (n + 1) |>)) now).
Proof.
  intros Hp. unfold Unpark, unparkRule, unpark_arm. rewrite Hp. cbv zeta.
  destruct (MaxDeployReentries <=? DeployReentries (Status (in_Task inp))) eqn:E; reflexivity.
Qed.

Lemma Park_counters t reason now :
  ParkReason (Status t) = ""%string -> IsParkReason reason = true ->
  exists t', Park t reason now = Ok t' /\ ParkReason (Status t') = reason
  /\ MergeReentries (Status t') = MergeReentries (Status t)
  /\ DeployReentries (Status t') = DeployReentries (Status t).
Proof.
  intros Hp Hr. unfold Park. rewrite Hp, Hr. eexists. split; [reflexivity|].
  cbn. destruct (StateEnteredAt (Status t)); done.
Qed.

Lemma timeout_cycle_parked reason now t :
  In reason [ReasonMergeTimeout; ReasonDeployTimeout] -> ParkReason (Status t) = ""%string ->
  timeout_counter reason t < 3 ->
  exists t', timeout_cycle reason now t = (DeclineNone, t')
  /\ ParkReason (Status t') = ""%string
  /\ timeout_counter reason t' = i64 (timeout_counter reason t + 1).
Proof.
  intros Hr Hp Hc. apply Z.leb_gt in Hc. unfold timeout_cycle.
  assert (IsParkReason reason = true) as Hpr by (by in_cases Hr).
  destruct (Park_counters t reason now Hp Hpr) as (t1 & -> & E & Hm & Hd).
  in_cases Hr; [rewrite Unpark_merge_timeout by exact E|rewrite Unpark_deploy_timeout by exact E];
    unfold timeout_counter in *; cbn in Hc |- *; rewrite ?Hm, ?Hd;
    unfold MaxMergeReentries, MaxDeployReentries; rewrite Hc; eexists; repeat split; cbn;
    by rewrite ?Hm, ?Hd.
Qed.

Lemma timeout_cycle_spent reason now t :
  In reason [ReasonMergeTimeout; ReasonDeployTimeout] -> ParkReason (Status t) = ""%string ->
  3 <= timeout_counter reason t ->
  exists t', timeout_cycle reason now t = (DeclineRetryBudgetSpent, t')
  /\ ParkReason (Status t') = timeout_dead_end reason.
Proof.
  intros Hr Hp Hc. apply Z.leb_le in Hc. unfold timeout_cycle.
  assert (IsParkReason reason = true) as Hpr by (by in_cases Hr).
  destruct (Park_counters t reason now Hp Hpr) as (t1 & -> & E & Hm & Hd).
  in_cases Hr; [rewrite Unpark_merge_timeout by exact E|rewrite Unpark_deploy_timeout by exact E];
    unfold timeout_counter in *; cbn in Hc |- *; rewrite ?Hm, ?Hd;
    unfold MaxMergeReentries, MaxDeployReentries; rewrite Hc; eexists; (split; [reflexivity|]);
    by apply repark_frame.
Qed.

Lemma timeout_cycle_dead reason now t :
  In reason [ReasonMergeTimeout; ReasonDeployTimeout] ->
  ParkReason (Status t) = timeout_dead_end reason ->
  timeout_cycle reason now t = (DeclineNoReentry, t).
Proof.
  intros Hr Hp. unfold timeout_cycle.
  assert (Park t reason now = Ok t) as ->.
  { unfold Park. rewrite Hp. in_cases Hr; reflexivity. }
  unfold Unpark, unparkRule. cbn [in_Task]. rewrite Hp. in_cases Hr; reflexivity.
Qed.

Lemma timeout_cycles_dead reason nows t :
  In reason [ReasonMergeTimeout; ReasonDeployTimeout] ->
  ParkReason (Status t) = timeout_dead_end reason ->
  timeout_cycles nows reason t = repeat DeclineNoReentry (length nows).
Proof.
  intros Hr Hp. induction nows as [|now nows IH]; [done|].
  cbn. rewrite timeout_cycle_dead by done. by rewrite IH.
Qed.

Lemma timeout_cycles_open reason k : forall nows t,
  In reason [ReasonMergeTimeout; ReasonDeployTimeout] -> ParkReason (Status t) = ""%string ->
  0 <= timeout_counter reason t <= 3 -> k = Z.to_nat (3 - timeout_counter reason t) ->
  timeout_cycles nows reason t = timeout_answers k (length nows).
Proof.
  induction k as [|k IH]; intros [|now nows] t Hr Hp Hc Hk; try done; cbn.
  - destruct (timeout_cycle_spent reason now t Hr Hp) as (t' & -> & Hd); [lia|].
    by rewrite timeout_cycles_dead by done.
  - destruct (timeout_cycle_parked reason now t Hr Hp) as (t' & -> & Hp' & Hc'); [lia|].
    rewrite i64_small in Hc' by (unfold in_i64, two63; lia).
    by rewrite (IH nows t') by (done || lia).
Qed.

(** An arm that declines declines the whole un-park. *)
Lemma Unpark_arm_declined inp wall wall' c d :
  class_is (ParkReason (Status (in_Task inp))) c = true ->
  In c [UnparkHuman; UnparkTimer; UnparkRetry] ->
  unpark_arm inp (now_or (in_Now inp) wall) = (d, in_Task inp) -> d <> DeclineNone ->
  exists d', Unpark inp wall wall' = (d', in_Task inp) /\ d' <> DeclineNone.
Proof.
  intros Hc Hin Harm Hd. apply class_spec in Hc. unfold Unpark, unparkRule. rewrite Hc.
  destruct (_ == ""); [by eexists|].
  in_cases Hin; rewrite Harm;
    (destruct (_ && _); [by eexists|]); rewrite (str_neq_eqb _ _ Hd); by eexists.
Qed.

Lemma reasons_of_retry :
  reasons_of UnparkRetry
  = [ReasonCIPending; ReasonCIFailed; ReasonMergeConflictRetry; ReasonMRSurfaceSpent].
Proof. vm_compute. reflexivity. Qed.

Lemma retry_arm inp now :
  class_is (ParkReason (Status (in_Task inp))) UnparkRetry = true ->
  unpark_arm inp now =
  if negb (RetryDue (in_Task inp) now) then (DeclineRetryNotDue, in_Task inp)
  else gate_room (in_Task inp) inp (reArm (in_Task inp) now).
Proof.
  intros H. pose proof (class_is_In _ _ H) as Hin. rewrite reasons_of_retry in Hin.
  unfold unpark_arm. remember (ParkReason (Status (in_Task inp))) as r eqn:E. clear H E.
  in_cases Hin; reflexivity.
Qed.

Lemma fresh_implementing t mrs now t' :
  Enter t mrs StateUnderImplementation "" now = Ok t' ->
  ParkReason (Status (zero_reentries t')) = ""%string
  /\ State (Status (zero_reentries t')) = StateUnderImplementation
  /\ (HeadMoveReentries (Status (zero_reentries t')), MergeReentries (Status (zero_reentries t')),
      CIRedReentries (Status (zero_reentries t')), MergeConflictReentries (Status (zero_reentries t')))
     = (0, 0, 0, 0).
Proof.
  intros H. apply Enter_Ok in H as (Hp & _ & _ & _ & _ & ->).
  split; [exact Hp|]. split; reflexivity.
Qed.

(** ** Properties *)

(** un-parking is never a transition.  Whatever the park reason and the input,
    the state, its reason, the agent kind and the spec stay as they are, and the
    answer is one of three: a reason from the closed decline vocabulary with the Task
    untouched; a spent timeout budget, which re-parks the Task for a reason nothing
    un-parks by itself; or a release, which clears the park and the retry schedule
    and restarts every clock of the state in place. *)
Theorem Unpark_in_place inp wall wall' :
  let t := in_Task inp in
  let d := fst (Unpark inp wall wall') in
  let t' := snd (Unpark inp wall wall') in
  (State (Status t'), StateReason (Status t'), AgentKind (Status t'), Spec t')
  = (State (Status t), StateReason (Status t), AgentKind (Status t), Spec t)
  /\ (In d UnparkDeclines /\ t' = t
      \/ d = DeclineRetryBudgetSpent
         /\ In (ParkReason (Status t')) [ReasonMergeBlocked; ReasonDeployBlocked]
      \/ d = DeclineNone
         /\ (ParkReason (Status t'), ParkedAt (Status t'), RetryNextAt (Status t'))
            = (""%string, None, None)
         /\ (StateEnteredAt (Status t'), PodStartedAt (Status t'), StateWorkStartedAt (Status t'))
            = (Some (now_or (in_Now inp) wall), None, None)
         /\ PodRecreations (Stats (Status t')) = 0 /\ AgentStops (Stats (Status t')) = 0).
Proof.
  cbv zeta. destruct (Unpark_answer inp wall wall') as (t1 & Ha & ->).
  remember (fst (Unpark inp wall wall')) as d eqn:Ed. clear Ed.
  inversion Ha as [d' Hd E|r Hr E|t0 Hs E]; subst.
  - rewrite (str_neq_eqb _ _ (declines_nonempty _ Hd)). auto.
  - cbn [String.eqb DeclineRetryBudgetSpent DeclineNone].
    destruct (repark_frame (in_Task inp) r (now_or (in_Now inp) wall)) as (-> & -> & -> & -> & _ & Hp).
    split; [done|]. right. left. split; [done|]. rewrite Hp; [done|]. by in_cases Hr.
  - rewrite String.eqb_refl. apply spends_frame in Hs as (H1 & H2 & H3 & H4 & _).
    destruct (launder_frame inp wall' (reArm t0 (now_or (in_Now inp) wall)))
      as (es & a & b & c & -> & Hc).
    rewrite (Hc eq_refl). cbn. rewrite H1, H2, H3, H4. auto 10.
Qed.

(** C7: a park only a human can lift is lifted at most once per comment.  A release
    needs a comment by somebody other than the bot that no earlier release has
    spent, and spends every such comment: park the same Task again for any human
    reason, and the next un-park pass finds nothing to act on. *)
Theorem one_comment_one_release inp wall wall' reason reparked later w w' :
  class_is (ParkReason (Status (in_Task inp))) UnparkHuman = true ->
  fst (Unpark inp wall wall') = DeclineNone ->
  class_is reason UnparkHuman = true ->
  Park (snd (Unpark inp wall wall')) reason later = Ok reparked ->
  hasNonBotEvent (in_Task inp) (in_BotLogin inp) = true
  /\ Unpark (mkUnparkInput reparked (in_Issues inp) (in_MRs inp) (in_ActiveTasks inp)
               (in_MaxOpenTasks inp) (in_BotLogin inp) (in_LiveHasRoom inp) later) w w'
     = (DeclineNoHumanEvent, reparked).
Proof.
  intros Hc Hd Hr Hp.
  destruct (Unpark_human_release _ _ _ Hc Hd) as [Hu He].
  destruct (Park_keeps_events _ _ _ _ Hu Hp) as [Hpr Hev]. split.
  - destruct (hasNonBotEvent (in_Task inp) (in_BotLogin inp)) eqn:E; [done|].
    by rewrite (Unpark_no_event _ wall wall' Hc E) in Hd.
  - apply Unpark_no_event; cbn; [by rewrite Hpr|].
    unfold hasNonBotEvent in *. by rewrite Hev.
Qed.


(** a review Task is never sent back to work on a merge request that has merged.
    Parked for any of the reasons a human or the no-outcome timer could lift, with a
    merged merge request among those it owns, every un-park pass declines and leaves
    it untouched. *)
Theorem merged_review_never_reentered inp wall wall' :
  Kind (Spec (in_Task inp)) = kindReview ->
  anyMerged (in_MRs inp) = true ->
  In (ParkReason (Status (in_Task inp)))
     [ReasonAwaitingHuman; ReasonRetryExhausted; ReasonIdentityUnverified;
      ReasonHandoffStalled; ReasonNoOutcome] ->
  exists d, Unpark inp wall wall' = (d, in_Task inp) /\ d <> DeclineNone.
Proof.
  intros Hk Hm Hr.
  assert (exists c d, class_is (ParkReason (Status (in_Task inp))) c = true
          /\ In c [UnparkHuman; UnparkTimer; UnparkRetry]
          /\ unpark_arm inp (now_or (in_Now inp) wall) = (d, in_Task inp) /\ d <> DeclineNone)
    as (c & d & Hc & Hin & Harm & Hd).
  { unfold unpark_arm, unpark_awaiting_human, unpark_identity_unverified, liveRoomDecline.
    rewrite Hk, Hm. in_cases Hr;
      match goal with E : _ = ParkReason _ |- _ => rewrite <- E end.
    1-4: exists UnparkHuman. 5: exists UnparkTimer.
    all: cbn; repeat (destruct (_ && _); cbn); eexists; repeat split; auto; discriminate. }
  by apply (Unpark_arm_declined inp wall wall' c d).
Qed.

(** the retry lane opens exactly when it is due and the Task may go live.  An
    un-park pass releases a Task parked for a retry reason if and only if its
    scheduled instant has come and, where its state runs an agent, there is room for
    one; a pass that does not release leaves the Task and its schedule alone. *)
Theorem retry_released_iff_due inp wall wall' :
  class_is (ParkReason (Status (in_Task inp))) UnparkRetry = true ->
  (fst (Unpark inp wall wall') = DeclineNone <->
     RetryDue (in_Task inp) (now_or (in_Now inp) wall) = true
     /\ (Live (State (Status (in_Task inp))) = true -> in_LiveHasRoom inp = true))
  /\ (fst (Unpark inp wall wall') <> DeclineNone -> snd (Unpark inp wall wall') = in_Task inp).
Proof.
  intros Hc. pose proof Hc as Hc'. apply class_spec in Hc'.
  assert (class_is (ParkReason (Status (in_Task inp))) UnparkHuman = false) as Hh.
  { unfold class_is. by rewrite Hc'. }
  unfold Unpark, unparkRule. rewrite Hh.
  destruct (String.eqb_spec (ParkReason (Status (in_Task inp))) "") as [E|_];
    [by rewrite E, class_of_none in Hc|].
  rewrite Hc', bool_decide_eq_false_2 by done. cbn [andb]. rewrite retry_arm by done.
  unfold gate_room, liveRoomDecline.
  destruct (RetryDue _ _); cbn [negb];
    [|replace (DeclineRetryNotDue != DeclineNone) with true by reflexivity; cbn;
      split; [|done]; split; [discriminate|by intros []]].
  destruct (Live _), (in_LiveHasRoom inp); cbn; split; try done; split; try done; try tauto.
  intros [_ H]. by specialize (H eq_refl).
Qed.

(** the bounces out of [merged] always have somewhere to go, and are bounded.
    A moved head, a red pipeline or a conflict either parks the Task, for a reason of
    the park vocabulary and with no counter spent, or names an edge that [Enter]
    accepts with its reason, spending one of the [cap] re-entries of its own counter;
    code is only written again while nothing has merged and never by a review Task. *)
Theorem bounces_bounded t mrs cap now :
  State (Status t) = StateMerged -> ParkReason (Status t) = ""%string ->
  Forall (fun '((e, t'), count) =>
      To e = ParkTarget /\ In (Reason e) ParkReasons /\ t' = t
      \/ is_ok (Enter t' mrs (To e) (Reason e) now) = true
         /\ count (Status t) < cap /\ count (Status t') = i64 (count (Status t) + 1)
         /\ (To e = StateUnderImplementation ->
             anyMerged mrs = false /\ Kind (Spec t) <> kindReview))
    [(HeadMoved t cap, HeadMoveReentries); (CIRed t mrs cap, CIRedReentries);
     (MergeConflict t mrs cap, MergeConflictReentries)].
Proof.
  intros Hs Hp. repeat constructor; unfold HeadMoved, CIRed, MergeConflict.
  2,3: destruct (String.eqb_spec (Kind (Spec t)) kindReview) as [Hk|Hk];
       [left; split; [done|split; [apply IsParkReason_In|]; reflexivity]|].
  2,3: destruct (anyMerged mrs) eqn:Hm;
       [left; split; [done|split; [apply IsParkReason_In|]; reflexivity]|].
  all: destruct (_ <=? _) eqn:Hc;
    [left; split; [done|split; [apply IsParkReason_In|]; reflexivity]|right].
  all: apply Z.leb_gt in Hc; split; [|split; [done|split; [reflexivity|]]]; try done.
  all: apply Enter_accepts; cbn; rewrite ?Hs, ?Hp; try reflexivity.
  all: unfold LegalFor; cbn; rewrite ?(str_neq_eqb _ _ Hk); try reflexivity.
  all: by rewrite ?andb_false_r.
Qed.

(** a review that asks for changes either is not taken, and then the Task is
    untouched, or puts the Task back to work: a parked one is released in place
    without a transition, an unparked one enters under-implementation with every
    merge-side re-entry counter at zero.  A no-outcome park never comes back once a
    merge request has merged, and a merge-timeout park spends one of its re-entries. *)
Theorem review_changes_reenter t mrs now wall :
  let '(taken, t') := ReenterOnReviewChangesRequested t mrs now wall in
  if taken then
    ParkReason (Status t') = ""%string
    /\ (if ParkReason (Status t) == "" then
          In (State (Status t)) [StateAwaitingReview; StateMerged]
          /\ State (Status t') = StateUnderImplementation
          /\ (HeadMoveReentries (Status t'), MergeReentries (Status t'),
              CIRedReentries (Status t'), MergeConflictReentries (Status t')) = (0, 0, 0, 0)
        else
          State (Status t') = State (Status t)
          /\ (ParkReason (Status t) = ReasonNoOutcome /\ anyMerged mrs = false
              \/ ParkReason (Status t) = ReasonMergeTimeout
                 /\ MergeReentries (Status t) < MaxMergeReentries
                 /\ MergeReentries (Status t') = i64 (MergeReentries (Status t) + 1)))
  else t' = t.
Proof.
  unfold ReenterOnReviewChangesRequested, reenterParkedOnReview, enterFreshImplementing.
  destruct (String.eqb_spec (ParkReason (Status t)) "") as [Hp|Hp]; cbn [negb].
  - destruct (_ || _) eqn:Hs; [|done].
    rewrite orb_true_iff, !String.eqb_eq in Hs.
    destruct (Enter _ _ _ _ _) as [t'|] eqn:He; [|done].
    destruct (fresh_implementing _ _ _ _ He) as (-> & -> & ->).
    split; [done|]. split; [|done]. destruct Hs as [Hs|Hs]; rewrite Hs; [by left|right; by left].
  - destruct (String.eqb_spec (ParkReason (Status t)) ReasonMergeTimeout) as [E|_].
    { destruct (MaxMergeReentries <=? MergeReentries (Status t)) eqn:Hc; [done|].
      apply Z.leb_gt in Hc. split; [reflexivity|]. split; [reflexivity|].
      right. split; [exact E|]. split; [exact Hc|reflexivity]. }
    destruct (String.eqb_spec (ParkReason (Status t)) ReasonNoOutcome) as [E|_]; [|done].
    destruct (anyMerged mrs) eqn:Hm; [done|].
    split; [reflexivity|]. split; [reflexivity|]. left. split; [exact E|reflexivity].
Qed.

(** ** Witnesses *)

Lemma one_comment_one_release_witness :
  let inp := with_comment StateAwaitingReview ReasonAwaitingHuman in
  let reparked := re_parked (snd (Unpark inp 7 7)) ReasonHandoffStalled 9 in
  Unpark (mkUnparkInput reparked (in_Issues inp) (in_MRs inp) (in_ActiveTasks inp)
            (in_MaxOpenTasks inp) (in_BotLogin inp) (in_LiveHasRoom inp) 9) 9 9
  = (DeclineNoHumanEvent, reparked).
Proof.
  cbv zeta. apply (one_comment_one_release (with_comment StateAwaitingReview ReasonAwaitingHuman)
    7 7 ReasonHandoffStalled); vm_compute; reflexivity.
Defined.


Lemma merged_review_never_reentered_witness :
  exists d, Unpark (merged_review_input ReasonNoOutcome) 7 7 = (d, in_Task (merged_review_input ReasonNoOutcome))
            /\ d <> DeclineNone.
Proof.
  apply (merged_review_never_reentered (merged_review_input ReasonNoOutcome) 7 7);
    [reflexivity|reflexivity|cbn; tauto].
Defined.

Lemma retry_released_iff_due_witness :
  fst (Unpark (due_input 100) 7 7) = DeclineNone /\ fst (Unpark (due_input 101) 7 7) <> DeclineNone.
Proof.
  pose proof (retry_released_iff_due (due_input 100) 7 7 eq_refl) as [H _].
  pose proof (retry_released_iff_due (due_input 101) 7 7 eq_refl) as [H' _].
  split; [apply H; split; [reflexivity|done]|].
  intros E. apply H' in E as [E _]. discriminate E.
Defined.

Lemma bounces_bounded_witness :
  To (fst (CIRed (idle_in AgentImplement StateMerged) [] 3)) = StateUnderImplementation
  /\ CIRedReentries (Status (snd (CIRed (idle_in AgentImplement StateMerged) [] 3))) = 1.
Proof.
  pose proof (bounces_bounded (idle_in AgentImplement StateMerged) [] 3 7 eq_refl eq_refl) as H.
  apply List.Forall_inv_tail, List.Forall_inv in H.
  split; [reflexivity|]. destruct H as [[H _]|[_ [_ [H _]]]]; [discriminate H|exact H].
Defined.
