(* ===== verification/ObjBudget.v ===== *)
(** * The byte-budget guard (internal/objbudget/objbudget.go): evict the oldest
    items, spill them first, and only then write. *)

From Stdlib Require Import String.
From S2P Require Import Prelude GoTime Api.

Open Scope Z_scope.
Open Scope go_scope.

(** ** Eviction *)

(** [setAndSize] installs the survivors on the candidate and measures the whole
    object; [None] is a marshalling error.  The loop pops one item a round, so it
    ends with the list. *)
Fixpoint evictOldest {T : Type} (setAndSize : list T -> option Z) (survivors : list T)
  : option (list T * list T * Z) :=
  match setAndSize survivors with
  | None => None
  | Some finalSize =>
      if finalSize <=? ObjectByteBudget then Some (survivors, [], finalSize)
      else match survivors with
           | [] => Some (survivors, [], finalSize)
           | x :: rest =>
               match evictOldest setAndSize rest with
               | None => None
               | Some (s, evicted, sz) => Some (s, x :: evicted, sz)
               end
           end
  end.

Definition evictedComments (evicted : list Comment) : gmap string nat :=
  fold_left (fun m c => <[cm_ExternalID c := S (default O (m !! cm_ExternalID c))]> m) evicted ∅.

Fixpoint excludeComments (comments : list Comment) (remaining : gmap string nat) : list Comment :=
  match comments with
  | [] => []
  | c :: comments' =>
      match default O (remaining !! cm_ExternalID c) with
      | O => c :: excludeComments comments' remaining
      | S n => excludeComments comments' (<[cm_ExternalID c := n]> remaining)
      end
  end.

(** ** Spilling *)

Inductive FitError :=
  | GetFailed
  | MarshalFailed
  | ErrObjectTooLarge
  | ErrSpillerUnconfigured
  | ErrSpillFailed
  | UpdateRefused
  | ConflictsExhausted.

(** What a guarded write does to the outside, in order. *)
Inductive FitEffect (Obj Item : Type) :=
  | Spilled (batch : list Item)
  | Updated (obj : Obj).
Arguments Spilled {Obj Item} batch.
Arguments Updated {Obj Item} obj.

(** A spiller answers a track id, empty when the batch was discarded, or an error. *)
Definition Spiller (Item : Type) : Type := list Item -> option string.

Definition Discarding {Item : Type} : Spiller Item := fun _ => Some ""%string.

Definition spillEvicted {Item : Type} (sp : option (Spiller Item)) (batch : list Item)
  : result FitError (string * bool) :=
  match sp with
  | None => Err ErrSpillerUnconfigured
  | Some sp =>
      match sp batch with
      | None => Err ErrSpillFailed
      | Some trackID => if trackID == "" then Ok (""%string, false) else Ok (trackID, true)
      end
  end.

(** The calls a spill makes: none without a spiller, one otherwise. *)
Definition spill_calls {Obj Item : Type} (sp : option (Spiller Item)) (batch : list Item)
  : list (FitEffect Obj Item) :=
  match sp with None => [] | Some _ => [Spilled batch] end.

(** ** The write: retried on conflict *)

(** What the API server answers to the Update of one attempt. *)
Inductive UpdateAnswer := UpdateOk | UpdateConflict | UpdateError.

(** One attempt: the fresh read ([None] when the Get fails) and the answer. *)
Record Attempt (Obj : Type) := mkAttempt { at_fresh : option Obj; at_answer : UpdateAnswer }.
Arguments mkAttempt {Obj} at_fresh at_answer.
Arguments at_fresh {Obj} a.
Arguments at_answer {Obj} a.

(** What one Get answers. *)
Inductive GetAnswer (Obj : Type) := Found (obj : Obj) | GetNotFound | GetErrored.
Arguments Found {Obj} obj.
Arguments GetNotFound {Obj}.
Arguments GetErrored {Obj}.

Section Guard.

Context {Obj Item : Type}.

Fixpoint get_attempts (reads : list (GetAnswer Obj)) : option Obj :=
  match reads with
  | [] | GetErrored :: _ => None
  | Found o :: _ => Some o
  | GetNotFound :: reads' => get_attempts reads'
  end.

(** [createLagBackoff] makes five attempts. *)
Definition getWaitingOutCreateLag (reads : list (GetAnswer Obj)) : option Obj :=
  get_attempts (firstn 5 reads).

(** The marshalled size of an object, [None] when it cannot be marshalled. *)
Context (sizeOf : Obj -> option Z).

(** [RetryOnConflict]: the closure runs on each attempt until one does not conflict. *)
Fixpoint write_attempts (prepare : Obj -> Obj) (attempts : list (Attempt Obj))
  : result FitError Obj * list (FitEffect Obj Item) :=
  match attempts with
  | [] => (Err ConflictsExhausted, [])
  | a :: attempts' =>
      match at_fresh a with
      | None => (Err GetFailed, [])
      | Some fresh =>
          let obj := prepare fresh in
          match sizeOf obj with
          | None => (Err MarshalFailed, [])
          | Some sz =>
              if ObjectByteBudget <? sz then (Err ErrObjectTooLarge, [])
              else match at_answer a with
                   | UpdateOk => (Ok obj, [Updated obj])
                   | UpdateError => (Err UpdateRefused, [])
                   | UpdateConflict => write_attempts prepare attempts'
                   end
          end
      end
  end.

(** [retry.DefaultRetry] makes five attempts. *)
Definition RetryOnConflict (prepare : Obj -> Obj) (attempts : list (Attempt Obj))
  : result FitError Obj * list (FitEffect Obj Item) := write_attempts prepare (firstn 5 attempts).

End Guard.

(** ** The two mirrors: an Issue or a MergeRequest and its comments *)

Definition retain_from (survivors evicted : list Comment) : option Time :=
  match evicted, survivors with
  | [], _ => None
  | _, s :: _ => Some (cm_CreatedAt s)
  | e :: es, [] => Some (cm_CreatedAt (List.last es e))
  end.

(** The trim of the second phase, [retainFrom] being set exactly when something was
    evicted. *)
Definition trim_issue (gone : gmap string nat) (retainFrom : option Time) (trackID : string)
    (stored : bool) (fresh : Issue) : Issue :=
  let fresh :=
    match retainFrom with
    | None => fresh
    | Some _ =>
        let was := Z.of_nat (List.length (iss_Comments (iss_Status fresh))) in
        let kept := excludeComments (iss_Comments (iss_Status fresh)) gone in
        fresh <| iss_Status ::= fun s =>
          s <| iss_Comments := kept |>
            <| iss_CommentsRetainedFrom := retainFrom |>
            <| iss_SpilledComments ::= fun n => i64 (n + (was - Z.of_nat (List.length kept))) |>
            <| iss_SpilledCommentsRefs ::= fun r => if stored then (r ++ [trackID])%list else r |> |>
    end in
  fresh <| iss_Status ::= fun s =>
    s <| iss_CommentCount := i64 (Z.of_nat (List.length (iss_Comments s)) + iss_SpilledComments s) |> |>.

Definition trim_mergerequest (gone : gmap string nat) (retainFrom : option Time) (trackID : string)
    (stored : bool) (fresh : MergeRequest) : MergeRequest :=
  let fresh :=
    match retainFrom with
    | None => fresh
    | Some _ =>
        let was := Z.of_nat (List.length (mr_Comments (mr_Status fresh))) in
        let kept := excludeComments (mr_Comments (mr_Status fresh)) gone in
        fresh <| mr_Status ::= fun s =>
          s <| mr_Comments := kept |>
            <| mr_CommentsRetainedFrom := retainFrom |>
            <| mr_SpilledComments ::= fun n => i64 (n + (was - Z.of_nat (List.length kept))) |>
            <| mr_SpilledCommentsRefs ::= fun r => if stored then (r ++ [trackID])%list else r |> |>
    end in
  fresh <| mr_Status ::= fun s =>
    s <| mr_CommentCount := i64 (Z.of_nat (List.length (mr_Comments s)) + mr_SpilledComments s) |> |>.

(** What the guard needs of a mirror: its comments, and the trim of its second phase
    with what the trim does to them and to the spill ledger. *)
Class Commented (Obj : Type) := {
  comments_of : Obj -> list Comment;
  spilled_of : Obj -> Z;
  refs_of : Obj -> list string;
  count_of : Obj -> Z;
  with_comments : list Comment -> Obj -> Obj;
  trim_mirror : gmap string nat -> option Time -> string -> bool -> Obj -> Obj;
  trim_evicts gone at_ id stored o :
    comments_of (trim_mirror gone (Some at_) id stored o) = excludeComments (comments_of o) gone;
  trim_records gone at_ id stored o :
    refs_of (trim_mirror gone (Some at_) id stored o)
    = (refs_of o ++ if stored then [id] else [])%list;
  trim_keeps gone id stored o : comments_of (trim_mirror gone None id stored o) = comments_of o;
  trim_counts gone at_ id stored o :
    let o' := trim_mirror gone at_ id stored o in
    count_of o' = i64 (Z.of_nat (List.length (comments_of o')) + spilled_of o')
}.

#[export] Program Instance Issue_commented : Commented Issue := {
  comments_of i := iss_Comments (iss_Status i);
  spilled_of i := iss_SpilledComments (iss_Status i);
  refs_of i := iss_SpilledCommentsRefs (iss_Status i);
  count_of i := iss_CommentCount (iss_Status i);
  with_comments l i := i <| iss_Status ::= fun s => s <| iss_Comments := l |> |>;
  trim_mirror := trim_issue
}.
Solve Obligations with (intros; cbn; try destruct stored; rewrite ?app_nil_r; reflexivity).

#[export] Program Instance MergeRequest_commented : Commented MergeRequest := {
  comments_of m := mr_Comments (mr_Status m);
  spilled_of m := mr_SpilledComments (mr_Status m);
  refs_of m := mr_SpilledCommentsRefs (mr_Status m);
  count_of m := mr_CommentCount (mr_Status m);
  with_comments l m := m <| mr_Status ::= fun s => s <| mr_Comments := l |> |>;
  trim_mirror := trim_mergerequest
}.
Solve Obligations with (intros; cbn; try destruct stored; rewrite ?app_nil_r; reflexivity).

(** The one body FitIssue and FitMergeRequest have. *)
Definition fit_mirror `{Commented Obj} (sizeOf : Obj -> option Z) (sp : option (Spiller Comment))
    (reads : list (GetAnswer Obj)) (mutate : Obj -> Obj) (attempts : list (Attempt Obj))
  : result FitError Obj * list (FitEffect Obj Comment) :=
  match getWaitingOutCreateLag reads with
  | None => (Err GetFailed, [])
  | Some cur =>
      let candidate := mutate cur in
      match evictOldest (fun items => sizeOf (with_comments items candidate)) (comments_of candidate) with
      | None => (Err MarshalFailed, [])
      | Some (survivors, evicted, finalSize) =>
          if ObjectByteBudget <? finalSize then (Err ErrObjectTooLarge, [])
          else match evicted with
          | [] => RetryOnConflict sizeOf (fun f => trim_mirror ∅ None "" false (mutate f)) attempts
          | _ =>
              match spillEvicted sp evicted with
              | Err e => (Err e, spill_calls sp evicted)
              | Ok (trackID, stored) =>
                  let '(r, effects) :=
                    RetryOnConflict sizeOf
                      (fun f => trim_mirror (evictedComments evicted) (retain_from survivors evicted)
                                  trackID stored (mutate f)) attempts in
                  (r, (spill_calls sp evicted ++ effects)%list)
              end
          end
      end
  end.

Definition FitIssue := fit_mirror (Obj := Issue).

Definition FitMergeRequest := fit_mirror (Obj := MergeRequest).

(** ** FitTask *)

(** The second phase of the Task guard: positional, re-capped against the fresh read. *)
Definition trim_task (noteCap : bool) (evictedN : Z) (trackID : string) (stored : bool) (fresh : Task)
  : Task :=
  if 0 <? evictedN then
    let n := Z.of_nat (List.length (Notes (Status fresh))) in
    let drop := if noteCap then Z.max evictedN (n - MaxNotes) else evictedN in
    let drop := Z.min drop n in
    on_status fresh (fun s =>
      s <| Notes ::= skipn (Z.to_nat drop) |>
        <| Stats ::= fun st =>
             st <| NotesSpilled ::= fun k => i64 (k + drop) |>
                <| NotesSpilledRefs ::= fun r => if stored then (r ++ [trackID])%list else r |> |>)
  else fresh.

Definition FitTask (sizeOf : Task -> option Z) (sp : option (Spiller Note)) (noteCap : bool)
    (reads : list (GetAnswer Task)) (mutate : Task -> Task) (attempts : list (Attempt Task))
  : result FitError Task * list (FitEffect Task Note) :=
  match getWaitingOutCreateLag reads with
  | None => (Err GetFailed, [])
  | Some cur =>
      let candidate := mutate cur in
      let all := Notes (Status candidate) in
      let n := if noteCap && (MaxNotes <? Z.of_nat (List.length all))
               then (List.length all - Z.to_nat MaxNotes)%nat else O in
      let install items := on_status candidate (fun s => s <| Notes := items |>) in
      match evictOldest (fun items => sizeOf (install items)) (skipn n all) with
      | None => (Err MarshalFailed, [])
      | Some (_, byteEvicted, finalSize) =>
          if ObjectByteBudget <? finalSize then (Err ErrObjectTooLarge, [])
          else
            let evicted := (firstn n all ++ byteEvicted)%list in
            match evicted with
            | [] => RetryOnConflict sizeOf (fun f => trim_task noteCap 0 "" false (mutate f)) attempts
            | _ =>
                match spillEvicted sp evicted with
                | Err e => (Err e, spill_calls sp evicted)
                | Ok (trackID, stored) =>
                    let '(r, effects) :=
                      RetryOnConflict sizeOf
                        (fun f => trim_task noteCap (Z.of_nat (List.length evicted)) trackID stored (mutate f))
                        attempts in
                    (r, (spill_calls sp evicted ++ effects)%list)
                end
            end
      end
  end.

(** ** What a guarded write promises its callers *)

(** The fresh read the closure ran on last: the one of the first attempt that is not
    answered by a conflict. *)
Definition last_read {Obj : Type} (attempts : list (Attempt Obj)) : option Obj :=
  match List.find (fun a => match at_answer a with UpdateConflict => false | _ => true end)
                  (firstn 5 attempts) with
  | Some a => at_fresh a
  | None => None
  end.

(** The objects written, in order. *)
Definition written {Obj Item : Type} (effects : list (FitEffect Obj Item)) : list Obj :=
  omap (fun e => match e with Updated o => Some o | Spilled _ => None end) effects.

(** An answer of nil means exactly one write, of the closure's result on the last read
    up to what the guard may trim of it; an error means no write. *)
Definition writes_last {Obj Item} (trim : Obj -> Obj -> Prop) (mutate : Obj -> Obj)
    (attempts : list (Attempt Obj)) (answer : result FitError Obj * list (FitEffect Obj Item)) : Prop :=
  match answer with
  | (Ok o, effects) => written effects = [o]
      /\ exists fresh, last_read attempts = Some fresh
         /\ In (mkAttempt (Some fresh) UpdateOk) attempts /\ trim (mutate fresh) o
  | (Err _, effects) => written effects = []
  end.

Class GuardedWrite (Obj Item : Type) := {
  guarded : (Obj -> option Z) -> option (Spiller Item) -> list (GetAnswer Obj) -> (Obj -> Obj) ->
            list (Attempt Obj) -> result FitError Obj * list (FitEffect Obj Item);
  may_trim : Obj -> Obj -> Prop;
  guarded_writes sizeOf sp reads mutate attempts :
    writes_last may_trim mutate attempts (guarded sizeOf sp reads mutate attempts)
}.

(** What the Task guard may trim: the journal. *)
Definition trimmed (t o : Task) : Prop :=
  exists cap n trackID stored, o = trim_task cap n trackID stored t.

(** What the mirror guard may trim: the comments. *)
Definition mirror_trimmed `{Commented Obj} (x o : Obj) : Prop :=
  exists gone at_ trackID stored, o = trim_mirror gone at_ trackID stored x.

(** ** MinimalFailPatch *)

(** The merge patch writes the park flag and its time, at RFC 3339's one-second
    granularity, and no other field. *)
Definition MinimalFailPatch (reason : string) (wall : Time) (t : Task) : Task :=
  on_status t (fun s => s <| ParkReason := reason |>
                          <| ParkedAt := Some (wall - wall `mod` Second) |>).

(** ** Counting by id *)

Definition count_id (id : string) (l : list Comment) : nat :=
  List.length (List.filter (fun c => cm_ExternalID c == id) l).

(** ** Lemmas *)

Lemma evictOldest_split {T} (f : list T -> option Z) items :
  match evictOldest f items with
  | Some (survivors, evicted, sz) =>
      items = (evicted ++ survivors)%list /\ f survivors = Some sz
      /\ (sz <= ObjectByteBudget \/ survivors = [])
      /\ forall pre suf, items = (pre ++ suf)%list -> (List.length pre < List.length evicted)%nat ->
         exists n, f suf = Some n /\ ObjectByteBudget < n
  | None => exists pre suf, items = (pre ++ suf)%list /\ f suf = None
  end.
Proof.
  induction items as [|x items IH]; cbn [evictOldest].
  - destruct (f []) as [sz|] eqn:E; [|by exists [], []].
    destruct (sz <=? ObjectByteBudget); (split; [done|]; split; [done|]; split; [auto|]);
      cbn; intros; lia.
  - destruct (f (x :: items)) as [sz|] eqn:E; [|by exists [], (x :: items)].
    destruct (Z.leb_spec sz ObjectByteBudget) as [Hle|Hgt].
    + split; [done|]. split; [done|]. split; [auto|]. cbn. intros; lia.
    + destruct (evictOldest f items) as [[[s ev] n]|].
      * destruct IH as (-> & Hs & Hor & Hmin). split; [done|]. split; [done|]. split; [done|].
        intros pre suf Heq Hlen. destruct pre as [|y pre]; cbn in Heq.
        -- subst suf. eauto.
        -- injection Heq as <- Heq. apply (Hmin pre suf Heq). cbn in Hlen. lia.
      * destruct IH as (pre & suf & -> & Hn). by exists (x :: pre), suf.
Qed.

Lemma evicted_count l : forall m id,
  default O (fold_left (fun m c => <[cm_ExternalID c := S (default O (m !! cm_ExternalID c))]> m) l m !! id)
  = (default O ((m : gmap string nat) !! id) + count_id id l)%nat.
Proof.
  induction l as [|c l IH]; intros m id; cbn [fold_left]; [unfold count_id; cbn; lia|].
  rewrite IH. unfold count_id. cbn.
  destruct (String.eqb_spec (cm_ExternalID c) id) as [->|Hne]; cbn.
  - rewrite lookup_insert_eq. cbn. lia.
  - by rewrite lookup_insert_ne.
Qed.

Lemma evictedComments_count l id : default O (evictedComments l !! id) = count_id id l.
Proof. unfold evictedComments. rewrite evicted_count. by rewrite lookup_empty. Qed.

Lemma exclude_count comments : forall m id,
  count_id id (excludeComments comments m) = (count_id id comments - default O (m !! id))%nat.
Proof.
  induction comments as [|c l IH]; intros m id; cbn [excludeComments]; [done|].
  destruct (default O (m !! cm_ExternalID c)) as [|n] eqn:E.
  - unfold count_id in *. cbn. destruct (String.eqb_spec (cm_ExternalID c) id) as [Hid|Hne]; cbn.
    + rewrite IH. rewrite <- Hid, E. lia.
    + apply IH.
  - rewrite IH. unfold count_id. cbn. destruct (String.eqb_spec (cm_ExternalID c) id) as [Hid|Hne]; cbn.
    + rewrite <- Hid, E, lookup_insert_eq. cbn. lia.
    + by rewrite lookup_insert_ne.
Qed.

Lemma exclude_none s : forall m, (forall id, default O (m !! id) = O) -> excludeComments s m = s.
Proof.
  induction s as [|c s IH]; intros m H; cbn; [done|]. rewrite H. by rewrite IH.
Qed.

(** The oldest-first batch is taken off the front of the list it was chosen from. *)
Lemma exclude_prefix ev s : forall m, (forall id, default O (m !! id) = count_id id ev) ->
  excludeComments (ev ++ s) m = s.
Proof.
  induction ev as [|c ev IH]; intros m H; cbn; [by apply exclude_none|].
  rewrite H. unfold count_id. cbn. rewrite String.eqb_refl. cbn. apply IH.
  intros id. destruct (String.eqb_spec (cm_ExternalID c) id) as [<-|Hne].
  - by rewrite lookup_insert_eq.
  - rewrite lookup_insert_ne by done. rewrite H. unfold count_id. cbn.
    by rewrite (str_neq_eqb _ _ Hne).
Qed.

Lemma write_attempts_spec {Obj Item} (sizeOf : Obj -> option Z) prepare attempts :
  match write_attempts (Item := Item) sizeOf prepare attempts with
  | (Ok o, effects) => effects = [Updated o]
      /\ exists fresh sz, o = prepare fresh /\ (exists ans, In (mkAttempt (Some fresh) ans) attempts)
         /\ sizeOf o = Some sz /\ sz <= ObjectByteBudget
  | (Err _, effects) => effects = []
  end.
Proof.
  induction attempts as [|[[fresh|] ans] l IH]; cbn; [done| |done].
  destruct (sizeOf (prepare fresh)) as [sz|] eqn:E; [|done].
  destruct (Z.ltb_spec ObjectByteBudget sz); [done|].
  destruct ans; [..|done].
  - split; [done|]. exists fresh, sz. eauto 10.
  - destruct (write_attempts sizeOf prepare l) as [[o|e] effects]; [|done].
    destruct IH as (-> & f & n & -> & (a & Ha) & Hn & Hle). split; [done|].
    exists f, n. split; [done|]. split; [|done]. exists a. by right.
Qed.

Lemma retry_spec {Obj Item} (sizeOf : Obj -> option Z) prepare attempts :
  match RetryOnConflict (Item := Item) sizeOf prepare attempts with
  | (Ok o, effects) => effects = [Updated o]
      /\ exists fresh sz, o = prepare fresh /\ (exists ans, In (mkAttempt (Some fresh) ans) attempts)
         /\ sizeOf o = Some sz /\ sz <= ObjectByteBudget
  | (Err _, effects) => effects = []
  end.
Proof.
  unfold RetryOnConflict. pose proof (write_attempts_spec (Item := Item) sizeOf prepare (firstn 5 attempts)) as H.
  destruct (write_attempts _ _ _) as [[o|e] effects]; [|done].
  destruct H as (-> & f & n & -> & (a & Ha) & Hn & Hle). split; [done|].
  exists f, n. split; [done|]. split; [|done]. exists a.
  rewrite <- (firstn_skipn 5 attempts). apply in_or_app. by left.
Qed.

Lemma retain_from_some survivors e es : exists at_, retain_from survivors (e :: es) = Some at_.
Proof. destruct survivors; cbn; eauto. Qed.

(** The attempt that succeeds is the one of the last read. *)
Lemma write_attempts_last {Obj Item} (sizeOf : Obj -> option Z) prepare attempts o effects :
  write_attempts (Item := Item) sizeOf prepare attempts = (Ok o, effects) ->
  exists fresh, List.find (fun a => match at_answer a with UpdateConflict => false | _ => true end)
                  attempts = Some (mkAttempt (Some fresh) UpdateOk)
  /\ o = prepare fresh /\ effects = [Updated o].
Proof.
  induction attempts as [|[[fresh|] ans] l IH]; cbn; [done| |done].
  destruct (sizeOf (prepare fresh)) as [sz|]; [|done].
  destruct (ObjectByteBudget <? sz); [done|].
  destruct ans; [|done|done]. intros [= <- <-]. eauto.
Qed.

Lemma retry_last {Obj Item} sizeOf (trim : Obj -> Obj -> Prop) mutate prepare attempts :
  (forall f, trim (mutate f) (prepare f)) ->
  writes_last trim mutate attempts (RetryOnConflict (Item := Item) sizeOf prepare attempts).
Proof.
  intros Hp. pose proof (retry_spec (Item := Item) sizeOf prepare attempts) as Hr.
  unfold RetryOnConflict, writes_last in *.
  destruct (write_attempts _ _ _) as [[o|e] effects] eqn:E; [|by rewrite Hr].
  apply write_attempts_last in E as (fresh & Hf & -> & ->). split; [done|].
  exists fresh. unfold last_read. rewrite Hf. split; [done|].
  apply find_some in Hf as [Hin _]. split; [|done].
  rewrite <- (firstn_skipn 5 attempts). apply in_or_app. by left.
Qed.

Lemma spilled_last {Obj Item} (trim : Obj -> Obj -> Prop) mutate attempts
    (sp : option (Spiller Item)) batch answer :
  writes_last trim mutate attempts answer ->
  writes_last trim mutate attempts
    (let '(r, effects) := answer in (r, (spill_calls (Obj := Obj) sp batch ++ effects)%list)).
Proof.
  unfold writes_last. destruct answer as [[o|e] effects]; unfold written; rewrite omap_app;
    by destruct sp.
Qed.

Lemma spillEvicted_written {Obj Item} (sp : option (Spiller Item)) batch :
  written (spill_calls (Obj := Obj) sp batch) = [].
Proof. by destruct sp. Qed.

Lemma FitTask_last sizeOf sp cap reads mutate attempts :
  writes_last trimmed mutate attempts (FitTask sizeOf sp cap reads mutate attempts).
Proof.
  unfold FitTask. destruct (getWaitingOutCreateLag reads) as [cur|]; [|done]. cbv zeta.
  destruct (evictOldest _ _) as [[[survivors byteEvicted] sz]|]; [|done].
  destruct (ObjectByteBudget <? sz); [done|].
  destruct (_ ++ byteEvicted)%list as [|e es]; [apply retry_last; intros; repeat eexists|].
  destruct (spillEvicted sp (e :: es)) as [[trackID stored]|err]; [|apply spillEvicted_written].
  apply spilled_last, retry_last. intros; repeat eexists.
Qed.

Lemma fit_mirror_last `{Commented Obj} sizeOf sp reads mutate attempts :
  writes_last mirror_trimmed mutate attempts (fit_mirror sizeOf sp reads mutate attempts).
Proof.
  unfold fit_mirror. destruct (getWaitingOutCreateLag reads) as [cur|]; [|done]. cbv zeta.
  destruct (evictOldest _ _) as [[[survivors evicted] sz]|]; [|done].
  destruct (ObjectByteBudget <? sz); [done|].
  destruct evicted as [|e es]; [apply retry_last; intros; repeat eexists|].
  destruct (spillEvicted sp (e :: es)) as [[trackID stored]|err]; [|apply spillEvicted_written].
  apply spilled_last, retry_last. intros; repeat eexists.
Qed.

(** The three guards keep the promise. *)
#[export] Instance Task_guarded : GuardedWrite Task Note := {|
  guarded sizeOf sp := FitTask sizeOf sp false;
  may_trim := trimmed;
  guarded_writes sizeOf sp := FitTask_last sizeOf sp false
|}.

#[export] Instance Issue_guarded : GuardedWrite Issue Comment := {|
  guarded := FitIssue; may_trim := mirror_trimmed; guarded_writes := fit_mirror_last
|}.

#[export] Instance MergeRequest_guarded : GuardedWrite MergeRequest Comment := {|
  guarded := FitMergeRequest; may_trim := mirror_trimmed; guarded_writes := fit_mirror_last
|}.

Lemma trim_task_front noteCap n trackID stored fresh :
  (0 < n)%nat ->
  let o := trim_task noteCap (Z.of_nat n) trackID stored fresh in
  exists dropped, Notes (Status fresh) = (dropped ++ Notes (Status o))%list
  /\ NotesSpilled (Stats (Status o))
     = i64 (NotesSpilled (Stats (Status fresh)) + Z.of_nat (List.length dropped))
  /\ (n <= List.length dropped \/ Notes (Status o) = [])%nat
  /\ (noteCap = true -> (List.length (Notes (Status o)) <= 50)%nat).
Proof.
  intros Hn. cbv zeta. unfold trim_task. rewrite (proj2 (Z.ltb_lt 0 (Z.of_nat n))) by lia.
  set (l := Notes (Status fresh)).
  set (drop := Z.min _ _). assert (0 <= drop <= Z.of_nat (List.length l)) as Hd.
  { unfold drop. destruct noteCap; lia. }
  exists (firstn (Z.to_nat drop) l). cbn. fold l.
  split; [by rewrite firstn_skipn|]. split.
  { f_equal. f_equal. rewrite length_firstn. lia. }
  rewrite length_firstn, length_skipn. split.
  - destruct (Nat.le_gt_cases n (List.length l)).
    + left. unfold drop. destruct noteCap; lia.
    + right. apply skipn_all2. unfold drop. destruct noteCap; lia.
  - intros ->. unfold drop, MaxNotes. lia.
Qed.

(** ** Properties *)

(** eviction takes the oldest items and no more than it must.  The list is split
    into an evicted front and a surviving back; the object fits with the survivors
    unless none are left; and with any longer back it did not fit.  The only other
    outcome is an object that could not be marshalled. *)
Theorem evictOldest_minimal {T : Type} (setAndSize : list T -> option Z) items :
  match evictOldest setAndSize items with
  | Some (survivors, evicted, sz) =>
      items = (evicted ++ survivors)%list /\ setAndSize survivors = Some sz
      /\ (sz <= ObjectByteBudget \/ survivors = [])
      /\ forall pre suf, items = (pre ++ suf)%list -> (List.length pre < List.length evicted)%nat ->
         exists n, setAndSize suf = Some n /\ ObjectByteBudget < n
  | None => exists pre suf, items = (pre ++ suf)%list /\ setAndSize suf = None
  end.
Proof. apply evictOldest_split. Qed.

(** a guarded write of an Issue or a MergeRequest spills first and drops only what
    it spilled.  A write reaches the API server at most once, only within the byte
    budget and with the comment count equal to the comments kept plus those spilled;
    if it drops comments, the one batch handed to the spiller before it was accepted,
    each id loses exactly as many comments as the batch held of it, and where the
    comments are still the ones the batch was chosen from, batch and kept comments
    together are all of them; a batch that was stored is recorded, a discarded one is
    not.  Without a spiller, or when it fails, nothing is written. *)
Theorem fit_mirror_spills_first `{Commented Obj} sizeOf sp reads mutate attempts :
  let '(r, effects) := fit_mirror sizeOf sp reads mutate attempts in
  let stored o := r = Ok o /\ (exists sz, sizeOf o = Some sz /\ sz <= ObjectByteBudget)
    /\ count_of o = i64 (Z.of_nat (List.length (comments_of o)) + spilled_of o) in
  match effects with
  | [] | [Spilled _] => is_ok r = false
  | [Updated o] =>
      stored o /\ exists fresh ans, In (mkAttempt (Some fresh) ans) attempts
                 /\ comments_of o = comments_of (mutate fresh)
  | [Spilled batch; Updated o] =>
      stored o /\ batch <> []
      /\ exists spill trackID, sp = Some spill /\ spill batch = Some trackID
         /\ exists fresh ans, In (mkAttempt (Some fresh) ans) attempts
            /\ (forall id, count_id id (comments_of o)
                           = (count_id id (comments_of (mutate fresh)) - count_id id batch)%nat)
            /\ refs_of o = (refs_of (mutate fresh) ++ if trackID == "" then [] else [trackID])%list
            /\ (forall c, getWaitingOutCreateLag reads = Some c ->
                  comments_of (mutate fresh) = comments_of (mutate c) ->
                  (batch ++ comments_of o)%list = comments_of (mutate fresh))
  | _ => False
  end.
Proof.
  unfold fit_mirror. destruct (getWaitingOutCreateLag reads) as [cur|]; [|done]. cbv zeta.
  pose proof (evictOldest_split (fun items => sizeOf (with_comments items (mutate cur)))
    (comments_of (mutate cur))) as Hev.
  destruct (evictOldest _ _) as [[[survivors evicted] sz]|]; [|done].
  destruct (ObjectByteBudget <? sz); [done|]. destruct Hev as (Hsplit & _).
  destruct evicted as [|e es] eqn:Eev.
  - pose proof (retry_spec (Item := Comment) sizeOf
      (fun f => trim_mirror ∅ None "" false (mutate f)) attempts) as Hr.
    destruct (RetryOnConflict _ _ _) as [[o|err] effects]; [|by rewrite Hr].
    destruct Hr as (-> & fresh & n & -> & (ans & Hans) & Hn & Hle).
    split; [split; [done|]; split; [eauto|apply trim_counts]|].
    exists fresh, ans. split; [done|apply trim_keeps].
  - rewrite <- Eev in *. unfold spillEvicted.
    destruct sp as [spill|]; [|done]. destruct (spill evicted) as [trackID|] eqn:Esp; [|done].
    assert (evicted <> []) as Hne by (by rewrite Eev).
    destruct (retain_from_some survivors e es) as [at_ Hat]. rewrite <- Eev in Hat. rewrite Hat.
    destruct (trackID == "") eqn:Et.
    all: match goal with |- context [trim_mirror _ _ ?tid ?st _] =>
      pose proof (retry_spec (Item := Comment) sizeOf
        (fun f => trim_mirror (evictedComments evicted) (Some at_) tid st (mutate f)) attempts) as Hr end.
    all: rewrite Eev in *; rewrite <- Eev in *.
    all: destruct (RetryOnConflict _ _ _) as [[o|err] effects]; [|by rewrite Hr].
    all: destruct Hr as (-> & fresh & n & -> & (ans & Hans) & Hn & Hle).
    all: split; [split; [done|]; split; [eauto|apply trim_counts]|]; split; [done|].
    all: exists spill, trackID; split; [done|]; split; [done|].
    all: exists fresh, ans; split; [done|]; rewrite trim_evicts, trim_records, ?Et.
    all: split; [intros id; by rewrite exclude_count, evictedComments_count|]; split; [done|].
    all: intros c [= <-] Heq; rewrite Heq, Hsplit, exclude_prefix; [done|apply evictedComments_count].
Qed.

(** a guarded Task write spills first and drops a front of the journal.  Notes
    are only ever dropped from the front of the fresh journal and only after a batch
    was accepted by the spiller; the drop is counted; at least the batch goes, and
    under the note cap a write that dropped anything leaves at most fifty notes. *)
Theorem FitTask_spills_first sizeOf sp noteCap reads mutate attempts :
  let '(r, effects) := FitTask sizeOf sp noteCap reads mutate attempts in
  match effects with
  | [] | [Spilled _] => is_ok r = false
  | [Updated o] =>
      r = Ok o /\ (exists sz, sizeOf o = Some sz /\ sz <= ObjectByteBudget)
      /\ exists fresh ans, In (mkAttempt (Some fresh) ans) attempts /\ o = mutate fresh
  | [Spilled batch; Updated o] =>
      r = Ok o /\ (exists sz, sizeOf o = Some sz /\ sz <= ObjectByteBudget) /\ batch <> []
      /\ (exists spill trackID, sp = Some spill /\ spill batch = Some trackID)
      /\ exists fresh ans dropped, In (mkAttempt (Some fresh) ans) attempts
         /\ Notes (Status (mutate fresh)) = (dropped ++ Notes (Status o))%list
         /\ NotesSpilled (Stats (Status o))
            = i64 (NotesSpilled (Stats (Status (mutate fresh))) + Z.of_nat (List.length dropped))
         /\ (List.length batch <= List.length dropped \/ Notes (Status o) = [])%nat
         /\ (noteCap = true -> (List.length (Notes (Status o)) <= 50)%nat)
  | _ => False
  end.
Proof.
  unfold FitTask. destruct (getWaitingOutCreateLag reads) as [c|]; [|done]. cbv zeta.
  destruct (evictOldest _ _) as [[[survivors byteEvicted] sz]|]; [|done].
  destruct (ObjectByteBudget <? sz); [done|].
  destruct (firstn _ _ ++ byteEvicted)%list as [|e es] eqn:Eev.
  - pose proof (retry_spec (Item := Note) sizeOf (fun f => trim_task noteCap 0 "" false (mutate f)) attempts) as Hr.
    destruct (RetryOnConflict _ _ _) as [[o|err] effects]; [|by rewrite Hr].
    destruct Hr as (-> & fresh & n & -> & (ans & Hans) & Hn & Hle).
    split; [done|]. split; [eauto|]. exists fresh, ans. split; [done|reflexivity].
  - unfold spillEvicted. destruct sp as [spill|]; [|done].
    destruct (spill (e :: es)) as [trackID|] eqn:Esp; [|done].
    destruct (trackID == "").
    all: match goal with |- context [trim_task _ _ ?tid ?st _] =>
      pose proof (retry_spec (Item := Note) sizeOf
        (fun f => trim_task noteCap (Z.of_nat (List.length (e :: es))) tid st (mutate f)) attempts) as Hr end.
    all: destruct (RetryOnConflict _ _ _) as [[o|err] effects]; [|by rewrite Hr].
    all: destruct Hr as (-> & fresh & n & -> & (ans & Hans) & Hn & Hle).
    all: split; [done|]; split; [eauto|]; split; [done|]; split; [eauto|].
    all: match goal with |- context [trim_task _ _ ?tid ?st ?f] =>
      destruct (trim_task_front noteCap (List.length (e :: es)) tid st f) as (d & H1 & H2 & H3 & H4);
        [cbn; lia|] end.
    all: exists fresh, ans, d; auto.
Qed.
