(* ===== verification/Lifecycle.v ===== *)
(** * The life of a Task: every operation of internal/stage and the rest of the
    program as steps, and what holds of every Task they can produce. *)

From stdpp Require Import relations.
From S2P Require Import Prelude GoTime Api Vocabulary Machine Park Clocks Unpark ObjBudget.

Open Scope Z_scope.
Open Scope go_scope.

(** ** Operations *)

(** One constructor per exported operation of the package that writes to a Task;
    [OpMigrate] for the one composition a caller makes of them
    (applyRetryLaneMigration, internal/controller/unpark.go); and [OpFailPatch] for
    the one write of the park flag that goes around the package
    (objbudget.MinimalFailPatch, always called with object-too-large). *)
Inductive op :=
  | OpEnter (mrs : list MergeRequest) (to reason : string) (now : Time)
  | OpPark (reason : string) (now : Time)
  | OpRepark (reason : string) (now : Time)
  | OpMigrate (reason : string) (now : Time)
  | OpArmRetry (now : Time)
  | OpRescheduleRetry (now : Time)
  | OpResetRetryBudget
  | OpExhaustRetry (now : Time)
  | OpStrandRetryLane (now : Time)
  | OpUpgradeDecline (now : Time)
  | OpTakeover (to : string) (now : Time)
  | OpMaintainerComment (bot : string) (now wall : Time)
  | OpConsumeEvents (bot : string) (now wall : Time)
  | OpMRTerminal (to reason : string)
  | OpCIRecovered (now wall : Time)
  | OpRetiredPark (now wall : Time)
  | OpUnpark (issues : list Issue) (mrs : list MergeRequest) (active max : Z) (bot : string)
             (room : bool) (now wall wall' : Time)
  | OpHeadMoved (max : Z)
  | OpCIRed (mrs : list MergeRequest) (max : Z)
  | OpMergeConflict (mrs : list MergeRequest) (max : Z)
  | OpReenterOnReview (mrs : list MergeRequest) (now wall : Time)
  | OpRecordRespawn
  | OpPodLoss (now : Time)
  | OpFailPatch (wall : Time).

(** The retry-lane migration keeps the clock the re-park would have re-stamped. *)
Definition migrate (t : Task) (to : string) (now : Time) : result StageError Task :=
  match Repark t to now with
  | Err e => Err e
  | Ok t' => Ok (on_status t' (fun s =>
      s <| StageElapsedCarrySeconds := StageElapsedCarrySeconds (Status t) |>
        <| StateEnteredAt := StateEnteredAt (Status t) |>))
  end.

(** The Task an operation leaves behind, errors included: a refused one leaves it
    as it was. *)
Definition after {A} (t : Task) (r : result StageError A) (f : A -> Task) : Task :=
  match r with Ok a => f a | Err _ => t end.

Definition exec (o : op) (t : Task) : Task :=
  match o with
  | OpEnter mrs to reason now => after t (Enter t mrs to reason now) id
  | OpPark reason now => after t (Park t reason now) id
  | OpRepark reason now => after t (Repark t reason now) id
  | OpMigrate reason now => after t (migrate t reason now) id
  | OpArmRetry now => after t (ArmRetry t now) id
  | OpRescheduleRetry now => after t (RescheduleRetry t now) id
  | OpResetRetryBudget => ResetRetryBudget t
  | OpExhaustRetry now => after t (ExhaustRetry t now) snd
  | OpStrandRetryLane now => after t (StrandRetryLane t now) snd
  | OpUpgradeDecline now => after t (UpgradeDeclineToOwnershipLost t now) snd
  | OpTakeover to now => after t (UnparkTakeover t to now) id
  | OpMaintainerComment bot now wall => after t (UnparkMaintainerComment t bot now wall) id
  | OpConsumeEvents bot now wall => ConsumeUnparkEvents t bot now wall
  | OpMRTerminal to reason => after t (UnparkForMRTerminal t to reason) id
  | OpCIRecovered now wall => after t (UnparkCIRecovered t now wall) id
  | OpRetiredPark now wall => after t (UnparkRetiredPark t now wall) id
  | OpUnpark issues mrs active max bot room now wall wall' =>
      snd (Unpark (mkUnparkInput t issues mrs active max bot room now) wall wall')
  | OpHeadMoved max => snd (HeadMoved t max)
  | OpCIRed mrs max => snd (CIRed t mrs max)
  | OpMergeConflict mrs max => snd (MergeConflict t mrs max)
  | OpReenterOnReview mrs now wall => snd (ReenterOnReviewChangesRequested t mrs now wall)
  | OpRecordRespawn => snd (RecordRespawn t)
  | OpPodLoss now => snd (ReArmAfterPodLoss t now)
  | OpFailPatch wall => MinimalFailPatch ReasonObjectTooLarge wall t
  end.

(** ** Everything else that writes to a Task *)

(** The part of a Task nothing but the operations above writes. *)
Record Core := mkCore {
  c_Kind : string;
  c_State : string;
  c_StateReason : string;
  c_ParkReason : string;
  c_ParkedAt : option Time;
  c_ParkedFrom : string;
  c_EnteredAt : option Time;
  c_RetryNextAt : option Time;
  c_MergeReentries : Z;
  c_DeployReentries : Z
}.

Definition core (t : Task) : Core :=
  let s := Status t in
  mkCore (Kind (Spec t)) (State s) (StateReason s) (ParkReason s) (ParkedAt s) (ParkedFromState s)
    (StateEnteredAt s) (RetryNextAt s) (MergeReentries s) (DeployReentries s).

(** The pod clocks, the turn annotations, the events, the notes and the counters of
    the other components may change in any way; the idle stamp is only moved. *)
Definition outside (t t' : Task) : Prop :=
  core t' = core t
  /\ (is_set (ConversationLastEventAt (Status t)) = true ->
      is_set (ConversationLastEventAt (Status t')) = true).

Inductive step (t : Task) : Task -> Prop :=
  | step_op o : step t (exec o t)
  | step_outside t' : outside t t' -> step t t'.

(** A Task is created with an empty status. *)
Definition created (t : Task) : Prop := Status t = zero_TaskStatus.

Definition reachable (t : Task) : Prop := exists t0, created t0 /\ rtc step t0 t.

(** ** Well-formed Tasks *)

Record wf (t : Task) : Prop := {
  wf_state : State (Status t) = ""%string \/ In (State (Status t)) AllStates;
  wf_entered : State (Status t) <> ""%string -> is_set (StateEnteredAt (Status t)) = true;
  wf_parked : ParkReason (Status t) <> ""%string ->
    In (ParkReason (Status t)) ParkReasons /\ is_set (ParkedAt (Status t)) = true
    /\ (ParkReason (Status t) = ReasonObjectTooLarge \/ ParkedFromState (Status t) = State (Status t));
  wf_unparked : ParkReason (Status t) = ""%string -> ParkedAt (Status t) = None;
  wf_retry : RetryNextAt (Status t) <> None ->
    UnparkClassFor (ParkReason (Status t)) = Some UnparkRetry
    \/ ParkReason (Status t) = ReasonObjectTooLarge;
  wf_rejected : State (Status t) = StateRejected -> In (StateReason (Status t)) RejectReasons;
  wf_done : State (Status t) = StateDone ->
    StateReason (Status t) = ""%string \/ In (StateReason (Status t)) DoneReasons;
  wf_review : Kind (Spec t) = kindReview ->
    ~ In (State (Status t)) [StateUnderImplementation; StateMerged; StateDeployed];
  wf_idle : Live (State (Status t)) = true ->
    is_set (ConversationLastEventAt (Status t)) = true;
  wf_merge : 0 <= MergeReentries (Status t) <= MaxMergeReentries;
  wf_deploy : 0 <= DeployReentries (Status t) <= MaxDeployReentries
}.

(** ** Lemmas *)

Lemma wf_created t : created t -> wf t.
Proof.
  intros H. split; rewrite H; cbn; try done; try (by left); try (intros _; by intros []).
  intros _. intros [?|[?|[?|[]]]]; discriminate.
Qed.

(** Whatever leaves the core and the idle stamp alone preserves well-formedness. *)
Lemma wf_outside t t' : outside t t' -> wf t -> wf t'.
Proof.
  unfold outside, core. intros [Hc Hi] [].
  injection Hc as Hk Hs Hr Hp Ha Hf He Hn Hm Hd.
  split; rewrite ?Hk, ?Hs, ?Hr, ?Hp, ?Ha, ?Hf, ?He, ?Hn, ?Hm, ?Hd; auto.
Qed.

#[export] Instance outside_preorder : PreOrder outside.
Proof.
  split; [done|]. intros t1 t2 t3 [H1 I1] [H2 I2]. split; [congruence|auto].
Qed.

#[export] Instance wf_outside_proper : Proper (outside ==> impl) wf.
Proof. intros t t' H Hw. exact (wf_outside t t' H Hw). Qed.

Lemma wf_stamp t to r now :
  wf t -> ParkReason (Status t) = ""%string -> In to AllStates ->
  (to = StateRejected -> In r RejectReasons) ->
  (to = StateDone -> r = ""%string \/ In r DoneReasons) ->
  (Kind (Spec t) = kindReview -> ~ In to [StateUnderImplementation; StateMerged; StateDeployed]) ->
  wf (stampEnter t to r now).
Proof.
  intros [] Hp Hto Hrej Hdone Hrev.
  split; unfold stampEnter; cbn -[In Live]; try assumption; try done; auto.
  intros H. by rewrite H.
Qed.

Lemma wf_clear t : wf t -> wf (clearPark t).
Proof. intros []. split; unfold clearPark; cbn -[In Live]; try assumption; done. Qed.

Lemma wf_park t r now t' : wf t -> Park t r now = Ok t' -> wf t'.
Proof.
  intros Hwf. unfold Park.
  destruct (IsParkReason r) eqn:Hr; [|done]. apply IsParkReason_In in Hr. cbn [negb].
  destruct (String.eqb_spec (ParkReason (Status t)) "") as [Hp|Hp]; cbn [negb]; [|by intros [= <-]].
  intros [= <-]. destruct Hwf.
  assert (RetryNextAt (Status t) = None) as Hn.
  { destruct (RetryNextAt (Status t)); [|done]. rewrite Hp in wf_retry0.
    by destruct (wf_retry0 ltac:(done)). }
  split; unfold on_status; cbn -[In Live]; destruct (StateEnteredAt (Status t)); cbn -[In Live];
    try assumption; try done; try (by rewrite Hn); auto.
  all: intros ->; apply IsParkReason_In in Hr; discriminate Hr.
Qed.

Lemma wf_repark t r now : wf t -> wf (repark t r now).
Proof.
  intros Hwf. unfold repark. destruct (Park (clearPark t) r now) eqn:E.
  - by apply (wf_park (clearPark t) r now); [apply wf_clear|].
  - by apply wf_clear.
Qed.

Lemma wf_rearm t now : wf t -> wf (reArm t now).
Proof.
  intros Hwf. apply wf_clear in Hwf. unfold reArm. revert Hwf. generalize (clearPark t). clear t.
  intros t []. split; cbn -[In Live]; try assumption; try done.
  intros H. by rewrite H.
Qed.

(** The writes below touch neither the state, the park nor the counters. *)
Ltac frame := apply wf_outside; split; [reflexivity|auto].

Lemma wf_reset t : wf t -> wf (ResetRetryBudget t).
Proof. intros []. split; unfold ResetRetryBudget; cbn -[In Live]; try assumption; done. Qed.

(** Scheduling the retry lane, which only its own park reasons do. *)
Lemma wf_schedule t at_ :
  wf t -> class_is (ParkReason (Status t)) UnparkRetry = true ->
  wf (on_status t (fun s => s <| RetryNextAt := at_ |>)).
Proof.
  intros [] Hc. apply class_spec in Hc.
  split; cbn -[In Live]; try assumption. by left.
Qed.

Lemma bump_in_range n : 0 <= n -> n < 3 -> 0 <= i64 (n + 1) <= 3.
Proof. intros H1 H2. rewrite i64_small; [lia|]. unfold in_i64, two63. lia. Qed.

Lemma wf_spends t t0 : spends t t0 -> wf t -> wf t0.
Proof.
  intros [|u H|u H|u H]; [done|by frame|..].
  all: intros []; split; cbn -[In Live]; try assumption;
    unfold MaxMergeReentries, MaxDeployReentries in *; apply bump_in_range; lia.
Qed.

Lemma wf_enter t mrs to r now : wf t -> wf (exec (OpEnter mrs to r now) t).
Proof.
  intros Hwf. unfold exec, after. destruct (Enter t mrs to r now) as [t'|] eqn:E; [|done].
  apply Enter_Ok in E as (Hp & Hps & Hl & Ha & Hq & ->).
  apply LegalFor_contract in Hl. pose proof (ec_table _ _ _ _ Hl) as Ht.
  apply reasonAllowedFor_spec in Ha.
  apply wf_stamp; try assumption.
  - by apply (legal_to_state _ _ Ht).
  - intros ->. destruct Ha as [Hr|Ha]; [by specialize (Hq Hr)|exact Ha].
  - intros ->. exact Ha.
  - intros Hk [H|[H|[H|[]]]]; destruct (ec_review_never_writes _ _ _ _ Hl Hk); try congruence.
    subst to. destruct (String.eqb_spec (State (Status t)) "") as [Hs|Hs];
      apply Legal_In in Ht; [discriminate Ht|].
    apply (wf_review t Hwf Hk).
    remember (State (Status t)) as from. remember StateDeployed as dest eqn:Ed.
    legal_cases Ht; try discriminate Ed. cbv. tauto.
Qed.

Lemma wf_arm t now : wf t -> wf (after t (ArmRetry t now) id).
Proof.
  intros Hwf. unfold ArmRetry. destruct (_ == ""); [done|].
  destruct (class_is _ UnparkRetry) eqn:Hc; [|done]. cbn [negb after id].
  cbv zeta. match goal with |- wf (on_status ?u _) => set (t1 := u) end.
  assert (wf t1 /\ ParkReason (Status t1) = ParkReason (Status t)) as [Hwf1 Hp].
  { unfold t1. destruct (_ != _); split; try done. revert Hwf. by frame. }
  rewrite <- Hp in Hc.
  apply (wf_outside (on_status t1 (fun s =>
    s <| RetryNextAt := Some (Add now (RetryWait (RetryAttempts (Status t1)))) |>))).
  - split; [reflexivity|auto].
  - by apply wf_schedule.
Qed.

Lemma wf_reschedule t now : wf t -> wf (after t (RescheduleRetry t now) id).
Proof.
  intros Hwf. unfold RescheduleRetry. destruct (_ == ""); [done|].
  destruct (class_is _ UnparkRetry) eqn:Hc; [|done].
  exact (wf_schedule t (Some (Add now (RetryWait (i64 (RetryAttempts (Status t) - 1))))) Hwf Hc).
Qed.

Lemma wf_migrate t r now : wf t -> wf (after t (migrate t r now) id).
Proof.
  intros Hwf. unfold migrate, Repark. destruct (_ == ""); [done|].
  destruct (IsParkReason r); [|done]. cbn [negb after id].
  destruct (repark_frame t r now) as (Hs & _).
  pose proof (wf_repark t r now Hwf) as Hwf'. destruct Hwf'.
  split; cbn -[In Live]; try assumption.
  rewrite Hs. apply (wf_entered t Hwf).
Qed.

Lemma wf_upgrade_decline t now : wf t -> wf (after t (UpgradeDeclineToOwnershipLost t now) snd).
Proof.
  intros Hwf. unfold UpgradeDeclineToOwnershipLost. destruct (_ != _); [done|].
  destruct (_ == ReasonOwnershipLost); [done|].
  destruct (String.eqb_spec (ParkReason (Status t)) ReasonImplementDeclined) as [Hp|]; [|done].
  cbn [negb after snd]. destruct Hwf.
  split; cbn -[In Live]; try assumption; try done.
  - intros _. split; [by apply IsParkReason_In|]. split; [done|]. right.
    rewrite Hp in wf_parked0. by destruct (wf_parked0 ltac:(done)) as (_ & _ & [?|?]).
  - intros H. apply wf_retry0 in H as [H|H]; rewrite Hp in H; discriminate H.
Qed.

Lemma wf_takeover t to now : wf t -> wf (after t (UnparkTakeover t to now) id).
Proof.
  intros Hwf. unfold UnparkTakeover. destruct (_ != _); [done|].
  destruct (in_set takeoverTargets to) eqn:Ht; [|done]. cbn [negb].
  destruct (String.eqb_spec (Kind (Spec t)) kindReview) as [|Hk]; [done|]. cbn [after id].
  apply wf_stamp; [by apply wf_clear|reflexivity|..].
  - apply in_set_In in Ht. unfold takeoverTargets in Ht.
    in_cases Ht; apply str_mem_In; reflexivity.
  - intros ->. discriminate Ht.
  - intros ->. discriminate Ht.
  - intros H. by destruct Hk.
Qed.

Lemma wf_maintainer t bot now wall :
  wf t -> wf (after t (UnparkMaintainerComment t bot now wall) id).
Proof.
  intros Hwf. unfold UnparkMaintainerComment. destruct (_ == ""); [done|].
  destruct (_ || _); [|done]. destruct (IsMergeStagePark _); [done|]. cbn [negb after id].
  apply (wf_outside (ResetRetryBudget (on_status (clearPark t) (fun s =>
    s <| StateEnteredAt := Some (now_or now wall) |>)))); [split; [reflexivity|auto]|].
  apply wf_reset. apply wf_clear in Hwf. destruct Hwf.
  split; cbn -[In Live]; try assumption; done.
Qed.

Lemma wf_unpark inp wall wall' : wf (in_Task inp) -> wf (snd (Unpark inp wall wall')).
Proof.
  intros Hwf. destruct (Unpark_answer inp wall wall') as (t1 & Ha & ->).
  assert (wf t1) as Hwf1.
  { inversion Ha as [d Hd E|r Hr E|t0 Hs E]; subst; [done|by apply wf_repark|].
    apply wf_rearm. by apply (wf_spends (in_Task inp)). }
  destruct (_ == _); [|done]. unfold launder. destruct (class_is _ _); [|done].
  apply wf_reset. revert Hwf1. by frame.
Qed.

Lemma wf_reenter t mrs now wall : wf t -> wf (snd (ReenterOnReviewChangesRequested t mrs now wall)).
Proof.
  intros Hwf. unfold ReenterOnReviewChangesRequested, reenterParkedOnReview, enterFreshImplementing.
  assert (forall u, wf u -> wf (zero_reentries u)) as Hz.
  { intros u []. split; unfold zero_reentries; cbn -[In Live]; try assumption.
    unfold MaxMergeReentries. lia. }
  destruct (_ != "").
  - destruct (_ == ReasonMergeTimeout).
    { destruct (MaxMergeReentries <=? MergeReentries (Status t)) eqn:E; [done|].
      apply wf_rearm. apply (wf_spends t); [|done]. constructor. by apply Z.leb_gt. }
    destruct (_ == ReasonNoOutcome); [|done].
    destruct (anyMerged mrs); [done|]. by apply Hz, wf_rearm.
  - destruct (_ || _); [|done].
    pose proof (wf_enter t mrs StateUnderImplementation "" (now_or now wall) Hwf) as He.
    unfold exec, after in He. destruct (Enter _ _ _ _ _); [|done]. by apply Hz.
Qed.

Lemma wf_apply o t : wf t -> wf (exec o t).
Proof.
  intros Hwf. destruct o; unfold exec.
  - by apply wf_enter.
  - unfold after. destruct (Park t reason now) eqn:E; [|done]. by apply (wf_park t reason now).
  - unfold Repark, after. destruct (_ == ""); [done|]. destruct (negb _); [done|]. by apply wf_repark.
  - by apply wf_migrate.
  - by apply wf_arm.
  - by apply wf_reschedule.
  - by apply wf_reset.
  - unfold ExhaustRetry, after. destruct (_ == ""); [done|].
    destruct (negb _); [done|]. by apply wf_repark.
  - unfold StrandRetryLane, after. destruct (negb _); [done|]. by apply wf_repark.
  - by apply wf_upgrade_decline.
  - by apply wf_takeover.
  - by apply wf_maintainer.
  - revert Hwf. by frame.
  - unfold UnparkForMRTerminal, after. destruct (_ == ""); [done|].
    destruct (negb _); [done|]. destruct (negb _); [done|]. by apply wf_clear.
  - unfold UnparkCIRecovered, after. destruct (_ && _); [done|].
    destruct (_ == _); [done|]. by apply wf_rearm.
  - unfold UnparkRetiredPark, after. destruct (negb _); [done|]. by apply wf_rearm.
  - by apply (wf_unpark (mkUnparkInput t issues mrs active max bot room now)).
  - unfold HeadMoved. destruct (_ <=? _); [done|]. revert Hwf. by frame.
  - unfold CIRed. destruct (_ == _); [done|]. destruct (anyMerged _); [done|].
    destruct (_ <=? _); [done|]. revert Hwf. by frame.
  - unfold MergeConflict. destruct (_ == _); [done|]. destruct (anyMerged _); [done|].
    destruct (_ <=? _); [done|]. revert Hwf. by frame.
  - by apply wf_reenter.
  - revert Hwf. by frame.
  - destruct Hwf. split; cbn -[In Live]; try assumption; done.
  - destruct Hwf. split; cbn -[In Live]; try assumption; try done.
    + intros _. split; [by apply IsParkReason_In|]. split; [done|by left].
    + intros _. by right.
Qed.

Lemma wf_step t t' : step t t' -> wf t -> wf t'.
Proof. intros [o|t1 H] Hwf; [by apply wf_apply|by apply (wf_outside t)]. Qed.

Lemma wf_reachable t : reachable t -> wf t.
Proof.
  intros (t0 & H0 & Hs). apply wf_created in H0.
  induction Hs as [|t0 t1 t2 H _ IH]; [done|]. apply IH. by apply (wf_step t0).
Qed.

(** Parking, un-parking and every other operation but two leave the state alone. *)
Lemma exec_moves o t :
  State (Status (exec o t)) <> State (Status t) ->
  (exists mrs to r now, is_ok (Enter t mrs to r now) = true /\ State (Status (exec o t)) = to)
  \/ (exists to now, is_ok (UnparkTakeover t to now) = true /\ State (Status (exec o t)) = to).
Proof.
  destruct o; unfold exec; intros Hm; try (by destruct Hm).
  - left. unfold after in *. destruct (Enter t mrs to reason now) as [t'|] eqn:E; [|done].
    exists mrs, to, reason, now. split; [by rewrite E|].
    apply Enter_Ok in E as (_ & _ & _ & _ & _ & ->). reflexivity.
  - destruct Hm. unfold after, Park. destruct (negb _); [done|]. destruct (_ != _); [done|].
    cbn. by destruct (StateEnteredAt (Status t)).
  - destruct Hm. unfold after, Repark. destruct (_ == ""); [done|]. destruct (negb _); [done|].
    apply repark_frame.
  - destruct Hm. unfold after, migrate, Repark. destruct (_ == ""); [done|].
    destruct (negb _); [done|]. apply repark_frame.
  - destruct Hm. unfold after, ArmRetry. destruct (_ == ""); [done|]. destruct (negb _); [done|].
    cbn. by destruct (_ != _).
  - destruct Hm. unfold after, RescheduleRetry. destruct (_ == ""); [done|]. by destruct (negb _).
  - destruct Hm. unfold after, ExhaustRetry. destruct (_ == ""); [done|].
    destruct (negb _); [done|]. apply repark_frame.
  - destruct Hm. unfold after, StrandRetryLane. destruct (negb _); [done|]. apply repark_frame.
  - destruct Hm. unfold after, UpgradeDeclineToOwnershipLost. destruct (_ != _); [done|].
    destruct (_ == _); [done|]. by destruct (_ != _).
  - right. exists to, now. unfold after in *. destruct (UnparkTakeover t to now) as [t'|] eqn:E; [|done].
    split; [done|]. unfold UnparkTakeover in E. destruct (_ != _); [done|].
    destruct (negb _); [done|]. destruct (_ == _); [done|]. by injection E as <-.
  - destruct Hm. unfold after, UnparkMaintainerComment. destruct (_ == ""); [done|].
    destruct (negb _); [done|]. by destruct (IsMergeStagePark _).
  - destruct Hm. unfold after, UnparkForMRTerminal. destruct (_ == ""); [done|].
    destruct (negb _); [done|]. by destruct (negb _).
  - destruct Hm. unfold after, UnparkCIRecovered. destruct (_ && _); [done|]. by destruct (_ == _).
  - destruct Hm. unfold after, UnparkRetiredPark. by destruct (negb _).
  - destruct Hm.
    destruct (Unpark_answer (mkUnparkInput t issues mrs active max bot room now) wall wall')
      as (t1 & Ha & ->).
    assert (State (Status t1) = State (Status t)) as H1.
    { inversion Ha as [d Hd E|r Hr E|t0 Hs E]; subst; [done|apply repark_frame|].
      apply (spends_frame _ _ Hs). }
    destruct (_ == DeclineNone); [|done]. unfold launder. by destruct (class_is _ _).
  - destruct Hm. unfold HeadMoved. by destruct (_ <=? _).
  - destruct Hm. unfold CIRed. destruct (_ == _); [done|]. destruct (anyMerged _); [done|].
    by destruct (_ <=? _).
  - destruct Hm. unfold MergeConflict. destruct (_ == _); [done|]. destruct (anyMerged _); [done|].
    by destruct (_ <=? _).
  - unfold ReenterOnReviewChangesRequested, reenterParkedOnReview, enterFreshImplementing in *.
    destruct (_ != "").
    + destruct Hm. destruct (_ == ReasonMergeTimeout); [by destruct (_ <=? _)|].
      destruct (_ == ReasonNoOutcome); [|done]. by destruct (anyMerged mrs).
    + destruct (_ || _); [|done]. left.
      destruct (Enter _ _ _ _ _) as [t'|] eqn:E; [|done].
      exists mrs, StateUnderImplementation, ""%string, (now_or now wall). split; [by rewrite E|].
      apply Enter_Ok in E as (_ & _ & _ & _ & _ & ->). reflexivity.
Qed.

(** ** Properties *)



(** C4: no reachable Task is stuck without a timer.  A Task in a state of the enum
    always has an instant after which a clock fires, with three exceptions: a backlog
    park, which waits for a human or for capacity; a live Task whose agent's turn is
    in flight; nothing else (while admission is not paused).  A parked Task's clock
    reaps it seven days after the park. *)
Theorem reachable_task_has_a_clock t :
  reachable t -> State (Status t) <> ""%string ->
  if ParkReason (Status t) == "" then
    (Live (State (Status t)) = true /\ turnInFlight t = true
     /\ is_set (PodStartedAt (Status t)) = true /\ is_set (StateWorkStartedAt (Status t)) = true)
    \/ exists e deadline, forall now, deadline < now -> Elapsed t false now = Some e
  else
    ParkReason (Status t) = ReasonBacklogSweep
    \/ exists at_, ParkedAt (Status t) = Some at_
       /\ forall now, Elapsed t false now =
            (if at_ + 7 * 24 * Hour <? now then Some (mkEdge Reap "") else None).
Proof.
  intros Hr Hs. apply wf_reachable in Hr.
  destruct (String.eqb_spec (ParkReason (Status t)) "") as [Hp|Hp].
  - destruct (wf_state t Hr) as [?|Hin]; [done|].
    pose proof (unparked_clock_none t Hin (wf_entered t Hr Hs)) as Hn.
    assert (ArmedClock t false = ArmedClock_unparked t false) as Ha.
    { unfold ArmedClock. by rewrite Hp. }
    destruct (String.eqb_spec (ck_clock (ArmedClock t false)) ClockNone) as [E|E].
    + left. rewrite Ha in E. apply Hn in E as (Hl & Hpod & Hw & [Ht|Hc]); [auto|].
      apply (wf_idle t Hr) in Hl. by rewrite Hc in Hl.
    + right. eexists _, _. intros now Hd. rewrite Elapsed_closed. cbv zeta.
      rewrite (str_neq_eqb _ _ E). apply Z.leb_gt in Hd. by rewrite Hd.
  - destruct (String.eqb_spec (ParkReason (Status t)) ReasonBacklogSweep) as [|Hb]; [by left|right].
    destruct (wf_parked t Hr Hp) as (_ & Hat & _).
    destruct (ParkedAt (Status t)) as [at_|] eqn:Eat; [|done]. exists at_. split; [done|].
    intros now. rewrite Elapsed_closed. unfold ArmedClock.
    rewrite (str_neq_eqb _ _ Hp), (str_neq_eqb _ _ Hb), Eat. cbn.
    rewrite Z.ltb_antisym. unfold ParkRetention. by destruct (_ <=? _).
Qed.

(** ** Witnesses *)

Lemma reachable_created : reachable (fresh_task AgentImplement).
Proof. exists (fresh_task AgentImplement). split; [reflexivity|constructor]. Qed.



Lemma reachable_task_has_a_clock_witness :
  exists e deadline, forall now, deadline < now ->
    Elapsed (exec (OpEnter [] StateNew "" 1) (fresh_task AgentImplement)) false now = Some e.
Proof.
  assert (reachable (exec (OpEnter [] StateNew "" 1) (fresh_task AgentImplement))) as Hr.
  { exists (fresh_task AgentImplement). split; [reflexivity|]. apply rtc_once. constructor. }
  destruct (reachable_task_has_a_clock _ Hr) as [(H & _)|H]; [discriminate|discriminate H|exact H].
Defined.
