(* ===== verification/Transition.v ===== *)
(** * The two choke points every transition and every park goes through
    (internal/controller/transition.go, with the wrapper and workspace teardown of
    internal/agent/wrapper.go and task_workspace.go, and the annotations a park
    retires in turn_annotations.go). *)

From stdpp Require Import relations.
From Stdlib Require Import String.
From S2P Require Import Prelude GoTime Api Vocabulary Machine Park ObjBudget Lifecycle.

Open Scope Z_scope.
Open Scope go_scope.

(** ** What the choke points do to the outside, in order *)

Inductive Effect :=
  | Fit (e : FitEffect Task Note)
  | DeletePod | DeleteService | DeletePVC
  | ReleaseIssues
  | UpdateMeta (t : Task)
  | CountIllegal (from to : string)
  | CountRaceLost (from to : string)
  | CountReleaseError (to : string)
  | CountTerminal (kind to reason : string)
  | CountTokens (project repo outcome model : string) (input output cacheRead cacheCreation : Z)
  | CountParked (state reason : string)
  | CountDeclineUpgraded.

Inductive TransitionError :=
  | WriteError (e : FitError)
  | EnterError (e : StageError)
  | MemoryError (e : StageError)
  | TeardownError
  | MetaError (e : FitError)
  | NotAMint (state : string).

(** A call answers an error or nil, leaves the caller's copy of the Task as it has
    mutated it, and has had effects. *)
Record Outcome := mkOutcome {
  o_err : option TransitionError;
  o_task : Task;
  o_effects : list Effect
}.

(** The answer of the API server to a Delete. *)
Inductive DeleteAnswer := Deleted | NotFound | DeleteFailed.

(** What the outside answers to one call: the size of an object, the spiller, the
    reads and writes of the Task, the deletes, and the reads and writes of each of
    the two annotation patches of a park. *)
Record World := mkWorld {
  w_sizeOf : Task -> option Z;
  w_spiller : option (Spiller Note);
  w_reads : list (GetAnswer Task);
  w_attempts : list (Attempt Task);
  w_pod : DeleteAnswer;
  w_service : DeleteAnswer;
  w_pvc : DeleteAnswer;
  w_turn : list (Attempt Task);
  w_decline : list (Attempt Task)
}.

(** The options of a transition: the terminal releaser, as its answer for a Task, and
    the mr-terminal un-park. *)
Record enterOpts := mkEnterOpts { terminal : option (Task -> bool); mrTerminal : bool }.

Definition no_opts : enterOpts := mkEnterOpts None false.

Definition WithParkClearedForMRTerminal (o : enterOpts) : enterOpts :=
  mkEnterOpts (terminal o) true.

Definition WithTerminalIssueRelease (tr : option (Task -> bool)) (o : enterOpts) : enterOpts :=
  mkEnterOpts tr (mrTerminal o).

(** ** Teardown *)

Definition delete_failed (a : DeleteAnswer) : bool :=
  match a with DeleteFailed => true | _ => false end.

Definition DeleteWrapper (w : World) : bool * list Effect :=
  if delete_failed (w_pod w) then (false, [DeletePod])
  else if delete_failed (w_service w) then (false, [DeletePod; DeleteService])
  else (true, [DeletePod; DeleteService]).

Definition deleteWorkspacePVC (w : World) : bool * list Effect :=
  (negb (delete_failed (w_pvc w)), [DeletePVC]).

Definition releaseTerminalIssues (eo : enterOpts) (t : Task) (to : string) : list Effect :=
  match terminal eo with
  | None => []
  | Some release =>
      if negb (TaskIsTerminalOutcome to) then []
      else if release t then [ReleaseIssues]
      else [ReleaseIssues; CountReleaseError to]
  end.

(** ** Metrics: [m] is whether the collector is wired. *)

Definition TaskTerminalEntry (m : bool) (kind from to reason : string) : list Effect :=
  if negb m then []
  else if (from == "") || negb (TaskIsTerminalOutcome to) then []
  else [CountTerminal kind to reason].

Definition emitTerminalTokens (m : bool) (t : Task) (prev to : string) : list Effect :=
  if negb m || (prev == "") || negb (TaskIsTerminalOutcome to) then []
  else
    let s := Stats (Status t) in
    [CountTokens (ProjectRef (Spec t)) (RepositoryRef (Spec t)) to (ResolvedModel (Status t))
       (TokensInput s) (TokensOutput s) (TokensCacheRead s) (TokensCacheCreation s)].

Definition TaskParked (m : bool) (state reason : string) : list Effect :=
  if negb m then [] else [CountParked state reason].

(** ** The transition *)

Definition run_mutate (mutate : option (Task -> Task)) (t : Task) : Task :=
  match mutate with Some f => f t | None => t end.

(** The un-park the mr-terminal option arms. *)
Definition armedUnpark (eo : enterOpts) (t : Task) (to reason : string) : result StageError Task :=
  if mrTerminal eo then UnparkForMRTerminal t to reason else Ok t.

(** The mutation, run on every fresh read and at the end on the caller's own copy:
    the Task it leaves and the error it stopped at. *)
Definition enterClosure (mrs : list MergeRequest) (to reason parkReason : string) (now : Time)
    (mutate : option (Task -> Task)) (eo : enterOpts) (t : Task) : Task * option StageError :=
  let t := run_mutate mutate t in
  match armedUnpark eo t to reason with
  | Err e => (t, Some e)
  | Ok t =>
      match Enter t mrs to reason now with
      | Err e => (t, Some e)
      | Ok t =>
          if parkReason == "" then (t, None)
          else match Park t parkReason now with
               | Err e => (t, Some e)
               | Ok t => (t, None)
               end
      end
  end.

(** The captured error variable holds that of the closure's last run. *)
Definition captured (closure : Task -> Task * option StageError) (attempts : list (Attempt Task))
  : option StageError :=
  match last_read attempts with Some fresh => snd (closure fresh) | None => None end.

(** A closure that failed on the fresh read: dropped when the Task is parked there,
    when it is already at [to], or when the edge is illegal only from the state it
    has now; an error otherwise. *)
Definition refused (from to : string) (task : Task) (e : StageError) : Outcome :=
  match e with
  | StillParked state _ => mkOutcome None task [CountRaceLost state to]
  | IllegalTransition f t =>
      if f == t then mkOutcome None task []
      else if f != from then mkOutcome None task [CountRaceLost f t]
      else mkOutcome (Some (EnterError e)) task [CountIllegal f t]
  | _ => mkOutcome (Some (EnterError e)) task []
  end.

(** What follows the write, on the caller's copy that has made the transition. *)
Definition settle (w : World) (m leavingPodStage : bool) (prev to reason parkReason : string)
    (eo : enterOpts) (task : Task) : Outcome :=
  let '(ok1, e1) :=
    if leavingPodStage || (parkReason != "") then DeleteWrapper w else (true, []) in
  if negb ok1 then mkOutcome (Some TeardownError) task e1
  else
    let '(ok2, e2) := if TaskIsTerminalOutcome to then deleteWorkspacePVC w else (true, []) in
    if negb ok2 then mkOutcome (Some TeardownError) task (e1 ++ e2)
    else mkOutcome None task
           (e1 ++ e2 ++ releaseTerminalIssues eo task to
            ++ TaskTerminalEntry m (Kind (Spec task)) prev to reason
            ++ emitTerminalTokens m task prev to).

(** Effects that happened before. *)
Definition after_effects (before : list Effect) (o : Outcome) : Outcome :=
  mkOutcome (o_err o) (o_task o) (before ++ o_effects o).

Definition enterStage (w : World) (m : bool) (task : Task) (mrs : list MergeRequest)
    (to reason parkReason : string) (now : Time) (mutate : option (Task -> Task)) (eo : enterOpts)
  : Outcome :=
  let prev := State (Status task) in
  let from := if prev == "" then Create else prev in
  if to == from then mkOutcome None task []
  else if negb (LegalFor (Some task) mrs from to) then
    mkOutcome (Some (EnterError (IllegalTransition from to))) task [CountIllegal from to]
  else
    let leavingPodStage := AgentKindFor prev (Kind (Spec task)) != "" in
    let closure := enterClosure mrs to reason parkReason now mutate eo in
    let '(r, fit) := FitTask (w_sizeOf w) (w_spiller w) false (w_reads w)
                       (fun t => fst (closure t)) (w_attempts w) in
    after_effects (map Fit fit)
      match r with
      | Err e => mkOutcome (Some (WriteError e)) task []
      | Ok _ =>
          match captured closure (w_attempts w) with
          | Some e => refused from to task e
          | None =>
              match closure task with
              | (task', Some e) => mkOutcome (Some (MemoryError e)) task' []
              | (task', None) => settle w m leavingPodStage prev to reason parkReason eo task'
              end
          end
      end.

Definition EnterStage (w : World) (m : bool) (task : Task) (mrs : list MergeRequest)
    (to reason : string) (now : Time) (mutate : option (Task -> Task)) (eo : enterOpts) : Outcome :=
  enterStage w m task mrs to reason "" now mutate eo.

Definition MintParked (w : World) (m : bool) (task : Task) (to parkReason : string) (now : Time)
  : Outcome :=
  if State (Status task) != "" then mkOutcome (Some (NotAMint (State (Status task)))) task []
  else if negb (IsParkReason parkReason) then
    mkOutcome (Some (EnterError (UnknownReason parkReason))) task []
  else enterStage w m task [] to "" parkReason now None no_opts.

(** ** Annotations: a read, a change and an Update, retried on conflict *)

(** Drops the keys, or reports that none of them is there. *)
Definition drop_annotations (keys : list string) (t : Task) : option Task :=
  if existsb (fun k => is_set (Annotations t !! k)) keys
  then Some (t <| Annotations ::= fun a => fold_left (fun a k => delete k a) keys a |>)
  else None.

Definition turnAnnotations : list string :=
  [AnnCurrentTurn; AnnTurnStartedAt; AnnTurnLastActivity; AnnTurnComplete;
   AnnStallProbeID; AnnStallProbeAt; AnnStallProbeAttempts].

Definition taskCarriesTurnAnnotations (t : Task) : bool :=
  existsb (fun k => is_set (Annotations t !! k)) turnAnnotations.

Fixpoint patch_attempts (task : Task) (mutate : Task -> option Task) (attempts : list (Attempt Task))
  : Outcome :=
  match attempts with
  | [] => mkOutcome (Some (MetaError ConflictsExhausted)) task []
  | a :: attempts' =>
      match at_fresh a with
      | None => mkOutcome (Some (MetaError GetFailed)) task []
      | Some fresh =>
          match mutate fresh with
          | None => mkOutcome None fresh []
          | Some fresh =>
              match at_answer a with
              | UpdateOk => mkOutcome None fresh [UpdateMeta fresh]
              | UpdateError => mkOutcome (Some (MetaError UpdateRefused)) task []
              | UpdateConflict => patch_attempts task mutate attempts'
              end
          end
      end
  end.

Definition patchTaskAnnotations (task : Task) (mutate : Task -> option Task)
    (attempts : list (Attempt Task)) : Outcome := patch_attempts task mutate (firstn 5 attempts).

Definition clearTurnAnnotations (w : World) (task : Task) : Outcome :=
  patchTaskAnnotations task (drop_annotations turnAnnotations) (w_turn w).

Definition clearDeclineCIAnnotations (w : World) (task : Task) : Outcome :=
  patchTaskAnnotations task (drop_annotations [AnnDeclineCI; AnnDeclineHeads]) (w_decline w).

(** ** The park *)

Definition parkClosure (reason : string) (now : Time) (mutate : option (Task -> Task)) (t : Task)
  : Task * option StageError :=
  let t := run_mutate mutate t in
  match Park t reason now with Err e => (t, Some e) | Ok t => (t, None) end.

(** Continues when there was no error. *)
Definition andThen (o : Outcome) (k : Task -> Outcome) : Outcome :=
  match o_err o with
  | Some _ => o
  | None => after_effects (o_effects o) (k (o_task o))
  end.

Definition ParkTask (w : World) (m : bool) (task : Task) (reason : string) (now : Time)
    (mutate : option (Task -> Task)) : Outcome :=
  if negb (IsParkReason reason) then
    mkOutcome (Some (EnterError (UnknownReason reason))) task []
  else if Parked task then mkOutcome None task []
  else
    let from := State (Status task) in
    let closure := parkClosure reason now mutate in
    let '(r, fit) := FitTask (w_sizeOf w) (w_spiller w) false (w_reads w)
                       (fun t => fst (closure t)) (w_attempts w) in
    after_effects (map Fit fit)
      match r with
      | Err e => mkOutcome (Some (WriteError e)) task []
      | Ok _ =>
          match captured closure (w_attempts w) with
          | Some e => mkOutcome (Some (EnterError e)) task []
          | None =>
              match closure task with
              | (task', Some e) => mkOutcome (Some (MemoryError e)) task' []
              | (task', None) =>
                  let '(ok, es) := DeleteWrapper w in
                  if negb ok then mkOutcome (Some TeardownError) task' es
                  else after_effects es
                         (andThen (clearTurnAnnotations w task') (fun t =>
                          andThen (clearDeclineCIAnnotations w t) (fun t =>
                          mkOutcome None t (TaskParked m from reason))))
              end
          end
      end.

Definition upgradeClosure (now : Time) (t : Task) : Task * option StageError :=
  match UpgradeDeclineToOwnershipLost t now with
  | Err e => (t, Some e)
  | Ok (_, t) => (t, None)
  end.

(** Whether the last run of the closure changed anything. *)
Definition upgrade_changed (now : Time) (attempts : list (Attempt Task)) : bool :=
  match last_read attempts with
  | Some fresh => match UpgradeDeclineToOwnershipLost fresh now with Ok (b, _) => b | Err _ => false end
  | None => false
  end.

Definition UpgradeDeclinedTakeoverPark (w : World) (task : Task) (now : Time) : Outcome :=
  match UpgradeDeclineToOwnershipLost task now with
  | Err e => mkOutcome (Some (EnterError e)) task []
  | Ok _ =>
      let '(r, fit) := FitTask (w_sizeOf w) (w_spiller w) false (w_reads w)
                         (fun t => fst (upgradeClosure now t)) (w_attempts w) in
      after_effects (map Fit fit)
        match r with
        | Err e => mkOutcome (Some (WriteError e)) task []
        | Ok _ =>
            match captured (upgradeClosure now) (w_attempts w) with
            | Some e => mkOutcome (Some (EnterError e)) task []
            | None =>
                if negb (upgrade_changed now (w_attempts w)) then mkOutcome None task []
                else match upgradeClosure now task with
                     | (task', Some e) => mkOutcome (Some (MemoryError e)) task' []
                     | (task', None) => mkOutcome None task' [CountDeclineUpgraded]
                     end
            end
        end
  end.

(** ** The task reconciler's bindings *)

Definition enter (w : World) (m : bool) (release : Task -> bool) (task : Task)
    (mrs : list MergeRequest) (to reason : string) (now : Time) : Outcome :=
  EnterStage w m task mrs to reason now None (WithTerminalIssueRelease (Some release) no_opts).

Definition park (w : World) (m : bool) (task : Task) (reason : string) (now : Time) : Outcome :=
  ParkTask w m task reason now None.

Definition enterParkedAtMint (w : World) (m : bool) (task : Task) (to parkReason : string)
    (now : Time) : Outcome := MintParked w m task to parkReason now.

(** ** Calls *)

(** A call of one of the choke points. *)
Inductive call :=
  | CallEnter (mrs : list MergeRequest) (to reason : string) (now : Time)
              (mutate : option (Task -> Task)) (eo : enterOpts)
  | CallMint (to parkReason : string) (now : Time)
  | CallPark (reason : string) (now : Time) (mutate : option (Task -> Task))
  | CallUpgrade (now : Time).

Definition run (w : World) (m : bool) (task : Task) (c : call) : Outcome :=
  match c with
  | CallEnter mrs to reason now mutate eo => EnterStage w m task mrs to reason now mutate eo
  | CallMint to parkReason now => MintParked w m task to parkReason now
  | CallPark reason now mutate => ParkTask w m task reason now mutate
  | CallUpgrade now => UpgradeDeclinedTakeoverPark w task now
  end.

(** A caller's [mutate] writes what the package does not own, the caller's counters, and
    may run operations of the package, as the reset of the retry budget is; it moves
    neither the state nor the park. *)
Definition transparent (mutate : option (Task -> Task)) : Prop :=
  forall t, let t' := run_mutate mutate t in
  rtc step t t' /\ State (Status t') = State (Status t) /\ ParkReason (Status t') = ParkReason (Status t)
  /\ Kind (Spec t') = Kind (Spec t).

Definition call_transparent (c : call) : Prop :=
  match c with
  | CallEnter _ _ _ _ mutate _ | CallPark _ _ mutate => transparent mutate
  | _ => True
  end.

(** The status writes among the effects. *)
Definition update_of (e : Effect) : option Task :=
  match e with Fit (Updated t) => Some t | _ => None end.

Definition updates (l : list Effect) : list Task := omap update_of l.

(** The state the edge into [to] is checked from. *)
Definition from_of (t : Task) : string :=
  if State (Status t) == "" then Create else State (Status t).

(** ** Vocabulary of the lemmas and the witnesses *)

(** A transition that reaches the API server: the guarded write either fails, or
    commits the closure's result on the last read and goes on from what the closure
    answered there. *)
Definition wrote (w : World) (closure : Task -> Task * option StageError)
    (k : option StageError -> Outcome) (o : Outcome) : Prop :=
  (exists e fit, updates (map Fit fit) = [] /\ o_err o = Some (WriteError e)
                 /\ o_effects o = map Fit fit)
  \/ (exists fresh t' fit,
        last_read (w_attempts w) = Some fresh
        /\ In (mkAttempt (Some fresh) UpdateOk) (w_attempts w) /\ trimmed (fst (closure fresh)) t'
        /\ updates (map Fit fit) = [t'] /\ o = after_effects (map Fit fit) (k (snd (closure fresh)))).

(** The continuation of a transition's write. *)
Definition enter_then (w : World) (m : bool) (task : Task) (to reason parkReason : string)
    (eo : enterOpts) (closure : Task -> Task * option StageError) (captured : option StageError)
  : Outcome :=
  match captured with
  | Some e => refused (from_of task) to task e
  | None =>
      match closure task with
      | (task', Some e) => mkOutcome (Some (MemoryError e)) task' []
      | (task', None) =>
          settle w m (AgentKindFor (State (Status task)) (Kind (Spec task)) != "")
            (State (Status task)) to reason parkReason eo task'
      end
  end.

(** What lets a transition proceed on a parked Task. *)
Definition unpark_armed (eo : enterOpts) (to reason : string) : Prop :=
  mrTerminal eo = true /\ TaskIsTerminalOutcome to = true /\ in_set mrTerminalReasons reason = true.

(** What a closure that went through has done to the Task it read. *)
Record entered (mrs : list MergeRequest) (to reason pr : string) (now : Time) (eo : enterOpts)
    (t t' : Task) : Prop := {
  en_state : State (Status t') = to;
  en_in : In to AllStates;
  en_edge : edge_contract t' mrs (from_of t) to;
  en_park : ParkReason (Status t') = pr;
  en_parked : pr <> ""%string ->
    In pr ParkReasons /\ ParkedAt (Status t') = Some now /\ ParkedFromState (Status t') = to;
  en_unparked : ParkReason (Status t) = ""%string \/ unpark_armed eo to reason
}.

(** The continuations of a park's and of an upgrade's write. *)
Definition park_then (w : World) (m : bool) (task : Task) (reason : string)
    (closure : Task -> Task * option StageError) (captured : option StageError) : Outcome :=
  match captured with
  | Some e => mkOutcome (Some (EnterError e)) task []
  | None =>
      match closure task with
      | (task', Some e) => mkOutcome (Some (MemoryError e)) task' []
      | (task', None) =>
          let '(ok, es) := DeleteWrapper w in
          if negb ok then mkOutcome (Some TeardownError) task' es
          else after_effects es
                 (andThen (clearTurnAnnotations w task') (fun t =>
                  andThen (clearDeclineCIAnnotations w t) (fun t =>
                  mkOutcome None t (TaskParked m (State (Status task)) reason))))
      end
  end.

Definition upgrade_then (w : World) (task : Task) (now : Time) (captured : option StageError)
  : Outcome :=
  match captured with
  | Some e => mkOutcome (Some (EnterError e)) task []
  | None =>
      if negb (upgrade_changed now (w_attempts w)) then mkOutcome None task []
      else match upgradeClosure now task with
           | (task', Some e) => mkOutcome (Some (MemoryError e)) task' []
           | (task', None) => mkOutcome None task' [CountDeclineUpgraded]
           end
  end.

(** The effects only a terminal entry has, and those only an outcome has. *)
Definition terminal_effect (e : Effect) : bool :=
  match e with
  | DeletePVC | ReleaseIssues | CountReleaseError _ | CountTerminal _ _ _
  | CountTokens _ _ _ _ _ _ _ _ => true
  | _ => false
  end.

Definition outcome_effect (e : Effect) : bool :=
  match e with CountTerminal _ _ _ | CountTokens _ _ _ _ _ _ _ _ => true | _ => false end.

(** An outside in which every call succeeds and every read is [t]. *)
Definition calm (t : Task) : World :=
  let once := [mkAttempt (Some t) UpdateOk] in
  mkWorld (fun _ => Some 100) None [Found t] once Deleted Deleted Deleted once once.

Definition at_state (kind state reason : string) : Task :=
  on_status (fresh_task kind) (fun s => s <| State := state |> <| StateEnteredAt := Some 1 |>
                                          <| ParkReason := reason |>).

(** A review Task whose merge requests were merged while it was parked: the caller
    saw it awaiting review, the write finds it refined, and un-parks it there. *)
Definition stale_review : Task := at_state kindReview StateAwaitingReview ReasonAwaitingHuman.
Definition raced_review : Task := at_state kindReview StateRefined ReasonAwaitingHuman.
Definition unparked_review : Task :=
  trim_task false 0 "" false (run_mutate None (clearPark raced_review)).

(** ** Lemmas *)

Lemma trimmed_outside t o : trimmed t o -> outside t o.
Proof. intros (cap & n & id & b & ->). unfold trim_task. by destruct (0 <? n). Qed.

Lemma trimmed_spec t o : trimmed t o -> Spec o = Spec t.
Proof. intros (cap & n & id & b & ->). unfold trim_task. by destruct (0 <? n). Qed.

Lemma trimmed_origin t o : trimmed t o ->
  ParkedFromState (Status o) = ParkedFromState (Status t) /\ ParkedAt (Status o) = ParkedAt (Status t).
Proof. intros (cap & n & id & b & ->). unfold trim_task. by destruct (0 <? n). Qed.

Lemma outside_state t t' : outside t t' -> State (Status t') = State (Status t).
Proof. intros [H _]. by injection H. Qed.

Lemma outside_park t t' : outside t t' -> ParkReason (Status t') = ParkReason (Status t).
Proof. intros [H _]. by injection H. Qed.

Lemma outside_kind t t' : outside t t' -> Kind (Spec t') = Kind (Spec t).
Proof. intros [H _]. by injection H. Qed.

Lemma outside_transparent f : (forall t, outside t (f t)) -> transparent (Some f).
Proof.
  intros H t. cbn [run_mutate]. specialize (H t). split; [by apply rtc_once, step_outside|].
  split; [by apply outside_state|]. split; [by apply outside_park|by apply outside_kind].
Qed.

Lemma transparent_None : transparent None.
Proof. intros t. cbn. by split; [constructor|]. Qed.

Lemma updates_app l1 l2 : updates (l1 ++ l2) = (updates l1 ++ updates l2)%list.
Proof. apply omap_app. Qed.

Lemma updates_fit fit : updates (map Fit fit) = written fit.
Proof. induction fit as [|[b|o] fit IH]; cbn; [done|exact IH|]. unfold updates, written in IH. by rewrite IH. Qed.

(** The closure runs operations of the package after the caller's mutation. *)
Lemma enterClosure_steps mrs to reason pr now mutate eo t :
  transparent mutate -> rtc step t (fst (enterClosure mrs to reason pr now mutate eo t)).
Proof.
  intros Hm. unfold enterClosure.
  etrans; [apply Hm|]. generalize (run_mutate mutate t). clear t. intros t.
  assert (rtc step t (after t (armedUnpark eo t to reason) id)) as H1.
  { unfold armedUnpark. destruct (mrTerminal eo); [|constructor]. apply rtc_once.
    exact (step_op t (OpMRTerminal to reason)). }
  destruct (armedUnpark eo t to reason) as [t1|e]; [|exact H1].
  etrans; [exact H1|].
  pose proof (step_op t1 (OpEnter mrs to reason now)) as H2. cbn [exec after] in H2.
  destruct (Enter t1 mrs to reason now) as [t2|e]; [|constructor]. cbn [id] in H2.
  eapply rtc_l; [exact H2|].
  destruct (pr == ""); [constructor|].
  pose proof (step_op t2 (OpPark pr now)) as H3. cbn [exec after] in H3.
  destruct (Park t2 pr now) as [t3|e]; [|constructor]. by apply rtc_once.
Qed.

Lemma parkClosure_steps reason now mutate t :
  transparent mutate -> rtc step t (fst (parkClosure reason now mutate t)).
Proof.
  intros Hm. unfold parkClosure. etrans; [apply Hm|].
  pose proof (step_op (run_mutate mutate t) (OpPark reason now)) as H. cbn [exec after] in H.
  destruct (Park _ _ _); [by apply rtc_once|constructor].
Qed.

Lemma upgradeClosure_steps now t : rtc step t (fst (upgradeClosure now t)).
Proof.
  apply rtc_once. pose proof (step_op t (OpUpgradeDecline now)) as H. cbn [exec] in H.
  unfold upgradeClosure. unfold after in H.
  destruct (UpgradeDeclineToOwnershipLost t now) as [[b t']|e]; exact H.
Qed.

(** The annotation patches write no status. *)
Lemma patch_no_updates task mutate l : updates (o_effects (patchTaskAnnotations task mutate l)) = [].
Proof.
  unfold patchTaskAnnotations. induction (firstn 5 l) as [|[[f|] ans] l' IH]; [done| |done]. cbn.
  destruct (mutate f); [|done]. by destruct ans.
Qed.

Lemma andThen_no_updates o k :
  updates (o_effects o) = [] -> (forall t, updates (o_effects (k t)) = []) ->
  updates (o_effects (andThen o k)) = [].
Proof. intros Ho Hk. unfold andThen. destruct (o_err o); [done|]. cbn. by rewrite updates_app, Ho, Hk. Qed.

Lemma DeleteWrapper_no_updates w : updates (snd (DeleteWrapper w)) = [].
Proof. unfold DeleteWrapper. by destruct (delete_failed _); [|destruct (delete_failed _)]. Qed.

Lemma settle_no_updates w m leaving prev to reason pr eo t :
  updates (o_effects (settle w m leaving prev to reason pr eo t)) = [].
Proof.
  unfold settle. pose proof (DeleteWrapper_no_updates w) as Hd.
  destruct (if leaving || _ then _ else _) as [ok1 e1] eqn:E1.
  assert (updates e1 = []) as H1.
  { destruct (leaving || _); [by rewrite E1 in Hd|by injection E1 as _ <-]. }
  destruct ok1; [|exact H1]. cbn [negb].
  destruct (if TaskIsTerminalOutcome to then _ else _) as [ok2 e2] eqn:E2.
  assert (updates e2 = []) as H2.
  { destruct (TaskIsTerminalOutcome to); by injection E2 as _ <-. }
  destruct ok2; cbn [negb o_effects]; rewrite !updates_app, H1, H2; [|done].
  unfold releaseTerminalIssues, TaskTerminalEntry, emitTerminalTokens. by repeat case_match.
Qed.

Lemma refused_no_updates from to task e : updates (o_effects (refused from to task e)) = [].
Proof. destruct e; cbn; try done. by destruct (_ == _); [|destruct (_ != _)]. Qed.

(** The effects of a call are those of its guarded write and then no status write. *)
Lemma fit_then_updates closure w o_of :
  (forall r, updates (o_effects (o_of r)) = []) ->
  updates (o_effects (let '(r, fit) := FitTask (w_sizeOf w) (w_spiller w) false (w_reads w) closure
                                         (w_attempts w) in after_effects (map Fit fit) (o_of r)))
  = updates (map Fit (snd (FitTask (w_sizeOf w) (w_spiller w) false (w_reads w) closure (w_attempts w)))).
Proof.
  intros H. destruct (FitTask _ _ _ _ _ _) as [r fit]. cbn. by rewrite updates_app, H, app_nil_r.
Qed.

Lemma wrote_intro w closure task k :
  wrote w closure k
    (let '(r, fit) := FitTask (w_sizeOf w) (w_spiller w) false (w_reads w)
                        (fun t => fst (closure t)) (w_attempts w) in
     after_effects (map Fit fit)
       match r with
       | Err e => mkOutcome (Some (WriteError e)) task []
       | Ok _ => k (captured closure (w_attempts w))
       end).
Proof.
  pose proof (guarded_writes (GuardedWrite := Task_guarded) (w_sizeOf w) (w_spiller w) (w_reads w)
                (fun t => fst (closure t)) (w_attempts w)) as H.
  cbn [guarded may_trim Task_guarded] in H.
  destruct (FitTask _ _ _ _ _ _) as [[t'|e] fit]; cbn [writes_last] in H; rewrite <- updates_fit in H.
  - destruct H as (Hu & fresh & Hl & Hin & Ht). right. exists fresh, t', fit.
    unfold captured. by rewrite Hl.
  - left. exists e, fit. cbn. by rewrite app_nil_r.
Qed.

Lemma enterStage_cases w m task mrs to reason pr now mutate eo :
  let o := enterStage w m task mrs to reason pr now mutate eo in
  let closure := enterClosure mrs to reason pr now mutate eo in
  (to = from_of task /\ o = mkOutcome None task [])
  \/ (to <> from_of task /\
      ((LegalFor (Some task) mrs (from_of task) to = false
        /\ o = mkOutcome (Some (EnterError (IllegalTransition (from_of task) to))) task
                 [CountIllegal (from_of task) to])
       \/ (LegalFor (Some task) mrs (from_of task) to = true
           /\ wrote w closure (enter_then w m task to reason pr eo closure) o))).
Proof.
  cbv zeta. unfold enterStage. cbv zeta.
  change (if State (Status task) == "" then Create else State (Status task)) with (from_of task).
  destruct (String.eqb_spec to (from_of task)) as [|Hne]; [by left|right; split; [done|]].
  destruct (LegalFor (Some task) mrs (from_of task) to); [right|by left]. split; [done|].
  apply (wrote_intro w (enterClosure mrs to reason pr now mutate eo) task
           (enter_then w m task to reason pr eo (enterClosure mrs to reason pr now mutate eo))).
Qed.

(** The updates of a write. *)
Lemma wrote_updates w closure k o :
  wrote w closure k o -> (forall e, updates (o_effects (k e)) = []) ->
  (updates (o_effects o) = [] /\ exists e, o_err o = Some (WriteError e))
  \/ exists fresh t', In (mkAttempt (Some fresh) UpdateOk) (w_attempts w)
     /\ trimmed (fst (closure fresh)) t' /\ updates (o_effects o) = [t']
     /\ o_err o = o_err (k (snd (closure fresh))) /\ o_task o = o_task (k (snd (closure fresh))).
Proof.
  intros [(e & fit & Hu & He & Hf)|(fresh & t' & fit & _ & Hin & Ht & Hu & ->)] Hk.
  - left. rewrite Hf. eauto.
  - right. exists fresh, t'. cbn. by rewrite updates_app, Hu, Hk.
Qed.

Lemma enter_then_no_updates w m task to reason pr eo closure e :
  updates (o_effects (enter_then w m task to reason pr eo closure e)) = [].
Proof.
  destruct e as [e|]; cbn [enter_then]; [apply refused_no_updates|].
  destruct (closure task) as [t' [e|]]; [done|]. apply settle_no_updates.
Qed.

Lemma armedUnpark_spec eo t to reason :
  match armedUnpark eo t to reason with
  | Ok t1 => State (Status t1) = State (Status t) /\ Spec t1 = Spec t
      /\ ((ParkReason (Status t1) = ""%string
           /\ (ParkReason (Status t) = ""%string \/ unpark_armed eo to reason))
          \/ (mrTerminal eo = false /\ t1 = t))
  | Err e => exists what, e = ErrorF what
  end.
Proof.
  unfold armedUnpark, UnparkForMRTerminal, unpark_armed.
  destruct (mrTerminal eo); [|auto].
  destruct (String.eqb_spec (ParkReason (Status t)) "") as [Hp|]; [auto 10|].
  destruct (TaskIsTerminalOutcome to); [|eexists; reflexivity].
  destruct (in_set mrTerminalReasons reason); [|eexists; reflexivity]. cbn. auto 10.
Qed.

Lemma Enter_Err t mrs to r now e :
  Enter t mrs to r now = Err e ->
  match e with
  | StillParked st _ => ParkReason (Status t) <> ""%string /\ st = State (Status t)
  | IllegalTransition f t1 => f = from_of t /\ t1 = to
  | _ => True
  end.
Proof.
  unfold Enter. fold (from_of t).
  destruct (String.eqb_spec (ParkReason (Status t)) "") as [Hp|Hp]; cbn [negb]; [|by intros [= <-]].
  destruct (pseudoTarget to); [by intros [= <-]|].
  destruct (negb _); [by intros [= <-]|]. destruct (negb _); [by intros [= <-]|].
  destruct (_ && _); [by intros [= <-]|done].
Qed.

(** A park right after the entry. *)
Lemma Park_after_enter t pr now :
  ParkReason (Status t) = ""%string ->
  match Park t pr now with
  | Ok t' => State (Status t') = State (Status t) /\ Spec t' = Spec t
      /\ ParkReason (Status t') = pr /\ ParkedAt (Status t') = Some now
      /\ ParkedFromState (Status t') = State (Status t) /\ In pr ParkReasons
  | Err e => e = UnknownReason pr /\ ~ In pr ParkReasons
  end.
Proof.
  intros Hp. unfold Park. rewrite Hp. destruct (IsParkReason pr) eqn:E; cbn [negb].
  - apply IsParkReason_In in E. cbn -[In ParkReasons]. by destruct (StateEnteredAt (Status t)).
  - split; [done|]. by apply IsParkReason_notIn.
Qed.

Lemma edge_contract_spec t t' mrs from to :
  Spec t' = Spec t -> edge_contract t mrs from to -> edge_contract t' mrs from to.
Proof. intros H []. split; rewrite ?H; auto. Qed.

(** What the closure answers, and where it leaves the state and the park. *)
Lemma enterClosure_spec mrs to reason pr now mutate eo t :
  transparent mutate ->
  match enterClosure mrs to reason pr now mutate eo t with
  | (t', None) => entered mrs to reason pr now eo t t'
  | (t', Some e) =>
      match e with
      | StillParked st _ => ParkReason (Status t) <> ""%string
      | IllegalTransition f t1 => f = from_of t /\ t1 = to
      | _ => True
      end
      /\ (State (Status t') = State (Status t) \/ (pr <> ""%string /\ ~ In pr ParkReasons))
  end.
Proof.
  intros Hm. unfold enterClosure. destruct (Hm t) as (_ & Hs & Hp & _). clear Hm.
  generalize dependent (run_mutate mutate t). intros t0 Hs Hp.
  pose proof (armedUnpark_spec eo t0 to reason) as Hu.
  destruct (armedUnpark eo t0 to reason) as [t1|e]; [|destruct Hu as [what ->]; auto].
  destruct Hu as (Hs1 & _ & Hun).
  assert (from_of t1 = from_of t) as Hf by (unfold from_of; by rewrite Hs1, Hs).
  destruct (Enter t1 mrs to reason now) as [t2|e] eqn:E2.
  - apply Enter_Ok in E2 as (Hp1 & Hps & Hl & _ & _ & ->).
    apply LegalFor_contract in Hl. fold (from_of t1) in Hl. rewrite Hf in Hl.
    assert (In to AllStates) as Hin by (eapply legal_to_state; [apply (ec_table _ _ _ _ Hl)|done]).
    assert (ParkReason (Status t) = ""%string \/ unpark_armed eo to reason) as Hun'.
    { rewrite <- Hp. destruct Hun as [[_ ?]|[_ <-]]; auto. }
    pose proof (Park_after_enter (stampEnter t1 to reason now) pr now Hp1) as Hk.
    destruct (String.eqb_spec pr "") as [->|Hpr].
    + split; [done|done| |done|done|done]. by apply (edge_contract_spec t1).
    + destruct (Park _ pr now) as [t3|e]; [|destruct Hk as [-> Hk]; auto].
      destruct Hk as (H1 & H2 & H3 & H4 & H5 & H6).
      split; [done|done| |done|done|done]. by apply (edge_contract_spec t1).
  - apply Enter_Err in E2. rewrite Hf in E2. split; [|left; by rewrite Hs1].
    destruct e; try done. destruct E2 as [E2 _].
    destruct Hun as [[? _]|[_ ->]]; [done|by rewrite <- Hp].
Qed.

Lemma park_then_no_updates w m task reason closure e :
  updates (o_effects (park_then w m task reason closure e)) = [].
Proof.
  destruct e as [e|]; [done|]. unfold park_then. destruct (closure task) as [t1 [e|]]; [done|].
  pose proof (DeleteWrapper_no_updates w) as Hd. destruct (DeleteWrapper w) as [ok es]. cbn [snd] in Hd.
  destruct ok; [|exact Hd]. cbn [negb after_effects o_effects]. rewrite updates_app, Hd.
  apply andThen_no_updates; [apply patch_no_updates|intros].
  apply andThen_no_updates; [apply patch_no_updates|intros]. unfold TaskParked. by destruct (negb m).
Qed.

Lemma upgrade_then_no_updates w task now e : updates (o_effects (upgrade_then w task now e)) = [].
Proof.
  destruct e as [e|]; [done|]. unfold upgrade_then. destruct (negb _); [done|].
  by destruct (upgradeClosure now task) as [t1 [e|]].
Qed.

Lemma ParkTask_cases w m task reason now mutate :
  let o := ParkTask w m task reason now mutate in
  let closure := parkClosure reason now mutate in
  (IsParkReason reason = false /\ o = mkOutcome (Some (EnterError (UnknownReason reason))) task [])
  \/ (IsParkReason reason = true /\
      ((Parked task = true /\ o = mkOutcome None task [])
       \/ (Parked task = false /\ wrote w closure (park_then w m task reason closure) o))).
Proof.
  cbv zeta. unfold ParkTask. destruct (IsParkReason reason); [right|by left]. split; [done|].
  destruct (Parked task); [by left|right]. split; [done|].
  exact (wrote_intro w (parkClosure reason now mutate) task
           (park_then w m task reason (parkClosure reason now mutate))).
Qed.

(** The writes of the three. *)
Lemma ParkTask_updates w m task reason now mutate :
  let o := ParkTask w m task reason now mutate in
  updates (o_effects o) = []
  \/ exists fresh t', In (mkAttempt (Some fresh) UpdateOk) (w_attempts w)
     /\ trimmed (fst (parkClosure reason now mutate fresh)) t' /\ updates (o_effects o) = [t'].
Proof.
  cbv zeta. destruct (ParkTask_cases w m task reason now mutate)
    as [[_ ->]|[_ [[_ ->]|[_ Hw]]]]; [by left|by left|].
  apply wrote_updates in Hw as [[-> _]|(fresh & t' & Hin & Ht & -> & _)]; [by left|eauto 10|].
  apply park_then_no_updates.
Qed.

Lemma Upgrade_updates w task now :
  let o := UpgradeDeclinedTakeoverPark w task now in
  updates (o_effects o) = []
  \/ exists fresh t', In (mkAttempt (Some fresh) UpdateOk) (w_attempts w)
     /\ trimmed (fst (upgradeClosure now fresh)) t' /\ updates (o_effects o) = [t'].
Proof.
  cbv zeta. unfold UpgradeDeclinedTakeoverPark.
  destruct (UpgradeDeclineToOwnershipLost task now); [|by left].
  pose proof (wrote_intro w (upgradeClosure now) task (upgrade_then w task now)) as Hw.
  apply wrote_updates in Hw as [[H _]|(fresh & t' & Hin & Ht & H & _)];
    [by left|eauto 10|apply upgrade_then_no_updates].
Qed.

Lemma enterStage_updates w m task mrs to reason pr now mutate eo :
  let o := enterStage w m task mrs to reason pr now mutate eo in
  updates (o_effects o) = []
  \/ exists fresh t', In (mkAttempt (Some fresh) UpdateOk) (w_attempts w)
     /\ trimmed (fst (enterClosure mrs to reason pr now mutate eo fresh)) t'
     /\ updates (o_effects o) = [t'].
Proof.
  cbv zeta. destruct (enterStage_cases w m task mrs to reason pr now mutate eo)
    as [[_ ->]|[_ [[_ ->]|[_ Hw]]]]; [by left|by left|].
  apply wrote_updates in Hw as [[-> _]|(fresh & t' & Hin & Ht & -> & _)]; [by left|eauto 10|].
  apply enter_then_no_updates.
Qed.

Lemma trimmed_step t o : trimmed t o -> step t o.
Proof. intros H. by apply step_outside, trimmed_outside. Qed.

Lemma reachable_steps t t' : reachable t -> rtc step t t' -> reachable t'.
Proof. intros (t0 & H0 & Hs) H. exists t0. split; [done|]. by etrans. Qed.

(** Dropping annotations. *)
Lemma fold_delete_lookup (keys : list string) : forall (a : gmap string string) k,
  In k keys \/ a !! k = None -> fold_left (fun a k => delete k a) keys a !! k = None.
Proof.
  induction keys as [|x keys IH]; intros a k H; cbn; [by destruct H|].
  apply IH. destruct H as [[->|H]|H]; [right; apply lookup_delete_eq|by left|right].
  destruct (decide (x = k)) as [->|Hne]; [apply lookup_delete_eq|by rewrite lookup_delete_ne].
Qed.

Lemma patch_drops task keys l :
  o_err (patchTaskAnnotations task (drop_annotations keys) l) = None ->
  forall k, In k keys ->
  Annotations (o_task (patchTaskAnnotations task (drop_annotations keys) l)) !! k = None.
Proof.
  unfold patchTaskAnnotations. induction (firstn 5 l) as [|[[f|] ans] l' IH]; [done| |done].
  cbn. unfold drop_annotations at 1 3.
  destruct (existsb _ keys) eqn:E.
  - destruct ans; [|exact IH|done]. cbn. intros _ k Hk. apply fold_delete_lookup. by left.
  - cbn. intros _ k Hk. destruct (Annotations f !! k) eqn:Ek; [|done].
    assert (existsb (fun k => is_set (Annotations f !! k)) keys = true) as Ht; [|congruence].
    apply existsb_exists. exists k. by rewrite Ek.
Qed.

Lemma DeleteWrapper_ok w es : DeleteWrapper w = (true, es) -> es = [DeletePod; DeleteService].
Proof.
  unfold DeleteWrapper. destruct (delete_failed _); [done|]. destruct (delete_failed _); [done|].
  by intros [= <-].
Qed.

(** A park that answers nil has taken the wrapper down, retired the refusal evidence
    and been counted. *)
Lemma park_then_ok w m task reason closure :
  let o := park_then w m task reason closure None in
  o_err o = None ->
  In DeletePod (o_effects o) /\ In DeleteService (o_effects o)
  /\ (m = true -> In (CountParked (State (Status task)) reason) (o_effects o))
  /\ forall k, In k [AnnDeclineCI; AnnDeclineHeads] -> Annotations (o_task o) !! k = None.
Proof.
  cbv zeta. unfold park_then. destruct (closure task) as [t1 [e|]]; [done|].
  destruct (DeleteWrapper w) as [ok es] eqn:Ed. destruct ok; [|done]. cbn [negb].
  apply DeleteWrapper_ok in Ed as ->. unfold andThen, after_effects. cbn [o_err o_task o_effects].
  destruct (o_err (clearTurnAnnotations w t1)) eqn:E1; [by rewrite E1|].
  set (t2 := o_task (clearTurnAnnotations w t1)). cbn [o_err].
  destruct (o_err (clearDeclineCIAnnotations w t2)) eqn:E2; [by rewrite E2|]. intros _.
  cbn [o_err o_task o_effects app].
  split; [by left|]. split; [by right; left|]. split.
  - intros ->. right. right. apply in_or_app. right. apply in_or_app. right. by left.
  - exact (patch_drops _ _ _ E2).
Qed.

Lemma fit_not_terminal fit e : In e (map Fit fit) -> terminal_effect e = false.
Proof. intros H. by apply in_map_iff in H as (f & <- & _). Qed.

Lemma wrapper_not_terminal w e : In e (snd (DeleteWrapper w)) -> terminal_effect e = false.
Proof. unfold DeleteWrapper. repeat case_match; cbn; intros Hin; by destruct_or? Hin; subst. Qed.

Lemma settle_terminal w m leaving prev to reason pr eo t e :
  In e (o_effects (settle w m leaving prev to reason pr eo t)) -> terminal_effect e = true ->
  TaskIsTerminalOutcome to = true /\ (outcome_effect e = true -> prev <> ""%string).
Proof.
  unfold settle. intros Hin He. pose proof (wrapper_not_terminal w e) as Hd.
  destruct (if leaving || _ then _ else _) as [ok1 e1] eqn:E1.
  assert (~ In e e1) as H1.
  { destruct (leaving || _); [|injection E1 as _ <-; intros []]. rewrite E1 in Hd. cbn [snd] in Hd.
    intros H. by rewrite Hd in He. }
  destruct ok1; [|by destruct (H1 Hin)]. cbn [negb] in Hin.
  destruct (TaskIsTerminalOutcome to) eqn:Hto.
  2:{ unfold releaseTerminalIssues, TaskTerminalEntry, emitTerminalTokens in Hin.
      rewrite Hto in Hin. cbn [negb o_effects app] in Hin. rewrite !orb_true_r in Hin.
      apply in_app_or in Hin as [Hin|Hin]; [by destruct (H1 Hin)|].
      destruct (terminal eo), m; destruct Hin. }
  split; [done|]. intros Ho ->.
  unfold deleteWorkspacePVC, TaskTerminalEntry, emitTerminalTokens in Hin.
  rewrite String.eqb_refl, orb_true_r in Hin. cbn [orb negb] in Hin.
  destruct (delete_failed (w_pvc w)); cbn in Hin.
  - apply in_app_or in Hin as [Hin|[<-|[]]]; [by destruct (H1 Hin)|done].
  - apply in_app_or in Hin as [Hin|[<-|Hin]]; [by destruct (H1 Hin)|done|].
    unfold releaseTerminalIssues in Hin. rewrite Hto in Hin.
    destruct m, (terminal eo) as [b|]; cbn in Hin; try destruct (b t); cbn in Hin;
      by destruct_or? Hin; subst.
Qed.

Lemma patch_not_terminal task mutate l e :
  In e (o_effects (patchTaskAnnotations task mutate l)) -> terminal_effect e = false.
Proof.
  unfold patchTaskAnnotations. induction (firstn 5 l) as [|[[f|] ans] l' IH]; [done| |done]. cbn.
  destruct (mutate f); [|done]. destruct ans; [|exact IH|done]. by intros [<-|[]].
Qed.

Lemma andThen_not_terminal o k e :
  (In e (o_effects o) -> terminal_effect e = false) ->
  (forall t, In e (o_effects (k t)) -> terminal_effect e = false) ->
  In e (o_effects (andThen o k)) -> terminal_effect e = false.
Proof.
  unfold andThen. intros Ho Hk. destruct (o_err o); [exact Ho|]. intros Hin.
  apply in_app_or in Hin as [Hin|Hin]; [auto|exact (Hk _ Hin)].
Qed.

Lemma park_then_not_terminal w m task reason closure captured e :
  In e (o_effects (park_then w m task reason closure captured)) -> terminal_effect e = false.
Proof.
  unfold park_then. destruct captured; [done|]. destruct (closure task) as [t1 [?|]]; [done|].
  pose proof (wrapper_not_terminal w e) as Hd. destruct (DeleteWrapper w) as [ok es].
  cbn [snd] in Hd. destruct ok; [|exact Hd]. cbn [negb after_effects o_effects]. intros Hin.
  apply in_app_or in Hin as [Hin|Hin]; [auto|]. revert Hin.
  apply andThen_not_terminal; [apply patch_not_terminal|intros t].
  apply andThen_not_terminal; [apply patch_not_terminal|intros t'].
  unfold TaskParked. destruct (negb m); [done|]. by intros [<-|[]].
Qed.

Lemma ParkTask_not_terminal w m task reason now mutate e :
  In e (o_effects (ParkTask w m task reason now mutate)) -> terminal_effect e = false.
Proof.
  destruct (ParkTask_cases w m task reason now mutate)
    as [[_ ->]|[_ [[_ ->]|[_ [(x & fit & _ & _ & ->)|(fresh & t' & fit & _ & _ & _ & _ & ->)]]]]];
    [done|done|apply fit_not_terminal|].
  intros Hin. apply in_app_or in Hin as [Hin|Hin];
    [by apply (fit_not_terminal fit)|by apply park_then_not_terminal in Hin].
Qed.

Lemma Upgrade_not_terminal w task now e :
  In e (o_effects (UpgradeDeclinedTakeoverPark w task now)) -> terminal_effect e = false.
Proof.
  unfold UpgradeDeclinedTakeoverPark. destruct (UpgradeDeclineToOwnershipLost task now); [|done].
  destruct (FitTask _ _ _ _ _ _) as [r fit]. cbn [after_effects o_effects]. intros Hin.
  apply in_app_or in Hin as [Hin|Hin]; [by apply (fit_not_terminal fit)|].
  repeat case_match; cbn in Hin; by destruct_or? Hin; subst.
Qed.

(** ** Properties *)

(** C5: the choke points refine the life of a Task.  Whatever the API server and the
    rest of the outside answer, a call of [EnterStage], [MintParked], [ParkTask] or
    [UpgradeDeclinedTakeoverPark] writes the status at most once, and what it writes
    is reached from the fresh read the server accepted the write against by steps of
    the package; so it is a well-formed Task whenever that read was one the program
    can reach. *)
Theorem choke_points_refine_lifecycle w m task c :
  call_transparent c ->
  match updates (o_effects (run w m task c)) with
  | [] => True
  | [t'] => exists fresh, In (mkAttempt (Some fresh) UpdateOk) (w_attempts w)
            /\ rtc step fresh t' /\ (reachable fresh -> wf t')
  | _ => False
  end.
Proof.
  intros Hc.
  assert (updates (o_effects (run w m task c)) = []
    \/ exists fresh t', In (mkAttempt (Some fresh) UpdateOk) (w_attempts w)
       /\ rtc step fresh t' /\ updates (o_effects (run w m task c)) = [t']) as H.
  { destruct c as [mrs to reason now mutate eo|to pr now|reason now mutate|now]; cbn [run].
    - destruct (enterStage_updates w m task mrs to reason "" now mutate eo)
        as [H|(fresh & t' & Hin & Ht & Hu)]; [by left|right]. exists fresh, t'. split; [done|].
      split; [|done]. eapply rtc_r; [by apply enterClosure_steps|by apply trimmed_step].
    - unfold MintParked. destruct (_ != ""); [by left|]. destruct (negb _); [by left|].
      destruct (enterStage_updates w m task [] to "" pr now None no_opts)
        as [H|(fresh & t' & Hin & Ht & Hu)]; [by left|right]. exists fresh, t'. split; [done|].
      split; [|done]. eapply rtc_r; [apply enterClosure_steps, transparent_None|by apply trimmed_step].
    - destruct (ParkTask_updates w m task reason now mutate)
        as [H|(fresh & t' & Hin & Ht & Hu)]; [by left|right]. exists fresh, t'. split; [done|].
      split; [|done]. eapply rtc_r; [by apply parkClosure_steps|by apply trimmed_step].
    - destruct (Upgrade_updates w task now)
        as [H|(fresh & t' & Hin & Ht & Hu)]; [by left|right]. exists fresh, t'. split; [done|].
      split; [|done]. eapply rtc_r; [apply upgradeClosure_steps|by apply trimmed_step]. }
  destruct H as [->|(fresh & t' & Hin & Hs & ->)]; [done|].
  exists fresh. split; [done|]. split; [done|]. intros Hr. by apply wf_reachable, (reachable_steps fresh).
Qed.

(** what [EnterStage] answers is what happened.  Without a write, the Task was
    already at [to] or the call is an error.  With one, either the Task written is at
    [to] and unparked, over an edge whose contract holds from the state the accepted
    read had, a parked read being let through only to a terminal state with an
    external-terminal reason by the option that says so; or the state written is the
    one that was read, and then a nil answer means the read was parked, already at
    [to], or no longer in the state the caller decided from. *)
Theorem EnterStage_answers w m task mrs to reason now mutate eo :
  transparent mutate ->
  let o := EnterStage w m task mrs to reason now mutate eo in
  match updates (o_effects o) with
  | [] => (to = from_of task /\ o = mkOutcome None task []) \/ is_set (o_err o) = true
  | [t'] => exists fresh, In (mkAttempt (Some fresh) UpdateOk) (w_attempts w)
      /\ (entered mrs to reason "" now eo fresh t'
          \/ (State (Status t') = State (Status fresh)
              /\ (o_err o = None ->
                  o_task o = task
                  /\ (ParkReason (Status fresh) <> ""%string \/ from_of fresh = to
                      \/ from_of fresh <> from_of task))))
  | _ => False
  end.
Proof.
  intros Hm o. unfold o, EnterStage.
  destruct (enterStage_cases w m task mrs to reason "" now mutate eo)
    as [[Hto ->]|[Hne [[_ ->]|[_ Hw]]]]; [by left|by right|].
  apply wrote_updates in Hw; [|apply enter_then_no_updates].
  destruct Hw as [[-> [e He]]|(fresh & t' & Hin & Ht & -> & He & Htask)]; [right; by rewrite He|].
  exists fresh. split; [done|]. rewrite He, Htask.
  pose proof (enterClosure_spec mrs to reason "" now mutate eo fresh Hm) as Hc.
  destruct (enterClosure mrs to reason "" now mutate eo fresh) as [t1 [e|]]; cbn [fst snd] in *.
  - right. destruct Hc as [Hc [Hs|[Hs _]]]; [|done].
    split; [by rewrite (outside_state _ _ (trimmed_outside _ _ Ht))|].
    destruct e; cbn [enter_then refused]; try done.
    + destruct Hc as [-> ->]. destruct (String.eqb_spec (from_of fresh) to) as [Heq|]; [auto|].
      destruct (String.eqb_spec (from_of fresh) (from_of task)); [done|auto].
    + auto.
  - left. pose proof (trimmed_outside _ _ Ht) as Ho. destruct Hc.
    split; [by rewrite (outside_state _ _ Ho)|done| |by rewrite (outside_park _ _ Ho)|done|done].
    apply (edge_contract_spec t1); [by apply trimmed_spec|done].
Qed.

(** a Task minted to be parked is never live.  Any status [MintParked] writes
    either has both the minted state and the park, with its time and origin, or has
    the state and the park of the read it was made over; and a call on a Task that
    has a state, or with a reason outside the vocabulary, writes nothing. *)
Theorem MintParked_is_one_write w m task to pr now :
  let o := MintParked w m task to pr now in
  match updates (o_effects o) with
  | [] => True
  | [t'] => State (Status task) = ""%string /\ In pr ParkReasons
      /\ exists fresh, In (mkAttempt (Some fresh) UpdateOk) (w_attempts w)
         /\ ((State (Status t') = to /\ ParkReason (Status t') = pr /\ ParkedAt (Status t') = Some now
              /\ ParkedFromState (Status t') = to /\ ParkReason (Status fresh) = ""%string)
             \/ (State (Status t') = State (Status fresh)
                 /\ ParkReason (Status t') = ParkReason (Status fresh)))
  | _ => False
  end.
Proof.
  cbv zeta. unfold MintParked.
  destruct (String.eqb_spec (State (Status task)) "") as [Hs|]; [|done]. cbn [negb].
  destruct (IsParkReason pr) eqn:Hpr; [|done]. cbn [negb].
  destruct (enterStage_updates w m task [] to "" pr now None no_opts)
    as [->|(fresh & t' & Hin & Ht & ->)]; [done|]. apply IsParkReason_In in Hpr.
  split; [done|]. split; [done|]. exists fresh. split; [done|].
  pose proof (trimmed_outside _ _ Ht) as Ho. destruct (trimmed_origin _ _ Ht) as [Hf Ha].
  rewrite (outside_state _ _ Ho), (outside_park _ _ Ho), Hf, Ha.
  pose proof (enterClosure_spec [] to "" pr now None no_opts fresh transparent_None) as Hc.
  unfold enterClosure in *. cbn [run_mutate armedUnpark no_opts mrTerminal] in *.
  destruct (Enter fresh [] to "" now) as [t2|e] eqn:E2; [|by right].
  destruct (String.eqb_spec pr "") as [->|Hne]; [apply IsParkReason_In in Hpr; discriminate|].
  destruct (Park t2 pr now) as [t3|e] eqn:E3; cbn [fst] in *.
  - destruct Hc as [H1 _ _ H4 H5 H6]. destruct (H5 Hne) as (_ & H7 & H8).
    left. destruct H6 as [H6|[H6 _]]; [done|discriminate H6].
  - exfalso. unfold Park in E3. rewrite (proj2 (IsParkReason_In pr) Hpr) in E3. cbn [negb] in E3.
    by destruct (_ != "").
Qed.


(** what [ParkTask] answers is what happened.  A reason outside the vocabulary is
    refused and a parked Task left alone, both without an effect; otherwise the Task
    written is in the state it was read in and parked: with the reason, the time and
    that state as the origin when the read was live, and but for the caller's own change
    untouched when another writer had parked it.  A nil answer after a write means the wrapper was taken down, the
    park counted, and no evidence of an earlier refusal is left on the Task. *)
Theorem ParkTask_answers w m task reason now mutate :
  transparent mutate ->
  let o := ParkTask w m task reason now mutate in
  match updates (o_effects o) with
  | [] => (Parked task = true /\ In reason ParkReasons /\ o = mkOutcome None task [])
          \/ is_set (o_err o) = true
  | [t'] => Parked task = false /\ In reason ParkReasons
      /\ (exists fresh, In (mkAttempt (Some fresh) UpdateOk) (w_attempts w)
          /\ State (Status t') = State (Status fresh)
          /\ if ParkReason (Status fresh) == "" then
               ParkReason (Status t') = reason /\ ParkedAt (Status t') = Some now
               /\ ParkedFromState (Status t') = State (Status fresh)
             else core t' = core (run_mutate mutate fresh))
      /\ (o_err o = None ->
          In DeletePod (o_effects o) /\ In DeleteService (o_effects o)
          /\ (m = true -> In (CountParked (State (Status task)) reason) (o_effects o))
          /\ forall k, In k [AnnDeclineCI; AnnDeclineHeads] -> Annotations (o_task o) !! k = None)
  | _ => False
  end.
Proof.
  intros Hm o. unfold o. destruct (ParkTask_cases w m task reason now mutate)
    as [[_ ->]|[Hr [[Hp ->]|[Hp Hw]]]]; [by right|left; by rewrite <- IsParkReason_In|].
  destruct Hw as [(e & fit & Hu & He & ->)|(fresh & t' & fit & _ & Hin & Ht & Hu & ->)].
  { rewrite Hu. right. by rewrite He. }
  cbn [after_effects o_effects o_err o_task]. rewrite updates_app, Hu, park_then_no_updates.
  cbn [app]. split; [done|]. split; [by apply IsParkReason_In|].
  pose proof (trimmed_outside _ _ Ht) as Ho. destruct (trimmed_origin _ _ Ht) as [Hf Ha].
  destruct (Hm fresh) as (_ & Hsm & Hpm & _). unfold parkClosure in *.
  destruct (Park (run_mutate mutate fresh) reason now) as [t1|err] eqn:E; cbn [fst snd] in *.
  2:{ unfold Park in E. rewrite Hr in E. cbn [negb] in E. by destruct (_ != ""). }
  split.
  - exists fresh. split; [done|].
    destruct (String.eqb_spec (ParkReason (Status fresh)) "") as [Hp0|Hp0].
    + pose proof (Park_after_enter (run_mutate mutate fresh) reason now) as Hk.
      rewrite E in Hk. destruct Hk as (H1 & _ & H3 & H4 & H5 & _); [congruence|].
      rewrite (outside_state _ _ Ho), (outside_park _ _ Ho), Hf, Ha, H1, H5. auto.
    + unfold Park in E. rewrite Hr, Hpm, (str_neq_eqb _ _ Hp0) in E. injection E as <-.
      split; [by rewrite (outside_state _ _ Ho)|apply Ho].
  - intros Hnil. destruct (park_then_ok w m task reason _ Hnil) as (H1 & H2 & H3 & H4).
    split; [apply in_or_app; by right|]. split; [apply in_or_app; by right|].
    split; [intros H; apply in_or_app; right; by apply H3|done].
Qed.

(** the one window.  A transition armed with the mr-terminal un-park whose edge
    is no longer legal from the state of the fresh read is dropped with a nil answer,
    but its un-park is not: the accepted write leaves a Task that was parked live, in
    the state it was read in. *)
Theorem dropped_transition_unparks w m task mrs to reason now eo fresh t' :
  mrTerminal eo = true -> in_set mrTerminalReasons reason = true ->
  TaskIsTerminalOutcome to = true ->
  last_read (w_attempts w) = Some fresh ->
  LegalFor (Some fresh) mrs (from_of fresh) to = false ->
  ParkReason (Status fresh) <> ""%string -> from_of fresh <> from_of task ->
  updates (o_effects (EnterStage w m task mrs to reason now None eo)) = [t'] ->
  o_err (EnterStage w m task mrs to reason now None eo) = None
  /\ ParkReason (Status t') = ""%string /\ State (Status t') = State (Status fresh).
Proof.
  intros Hmr Hreason Hto Hl Hleg Hpark Hrace Hup. unfold EnterStage in *.
  destruct (enterStage_cases w m task mrs to reason "" now None eo)
    as [[_ E]|[_ [[_ E]|[_ Hw]]]]; [by rewrite E in Hup|by rewrite E in Hup|].
  destruct Hw as [(e & fit & Hu & He & E)|(f & t1 & fit & Hl' & _ & Ht & Hu & E)].
  { by rewrite E, Hu in Hup. }
  rewrite Hl in Hl'. injection Hl' as <-. rewrite E in Hup |- *.
  cbn [after_effects o_effects o_err] in *. rewrite updates_app, Hu, enter_then_no_updates in Hup.
  injection Hup as <-.
  assert (enterClosure mrs to reason "" now None eo fresh
          = (clearPark fresh, Some (IllegalTransition (from_of fresh) to))) as Hc.
  { unfold enterClosure, armedUnpark, UnparkForMRTerminal. cbn [run_mutate].
    rewrite Hmr, (str_neq_eqb _ _ Hpark), Hto, Hreason. cbn [negb].
    unfold Enter. cbn [ParkReason clearPark].
    change (ParkReason (Status (clearPark fresh))) with ""%string.
    change (if State (Status (clearPark fresh)) == "" then Create else State (Status (clearPark fresh)))
      with (from_of fresh).
    assert (LegalFor (Some (clearPark fresh)) mrs (from_of fresh) to = false) as -> by exact Hleg.
    cbn. by destruct (pseudoTarget to). }
  rewrite Hc in Ht |- *. cbn [fst snd enter_then refused] in *.
  pose proof (trimmed_outside _ _ Ht) as Ho.
  rewrite (outside_state _ _ Ho), (outside_park _ _ Ho).
  split; [|done].
  destruct (String.eqb_spec (from_of fresh) to); [done|].
  by rewrite (str_neq_eqb _ _ Hrace).
Qed.

(** ** Witnesses *)

Lemma choke_points_refine_lifecycle_witness :
  exists t', updates (o_effects (run (calm (fresh_task AgentImplement)) true
    (fresh_task AgentImplement) (CallMint StateNew ReasonBacklogSweep 1))) = [t']
  /\ rtc step (fresh_task AgentImplement) t' /\ wf t'.
Proof.
  pose proof (choke_points_refine_lifecycle (calm (fresh_task AgentImplement)) true
    (fresh_task AgentImplement) (CallMint StateNew ReasonBacklogSweep 1) I) as H.
  destruct (updates _) as [|t' [|]] eqn:E; [discriminate E| |contradiction H].
  exists t'. split; [reflexivity|]. destruct H as (f & [[= <-]|[]] & Hs & Hw).
  split; [exact Hs|]. exact (Hw reachable_created).
Defined.

Lemma EnterStage_answers_witness :
  exists t', updates (o_effects (EnterStage (calm (at_state AgentImplement StateNew "")) true
    (at_state AgentImplement StateNew "") [] StateRefined "" 5 None no_opts)) = [t']
  /\ State (Status t') = StateRefined.
Proof.
  pose proof (EnterStage_answers (calm (at_state AgentImplement StateNew "")) true
    (at_state AgentImplement StateNew "") [] StateRefined "" 5 None no_opts transparent_None) as H.
  cbv zeta in H. destruct (updates _) as [|t' [|]] eqn:E; [discriminate E| |contradiction H].
  exists t'. split; [reflexivity|]. destruct H as (f & _ & [H|[H _]]); [exact (en_state _ _ _ _ _ _ _ _ H)|].
  injection E as <-. reflexivity.
Defined.


Lemma ParkTask_answers_witness :
  exists t', updates (o_effects (ParkTask (calm (at_state AgentImplement StateNew "")) true
    (at_state AgentImplement StateNew "") ReasonAwaitingHuman 5 None)) = [t']
  /\ In ReasonAwaitingHuman ParkReasons.
Proof.
  pose proof (ParkTask_answers (calm (at_state AgentImplement StateNew "")) true
    (at_state AgentImplement StateNew "") ReasonAwaitingHuman 5 None transparent_None) as H.
  cbv zeta in H. destruct (updates _) as [|t' [|]] eqn:E; [discriminate E| |contradiction H].
  exists t'. split; [reflexivity|]. exact (proj1 (proj2 H)).
Defined.

Lemma dropped_transition_unparks_witness :
  ParkReason (Status raced_review) = ReasonAwaitingHuman
  /\ ParkReason (Status unparked_review) = ""%string
  /\ o_err (EnterStage (calm raced_review) true stale_review mrs1 StateDone ReasonMRMergedExternally
              5 None (WithParkClearedForMRTerminal no_opts)) = None.
Proof.
  destruct (dropped_transition_unparks (calm raced_review) true stale_review mrs1 StateDone
    ReasonMRMergedExternally 5 (WithParkClearedForMRTerminal no_opts) raced_review unparked_review)
    as (H1 & H2 & _).
  1-5: vm_compute; reflexivity.
  1-2: vm_compute; discriminate.
  - vm_compute. reflexivity.
  - exact (conj eq_refl (conj H2 H1)).
Defined.
