(* ===== verification/Budget.v ===== *)
(** * The token-budget admission gate (internal/budget/budget.go): the custom
    window, the subscription windows and their thresholds. *)

From Stdlib Require Import SpecFloat.
From S2P Require Import Prelude GoTime.

Open Scope Z_scope.
Open Scope go_scope.

(** ** Data *)

Definition ModeCustomWindow : string := "customWindow".
Definition ModeClaudeSubscription : string := "claudeSubscription".
Definition DefaultProactivePercent : Z := 50.
Definition DefaultEmergencyPercent : Z := 80.
Definition WindowFiveHour : string := "five_hour".
Definition WindowWeekly : string := "seven_day".
Definition DefaultMaxSnapshotAge : Duration := 90 * Minute.

Record Config := mkConfig {
  Enabled : bool;
  Mode : string;
  ProactivePercent : Z;
  EmergencyPercent : Z;
  ResetSchedule : string;
  WindowDuration : Duration;
  TokenLimit : Z;
  SpawnCeilingByKind : gmap string Z;
  FiveHourProactivePercent : Z;
  FiveHourEmergencyPercent : Z;
  WeeklyProactivePercent : Z;
  WeeklyEmergencyPercent : Z;
  MaxSnapshotAge : Duration
}.

Definition eta_Config (c : Config) : Config :=
  mkConfig (Enabled c) (Mode c) (ProactivePercent c) (EmergencyPercent c) (ResetSchedule c)
    (WindowDuration c) (TokenLimit c) (SpawnCeilingByKind c) (FiveHourProactivePercent c)
    (FiveHourEmergencyPercent c) (WeeklyProactivePercent c) (WeeklyEmergencyPercent c)
    (MaxSnapshotAge c).

#[export] Instance set_ProactivePercent : Settable ProactivePercent :=
  ltac:(setter_of ProactivePercent eta_Config).
#[export] Instance set_EmergencyPercent : Settable EmergencyPercent :=
  ltac:(setter_of EmergencyPercent eta_Config).

Record WindowState := mkWindowState { WindowStart : Time; WindowTokens : Z }.

(** The snapshot fields the gate reads; the metrics-only ones are left out. *)
Record Subscription := mkSubscription {
  FiveHourPercent : float64;
  FiveHourReset : Time;
  WeeklyPercent : float64;
  WeeklyReset : Time;
  ObservedAt : Time
}.

Record Decision := mkDecision {
  UsedPercent : float64;
  ProactiveBlocked : bool;
  EmergencyBlocked : bool;
  GoverningWindow : string;
  GoverningProactivePercent : Z;
  GoverningEmergencyPercent : Z
}.

Definition zero_Decision : Decision := mkDecision f64_zero false false "" 0 0.

(** ** Thresholds *)

Definition ResolvePercents (cfg : Config) : Z * Z :=
  let proactive := if ProactivePercent cfg <=? 0 then DefaultProactivePercent
                   else ProactivePercent cfg in
  let emergency := if EmergencyPercent cfg <=? 0 then DefaultEmergencyPercent
                   else EmergencyPercent cfg in
  (proactive, if emergency <? proactive then proactive else emergency).

Definition scope_percents (cfg : Config) (p e : Z) : Config :=
  let cfg := if 0 <? p then cfg <| ProactivePercent := p |> else cfg in
  if 0 <? e then cfg <| EmergencyPercent := e |> else cfg.

Definition ResolveWindowPercents (cfg : Config) (w : string) : Z * Z :=
  ResolvePercents
    (if w == WindowFiveHour then
       scope_percents cfg (FiveHourProactivePercent cfg) (FiveHourEmergencyPercent cfg)
     else if w == WindowWeekly then
       scope_percents cfg (WeeklyProactivePercent cfg) (WeeklyEmergencyPercent cfg)
     else cfg).

(** ** The subscription windows *)

Definition active (reset now : Time) : bool := negb (IsZero reset) && After reset now.

Definition SnapshotFresh (cfg : Config) (observedAt now : Time) : bool :=
  if (MaxSnapshotAge cfg <=? 0) || IsZero observedAt then true
  else Sub now observedAt <=? MaxSnapshotAge cfg.

(** One turn of the loop over the two windows, [worst] threaded along. *)
Definition window_step (cfg : Config) (now : Time) (acc : Decision * float64)
    (w : string * float64 * Time) : Decision * float64 :=
  let '(d, worst) := acc in
  let '(name, percent, reset) := w in
  if negb (active reset now) then (d, worst)
  else
    let '(proactive, emergency) := ResolveWindowPercents cfg name in
    let pb := if f64_leb (f64_of_int proactive) percent then true else ProactiveBlocked d in
    let eb := if f64_leb (f64_of_int emergency) percent then true else EmergencyBlocked d in
    let ratio := f64_div percent (f64_of_int proactive) in
    if f64_ltb worst ratio then (mkDecision percent pb eb name proactive emergency, ratio)
    else (mkDecision (UsedPercent d) pb eb (GoverningWindow d) (GoverningProactivePercent d)
            (GoverningEmergencyPercent d), worst).

Definition subscription_windows (sub : Subscription) : list (string * float64 * Time) :=
  [(WindowFiveHour, FiveHourPercent sub, FiveHourReset sub);
   (WindowWeekly, WeeklyPercent sub, WeeklyReset sub)].

Definition subscriptionDecision (cfg : Config) (sub : Subscription) (now : Time) : Decision :=
  if negb (SnapshotFresh cfg (ObservedAt sub) now) then zero_Decision
  else fst (fold_left (window_step cfg now) (subscription_windows sub)
              (zero_Decision, f64_of_int (-1))).

Definition subscriptionUsedPercent (sub : Subscription) (now : Time) : float64 :=
  let pct := f64_zero in
  let pct := if active (FiveHourReset sub) now && f64_ltb pct (FiveHourPercent sub)
             then FiveHourPercent sub else pct in
  if active (WeeklyReset sub) now && f64_ltb pct (WeeklyPercent sub) then WeeklyPercent sub else pct.

Definition KindBlocked (cfg : Config) (sub : Subscription) (kind : string) (now : Time) : bool :=
  if negb (Enabled cfg) || (Mode cfg != ModeClaudeSubscription) then false
  else match SpawnCeilingByKind cfg !! kind with
       | None => false
       | Some ceiling =>
           if ceiling <=? 0 then false
           else f64_leb (f64_of_int ceiling) (subscriptionUsedPercent sub now)
       end.

(** ** The custom window *)

Section Cron.

(** The cron library, which the package only calls: its parsed schedules, its
    parser, and the next fire after an instant (zero when there is none). *)
Context {Schedule : Type}.
Context (ParseStandard : string -> option Schedule).
Context (Next : Schedule -> Time -> Time).

Definition ParseSchedule (schedule : string) : option Schedule := ParseStandard schedule.

(** The loop [for t := Next(floor); !t.IsZero() && !t.After(now); t = Next(t)], [last]
    being [None] until the first fire.  Running out of fuel reads [None]. *)
Fixpoint fires_until (fuel : nat) (sched : Schedule) (now t : Time) (last : option Time)
  : option (option Time) :=
  match fuel with
  | O => None
  | S fuel' =>
      if IsZero t || After t now then Some last
      else fires_until fuel' sched now (Next sched t) (Some t)
  end.

(** Schedules fire on whole seconds, so the search range of two windows holds at
    most one fire per second ([fires_until_spec]). *)
Definition search_fuel (floor now : Time) : nat := Z.to_nat ((now - floor) / Second + 3).

Definition CurrentWindowStart (sched : Schedule) (now : Time) (window : Duration) : option Time :=
  let window := if window <=? 0 then 7 * 24 * Hour else window in
  let floor := Add now (i64 (-2 * window)) in
  match fires_until (search_fuel floor now) sched now (Next sched floor) None with
  | Some last => last
  | None => None
  end.

Definition windowStartFor (cfg : Config) (now : Time) : option Time :=
  match ParseSchedule (ResetSchedule cfg) with
  | None => None
  | Some sched => CurrentWindowStart sched now (WindowDuration cfg)
  end.

Definition Roll (cfg : Config) (state : WindowState) (now : Time) (addTokens : Z) : WindowState :=
  let state := match windowStartFor cfg now with
               | Some start => if Before (WindowStart state) start then mkWindowState start 0 else state
               | None => state
               end in
  if 0 <? addTokens then mkWindowState (WindowStart state) (i64 (WindowTokens state + addTokens))
  else state.

Definition usedPercent (cfg : Config) (state : WindowState) (now : Time) : float64 :=
  if TokenLimit cfg <=? 0 then f64_zero
  else
    let rolled := Roll cfg state now 0 in
    f64_mul (f64_div (f64_of_int (WindowTokens rolled)) (f64_of_int (TokenLimit cfg)))
            (f64_of_int 100).

Definition Evaluate (cfg : Config) (state : WindowState) (sub : Subscription) (now : Time) : Decision :=
  if negb (Enabled cfg) then zero_Decision
  else if Mode cfg == ModeClaudeSubscription then subscriptionDecision cfg sub now
  else
    let '(proactive, emergency) := ResolvePercents cfg in
    let used := usedPercent cfg state now in
    mkDecision used (f64_leb (f64_of_int proactive) used) (f64_leb (f64_of_int emergency) used)
      "" proactive emergency.

Definition Validate (c : Config) : bool :=
  if negb (Enabled c) then true
  else if (ProactivePercent c <? 0) || (100 <? ProactivePercent c) then false
  else if (EmergencyPercent c <? 0) || (100 <? EmergencyPercent c) then false
  else if Mode c == ModeCustomWindow then
    is_set (ParseSchedule (ResetSchedule c)) && (0 <? TokenLimit c)
  else Mode c == ModeClaudeSubscription.

End Cron.

(** The percentages a Project can hold, and more: below the float's exact range. *)
Definition percents_in_range (cfg : Config) : Prop :=
  Forall (fun p => p < 2 ^ 53)
    [ProactivePercent cfg; EmergencyPercent cfg; FiveHourProactivePercent cfg;
     FiveHourEmergencyPercent cfg; WeeklyProactivePercent cfg; WeeklyEmergencyPercent cfg].

(** A window of the snapshot whose usage has reached a threshold. *)
Definition window_over (cfg : Config) (now : Time) (threshold : Z * Z -> Z)
    (w : string * float64 * Time) : bool :=
  let '(name, percent, reset) := w in
  active reset now && f64_leb (f64_of_int (threshold (ResolveWindowPercents cfg name))) percent.

(** A schedule that fires every so many seconds, for the worked instances. *)
Definition every (period : positive) (t : Time) : Time :=
  (t / (Z.pos period * Second) + 1) * (Z.pos period * Second).

Definition every_fires (period : positive) (f : Time) : Prop :=
  f `mod` (Z.pos period * Second) = 0.

Definition subscription_config : Config :=
  mkConfig true ModeClaudeSubscription 0 0 "" 0 0 ∅ 40 0 0 0 DefaultMaxSnapshotAge.

Definition custom_config : Config :=
  mkConfig true ModeCustomWindow 0 0 "hourly" Hour 1000 ∅ 0 0 0 0 0.

(** 45 percent of the five-hour window, which resets at [reset]. *)
Definition busy (reset : Time) : Subscription :=
  mkSubscription (f64_of_int 45) reset (f64_of_int 10) 0 0.

(** ** Lemmas *)

Lemma ResolvePercents_spec cfg p e :
  ResolvePercents cfg = (p, e) -> ProactivePercent cfg < 2 ^ 53 -> EmergencyPercent cfg < 2 ^ 53 ->
  0 < p <= e /\ e < 2 ^ 53.
Proof.
  unfold ResolvePercents, DefaultProactivePercent, DefaultEmergencyPercent. intros [= <- <-] H1 H2.
  destruct (Z.leb_spec (ProactivePercent cfg) 0), (Z.leb_spec (EmergencyPercent cfg) 0);
    destruct (Z.ltb_spec 80 50); try lia;
    repeat (match goal with |- context [if ?a <? ?b then _ else _] => destruct (Z.ltb_spec a b) end); lia.
Qed.

Lemma scope_percents_range cfg p e :
  ProactivePercent cfg < 2 ^ 53 -> EmergencyPercent cfg < 2 ^ 53 -> p < 2 ^ 53 -> e < 2 ^ 53 ->
  ProactivePercent (scope_percents cfg p e) < 2 ^ 53
  /\ EmergencyPercent (scope_percents cfg p e) < 2 ^ 53.
Proof. intros. unfold scope_percents. by destruct (0 <? p), (0 <? e). Qed.

Lemma ResolveWindowPercents_spec cfg w p e :
  percents_in_range cfg -> ResolveWindowPercents cfg w = (p, e) -> 0 < p <= e /\ e < 2 ^ 53.
Proof.
  intros H. unfold percents_in_range in H. rewrite !Forall_cons in H.
  destruct H as (H1 & H2 & H3 & H4 & H5 & H6 & _). unfold ResolveWindowPercents.
  destruct (w == WindowFiveHour).
  { intros E. destruct (scope_percents_range cfg (FiveHourProactivePercent cfg)
      (FiveHourEmergencyPercent cfg)); try done. by apply ResolvePercents_spec in E. }
  destruct (w == WindowWeekly).
  { intros E. destruct (scope_percents_range cfg (WeeklyProactivePercent cfg)
      (WeeklyEmergencyPercent cfg)); try done. by apply ResolvePercents_spec in E. }
  intros E. by apply ResolvePercents_spec in E.
Qed.

(** Reaching the higher of two thresholds reaches the lower. *)
Lemma threshold_mono p e used :
  0 < p <= e -> e < 2 ^ 53 -> f64_leb (f64_of_int e) used = true ->
  f64_leb (f64_of_int p) used = true.
Proof.
  intros Hp He H. apply (f64_leb_trans _ (f64_of_int e)); [|exact H].
  rewrite !f64_of_int_exact by lia. rewrite f64_leb_int by lia. apply Z.leb_le. lia.
Qed.

(** The verdicts of the loop are the disjunction over its windows. *)
Lemma window_fold cfg now ws : forall d worst,
  let d' := fst (fold_left (window_step cfg now) ws (d, worst)) in
  ProactiveBlocked d' = ProactiveBlocked d || existsb (window_over cfg now fst) ws
  /\ EmergencyBlocked d' = EmergencyBlocked d || existsb (window_over cfg now snd) ws.
Proof.
  induction ws as [|[[name percent] reset] ws IH]; intros d worst; cbn -[f64_of_int f64_leb ResolveWindowPercents f64_div].
  - by rewrite !orb_false_r.
  - destruct (active reset now); cbn -[f64_of_int f64_leb ResolveWindowPercents f64_div]; [|apply IH].
    destruct (ResolveWindowPercents cfg name) as [p e]. cbn -[f64_of_int f64_leb ResolveWindowPercents f64_div].
    destruct (f64_ltb worst _);
      match goal with |- context [fold_left _ ws (?d', ?w')] => destruct (IH d' w') as [-> ->] end;
      cbn -[f64_of_int f64_leb ResolveWindowPercents f64_div];
      destruct (f64_leb (f64_of_int p) percent), (f64_leb (f64_of_int e) percent);
      by rewrite ?orb_true_r.
Qed.

Lemma subscription_blocks cfg sub now :
  let d := subscriptionDecision cfg sub now in
  let fresh := SnapshotFresh cfg (ObservedAt sub) now in
  ProactiveBlocked d = fresh && existsb (window_over cfg now fst) (subscription_windows sub)
  /\ EmergencyBlocked d = fresh && existsb (window_over cfg now snd) (subscription_windows sub).
Proof.
  cbv zeta. unfold subscriptionDecision. destruct (SnapshotFresh _ _ _); [|done]. cbn [negb].
  destruct (window_fold cfg now (subscription_windows sub) zero_Decision (f64_of_int (-1))) as [-> ->].
  done.
Qed.

(** ** The cron search *)

Section CronSpec.

Context {Schedule : Type}.
Context (ParseStandard : string -> option Schedule).
Context (Next : Schedule -> Time -> Time).

(** The instants a schedule fires at. *)
Context (fires : Schedule -> Time -> Prop).

(** The documented behaviour of the library: the next fire is the earliest one after
    the given instant, schedules fire on whole seconds, and the zero time means that
    none was found within five years. *)
Definition five_years : Duration := 5 * 365 * 24 * Hour.

Definition next_fire : Prop := forall s t, 0 <= t ->
  (Next s t <> 0 ->
     t < Next s t /\ fires s (Next s t) /\ Next s t `mod` Second = 0
     /\ forall f, fires s f -> t < f -> Next s t <= f)
  /\ (Next s t = 0 -> forall f, fires s f -> t < f -> t + five_years < f).

(** The latest fire of a half-open range. *)
Definition latest_fire (s : Schedule) (lo hi : Time) (f : Time) : Prop :=
  fires s f /\ lo < f <= hi /\ forall g, fires s g -> lo < g <= hi -> g <= f.

Lemma fires_until_spec (Hn : next_fire) s now fuel : forall prev last,
  now - prev <= five_years ->
  0 <= prev -> prev <= now ->
  (Next s prev <> 0 -> (now - Next s prev) / Second + 1 < Z.of_nat fuel) -> (0 < fuel)%nat ->
  exists r, fires_until Next fuel s now (Next s prev) last = Some r
  /\ match r with
     | Some f => r = last /\ (forall g, fires s g -> ~ prev < g <= now) \/ latest_fire s prev now f
     | None => last = None /\ forall g, fires s g -> ~ prev < g <= now
     end.
Proof.
  induction fuel as [|fuel IH]; intros prev last Hr H0 Hp Hf Hpos; [lia|].
  destruct (Hn s prev H0) as [Hsome Hnone]. cbn [fires_until]. unfold IsZero, After.
  destruct (Z.eqb_spec (Next s prev) 0) as [Ez|Ez]; cbn [orb].
  - exists last. split; [done|]. specialize (Hnone Ez).
    assert (forall g, fires s g -> ~ prev < g <= now) as Hno.
    { intros g Hg [H1 H2]. specialize (Hnone g Hg H1). lia. }
    destruct last; auto.
  - destruct (Hsome Ez) as (Hlt & Hfire & Hsec & Hmin). specialize (Hf Ez).
    destruct (Z.ltb_spec now (Next s prev)) as [Hgt|Hle].
    + exists last. split; [done|].
      assert (forall g, fires s g -> ~ prev < g <= now) as Hno.
      { intros g Hg [H1 H2]. specialize (Hmin g Hg H1). lia. }
      destruct last; auto.
    + destruct (IH (Next s prev) (Some (Next s prev))) as (r & -> & Hspec).
      * lia.
      * lia.
      * lia.
      * intros Ez'. destruct (Hn s (Next s prev)) as [Hs' _]; [lia|].
        destruct (Hs' Ez') as (Hlt' & _ & Hsec' & _).
        assert (Next s prev + Second <= Next s (Next s prev)) as Hstep.
        { apply Z.mod_divide in Hsec as [a Ea]; [|done]. apply Z.mod_divide in Hsec' as [b Eb]; [|done].
          rewrite Ea, Eb in *. unfold Second in *. nia. }
        assert ((now - Next s (Next s prev)) / Second <= (now - Next s prev) / Second - 1) as Hd.
        { replace ((now - Next s prev) / Second - 1) with ((now - Next s prev + (-1) * Second) / Second)
            by (rewrite Z.div_add by done; lia).
          apply Z.div_le_mono; [done|lia]. }
        lia.
      * assert (0 <= (now - Next s prev) / Second) by (apply Z.div_pos; [lia|done]). lia.
      * exists r. split; [done|].
        destruct r as [f|]; [|by destruct Hspec].
        right. destruct Hspec as [[[= ->] Hno]|(Hff & Hrange & Hmax)].
        -- split; [done|]. split; [lia|]. intros g Hg Hgr.
           destruct (Z.le_gt_cases g (Next s prev)); [done|].
           destruct (Hno g Hg). lia.
        -- split; [done|]. split; [lia|]. intros g Hg Hgr.
           destruct (Z.le_gt_cases g (Next s prev)); [lia|]. apply Hmax; [done|lia].
Qed.

Lemma CurrentWindowStart_spec (Hn : next_fire) s now window :
  0 < window -> 2 * window <= five_years -> 2 * window <= now ->
  match CurrentWindowStart Next s now window with
  | Some f => latest_fire s (now - 2 * window) now f
  | None => forall g, fires s g -> ~ now - 2 * window < g <= now
  end.
Proof.
  intros Hw H5 Hnow. unfold CurrentWindowStart.
  destruct (Z.leb_spec window 0); [lia|].
  assert (five_years < two63) as H63 by (vm_compute; reflexivity).
  rewrite i64_small by (unfold in_i64; lia). unfold Add.
  set (floor := now + -2 * window).
  assert (now - 2 * window = floor) as -> by (unfold floor; lia).
  destruct (fires_until_spec Hn s now (search_fuel floor now) floor None) as (r & -> & H1).
  - unfold floor. lia.
  - unfold floor. lia.
  - unfold floor. lia.
  - intros Hz. destruct (Hn s floor) as [Hs _]; [unfold floor; lia|]. destruct (Hs Hz) as (Hlt & _).
    unfold search_fuel. rewrite Z2Nat.id.
    + assert ((now - Next s floor) / Second <= (now - floor) / Second); [|lia].
      apply Z.div_le_mono; [done|lia].
    + assert (0 <= (now - floor) / Second); [|lia]. apply Z.div_pos; [unfold floor; lia|done].
  - unfold search_fuel. assert (0 <= (now - floor) / Second); [|lia].
    apply Z.div_pos; [unfold floor; lia|done].
  - destruct r as [f|]; [|by destruct H1]. destruct H1 as [[? _]|H1]; [done|exact H1].
Qed.

End CronSpec.

(** ** Properties *)

(** incidents are never held while proactive work is let through.  Whatever the
    mode, the accumulator, the snapshot (a NaN percentage included) and the instant,
    a decision that blocks the alert pool blocks the normal pool as well. *)
Theorem emergency_implies_proactive {Schedule : Type} (ParseStandard : string -> option Schedule)
    (Next : Schedule -> Time -> Time) cfg state sub now :
  percents_in_range cfg ->
  let d := Evaluate ParseStandard Next cfg state sub now in
  EmergencyBlocked d = true -> ProactiveBlocked d = true.
Proof.
  intros Hr. cbv zeta. unfold Evaluate. destruct (Enabled cfg); [|done]. cbn [negb].
  destruct (_ == _).
  - destruct (subscription_blocks cfg sub now) as [-> ->].
    destruct (SnapshotFresh _ _ _); [|done]. cbn [andb].
    rewrite !existsb_exists. intros ([[name percent] reset] & Hin & Hw).
    exists (name, percent, reset). split; [done|]. revert Hw. unfold window_over.
    destruct (ResolveWindowPercents cfg name) as [p e] eqn:E.
    apply ResolveWindowPercents_spec in E as [Hp He]; [|done].
    destruct (active reset now); [|done]. cbn [andb fst snd]. by apply threshold_mono.
  - unfold percents_in_range in Hr. rewrite !Forall_cons in Hr. destruct Hr as (H1 & H2 & _).
    destruct (ResolvePercents cfg) as [p e] eqn:E. apply ResolvePercents_spec in E as [Hp He]; [|done..].
    cbn [ProactiveBlocked EmergencyBlocked]. by apply threshold_mono.
Qed.

(** the subscription gate is exact and fails open.  It blocks a pool if and only
    if the gate is enabled, the snapshot is not stale, and some window whose reset is
    known and still ahead has reached that window's own threshold for the pool; with
    the gate off, a stale snapshot or no active window, nothing is blocked. *)
Theorem subscription_gate_exact {Schedule : Type} (ParseStandard : string -> option Schedule)
    (Next : Schedule -> Time -> Time) cfg state sub now :
  Mode cfg = ModeClaudeSubscription ->
  let d := Evaluate ParseStandard Next cfg state sub now in
  let on := Enabled cfg && SnapshotFresh cfg (ObservedAt sub) now in
  ProactiveBlocked d = on && existsb (window_over cfg now fst) (subscription_windows sub)
  /\ EmergencyBlocked d = on && existsb (window_over cfg now snd) (subscription_windows sub)
  /\ (active (FiveHourReset sub) now = false -> active (WeeklyReset sub) now = false ->
      ProactiveBlocked d = false /\ EmergencyBlocked d = false).
Proof.
  intros Hm. cbv zeta. unfold Evaluate. rewrite Hm, String.eqb_refl.
  destruct (Enabled cfg); [|done]. cbn [negb andb].
  destruct (subscription_blocks cfg sub now) as [-> ->].
  split; [done|]. split; [done|]. intros H5 H7. cbn [subscription_windows existsb window_over].
  rewrite H5, H7. cbn. by rewrite andb_false_r.
Qed.

(** the custom window opens at the latest reset.  For a window of at most two and
    a half years, the search over two windows terminates and returns the latest fire
    of the schedule in that range, or nothing exactly when there is none. *)
Theorem CurrentWindowStart_latest {Schedule : Type} (Next : Schedule -> Time -> Time)
    (fires : Schedule -> Time -> Prop) s now window :
  next_fire Next fires ->
  0 < window -> 2 * window <= five_years -> 2 * window <= now ->
  forall f, CurrentWindowStart Next s now window = Some f <->
            latest_fire fires s (now - 2 * window) now f.
Proof.
  intros Hn Hw H5 Hnow f. pose proof (CurrentWindowStart_spec Next fires Hn s now window Hw H5 Hnow) as H.
  destruct (CurrentWindowStart Next s now window) as [g|].
  - split; [by intros [= <-]|]. intros (H1 & H2 & H3). destruct H as (G1 & G2 & G3).
    f_equal. specialize (H3 g G1 G2). specialize (G3 f H1 H2). lia.
  - split; [done|]. intros (H1 & H2 & _). by destruct (H f H1).
Qed.

(** Rolling the accumulator is idempotent and additive.  At one instant, adding
    [a] and then [b] tokens is adding both at once, the pure read changes nothing a
    second time, and the window never moves backwards. *)
Theorem Roll_accumulates {Schedule : Type} (ParseStandard : string -> option Schedule)
    (Next : Schedule -> Time -> Time) cfg st now a b :
  0 <= a < two63 -> 0 <= b < two63 -> a + b < two63 ->
  let roll := Roll ParseStandard Next cfg in
  roll (roll st now a) now b = roll st now (a + b)
  /\ roll (roll st now 0) now 0 = roll st now 0
  /\ WindowStart st <= WindowStart (roll st now a)
  /\ (WindowStart (roll st now a) = WindowStart st /\ (0 < a -> WindowTokens (roll st now a) = i64 (WindowTokens st + a))
      \/ WindowStart st < WindowStart (roll st now a) /\ WindowTokens (roll st now a) = a).
Proof.
  intros Ha Hb Hab. cbv zeta. destruct st as [w0 n0].
  assert (forall w n c, 0 <= c < two63 ->
    Roll ParseStandard Next cfg (mkWindowState w n) now c
    = match windowStartFor ParseStandard Next cfg now with
      | Some start => if w <? start then mkWindowState start c
                      else mkWindowState w (if 0 <? c then i64 (n + c) else n)
      | None => mkWindowState w (if 0 <? c then i64 (n + c) else n)
      end) as Hroll.
  { intros w n c Hc. unfold Roll, Before. destruct (windowStartFor _ _ _ _) as [start|]; cbn;
      [destruct (w <? start); cbn|]; destruct (Z.ltb_spec 0 c); cbn; try done.
    - f_equal. by rewrite i64_small by (unfold in_i64, two63 in *; lia).
    - f_equal. lia. }
  assert (forall n, (if 0 <? b then i64 ((if 0 <? a then i64 (n + a) else n) + b)
                     else (if 0 <? a then i64 (n + a) else n))
                    = if 0 <? a + b then i64 (n + (a + b)) else n) as Hadd.
  { intros n. destruct (Z.ltb_spec 0 a), (Z.ltb_spec 0 b), (Z.ltb_spec 0 (a + b)); try lia;
      rewrite ?i64_i64_add; try done; f_equal; lia. }
  rewrite !Hroll by (unfold two63 in *; lia).
  destruct (windowStartFor _ _ _ _) as [start|] eqn:Ew; cbn [WindowStart WindowTokens].
  - destruct (Z.ltb_spec w0 start) as [Hlt|Hge]; rewrite !Hroll by (unfold two63 in *; lia); cbn.
    + rewrite Z.ltb_irrefl. split; [|split; [done|split; [lia|auto]]].
      f_equal. destruct (Z.ltb_spec 0 b); [|f_equal; lia].
      by rewrite i64_small by (unfold in_i64, two63 in *; lia).
    + rewrite (proj2 (Z.ltb_ge _ _) Hge), Hadd. split; [done|]. split; [done|]. split; [lia|].
      left. split; [done|]. intros H0. by rewrite (proj2 (Z.ltb_lt _ _) H0).
  - rewrite !Hroll by (unfold two63 in *; lia). cbn. rewrite Hadd.
    split; [done|]. split; [done|]. split; [lia|].
    left. split; [done|]. intros H0. by rewrite (proj2 (Z.ltb_lt _ _) H0).
Qed.

(** ** Witnesses *)

Lemma every_next : next_fire every every_fires.
Proof.
  intros p t Ht. unfold every, every_fires. set (q := Z.pos p * Second).
  assert (0 < q) as Hq by (unfold q, Second; lia).
  assert (0 <= t / q) as Hd by (apply Z.div_pos; lia).
  pose proof (Z.div_mod t q ltac:(lia)) as E. pose proof (Z.mod_pos_bound t q Hq) as Hm.
  split; [|nia]. intros _. split; [nia|]. split; [by rewrite Z.mod_mul by lia|]. split.
  - unfold q. rewrite Z.mul_assoc. apply Z.mod_mul. done.
  - intros f Hf Hlt. apply Z.mod_divide in Hf as [k ->]; [|lia].
    assert (t / q < k) by (apply Z.div_lt_upper_bound; lia). apply Z.mul_le_mono_nonneg_r; lia.
Qed.

Lemma emergency_implies_proactive_witness :
  EmergencyBlocked (Evaluate (fun _ => Some 3600%positive) every custom_config
                      (mkWindowState (10800 * Second) 850) (busy 0) (10801 * Second)) = true
  /\ ProactiveBlocked (Evaluate (fun _ => Some 3600%positive) every custom_config
                        (mkWindowState (10800 * Second) 850) (busy 0) (10801 * Second)) = true.
Proof.
  assert (EmergencyBlocked (Evaluate (fun _ => Some 3600%positive) every custom_config
    (mkWindowState (10800 * Second) 850) (busy 0) (10801 * Second)) = true) as H
    by (vm_compute; reflexivity).
  split; [exact H|]. revert H. apply emergency_implies_proactive.
  repeat constructor.
Defined.

Lemma subscription_gate_exact_witness :
  ProactiveBlocked (Evaluate (fun _ => Some 1%positive) every subscription_config
                      (mkWindowState 0 0) (busy 20) 10) = true
  /\ EmergencyBlocked (Evaluate (fun _ => Some 1%positive) every subscription_config
                        (mkWindowState 0 0) (busy 20) 10) = false.
Proof.
  destruct (subscription_gate_exact (fun _ => Some 1%positive) every subscription_config
    (mkWindowState 0 0) (busy 20) 10 eq_refl) as (H1 & H2 & _).
  rewrite H1, H2. vm_compute. split; reflexivity.
Defined.

Lemma CurrentWindowStart_latest_witness :
  latest_fire every_fires 60%positive (1000 * Second - 2 * (100 * Second)) (1000 * Second) (960 * Second).
Proof.
  apply (CurrentWindowStart_latest every every_fires 60%positive (1000 * Second) (100 * Second));
    [exact every_next|reflexivity|vm_compute; discriminate|vm_compute; discriminate|].
  vm_compute. reflexivity.
Defined.

Lemma Roll_accumulates_witness :
  Roll (fun _ => Some 3600%positive) every custom_config
    (Roll (fun _ => Some 3600%positive) every custom_config (mkWindowState 0 850) (10801 * Second) 30)
    (10801 * Second) 12
  = mkWindowState (10800 * Second) 42.
Proof.
  destruct (Roll_accumulates (fun _ => Some 3600%positive) every custom_config (mkWindowState 0 850)
    (10801 * Second) 30 12) as [H _]; [unfold two63; lia..|].
  rewrite H. vm_compute. reflexivity.
Defined.
