(* ===== verification/Settings.v ===== *)
(** * The project settings the operator's limits are read from
    (api/v1alpha1/project_types.go): the concurrency and live-pod ceilings, the two
    queue capacities, and the token-budget gate's configuration and ledger. *)

From S2P Require Import Prelude GoTime Api Budget.
From Stdlib Require Import String.

Open Scope Z_scope.
Open Scope go_scope.

(** ** Ceilings *)

(** The functions of a [*Project] accept nil. *)
Definition spec_int (f : Project -> Z) (p : option Project) : Z :=
  match p with Some p => f p | None => 0 end.

Definition MaxConcurrentAgents (p : option Project) : Z :=
  if 0 <? spec_int proj_MaxConcurrentAgents p then spec_int proj_MaxConcurrentAgents p
  else DefaultMaxConcurrentAgents.

Definition MaxLivePods (p : option Project) : Z :=
  let want := DefaultMaxLivePods in
  let want := if 0 <? spec_int proj_MaxLivePods p then spec_int proj_MaxLivePods p else want in
  let ceiling := i64 (MaxConcurrentAgents p - 1) in
  let want := if ceiling <? want then ceiling else want in
  if want <? 1 then 1 else want.

Definition conversation_idle_minutes (p : option Project) : Z :=
  match p with
  | Some p => match proj_Scm p with Some s => scm_ConversationIdleMinutes s | None => 0 end
  | None => 0
  end.

Definition ConversationIdle (p : option Project) : Duration :=
  if 0 <? conversation_idle_minutes p then
    let d := i64 (conversation_idle_minutes p * Minute) in
    if d <? ConversationIdleFloor then ConversationIdleFloor else d
  else ConversationIdleDefault.

(** ** Queue capacities *)

Definition queue_int (f : QueueSpec -> Z) (p : Project) : Z :=
  match proj_Queue p with Some q => f q | None => 0 end.

Definition QueueCapacity (p : Project) : Z :=
  if 0 <? queue_int q_Capacity p then queue_int q_Capacity p
  else if 0 <? proj_MaxConcurrentAgents p then proj_MaxConcurrentAgents p
  else 3.

Definition AlertCapacity (p : Project) : Z :=
  if 0 <? queue_int q_AlertCapacity p then queue_int q_AlertCapacity p else 1.

(** ** The token budget *)

(** A positive setting replaces the default, any other leaves it. *)
Definition pos_or (v dflt : Z) : Z := if 0 <? v then v else dflt.

Definition str_or (v dflt : string) : string := if v != "" then v else dflt.

Definition override (s : TokenBudgetSpec) (cfg : Config) : Config :=
  mkConfig (tb_Enabled s) (str_or (tb_Mode s) (Mode cfg))
    (pos_or (tb_ProactivePercent s) (ProactivePercent cfg))
    (pos_or (tb_EmergencyPercent s) (EmergencyPercent cfg))
    (str_or (tb_ResetSchedule s) (ResetSchedule cfg))
    (if tb_WindowDuration s != "" then
       match ParseDuration (tb_WindowDuration s) with Some d => d | None => WindowDuration cfg end
     else WindowDuration cfg)
    (pos_or (tb_TokenLimit s) (TokenLimit cfg))
    (if Nat.ltb 0 (size (tb_SpawnCeilingByKind s)) then tb_SpawnCeilingByKind s
     else SpawnCeilingByKind cfg)
    (pos_or (tb_FiveHourProactivePercent s) (FiveHourProactivePercent cfg))
    (pos_or (tb_FiveHourEmergencyPercent s) (FiveHourEmergencyPercent cfg))
    (pos_or (tb_WeeklyProactivePercent s) (WeeklyProactivePercent cfg))
    (pos_or (tb_WeeklyEmergencyPercent s) (WeeklyEmergencyPercent cfg))
    (MaxSnapshotAge cfg).

Definition BudgetConfig (p : Project) (defaults : Config) : Config :=
  match proj_TokenBudget p with None => defaults | Some s => override s defaults end.

Definition BudgetWindowState (p : Project) : WindowState :=
  match proj_TokenBudgetStatus p with
  | None => mkWindowState 0 0
  | Some st => mkWindowState (default 0 (tbs_WindowStart st)) (tbs_WindowTokens st)
  end.

Definition SetBudgetWindowState (p : Project) (ws : WindowState) : Project :=
  let st := default (mkTokenBudgetStatus None 0 0 None 0 None) (proj_TokenBudgetStatus p) in
  p <| proj_TokenBudgetStatus :=
         Some (mkTokenBudgetStatus (Some (WindowStart ws)) (WindowTokens ws)
                 (tbs_FiveHourPercent st) (tbs_FiveHourReset st)
                 (tbs_WeeklyPercent st) (tbs_WeeklyReset st)) |>.

Definition BudgetSubscription (p : Project) : Subscription :=
  match proj_TokenBudgetStatus p with
  | None => mkSubscription f64_zero 0 f64_zero 0 0
  | Some st =>
      mkSubscription (f64_of_int (tbs_FiveHourPercent st)) (default 0 (tbs_FiveHourReset st))
        (f64_of_int (tbs_WeeklyPercent st)) (default 0 (tbs_WeeklyReset st)) 0
  end.

(** ** Vocabulary of the witnesses *)

Definition five_agents : Project :=
  zero_Project <| proj_MaxConcurrentAgents := 5 |> <| proj_MaxLivePods := 3 |>.

(** ** Lemmas *)

Lemma MaxConcurrentAgents_pos p : 1 <= MaxConcurrentAgents p.
Proof.
  unfold MaxConcurrentAgents, DefaultMaxConcurrentAgents.
  destruct (Z.ltb_spec 0 (spec_int proj_MaxConcurrentAgents p)); lia.
Qed.

Lemma MaxLivePods_pos p : 1 <= MaxLivePods p.
Proof. unfold MaxLivePods. cbv zeta. match goal with |- context [?w <? 1] => destruct (Z.ltb_spec w 1) end; lia. Qed.

Lemma QueueCapacity_pos p : 1 <= QueueCapacity p.
Proof.
  unfold QueueCapacity. destruct (Z.ltb_spec 0 (queue_int q_Capacity p)); [lia|].
  destruct (Z.ltb_spec 0 (proj_MaxConcurrentAgents p)); lia.
Qed.

Lemma AlertCapacity_pos p : 1 <= AlertCapacity p.
Proof. unfold AlertCapacity. destruct (Z.ltb_spec 0 (queue_int q_AlertCapacity p)); lia. Qed.

(** the live-pod ceiling leaves a slot for work that is not a conversation: it is
    at least one, and strictly below the agent cap wherever that is two or more (at a
    cap of one, the two are equal); a setting below the cap is taken as it is. *)
Theorem MaxLivePods_leaves_a_slot (p : option Project) :
  in_i64 (MaxConcurrentAgents p) ->
  1 <= MaxLivePods p
  /\ (2 <= MaxConcurrentAgents p -> MaxLivePods p < MaxConcurrentAgents p)
  /\ (MaxConcurrentAgents p = 1 -> MaxLivePods p = 1)
  /\ (0 < spec_int proj_MaxLivePods p < MaxConcurrentAgents p ->
      MaxLivePods p = spec_int proj_MaxLivePods p).
Proof.
  intros Hr. pose proof (MaxConcurrentAgents_pos p) as Hp. split; [apply MaxLivePods_pos|].
  unfold MaxLivePods. rewrite (i64_small (MaxConcurrentAgents p - 1)) by (unfold in_i64 in *; lia).
  set (c := MaxConcurrentAgents p - 1). set (w := if 0 <? _ then _ else _).
  assert (0 < spec_int proj_MaxLivePods p -> w = spec_int proj_MaxLivePods p) as Hw.
  { intros H. unfold w. destruct (Z.ltb_spec 0 (spec_int proj_MaxLivePods p)); lia. }
  clearbody w. destruct (Z.ltb_spec c w), (Z.ltb_spec c 1), (Z.ltb_spec w 1); lia.
Qed.



Lemma MaxLivePods_leaves_a_slot_witness : MaxLivePods (Some five_agents) = 3.
Proof.
  refine (proj2 (proj2 (proj2 (MaxLivePods_leaves_a_slot (Some five_agents) _))) _);
    vm_compute; repeat split; discriminate.
Defined.

(** A window that is set is read back; what the project says about it before is lost. *)
Lemma SetBudgetWindowState_read (p : Project) (ws : WindowState) :
  BudgetWindowState (SetBudgetWindowState p ws) = ws.
Proof. by destruct ws. Qed.
