(* ===== verification/Own.v ===== *)
(** * Owner references (internal/own/own.go): which Tasks hold an artifact alive and
    which one controls it. *)

From S2P Require Import Prelude Api.

Open Scope Z_scope.
Open Scope go_scope.

(** ** Data *)

Definition taskKind : string := "Task".
Definition groupVersion : string := "tatara.dev/v1alpha1".

Definition eta_OwnerReference (r : OwnerReference) : OwnerReference :=
  mkOwnerReference (ref_APIVersion r) (ref_Kind r) (ref_Name r) (ref_UID r) (Controller r)
    (BlockOwnerDeletion r).

#[export] Instance set_Controller : Settable Controller :=
  ltac:(setter_of Controller eta_OwnerReference).
#[export] Instance set_BlockOwnerDeletion : Settable BlockOwnerDeletion :=
  ltac:(setter_of BlockOwnerDeletion eta_OwnerReference).

Definition isTaskRef (r : OwnerReference) : bool :=
  (ref_Kind r == taskKind) && (ref_APIVersion r == groupVersion).

(** A Task's reference names it. *)
Definition names (task : string) (r : OwnerReference) : bool := isTaskRef r && (ref_Name r == task).

(** A reference that carries [controller=true]. *)
Definition controls (r : OwnerReference) : bool := default false (Controller r).

(** ** Operations: an object is the list of its owner references *)

Definition plain_ref (task uid : string) : OwnerReference :=
  mkOwnerReference groupVersion taskKind task uid None (Some true).

Definition AddPlainOwner (refs : list OwnerReference) (task uid : string) : bool * list OwnerReference :=
  if existsb (names task) refs then (false, refs)
  else (true, (refs ++ [plain_ref task uid])%list).

Inductive HandOverError :=
  | HandOverToNil
  | NotAnOwner (task : string)
  | HandOverToItself (task : string).

(** The first index whose reference names the Task. *)
Fixpoint find_target (refs : list OwnerReference) (task : string) (i : nat) : option nat :=
  match refs with
  | [] => None
  | r :: refs' => if names task r then Some i else find_target refs' task (S i)
  end.

(** Both flags of a Task reference, as the loop writes them. *)
Definition set_flags (r : OwnerReference) (controller : bool) : OwnerReference :=
  r <| BlockOwnerDeletion := Some true |> <| Controller := Some controller |>.

(** The rewriting loop, [i] the index of the head of [refs]. *)
Fixpoint promote (refs : list OwnerReference) (target i : nat) : list OwnerReference :=
  match refs with
  | [] => []
  | r :: refs' =>
      (if negb (isTaskRef r) then r else set_flags r (Nat.eqb i target)) :: promote refs' target (S i)
  end.

(** [from] and [to] are nil-able; only their names are read. *)
Definition HandOverController (refs : list OwnerReference) (from to : option string)
  : result HandOverError (list OwnerReference) :=
  match to with
  | None => Err HandOverToNil
  | Some to =>
      match find_target refs to 0 with
      | None => Err (NotAnOwner to)
      | Some target =>
          if match from with Some f => f == to | None => false end
          then Err (HandOverToItself to)
          else Ok (promote refs target 0)
      end
  end.

Definition ControllerOwner (refs : list OwnerReference) : option string :=
  option_map ref_Name (List.find (fun r => isTaskRef r && controls r) refs).

(** A name absent from the map is dead. *)
Definition OldestSurvivingOwner (refs : list OwnerReference) (live : gmap string bool) : option string :=
  option_map ref_Name
    (List.find (fun r => isTaskRef r && default false (live !! ref_Name r)) refs).

Definition DropOwner (refs : list OwnerReference) (task : string) : bool * list OwnerReference :=
  let kept := List.filter (fun r => negb (names task r)) refs in
  if Nat.eqb (length kept) (length refs) then (false, refs) else (true, kept).

(** ** The repair guard, the one operation that talks to the API server *)

(** What a Get of an owner Task answers. *)
Inductive GetResult := Found (t : Task) | NotFound | GetFailed.

(** What the guard does besides changing the object in memory. *)
Inductive Effect := CountOrphan | UpdateObject (refs : list OwnerReference).

Inductive RepairError := ResolveFailed (task : string) | PromoteFailed (e : HandOverError) | UpdateFailed.

(** The loop over the owner names: the liveness map, or the name whose Get failed. *)
Fixpoint resolve_live (get : string -> GetResult) (owners : list string) (live : gmap string bool)
  : result string (gmap string bool) :=
  match owners with
  | [] => Ok live
  | name :: owners' =>
      match get name with
      | Found t => resolve_live get owners' (<[name := negb (TaskDone t)]> live)
      | NotFound => resolve_live get owners' (<[name := false]> live)
      | GetFailed => Err name
      end
  end.

(** The outcome, the object in memory afterwards, and the effects in order. *)
Record Repair := mkRepair {
  rp_result : result RepairError bool;
  rp_refs : list OwnerReference;
  rp_effects : list Effect
}.

(** [update] says whether the API server accepts the Update. *)
Definition RepairZeroController (get : string -> GetResult) (update : bool)
    (refs : list OwnerReference) : Repair :=
  match ControllerOwner refs with
  | Some _ => mkRepair (Ok false) refs []
  | None =>
      match map ref_Name (List.filter isTaskRef refs) with
      | [] => mkRepair (Ok false) refs []
      | owners =>
          match resolve_live get owners ∅ with
          | Err name => mkRepair (Err (ResolveFailed name)) refs [CountOrphan]
          | Ok live =>
              match OldestSurvivingOwner refs live with
              | None => mkRepair (Ok false) refs [CountOrphan]
              | Some heir =>
                  match HandOverController refs None (Some heir) with
                  | Err e => mkRepair (Err (PromoteFailed e)) refs [CountOrphan]
                  | Ok refs' =>
                      if update then mkRepair (Ok true) refs' [CountOrphan; UpdateObject refs']
                      else mkRepair (Err UpdateFailed) refs' [CountOrphan; UpdateObject refs']
                  end
              end
          end
      end
  end.

(** ** What the operations may not touch *)

(** The identity of a reference: everything but its two flags. *)
Definition identity (r : OwnerReference) : string * string * string * string :=
  (ref_APIVersion r, ref_Kind r, ref_Name r, ref_UID r).

(** How many Task references carry the controller flag. *)
Definition controllers (refs : list OwnerReference) : nat :=
  length (List.filter (fun r => isTaskRef r && controls r) refs).

(** An owner Task that exists and has not finished. *)
Definition alive (get : string -> GetResult) (name : string) : bool :=
  match get name with Found t => negb (TaskDone t) | _ => false end.

(** ** Lemmas *)

#[global] Arguments set_flags : simpl never.
#[global] Arguments isTaskRef : simpl never.

Lemma set_flags_task r b : isTaskRef (set_flags r b) = isTaskRef r.
Proof. reflexivity. Qed.

Lemma set_flags_controls r b : controls (set_flags r b) = b.
Proof. reflexivity. Qed.

Lemma set_flags_twice r b : set_flags (set_flags r b) b = set_flags r b.
Proof. reflexivity. Qed.

Create Rewrite HintDb own.
#[export] Hint Rewrite set_flags_task set_flags_controls set_flags_twice : own.

Lemma promote_identity refs target : forall i, map identity (promote refs target i) = map identity refs.
Proof.
  induction refs as [|r refs IH]; intros i; cbn; [done|]. rewrite IH.
  by destruct (isTaskRef r).
Qed.

Lemma promote_others refs target : forall i,
  List.filter (fun r => negb (isTaskRef r)) (promote refs target i)
  = List.filter (fun r => negb (isTaskRef r)) refs.
Proof.
  induction refs as [|r refs IH]; intros i; cbn; [done|].
  destruct (isTaskRef r) eqn:E; cbn; autorewrite with own; rewrite E; cbn; by rewrite IH.
Qed.

Lemma promote_blocks refs target : forall i,
  Forall (fun r => isTaskRef r = true -> BlockOwnerDeletion r = Some true) (promote refs target i).
Proof.
  induction refs as [|r refs IH]; intros i; cbn; constructor; [|apply IH].
  by destruct (isTaskRef r) eqn:E; cbn; [|congruence].
Qed.

(** Past its target the loop only demotes. *)
Lemma promote_past refs target : forall i, (target < i)%nat ->
  List.filter (fun r => isTaskRef r && controls r) (promote refs target i) = [].
Proof.
  induction refs as [|r refs IH]; intros i Hi; cbn; [done|].
  rewrite IH by lia. destruct (isTaskRef r) eqn:E; cbn; autorewrite with own; rewrite E; [|done].
  by rewrite (proj2 (Nat.eqb_neq i target)) by lia.
Qed.

Lemma find_target_ge refs task : forall i k, find_target refs task i = Some k -> (i <= k)%nat.
Proof.
  induction refs as [|r refs IH]; intros i k; cbn; [done|].
  destruct (names task r); [intros [= ->]; lia|]. intros H. apply IH in H. lia.
Qed.

Lemma find_target_none refs task : forall i,
  find_target refs task i = None <-> existsb (names task) refs = false.
Proof.
  induction refs as [|r refs IH]; intros i; cbn; [done|].
  destruct (names task r); cbn; [done|]. apply IH.
Qed.

(** The controllers after the swap: the target alone. *)
Lemma promote_controller refs task : forall i k, find_target refs task i = Some k ->
  map ref_Name (List.filter (fun r => isTaskRef r && controls r) (promote refs k i)) = [task].
Proof.
  induction refs as [|r refs IH]; intros i k; cbn; [done|].
  destruct (names task r) eqn:En.
  - intros [= <-]. unfold names in En. apply andb_true_iff in En as [Et En].
    apply String.eqb_eq in En. rewrite Et. cbn. autorewrite with own.
    rewrite Et, Nat.eqb_refl, promote_past by lia. cbn. by rewrite <- En.
  - intros H. pose proof (find_target_ge _ _ _ _ H). rewrite <- (IH _ _ H).
    destruct (isTaskRef r) eqn:Et; cbn; autorewrite with own; rewrite Et; [|done].
    by rewrite (proj2 (Nat.eqb_neq i k)) by lia.
Qed.

Lemma find_head {A} (f : A -> bool) l : List.find f l = hd_error (List.filter f l).
Proof. induction l as [|a l IH]; cbn; [done|]. by destruct (f a). Qed.

Lemma ControllerOwner_filter refs :
  ControllerOwner refs
  = hd_error (map ref_Name (List.filter (fun r => isTaskRef r && controls r) refs)).
Proof. unfold ControllerOwner. rewrite find_head. by destruct (List.filter _ refs). Qed.

(** The search and the loop only look at identities. *)
Lemma names_identity task r r' : identity r = identity r' -> names task r = names task r'.
Proof. unfold identity, names, isTaskRef. by intros [= -> -> -> _]. Qed.

Lemma find_target_identity task refs : forall refs' i,
  map identity refs = map identity refs' -> find_target refs task i = find_target refs' task i.
Proof.
  induction refs as [|r refs IH]; intros [|r' refs'] i H; try done. cbn.
  injection H as Ha Hb Hc Hd Ht. assert (identity r = identity r') as Hi.
  { unfold identity. congruence. }
  rewrite (names_identity task r r' Hi). by rewrite (IH refs').
Qed.

Lemma promote_twice refs target : forall i,
  promote (promote refs target i) target i = promote refs target i.
Proof.
  induction refs as [|r refs IH]; intros i; cbn; [done|]. rewrite IH. f_equal.
  destruct (isTaskRef r) eqn:E; cbn; autorewrite with own; by rewrite E.
Qed.

Lemma promote_swaps refs heir k :
  find_target refs heir 0 = Some k ->
  let refs' := promote refs k 0 in
  controllers refs' = 1%nat /\ ControllerOwner refs' = Some heir
  /\ map identity refs' = map identity refs
  /\ List.filter (fun r => negb (isTaskRef r)) refs' = List.filter (fun r => negb (isTaskRef r)) refs
  /\ Forall (fun r => isTaskRef r = true -> BlockOwnerDeletion r = Some true) refs'
  /\ HandOverController refs' None (Some heir) = Ok refs'.
Proof.
  intros Ek. cbv zeta. pose proof (promote_controller refs heir 0 k Ek) as Hc.
  split; [unfold controllers; by rewrite <- (length_map ref_Name), Hc|].
  split; [by rewrite ControllerOwner_filter, Hc|].
  split; [apply promote_identity|]. split; [apply promote_others|]. split; [apply promote_blocks|].
  unfold HandOverController.
  rewrite (find_target_identity heir _ refs) by apply promote_identity.
  rewrite Ek. f_equal. apply promote_twice.
Qed.

Lemma hand_over_cases refs from heir :
  HandOverController refs from (Some heir) =
  match find_target refs heir 0 with
  | None => Err (NotAnOwner heir)
  | Some k => if bool_decide (from = Some heir) then Err (HandOverToItself heir)
              else Ok (promote refs k 0)
  end.
Proof.
  unfold HandOverController. destruct (find_target _ _ _); [|done].
  destruct from as [f|]; [|by rewrite bool_decide_eq_false_2].
  destruct (String.eqb_spec f heir) as [->|Hne].
  - by rewrite bool_decide_eq_true_2.
  - by rewrite bool_decide_eq_false_2 by congruence.
Qed.

Lemma resolve_live_spec get owners : forall live live',
  resolve_live get owners live = Ok live' ->
  (forall n, In n owners -> live' !! n = Some (alive get n))
  /\ (forall n, ~ In n owners -> live' !! n = live !! n).
Proof.
  induction owners as [|o owners IH]; intros live live'; cbn; [by intros [= ->]|].
  assert (forall b, b = alive get o ->
    resolve_live get owners (<[o := b]> live) = Ok live' ->
    (forall n, o = n \/ In n owners -> live' !! n = Some (alive get n))
    /\ (forall n, ~ (o = n \/ In n owners) -> live' !! n = live !! n)) as Hstep.
  { intros b -> H. apply IH in H as [H1 H2]. split.
    - intros n Hn. destruct (str_mem owners n) eqn:Hi; [apply str_mem_In in Hi; by apply H1|].
      assert (~ In n owners) as Hni by (rewrite <- str_mem_In; congruence).
      destruct Hn as [->|Hn]; [|done]. rewrite H2 by done. by rewrite lookup_insert_eq.
    - intros n Hn. rewrite H2 by tauto. rewrite lookup_insert_ne; [done|]. tauto. }
  unfold alive in Hstep. destruct (get o); [by apply Hstep|by apply Hstep|done].
Qed.

Lemma existsb_false_filter {A} (f : A -> bool) l : List.filter f l = [] <-> existsb f l = false.
Proof. induction l as [|a l IH]; cbn; [done|]. by destruct (f a); cbn. Qed.

Lemma resolve_live_err get owners : forall live name,
  resolve_live get owners live = Err name -> get name = GetFailed.
Proof.
  induction owners as [|o owners IH]; intros live name; cbn; [done|].
  destruct (get o) eqn:E; [apply IH|apply IH|]. by intros [= <-].
Qed.

Lemma oldest_spec get refs live :
  (forall x, In x refs -> isTaskRef x = true -> live !! ref_Name x = Some (alive get (ref_Name x))) ->
  match OldestSurvivingOwner refs live with
  | Some h => exists older heir younger,
      refs = (older ++ heir :: younger)%list /\ ref_Name heir = h /\ isTaskRef heir = true
      /\ alive get h = true
      /\ forall x, In x older -> isTaskRef x = true -> alive get (ref_Name x) = false
  | None => forall x, In x refs -> isTaskRef x = true -> alive get (ref_Name x) = false
  end.
Proof.
  unfold OldestSurvivingOwner. induction refs as [|r refs IH]; intros Hlive; cbn; [done|].
  destruct (isTaskRef r) eqn:Et; cbn.
  - rewrite (Hlive r) by (done || by left). cbn. destruct (alive get (ref_Name r)) eqn:Ea.
    + exists [], r, refs. cbn. repeat split; auto; by intros x [].
    + specialize (IH (fun x Hx => Hlive x (or_intror Hx))).
      destruct (List.find _ refs) as [h|]; cbn in *.
      * destruct IH as (older & heir & younger & -> & Hn & H1 & H2 & H3).
        exists (r :: older), heir, younger. repeat split; auto.
        intros x [<-|Hx]; auto.
      * intros x [<-|Hx]; auto.
  - specialize (IH (fun x Hx => Hlive x (or_intror Hx))).
    destruct (List.find _ refs) as [h|]; cbn in *.
    + destruct IH as (older & heir & younger & -> & Hn & H1 & H2 & H3).
      exists (r :: older), heir, younger. repeat split; auto.
      intros x [<-|Hx]; [congruence|auto].
    + intros x [<-|Hx]; [congruence|auto].
Qed.

Lemma find_target_middle older heir younger :
  isTaskRef heir = true ->
  exists k, find_target (older ++ heir :: younger) (ref_Name heir) 0 = Some k.
Proof.
  intros Ht. destruct (find_target _ _ 0) as [k|] eqn:E; [eauto|].
  apply find_target_none in E. rewrite existsb_app in E. cbn in E.
  unfold names in E at 2. rewrite Ht, String.eqb_refl in E. by rewrite orb_true_r in E.
Qed.

Lemma filter_negb {A} (f : A -> bool) l :
  (existsb f l = false -> List.filter (fun a => negb (f a)) l = l)
  /\ (existsb f l = true -> (length (List.filter (fun a => negb (f a)) l) < length l)%nat).
Proof.
  induction l as [|a l [IH1 IH2]]; cbn; [done|].
  destruct (f a); cbn; split; try done.
  - intros _. pose proof (List.filter_length_le (fun a => negb (f a)) l). lia.
  - intros H. by rewrite IH1.
  - intros H. specialize (IH2 H). lia.
Qed.

Lemma DropOwner_filter refs task :
  DropOwner refs task
  = (existsb (names task) refs, List.filter (fun r => negb (names task r)) refs).
Proof.
  unfold DropOwner. destruct (filter_negb (names task) refs) as [H1 H2].
  destruct (existsb (names task) refs) eqn:E.
  - specialize (H2 eq_refl). by rewrite (proj2 (Nat.eqb_neq _ _)) by lia.
  - rewrite H1 by done. by rewrite Nat.eqb_refl.
Qed.

Lemma plain_ref_names task uid : names task (plain_ref task uid) = true.
Proof. unfold names. cbn. by rewrite String.eqb_refl. Qed.

(** ** Properties *)

(** the controller hand-over is one atomic swap.  It is refused only for a nil
    heir, an heir that is not an owner, or an heir that is the incumbent itself;
    otherwise exactly one Task reference controls the object afterwards and it names
    the heir, every Task reference blocks the owner's deletion, no reference is
    added, dropped, reordered or re-identified, references of other kinds are
    untouched, and doing it again changes nothing. *)
Theorem HandOverController_swaps refs from to :
  match HandOverController refs from to with
  | Ok refs' =>
      exists heir, to = Some heir /\ from <> Some heir
      /\ controllers refs' = 1%nat /\ ControllerOwner refs' = Some heir
      /\ map identity refs' = map identity refs
      /\ List.filter (fun r => negb (isTaskRef r)) refs' = List.filter (fun r => negb (isTaskRef r)) refs
      /\ Forall (fun r => isTaskRef r = true -> BlockOwnerDeletion r = Some true) refs'
      /\ HandOverController refs' None to = Ok refs'
  | Err _ =>
      to = None \/ exists heir, to = Some heir
                   /\ (existsb (names heir) refs = false \/ from = Some heir)
  end.
Proof.
  destruct to as [heir|]; [|by left]. rewrite hand_over_cases.
  destruct (find_target refs heir 0) as [k|] eqn:Ek.
  - case_bool_decide as Hf; [right; eauto|].
    exists heir. split; [done|]. split; [exact Hf|]. by apply promote_swaps.
  - right. exists heir. split; [done|]. left. by apply find_target_none in Ek.
Qed.

(** the guard against ownerless artifacts.  It promotes only where no Task
    controls the object: the oldest owner that exists and has not finished becomes
    the one controller and one Update is sent; it never promotes a finished or
    missing Task, and whenever it does not repair, on any path but a refused Update,
    the object is left exactly as it was and nothing is written. *)
Theorem RepairZeroController_promotes_oldest get update refs :
  let r := RepairZeroController get update refs in
  match rp_effects r with
  | [] | [CountOrphan] =>
      rp_refs r = refs /\ rp_result r <> Ok true
      /\ (ControllerOwner refs <> None \/ existsb isTaskRef refs = false
          \/ (exists name, get name = GetFailed)
          \/ forall x, In x refs -> isTaskRef x = true -> alive get (ref_Name x) = false)
  | [CountOrphan; UpdateObject refs'] =>
      exists heir older younger,
      refs' = rp_refs r /\ refs = (older ++ heir :: younger)%list
      /\ isTaskRef heir = true /\ alive get (ref_Name heir) = true
      /\ (forall x, In x older -> isTaskRef x = true -> alive get (ref_Name x) = false)
      /\ ControllerOwner refs = None /\ ControllerOwner refs' = Some (ref_Name heir)
      /\ controllers refs' = 1%nat /\ map identity refs' = map identity refs
      /\ rp_result r = (if update then Ok true else Err UpdateFailed)
  | _ => False
  end.
Proof.
  cbv zeta. unfold RepairZeroController.
  destruct (ControllerOwner refs) as [c|] eqn:Ec; [cbn; split; [done|split; [done|by left]]|].
  destruct (map ref_Name (List.filter isTaskRef refs)) as [|o os] eqn:Eo.
  { cbn. split; [done|]. split; [done|]. right. left.
    apply map_eq_nil in Eo. apply existsb_false_filter, Eo. }
  rewrite <- Eo. destruct (resolve_live get _ ∅) as [live|name] eqn:Er.
  - apply resolve_live_spec in Er as [Hlive _].
    pose proof (oldest_spec get refs live) as Hold.
    assert (forall x, In x refs -> isTaskRef x = true ->
      live !! ref_Name x = Some (alive get (ref_Name x))) as Hl.
    { intros x Hx Ht. apply Hlive, in_map, filter_In. auto. }
    specialize (Hold Hl). destruct (OldestSurvivingOwner refs live) as [h|].
    + destruct Hold as (older & heir & younger & Hrefs & <- & Ht & Ha & Hdead).
      destruct (find_target_middle older heir younger Ht) as [k Hk]. rewrite <- Hrefs in Hk.
      rewrite hand_over_cases, Hk, bool_decide_eq_false_2 by done.
      destruct (promote_swaps refs _ k Hk) as (Hc & Ho & Hi & _).
      destruct update; cbn; exists heir, older, younger; auto 15.
    + cbn. split; [done|]. split; [done|]. auto.
  - apply resolve_live_err in Er. cbn. split; [done|]. split; [done|]. eauto.
Qed.

(** Adding and dropping owners.  Adding is idempotent and never touches the
    controller; a Task that was not an owner and is dropped again leaves the object
    exactly as it was; dropping removes every reference to the Task and no other,
    and reports a change exactly when there was one. *)
Theorem AddPlainOwner_DropOwner refs task uid :
  let '(added, refs1) := AddPlainOwner refs task uid in
  let '(dropped, refs2) := DropOwner refs task in
  added = negb (existsb (names task) refs)
  /\ existsb (names task) refs1 = true
  /\ AddPlainOwner refs1 task uid = (false, refs1)
  /\ ControllerOwner refs1 = ControllerOwner refs
  /\ (added = true -> DropOwner refs1 task = (true, refs))
  /\ dropped = existsb (names task) refs
  /\ refs2 = List.filter (fun r => negb (names task r)) refs.
Proof.
  destruct (AddPlainOwner refs task uid) as [added refs1] eqn:Ea.
  rewrite !DropOwner_filter. unfold AddPlainOwner in *.
  destruct (existsb (names task) refs) eqn:E; injection Ea as <- <-.
  - rewrite E. repeat split; auto; discriminate.
  - rewrite existsb_app. cbn. rewrite plain_ref_names, E. cbn.
    split; [done|]. split; [done|]. split; [done|]. split.
    + rewrite !ControllerOwner_filter, List.filter_app. cbn. by rewrite app_nil_r.
    + split; [|done]. intros _. f_equal. rewrite List.filter_app. cbn. rewrite plain_ref_names. cbn.
      rewrite app_nil_r. by apply filter_negb.
Qed.
