(* ===== verification/Logins.v ===== *)
(** * Who is trusted, what is proposed, and how big a change may ship by itself
    (api/v1alpha1: logins.go, proposal_marker.go, significance.go). *)

From Stdlib Require Import String Ascii.
From S2P Require Import Prelude GoTime Api Text.

Open Scope Z_scope.
Open Scope go_scope.

(** ** Logins (logins.go) *)

(** The Project's bot login, empty where the Project or its SCM block is nil. *)
Definition bot_of (proj : option Project) : string :=
  match proj with
  | Some p => match proj_Scm p with Some s => scm_BotLogin s | None => "" end
  | None => ""
  end.

(** The guard [proj != nil && proj.Spec.Scm != nil && login == BotLogin]. *)
Definition is_bot (proj : option Project) (login : string) : bool :=
  match proj with
  | Some p => match proj_Scm p with Some s => login == scm_BotLogin s | None => false end
  | None => false
  end.

Definition containsLogin (l : list string) (login : string) : bool :=
  existsb (fun x => x == login) l.

Definition withoutBotLogin (proj : option Project) (l : list string) : list string :=
  if bot_of proj == "" then l
  else match l with [] => l | _ => List.filter (fun x => x != bot_of proj) l end.

Definition EffectiveReporterLogins (proj : option Project) (repo : option Repository) : list string :=
  withoutBotLogin proj
    match repo with
    | Some (mkRepository _ _ _ (Some l) _ _ _) => l
    | _ => match proj with
           | Some p => match proj_Scm p with Some s => scm_ReporterLogins s | None => [] end
           | None => []
           end
    end.

Definition EffectiveMaintainerLogins (proj : option Project) (repo : option Repository) : list string :=
  withoutBotLogin proj
    match repo with
    | Some (mkRepository _ _ _ _ (Some l) _ _) => l
    | _ => match proj with
           | Some p => match proj_Scm p with Some s => scm_MaintainerLogins s | None => [] end
           | None => []
           end
    end.

Definition IsAllowedReporter (proj : option Project) (repo : option Repository) (login : string) : bool :=
  match EffectiveReporterLogins proj repo with
  | [] => true
  | reporters =>
      if login == "" then false
      else if is_bot proj login then true
      else if containsLogin (EffectiveMaintainerLogins proj repo) login then true
      else containsLogin reporters login
  end.

Definition IsTrustedAuthor (proj : option Project) (repo : option Repository) (login : string) : bool :=
  if login == "" then false
  else if is_bot proj login then true
  else if containsLogin (EffectiveMaintainerLogins proj repo) login then true
  else containsLogin (EffectiveReporterLogins proj repo) login.

Definition IsMaintainer (proj : option Project) (repo : option Repository) (login : string) : bool :=
  if login == "" then false
  else if is_bot proj login then false
  else containsLogin (EffectiveMaintainerLogins proj repo) login.

Definition ResolvedApprovedLabel (s : option ScmSpec) : string :=
  match s with
  | Some s => if scm_ApprovedLabel s != "" then scm_ApprovedLabel s else "tatara-approved"
  | None => "tatara-approved"
  end.

(** ** Significance (significance.go) *)

Definition AutoApproveOff : string := "off".

Definition SignificanceRank : list (string * Z) := [("patch", 1); ("minor", 2); ("major", 3)]%string.

Definition AutoApproveCeiling (p : option Project) : string :=
  match p with
  | Some p => if proj_AutoApproveMaxSignificance p == "" then AutoApproveOff
              else proj_AutoApproveMaxSignificance p
  | None => AutoApproveOff
  end.

Definition AutoApproveCeilingRank (ceiling : string) : Z :=
  if (ceiling == "") || (ceiling == AutoApproveOff) then 0
  else default 0 (tbl SignificanceRank ceiling).

Definition AutoApproveOverCeiling (p : option Project) (significance : string) : bool :=
  if significance == "" then false
  else match tbl SignificanceRank significance with
       | None => true
       | Some rank => AutoApproveCeilingRank (AutoApproveCeiling p) <? rank
       end.

(** ** Proposal markers (proposal_marker.go) *)

Definition AutoApproveLogin : string := "<tatara:auto>".
Definition ProposalKindBrainstorm : string := "brainstorm".
Definition ProposalKindIncident : string := "incident".

(** The class [\s] of the regexp package. *)
Definition re_space (a : ascii) : bool :=
  match a with "009" | "010" | "012" | "013" | " " => true | _ => false end%char.

Fixpoint skip_space (s : string) : string :=
  match s with
  | String a s' => if re_space a then skip_space s' else s
  | EmptyString => EmptyString
  end.

(** [s] with a literal prefix taken off, if it has it. *)
Definition after_prefix (p s : string) : option string :=
  if HasPrefix s p then Some (drop_bytes (String.length p) s) else None.

(** The expression [<!--\s*tatara-proposed-by:(brainstorm|incident)\s*-->] at the head
    of [s]: the two greedy space runs are followed by literals that hold no space,
    so there is nothing to back-track into. *)
Definition marker_here (s : string) : option string :=
  match after_prefix "<!--" s with
  | None => None
  | Some s =>
      match after_prefix "tatara-proposed-by:" (skip_space s) with
      | None => None
      | Some s =>
          let close k s := if HasPrefix (skip_space s) "-->" then Some k else None in
          match after_prefix ProposalKindBrainstorm s with
          | Some s => close ProposalKindBrainstorm s
          | None => match after_prefix ProposalKindIncident s with
                    | Some s => close ProposalKindIncident s
                    | None => None
                    end
          end
      end
  end.

(** The leftmost match's group, or the empty string. *)
Fixpoint ProposalKindFromBody (body : string) : string :=
  match marker_here body with
  | Some k => k
  | None => match body with
            | String _ body' => ProposalKindFromBody body'
            | EmptyString => ""
            end
  end.

Definition proposalMarker (kind : string) : string :=
  String.append "<!-- tatara-proposed-by:" (String.append kind " -->").

Definition newline : string := String "010"%char EmptyString.

Definition StampProposalMarker (body kind : string) : string :=
  if ProposalKindFromBody body != "" then body
  else String.append (proposalMarker kind) (String.append newline (String.append newline body)).

Definition normalizeProposalContent (s : string) : string := TrimSpace (replace_crlf s).

Definition ComputeProposalContentHash (body : string) : string :=
  sha256_hex (normalizeProposalContent body).

Definition ProposalBodyMatchesAnchor (body anchor : string) : bool :=
  if anchor == "" then false else ComputeProposalContentHash body == anchor.

(** ** Lemmas *)

Lemma containsLogin_In l x : containsLogin l x = true <-> In x l.
Proof.
  unfold containsLogin. rewrite existsb_exists. split.
  - intros (y & Hy & E). by apply String.eqb_eq in E as ->.
  - intros H. exists x. by rewrite String.eqb_refl.
Qed.

(** The bot is in no effective list, however the lists are configured. *)
Lemma withoutBotLogin_spec proj l x :
  In x (withoutBotLogin proj l) <-> In x l /\ (bot_of proj = ""%string \/ x <> bot_of proj).
Proof.
  unfold withoutBotLogin. destruct (String.eqb_spec (bot_of proj) "") as [E|E]; [tauto|].
  destruct l as [|a l]; [cbn; tauto|]. rewrite filter_In, negb_true_iff, String.eqb_neq. tauto.
Qed.

Lemma is_bot_of proj login : login <> ""%string -> is_bot proj login = (login == bot_of proj).
Proof.
  intros Hl. unfold is_bot, bot_of. destruct proj as [p|]; [destruct (proj_Scm p)|]; try done.
  all: symmetry; by apply String.eqb_neq.
Qed.

Lemma IsMaintainer_spec proj repo login :
  IsMaintainer proj repo login = true <->
  login <> ""%string /\ login <> bot_of proj
  /\ In login (EffectiveMaintainerLogins proj repo).
Proof.
  unfold IsMaintainer. destruct (String.eqb_spec login "") as [->|Hl]; [split; [done|tauto]|].
  rewrite is_bot_of by done. destruct (String.eqb_spec login (bot_of proj)) as [E|E];
    [split; [done|tauto]|]. rewrite containsLogin_In. tauto.
Qed.

Lemma HasPrefix_append p s : HasPrefix (String.append p s) p = true.
Proof.
  induction p as [|a p IH]; [by destruct s|].
  change (String.append (String a p) s) with (String a (String.append p s)).
  cbn [HasPrefix]. by rewrite Ascii.eqb_refl, IH.
Qed.

Lemma drop_append p s : drop_bytes (String.length p) (String.append p s) = s.
Proof. induction p; cbn; [by destruct s|done]. Qed.

(** ** Properties *)

(** stamping a proposal marks it once.  A body that carries no marker names its
    kind after being stamped with one of the two known kinds, and stamping again changes
    nothing. *)
Theorem StampProposalMarker_roundtrip body kind :
  ProposalKindFromBody body = ""%string ->
  In kind [ProposalKindBrainstorm; ProposalKindIncident] ->
  ProposalKindFromBody (StampProposalMarker body kind) = kind
  /\ StampProposalMarker (StampProposalMarker body kind) kind = StampProposalMarker body kind.
Proof.
  intros Hb Hk. assert (ProposalKindFromBody (StampProposalMarker body kind) = kind) as H.
  { unfold StampProposalMarker. rewrite Hb. in_cases Hk; reflexivity. }
  split; [done|]. unfold StampProposalMarker at 1. rewrite H. by in_cases Hk.
Qed.

Lemma StampProposalMarker_roundtrip_witness :
  ProposalKindFromBody (StampProposalMarker "Raise the timeout" ProposalKindIncident) = ProposalKindIncident.
Proof.
  apply (StampProposalMarker_roundtrip "Raise the timeout" ProposalKindIncident);
    [vm_compute; reflexivity|cbn; tauto].
Defined.
