(* ===== verification/Approval.v ===== *)
(** * The approval gate (internal/controller/approval_grammar.go): whose comment
    approves an Issue, and when none is needed. *)

From Stdlib Require Import String Ascii.
From S2P Require Import Prelude GoTime Api Text Logins.

Open Scope Z_scope.
Open Scope go_scope.

(** ** Refusals *)

Definition ApprovalRefusedNoMaintainer : string := "no-maintainer-comment".
Definition ApprovalRefusedNoCitation : string := "no-citation".
Definition ApprovalRefusedCitationNotMaintainer : string := "citation-not-maintainer".
Definition ApprovalRefusedQuoteAbsent : string := "quote-not-in-comment".
Definition ApprovalRefusedEvidenceReplayed : string := "evidence-replayed".
Definition ApprovalRefusedNoLiveIssue : string := "no-live-issue".
Definition ApprovalRefusedApproverNotMaintainer : string := "approver-not-maintainer".
Definition ApprovalRefusedApproverMismatch : string := "approver-mismatch".
Definition ApprovalRefusedPlanNoteMissing : string := "plan-note-missing".
Definition ApprovalRefusedPlanNoteNotPlan : string := "plan-note-not-plan".
Definition ApprovalRefusedPlanHashMismatch : string := "plan-hash-mismatch".

Definition ApprovalRefusals : list string :=
  [ApprovalRefusedNoMaintainer; ApprovalRefusedNoCitation; ApprovalRefusedCitationNotMaintainer;
   ApprovalRefusedQuoteAbsent; ApprovalRefusedEvidenceReplayed; ApprovalRefusedNoLiveIssue;
   ApprovalRefusedApproverNotMaintainer; ApprovalRefusedApproverMismatch;
   ApprovalRefusedPlanNoteMissing; ApprovalRefusedPlanNoteNotPlan;
   ApprovalRefusedPlanHashMismatch].

Definition AutoApproveRefusedCeilingOff : string := "ceiling-off".
Definition AutoApproveRefusedNotInScope : string := "issue-not-in-scope".
Definition AutoApproveRefusedNotBotAuthored : string := "not-bot-authored".
Definition AutoApproveRefusedNoMarker : string := "no-proposal-marker".
Definition AutoApproveRefusedAnchorMismatch : string := "anchor-mismatch".

Definition AutoApproveRefusals : list string :=
  [AutoApproveRefusedCeilingOff; AutoApproveRefusedNotInScope; AutoApproveRefusedNotBotAuthored;
   AutoApproveRefusedNoMarker; AutoApproveRefusedAnchorMismatch].

(** ** Scope and authorship *)

Definition ApprovalInScope (iss : Issue) : bool :=
  if iss_State (iss_Status iss) != "open" then false
  else (iss_StatusWord (iss_Status iss) != "done") && (iss_StatusWord (iss_Status iss) != "rejected").

Definition isMaintainerComment (c : Comment) (proj : option Project) (repo : option Repository)
    (botLogin : string) : bool :=
  if cm_IsBot c || (cm_Author c == "") || ((botLogin != "") && (cm_Author c == botLogin)) then false
  else IsMaintainer proj repo (cm_Author c).

(** ** The auto-approve carve-out *)

Definition autoApproveRefusal (iss : Issue) (proj : option Project) (botLogin : string) : string :=
  if AutoApproveCeiling proj == AutoApproveOff then AutoApproveRefusedCeilingOff
  else if negb (ApprovalInScope iss) then AutoApproveRefusedNotInScope
  else if (botLogin == "") || (iss_Author (iss_Status iss) == "")
          || (iss_Author (iss_Status iss) != botLogin) then AutoApproveRefusedNotBotAuthored
  else if ProposalKindFromBody (iss_Body (iss_Status iss)) == "" then AutoApproveRefusedNoMarker
  else if negb (ProposalBodyMatchesAnchor (iss_Body (iss_Status iss))
                  (is_ProposalBodyHash (iss_Spec iss))) then AutoApproveRefusedAnchorMismatch
  else "".

Definition autoApproveApplies (iss : Issue) (proj : option Project) (botLogin : string) : bool :=
  autoApproveRefusal iss proj botLogin == "".

(** [wall] is what [metav1.Now()] returns. *)
Definition autoApprovalEvidence (wall : Time) : ApprovalEvidence :=
  mkApprovalEvidence AutoApproveLogin "" wall "" true "".

(** ** The per-Issue verdict *)

Section Verify.

(** The two functions of the standard library whose tables are not written out:
    [html.UnescapeString], and [strings.EqualFold] with its Unicode case folding.
    Everything below holds whatever they compute. *)
Context (UnescapeString : string -> string).
Context (EqualFold : string -> string -> bool).

Definition quoteOccursIn (body quoted : string) : option string :=
  let quote := TrimSpace quoted in
  if quote == "" then None
  else if Contains body quote then Some quote
  else
    let un := TrimSpace (UnescapeString quote) in
    if (un != "") && (un != quote) && Contains body un then Some un else None.

Definition isMaintainerLogin (proj : option Project) (repo : option Repository)
    (login botLogin : string) : bool :=
  if login == "" then false
  else if (botLogin != "") && EqualFold login botLogin then false
  else IsMaintainer proj repo login.

(** The first citation that names the comment. *)
Definition cite_of (c : Comment) (citations : list ApprovalCitation) : option ApprovalCitation :=
  List.find (fun j => ac_ID j == cm_ExternalID c) citations.

(** The loop for the first cited maintainer comment, with the quote that cites it. *)
Fixpoint find_cited (comments : list Comment) (proj : option Project) (repo : option Repository)
    (botLogin : string) (citations : list ApprovalCitation) : option (Comment * string) :=
  match comments with
  | [] => None
  | c :: comments' =>
      if (cm_ExternalID c == "") || negb (isMaintainerComment c proj repo botLogin)
      then find_cited comments' proj repo botLogin citations
      else match cite_of c citations with
           | Some j => Some (c, ac_Quote j)
           | None => find_cited comments' proj repo botLogin citations
           end
  end.

(** The declared approver's two checks; the empty string when they pass. *)
Definition declared_refusal (proj : option Project) (repo : option Repository)
    (botLogin declared author : string) : string :=
  if declared == "" then ""
  else if negb (isMaintainerLogin proj repo declared botLogin) then ApprovalRefusedApproverNotMaintainer
  else if negb (EqualFold declared author) then ApprovalRefusedApproverMismatch
  else "".

Definition consumed (iss : Issue) (commentID : string) : bool :=
  match iss_Approval (iss_Status iss) with
  | Some a => ae_CommentID a == commentID
  | None => false
  end.

Definition verifyOneIssue (iss : Issue) (proj : option Project) (repo : option Repository)
    (botLogin : string) (citations : list ApprovalCitation) (declared : string) (wall : Time)
  : option ApprovalEvidence * string :=
  if (iss_StatusWord (iss_Status iss) == "approved") && is_set (iss_Approval (iss_Status iss)) then
    (iss_Approval (iss_Status iss), ""%string)
  else
    let comments := iss_Comments (iss_Status iss) in
    if negb (existsb (fun c => isMaintainerComment c proj repo botLogin) comments) then
      if autoApproveApplies iss proj botLogin then (Some (autoApprovalEvidence wall), ""%string)
      else (None, ApprovalRefusedNoMaintainer)
    else match citations with
    | [] => (None, ApprovalRefusedNoCitation)
    | _ =>
        match find_cited comments proj repo botLogin citations with
        | None => (None, ApprovalRefusedCitationNotMaintainer)
        | Some (cited, quoted) =>
            let bad := declared_refusal proj repo botLogin declared (cm_Author cited) in
            if bad != "" then (None, bad)
            else match quoteOccursIn (cm_Body cited) quoted with
                 | None => (None, ApprovalRefusedQuoteAbsent)
                 | Some quote =>
                     if consumed iss (cm_ExternalID cited) then (None, ApprovalRefusedEvidenceReplayed)
                     else (Some (mkApprovalEvidence (cm_Author cited) (cm_ExternalID cited)
                                   (cm_CreatedAt cited) quote false ""), ""%string)
                 end
        end
    end.

(** ** The entry point *)

(** The counters a refusal bumps. *)
Inductive ApprovalMetric := MetricAutoApproveRefused (axis : string) | MetricApprovalRefused (reason : string).

Definition approvalRepo (get : string -> option Repository) (iss : Issue) : option Repository :=
  if is_RepositoryRef (iss_Spec iss) == "" then None else get (is_RepositoryRef (iss_Spec iss)).

(** [get] reads a Repository from the API server, [None] on any error. *)
Definition VerifyApprovalDeclared (get : string -> option Repository) (proj : Project) (iss : Issue)
    (citations : list ApprovalCitation) (declared : string) (wall : Time)
  : (option ApprovalEvidence * bool * string) * list ApprovalMetric :=
  if negb (ApprovalInScope iss) then ((iss_Approval (iss_Status iss), true, ""%string), [])
  else
    let botLogin := match proj_Scm proj with Some s => scm_BotLogin s | None => ""%string end in
    let '(ev, reason) :=
      verifyOneIssue iss (Some proj) (approvalRepo get iss) botLogin citations declared wall in
    if reason != "" then
      ((None, false, reason),
       (if reason == ApprovalRefusedNoMaintainer
        then [MetricAutoApproveRefused (autoApproveRefusal iss (Some proj) botLogin)] else [])
       ++ [MetricApprovalRefused reason])%list
    else ((ev, true, ""%string), []).

(** ** Lemmas *)

Lemma isMaintainerComment_spec c proj repo bot :
  isMaintainerComment c proj repo bot = true ->
  cm_IsBot c = false /\ cm_Author c <> ""%string
  /\ (bot = ""%string \/ cm_Author c <> bot) /\ cm_Author c <> bot_of proj
  /\ In (cm_Author c) (EffectiveMaintainerLogins proj repo).
Proof.
  unfold isMaintainerComment. destruct (cm_IsBot c); [done|]. cbn [orb].
  destruct (String.eqb_spec (cm_Author c) "") as [|Ha]; [done|]. cbn [orb].
  destruct (String.eqb_spec bot "") as [|Hb]; cbn [negb andb].
  - intros H. apply IsMaintainer_spec in H as (_ & H1 & H2). auto 10.
  - destruct (String.eqb_spec (cm_Author c) bot) as [|Hab]; [done|].
    intros H. apply IsMaintainer_spec in H as (_ & H1 & H2). auto 10.
Qed.

Lemma find_cited_spec comments proj repo bot citations c q :
  find_cited comments proj repo bot citations = Some (c, q) ->
  In c comments /\ cm_ExternalID c <> ""%string /\ isMaintainerComment c proj repo bot = true
  /\ exists j, In j citations /\ ac_ID j = cm_ExternalID c /\ ac_Quote j = q.
Proof.
  induction comments as [|x comments IH]; cbn; [done|].
  destruct (String.eqb_spec (cm_ExternalID x) "") as [|Hid]; cbn [orb].
  { intros H. destruct (IH H) as (? & ? & ? & ?). auto 10. }
  destruct (isMaintainerComment x proj repo bot) eqn:Em; cbn [negb].
  2:{ intros H. destruct (IH H) as (? & ? & ? & ?). auto 10. }
  destruct (cite_of x citations) as [j|] eqn:Ej.
  2:{ intros H. destruct (IH H) as (? & ? & ? & ?). auto 10. }
  intros [= <- <-]. apply find_some in Ej as [Hj E]. apply String.eqb_eq in E.
  split; [auto|]. split; [done|]. split; [done|]. eauto.
Qed.

Lemma quoteOccursIn_spec body quoted q :
  quoteOccursIn body quoted = Some q ->
  q <> ""%string /\ Contains body q = true
  /\ (q = TrimSpace quoted \/ q = TrimSpace (UnescapeString (TrimSpace quoted))).
Proof.
  unfold quoteOccursIn. destruct (String.eqb_spec (TrimSpace quoted) "") as [|Hq]; [done|].
  destruct (Contains body (TrimSpace quoted)) eqn:Hc; [intros [= <-]; auto|].
  destruct (String.eqb_spec (TrimSpace (UnescapeString (TrimSpace quoted))) "") as [|Hu]; [done|].
  cbn [negb andb]. destruct (_ != _); [|done].
  destruct (Contains body (TrimSpace (UnescapeString (TrimSpace quoted)))) eqn:Hd; [|done].
  intros [= <-]. auto.
Qed.

Lemma declared_refusal_spec proj repo bot declared author :
  let r := declared_refusal proj repo bot declared author in
  (r = ""%string -> declared = ""%string \/
     isMaintainerLogin proj repo declared bot = true /\ EqualFold declared author = true)
  /\ (r = ""%string \/ In r ApprovalRefusals).
Proof.
  cbv zeta. unfold declared_refusal. destruct (String.eqb_spec declared "") as [|Hd]; [auto|].
  destruct (isMaintainerLogin _ _ _ _); cbn [negb].
  - destruct (EqualFold _ _); cbn [negb]; [auto|]. split; [done|]. right. apply str_mem_In. reflexivity.
  - split; [done|]. right. apply str_mem_In. reflexivity.
Qed.

End Verify.

Lemma ceiling_on proj :
  (AutoApproveCeiling proj == AutoApproveOff) = false <->
  exists p, proj = Some p /\ proj_AutoApproveMaxSignificance p <> ""%string
            /\ proj_AutoApproveMaxSignificance p <> AutoApproveOff.
Proof.
  unfold AutoApproveCeiling. destruct proj as [p|].
  - destruct (String.eqb_spec (proj_AutoApproveMaxSignificance p) "") as [E|E].
    + split; [discriminate|]. intros (p' & [= <-] & H & _). done.
    + rewrite String.eqb_neq. split; [eauto|]. by intros (p' & [= <-] & _ & H).
  - split; [discriminate|]. by intros (p & ? & _).
Qed.

Lemma in_scope_iff iss :
  ApprovalInScope iss = true <->
  iss_State (iss_Status iss) = "open"%string
  /\ ~ In (iss_StatusWord (iss_Status iss)) ["done"; "rejected"]%string.
Proof.
  unfold ApprovalInScope. rewrite <- str_mem_In. cbn [str_mem].
  destruct (String.eqb_spec (iss_State (iss_Status iss)) "open") as [E|E]; cbn [negb];
    [|split; [done|by intros []]].
  destruct (iss_StatusWord (iss_Status iss) == "done"), (iss_StatusWord (iss_Status iss) == "rejected");
    cbn; intuition congruence.
Qed.

Lemma anchor_iff body anchor :
  ProposalBodyMatchesAnchor body anchor = true <->
  anchor <> ""%string /\ sha256_hex (normalizeProposalContent body) = anchor.
Proof.
  unfold ProposalBodyMatchesAnchor, ComputeProposalContentHash.
  destruct (String.eqb_spec anchor "") as [E|E]; [split; [done|by intros []]|].
  rewrite String.eqb_eq. tauto.
Qed.

(** An axis that refuses: its name is listed and the conjunction fails. *)
Ltac axis_refuses :=
  split; [split; [discriminate|intros (? & ? & [? ?] & ? & ?); congruence]
         |right; apply str_mem_In; reflexivity].

(** The verdict axis by axis. *)
Lemma auto_refusal_cases iss proj bot :
  let r := autoApproveRefusal iss proj bot in
  (r = ""%string <->
     (AutoApproveCeiling proj == AutoApproveOff) = false /\ ApprovalInScope iss = true
     /\ (bot <> ""%string /\ iss_Author (iss_Status iss) = bot)
     /\ ProposalKindFromBody (iss_Body (iss_Status iss)) <> ""%string
     /\ ProposalBodyMatchesAnchor (iss_Body (iss_Status iss)) (is_ProposalBodyHash (iss_Spec iss)) = true)
  /\ (r = ""%string \/ In r AutoApproveRefusals).
Proof.
  cbv zeta. unfold autoApproveRefusal.
  destruct (_ == AutoApproveOff); [axis_refuses|].
  destruct (ApprovalInScope iss); cbn [negb]; [|axis_refuses].
  destruct (String.eqb_spec bot "") as [Hb|Hb]; cbn [orb]; [axis_refuses|].
  destruct (String.eqb_spec (iss_Author (iss_Status iss)) "") as [Ha|Ha]; cbn [orb]; [axis_refuses|].
  destruct (String.eqb_spec (iss_Author (iss_Status iss)) bot) as [Hab|Hab]; cbn [negb]; [|axis_refuses].
  destruct (String.eqb_spec (ProposalKindFromBody (iss_Body (iss_Status iss))) "") as [Hk|Hk];
    [axis_refuses|].
  destruct (ProposalBodyMatchesAnchor _ _); cbn [negb]; [tauto|axis_refuses].
Qed.

(** ** Properties *)

(** C9: an approval is a maintainer's, and it was really said.  Evidence is returned
    only where the Issue already carries it, or where the carve-out applies and no
    maintainer has commented at all, or for one comment of the thread: written by a
    listed maintainer who is neither flagged as a bot nor the bot login, carrying an
    id the agent cited, not consumed by the previous approval, whose body literally
    contains the recorded non-empty phrase, and whose author agrees with the declared
    approver if one was declared.  Otherwise the answer is a refusal from the closed
    vocabulary. *)
Theorem approval_is_a_maintainers_word UnescapeString EqualFold iss proj repo bot citations declared wall :
  let '(ev, reason) :=
    verifyOneIssue UnescapeString EqualFold iss proj repo bot citations declared wall in
  match ev with
  | None => In reason ApprovalRefusals /\ reason <> ""%string
  | Some e =>
      reason = ""%string
      /\ ((iss_StatusWord (iss_Status iss) = "approved"%string /\ iss_Approval (iss_Status iss) = Some e)
          \/ (e = autoApprovalEvidence wall /\ autoApproveApplies iss proj bot = true
              /\ forall c, In c (iss_Comments (iss_Status iss)) -> isMaintainerComment c proj repo bot = false)
          \/ exists c, In c (iss_Comments (iss_Status iss))
             /\ cm_IsBot c = false /\ cm_Author c <> bot_of proj
             /\ In (cm_Author c) (EffectiveMaintainerLogins proj repo)
             /\ ae_Login e = cm_Author c
             /\ ae_CommentID e = cm_ExternalID c /\ cm_ExternalID c <> ""%string
             /\ (exists j, In j citations /\ ac_ID j = cm_ExternalID c)
             /\ consumed iss (cm_ExternalID c) = false
             /\ ae_Phrase e <> ""%string /\ Contains (cm_Body c) (ae_Phrase e) = true
             /\ (declared = ""%string \/
                 isMaintainerLogin EqualFold proj repo declared bot = true
                 /\ EqualFold declared (cm_Author c) = true))
  end.
Proof.
  unfold verifyOneIssue.
  assert (forall r, str_mem ApprovalRefusals r = true -> In r ApprovalRefusals /\ r <> ""%string) as Href.
  { intros r Hr. split; [by apply str_mem_In|]. intros ->. discriminate Hr. }
  destruct (_ && _) eqn:Ha.
  { apply andb_true_iff in Ha as [Hs Hset]. apply String.eqb_eq in Hs.
    destruct (iss_Approval (iss_Status iss)) as [e|]; [|done]. auto. }
  destruct (existsb _ _) eqn:Hm; cbn [negb].
  2:{ destruct (autoApproveApplies iss proj bot) eqn:Haa; [|by apply Href].
      split; [done|]. right. left. split; [done|]. split; [done|]. intros c Hc.
      destruct (isMaintainerComment c proj repo bot) eqn:E; [|done].
      assert (existsb (fun c => isMaintainerComment c proj repo bot) (iss_Comments (iss_Status iss)) = true);
        [|congruence]. apply existsb_exists. eauto. }
  destruct citations as [|j0 js] eqn:Ecit; [by apply Href|]. rewrite <- Ecit in *.
  destruct (find_cited _ _ _ _ _) as [[c q]|] eqn:Ef; [|by apply Href].
  apply find_cited_spec in Ef as (Hin & Hid & Hmc & j & Hj & Hji & Hjq).
  apply isMaintainerComment_spec in Hmc as (Hbot & _ & _ & Hnb & Hml).
  destruct (declared_refusal_spec EqualFold proj repo bot declared (cm_Author c)) as [Hd Hdr].
  destruct (String.eqb_spec (declared_refusal EqualFold proj repo bot declared (cm_Author c)) "")
    as [Ed|Ed]; cbn [negb].
  2:{ split; [|done]. by destruct Hdr. }
  destruct (quoteOccursIn UnescapeString (cm_Body c) q) as [p|] eqn:Eq; [|by apply Href].
  apply quoteOccursIn_spec in Eq as (Hp & Hcp & _).
  destruct (consumed iss (cm_ExternalID c)) eqn:Ec; [by apply Href|].
  split; [done|]. right. right. exists c. cbn. eauto 20.
Qed.

(** the carve-out needs every axis, and a refusal names the one that failed.  An
    Issue is approved without a maintainer if and only if the Project's ceiling is not
    off, the Issue is open and neither done nor rejected, its author is the bot, its
    body names a known proposal kind, and the body's SHA-256, line ends and outer
    blanks apart, is the non-empty one recorded at filing. *)
Theorem auto_approve_exact iss proj bot :
  (autoApproveApplies iss proj bot = true <->
     (exists p, proj = Some p /\ proj_AutoApproveMaxSignificance p <> ""%string
                /\ proj_AutoApproveMaxSignificance p <> AutoApproveOff)
     /\ iss_State (iss_Status iss) = "open"%string
     /\ ~ In (iss_StatusWord (iss_Status iss)) ["done"; "rejected"]%string
     /\ bot <> ""%string /\ iss_Author (iss_Status iss) = bot
     /\ ProposalKindFromBody (iss_Body (iss_Status iss)) <> ""%string
     /\ is_ProposalBodyHash (iss_Spec iss) <> ""%string
     /\ sha256_hex (normalizeProposalContent (iss_Body (iss_Status iss))) = is_ProposalBodyHash (iss_Spec iss))
  /\ (autoApproveApplies iss proj bot = false -> In (autoApproveRefusal iss proj bot) AutoApproveRefusals).
Proof.
  unfold autoApproveApplies. destruct (auto_refusal_cases iss proj bot) as [Hr Hin].
  rewrite ceiling_on, in_scope_iff, anchor_iff in Hr.
  rewrite String.eqb_eq, String.eqb_neq. split; [|by destruct Hin].
  rewrite Hr. tauto.
Qed.

(** ** Worked instance *)

Example quote_unescaped :
  quoteOccursIn (fun _ => "let's ship it"%string) "ok, let's ship it!" "let&apos;s ship it"
  = Some "let's ship it"%string.
Proof. vm_compute. reflexivity. Qed.
