(* ===== verification/Ship.v ===== *)
(** * The ship gate: may an approved change leave
    (internal/controller/approval_ship.go, and the entry point both ship sites call,
    internal/restapi/approval_ship.go). *)

From Stdlib Require Import String.
From S2P Require Import Prelude Api Vocabulary Logins Approval.

Open Scope Z_scope.
Open Scope go_scope.

(** ** Blockers *)

Definition ShipBlockedNeedsMaintainerComment : string := "needs-maintainer-comment".
Definition ShipBlockedNeedsApprovalTool : string := "needs-approval-tool".
Definition ShipBlockedOverCeiling : string := "over-auto-approve-ceiling".

Definition ShipBlockedDetails : list string :=
  [ShipBlockedNeedsMaintainerComment; ShipBlockedNeedsApprovalTool; ShipBlockedOverCeiling].

Record ShipBlocker := mkShipBlocker {
  sb_Repo : string;
  sb_Number : Z;
  sb_Detail : string;
  sb_Guidance : string
}.

Definition ShipBlockerGuidance (detail : string) : string :=
  if detail == ShipBlockedNeedsMaintainerComment then
    "No maintainer has commented on this issue, so there is nothing to cite and no approval to report. Post your plan on the thread and end the turn with `submit_outcome(kind=implement, action=discuss, reason=...)`. Any code you write before a maintainer comments is LOST: no merge request can be opened to carry it."
  else if detail == ShipBlockedNeedsApprovalTool then
    "A maintainer HAS commented on this issue but you have not passed the gate. Read the thread, and if the comment is a go-ahead call `submit_outcome(kind=implement, action=approved, approving_maintainer=..., plan_note_id=..., approval_citations=[{id, quote}])` and wait for `granted:true`. Until it returns granted, `mr_write(action=open)` stays refused."
  else if detail == ShipBlockedOverCeiling then
    "This issue was auto-approved with no maintainer comment, and the change you declared is larger than this project's autoApproveMaxSignificance ceiling. Auto-approval is provisional at this size: ask on the thread with `submit_outcome(kind=implement, action=discuss, reason=...)` and cite the maintainer's reply, or split the change down to the ceiling."
  else
    "This issue is not clear to ship. Read its approval state with `task_context()` and pass the gate with `submit_outcome(kind=implement, action=approved, ...)` before opening a merge request.".

Definition shipBlocker (iss : Issue) (detail : string) : ShipBlocker :=
  mkShipBlocker (is_RepositoryRef (iss_Spec iss)) (is_Number (iss_Spec iss)) detail
    (ShipBlockerGuidance detail).

(** ** The verdict *)

(** [getRepository] is the API server's answer to the read of a Repository. *)
Definition noEvidenceDetail (getRepository : string -> option Repository) (iss : Issue)
    (proj : option Project) (botLogin : string) : string :=
  if existsb (fun c => isMaintainerComment c proj (approvalRepo getRepository iss) botLogin)
             (iss_Comments (iss_Status iss))
  then ShipBlockedNeedsApprovalTool
  else ShipBlockedNeedsMaintainerComment.

(** The ceiling loop over the live Issues. *)
Fixpoint over_ceiling (proj : option Project) (significance : string) (live : list Issue)
  : list ShipBlocker :=
  match live with
  | [] => []
  | iss :: live' =>
      match iss_Approval (iss_Status iss) with
      | None => over_ceiling proj significance live'
      | Some ev =>
          if negb (ae_Auto ev) then over_ceiling proj significance live'
          else if AutoApproveOverCeiling proj significance
          then shipBlocker iss ShipBlockedOverCeiling :: over_ceiling proj significance live'
          else over_ceiling proj significance live'
      end
  end.

Definition ApprovalShipVerdict (getRepository : string -> option Repository)
    (proj : option Project) (issues : list Issue) (significance : string) : list ShipBlocker :=
  let botLogin := bot_of proj in
  let live := List.filter ApprovalInScope issues in
  let granted := existsb (fun iss => is_set (iss_Approval (iss_Status iss))) live in
  match live with
  | [] => []
  | _ =>
      if negb granted
      then map (fun iss => shipBlocker iss (noEvidenceDetail getRepository iss proj botLogin)) live
      else over_ceiling proj significance live
  end.

(** ** The entry point *)

Definition shipGateApplies (task : option Task) : bool :=
  match task with Some t => AgentKind (Status t) == AgentImplement | None => false end.

(** What a gate that could not read counts. *)
Inductive ShipGateFailOpen := ShipGateReadProject | ShipGateReadIssues.

(** [proj] and [issues] are the API server's answers to the two reads. *)
Definition shipVerdict (getRepository : string -> option Repository) (task : option Task)
    (proj : option Project) (issues : option (list Issue)) (significance : string)
  : list ShipBlocker * list ShipGateFailOpen :=
  if negb (shipGateApplies task) then ([], [])
  else match proj with
       | None => ([], [ShipGateReadProject])
       | Some p =>
           match issues with
           | None => ([], [ShipGateReadIssues])
           | Some issues => (ApprovalShipVerdict getRepository (Some p) issues significance, [])
           end
       end.

(** ** Vocabulary of the properties *)

Definition granted_in (issues : list Issue) : Prop :=
  exists iss, In iss issues /\ ApprovalInScope iss = true
              /\ is_set (iss_Approval (iss_Status iss)) = true.

(** Approved without a maintainer. *)
Definition provisional (iss : Issue) : Prop :=
  exists e, iss_Approval (iss_Status iss) = Some e /\ ae_Auto e = true.

Definition within_ceiling (p : Project) (significance : string) : Prop :=
  significance = ""%string
  \/ exists rank, tbl SignificanceRank significance = Some rank
     /\ rank <= AutoApproveCeilingRank (AutoApproveCeiling (Some p)).

(** An implement Task that owns one open Issue, approved by the carve-out. *)
Definition implementing : Task := on_status zero_Task (fun s => s <| AgentKind := AgentImplement |>).

Definition auto_issue : Issue :=
  zero_Issue <| iss_Status ::= fun s =>
    s <| iss_State := "open"%string |> <| iss_Approval := Some (autoApprovalEvidence 1) |> |>.

Definition minor_project : Project := zero_Project <| proj_Name := "tatara" |> <| proj_AutoApproveMaxSignificance := "minor" |>.

(** ** Lemmas *)

Lemma ceiling_spec p significance :
  AutoApproveOverCeiling (Some p) significance = false <-> within_ceiling p significance.
Proof.
  unfold AutoApproveOverCeiling, within_ceiling.
  destruct (String.eqb_spec significance "") as [E|E]; [by split; [left|]|].
  destruct (tbl SignificanceRank significance) as [rank|].
  - rewrite Z.ltb_ge. split; [by right; exists rank|]. by intros [|(r & [= ->] & H)].
  - split; [done|]. by intros [|(r & ? & _)].
Qed.

Lemma over_ceiling_nil p significance live :
  over_ceiling (Some p) significance live = [] <->
  forall iss, In iss live -> provisional iss -> within_ceiling p significance.
Proof.
  induction live as [|iss live IH]; cbn [over_ceiling]; [by split|].
  destruct (iss_Approval (iss_Status iss)) as [e|] eqn:Ea.
  - destruct (ae_Auto e) eqn:Eauto; cbn [negb].
    + destruct (AutoApproveOverCeiling (Some p) significance) eqn:Ec.
      * split; [done|]. intros H. exfalso.
        assert (AutoApproveOverCeiling (Some p) significance = false); [|congruence].
        apply ceiling_spec, (H iss); [by left|by exists e].
      * rewrite IH. split; [|intros H i Hi; apply H; by right].
        intros _ i _ _. by apply ceiling_spec.
    + rewrite IH. split; intros H i Hi; [|apply H; by right].
      destruct Hi as [<-|Hi]; [|by apply H]. intros (e' & [= <-]%(eq_trans (eq_sym Ea)) & He). congruence.
  - rewrite IH. split; intros H i Hi; [|apply H; by right].
    destruct Hi as [<-|Hi]; [|by apply H]. intros (e' & He & _). congruence.
Qed.

Lemma over_ceiling_In proj significance live b :
  In b (over_ceiling proj significance live) ->
  exists iss, In iss live /\ provisional iss /\ b = shipBlocker iss ShipBlockedOverCeiling.
Proof.
  induction live as [|iss live IH]; cbn [over_ceiling]; [done|].
  assert (In b (over_ceiling proj significance live) -> exists i, In i (iss :: live) /\ provisional i
            /\ b = shipBlocker i ShipBlockedOverCeiling) as Hrest.
  { intros (i & Hi & H)%IH. exists i. split; [by right|done]. }
  destruct (iss_Approval (iss_Status iss)) as [e|] eqn:Ea; [|done].
  destruct (ae_Auto e) eqn:Eauto; [|done]. cbn [negb].
  destruct (AutoApproveOverCeiling _ _); [|done].
  intros [<-|H]; [|auto]. exists iss. split; [by left|]. split; [by exists e|done].
Qed.

Lemma granted_spec issues :
  existsb (fun iss => is_set (iss_Approval (iss_Status iss))) (List.filter ApprovalInScope issues) = true
  <-> granted_in issues.
Proof.
  rewrite existsb_exists. unfold granted_in.
  split; intros (iss & H); exists iss; rewrite filter_In in *; tauto.
Qed.

Lemma verdict_nil getRepository p issues significance :
  ApprovalShipVerdict getRepository (Some p) issues significance = [] <->
  (forall iss, In iss issues -> ApprovalInScope iss = false)
  \/ (granted_in issues /\ forall iss, In iss issues -> ApprovalInScope iss = true ->
        provisional iss -> within_ceiling p significance).
Proof.
  unfold ApprovalShipVerdict. cbv zeta. rewrite <- granted_spec.
  destruct (List.filter ApprovalInScope issues) as [|i live] eqn:El.
  - split; [|done]. intros _. left. intros iss Hin. destruct (ApprovalInScope iss) eqn:E; [|done].
    assert (In iss (List.filter ApprovalInScope issues)) as H by (by apply filter_In). by rewrite El in H.
  - assert (In i issues /\ ApprovalInScope i = true) as [Hi His].
    { apply filter_In. rewrite El. by left. }
    destruct (existsb _ (i :: live)) eqn:Eg; cbn [negb].
    + rewrite over_ceiling_nil, <- El. split.
      * intros H. right. split; [done|]. intros iss Hin Hs. apply H. by apply filter_In.
      * intros [H|[_ H]] iss Hin.
        -- apply H in Hi. congruence.
        -- apply filter_In in Hin as [Hin Hs]. exact (H iss Hin Hs).
    + split; [done|]. intros [H|[H _]]; [|done]. apply H in Hi. congruence.
Qed.

(** ** Properties *)

(** C10: a change leaves only on an approval.  With the Project and the Issues read,
    the gate lets a Task through if and only if it is not the implement agent's, or
    none of its Issues is in scope any more, or the approval gate has run over the
    scope and every approval that was given without a maintainer covers the declared
    significance.  Every blocker names an Issue in scope and says why: without a grant
    all of them are named, with the tool as the remedy exactly where a maintainer has
    commented. *)
Theorem ship_gate_exact getRepository task p issues significance :
  let verdict := fst (shipVerdict getRepository task (Some p) (Some issues) significance) in
  (verdict = [] <->
     shipGateApplies task = false
     \/ (forall iss, In iss issues -> ApprovalInScope iss = false)
     \/ (granted_in issues /\ forall iss, In iss issues -> ApprovalInScope iss = true ->
           provisional iss -> within_ceiling p significance))
  /\ (forall b, In b verdict -> exists iss, In iss issues /\ ApprovalInScope iss = true
      /\ (if existsb (fun c => isMaintainerComment c (Some p) (approvalRepo getRepository iss) (bot_of (Some p)))
                     (iss_Comments (iss_Status iss))
          then In b [shipBlocker iss ShipBlockedNeedsApprovalTool; shipBlocker iss ShipBlockedOverCeiling]
          else In b [shipBlocker iss ShipBlockedNeedsMaintainerComment; shipBlocker iss ShipBlockedOverCeiling])
      /\ (sb_Detail b = ShipBlockedOverCeiling -> provisional iss))
  /\ (shipGateApplies task = true -> ~ granted_in issues -> forall iss, In iss issues ->
      ApprovalInScope iss = true -> exists b, In b verdict /\ sb_Number b = is_Number (iss_Spec iss)
                                              /\ sb_Repo b = is_RepositoryRef (iss_Spec iss)).
Proof.
  cbv zeta. unfold shipVerdict. destruct (shipGateApplies task); cbn [negb fst].
  2:{ split; [by split; [left|]|]. by split. }
  rewrite verdict_nil. split; [by split; [right|intros [|]]|].
  unfold ApprovalShipVerdict. cbv zeta. split.
  - intros b Hb. destruct (List.filter ApprovalInScope issues) as [|i live] eqn:El; [done|].
    rewrite <- El in Hb. destruct (negb _).
    + apply in_map_iff in Hb as (iss & <- & Hin). apply filter_In in Hin as [Hin Hs].
      exists iss. split; [done|]. split; [done|]. unfold noEvidenceDetail.
      destruct (existsb _ _); (split; [by left|discriminate]).
    + apply over_ceiling_In in Hb as (iss & Hin & Hp & ->). apply filter_In in Hin as [Hin Hs].
      exists iss. split; [done|]. split; [done|]. split; [|done].
      destruct (existsb _ _); right; by left.
  - intros _ Hg iss Hin Hs.
    assert (In iss (List.filter ApprovalInScope issues)) as Hl by (by apply filter_In).
    destruct (existsb _ (List.filter ApprovalInScope issues)) eqn:Eg.
    + destruct Hg. by apply granted_spec.
    + destruct (List.filter ApprovalInScope issues) as [|i live]; [done|]. cbn [negb].
      eexists. split; [by apply in_map|done].
Qed.

(** ** Worked instances *)

(** The carve-out's approval ships a patch, a minor change and the open that declares
    nothing, and holds a major one. *)
Example auto_ships :
  map (fun s => List.length (fst (shipVerdict (fun _ => None) (Some implementing) (Some minor_project)
                                   (Some [auto_issue]) s)))
      ["patch"; "minor"; "major"; ""; "huge"]%string = [0; 0; 1; 0; 1]%nat.
Proof. vm_compute. reflexivity. Qed.

(** A failed read lets the change through and is counted. *)
Example read_failure_opens :
  shipVerdict (fun _ => None) (Some implementing) None (Some []) "major" = ([], [ShipGateReadProject]).
Proof. vm_compute. reflexivity. Qed.
