(* ===== verification/Seq.v ===== *)
(** * The admission queue's sequence numbers (internal/queue/seq.go): one counter per
    project in a ConfigMap, advanced by compare and swap from any number of
    replicas. *)

From stdpp Require Import relations sorting.
From Stdlib Require Import String Ascii.
From S2P Require Import Prelude ObjBudget.

Open Scope Z_scope.
Open Scope go_scope.

(** ** strconv *)

Definition digit (n : Z) : ascii := ascii_of_nat (Z.to_nat (48 + n)).

(** The decimal digits of [n] in front of [acc]; twenty rounds cover 64 bits. *)
Fixpoint format_digits (fuel : nat) (n : Z) (acc : string) : string :=
  match fuel with
  | O => acc
  | S fuel' =>
      if n <? 10 then String (digit n) acc
      else format_digits fuel' (n / 10) (String (digit (n mod 10)) acc)
  end.

(** [strconv.FormatInt(n, 10)]. *)
Definition FormatInt (n : Z) : string :=
  if n <? 0 then String "-" (format_digits 20 (- n) "") else format_digits 20 n "".

Fixpoint parse_digits (s : string) (acc : Z) : option Z :=
  match s with
  | EmptyString => Some acc
  | String a s' =>
      let d := Z.of_nat (nat_of_ascii a) - 48 in
      if (0 <=? d) && (d <=? 9) then parse_digits s' (acc * 10 + d) else None
  end.

Definition parse_natural (s : string) : option Z :=
  match s with EmptyString => None | _ => parse_digits s 0 end.

(** [strconv.ParseInt(s, 10, 64)]: a sign, digits, and the range of an int64. *)
Definition ParseInt (s : string) : option Z :=
  let v := match s with
           | String "-" s' => option_map Z.opp (parse_natural s')
           | String "+" s' => parse_natural s'
           | _ => parse_natural s
           end in
  match v with
  | Some n => if (- two63 <=? n) && (n <? two63) then Some n else None
  | None => None
  end.

(** ** One allocation *)

(** The counter's ConfigMap: its resource version and the value under [seqDataKey],
    the empty string when the key is absent. *)
Record Counter := mkCounter { ctr_version : Z; ctr_next : string }.

Inductive SeqError := SeqCorrupt (value : string) | SeqConflict | SeqFailed.

(** The write an attempt decides on: the Create of a counter at one, or the Update of
    the version it read. *)
Inductive SeqWrite :=
  | SeqCreate
  | SeqUpdate (version n : Z).

Definition allocated (w : SeqWrite) : Z :=
  match w with SeqCreate => 1 | SeqUpdate _ n => n end.

(** The body of the retried function, from what the Get found. *)
Definition seq_decide (seen : option Counter) : result SeqError SeqWrite :=
  match seen with
  | None => Ok SeqCreate
  | Some c =>
      if ctr_next c == "" then Ok (SeqUpdate (ctr_version c) (i64 (0 + 1)))
      else match ParseInt (ctr_next c) with
           | None => Err (SeqCorrupt (ctr_next c))
           | Some cur => Ok (SeqUpdate (ctr_version c) (i64 (cur + 1)))
           end
  end.

(** What the API server answers to one attempt: the Get ([None] when it fails for
    another reason than the counter's absence) and the write, [UpdateConflict]
    standing for a Conflict or an AlreadyExists. *)
Record SeqAttempt := mkSeqAttempt {
  sa_get : option (option Counter);
  sa_write : UpdateAnswer
}.

Fixpoint next_attempts (attempts : list SeqAttempt) : result SeqError Z :=
  match attempts with
  | [] => Err SeqConflict
  | a :: attempts' =>
      match sa_get a with
      | None => Err SeqFailed
      | Some seen =>
          match seq_decide seen with
          | Err e => Err e
          | Ok w =>
              match sa_write a with
              | UpdateOk => Ok (allocated w)
              | UpdateError => Err SeqFailed
              | UpdateConflict => next_attempts attempts'
              end
          end
      end
  end.

(** [seqRetry.Steps]. *)
Definition seqRetrySteps : nat := 30.

Definition Next (attempts : list SeqAttempt) : result SeqError Z :=
  next_attempts (firstn seqRetrySteps attempts).

(** ** Any number of callers on one counter *)

(** The API server: a Create needs the object absent, an Update its version; an
    accepted write moves the version. *)
Definition serve (store : option Counter) (w : SeqWrite) : option Counter :=
  match w, store with
  | SeqCreate, None => Some (mkCounter 1 "1")
  | SeqUpdate v n, Some c =>
      if ctr_version c =? v then Some (mkCounter (v + 1) (FormatInt n)) else None
  | _, _ => None
  end.

(** Where a call of [Next] is: before a Get or a write, with the attempts left, or
    back. *)
Inductive caller :=
  | Reading (left : nat)
  | Writing (left : nat) (w : SeqWrite)
  | Returned (r : result SeqError Z).

Record System := mkSystem {
  store : option Counter;
  callers : list caller;
  allocations : list Z
}.

(** A write may be accepted and its answer lost: the caller then returns an error. *)
Inductive seq_step (s : System) : System -> Prop :=
  | step_call : seq_step s (mkSystem (store s) (callers s ++ [Reading seqRetrySteps]) (allocations s))
  | step_read i k w :
      callers s !! i = Some (Reading (S k)) -> seq_decide (store s) = Ok w ->
      seq_step s (mkSystem (store s) (<[i := Writing k w]> (callers s)) (allocations s))
  | step_corrupt i k e :
      callers s !! i = Some (Reading (S k)) -> seq_decide (store s) = Err e ->
      seq_step s (mkSystem (store s) (<[i := Returned (Err e)]> (callers s)) (allocations s))
  | step_write i k w c :
      callers s !! i = Some (Writing k w) -> serve (store s) w = Some c ->
      seq_step s (mkSystem (Some c) (<[i := Returned (Ok (allocated w))]> (callers s))
                    (allocations s ++ [allocated w]))
  | step_lost i k w c :
      callers s !! i = Some (Writing k w) -> serve (store s) w = Some c ->
      seq_step s (mkSystem (Some c) (<[i := Returned (Err SeqFailed)]> (callers s)) (allocations s))
  | step_conflict i k w :
      callers s !! i = Some (Writing k w) -> serve (store s) w = None ->
      seq_step s (mkSystem (store s) (<[i := Reading k]> (callers s)) (allocations s))
  | step_exhausted i :
      callers s !! i = Some (Reading 0) ->
      seq_step s (mkSystem (store s) (<[i := Returned (Err SeqConflict)]> (callers s)) (allocations s))
  | step_failed i c :
      callers s !! i = Some c -> (forall r, c <> Returned r) ->
      seq_step s (mkSystem (store s) (<[i := Returned (Err SeqFailed)]> (callers s)) (allocations s)).

Definition seq_init : System := mkSystem None [] [].

(** The writes the counter has seen. *)
Definition writes (s : System) : Z :=
  match store s with None => 0 | Some c => ctr_version c end.

(** Calls that are back and may have written: all but those that ran out of attempts. *)
Definition returned (c : caller) : bool :=
  match c with Returned (Err SeqConflict) => false | Returned _ => true | _ => false end.

Definition back (l : list caller) : Z := Z.of_nat (List.length (List.filter returned l)).

(** What one call knows of the counter: every attempt it has used met a write of
    somebody else, and the number it is about to write is the version it read plus
    one. *)
Definition caller_ok (n : Z) (c : caller) : Prop :=
  match c with
  | Reading k => Z.of_nat seqRetrySteps - Z.of_nat k <= n
  | Writing k w =>
      Z.of_nat seqRetrySteps - Z.of_nat k - 1 <= allocated w - 1 <= n
      /\ (w = SeqCreate \/ exists v, w = SeqUpdate v (v + 1) /\ 1 <= v)
  | Returned (Err SeqConflict) => Z.of_nat seqRetrySteps <= n
  | Returned _ => True
  end.

(** The number a caller came back with. *)
Definition got (c : caller) : option Z := match c with Returned (Ok a) => Some a | _ => None end.

Record seq_ok (s : System) : Prop := {
  so_store : store s = None \/ exists n, store s = Some (mkCounter n (FormatInt n)) /\ 1 <= n;
  so_back : writes s <= back (callers s);
  so_callers : Forall (caller_ok (writes s)) (callers s);
  so_got : omap got (callers s) ≡ₚ allocations s;
  so_sorted : StronglySorted Z.lt (allocations s);
  so_bound : Forall (fun a => 1 <= a <= writes s) (allocations s)
}.

(** Two calls that are back. *)
Definition two_calls : System :=
  mkSystem (Some (mkCounter 2 "2")) [Returned (Ok 1); Returned (Ok 2)] [1; 2].

(** ** Lemmas *)

Lemma digit_cases d : 0 <= d <= 9 ->
  forall s acc, parse_digits (String (digit d) s) acc = parse_digits s (acc * 10 + d)
  /\ ParseInt (String (digit d) s)
     = match parse_digits s d with
       | Some n => if (- two63 <=? n) && (n <? two63) then Some n else None
       | None => None
       end.
Proof.
  intros H.
  assert (d = 0 \/ d = 1 \/ d = 2 \/ d = 3 \/ d = 4 \/ d = 5 \/ d = 6 \/ d = 7 \/ d = 8 \/ d = 9) as Hd
    by lia.
  destruct_or! Hd; subst d; intros s acc; split; reflexivity.
Qed.

Lemma format_parse fuel : forall n acc, 0 <= n < 10 ^ Z.of_nat fuel -> (0 < fuel)%nat ->
  exists d rest, 0 <= d <= 9 /\ format_digits fuel n acc = String (digit d) rest
  /\ parse_digits rest d = parse_digits acc n.
Proof.
  induction fuel as [|fuel IH]; intros n acc Hn Hf; [lia|]. cbn [format_digits].
  destruct (Z.ltb_spec n 10) as [Hlt|Hge].
  - exists n, acc. split; [lia|done].
  - assert (0 < fuel)%nat as Hf'.
    { destruct fuel; [|lia]. change (Z.of_nat 1) with 1 in Hn. lia. }
    rewrite Nat2Z.inj_succ, Z.pow_succ_r in Hn by lia.
    destruct (IH (n / 10) (String (digit (n mod 10)) acc)) as (d & rest & Hd & -> & Hp); [|done|].
    { split; [apply Z.div_pos; lia|apply Z.div_lt_upper_bound; lia]. }
    exists d, rest. split; [done|]. split; [done|]. rewrite Hp.
    pose proof (Z.mod_pos_bound n 10).
    rewrite (proj1 (digit_cases (n mod 10) ltac:(lia) acc (n / 10))).
    f_equal. pose proof (Z.div_mod n 10). lia.
Qed.

(** The counter's value survives the ConfigMap. *)
Lemma FormatInt_parse n : 0 <= n < two63 -> ParseInt (FormatInt n) = Some n.
Proof.
  intros Hn. unfold FormatInt. destruct (Z.ltb_spec n 0); [lia|].
  destruct (format_parse 20 n "") as (d & rest & Hd & -> & Hp); [unfold two63 in Hn; lia|lia|].
  rewrite (proj2 (digit_cases d Hd rest 0)), Hp. cbn [parse_digits].
  assert ((- two63 <=? n) = true) as -> by (apply Z.leb_le; lia).
  assert ((n <? two63) = true) as -> by (apply Z.ltb_lt; lia). done.
Qed.

Lemma FormatInt_nonempty n : 0 <= n < two63 -> (FormatInt n == "") = false.
Proof.
  intros Hn. unfold FormatInt. destruct (Z.ltb_spec n 0); [lia|].
  destruct (format_parse 20 n "") as (d & rest & _ & -> & _); [unfold two63 in Hn; lia|lia|done].
Qed.

Lemma update_perm {A} (l : list A) i c :
  l !! i = Some c -> exists rest, l ≡ₚ c :: rest /\ forall x, <[i := x]> l ≡ₚ x :: rest.
Proof.
  intros H. exists (take i l ++ drop (S i) l). split.
  - rewrite <- (take_drop_middle l i c H) at 1. by rewrite Permutation_middle.
  - intros x. rewrite insert_take_drop by (by eapply lookup_lt_Some).
    by rewrite Permutation_middle.
Qed.

Lemma caller_ok_mono n n' c : n <= n' -> caller_ok n c -> caller_ok n' c.
Proof. destruct c as [k|k w|[a|[]]]; cbn; try done; try lia; intros ? [? ?]; split; [lia|done]. Qed.

#[export] Instance back_proper : Proper (Permutation ==> eq) back.
Proof.
  unfold back. induction 1 as [|c l l' _ IH|c c' l|l1 l2 l3 _ IH1 _ IH2]; cbn; [done| | |lia].
  - destruct (returned c); cbn; lia.
  - by destruct (returned c), (returned c').
Qed.

Lemma back_cons c l : back (c :: l) = (if returned c then 1 else 0) + back l.
Proof. unfold back. cbn. destruct (returned c); cbn [List.length]; lia. Qed.

Lemma back_le l : back l <= Z.of_nat (List.length l).
Proof. unfold back. pose proof (List.filter_length_le returned l). lia. Qed.

(** One caller moves: its place in the list does not matter. *)
Lemma seq_ok_move s i c x st allocs n :
  seq_ok s -> callers s !! i = Some c -> returned c = false ->
  (st = None \/ exists n, st = Some (mkCounter n (FormatInt n)) /\ 1 <= n) ->
  (forall cs al, writes (mkSystem st cs al) = n) ->
  writes s <= n <= writes s + (if returned x then 1 else 0) ->
  caller_ok n x ->
  allocs = (allocations s ++ match got x with Some a => [a] | None => [] end)%list ->
  (forall a, got x = Some a -> a = n /\ 1 <= a /\ writes s < a) ->
  seq_ok (mkSystem st (<[i := x]> (callers s)) allocs).
Proof.
  intros [_ Hb Hc Hg Hs Hr] Hi Hret Hst Hn Hle Hx Hal Hgot.
  destruct (update_perm _ _ _ Hi) as (rest & Hp & Hu). specialize (Hu x).
  assert (got c = None) as Hgc by (by destruct c as [| |[|[]]]).
  rewrite Hp in Hc, Hg. cbn in Hg. rewrite Hgc in Hg. apply Forall_cons in Hc as [_ Hc].
  split; rewrite ?Hn; cbn [store callers allocations]; [done| | | | |].
  - rewrite Hu, back_cons. rewrite Hp, back_cons, Hret in Hb. lia.
  - rewrite Hu. constructor; [done|]. eapply Forall_impl; [exact Hc|]. intros c'. apply caller_ok_mono. lia.
  - rewrite Hu, Hal. cbn. destruct (got x) as [a|]; rewrite Hg; [apply Permutation_cons_append|by rewrite app_nil_r].
  - rewrite Hal. destruct (got x) as [a|]; [|by rewrite app_nil_r].
    destruct (Hgot a eq_refl) as (_ & _ & Ha).
    apply StronglySorted_app. split; [|split; [done|repeat constructor]].
    intros b a' Hb' Ha'%list_elem_of_singleton. subst a'.
    rewrite Forall_forall in Hr. apply Hr in Hb'. lia.
  - rewrite Hal. apply Forall_app. split.
    + eapply Forall_impl; [exact Hr|]. cbn. intros a. lia.
    + destruct (got x) as [a|]; [|done]. destruct (Hgot a eq_refl) as (-> & Ha1 & _).
      constructor; [|done]. lia.
Qed.

Lemma caller_at s i c : seq_ok s -> callers s !! i = Some c -> caller_ok (writes s) c.
Proof. intros H Hi. exact (Forall_lookup_1 _ _ _ _ (so_callers s H) Hi). Qed.

(** An accepted write is the one the caller read for. *)
Lemma serve_ok s k w c :
  seq_ok s -> caller_ok (writes s) (Writing k w) -> serve (store s) w = Some c ->
  c = mkCounter (writes s + 1) (FormatInt (allocated w)) /\ allocated w = writes s + 1 /\ 0 <= writes s.
Proof.
  intros Hok [_ Hw] Hs. unfold writes.
  destruct Hw as [->|(v & -> & Hv)]; cbn in Hs.
  - destruct (store s); [done|]. injection Hs as <-. cbn. split; [reflexivity|lia].
  - destruct (store s) as [c0|]; [|done]. destruct (Z.eqb_spec (ctr_version c0) v) as [->|]; [|done].
    injection Hs as <-. cbn. split; [done|lia].
Qed.

(** A refused write means somebody else wrote since the read. *)
Lemma serve_conflict s k w :
  seq_ok s -> caller_ok (writes s) (Writing k w) -> serve (store s) w = None ->
  allocated w <= writes s.
Proof.
  intros Hok [[_ Hle] Hw] Hs. pose proof (so_store s Hok) as Hst. unfold writes in *.
  destruct Hst as [E|(n & E & Hn)]; rewrite E in *; cbn in *.
  - destruct Hw as [->|(v & -> & Hv)]; [done|]. cbn in Hle. lia.
  - destruct Hw as [->|(v & -> & Hv)]; cbn in *; [lia|].
    destruct (Z.eqb_spec n v); [done|]. lia.
Qed.

(** What a read decides on. *)
Lemma decide_ok s w :
  seq_ok s -> writes s < two63 - 1 -> seq_decide (store s) = Ok w ->
  allocated w = writes s + 1 /\ (w = SeqCreate \/ exists v, w = SeqUpdate v (v + 1) /\ 1 <= v).
Proof.
  intros Hok Hbig. unfold writes in *. destruct (so_store s Hok) as [E|(n & E & Hn)]; rewrite E in *; cbn in *.
  - intros [= <-]. cbn. auto.
  - rewrite FormatInt_nonempty, FormatInt_parse by lia. intros [= <-]. cbn.
    rewrite i64_small by (unfold in_i64; lia). split; [done|]. right. by exists n.
Qed.

Lemma decide_total s : seq_ok s -> writes s < two63 - 1 -> is_ok (seq_decide (store s)) = true.
Proof.
  intros Hok Hbig. unfold writes in *. destruct (so_store s Hok) as [E|(n & E & Hn)]; rewrite E in *; cbn in *;
    [done|]. by rewrite FormatInt_nonempty, FormatInt_parse by lia.
Qed.

Lemma seq_ok_step s s' :
  seq_ok s -> seq_step s s' -> Z.of_nat (List.length (callers s)) < two63 - 1 -> seq_ok s'.
Proof.
  intros Hok Hstep Hbig.
  assert (writes s < two63 - 1) as Hw.
  { pose proof (so_back s Hok). unfold back in *.
    pose proof (List.filter_length_le returned (callers s)). lia. }
  pose proof (so_store s Hok) as Hst.
  destruct Hstep as [|i k w Hi Hd|i k e Hi Hd|i k w c Hi Hs|i k w c Hi Hs|i k w Hi Hs|i Hi|i c Hi Hr].
  - destruct Hok as [H1 H2 H3 H4 H5 H6]. split; cbn [store callers allocations]; try done.
    + change (writes s <= back (callers s ++ [Reading seqRetrySteps])).
      rewrite <- Permutation_cons_append, back_cons. exact H2.
    + apply Forall_app. split; [done|]. constructor; [|done]. unfold writes in *. cbn [caller_ok store] in *.
      destruct H1 as [E|(n & E & ?)]; rewrite E; cbn; lia.
    + by rewrite omap_app, app_nil_r.
  - apply (decide_ok s w Hok Hw) in Hd as [Ha Hw'].
    pose proof (caller_at s i _ Hok Hi) as Hc. cbn [caller_ok] in Hc.
    eapply (seq_ok_move s i _ (Writing k w) (store s) _ (writes s)); eauto; try done; cbn; [lia| |by rewrite app_nil_r].
    split; [|done]. cbn in Hc. lia.
  - pose proof (decide_total s Hok Hw) as Ht. by rewrite Hd in Ht.
  - pose proof (caller_at s i _ Hok Hi) as Hc. apply (serve_ok s k w c Hok Hc) in Hs as (-> & Ha & Hn).
    eapply (seq_ok_move s i _ (Returned (Ok (allocated w))) _ _ (writes s + 1)); eauto; try done; cbn; try lia.
    + right. exists (writes s + 1). rewrite Ha. split; [done|lia].
    + intros a [= <-]. lia.
  - pose proof (caller_at s i _ Hok Hi) as Hc. apply (serve_ok s k w c Hok Hc) in Hs as (-> & Ha & Hn).
    eapply (seq_ok_move s i _ (Returned (Err SeqFailed)) _ _ (writes s + 1)); eauto; try done; cbn; try lia.
    + right. exists (writes s + 1). rewrite Ha. split; [done|lia].
    + by rewrite app_nil_r.
  - pose proof (caller_at s i _ Hok Hi) as Hc. pose proof (serve_conflict s k w Hok Hc Hs).
    destruct Hc as [Hc _].
    eapply (seq_ok_move s i _ (Reading k) (store s) _ (writes s)); eauto; try done; cbn in *; [lia|lia|by rewrite app_nil_r].
  - pose proof (caller_at s i _ Hok Hi) as Hc. cbn in Hc.
    eapply (seq_ok_move s i _ (Returned (Err SeqConflict)) (store s) _ (writes s)); eauto; try done;
      cbn [returned caller_ok got]; [lia|by rewrite app_nil_r].
  - eapply (seq_ok_move s i _ (Returned (Err SeqFailed)) (store s) _ (writes s)); eauto; try done; cbn; [|lia|by rewrite app_nil_r].
    destruct c; try done. by destruct (Hr r).
Qed.

Lemma seq_step_callers s s' : seq_step s s' -> (List.length (callers s) <= List.length (callers s'))%nat.
Proof. destruct 1; cbn; rewrite ?length_insert, ?length_app; lia. Qed.

Lemma seq_ok_init : seq_ok seq_init.
Proof. split; cbn; first [by left | apply SSorted_nil | done]. Qed.

Lemma seq_reachable_ok s :
  rtc seq_step seq_init s -> Z.of_nat (List.length (callers s)) < two63 - 1 -> seq_ok s.
Proof.
  revert s. apply (rtc_ind_r (fun s => Z.of_nat (List.length (callers s)) < two63 - 1 -> seq_ok s)).
  - intros _. apply seq_ok_init.
  - intros s s' _ Hs IH Hbig. pose proof (seq_step_callers _ _ Hs).
    apply (seq_ok_step s); [apply IH; lia|done|lia].
Qed.

Lemma got_unique l : NoDup (omap got l) -> forall i j a,
  l !! i = Some (Returned (Ok a)) -> l !! j = Some (Returned (Ok a)) -> i = j.
Proof.
  induction l as [|c l IH]; intros Hn i j a Hi Hj; [done|].
  assert (forall k, l !! k = Some (Returned (Ok a)) -> a ∈ omap got l) as Hin.
  { intros k Hk. apply list_elem_of_omap. exists (Returned (Ok a)).
    split; [by eapply list_elem_of_lookup_2|done]. }
  destruct i as [|i], j as [|j]; [done| | |].
  - injection Hi as ->. cbn in Hn. apply NoDup_cons in Hn as [Hn _]. by destruct Hn; eapply Hin.
  - injection Hj as ->. cbn in Hn. apply NoDup_cons in Hn as [Hn _]. by destruct Hn; eapply Hin.
  - f_equal. apply (IH) with a; [|done|done]. cbn in Hn.
    destruct (got c); [by apply NoDup_cons in Hn as [_ ?]|done].
Qed.

(** ** Properties *)

(** C17: no two calls get the same number.  However any number of replicas interleave
    their reads and writes of a project's counter, and whatever answers are lost, the
    numbers are handed out in strictly increasing order from one up, no number is
    above the count of accepted writes, and the numbers the callers came back with
    are exactly those handed out, each once. *)
Theorem Next_unique s :
  rtc seq_step seq_init s -> Z.of_nat (List.length (callers s)) < two63 - 1 ->
  StronglySorted Z.lt (allocations s)
  /\ Forall (fun a => 1 <= a <= writes s) (allocations s)
  /\ omap got (callers s) ≡ₚ allocations s
  /\ forall i j a, callers s !! i = Some (Returned (Ok a)) -> callers s !! j = Some (Returned (Ok a)) -> i = j.
Proof.
  intros Hr Hb. destruct (seq_reachable_ok s Hr Hb) as [_ _ _ Hg Hs Hf].
  split; [done|]. split; [done|]. split; [done|].
  assert (NoDup (omap got (callers s))) as Hn.
  { rewrite Hg. clear Hg Hf. induction Hs as [|a l _ IH Ha]; constructor; [|done].
    intros Hin. rewrite Forall_forall in Ha. apply Ha in Hin. lia. }
  exact (got_unique _ Hn).
Qed.

(** thirty attempts are enough for thirty callers.  A call loses an attempt only to
    another call's accepted write, and every call writes at most once; so with at most
    thirty calls on a counter, at any speed and in any order, none of them runs out of
    attempts. *)
Theorem Next_never_exhausted s :
  rtc seq_step seq_init s -> (List.length (callers s) <= 30)%nat ->
  ~ In (Returned (Err SeqConflict)) (callers s).
Proof.
  intros Hr Hb Hin.
  assert (seq_ok s) as Hok by (apply seq_reachable_ok; [done|unfold two63; lia]).
  apply list_elem_of_In, list_elem_of_lookup in Hin as [i Hi].
  pose proof (caller_at s i _ Hok Hi) as H30. cbn in H30.
  pose proof (so_back s Hok) as Hback.
  destruct (update_perm _ _ _ Hi) as (rest & Hp & _).
  rewrite Hp, back_cons in Hback. cbn [returned] in Hback.
  pose proof (back_le rest). apply Permutation_length in Hp. cbn in Hp. unfold seqRetrySteps in H30. lia.
Qed.

(** ** Worked instances *)

Example Next_retries :
  Next [mkSeqAttempt (Some None) UpdateConflict; mkSeqAttempt (Some (Some (mkCounter 7 "41"))) UpdateOk]
  = Ok 42.
Proof. vm_compute. reflexivity. Qed.

Example Next_corrupt : Next [mkSeqAttempt (Some (Some (mkCounter 7 "4x"))) UpdateOk] = Err (SeqCorrupt "4x").
Proof. vm_compute. reflexivity. Qed.

(** Two replicas read the absent counter, one creates it, the other reads again. *)
Lemma two_calls_reached : rtc seq_step seq_init two_calls.
Proof.
  eapply rtc_l; [apply step_call|].
  eapply rtc_l; [apply step_call|].
  eapply rtc_l; [apply (step_read _ 0 29 SeqCreate); reflexivity|].
  eapply rtc_l; [apply (step_read _ 1 29 SeqCreate); reflexivity|].
  eapply rtc_l; [eapply (step_write _ 0 29 SeqCreate); reflexivity|].
  eapply rtc_l; [eapply (step_conflict _ 1 29 SeqCreate); reflexivity|].
  eapply rtc_l; [eapply (step_read _ 1 28 (SeqUpdate 1 2)); reflexivity|].
  eapply rtc_l; [eapply (step_write _ 1 28 (SeqUpdate 1 2)); reflexivity|].
  apply rtc_refl.
Qed.

Lemma Next_unique_witness :
  rtc seq_step seq_init two_calls
  /\ Forall (fun a => 1 <= a <= writes two_calls) (allocations two_calls).
Proof.
  split; [exact two_calls_reached|].
  exact (proj1 (proj2 (Next_unique two_calls two_calls_reached eq_refl))).
Defined.

Lemma Next_never_exhausted_witness : ~ In (Returned (Err SeqConflict)) (callers two_calls).
Proof. apply (Next_never_exhausted two_calls two_calls_reached). cbn. lia. Defined.
