(* ===== verification/Names.v ===== *)
(** * Names the operator derives (internal/slug, and the naming half of
    internal/agent/pod.go): DNS-1123 labels, pod names and work branches. *)

From S2P Require Import Prelude Text Limits Api Seq.
From Stdlib Require Import String Ascii.

Open Scope Z_scope.
Open Scope go_scope.

(** ** DNS-1123 labels *)

Definition alnum (a : ascii) : bool := within 97 122 a || within 48 57 a.

Definition label_char (a : ascii) : bool := alnum a || Ascii.eqb a "-".

(** The loop over the lowered runes. *)
Fixpoint slug_loop (l : list string) (prevDash : bool) : string :=
  match l with
  | [] => EmptyString
  | w :: l' =>
      match w with
      | String a EmptyString =>
          if alnum a then String a (slug_loop l' false)
          else if prevDash then slug_loop l' true else String "-" (slug_loop l' true)
      | _ => if prevDash then slug_loop l' true else String "-" (slug_loop l' true)
      end
  end.

(** [strings.TrimLeft] and [strings.TrimRight] with a cutset of one dash. *)
Fixpoint TrimLeftDash (s : string) : string :=
  match s with
  | String a s' => if Ascii.eqb a "-" then TrimLeftDash s' else s
  | EmptyString => EmptyString
  end.

Fixpoint TrimRightDash (s : string) : string :=
  match s with
  | EmptyString => EmptyString
  | String a s' =>
      match TrimRightDash s' with
      | EmptyString => if Ascii.eqb a "-" then EmptyString else String a EmptyString
      | r => String a r
      end
  end.

Definition TrimDash (s : string) : string := TrimRightDash (TrimLeftDash s).

Definition strlen (s : string) : Z := Z.of_nat (String.length s).

(** [s[:n]] for an [n] within the string. *)
Definition first_bytes (s : string) (n : Z) : string := take_bytes (Z.to_nat n) s.

Definition lower_byte (a : ascii) : ascii :=
  if within 65 90 a then ascii_of_N (N_of_ascii a + 32) else a.

Fixpoint map_bytes (f : ascii -> ascii) (s : string) : string :=
  match s with String a s' => String (f a) (map_bytes f s') | EmptyString => EmptyString end.

Fixpoint isASCII (s : string) : bool :=
  match s with String a s' => within 0 127 a && isASCII s' | EmptyString => true end.

Definition typeAbbrevs : list (string * string) :=
  [("brainstorm", "brs"); ("refine", "ref"); ("incident", "inc"); ("review", "rev");
   ("implement", "imp"); ("documentation", "doc"); ("takeover", "tko"); ("upgrade", "upg")]%string.

Section Lower.

(** [strings.ToLower] of a string that is not ASCII: Unicode's tables. *)
Context (unicodeLower : string -> string).

Definition ToLower (s : string) : string :=
  if isASCII s then map_bytes lower_byte s else unicodeLower s.

Definition SanitizeDNS1123 (s : string) (maxLen : Z) : string :=
  let out := TrimDash (slug_loop (runes (ToLower s)) false) in
  if maxLen <? strlen out then TrimDash (first_bytes out maxLen) else out.

Definition sanitizeDNS1123 (s : string) : string := SanitizeDNS1123 s 63.

Definition slugifyTitle (s : string) : string := SanitizeDNS1123 s 40.

(** The names of the two per-project ConfigMaps. *)
Definition seqConfigMapName (project : string) : string :=
  String.append "queue-seq-" (SanitizeDNS1123 project 53).

Definition deployLedgerName (project : string) : string :=
  String.append "deploy-ledger-" (SanitizeDNS1123 project 49).

(** ** Pod names *)

Definition PodNameAnnotation : string := "tatara.dev/pod-name".

Definition PodName (task : Task) : string :=
  if ann task PodNameAnnotation != "" then ann task PodNameAnnotation
  else String.append "wrapper-" (task_Name task).

Definition typeAbbrev (kind : string) : string :=
  match tbl typeAbbrevs kind with
  | Some a => a
  | None =>
      let k := ToLower kind in
      if 3 <? strlen k then first_bytes k 3 else k
  end.

(** [agent.AgentKind]: the kind of agent the pod runs as. *)
Definition AgentKindOf (task : Task) : string :=
  if AgentKind (Status task) != "" then AgentKind (Status task) else Kind (Spec task).

Definition shortSourceHeadSHA (t : Task) : string :=
  let sha := ann t AnnSourceHeadSHA in
  if strlen sha <? 7 then sha else first_bytes sha 7.

Definition upgradeIDSegment (t : Task) : string :=
  let seed := task_Name t in
  let seed := if seed == "" then task_GenerateName t else seed in
  if seed == "" then "" else first_bytes (sha256_hex seed) 8.

(** [task.Spec.Source.Number] when it is set and positive. *)
Definition source_number (t : Task) : option TaskSource :=
  match Source (Spec t) with
  | Some s => if 0 <? src_Number s then Some s else None
  | None => None
  end.

Definition podNameIDSegment (task : Task) : string :=
  match source_number task with
  | Some s => if src_IsPR s then String "p" (FormatInt (src_Number s))
              else String "i" (FormatInt (src_Number s))
  | None =>
      if (Kind (Spec task) == "brainstorm")
         && (default ""%string (Labels task !! LabelActivity) == "healthCheck") then "hc"
      else if Kind (Spec task) == "incident" then DedupKey (Spec task)
      else if Kind (Spec task) == "documentation" then shortSourceHeadSHA task
      else if Kind (Spec task) == "upgrade" then upgradeIDSegment task
      else ""
  end.

Definition trimTo (s : string) (n : Z) : string :=
  if n <=? 0 then EmptyString
  else if strlen s <=? n then s
  else TrimRightDash (first_bytes s n).

Definition splitTrimBudget (project repoRef : string) (budget : Z) : string * string :=
  if repoRef == "" then (trimTo project budget, EmptyString)
  else
    let total := strlen project + strlen repoRef in
    if total <=? budget then (project, repoRef)
    else if (total =? 0) || (budget <=? 0) then (EmptyString, EmptyString)
    else
      let projectBudget := Z.quot (budget * strlen project) total in
      (trimTo project projectBudget, trimTo repoRef (budget - projectBudget)).

(** What is left of the 63 characters for the project and the repository. *)
Definition name_budget (typ id repoRef : string) : Z :=
  let fixed := strlen typ in
  let fixed := if id != "" then fixed + (1 + strlen id) else fixed in
  let sepCount := 1 in
  let sepCount := if repoRef != "" then sepCount + 1 else sepCount in
  let sepCount := if id != "" then sepCount + 1 else sepCount in
  let budget := 63 - (fixed + sepCount) in
  if budget <? 0 then 0 else budget.

Definition name_parts (typ project repo id : string) : list string :=
  let parts := [typ; project] in
  let parts := if repo != "" then (parts ++ [repo])%list else parts in
  if id != "" then (parts ++ [id])%list else parts.

Definition BuildPodName (projectName repoRef : string) (task : Task) : string :=
  let typ := typeAbbrev (AgentKindOf task) in
  let id := podNameIDSegment task in
  let '(project, repo) := splitTrimBudget projectName repoRef (name_budget typ id repoRef) in
  sanitizeDNS1123 (str_join "-" (name_parts typ project repo id)).

Definition StampPodName (task : Task) (projectName repoRef : string) : Task :=
  task <| Annotations ::= fun a => <[PodNameAnnotation := BuildPodName projectName repoRef task]> a |>.

(** ** Work branches *)

Definition branchKind (t : Task) : string :=
  let k := Kind (Spec t) in
  if k == "incident" then "fix"
  else if k == "implement" then "feat"
  else if k == "documentation" then "docs"
  else if k == "takeover" then "feat"
  else "chore".

Definition TaskBranch (t : Task) : string :=
  match source_number t with
  | Some s =>
      let base := str_join "" ["tatara/"%string; branchKind t; "-"%string; FormatInt (src_Number s)] in
      let slug := slugifyTitle (src_Title s) in
      let base := if slug != "" then str_join "-" [base; slug] else base in
      if 63 <? strlen base then TrimDash (first_bytes base 63) else base
  | None =>
      if (Kind (Spec t) == "documentation") && (shortSourceHeadSHA t != "") then
        str_join "" ["tatara/"%string; branchKind t; "-"%string; shortSourceHeadSHA t]
      else String.append "tatara/task-" (task_Name t)
  end.

Definition branchEnvValues (task : Task) : string * string :=
  let review := ann task AnnReviewHeadBranch in
  let takeover := ann task AnnTakeoverHeadBranch in
  if (Kind (Spec task) == "review") && (review != "") then (EmptyString, review)
  else if takeover != "" then (takeover, EmptyString)
  else (TaskBranch task, EmptyString).

Definition PushBranch (task : Task) : string := fst (branchEnvValues task).

End Lower.

(** ** Vocabulary of the lemmas *)

Fixpoint all_bytes (f : ascii -> bool) (s : string) : bool :=
  match s with String a s' => f a && all_bytes f s' | EmptyString => true end.

Definition starts_dash (s : string) : bool :=
  match s with String a _ => Ascii.eqb a "-" | EmptyString => false end.

Fixpoint ends_dash (s : string) : bool :=
  match s with
  | EmptyString => false
  | String a EmptyString => Ascii.eqb a "-"
  | String _ s' => ends_dash s'
  end.

(** A DNS-1123 label of at most [n] bytes, or nothing. *)
Definition label_upto (n : Z) (s : string) : Prop :=
  strlen s <= n /\ all_bytes label_char s = true /\ starts_dash s = false /\ ends_dash s = false.

(** The flag the loop ends with. *)
Fixpoint slug_state (l : list string) (prevDash : bool) : bool :=
  match l with
  | [] => prevDash
  | String a EmptyString :: l' => slug_state l' (negb (alnum a))
  | _ :: l' => slug_state l' true
  end.

Fixpoint singles (s : string) : list string :=
  match s with String a s' => String a "" :: singles s' | EmptyString => [] end.

Definition an_upgrade : Task :=
  zero_Task <| task_GenerateName := "upg-qe-1f-" |>
            <| Spec ::= fun s => s <| Kind := "upgrade" |> |>.

(** ** Lemmas *)

Lemma all_bytes_app f s t : all_bytes f (String.append s t) = all_bytes f s && all_bytes f t.
Proof. induction s as [|a s IH]; [done|]. rewrite app_cons. cbn. by rewrite IH, andb_assoc. Qed.

Lemma all_bytes_take f n s : all_bytes f s = true -> all_bytes f (take_bytes n s) = true.
Proof.
  revert s. induction n as [|n IH]; intros [|a s]; cbn; try done. rewrite !andb_true_iff.
  intros [-> H]. by rewrite IH.
Qed.

Lemma slug_loop_chars l b : all_bytes label_char (slug_loop l b) = true.
Proof.
  revert b. induction l as [|w l IH]; intros b; [done|]. cbn [slug_loop].
  destruct w as [|a [|a' w]]; try (destruct b; cbn; by rewrite ?IH).
  destruct (alnum a) eqn:E; [|destruct b; cbn; by rewrite ?IH].
  cbn. unfold label_char. by rewrite E, IH.
Qed.

Lemma TrimLeftDash_spec s : starts_dash (TrimLeftDash s) = false
  /\ exists d, s = String.append d (TrimLeftDash s).
Proof.
  induction s as [|a s [H1 [d H2]]]; [by split; [|exists ""%string]|]. cbn [TrimLeftDash].
  destruct (Ascii.eqb a "-") eqn:E; [|split; [exact E|by exists ""%string]].
  split; [done|]. exists (String a d). rewrite app_cons. by f_equal.
Qed.

Lemma TrimRightDash_cons a s : TrimRightDash (String a s) =
  match TrimRightDash s with
  | EmptyString => if Ascii.eqb a "-" then EmptyString else String a EmptyString
  | r => String a r
  end.
Proof. reflexivity. Qed.

Lemma TrimRightDash_spec s : ends_dash (TrimRightDash s) = false
  /\ (exists d, s = String.append (TrimRightDash s) d)
  /\ (starts_dash s = false -> starts_dash (TrimRightDash s) = false).
Proof.
  induction s as [|a s (H1 & [d H2] & _)]; [by split; [|split; [exists ""%string|]]|].
  rewrite TrimRightDash_cons. destruct (TrimRightDash s) as [|b r].
  - destruct (Ascii.eqb a "-") eqn:E.
    + split; [done|]. split; [by exists (String a s)|done].
    + split; [exact E|]. split; [by exists s|done].
  - split; [exact H1|]. split; [|done]. exists d. rewrite app_cons. by f_equal.
Qed.

Lemma TrimDash_spec s : starts_dash (TrimDash s) = false /\ ends_dash (TrimDash s) = false
  /\ exists d e, s = String.append d (String.append (TrimDash s) e).
Proof.
  unfold TrimDash. destruct (TrimLeftDash_spec s) as [Hs [d Hd]].
  destruct (TrimRightDash_spec (TrimLeftDash s)) as (He & [e Hf] & Hk).
  split; [by apply Hk|]. split; [done|]. exists d, e. by rewrite <- Hf.
Qed.

Lemma TrimDash_within f s : all_bytes f s = true ->
  all_bytes f (TrimDash s) = true /\ strlen (TrimDash s) <= strlen s.
Proof.
  destruct (TrimDash_spec s) as (_ & _ & d & e & H). remember (TrimDash s) as r eqn:Hr.
  clear Hr. subst s. rewrite !all_bytes_app. unfold strlen. rewrite !length_app_s, !andb_true_iff.
  intros (_ & -> & _). lia.
Qed.

(** what the sanitizer answers is a DNS-1123 label within the length asked for, or
    nothing, whatever the input and whatever the case folding. *)
Theorem SanitizeDNS1123_label (unicodeLower : string -> string) (s : string) (maxLen : Z) :
  0 <= maxLen -> label_upto maxLen (SanitizeDNS1123 unicodeLower s maxLen).
Proof.
  intros Hn. unfold SanitizeDNS1123. set (out := TrimDash _).
  assert (all_bytes label_char out = true /\ starts_dash out = false /\ ends_dash out = false)
    as (Hc & Hs & He).
  { subst out. set (l := slug_loop _ _). destruct (TrimDash_spec l) as (? & ? & _).
    split; [|done]. apply TrimDash_within. apply slug_loop_chars. }
  destruct (Z.ltb_spec maxLen (strlen out)) as [Hlt|Hge]; [|done].
  destruct (TrimDash_spec (first_bytes out maxLen)) as (H1 & H2 & _).
  destruct (TrimDash_within label_char (first_bytes out maxLen)) as [H3 H4];
    [by apply all_bytes_take|].
  split; [|done]. etransitivity; [exact H4|]. unfold strlen, first_bytes in *.
  rewrite take_bytes_length by lia. lia.
Qed.

Lemma SanitizeDNS1123_label_witness :
  label_upto 53 (SanitizeDNS1123 id "My_Project--2." 53)
  /\ SanitizeDNS1123 id "My_Project--2." 53 = "my-project-2"%string.
Proof. split; [exact (SanitizeDNS1123_label id "My_Project--2." 53 ltac:(discriminate))|vm_compute; reflexivity]. Defined.

(** ** What survives the sanitizer *)

Lemma alnum_range a : alnum a = true -> (97 <= byte_of a <= 122) \/ (48 <= byte_of a <= 57).
Proof. unfold alnum, within. rewrite orb_true_iff, !andb_true_iff, !Z.leb_le. lia. Qed.

Lemma all_bytes_imp (f g : ascii -> bool) s :
  (forall a, f a = true -> g a = true) -> all_bytes f s = true -> all_bytes g s = true.
Proof.
  intros H. induction s as [|a s IH]; [done|]. cbn. rewrite !andb_true_iff. intros [? ?]. auto.
Qed.

Lemma alnum_ascii a : alnum a = true -> within 0 127 a = true.
Proof. intros H%alnum_range. unfold within. apply andb_true_iff. rewrite !Z.leb_le. lia. Qed.

Lemma isASCII_all s : isASCII s = all_bytes (within 0 127) s.
Proof. induction s as [|a s IH]; [done|]. cbn. by rewrite IH. Qed.

Lemma runes_ascii s : isASCII s = true -> runes s = singles s.
Proof.
  induction s as [|a s IH]; [done|]. intros H. apply andb_true_iff in H as [Ha H].
  cbn [singles]. rewrite <- IH by done. apply runes_opens. unfold opens, within in *.
  apply andb_true_iff in Ha as [_ Ha%Z.leb_le].
  destruct (Z.leb_spec 194 (byte_of a)), (Z.leb_spec 224 (byte_of a)), (Z.leb_spec 240 (byte_of a));
    by try lia.
Qed.

Lemma map_bytes_app f s t : map_bytes f (String.append s t) = String.append (map_bytes f s) (map_bytes f t).
Proof. induction s as [|a s IH]; [done|]. rewrite app_cons. cbn. by rewrite IH. Qed.

Lemma strlen_app s t : strlen (String.append s t) = strlen s + strlen t.
Proof. unfold strlen. rewrite length_app_s. lia. Qed.

Lemma strlen_map f s : strlen (map_bytes f s) = strlen s.
Proof. unfold strlen. f_equal. induction s as [|a s IH]; [done|]. cbn. by rewrite IH. Qed.

Lemma lower_alnum s : all_bytes alnum s = true -> map_bytes lower_byte s = s.
Proof.
  induction s as [|a s IH]; [done|]. cbn. rewrite andb_true_iff. intros [Ha H]. rewrite IH by done.
  f_equal. apply alnum_range in Ha. unfold lower_byte, within.
  destruct (Z.leb_spec 65 (byte_of a)), (Z.leb_spec (byte_of a) 90); cbn; lia || done.
Qed.

Lemma lower_ascii s : isASCII s = true -> isASCII (map_bytes lower_byte s) = true.
Proof.
  induction s as [|a s IH]; [done|]. cbn. rewrite !andb_true_iff. intros [Ha H]. split; [|by apply IH].
  unfold lower_byte. destruct (within 65 90 a) eqn:E; [|done]. unfold within, byte_of in *.
  rewrite andb_true_iff, !Z.leb_le in *. rewrite N_ascii_embedding by lia. lia.
Qed.

Lemma singles_app s t : singles (String.append s t) = (singles s ++ singles t)%list.
Proof. induction s as [|a s IH]; [done|]. rewrite app_cons. cbn. by rewrite IH. Qed.

Lemma slug_loop_app l k b :
  slug_loop (l ++ k) b = String.append (slug_loop l b) (slug_loop k (slug_state l b)).
Proof.
  revert b. induction l as [|w l IH]; intros b; [done|]. cbn [app slug_loop slug_state].
  destruct w as [|a [|a' w]]; [|destruct (alnum a); cbn [negb]|];
    rewrite IH; destruct b; rewrite ?app_cons; reflexivity.
Qed.

Lemma slug_loop_length l b : strlen (slug_loop l b) <= Z.of_nat (List.length l).
Proof.
  unfold strlen. revert b. induction l as [|w l IH]; intros b; [done|]. cbn [slug_loop List.length].
  pose proof (IH true). pose proof (IH false).
  destruct w as [|a [|a' w]]; [|destruct (alnum a)|]; destruct b; cbn [String.length]; lia.
Qed.

Lemma singles_length s : Z.of_nat (List.length (singles s)) = strlen s.
Proof. unfold strlen. f_equal. induction s as [|a s IH]; [done|]. cbn. by rewrite IH. Qed.

(** Where the flag is up, a dash has been written or was there before. *)
Lemma slug_state_dash l b : slug_state l b = true ->
  (b = true /\ slug_loop l b = EmptyString) \/ exists p, slug_loop l b = String.append p "-".
Proof.
  revert b. induction l as [|w l IH]; intros b; cbn [slug_state slug_loop]; [by left|].
  destruct w as [|a [|a' w]]; [|destruct (alnum a) eqn:E; cbn [negb]|]; intros H;
    destruct (IH _ H) as [[Hb Hl]|[p Hp]]; try done;
    destruct b; try rewrite Hl; try rewrite Hp; try (by left);
    right; first [by exists EmptyString | by exists p | eexists (String _ p); rewrite app_cons; reflexivity].
Qed.

Lemma slug_loop_alnum s b : all_bytes alnum s = true -> slug_loop (singles s) b = s.
Proof.
  revert b. induction s as [|a s IH]; intros b; [done|]. cbn. rewrite andb_true_iff. intros [-> H].
  by rewrite IH.
Qed.

Lemma slug_state_alnum s : all_bytes alnum s = true -> slug_state (singles s) false = false.
Proof.
  induction s as [|a s IH]; [done|]. cbn. rewrite andb_true_iff. intros [-> H]. by apply IH.
Qed.

(** A separator always comes out, and the pieces beside it as they are. *)
Lemma slug_between typ mid id :
  all_bytes alnum typ = true -> all_bytes alnum id = true ->
  exists p, slug_loop (singles (String.append typ (String.append (String.append mid "-") id))) false
            = String.append typ (String.append p (String "-" id)).
Proof.
  intros Ht Hi. rewrite !singles_app, !slug_loop_app, (slug_loop_alnum typ) by done.
  rewrite (slug_loop_alnum id), slug_state_alnum by done.
  assert (exists p, String.append (slug_loop (singles mid) false)
            (slug_loop (singles "-") (slug_state (singles mid) false)) = String.append p "-") as [p Hp].
  { destruct (slug_state (singles mid) false) eqn:E; [|by eexists].
    destruct (slug_state_dash _ _ E) as [[? _]|[p ->]]; [done|]. exists p.
    change (slug_loop (singles "-") true) with ""%string. by rewrite app_nil_s. }
  exists p. rewrite Hp. f_equal. by rewrite app_assoc_s.
Qed.

Lemma TrimRightDash_id s : ends_dash s = false -> TrimRightDash s = s.
Proof.
  induction s as [|a s IH]; [done|]. intros H. rewrite TrimRightDash_cons.
  destruct s as [|b s]; [cbn in *; by rewrite H|]. by rewrite IH.
Qed.

Lemma ends_dash_app s t : t <> EmptyString -> ends_dash (String.append s t) = ends_dash t.
Proof.
  intros Ht. induction s as [|a s IH]; [done|]. rewrite app_cons. cbn [ends_dash].
  rewrite IH. destruct (String.append s t) eqn:E; [|done].
  destruct s; [by rewrite app_start in E|by rewrite app_cons in E].
Qed.

Lemma alnum_no_dash s : all_bytes alnum s = true -> starts_dash s = false /\ ends_dash s = false.
Proof.
  assert (forall a, alnum a = true -> Ascii.eqb a "-" = false) as Hd.
  { intros a H. destruct (Ascii.eqb_spec a "-") as [->|]; [vm_compute in H; done|done]. }
  induction s as [|a s IH]; [done|]. cbn. rewrite andb_true_iff. intros [Ha H].
  destruct (IH H) as [_ He]. split; [by apply Hd|]. destruct s; [by apply Hd|done].
Qed.

Lemma TrimDash_id s : starts_dash s = false -> ends_dash s = false -> TrimDash s = s.
Proof.
  intros Hs He. unfold TrimDash. destruct s as [|a s]; [done|]. cbn in Hs. cbn [TrimLeftDash].
  rewrite Hs. by apply TrimRightDash_id.
Qed.

Lemma strlen_nonneg s : 0 <= strlen s.
Proof. unfold strlen. lia. Qed.

Lemma TrimRightDash_within f s : all_bytes f s = true ->
  all_bytes f (TrimRightDash s) = true /\ strlen (TrimRightDash s) <= strlen s.
Proof.
  destruct (TrimRightDash_spec s) as (_ & [d H] & _). remember (TrimRightDash s) as r eqn:Hr.
  clear Hr. subst s. rewrite all_bytes_app, andb_true_iff, strlen_app. pose proof (strlen_nonneg d).
  intros [-> _]. lia.
Qed.

Lemma trimTo_within s n : isASCII s = true ->
  isASCII (trimTo s n) = true /\ strlen (trimTo s n) <= Z.max 0 n.
Proof.
  rewrite !isASCII_all. intros H. unfold trimTo. destruct (Z.leb_spec n 0) as [Hn|Hn].
  { split; [done|]. change (strlen "") with 0. lia. }
  destruct (Z.leb_spec (strlen s) n) as [Hl|Hl]; [split; [done|lia]|].
  destruct (TrimRightDash_within (within 0 127) (first_bytes s n)) as [H1 H2]; [by apply all_bytes_take|].
  split; [done|]. etransitivity; [exact H2|]. unfold strlen, first_bytes in *.
  rewrite take_bytes_length by lia. lia.
Qed.

Lemma splitTrimBudget_within project repo b project' repo' :
  isASCII project = true -> isASCII repo = true -> 0 <= b ->
  splitTrimBudget project repo b = (project', repo') ->
  isASCII project' = true /\ isASCII repo' = true /\ strlen project' + strlen repo' <= b
  /\ (repo = EmptyString -> repo' = EmptyString).
Proof.
  intros Hp Hr Hb. unfold splitTrimBudget. destruct (String.eqb_spec repo "") as [->|Hne].
  { intros [= <- <-]. destruct (trimTo_within project b Hp). change (strlen "") with 0.
    repeat split; [done|lia]. }
  destruct (Z.leb_spec (strlen project + strlen repo) b); [intros [= <- <-]; repeat split; [done|done|lia|done]|].
  destruct ((_ =? 0) || (b <=? 0)) eqn:E; [intros [= <- <-]; change (strlen "") with 0; repeat split; lia|].
  apply orb_false_iff in E as [_ E%Z.leb_gt].
  set (pb := Z.quot _ _). intros [= <- <-].
  assert (0 <= pb <= b) as Hpb.
  { subst pb. pose proof (strlen_nonneg project). pose proof (strlen_nonneg repo).
    split; [apply Z.quot_pos; nia|]. rewrite Z.quot_div_nonneg by nia.
    apply Z.div_le_upper_bound; nia. }
  destruct (trimTo_within project pb Hp), (trimTo_within repo (b - pb) Hr).
  repeat split; [done|done|lia|done].
Qed.

Lemma str_join_snoc sep x l y :
  str_join sep (x :: l ++ [y]) = String.append (str_join sep (x :: l)) (String.append sep y).
Proof.
  revert x. induction l as [|z l IH]; intros x; [reflexivity|].
  change (str_join sep (x :: (z :: l) ++ [y]))
    with (String.append x (String.append sep (str_join sep (z :: l ++ [y])))).
  change (str_join sep (x :: z :: l))
    with (String.append x (String.append sep (str_join sep (z :: l)))).
  by rewrite IH, !app_assoc_s.
Qed.

(** The name before it is sanitized: its shape and its length. *)
Lemma pod_name_raw typ id project repo project' repo' :
  isASCII project = true -> isASCII repo = true -> id <> EmptyString ->
  strlen typ + strlen id <= 59 ->
  splitTrimBudget project repo (name_budget typ id repo) = (project', repo') ->
  let raw := str_join "-" (name_parts typ project' repo' id) in
  exists mid, isASCII mid = true /\ strlen raw <= 63
    /\ raw = String.append typ (String.append (String.append mid "-") id).
Proof.
  intros Hp Hr Hid Hl Hs. unfold name_budget in Hs. apply str_neq_eqb in Hid.
  unfold name_parts. rewrite Hid in *. cbn [negb] in *.
  set (b := 63 - _) in Hs. assert (0 <= (if b <? 0 then 0 else b)) as Hb by (destruct (Z.ltb_spec b 0); lia).
  destruct (splitTrimBudget_within _ _ _ _ _ Hp Hr Hb Hs) as (Hp' & Hr' & Hlen & Hnil).
  assert (strlen typ + strlen id + strlen project' + strlen repo'
          <= if repo == "" then 60 else 59) as Htot.
  { destruct (String.eqb_spec repo "") as [->|Hne]; cbn [negb] in *;
      destruct (Z.ltb_spec b 0); subst b; lia. }
  destruct (String.eqb_spec repo' "") as [->|Hne]; cbn [negb].
  - exists (String "-" project'). split; [done|].
    change ([typ; project'] ++ [id])%list with (typ :: [project'] ++ [id])%list.
    rewrite str_join_snoc. cbn [str_join].
    split.
    + rewrite !strlen_app. change (strlen "-") with 1. change (strlen "") with 0 in Htot.
      destruct (repo == ""); lia.
    + by rewrite !app_assoc_s.
  - exists (String "-" (String.append project' (String "-" repo'))).
    split.
    { cbn. rewrite isASCII_all, all_bytes_app. cbn. by rewrite <- !isASCII_all, Hp', Hr'. }
    change ([typ; project'] ++ [repo'] ++ [id])%list with (typ :: [project'; repo'] ++ [id])%list.
    change (([typ; project'] ++ [repo']) ++ [id])%list with (typ :: [project'; repo'] ++ [id])%list.
    rewrite str_join_snoc. cbn [str_join].
    split.
    + rewrite !strlen_app. change (strlen "-") with 1.
      destruct (String.eqb_spec repo "") as [->|]; [by rewrite Hnil in Hne|lia].
    + repeat first [rewrite app_assoc_s | rewrite app_cons | rewrite app_start]. reflexivity.
Qed.

Lemma typeAbbrev_alnum u kind typ : tbl typeAbbrevs kind = Some typ ->
  typeAbbrev u kind = typ /\ all_bytes alnum typ = true /\ strlen typ = 3.
Proof.
  intros H. unfold typeAbbrev. rewrite H. split; [done|]. apply tbl_In in H.
  cbn [typeAbbrevs In] in H. in_cases H; split; reflexivity.
Qed.

(** the last segment of a pod name, which tells two pods of one project apart, and
    the type token in front survive every trimming: the project and the repository are
    cut instead, and the name is a label of at most 63 bytes. *)
Theorem BuildPodName_keeps_the_id (unicodeLower : string -> string) (project repo typ : string)
    (task : Task) :
  isASCII project = true -> isASCII repo = true ->
  tbl typeAbbrevs (AgentKindOf task) = Some typ ->
  let id := podNameIDSegment task in
  id <> EmptyString -> all_bytes alnum id = true -> strlen id <= 56 ->
  label_upto 63 (BuildPodName unicodeLower project repo task)
  /\ exists p, BuildPodName unicodeLower project repo task
               = String.append typ (String.append p (String "-" id)).
Proof.
  intros Hp Hr Ht id Hid Hal Hlen. unfold BuildPodName. fold id.
  destruct (typeAbbrev_alnum unicodeLower _ _ Ht) as (-> & Hta & Htl).
  destruct (splitTrimBudget project repo _) as [project' repo'] eqn:Es.
  assert (strlen typ + strlen id <= 59) as H59 by lia.
  destruct (pod_name_raw _ _ _ _ _ _ Hp Hr Hid H59 Es) as (mid & Hm & H63 & Hraw).
  split; [by apply SanitizeDNS1123_label|]. unfold sanitizeDNS1123, SanitizeDNS1123.
  set (raw := str_join _ _) in *.
  assert (forall s, all_bytes alnum s = true -> isASCII s = true) as Hasc.
  { intros s. rewrite isASCII_all. apply all_bytes_imp, alnum_ascii. }
  assert (isASCII raw = true) as Ha.
  { rewrite Hraw, isASCII_all, !all_bytes_app, <- !isASCII_all, Hm, (Hasc typ), (Hasc id) by done.
    reflexivity. }
  unfold ToLower. rewrite Ha.
  assert (isASCII (map_bytes lower_byte raw) = true) as Hal' by by apply lower_ascii.
  rewrite runes_ascii by done.
  assert (strlen (slug_loop (singles (map_bytes lower_byte raw)) false) <= 63) as Hs.
  { etransitivity; [apply slug_loop_length|]. by rewrite singles_length, strlen_map. }
  revert Hs. rewrite Hraw, !map_bytes_app, (lower_alnum typ), (lower_alnum id) by done.
  destruct (slug_between typ (map_bytes lower_byte mid) id Hta Hal) as [p Hout].
  change (map_bytes lower_byte "-") with "-"%string. rewrite Hout. intros Hs.
  set (out := String.append typ (String.append p (String "-" id))) in *.
  assert (TrimDash out = out) as ->.
  { apply TrimDash_id.
    - destruct (alnum_no_dash typ Hta) as [Hd _]. subst out. destruct typ; [done|exact Hd].
    - subst out. rewrite !ends_dash_app; [|done|by destruct p].
      change (String "-" id) with (String.append "-" id). rewrite ends_dash_app by done.
      by destruct (alnum_no_dash id Hal). }
  destruct (Z.ltb_spec 63 (strlen out)); [lia|]. by exists p.
Qed.

Lemma BuildPodName_keeps_the_id_witness :
  podNameIDSegment an_upgrade = "d82411b3"%string
  /\ exists p, BuildPodName id "a-project-with-a-very-long-name-indeed" "a-repository-with-a-long-name"
                 an_upgrade = String.append "upg" (String.append p (String "-" (podNameIDSegment an_upgrade))).
Proof.
  assert (podNameIDSegment an_upgrade = "d82411b3"%string) as E by (vm_compute; reflexivity).
  split; [exact E|].
  refine (proj2 (BuildPodName_keeps_the_id id "a-project-with-a-very-long-name-indeed"
    "a-repository-with-a-long-name" "upg" an_upgrade _ _ _ _ _ _)); rewrite ?E;
    first [reflexivity | discriminate | vm_compute; reflexivity].
Defined.

(** Two project names that are distinct DNS-1123 names share one counter and one deploy
    ledger. *)
Theorem per_project_names_collide :
  seqConfigMapName id "team--a" = seqConfigMapName id "team-a"
  /\ deployLedgerName id "team.a" = deployLedgerName id "team-a".
Proof. split; vm_compute; reflexivity. Qed.

(** ** The hex digest *)

Lemma compress_length h block : List.length h = 8%nat -> List.length (compress h block) = 8%nat.
Proof.
  intros H. unfold compress. rewrite length_map, length_combine, H.
  set (kw := combine _ _). clearbody kw.
  assert (forall l, List.length l = 8%nat -> List.length (fold_left round kw l) = 8%nat) as Hf.
  { induction kw as [|k kw IH]; intros l Hl; [done|]. cbn [fold_left]. apply IH.
    destruct l as [|a [|b [|c [|d [|e [|f [|g [|i [|]]]]]]]]]; try discriminate Hl. reflexivity. }
  by rewrite Hf.
Qed.

Lemma blocks_length fuel ws h : List.length h = 8%nat -> List.length (blocks fuel ws h) = 8%nat.
Proof.
  revert ws h. induction fuel as [|fuel IH]; intros ws h H; [done|].
  destruct ws; [done|]. apply IH. by apply compress_length.
Qed.

Lemma be_bytes_length n z : List.length (be_bytes n z) = n.
Proof. revert z. induction n as [|n IH]; intros z; [done|]. cbn. rewrite length_app, IH. cbn. lia. Qed.

Lemma hex_digit_alnum z : alnum (hex_digit z) = true.
Proof.
  unfold hex_digit. generalize (Z.to_nat z) as n. intros n.
  do 16 (destruct n as [|n]; [vm_compute; reflexivity|]). cbn. destruct n; vm_compute; reflexivity.
Qed.

Lemma hex_shape l : strlen (hex l) = 2 * Z.of_nat (List.length l) /\ all_bytes alnum (hex l) = true.
Proof.
  induction l as [|z l [IH1 IH2]]; [done|]. cbn [hex fold_right]. fold (hex l).
  rewrite strlen_app, all_bytes_app, IH1, IH2. cbn [List.length]. split; [|cbn; by rewrite !hex_digit_alnum].
  change (strlen (hex_byte z)) with 2. lia.
Qed.

Lemma sha256_hex_shape s : strlen (sha256_hex s) = 64 /\ all_bytes alnum (sha256_hex s) = true.
Proof.
  unfold sha256_hex. set (bs := blocks _ _ _).
  assert (List.length bs = 8%nat) as Hb by by apply blocks_length.
  destruct (hex_shape (flat_map (be_bytes 4) bs)) as [H1 H2]. split; [|done].
  rewrite H1. clear H1 H2. clearbody bs.
  assert (List.length (flat_map (be_bytes 4) bs) = 4 * List.length bs)%nat as ->; [|by rewrite Hb].
  clear Hb. induction bs as [|w bs IH]; [done|]. cbn [flat_map]. rewrite length_app, IH, be_bytes_length.
  cbn [List.length]. lia.
Qed.

(** A prefix of the digest. *)
Lemma digest_prefix s n : 0 <= n <= 64 ->
  strlen (first_bytes (sha256_hex s) n) = n /\ all_bytes alnum (first_bytes (sha256_hex s) n) = true.
Proof.
  intros Hn. destruct (sha256_hex_shape s) as [H1 H2]. split; [|by apply all_bytes_take].
  unfold strlen, first_bytes in *. rewrite take_bytes_length by lia. lia.
Qed.

Lemma TruncateUTF8_length s n : 0 <= n -> strlen (TruncateUTF8 s n) <= n.
Proof.
  intros Hn. unfold TruncateUTF8, strlen. destruct (Z.leb_spec (Z.of_nat (String.length s)) n); [done|].
  destruct (cut_back_spec (Z.to_nat n) s) as (k & Hk & -> & _). rewrite take_bytes_length; lia.
Qed.
