(* ===== verification/TtlStop.v ===== *)
(** * How an agent pod is stopped (internal/agent/ttlstop.go): the pod's deadline, the
    handoff turn, the operator's synthetic note, and the order in which the note and
    the teardown happen. *)

From Stdlib Require Import String Ascii.
From S2P Require Import Prelude GoTime Text Limits Api Vocabulary ObjBudget Transition Settings Seq Names.

Open Scope Z_scope.
Open Scope go_scope.

(** ** Constants *)

Definition TTLOutcomeGraceful : string := "graceful".
Definition TTLOutcomeForceDeleted : string := "force_deleted".
Definition TTLHandoffAgent : string := "agent".
Definition TTLHandoffSynthetic : string := "synthetic".
Definition TTLHandoffNone : string := "none".
Definition TTLCauseTTL : string := "ttl".
Definition TTLCauseStall : string := "stall".
Definition TTLCauseEviction : string := "eviction".
Definition TTLCauseIdle : string := "idle".
Definition EnvAgentPodTTLSeconds : string := "AGENT_POD_TTL_SECONDS".
Definition EnvTurnTimeoutSeconds : string := "TURN_TIMEOUT_SECONDS".
Definition SyntheticNoteLostMarker : string := "NO CONTINUATION STATE WAS CAPTURED".
Definition NoteKindHandoff : string := "handoff".
Definition NoteAgentOperator : string := "operator".
Definition TTLGrace : Duration := 60 * Second.
Definition TTLPollInterval : Duration := 5 * Second.
Definition OOMKilledNoteMarker : string := "PREVIOUS POD WAS OOMKILLED".
Definition SessionStateBusy : string := "busy".
Definition SessionStateDead : string := "dead".
Definition maxNoteBody : Z := NoteBodyMaxBytes.

(** ** The pod's deadline *)

Definition PodTTLSeconds (project : Project) (task : option Task) : Z :=
  let ttl := proj_AgentPodTTLSeconds project in
  match task with
  | Some t =>
      if Live (State (Status t)) then
        let idle := Z.quot (ConversationIdle (Some project)) Second in
        if ttl <? idle then idle else ttl
      else ttl
  | None => ttl
  end.

Definition ttlAnchor (task : Task) : option Time :=
  match PodStartedAt (Status task) with
  | None => None
  | Some anchor =>
      Some (if Live (State (Status task)) then
              match ConversationLastEventAt (Status task) with
              | Some e => if After e anchor then e else anchor
              | None => anchor
              end
            else anchor)
  end.

Definition TTLDeadline (project : Project) (task : Task) : option Time :=
  let ttl := PodTTLSeconds project (Some task) in
  match ttlAnchor task with
  | None => None
  | Some anchor => if ttl <=? 0 then None else Some (Add anchor (i64 (ttl * Second)))
  end.

Definition TTLExpired (project : Project) (task : Task) (now : Time) : bool :=
  match TTLDeadline project task with None => false | Some t0 => After now t0 end.

(** A pod, reduced to the environment of its containers. *)
Definition Pod : Type := list (list (string * string)).

(** The first variable of that name, in any container; a value that does not parse
    ends the search. *)
Definition podEnvSeconds (pod : Pod) (name : string) : option Duration :=
  match List.find (fun e : string * string => fst e == name) (List.concat pod) with
  | None => None
  | Some (_, v) => match ParseInt v with Some n => Some (i64 (n * Second)) | None => None end
  end.

Definition PodTTLDeadlineFromSpec (pod : Pod) (task : Task) : option Time :=
  match ttlAnchor task with
  | None => None
  | Some anchor =>
      match podEnvSeconds pod EnvAgentPodTTLSeconds with
      | Some ttl => if ttl <=? 0 then None else Some (Add anchor ttl)
      | None => None
      end
  end.

Definition PodTTLStopWindowFromSpec (pod : Pod) (task : Task) : option (Time * Time) :=
  match PodTTLDeadlineFromSpec pod task with
  | None => None
  | Some t0 =>
      let turnTimeout := default 0 (podEnvSeconds pod EnvTurnTimeoutSeconds) in
      let turnTimeout := if turnTimeout <? 0 then 0 else turnTimeout in
      Some (t0, Add t0 (i64 (i64 (2 * turnTimeout) + TTLGrace)))
  end.

(** ** The stop's input and result *)

Record TTLStopInput := mkTTLStopInput {
  st_AgentKind : string;
  st_Deadline : Time;
  st_TurnTimeout : Duration;
  st_MaxWait : Duration;
  st_LastFinalText : string;
  st_PushedRepos : list string;
  st_FailedRepos : list string;
  st_ReposTurnID : string;
  st_Cause : string
}.

Record TTLStopResult := mkTTLStopResult { r_Outcome : string; r_Handoff : string }.

Definition cause (inp : TTLStopInput) : string :=
  if st_Cause inp == "" then TTLCauseTTL else st_Cause inp.

Definition waitBound (inp : TTLStopInput) : Duration :=
  if 0 <? st_MaxWait inp then st_MaxWait inp else st_TurnTimeout inp.

Definition hardCap (inp : TTLStopInput) : Time :=
  if 0 <? st_MaxWait inp then Add (st_Deadline inp) (st_MaxWait inp)
  else Add (st_Deadline inp) (i64 (i64 (2 * st_TurnTimeout inp) + TTLGrace)).

Definition earliest (a b : Time) : Time := if Before a b then a else b.

(** ** Notes *)

Definition isAgentHandoffNote (n : Note) : bool :=
  (n_Kind n == NoteKindHandoff) && (n_Agent n != NoteAgentOperator).

Definition HasAgentHandoffNoteSince (t : Task) (since : Time) : bool :=
  existsb (fun n => isAgentHandoffNote n && negb (Before (n_At n) since)) (Notes (Status t)).

Definition HasAgentHandoffNote (t : Task) : bool := HasAgentHandoffNoteSince t 0.

Definition handoffNoteCount (fresh : Task) : Z :=
  Z.of_nat (List.length (List.filter isAgentHandoffNote (Notes (Status fresh)))).

(** The closure of [FitNoteAppender.append]. *)
Definition append_note (n : Note) (once : bool) (t : Task) : Task :=
  if once && existsb (fun have => (n_Agent have == n_Agent n) && (n_Body have == n_Body n))
               (Notes (Status t)) then t
  else on_status t (fun s => s <| Notes ::= fun l => (l ++ [n])%list |>).

(** [WithNoteCap]: a note appender evicts on count as well as on bytes. *)
Definition FitNoteAppender_append (sizeOf : Task -> option Z) (sp : option (Spiller Note))
    (n : Note) (once : bool) (reads : list (GetAnswer Task)) (attempts : list (Attempt Task))
  : result FitError Task * list (FitEffect Task Note) :=
  FitTask sizeOf sp true reads (append_note n once) attempts.

Definition AppendNote (sizeOf : Task -> option Z) (sp : option (Spiller Note)) (n : Note) :=
  FitNoteAppender_append sizeOf sp n false.

Definition AppendNoteOnce (sizeOf : Task -> option Z) (sp : option (Spiller Note)) (n : Note) :=
  FitNoteAppender_append sizeOf sp n true.

(** ** The texts of the operator's notes *)

Definition elided (n from : Z) : string :=
  join [if (from =? 0)%Z then "" else " "; "(+"; FormatInt (n - from)%Z; " more)"]%string.

(** The loop over the names: [i] of [total] are in the builder [b]. *)
Fixpoint join_within (names : list string) (i total : Z) (b : string) (budget : Z) : string :=
  match names with
  | [] => b
  | n :: names' =>
      let sep := if 0 <? i then ", "%string else ""%string in
      let need := strlen b + strlen sep + strlen n in
      let reserve := strlen (join [" (+"; FormatInt total; " more)"])%string in
      let need := if i <? total - 1 then need + reserve else need in
      if budget <? need then String.append b (elided total i)
      else join_within names' (i + 1) total (String.append b (String.append sep n)) budget
  end.

Definition joinWithinBudget (names : list string) (budget : Z) : string :=
  join_within names 0 (Z.of_nat (List.length names)) "" budget.

Definition failed_format (n : Z) (names : string) : string :=
  join [" WARNING: the last turn's commit/push FAILED for "; FormatInt n;
        " repo(s). Those commits were only ever on the previous pod's workspace, which is gone - unless the mid-turn safety pusher landed them after the turn-end failure. CHECK origin for the task branch in each, and redo only what is missing. Repos: ";
        names; "."]%string.

Definition failedReposSentence (failed : list string) (budget : Z) : string :=
  match failed with
  | [] => ""%string
  | _ =>
      let n := Z.of_nat (List.length failed) in
      let room := budget - strlen (failed_format n "") in
      failed_format n (joinWithinBudget failed room)
  end.

Definition failedReposTurnSuffix (turnID : string) : string :=
  if turnID == "" then ""%string else join [" This describes turn "; turnID; "."]%string.

Definition syntheticNoteLostBody : string :=
  join ["TTL stop. "; SyntheticNoteLostMarker;
        ": the agent did not answer the handoff turn and the operator holds no final text and no pushed repos for the last turn. This note is a PLACEHOLDER, not a handoff - the work done on the previous pod is not recorded anywhere. Re-derive the state from the issue thread and the repos; do not read this note as continuity."]%string.

Definition OOMKilledNoteBody (at_ : Time) : string :=
  join [OOMKilledNoteMarker; ": the previous pod was killed at "; FormatRFC3339 at_;
        " for exceeding its memory limit, so no agent handoff could be written. Its workspace was ephemeral and died with it: any branch or commit named in an earlier note may never have reached the remote. Verify every branch and commit against the remote before assuming the prior work exists, and do not attempt to recover local state from the dead pod."]%string.

Definition ellipsis : string := "...(truncated)".

Definition truncateNoteBodyTo (s : string) (budget : Z) : string :=
  if strlen s <=? budget then s
  else if budget <=? strlen ellipsis then TruncateUTF8 s (Z.max budget 0)
  else String.append (TruncateUTF8 s (budget - strlen ellipsis)) ellipsis.

Definition contentFree (inp : TTLStopInput) : bool :=
  (TrimSpace (st_LastFinalText inp) == "") && Nat.eqb (List.length (st_PushedRepos inp)) 0
  && Nat.eqb (List.length (st_FailedRepos inp)) 0.

(** The synthetic note, [oom] being when the pod was OOM-killed. *)
Definition synthetic_note (inp : TTLStopInput) (oom : option Time) (now : Time) : Note :=
  let pushed := match st_PushedRepos inp with [] => "none"%string | l => str_join ", " l end in
  let final := TrimSpace (st_LastFinalText inp) in
  let final := if final == "" then "(none)"%string else final in
  let body := join ["TTL stop. Last turn's final text: "; final; ". Repos pushed: "; pushed;
                    ". No agent handoff was captured."]%string in
  let body := if contentFree inp then syntheticNoteLostBody else body in
  let body := match oom with
              | Some at_ => String.append (OOMKilledNoteBody at_)
                              (join [" Last turn's final text: "; final; ". Repos pushed: "; pushed; "."])%string
              | None => body
              end in
  let warning := failedReposSentence (st_FailedRepos inp) (Z.quot maxNoteBody 4) in
  mkNote "" now NoteAgentOperator NoteKindHandoff
    (String.append (truncateNoteBodyTo body (maxNoteBody - strlen warning)) warning).

(** The note about the failed repositories; [None] when there is nothing to say. *)
Definition failed_repos_note (failed : list string) (turnID : string) (at_ : Time) : option Note :=
  let suffix := failedReposTurnSuffix turnID in
  let body := TrimSpace (failedReposSentence failed (maxNoteBody - strlen suffix)) in
  if body == "" then None
  else Some (mkNote "" at_ NoteAgentOperator NoteKindHandoff (String.append body suffix)).

(** ** Waiting *)

(** A polling loop as the outside shows it: what each round looks at decides it or not,
    what [now] answers at the end of a round, and whether the sleep after it came to
    its end. *)
Record Waiting (A : Type) := mkWaiting {
  wt_seen : nat -> A;
  wt_now : nat -> Time;
  wt_slept : nat -> bool
}.
Arguments mkWaiting {A}.
Arguments wt_seen {A}.
Arguments wt_now {A}.
Arguments wt_slept {A}.

(** The loop from round [k]; [None] when the fuel is used up. *)
Fixpoint wait_loop {A} (decides : A -> option bool) (fuel k : nat) (w : Waiting A)
    (poll : Duration) (deadline : Time) : option bool :=
  match fuel with
  | O => None
  | S fuel' =>
      match decides (wt_seen w k) with
      | Some b => Some b
      | None =>
          if negb (Before (Add (wt_now w k) poll) deadline) then Some false
          else if negb (wt_slept w k) then Some false
          else wait_loop decides fuel' (S k) w poll deadline
      end
  end.

(** One round more than there are polls before the deadline ([wait_returns]). *)
Definition wait_fuel (poll : Duration) (deadline start : Time) : nat :=
  S (Z.to_nat ((deadline - start) / poll)).

Definition wait {A} (decides : A -> option bool) (w : Waiting A) (poll : Duration) (deadline : Time)
  : bool :=
  default false (wait_loop decides (wait_fuel poll deadline (wt_now w 0)) 0 w poll deadline).

(** [waitIdle] looks at the session: its state, [None] when the call failed. *)
Definition idle_decides (state : option string) : option bool :=
  match state with
  | None => Some false
  | Some s => if s == SessionStateDead then Some false
              else if s != SessionStateBusy then Some true else None
  end.

Definition waitIdle (w : Waiting (option string)) (poll : Duration) (deadline : Time) : bool :=
  wait idle_decides w poll deadline.

(** [waitHandoffNote] counts the agent's handoff notes. *)
Definition note_decides (before : Z) (count : option Z) : option bool :=
  match count with Some n => if before <? n then Some true else None | None => None end.

Definition waitHandoffNote (before : Z) (w : Waiting (option Z)) (poll : Duration) (deadline : Time)
  : bool := wait (note_decides before) w poll deadline.

(** ** The stop *)

Inductive StopEffect :=
  | OfferedTurn
  | WroteSynthetic (n : Note)
  | CountedEmpty
  | WroteFailedRepos (n : Note)
  | DeletedSession
  | Tore (e : Effect)
  | ForcedPod
  | ForcedService
  | RecordedStop (r : TTLStopResult) (cause : string).

Inductive StopError := CountFailed | NoteFailed | ForceFailed.

(** What the outside answers to one stop. *)
Record StopWorld := mkStopWorld {
  sw_gone : bool;
  sw_count : option Z;
  sw_now_wait : Time;
  sw_idle : Waiting (option string);
  sw_now_turn : Time;
  sw_submit : bool;
  sw_now_note : Time;
  sw_note : Waiting (option Z);
  sw_oom : option Time;
  sw_now_write : Time;
  sw_append : bool;
  sw_append_once : bool;
  sw_session : bool;
  sw_pod : DeleteAnswer;
  sw_service : DeleteAnswer;
  sw_gone_late : bool;
  sw_force_pod : DeleteAnswer;
  sw_force_service : DeleteAnswer
}.

(** [agent.DeleteWrapper], inside the stop. *)
Definition stop_wrapper (w : StopWorld) : bool * list StopEffect :=
  if delete_failed (sw_pod w) then (false, [Tore DeletePod])
  else (negb (delete_failed (sw_service w)), [Tore DeletePod; Tore DeleteService]).

Definition forceDeletePod (w : StopWorld) : bool * list StopEffect :=
  if delete_failed (sw_force_pod w) then (false, [ForcedPod])
  else (negb (delete_failed (sw_force_service w)), [ForcedPod; ForcedService]).

Definition record (inp : TTLStopInput) (outcome handoff : string) : TTLStopResult * list StopEffect :=
  let r := mkTTLStopResult outcome handoff in (r, [RecordedStop r (cause inp)]).

Definition before_stop (l : list StopEffect) (o : result StopError TTLStopResult * list StopEffect)
  : result StopError TTLStopResult * list StopEffect := (fst o, (l ++ snd o)%list).

Definition recorded (inp : TTLStopInput) (outcome handoff : string)
  : result StopError TTLStopResult * list StopEffect :=
  let '(r, es) := record inp outcome handoff in (Ok r, es).

Definition finish (w : StopWorld) (inp : TTLStopInput) (handoff : string)
  : result StopError TTLStopResult * list StopEffect :=
  let '(stopped, e1) :=
    if negb (sw_session w) then (false, [DeletedSession])
    else let '(ok, es) := stop_wrapper w in (ok, DeletedSession :: es) in
  before_stop e1
    (if stopped then recorded inp TTLOutcomeGraceful handoff
     else
       let '(forced, e2) := forceDeletePod w in
       before_stop e2
         (if negb forced then (Err ForceFailed, [])
          else if sw_gone_late w then recorded inp TTLOutcomeGraceful handoff
          else recorded inp TTLOutcomeForceDeleted handoff)).

Definition writeSyntheticNote (w : StopWorld) (inp : TTLStopInput)
  : result StopError string * list StopEffect :=
  let handoff := if contentFree inp then TTLHandoffNone else TTLHandoffSynthetic in
  let counted := if contentFree inp then [CountedEmpty] else [] in
  if negb (sw_append w) then (Err NoteFailed, counted)
  else (Ok handoff, (counted ++ [WroteSynthetic (synthetic_note inp (sw_oom w) (sw_now_write w))])%list).

(** The appender's error is logged and dropped. *)
Definition AppendFailedReposNote (w : StopWorld) (inp : TTLStopInput) : list StopEffect :=
  match failed_repos_note (st_FailedRepos inp) (st_ReposTurnID inp) (sw_now_write w) with
  | Some n => if sw_append_once w then [WroteFailedRepos n] else []
  | None => []
  end.

(** Goes on with the handoff a synthetic note stands for. *)
Definition synthetic_then (w : StopWorld) (inp : TTLStopInput)
    (k : string -> result StopError TTLStopResult * list StopEffect)
  : result StopError TTLStopResult * list StopEffect :=
  let '(r, es) := writeSyntheticNote w inp in
  before_stop es (match r with Err e => (Err e, []) | Ok handoff => k handoff end).

Definition StopWithHandoff (w : StopWorld) (poll : Duration) (inp : TTLStopInput)
  : result StopError TTLStopResult * list StopEffect :=
  if sw_gone w then synthetic_then w inp (recorded inp TTLOutcomeGraceful)
  else
    match sw_count w with
    | None => (Err CountFailed, [])
    | Some before =>
        let waitUntil := earliest (Add (sw_now_wait w) (waitBound inp)) (hardCap inp) in
        let turnCleared := waitIdle (sw_idle w) poll waitUntil in
        if turnCleared && Before (sw_now_turn w) (hardCap inp) then
          before_stop [OfferedTurn]
            (if sw_submit w
                && waitHandoffNote before (sw_note w) poll
                     (earliest (Add (sw_now_note w) (waitBound inp)) (hardCap inp))
             then before_stop (AppendFailedReposNote w inp) (finish w inp TTLHandoffAgent)
             else synthetic_then w inp (finish w inp))
        else synthetic_then w inp (finish w inp)
    end.

(** ** Vocabulary of the lemmas and the witnesses *)

(** What ends the pod. *)
Definition stops (e : StopEffect) : bool :=
  match e with DeletedSession | Tore _ | ForcedPod | ForcedService => true | _ => false end.

(** A round of the wait saw more of the agent's handoff notes than there were before
    the turn was offered. *)
Definition agent_handed_off (w : StopWorld) : Prop :=
  exists before n k, sw_count w = Some before /\ wt_seen (sw_note w) k = Some n /\ before < n.

(** The clock of a wait: a sleep lasts at least what was asked. *)
Definition clock_advances {A} (w : Waiting A) (poll : Duration) : Prop :=
  forall k, wt_now w k + poll <= wt_now w (S k).

(** The effects keep a note in front of everything that stops the pod. *)
Definition captured_first (seen : Prop) (es : list StopEffect) : Prop :=
  forall l e r, es = (l ++ e :: r)%list -> stops e = true ->
  seen \/ exists n, In (WroteSynthetic n) l.

Definition handoff_note (agent : string) : Note := mkNote "" 1 agent NoteKindHandoff "done so far".

(** A journal at the cap whose oldest entry is a handoff. *)
Definition full_journal : Task :=
  on_status zero_Task (fun s =>
    s <| Notes := handoff_note "implement" :: repeat (mkNote "" 2 "implement" "progress" "step") 49 |>).

(** The room the elision marker needs. *)
Definition reserve_of (total : Z) : Z := 9 + strlen (FormatInt total).

Definition ticking (state : option string) : Waiting (option string) :=
  mkWaiting (fun _ => state) (fun k => Z.of_nat k * TTLPollInterval) (fun _ => true).

(** A running pod whose session refuses the handoff turn; everything else goes through. *)
Definition refusing : StopWorld :=
  mkStopWorld false (Some 0) 0 (ticking (Some "idle"%string)) 0 false 0
    (mkWaiting (fun _ => None) (fun k => Z.of_nat k * TTLPollInterval) (fun _ => true)) None 0
    true true true Deleted Deleted false Deleted Deleted.

Definition stopping : TTLStopInput :=
  mkTTLStopInput "implement" 0 (5 * Minute) 0 "half way" ["a"]%string [] "turn-7" "".

(** ** Waits end *)

Lemma wait_loop_some {A} (decides : A -> option bool) (w : Waiting A) poll deadline fuel k :
  0 < poll -> clock_advances w poll ->
  (deadline - wt_now w 0) / poll < Z.of_nat k + Z.of_nat fuel -> (0 < fuel)%nat ->
  is_Some (wait_loop decides fuel k w poll deadline).
Proof.
  intros Hp Hc. assert (forall j, wt_now w 0 + Z.of_nat j * poll <= wt_now w j) as Hj.
  { induction j as [|j IH]; [lia|]. specialize (Hc j). lia. }
  revert k. induction fuel as [|fuel IH]; intros k Hf Hpos; [lia|]. cbn [wait_loop].
  destruct (decides _); [by eexists|]. unfold Before, Add.
  destruct (Z.ltb_spec (wt_now w k + poll) deadline) as [Hlt|Hge]; cbn [negb]; [|by eexists].
  destruct (wt_slept w k); cbn [negb]; [|by eexists]. apply IH; [lia|].
  destruct fuel as [|fuel]; [|lia]. exfalso. specialize (Hj k).
  assert (Z.of_nat (S k) <= (deadline - wt_now w 0) / poll) by (apply Z.div_le_lower_bound; lia). lia.
Qed.

(** a wait for the wrapper or for the note ends, after at most one poll more than fit
    before its deadline, whatever the session and the journal answer. *)
Theorem wait_returns {A} (decides : A -> option bool) (w : Waiting A) (poll : Duration) (deadline : Time) :
  0 < poll -> clock_advances w poll ->
  exists b, wait_loop decides (wait_fuel poll deadline (wt_now w 0)) 0 w poll deadline = Some b
            /\ wait decides w poll deadline = b.
Proof.
  intros Hp Hc.
  destruct (wait_loop_some decides w poll deadline (wait_fuel poll deadline (wt_now w 0)) 0 Hp Hc)
    as [b Hb]; [unfold wait_fuel; lia|unfold wait_fuel; lia|].
  exists b. split; [done|]. unfold wait. by rewrite Hb.
Qed.

Lemma wait_returns_witness :
  exists b, wait_loop idle_decides (wait_fuel TTLPollInterval (12 * Second) 0) 0
              (ticking (Some "busy"%string)) TTLPollInterval (12 * Second) = Some b
            /\ wait idle_decides (ticking (Some "busy"%string)) TTLPollInterval (12 * Second) = b.
Proof.
  refine (wait_returns idle_decides (ticking (Some "busy"%string)) TTLPollInterval (12 * Second) _ _).
  - reflexivity.
  - intros k. unfold ticking. cbn [wt_now]. rewrite Nat2Z.inj_succ. lia.
Defined.

(** ** The note comes first *)

Lemma captured_nostop seen es : existsb stops es = false -> captured_first seen es.
Proof.
  intros H l e r -> He. rewrite existsb_app in H. cbn in H. rewrite He in H.
  by rewrite orb_true_r in H.
Qed.

Lemma captured_app seen es es' : existsb stops es = false ->
  captured_first (seen \/ exists n, In (WroteSynthetic n) es) es' -> captured_first seen (es ++ es').
Proof.
  intros Hn H l e r Heq He.
  destruct (app_eq_app _ _ _ _ Heq) as (k & [[Hl Hr]|[Hl Hr]]).
  - subst es. destruct k as [|x k].
    + rewrite app_nil_r in *. destruct (H [] e r); [done|done|tauto|by destruct H0].
    + cbn in Hr. injection Hr as <- _. rewrite existsb_app in Hn. cbn in Hn. rewrite He in Hn.
      by rewrite orb_true_r in Hn.
  - subst l es'. destruct (H k e r eq_refl He) as [[Hs|[n Hin]]|[n Hin]]; [by left|right|right];
      exists n; apply in_or_app; [by left|by right].
Qed.

Lemma captured_when seen es : seen -> captured_first seen es.
Proof. intros Hs l e r _ _. by left. Qed.

Lemma synthetic_then_captured seen w inp k :
  captured_first seen (snd (synthetic_then w inp k)).
Proof.
  unfold synthetic_then, writeSyntheticNote.
  destruct (sw_append w); cbn [negb snd before_stop fst].
  - apply captured_app; [by destruct (contentFree inp)|]. apply captured_when. right.
    eexists. apply in_or_app. right. by left.
  - rewrite app_nil_r. apply captured_nostop. by destruct (contentFree inp).
Qed.

(** A wait that says yes has seen it. *)
Lemma waitHandoffNote_seen before w poll deadline :
  waitHandoffNote before w poll deadline = true ->
  exists k n, wt_seen w k = Some n /\ before < n.
Proof.
  enough (forall f k, default false (wait_loop (note_decides before) f k w poll deadline) = true ->
    exists k n, wt_seen w k = Some n /\ before < n) as H by apply H.
  induction f as [|f IH]; intros k; [done|]. cbn [wait_loop].
  destruct (note_decides before (wt_seen w k)) as [b|] eqn:E.
  - change (default false (Some b)) with b. intros ->. unfold note_decides in E. destruct (wt_seen w k) as [n|] eqn:Es; [|done].
    destruct (Z.ltb_spec before n); [by exists k, n|done].
  - destruct (negb (Before _ _)); [done|]. destruct (negb (wt_slept w k)); [done|]. apply IH.
Qed.

(** C38: nothing that ends a pod happens before its continuation is in the journal: either
    the agent's own handoff note was seen, or the operator's synthetic note was written
    first; and where that write failed, the pod is left alone. *)
Theorem nothing_stopped_uncaptured (w : StopWorld) (poll : Duration) (inp : TTLStopInput)
    (l r : list StopEffect) (e : StopEffect) :
  snd (StopWithHandoff w poll inp) = (l ++ e :: r)%list -> stops e = true ->
  agent_handed_off w \/ exists n, In (WroteSynthetic n) l.
Proof.
  enough (captured_first (agent_handed_off w) (snd (StopWithHandoff w poll inp))) as H by by apply H.
  unfold StopWithHandoff. destruct (sw_gone w); [apply synthetic_then_captured|].
  destruct (sw_count w) as [before|] eqn:Ec; [|by apply captured_nostop].
  set (cleared := waitIdle _ _ _ && _). destruct cleared; [|apply synthetic_then_captured].
  cbn [before_stop snd fst]. apply captured_app; [done|].
  destruct (sw_submit w && _) eqn:Ew; [|apply synthetic_then_captured].
  apply captured_when. left. apply andb_true_iff in Ew as [_ Ew].
  destruct (waitHandoffNote_seen _ _ _ _ Ew) as (k & n & Hk & Hn). by exists before, n, k.
Qed.

Lemma nothing_stopped_uncaptured_witness :
  agent_handed_off refusing
  \/ exists n, In (WroteSynthetic n) (firstn 2 (snd (StopWithHandoff refusing TTLPollInterval stopping))).
Proof.
  refine (nothing_stopped_uncaptured refusing TTLPollInterval stopping _
    (skipn 3 (snd (StopWithHandoff refusing TTLPollInterval stopping))) DeletedSession _ eq_refl).
  vm_compute. reflexivity.
Defined.

(** ** Lengths *)

Lemma format_digits_length fuel n acc :
  strlen (Seq.format_digits fuel n acc) <= Z.of_nat fuel + strlen acc.
Proof.
  revert n acc. induction fuel as [|fuel IH]; intros n acc; [cbn [Seq.format_digits]; lia|].
  cbn [Seq.format_digits]. destruct (n <? 10).
  - unfold strlen. cbn [String.length]. lia.
  - etransitivity; [apply IH|]. unfold strlen. cbn [String.length]. lia.
Qed.

Lemma format_digits_mono fuel a b acc acc' : 0 <= a <= b -> strlen acc <= strlen acc' ->
  strlen (Seq.format_digits fuel a acc) <= strlen (Seq.format_digits fuel b acc').
Proof.
  revert a b acc acc'. induction fuel as [|fuel IH]; intros a b acc acc' Hab Hacc; [done|].
  assert (forall f n s, strlen s <= strlen (Seq.format_digits f n s)) as Hge.
  { intros f. induction f as [|f IHf]; intros n s; cbn [Seq.format_digits]; [lia|].
    destruct (n <? 10); [unfold strlen; cbn [String.length]; lia|].
    etransitivity; [|apply IHf]. unfold strlen. cbn [String.length]. lia. }
  cbn [Seq.format_digits]. destruct (Z.ltb_spec a 10), (Z.ltb_spec b 10); try lia.
  - unfold strlen in *. cbn [String.length]. lia.
  - etransitivity; [|apply Hge]. unfold strlen in *. cbn [String.length]. lia.
  - apply IH; [|unfold strlen in *; cbn [String.length]; lia].
    split; [apply Z.div_pos; lia|]. apply Z.div_le_mono; lia.
Qed.

Lemma FormatInt_length n : strlen (FormatInt n) <= 21.
Proof.
  unfold FormatInt. destruct (n <? 0).
  - change (String "-" (Seq.format_digits 20 (- n) ""))
      with (String.append "-" (Seq.format_digits 20 (- n) "")).
    rewrite strlen_app. pose proof (format_digits_length 20 (- n) "").
    change (strlen "-") with 1. change (strlen "") with 0 in *. lia.
  - pose proof (format_digits_length 20 n ""). change (strlen "") with 0 in *. lia.
Qed.

Lemma FormatInt_mono a b : 0 <= a <= b -> strlen (FormatInt a) <= strlen (FormatInt b).
Proof.
  intros H. unfold FormatInt. destruct (Z.ltb_spec a 0), (Z.ltb_spec b 0); try lia.
  by apply format_digits_mono.
Qed.

Lemma strlen_join l : strlen (join l) = fold_right Z.add 0 (map strlen l).
Proof. induction l as [|s l IH]; [done|]. rewrite join_cons, strlen_app. cbn. by rewrite IH. Qed.

Lemma elided_length total i : 0 <= i <= total ->
  strlen (elided total i) <= reserve_of total - (if i =? 0 then 1 else 0).
Proof.
  intros H. unfold elided, reserve_of. rewrite strlen_join. cbn [map fold_right].
  pose proof (FormatInt_mono (total - i) total ltac:(lia)).
  change (strlen "(+") with 2. change (strlen " more)") with 6.
  destruct (i =? 0); [change (strlen "") with 0|change (strlen " ") with 1]; lia.
Qed.

Lemma join_within_fits names i total b budget :
  i + Z.of_nat (List.length names) = total -> 0 <= i -> reserve_of total <= budget ->
  (i = 0 -> b = ""%string) ->
  strlen b + (match names with [] => 0 | _ => if i =? 0 then 0 else reserve_of total end) <= budget ->
  strlen (join_within names i total b budget) <= budget.
Proof.
  revert i b. induction names as [|n names IH]; intros i b Ht Hi Hr H0 Hb; cbn [join_within]; [lia|].
  cbn [List.length] in Ht.
  assert (strlen (join [" (+"; FormatInt total; " more)"])%string = reserve_of total) as ->.
  { unfold reserve_of. rewrite strlen_join. cbn [map fold_right].
    change (strlen " (+") with 3. change (strlen " more)") with 6. lia. }
  set (sep := if 0 <? i then _ else _). set (need := strlen b + strlen sep + strlen n).
  destruct (Z.ltb_spec budget (if i <? total - 1 then need + reserve_of total else need)) as [Hover|Hok].
  - rewrite strlen_app. pose proof (elided_length total i ltac:(lia)).
    destruct (Z.eqb_spec i 0) as [->|]; [rewrite H0 by done; change (strlen "") with 0|]; lia.
  - apply IH; [lia|lia|done|lia|]. rewrite !strlen_app. fold need.
    replace (i + 1 =? 0) with false by lia.
    destruct names as [|n' names]; [|destruct (Z.ltb_spec i (total - 1)); cbn [List.length] in *; lia].
    destruct (i <? total - 1); [|lia]. unfold reserve_of in *. pose proof (strlen_nonneg (FormatInt total)). lia.
Qed.

Lemma joinWithinBudget_fits names budget :
  reserve_of (Z.of_nat (List.length names)) <= budget -> strlen (joinWithinBudget names budget) <= budget.
Proof.
  intros H. unfold joinWithinBudget. apply join_within_fits; [lia|lia|done|done|].
  change (strlen "") with 0. unfold reserve_of in H.
  pose proof (strlen_nonneg (FormatInt (Z.of_nat (List.length names)))). destruct names; cbn; lia.
Qed.

Lemma failed_format_length n names : strlen (failed_format n names) = strlen (failed_format n "") + strlen names.
Proof. unfold failed_format. rewrite !strlen_join. cbn [map fold_right]. change (strlen "") with 0. lia. Qed.

Lemma failedReposSentence_fits failed budget :
  400 <= budget -> strlen (failedReposSentence failed budget) <= budget.
Proof.
  intros H. destruct failed as [|f failed]; [change (strlen (failedReposSentence [] budget)) with 0; lia|].
  unfold failedReposSentence. rewrite failed_format_length.
  set (n := Z.of_nat _). pose proof (FormatInt_length n) as Hn.
  assert (strlen (failed_format n "") <= 370) as Hf.
  { unfold failed_format. rewrite strlen_join. cbn [map fold_right].
    change (strlen "") with 0. change (strlen ".") with 1.
    repeat match goal with |- context [strlen (String ?a ?s)] =>
      let v := eval vm_compute in (strlen (String a s)) in change (strlen (String a s)) with v end. lia. }
  pose proof (joinWithinBudget_fits (f :: failed) (budget - strlen (failed_format n ""))
    ltac:(unfold reserve_of; fold n; lia)). lia.
Qed.

Lemma truncateNoteBodyTo_fits s budget : 0 <= budget -> strlen (truncateNoteBodyTo s budget) <= budget.
Proof.
  intros H. unfold truncateNoteBodyTo. destruct (Z.leb_spec (strlen s) budget); [done|].
  change (strlen ellipsis) with 14. destruct (Z.leb_spec budget 14).
  - etransitivity; [apply TruncateUTF8_length; lia|lia].
  - rewrite strlen_app. change (strlen ellipsis) with 14.
    pose proof (TruncateUTF8_length s (budget - 14) ltac:(lia)). lia.
Qed.

Lemma TrimSpace_length s : strlen (TrimSpace s) <= strlen s.
Proof.
  change (TrimSpace s) with (TrimRight (trim_front (String.length s) spaces s)).
  destruct (trim_front_split (String.length s) spaces s) as (l & _ & Hs).
  destruct (TrimRight_split (trim_front (String.length s) spaces s)) as (l' & _ & Ht).
  assert (strlen s = strlen (join l) + strlen (trim_front (String.length s) spaces s)) by
    (rewrite Hs at 1; apply strlen_app).
  assert (strlen (trim_front (String.length s) spaces s)
          = strlen (TrimRight (trim_front (String.length s) spaces s)) + strlen (join l')) by
    (rewrite Ht at 1; apply strlen_app).
  pose proof (strlen_nonneg (join l)). pose proof (strlen_nonneg (join l')). lia.
Qed.

(** the operator's notes fit the field they are written to, however long the final
    text, the repository names or their number: the warning about lost commits is kept
    whole and the final text is what is cut. *)
Theorem stop_notes_fit (inp : TTLStopInput) (oom : option Time) (now : Time) :
  strlen (n_Body (synthetic_note inp oom now)) <= NoteBodyMaxBytes
  /\ (exists text, n_Body (synthetic_note inp oom now)
                   = String.append text (failedReposSentence (st_FailedRepos inp) 1024))
  /\ forall n, failed_repos_note (st_FailedRepos inp) (st_ReposTurnID inp) now = Some n ->
       strlen (st_ReposTurnID inp) <= LastTurnReposTurnIDMaxBytes ->
       strlen (n_Body n) <= NoteBodyMaxBytes.
Proof.
  change (Z.quot maxNoteBody 4) with 1024.
  pose proof (failedReposSentence_fits (st_FailedRepos inp) 1024 ltac:(lia)) as Hw.
  split; [|split].
  - unfold synthetic_note. cbn [n_Body]. change (Z.quot maxNoteBody 4) with 1024.
    rewrite strlen_app. unfold maxNoteBody, NoteBodyMaxBytes.
    match goal with |- strlen (truncateNoteBodyTo ?b ?n) + _ <= _ =>
      pose proof (truncateNoteBodyTo_fits b n ltac:(lia)) end. lia.
  - by eexists.
  - intros n. unfold failed_repos_note, LastTurnReposTurnIDMaxBytes, NoteBodyMaxBytes, maxNoteBody.
    set (suffix := failedReposTurnSuffix _). set (body := TrimSpace _).
    destruct (body == ""); [done|]. intros [= <-] Hid. cbn [n_Body]. rewrite strlen_app.
    assert (strlen suffix <= 300) as Hs.
    { subst suffix. unfold failedReposTurnSuffix. destruct (st_ReposTurnID inp == "");
        [change (strlen "") with 0; lia|]. rewrite strlen_join. cbn [map fold_right].
      change (strlen " This describes turn ") with 21. change (strlen ".") with 1. lia. }
    pose proof (TrimSpace_length (failedReposSentence (st_FailedRepos inp) (NoteBodyMaxBytes - strlen suffix))) as Hb.
    pose proof (failedReposSentence_fits (st_FailedRepos inp) (NoteBodyMaxBytes - strlen suffix)) as Hf.
    unfold NoteBodyMaxBytes in *. fold body in Hb. lia.
Qed.

Lemma stop_notes_fit_witness :
  exists n, failed_repos_note ["a"; "b"]%string "turn-7" 0 = Some n /\ strlen (n_Body n) <= NoteBodyMaxBytes.
Proof.
  pose (inp := mkTTLStopInput "implement" 0 0 0 "" [] ["a"; "b"]%string "turn-7" "").
  destruct (failed_repos_note ["a"; "b"]%string "turn-7" 0) as [n|] eqn:E; [|vm_compute in E; discriminate].
  exists n. split; [done|].
  exact (proj2 (proj2 (stop_notes_fit inp None 0)) n E ltac:(vm_compute; discriminate)).
Defined.

(** ** A handoff the count does not show *)

Lemma filter_count_step (f : Note -> bool) a l :
  List.length (List.filter f (l ++ [a])) = (List.length (List.filter f l) + if f a then 1 else 0)%nat.
Proof. rewrite List.filter_app, length_app. cbn. destruct (f a); cbn; lia. Qed.

(** the wait for the agent's handoff note can miss it: at the cap of fifty notes, when
    the oldest is itself a handoff, the write that appends the agent's new note evicts it,
    the count of handoff notes does not move, and no later look at the journal decides
    the wait. *)
Theorem handoff_missed_at_the_cap (sizeOf : Task -> option Z) (sp : Spiller Note) (id : string)
    (t t' : Task) (first n : Note) (rest : list Note) fx :
  Notes (Status t) = first :: rest -> Z.of_nat (List.length rest) = MaxNotes - 1 ->
  isAgentHandoffNote first = true -> isAgentHandoffNote n = true ->
  (forall x, exists z, sizeOf x = Some z /\ z <= ObjectByteBudget) ->
  sp [first] = Some id ->
  AppendNote sizeOf (Some sp) n [Found t] [mkAttempt (Some t) UpdateOk] = (Ok t', fx) ->
  In n (Notes (Status t')) /\ note_decides (handoffNoteCount t) (Some (handoffNoteCount t')) = None.
Proof.
  intros Hnotes Hlen Hf Hn Hsz Hsp. unfold AppendNote, FitNoteAppender_append, FitTask.
  change (getWaitingOutCreateLag [Found t]) with (Some t). cbv zeta iota.
  assert (append_note n false t = on_status t (fun s => s <| Notes ::= fun l => (l ++ [n])%list |>)) as Ha
    by reflexivity.
  set (cand := append_note n false t).
  assert (Notes (Status cand) = first :: (rest ++ [n])%list) as Hc.
  { subst cand. rewrite Ha. cbn. by rewrite Hnotes. }
  assert (List.length (Notes (Status cand)) = 51%nat) as H51.
  { rewrite Hc. cbn [List.length]. rewrite length_app. cbn [List.length]. unfold MaxNotes in Hlen. lia. }
  rewrite H51. cbn [andb]. change (MaxNotes <? Z.of_nat 51) with true.
  change (51 - Z.to_nat MaxNotes)%nat with 1%nat.
  assert (forall (A : Type) (f : list A -> option Z) l, (exists z, f l = Some z /\ z <= ObjectByteBudget) ->
            exists z, evictOldest f l = Some (l, [], z) /\ z <= ObjectByteBudget) as Hev.
  { intros A f l (z & Hz & Hle). exists z. split; [|done].
    destruct l; cbn [evictOldest]; rewrite Hz; by replace (z <=? ObjectByteBudget) with true by lia. }
  match goal with |- context [evictOldest ?f ?l] => destruct (Hev _ f l (Hsz _)) as (z & -> & Hz) end.
  replace (ObjectByteBudget <? z) with false by lia.
  replace (firstn 1 (Notes (Status cand)) ++ [])%list with [first] by (by rewrite Hc).
  assert (exists tr st, spillEvicted (Some sp) [first] = Ok (tr, st)) as (tr & st & ->).
  { unfold spillEvicted. rewrite Hsp. destruct (id == ""); by eexists _, _. }
  unfold RetryOnConflict. cbn [firstn write_attempts at_fresh at_answer]. fold cand.
  destruct (Hsz (trim_task true (Z.of_nat (List.length [first])) tr st cand)) as (z' & -> & Hz').
  replace (ObjectByteBudget <? z') with false by lia. intros [= <- _]. clearbody cand.
  assert (Notes (Status (trim_task true (Z.of_nat (List.length [first])) tr st cand)) = (rest ++ [n])%list) as Ht.
  { unfold trim_task. change (0 <? Z.of_nat (List.length [first])) with true. cbv iota zeta.
    rewrite H51. change (Notes (Status (on_status cand ?f))) with (Notes (f (Status cand))). cbn -[Z.to_nat].
    replace (Z.to_nat _) with 1%nat by reflexivity. by rewrite Hc. }
  change (Z.of_nat (List.length [first])) with (Z.of_nat 1) in Ht.
  unfold handoffNoteCount. rewrite Ht, Hnotes, filter_count_step, Hn. cbn [List.filter]. rewrite Hf.
  cbn [List.length]. split; [apply in_or_app; right; by left|]. unfold note_decides.
  match goal with |- context [?a <? ?b] => destruct (Z.ltb_spec a b) as [H|H] end; [|done]. lia.
Qed.

Lemma handoff_missed_at_the_cap_witness :
  exists t' fx, AppendNote (fun _ => Some 1000) (Some Discarding) (handoff_note "review")
                  [Found full_journal] [mkAttempt (Some full_journal) UpdateOk] = (Ok t', fx)
    /\ In (handoff_note "review") (Notes (Status t'))
    /\ note_decides (handoffNoteCount full_journal) (Some (handoffNoteCount t')) = None.
Proof.
  destruct (AppendNote (fun _ => Some 1000) (Some Discarding) (handoff_note "review")
              [Found full_journal] [mkAttempt (Some full_journal) UpdateOk]) as [r fx] eqn:E.
  destruct r as [t'|e]; [|vm_compute in E; discriminate E].
  exists t', fx. split; [done|].
  refine (handoff_missed_at_the_cap (fun _ => Some 1000) Discarding "" full_journal t'
    (handoff_note "implement") (handoff_note "review") (repeat (mkNote "" 2 "implement" "progress" "step") 49)
    fx eq_refl eq_refl eq_refl eq_refl _ eq_refl E).
  intros _. exists 1000. split; [reflexivity|vm_compute; discriminate].
Defined.
