(* ===== verification/Patch.v ===== *)
(** * Read, change, write: the status patches of the controllers, retried on conflict
    (patchTaskStatus in internal/controller/task_controller.go, patchQueuedEventStatus in
    queue_controller.go), and the closures of the un-park drivers, which decide on every
    fresh read whether they write at all (unpark.go, retry_escalation.go). *)

From Stdlib Require Import String.
From S2P Require Import Prelude Api ObjBudget.

Open Scope Z_scope.
Open Scope go_scope.

Section Patch.

Context {Obj : Type}.

(** What a patch answers: the object the caller's copy holds afterwards, and whether it
    was written. *)
Inductive PatchResult :=
  | Patched (o : Obj)
  | Unchanged (o : Obj)
  | PatchFailed (e : FitError).

(** The closure, [mutate] reporting nothing to do with [None]. *)
Fixpoint patch_loop (mutate : Obj -> option Obj) (attempts : list (Attempt Obj)) : PatchResult :=
  match attempts with
  | [] => PatchFailed ConflictsExhausted
  | a :: attempts' =>
      match at_fresh a with
      | None => PatchFailed GetFailed
      | Some fresh =>
          match mutate fresh with
          | None => Unchanged fresh
          | Some changed =>
              match at_answer a with
              | UpdateOk => Patched changed
              | UpdateError => PatchFailed UpdateRefused
              | UpdateConflict => patch_loop mutate attempts'
              end
          end
      end
  end.

Definition patchStatus (mutate : Obj -> option Obj) (attempts : list (Attempt Obj)) : PatchResult :=
  patch_loop mutate (firstn 5 attempts).

Definition patch_error (r : PatchResult) : option FitError :=
  match r with PatchFailed e => Some e | _ => None end.

(** The caller's copy: a failed patch leaves it alone. *)
Definition patch_copy (before : Obj) (r : PatchResult) : Obj :=
  match r with Patched o | Unchanged o => o | PatchFailed _ => before end.

Definition patch_written (r : PatchResult) : list Obj :=
  match r with Patched o => [o] | _ => [] end.

(** ** Lemmas *)

(** What was written is the change of a read that was accepted. *)
Lemma patch_loop_written mutate attempts o :
  patch_loop mutate attempts = Patched o ->
  exists fresh, In (mkAttempt (Some fresh) UpdateOk) attempts /\ mutate fresh = Some o.
Proof.
  induction attempts as [|[[fresh|] ans] l IH]; cbn; try discriminate.
  destruct (mutate fresh) as [c|] eqn:E; [|discriminate]. destruct ans; try discriminate.
  - intros [= <-]. exists fresh. by split; [left|].
  - intros H. destruct (IH H) as (f & Hin & Hm). exists f. by split; [right|].
Qed.

Lemma patchStatus_written mutate attempts o :
  patchStatus mutate attempts = Patched o ->
  exists fresh, In (mkAttempt (Some fresh) UpdateOk) attempts /\ mutate fresh = Some o.
Proof.
  intros H. destruct (patch_loop_written _ _ _ H) as (f & Hin & Hm). exists f. split; [|done].
  revert Hin. generalize 5%nat. intros n. revert attempts H.
  intros attempts _. revert n. induction attempts as [|a l IH]; intros [|n]; cbn; try done.
  intros [<-|Hin]; [by left|right; by apply (IH n)].
Qed.

Lemma patchStatus_copy mutate attempts before :
  patch_error (patchStatus mutate attempts) = None ->
  (exists o, patchStatus mutate attempts = Patched o /\ patch_copy before (patchStatus mutate attempts) = o)
  \/ (exists o, patchStatus mutate attempts = Unchanged o /\ mutate o = None
               /\ patch_copy before (patchStatus mutate attempts) = o).
Proof.
  unfold patchStatus. generalize (firstn 5 attempts) as l. clear attempts.
  induction l as [|[[fresh|] ans] l IH]; cbn; try discriminate.
  destruct (mutate fresh) as [c|] eqn:E.
  - destruct ans; cbn; try discriminate; [|done]. intros _. left. by exists c.
  - intros _. right. by exists fresh.
Qed.

End Patch.

Arguments PatchResult : clear implicits.

(** ** A closure that decides *)

Section Cas.

Context {Obj R : Type}.

(** What the closure makes of a fresh read: an answer and nothing to write, or an answer
    for when the write is accepted. *)
Inductive Verdict := Leave (r : R) | Change (r : R) (o : Obj).

Inductive CasResult := CasLeft (r : R) | CasWrote (r : R) (o : Obj) | CasFailed (e : FitError).

Fixpoint cas_loop (decide : Obj -> Verdict) (attempts : list (Attempt Obj)) : CasResult :=
  match attempts with
  | [] => CasFailed ConflictsExhausted
  | a :: attempts' =>
      match at_fresh a with
      | None => CasFailed GetFailed
      | Some fresh =>
          match decide fresh with
          | Leave r => CasLeft r
          | Change r o =>
              match at_answer a with
              | UpdateOk => CasWrote r o
              | UpdateError => CasFailed UpdateRefused
              | UpdateConflict => cas_loop decide attempts'
              end
          end
      end
  end.

(** [retry.RetryOnConflict] with the default five attempts. *)
Definition cas (decide : Obj -> Verdict) (attempts : list (Attempt Obj)) : CasResult :=
  cas_loop decide (firstn 5 attempts).

(** What was written is what the closure made of a read whose write was accepted; what
    was left is what it made of a read. *)
Lemma cas_loop_spec decide attempts :
  match cas_loop decide attempts with
  | CasWrote r o => exists fresh, In (mkAttempt (Some fresh) UpdateOk) attempts /\ decide fresh = Change r o
  | CasLeft r => exists fresh ans, In (mkAttempt (Some fresh) ans) attempts /\ decide fresh = Leave r
  | CasFailed _ => True
  end.
Proof.
  induction attempts as [|[[fresh|] ans] l IH]; cbn; [done| |done].
  destruct (decide fresh) as [r|r o] eqn:E; [exists fresh, ans; split; [by left|done]|].
  destruct ans; [exists fresh; split; [by left|done]| |done].
  destruct (cas_loop decide l).
  - destruct IH as (f & a & Hin & Hd). exists f, a. split; [by right|done].
  - destruct IH as (f & Hin & Hd). exists f. split; [by right|done].
  - done.
Qed.

Lemma firstn_In {A} n (x : A) l : In x (firstn n l) -> In x l.
Proof. intros H. rewrite <- (firstn_skipn n l). apply in_or_app. by left. Qed.

Lemma cas_wrote decide attempts r o :
  cas decide attempts = CasWrote r o ->
  exists fresh, In (mkAttempt (Some fresh) UpdateOk) attempts /\ decide fresh = Change r o.
Proof.
  intros H. pose proof (cas_loop_spec decide (firstn 5 attempts)) as Hs. unfold cas in H. rewrite H in Hs.
  destruct Hs as (f & Hin%firstn_In & Hd). by exists f.
Qed.

Lemma cas_left decide attempts r :
  cas decide attempts = CasLeft r ->
  exists fresh ans, In (mkAttempt (Some fresh) ans) attempts /\ decide fresh = Leave r.
Proof.
  intros H. pose proof (cas_loop_spec decide (firstn 5 attempts)) as Hs. unfold cas in H. rewrite H in Hs.
  destruct Hs as (f & a & Hin%firstn_In & Hd). by exists f, a.
Qed.

End Cas.

Arguments Verdict : clear implicits.
Arguments CasResult : clear implicits.
