(* ===== verification/LivePods.v ===== *)
(** * The live-pod ceiling (internal/controller/livepods.go): who counts against it, what
    may be minted under it, which conversation is evicted over it, and how a
    conversation ends. *)

From stdpp Require Import sorting.
From Stdlib Require Import String Ascii.
From S2P Require Import Prelude GoTime Api Vocabulary Park Clocks Unpark ObjBudget Patch Transition Settings TtlStop.

Open Scope Z_scope.
Open Scope go_scope.

(** ** Counting *)

(** The objects of a namespace a read answers, [None] when it fails. *)
Definition TaskListing : Type := option (list Task).

(** [StageActive] (sweep.go). *)
Definition StageActive (t : Task) : bool :=
  if State (Status t) == "" then false else negb (TaskDone t) && negb (Parked t).

(** [botLoginOf] (sweep.go). *)
Definition botLoginOf (proj : Project) : string :=
  match proj_Scm proj with Some s => scm_BotLogin s | None => "" end.

(** [NeedsLiveRoom] (unpark.go). *)
Definition NeedsLiveRoom (parkReason : string) : bool :=
  (parkReason == ReasonAwaitingHuman) || (parkReason == ReasonIdentityUnverified)
  || (parkReason == ReasonHandoffStalled) || (parkReason == ReasonNoOutcome)
  || (parkReason == ReasonRetryExhausted)
  || (parkReason == ReasonCIPending) || (parkReason == ReasonCIFailed)
  || (parkReason == ReasonMergeConflictRetry) || (parkReason == ReasonMRSurfaceSpent).

Definition counts_live (proj : Project) (t : Task) : bool :=
  (ProjectRef (Spec t) == proj_Name proj) && Live (State (Status t)) && negb (Parked t)
  && negb (is_set (DeletionTimestamp t)).

Definition countLive (proj : Project) (tl : TaskListing) : TaskListing :=
  match tl with None => None | Some l => Some (List.filter (counts_live proj) l) end.

Definition LiveHasRoom (proj : Project) (tl : TaskListing) : option bool :=
  match countLive proj tl with
  | None => None
  | Some live => Some (Z.of_nat (List.length live) <? MaxLivePods (Some proj))
  end.

Definition preLive (state : string) : bool := (state == "") || (state == StateNew).

(** What the loads of a Task's Issues and MergeRequests answer. *)
Record Artifacts := mkArtifacts {
  art_issues : Task -> option (list Issue);
  art_mrs : Task -> option (list MergeRequest)
}.

Section Room.

Context (art : Artifacts).

(** [wall] is what [time.Now()] would answer where [now] is zero. *)
Context (wall : Time).

Definition resumptionBlockedOnRoom (proj : Project) (t : Task) (activeTasks maxOpen : Z) (now : Time)
  : option bool :=
  if negb (NeedsLiveRoom (ParkReason (Status t))) || negb (Live (State (Status t))) then Some false
  else match art_issues art t with
       | None => None
       | Some issues =>
           match art_mrs art t with
           | None => None
           | Some mrs =>
               let '(decline, _) :=
                 Unpark (mkUnparkInput t issues mrs activeTasks maxOpen (botLoginOf proj) false now)
                   wall wall in
               Some (decline == DeclineNoLiveRoom)
           end
       end.

Definition max_open (proj : Project) : Z :=
  if proj_MaxOpenTasks proj <=? 0 then 6 else proj_MaxOpenTasks proj.

(** One turn of the counting loop; [None] when a load failed. *)
Definition tally (proj : Project) (active : Z) (now : Time) (acc : option (Z * Z * Z)) (t : Task)
  : option (Z * Z * Z) :=
  match acc with
  | None => None
  | Some (live, pending, owed) =>
      if (ProjectRef (Spec t) != proj_Name proj) || is_set (DeletionTimestamp t) then acc
      else if Parked t then
        match resumptionBlockedOnRoom proj t active (max_open proj) now with
        | None => None
        | Some blocked => Some (live, pending, if blocked then owed + 1 else owed)
        end
      else if Live (State (Status t)) then Some (live + 1, pending, owed)
      else if preLive (State (Status t)) then Some (live, pending + 1, owed)
      else acc
  end.

Definition active_tasks (proj : Project) (l : list Task) : Z :=
  Z.of_nat (List.length
    (List.filter (fun t => (ProjectRef (Spec t) == proj_Name proj) && StageActive t) l)).

(** The three populations of a namespace. *)
Definition populations (proj : Project) (l : list Task) (now : Time) : option (Z * Z * Z) :=
  fold_left (tally proj (active_tasks proj l) now) l (Some (0, 0, 0)).

(** A namespace holds far fewer than [2^62] Tasks, so the subtraction does not wrap. *)
Definition liveMintBudget (proj : Project) (tl : TaskListing) (now : Time) : option Z :=
  match tl with
  | None => None
  | Some l =>
      match populations proj l now with
      | None => None
      | Some (live, pending, owed) => Some (MaxLivePods (Some proj) - live - pending - owed)
      end
  end.

End Room.

(** ** Eviction candidates *)

Definition conversationIdleSince (t : Task) : Time :=
  match ConversationLastEventAt (Status t) with
  | Some e => e
  | None => match StateEnteredAt (Status t) with Some e => e | None => CreationTimestamp t end
  end.

Definition conversationStarted (t : Task) : bool := is_set (StateWorkStartedAt (Status t)).

(** The order of the sort: longest idle first, then by name (Go compares strings
    bytewise, as [String.compare] does). *)
Definition idle_leb (a b : Task) : bool :=
  if negb (conversationIdleSince a =? conversationIdleSince b) then
    Before (conversationIdleSince a) (conversationIdleSince b)
  else match String.compare (task_Name a) (task_Name b) with Gt => false | _ => true end.

Definition idle_le (a b : Task) : Prop := idle_leb a b = true.

#[export] Instance idle_le_dec : RelDecision idle_le.
Proof. intros a b. unfold idle_le. apply _. Defined.

(** Names are unique in a namespace, so the order is total and the sort has one result. *)
Definition sortByIdleThenName (live : list Task) : list Task := merge_sort idle_le live.

Definition evictable (t : Task) : bool := negb (TurnInFlight t) && conversationStarted t.

Definition evictionCandidates (live : list Task) : list Task :=
  sortByIdleThenName (List.filter evictable live).

(** ** Eviction backoff *)

Definition maxLivePodEvictionsPerPass : Z := 1.
Definition livePodEvictionRequeue : Duration := 5 * Second.
Definition evictionFailureBackoffBase : Duration := 30 * Second.
Definition evictionFailureBackoffMax : Duration := 10 * Minute.

Record evictionFailure := mkEvictionFailure { count : Z; nextEligible : Time }.

(** The map of failures, keyed by name in the namespace. *)
Definition Failures : Type := gmap string evictionFailure.

(** The loop from [i] up to [count]. *)
Fixpoint backoff_loop (fuel : nat) (i count : Z) (d : Duration) : Duration :=
  match fuel with
  | O => d
  | S fuel' =>
      if i <? count then
        if evictionFailureBackoffMax <=? d then evictionFailureBackoffMax
        else backoff_loop fuel' (i + 1) count (i64 (d * 2))
      else if evictionFailureBackoffMax <? d then evictionFailureBackoffMax else d
  end.

(** Five doublings pass the maximum, so seven rounds are enough
    ([evictionBackoffAfter_exact]). *)
Definition evictionBackoffAfter (count : Z) : Duration :=
  backoff_loop 7 1 count evictionFailureBackoffBase.

Definition recordEvictionFailure (f : Failures) (t : Task) (now : Time) : Failures :=
  let n := i64 (match f !! task_Name t with Some e => count e | None => 0 end + 1) in
  <[task_Name t := mkEvictionFailure n (Add now (evictionBackoffAfter n))]> f.

Definition clearEvictionFailure (f : Failures) (t : Task) : Failures := delete (task_Name t) f.

Definition evictionBackedOff (f : Failures) (t : Task) (now : Time) : bool :=
  match f !! task_Name t with Some e => Before now (nextEligible e) | None => false end.

(** ** One pass of evictions *)

Record Pass (E : Type) := mkPass {
  ps_failures : Failures;
  ps_tried : list (Task * bool);
  ps_evicted : Z;
  ps_earliest : Time;
  ps_error : option E
}.
Arguments mkPass {E}.
Arguments ps_failures {E}.
Arguments ps_tried {E}.
Arguments ps_evicted {E}.
Arguments ps_earliest {E}.
Arguments ps_error {E}.

Definition noteBackoff (f : Failures) (t : Task) (earliest : Time) : Time :=
  match f !! task_Name t with
  | None => earliest
  | Some e => if IsZero earliest || Before (nextEligible e) earliest then nextEligible e else earliest
  end.

Section Evict.

Context {E : Type}.
Context (evictFn : Task -> option E).

(** The loop over the candidates; what was tried, and whether it went through, in order. *)
Fixpoint attempt_evictions (candidates : list Task) (want : Z) (now : Time) (p : Pass E) : Pass E :=
  match candidates with
  | [] => p
  | t :: rest =>
      if want <=? ps_evicted p then p
      else if evictionBackedOff (ps_failures p) t now then
        attempt_evictions rest want now
          (mkPass (ps_failures p) (ps_tried p) (ps_evicted p)
             (noteBackoff (ps_failures p) t (ps_earliest p)) (ps_error p))
      else match evictFn t with
           | Some err =>
               let f := recordEvictionFailure (ps_failures p) t now in
               attempt_evictions rest want now
                 (mkPass f (ps_tried p ++ [(t, false)]) (ps_evicted p) (noteBackoff f t (ps_earliest p))
                    (match ps_error p with None => Some err | e => e end))
           | None =>
               attempt_evictions rest want now
                 (mkPass (clearEvictionFailure (ps_failures p) t) (ps_tried p ++ [(t, true)])
                    (ps_evicted p + 1) (ps_earliest p) (ps_error p))
           end
  end.

Definition attemptEvictions (f : Failures) (candidates : list Task) (want : Z) (now : Time) : Pass E :=
  attempt_evictions candidates want now (mkPass f [] 0 0 None).

Inductive CeilingError := CeilingList | CeilingUnwired | CeilingEvict (e : E).

(** The pass over a project: the requeue, and the failures and attempts it leaves.
    [wired] is whether there is a TaskReconciler to evict through. *)
Definition enforceLivePodCeiling (proj : Project) (tl : TaskListing) (wired : bool) (f : Failures)
    (now : Time) : result CeilingError Duration * Failures * list (Task * bool) :=
  match countLive proj tl with
  | None => (Err CeilingList, f, [])
  | Some live =>
      let n := Z.of_nat (List.length live) in
      let ceiling := MaxLivePods (Some proj) in
      if n <=? ceiling then (Ok 0, f, [])
      else if negb wired then (Err CeilingUnwired, f, [])
      else
        let overflow := n - ceiling in
        let candidates := evictionCandidates live in
        let desired := if Z.of_nat (List.length candidates) <? overflow
                       then Z.of_nat (List.length candidates) else overflow in
        let evict := if maxLivePodEvictionsPerPass <? desired then maxLivePodEvictionsPerPass
                     else desired in
        if evict =? 0 then (Ok 0, f, [])
        else
          let p := attemptEvictions f candidates evict now in
          let requeue :=
            if ps_evicted p <? desired then
              if (ps_evicted p <? evict) && negb (IsZero (ps_earliest p)) then
                let w := Sub (ps_earliest p) now in
                if 0 <? w then w else livePodEvictionRequeue
              else livePodEvictionRequeue
            else 0 in
          (match ps_error p with Some e => Err (CeilingEvict e) | None => Ok requeue end,
           ps_failures p, ps_tried p)
  end.

End Evict.

(** ** The end of a conversation *)

Definition causeIdle : string := "idle".
Definition causeEvicted : string := "evicted".

Definition ttlCauseForLiveExit (cause : string) : string :=
  if cause == causeEvicted then TTLCauseEviction else TTLCauseIdle.

(** [clearLastTurn] (task_stage.go). *)
Definition clearLastTurn (t : Task) : Task :=
  on_status t (fun s =>
    s <| LastTurnFinalText := ""%string |> <| LastTurnPushedRepos := [] |>
      <| LastTurnFailedRepos := [] |> <| LastTurnReposTurnID := ""%string |>).

(** What the outside answers to an exit: the stop's, the patch that retires the last
    turn, the reload, the patch that re-arms, and the park's. *)
Record ExitWorld := mkExitWorld {
  ew_stop : StopWorld;
  ew_retire : list (Attempt Task);
  ew_reload : option Task;
  ew_rearm : list (Attempt Task);
  ew_park : World
}.

Inductive ExitEffect :=
  | Stopped (e : StopEffect)
  | WroteStatus (t : Task)
  | CountedRecreation
  | ParkEffect (e : Effect)
  | CountedClosed (cause : string).

Inductive ExitError :=
  | StopFailed (e : StopError)
  | RetireFailed (e : FitError)
  | ReloadFailed
  | RearmFailed (e : FitError)
  | TurnClearFailed
  | ParkFailed (e : TransitionError).

Definition exit_input (proj : Project) (task : Task) (cause : string) (now : Time) : TTLStopInput :=
  mkTTLStopInput (AgentKindFor (State (Status task)) (Kind (Spec task))) now
    (i64 (proj_TurnTimeoutSeconds proj * Second)) 0 (LastTurnFinalText (Status task))
    (LastTurnPushedRepos (Status task)) (LastTurnFailedRepos (Status task))
    (LastTurnReposTurnID (Status task)) (ttlCauseForLiveExit cause).

Definition rearm_closure (now : Time) (fresh : Task) : option Task :=
  Some (snd (ReArmAfterPodLoss fresh now)).

(** The replacement pod: the residency clock restarts and the old pod's turn goes. *)
Definition reArmWithoutHandoff (w : ExitWorld) (task : Task) (now : Time)
  : option ExitError * list ExitEffect :=
  let r := patchStatus (rearm_closure now) (ew_rearm w) in
  match patch_error r with
  | Some e => (Some (RearmFailed e), [])
  | None =>
      let es := map WroteStatus (patch_written r) in
      let o := clearTurnAnnotations (ew_park w) (patch_copy task r) in
      (match o_err o with Some _ => Some TurnClearFailed | None => None end,
       (es ++ [CountedRecreation] ++ map ParkEffect (o_effects o))%list)
  end.

(** The exit once the pod has been stopped: by what the agent did. *)
Definition exit_after_stop (w : ExitWorld) (m : bool) (task : Task) (cause : string) (now : Time)
  : option ExitError * list ExitEffect :=
  match ew_reload w with
  | None => (Some ReloadFailed, [])
  | Some fresh =>
      if negb (HasAgentHandoffNote fresh) then reArmWithoutHandoff w task now
      else
        let o := ParkTask (ew_park w) m task ReasonAwaitingHuman now None in
        match o_err o with
        | Some e => (Some (ParkFailed e), map ParkEffect (o_effects o))
        | None => (None, (map ParkEffect (o_effects o) ++ if m then [CountedClosed cause] else [])%list)
        end
  end.

Definition liveHandoffAndPark (w : ExitWorld) (m : bool) (poll : Duration) (proj : Project)
    (task : Task) (cause : string) (now : Time) : option ExitError * list ExitEffect :=
  match PodStartedAt (Status task) with
  | None => exit_after_stop w m task cause now
  | Some _ =>
      let '(r, es) := StopWithHandoff (ew_stop w) poll (exit_input proj task cause now) in
      let es := map Stopped es in
      match r with
      | Err e => (Some (StopFailed e), es)
      | Ok _ =>
          let p := patchStatus (fun fresh => Some (clearLastTurn fresh)) (ew_retire w) in
          match patch_error p with
          | Some e => (Some (RetireFailed e), es)
          | None =>
              let '(err, es') := exit_after_stop w m (patch_copy task p) cause now in
              (err, (es ++ map WroteStatus (patch_written p) ++ es')%list)
          end
      end
  end.

(** ** Delivering a turn *)

Definition LiveEntryDeclineNotLive : string := "not-a-live-state".
Definition LiveEntryDeclineParked : string := "task-parked".
Definition LiveEntryDeclineCeilingFull : string := "live-ceiling-full".
Definition LiveEntryDeclineRoundsExhausted : string := "rounds-exhausted".
Definition LiveEntryDeclineTerminal : string := "task-done".

Definition LiveEntryDeclineReasons : list string :=
  [LiveEntryDeclineNotLive; LiveEntryDeclineParked; LiveEntryDeclineCeilingFull;
   LiveEntryDeclineRoundsExhausted; LiveEntryDeclineTerminal].

Definition LiveEntryEligible (state : string) : bool := Live state.

Definition anyExternallyOwnedMR (mrs : list MergeRequest) : bool :=
  existsb (fun mr => mr_Ownership (mr_Status mr) == OwnershipExternal) mrs.

Definition hasFreshNonBotEvent (task : Task) (botLogin : string) : bool :=
  existsb (fun e => (ev_Author e != botLogin) && negb (is_set (UnparkConsumedAt e)))
    (PendingEvents (Status task)).

Definition DeliverLiveTurn (proj : Project) (task : Task) (mrs : list MergeRequest) : bool * string :=
  if TaskDone task then (false, LiveEntryDeclineTerminal)
  else if Parked task then (false, LiveEntryDeclineParked)
  else if negb (Live (State (Status task))) then (false, LiveEntryDeclineNotLive)
  else
    let fromReview := State (Status task) == StateAwaitingReview in
    let takeoverCandidate := anyExternallyOwnedMR mrs && hasFreshNonBotEvent task (botLoginOf proj) in
    if fromReview && negb takeoverCandidate && (MaxHumanReviewRounds <=? HumanReviewRounds (Status task))
    then (false, LiveEntryDeclineRoundsExhausted)
    else (true, ""%string).

(** ** A parked Task that still holds a pod *)

Inductive RepairError := RepairTeardown | RepairWrite (e : FitError).

Definition drop_pod (t : Task) : Task :=
  on_status t (fun s =>
    s <| PodName := ""%string |> <| PodStartedAt := None |> <| StateWorkStartedAt := None |>).

(** Whether it was repaired, the error, the caller's Task and the effects. *)
Definition repairParkedWithLivePod (w : World) (task : Task)
  : bool * option RepairError * Task * list Effect :=
  if negb (Parked task) || (PodName (Status task) == "") then (false, None, task, [])
  else
    let '(ok, es) := DeleteWrapper w in
    if negb ok then (true, Some RepairTeardown, task, es)
    else
      let '(r, fit) := FitTask (w_sizeOf w) (w_spiller w) false (w_reads w) drop_pod (w_attempts w) in
      let es := (es ++ map Fit fit)%list in
      match r with
      | Err e => (true, Some (RepairWrite e), task, es)
      | Ok _ => (true, None, drop_pod task, es)
      end.

(** ** Vocabulary of the lemmas and the witnesses *)

(** What the candidates up to where the pass stops come to. *)
Definition outcome_of {E} (evictFn : Task -> option E) (t : Task) : Task * bool :=
  (t, negb (is_set (evictFn t))).

Definition successes (l : list (Task * bool)) : Z := Z.of_nat (List.length (List.filter snd l)).

(** A live conversation of the default project, idle since [at_]. *)
Definition conversing (name : string) (at_ : Time) : Task :=
  (on_status zero_Task (fun s =>
     s <| State := StateRefined |> <| ConversationLastEventAt := Some at_ |>
       <| StateWorkStartedAt := Some at_ |>)) <| task_Name := name |>.

Definition crowded : list Task :=
  [conversing "a" (9 * Hour); conversing "b" (3 * Hour); conversing "c" (5 * Hour)].

Definition two_pods : Project := zero_Project <| proj_MaxLivePods := 2 |>.

(** The one eviction goes through. *)
Definition evicts : Task -> option unit := fun _ => None.

(** A Task that was minted and has no stage yet. *)
Definition is_mint (proj : Project) (t : Task) : bool :=
  (ProjectRef (Spec t) == proj_Name proj) && (State (Status t) == "") && negb (Parked t)
  && negb (is_set (DeletionTimestamp t)).

Definition minted_now (name : string) : Task := zero_Task <| task_Name := name |>.

Definition nothing_attached : Artifacts := mkArtifacts (fun _ => Some []) (fun _ => Some []).

Definition parks (e : Effect) : bool := match e with CountParked _ _ => true | _ => false end.

(** What an exit says about how the conversation went on. *)
Definition ends (e : ExitEffect) : bool :=
  match e with CountedRecreation | CountedClosed _ => true | ParkEffect e => parks e | _ => false end.

(** [o] ends by saying [said] when it reports no error, and says nothing otherwise. *)
Definition says (o : Outcome) (said : list Effect) : Prop :=
  List.filter parks (o_effects o) = match o_err o with Some _ => [] | None => said end.

(** What the exit says, by the journal as it was read again after the stop. *)
Definition ending (w : ExitWorld) (m : bool) (task : Task) (cause : string) : list ExitEffect :=
  match ew_reload w with
  | None => []
  | Some fresh =>
      if HasAgentHandoffNote fresh then
        ((if Parked task then [] else map ParkEffect (TaskParked m (State (Status task)) ReasonAwaitingHuman))
         ++ if m then [CountedClosed cause] else [])%list
      else [CountedRecreation]
  end.

Definition stopped_world (fresh : Task) : ExitWorld :=
  let ok := [mkAttempt (Some fresh) UpdateOk] in
  mkExitWorld refusing ok (Some fresh) ok
    (mkWorld (fun _ => Some 1000) None [Found fresh] ok Deleted Deleted Deleted ok ok).

(** A conversation whose pod started after an earlier one's handoff. *)
Definition handed_off_before : Task :=
  on_status (conversing "a" Hour) (fun s =>
    s <| PodStartedAt := Some Hour |> <| Notes := [mkNote "" Minute "implement" NoteKindHandoff "done so far"] |>).

(** ** The order *)

Lemma str_compare_cons a s b t :
  String.compare (String a s) (String b t)
  = match Ascii.compare a b with Eq => String.compare s t | c => c end.
Proof. reflexivity. Qed.

Lemma str_compare_trans s t u :
  String.compare s t <> Gt -> String.compare t u <> Gt -> String.compare s u <> Gt.
Proof.
  revert t u. induction s as [|a s IH]; intros [|b t] [|c u]; try done.
  rewrite !str_compare_cons. unfold Ascii.compare.
  destruct (N.compare_spec (N_of_ascii a) (N_of_ascii b)), (N.compare_spec (N_of_ascii b) (N_of_ascii c)),
    (N.compare_spec (N_of_ascii a) (N_of_ascii c)); try done; try lia. apply IH.
Qed.

Lemma idle_leb_iff a b : idle_le a b <->
  conversationIdleSince a < conversationIdleSince b
  \/ (conversationIdleSince a = conversationIdleSince b
      /\ String.compare (task_Name a) (task_Name b) <> Gt).
Proof.
  unfold idle_le, idle_leb, Before.
  destruct (Z.eqb_spec (conversationIdleSince a) (conversationIdleSince b)) as [E|E]; cbn [negb].
  - rewrite E. destruct (String.compare _ _); split; intros H; try done; right + (destruct H as [H|[_ H]]); try done; lia.
  - rewrite Z.ltb_lt. lia.
Qed.

#[export] Instance idle_le_total : Total idle_le.
Proof.
  intros a b. rewrite !idle_leb_iff.
  destruct (Z.lt_trichotomy (conversationIdleSince a) (conversationIdleSince b)) as [H|[H|H]]; [by left; left| |by right; left].
  rewrite (String.compare_antisym (task_Name b)).
  destruct (String.compare (task_Name a) (task_Name b)); [by left; right|by left; right|right; by right].
Qed.

#[export] Instance idle_le_transitive : Transitive idle_le.
Proof.
  intros a b c. rewrite !idle_leb_iff. intros [H1|[H1 N1]] [H2|[H2 N2]]; [left; lia..|].
  right. split; [lia|]. by apply (str_compare_trans _ (task_Name b)).
Qed.

Lemma evictable_iff t :
  evictable t = true <-> TurnInFlight t = false /\ StateWorkStartedAt (Status t) <> None.
Proof.
  unfold evictable, conversationStarted. rewrite andb_true_iff, negb_true_iff.
  destruct (StateWorkStartedAt (Status t)); cbn; split; intros [H1 H2]; (split; [done|congruence]).
Qed.

Lemma evictionCandidates_In live t :
  In t (evictionCandidates live) <-> In t live /\ evictable t = true.
Proof.
  unfold evictionCandidates, sortByIdleThenName.
  rewrite <- !list_elem_of_In, merge_sort_Permutation, !list_elem_of_In. apply filter_In.
Qed.

Lemma evictionCandidates_sorted live : StronglySorted idle_le (evictionCandidates live).
Proof. apply StronglySorted_merge_sort; apply _. Qed.

Lemma filter_names_distinct (P : Task -> bool) k :
  NoDup (map task_Name k) -> NoDup (map task_Name (List.filter P k)).
Proof.
  induction k as [|x k IH]; [done|]. cbn. intros [Hx Hk]%NoDup_cons.
  destruct (P x); [|by apply IH]. cbn. apply NoDup_cons. split; [|by apply IH].
  intros Hin. apply Hx. apply list_elem_of_In in Hin. apply list_elem_of_In.
  apply in_map_iff in Hin as (y & Hy & Hin). apply filter_In in Hin as [Hin _].
  apply in_map_iff. by exists y.
Qed.

Lemma candidate_names_distinct proj l : NoDup (map task_Name l) ->
  NoDup (map task_Name (evictionCandidates (List.filter (counts_live proj) l))).
Proof.
  intros Hn. unfold evictionCandidates, sortByIdleThenName. rewrite merge_sort_Permutation.
  by do 2 apply filter_names_distinct.
Qed.

(** ** The backoff *)

Lemma backoff_step fuel i count d : i < count -> d < evictionFailureBackoffMax ->
  backoff_loop (S fuel) i count d = backoff_loop fuel (i + 1) count (i64 (d * 2)).
Proof.
  intros Hi Hd. cbn [backoff_loop]. replace (i <? count) with true by lia.
  by replace (evictionFailureBackoffMax <=? d) with false by lia.
Qed.

(** the backoff of a victim whose eviction keeps failing is thirty seconds doubled
    for every failure after the first, and never more than ten minutes. *)
Theorem evictionBackoffAfter_exact (count : Z) :
  evictionBackoffAfter count
  = Z.min evictionFailureBackoffMax (evictionFailureBackoffBase * 2 ^ Z.max 0 (count - 1)).
Proof.
  assert (forall fuel i d, 0 <= d -> evictionFailureBackoffMax <= d -> 0 < Z.of_nat fuel ->
    backoff_loop fuel i count d = evictionFailureBackoffMax) as Hcap.
  { intros [|fuel] i d H0 Hd Hf; [lia|]. cbn [backoff_loop].
    destruct (i <? count); [by replace (_ <=? d) with true by lia|].
    destruct (Z.ltb_spec evictionFailureBackoffMax d); lia. }
  unfold evictionBackoffAfter.
  destruct (Z.le_gt_cases 6 count) as [H6|H6].
  - assert (evictionFailureBackoffMax <= evictionFailureBackoffBase * 2 ^ Z.max 0 (count - 1)) as Hb.
    { transitivity (evictionFailureBackoffBase * 2 ^ 5); [by vm_compute|].
      apply Z.mul_le_mono_nonneg_l; [by vm_compute|]. apply Z.pow_le_mono_r; lia. }
    rewrite Z.min_l by done.
    rewrite !backoff_step by first [lia | by vm_compute].
    apply Hcap; [by vm_compute|by vm_compute|lia].
  - destruct (Z.le_gt_cases count 1) as [H1|H1].
    + cbn [backoff_loop]. replace (1 <? count) with false by lia.
      rewrite Z.max_l by lia. vm_compute. reflexivity.
    + assert (count = 2 \/ count = 3 \/ count = 4 \/ count = 5) as [-> | [-> | [-> | ->]]] by lia;
        vm_compute; reflexivity.
Qed.

(** ** One pass *)

Section PassLemmas.

Context {E : Type}.
Context (evictFn : Task -> option E).

Lemma successes_app k l : successes (k ++ l) = successes k + successes l.
Proof. unfold successes. rewrite List.filter_app, length_app. lia. Qed.

(** The pass stops after a prefix [done] of the candidates; it tries those of the prefix
    that are not backed off, in order, and no more than it wants. *)
Lemma attempt_evictions_spec f0 candidates want now (p : Pass E) :
  NoDup (map task_Name candidates) ->
  (forall c, In c candidates -> ps_failures p !! task_Name c = f0 !! task_Name c) ->
  let p' := attempt_evictions evictFn candidates want now p in
  exists done rest,
    candidates = (done ++ rest)%list
    /\ let l := map (outcome_of evictFn) (List.filter (fun c => negb (evictionBackedOff f0 c now)) done) in
       ps_tried p' = (ps_tried p ++ l)%list
       /\ ps_evicted p' = ps_evicted p + successes l
       /\ (ps_evicted p' <= Z.max want (ps_evicted p))
       /\ (rest <> [] -> want <= ps_evicted p').
Proof.
  revert p. induction candidates as [|c cs IH]; intros p Hn Hf; cbn [attempt_evictions].
  { exists [], []. cbn. rewrite app_nil_r. repeat split; try done; unfold successes; cbn; lia. }
  apply NoDup_cons in Hn as [Hc Hn].
  destruct (Z.leb_spec want (ps_evicted p)) as [Hw|Hw].
  { exists [], (c :: cs). cbn. rewrite app_nil_r. repeat split; try done; unfold successes; cbn; lia. }
  assert (evictionBackedOff (ps_failures p) c now = evictionBackedOff f0 c now) as Hb.
  { unfold evictionBackedOff. by rewrite (Hf c) by by left. }
  assert (forall e x, In x cs ->
            (<[task_Name c := e]> (ps_failures p)) !! task_Name x = f0 !! task_Name x
            /\ delete (task_Name c) (ps_failures p) !! task_Name x = f0 !! task_Name x) as Hother.
  { intros e x Hx. assert (task_Name c <> task_Name x) as Hne.
    { intros Heq. apply Hc. rewrite Heq. apply list_elem_of_In. by apply in_map. }
    split; rewrite <- (Hf x) by (by right); [by apply lookup_insert_ne|by apply lookup_delete_ne]. }
  rewrite Hb. destruct (evictionBackedOff f0 c now) eqn:Eb.
  - match goal with |- context [attempt_evictions evictFn cs want now ?q] =>
      destruct (IH q Hn) as (d & r & -> & Ht & He & Hm & Hr) end; [intros x Hx; apply Hf; by right|].
    exists (c :: d), r. cbn [List.filter]. rewrite Eb. cbn [negb] in *. done.
  - destruct (evictFn c) as [err|] eqn:Ee.
    + match goal with |- context [attempt_evictions evictFn cs want now ?q] =>
        destruct (IH q Hn) as (d & r & -> & Ht & He & Hm & Hr) end; [intros x Hx; exact (proj1 (Hother _ x Hx))|].
      exists (c :: d), r. cbn [List.filter]. rewrite Eb. cbn [negb map]. cbn [ps_tried ps_evicted] in *.
      assert (outcome_of evictFn c = (c, false)) as -> by (unfold outcome_of; by rewrite Ee).
      split; [done|]. split; [by rewrite Ht, <- app_assoc|].
      change ((c, false) :: map (outcome_of evictFn) ?k) with ([(c, false)] ++ map (outcome_of evictFn) k)%list.
      rewrite successes_app. change (successes [(c, false)]) with 0. split; [lia|]. split; [lia|done].
    + match goal with |- context [attempt_evictions evictFn cs want now ?q] =>
        destruct (IH q Hn) as (d & r & -> & Ht & He & Hm & Hr) end; [intros x Hx; exact (proj2 (Hother (mkEvictionFailure 0 0) x Hx))|].
      exists (c :: d), r. cbn [List.filter]. rewrite Eb. cbn [negb map]. cbn [ps_tried ps_evicted] in *.
      assert (outcome_of evictFn c = (c, true)) as -> by (unfold outcome_of; by rewrite Ee).
      split; [done|]. split; [by rewrite Ht, <- app_assoc|].
      change ((c, true) :: map (outcome_of evictFn) ?k) with ([(c, true)] ++ map (outcome_of evictFn) k)%list.
      rewrite successes_app. change (successes [(c, true)]) with 1. split; [lia|]. split; [lia|done].
Qed.

Lemma two_successes l a b : a <> b -> In (a, true) l -> In (b, true) l -> 2 <= successes l.
Proof.
  intros Hne Ha Hb. unfold successes.
  assert (NoDup [(a, true); (b, true)]) as Hnd.
  { apply NoDup_cons. split; [|apply NoDup_singleton]. rewrite list_elem_of_singleton. congruence. }
  assert ((List.length [(a, true); (b, true)] <= List.length (List.filter snd l))%nat) as H2; [|cbn in H2; lia].
  apply NoDup_incl_length; [by apply NoDup_ListNoDup|]. intros x [<-|[<-|[]]]; by apply filter_In.
Qed.

(** The attempts over the sorted candidates, of which one may go through. *)
Lemma attempt_victims live f want now :
  NoDup (map task_Name (evictionCandidates live)) -> 0 <= want <= 1 ->
  let tl := ps_tried (attemptEvictions evictFn f (evictionCandidates live) want now) in
  successes tl <= want
  /\ (forall t b, In (t, b) tl -> In t (evictionCandidates live)
        /\ evictionBackedOff f t now = false /\ b = negb (is_set (evictFn t)))
  /\ (forall t c, In (t, true) tl -> In c (evictionCandidates live) -> idle_leb t c = false ->
        In (c, false) tl \/ evictionBackedOff f c now = true).
Proof.
  intros Hncs Hw. unfold attemptEvictions.
  destruct (attempt_evictions_spec f (evictionCandidates live) want now (mkPass f [] 0 0 None) Hncs ltac:(done))
    as (d & rest & Hcs & Ht & Hev & Hmax & Hrest).
  cbn [ps_tried ps_evicted app] in *. rewrite Ht.
  set (tl := map (outcome_of evictFn) _) in *. rewrite Z.add_0_l in Hev.
  assert (forall t b, In (t, b) tl <-> In t d /\ evictionBackedOff f t now = false /\ b = negb (is_set (evictFn t))) as Hin.
  { intros t b. unfold tl, outcome_of. rewrite in_map_iff. split.
    - intros (x & [= -> <-] & Hx). apply filter_In in Hx as [Hx Hb]. by apply negb_true_iff in Hb.
    - intros (Hx & Hb & ->). exists t. split; [done|]. apply filter_In. by rewrite Hb. }
  split; [lia|]. split.
  { intros t b (Hx & Hb & ->)%Hin. split; [|done]. rewrite Hcs. apply in_or_app. by left. }
  intros t c Htin Hccs Hlt. destruct (proj1 (Hin _ _) Htin) as (Htd & _ & Htt).
  destruct (evictionBackedOff f c now) eqn:Eb; [by right|left]. apply Hin.
  assert (In c d) as Hcd.
  { pose proof (evictionCandidates_sorted live) as Hs. rewrite Hcs in Hccs, Hs.
    apply in_app_or in Hccs as [?|Hcr]; [done|]. exfalso.
    apply StronglySorted_app in Hs as (Hs & _ & _). specialize (Hs t c).
    rewrite !list_elem_of_In in Hs. specialize (Hs Htd Hcr). unfold idle_le in Hs. congruence. }
  split; [done|]. split; [done|].
  destruct (evictFn c) as [e|] eqn:Ee; [done|]. exfalso.
  assert (In (c, true) tl) as Hct by (apply Hin; repeat split; [done|done|by rewrite Ee]).
  assert (t <> c) as Hne by (intros ->; pose proof (idle_le_total c c) as [H|H]; unfold idle_le in H; congruence).
  pose proof (two_successes tl t c Hne Htin Hct). lia.
Qed.

(** a pass over a project evicts only above the ceiling, one conversation at most and
    never below it; whatever it so much as tries is a live conversation of the project
    that has started, is between turns and is not serving a backoff; and it takes the
    longest idle first: one that has been idle longer than a victim was tried before it
    and failed, or is serving a backoff. *)
Theorem ceiling_pass_victims (proj : Project) (l : list Task) (f f' : Failures) (now : Time)
    (r : result CeilingError Duration) (tried : list (Task * bool)) :
  NoDup (map task_Name l) ->
  enforceLivePodCeiling evictFn proj (Some l) true f now = (r, f', tried) ->
  successes tried <= 1
  /\ (tried <> [] -> MaxLivePods (Some proj)
                     <= Z.of_nat (List.length (List.filter (counts_live proj) l)) - successes tried)
  /\ (forall t b, In (t, b) tried ->
        In t l /\ counts_live proj t = true /\ TurnInFlight t = false /\ StateWorkStartedAt (Status t) <> None
        /\ evictionBackedOff f t now = false /\ b = negb (is_set (evictFn t)))
  /\ (forall t c, In (t, true) tried -> In c l -> counts_live proj c = true ->
        TurnInFlight c = false -> StateWorkStartedAt (Status c) <> None ->
        idle_leb t c = false -> In (c, false) tried \/ evictionBackedOff f c now = true).
Proof.
  intros Hn. unfold enforceLivePodCeiling. cbn [countLive].
  set (live := List.filter (counts_live proj) l).
  destruct (Z.leb_spec (Z.of_nat (List.length live)) (MaxLivePods (Some proj))) as [Hle|Hgt];
    [intros [= _ _ <-]; repeat split; try done; by vm_compute|]. cbn [negb].
  set (desired := if Z.of_nat (List.length (evictionCandidates live)) <? _ then _ else _).
  set (evict := if maxLivePodEvictionsPerPass <? desired then _ else _).
  assert (0 <= desired <= Z.of_nat (List.length live) - MaxLivePods (Some proj)) as Hd.
  { subst desired. match goal with |- context [if ?a <? ?b then _ else _] => destruct (Z.ltb_spec a b) end; lia. }
  assert (evict <= 1 /\ 0 <= evict <= desired) as He.
  { subst evict. unfold maxLivePodEvictionsPerPass. destruct (Z.ltb_spec 1 desired); lia. }
  clearbody desired evict.
  destruct (evict =? 0); [intros [= _ _ <-]; repeat split; try done; by vm_compute|].
  intros [= _ _ <-].
  destruct (attempt_victims live f evict now (candidate_names_distinct proj l Hn) ltac:(lia)) as (Hs & Hin & Hord).
  split; [lia|]. split; [intros _; lia|]. split.
  - intros t b (Hc & Hb & ->)%Hin. apply evictionCandidates_In in Hc as [Hc He'].
    apply filter_In in Hc as [? ?]. by apply evictable_iff in He' as [? ?].
  - intros t c Ht Hc Hlive Hturn Hst Hlt. apply (Hord t c Ht); [|done].
    apply evictionCandidates_In. split; [by apply filter_In|by apply evictable_iff].
Qed.


End PassLemmas.

(** where conversations that may be evicted are still over the ceiling after a pass
    that reported no error, the pass asks to be run again after a positive time; it
    asks for nothing exactly when none is left. *)
Theorem ceiling_pass_comes_back {E} (evictFn : Task -> option E) (proj : Project) (l : list Task)
    (f f' : Failures) (now d : Time) (tried : list (Task * bool)) :
  NoDup (map task_Name l) ->
  enforceLivePodCeiling evictFn proj (Some l) true f now = (Ok d, f', tried) ->
  0 <= d
  /\ (0 < d <-> successes tried
               < Z.min (Z.of_nat (List.length (List.filter evictable (List.filter (counts_live proj) l))))
                       (Z.of_nat (List.length (List.filter (counts_live proj) l)) - MaxLivePods (Some proj))).
Proof.
  intros Hn. unfold enforceLivePodCeiling. cbn [countLive].
  set (live := List.filter (counts_live proj) l).
  assert (List.length (evictionCandidates live) = List.length (List.filter evictable live)) as Hlen.
  { unfold evictionCandidates, sortByIdleThenName. by rewrite merge_sort_Permutation. }
  rewrite Hlen. set (c := Z.of_nat (List.length (List.filter evictable live))).
  assert (0 <= c) as Hc0 by (subst c; lia).
  destruct (Z.leb_spec (Z.of_nat (List.length live)) (MaxLivePods (Some proj))) as [Hle|Hgt].
  { intros [= <- _ <-]. change (successes []) with 0. split; [lia|]. lia. }
  cbn [negb]. set (over := Z.of_nat (List.length live) - MaxLivePods (Some proj)) in *.
  replace (if c <? over then c else over) with (Z.min c over) by (destruct (Z.ltb_spec c over); lia).
  replace (if maxLivePodEvictionsPerPass <? Z.min c over then maxLivePodEvictionsPerPass else Z.min c over)
    with (Z.min 1 (Z.min c over)) by (unfold maxLivePodEvictionsPerPass; destruct (Z.ltb_spec 1 (Z.min c over)); lia).
  destruct (Z.eqb_spec (Z.min 1 (Z.min c over)) 0) as [H0|H0].
  { intros [= <- _ <-]. change (successes []) with 0. lia. }
  unfold attemptEvictions.
  set (p := attempt_evictions evictFn (evictionCandidates live) (Z.min 1 (Z.min c over)) now (mkPass f [] 0 0 None)).
  assert (ps_evicted p = successes (ps_tried p)) as Hp.
  { destruct (attempt_evictions_spec evictFn f (evictionCandidates live) (Z.min 1 (Z.min c over)) now
        (mkPass f [] 0 0 None) (candidate_names_distinct proj l Hn) ltac:(done))
      as (dn & rest & _ & Ht & Hev & _). fold p in Ht, Hev. by rewrite Ht, Hev. }
  destruct (ps_error p); [done|]. intros [= <- _ <-]. rewrite <- Hp.
  assert (0 < livePodEvictionRequeue) by (by vm_compute).
  destruct (Z.ltb_spec (ps_evicted p) (Z.min c over)) as [Hlt|Hge]; [|lia].
  destruct (_ && _); [|lia]. destruct (Z.ltb_spec 0 (Sub (ps_earliest p) now)); lia.
Qed.

Lemma ceiling_pass_victims_witness :
  exists t, (enforceLivePodCeiling evicts two_pods (Some crowded) true ∅ (20 * Hour)).2 = [(t, true)]
    /\ task_Name t = "b"%string /\ In t crowded /\ TurnInFlight t = false.
Proof.
  destruct (enforceLivePodCeiling evicts two_pods (Some crowded) true ∅ (20 * Hour)) as [[r f'] tried] eqn:E.
  assert (tried = [(conversing "b" (3 * Hour), true)]) as Ht by (vm_compute in E |- *; congruence).
  exists (conversing "b" (3 * Hour)). split; [done|]. split; [done|].
  assert (NoDup (map task_Name crowded)) as Hn
    by (apply NoDup_ListNoDup; vm_compute; repeat constructor; cbn; intuition discriminate).
  pose proof (ceiling_pass_victims evicts two_pods crowded ∅ f' (20 * Hour) r tried Hn E) as H.
  destruct (proj1 (proj2 (proj2 H)) (conversing "b" (3 * Hour)) true) as (? & _ & ? & _); [|done].
  rewrite Ht. by left.
Defined.

Lemma ceiling_pass_comes_back_witness :
  exists f' tried,
    enforceLivePodCeiling evicts (two_pods <| proj_MaxLivePods := 1 |>) (Some crowded) true ∅ (20 * Hour)
      = (Ok livePodEvictionRequeue, f', tried) /\ 0 < livePodEvictionRequeue /\ successes tried = 1.
Proof.
  set (p := enforceLivePodCeiling evicts (two_pods <| proj_MaxLivePods := 1 |>) (Some crowded) true ∅ (20 * Hour)).
  assert (p.1.1 = Ok livePodEvictionRequeue) as Hr by (vm_compute; reflexivity).
  assert (successes p.2 = 1) as Ht by (vm_compute; reflexivity).
  destruct p as [[r f'] tried] eqn:E. cbn [fst snd] in Hr, Ht. subst r.
  exists f', tried. split; [done|]. split; [|done].
  refine (proj2 (proj2 (ceiling_pass_comes_back evicts _ crowded ∅ f' (20 * Hour) _ tried _ E)) _).
  - apply NoDup_ListNoDup. vm_compute. repeat constructor; cbn; intuition discriminate.
  - rewrite Ht. by vm_compute.
Defined.

(** ** The mint budget *)

Lemma tally_app_mints art wall proj n now ms acc :
  Forall (fun t => is_mint proj t = true) ms ->
  fold_left (tally art wall proj n now) ms (Some acc)
  = Some (acc.1.1, acc.1.2 + Z.of_nat (List.length ms), acc.2).
Proof.
  intros H. revert acc. induction H as [|t ms Ht _ IH]; intros [[a b] c].
  { cbn [fold_left fst snd List.length Z.of_nat]. by rewrite Z.add_0_r. }
  unfold is_mint in Ht. repeat rewrite andb_true_iff in Ht. destruct Ht as [[[Hp Hs] Hk] Hd].
  apply negb_true_iff in Hk, Hd. cbn [fold_left tally]. rewrite Hp, Hd, Hk. cbn [negb orb].
  assert (State (Status t) = ""%string) as Es by (by apply String.eqb_eq). rewrite Es.
  change (Live "") with false. change (preLive "") with true. cbv iota. rewrite IH.
  cbn [fst snd List.length]. f_equal. f_equal. f_equal. lia.
Qed.

Lemma active_tasks_mints proj l ms :
  Forall (fun t => is_mint proj t = true) ms -> active_tasks proj (l ++ ms) = active_tasks proj l.
Proof.
  intros H. unfold active_tasks. rewrite List.filter_app, length_app.
  enough (List.filter (fun t => (ProjectRef (Spec t) == proj_Name proj) && StageActive t) ms = []) as ->
    by (cbn [List.length]; lia).
  induction H as [|t ms Ht _ IH]; [done|]. cbn [List.filter].
  unfold is_mint in Ht. repeat rewrite andb_true_iff in Ht. destruct Ht as [[[_ Hs] _] _].
  unfold StageActive. rewrite Hs, andb_false_r. apply IH.
Qed.

(** reading the mint budget again after [ms] new Tasks were created gives it less
    exactly their number, as the pass that created them counts in memory: the Tasks that
    wait for their first stage are charged before they hold a pod. *)
Theorem mints_spend_the_budget (art : Artifacts) (wall : Time) (proj : Project) (l ms : list Task)
    (now : Time) (b : Z) :
  liveMintBudget art wall proj (Some l) now = Some b ->
  Forall (fun t => is_mint proj t = true) ms ->
  liveMintBudget art wall proj (Some (l ++ ms)%list) now = Some (b - Z.of_nat (List.length ms)).
Proof.
  intros Hb Hm. unfold liveMintBudget, populations in *.
  rewrite (active_tasks_mints proj l ms Hm), fold_left_app.
  destruct (fold_left _ l _) as [[[x y] z]|]; [|done]. rewrite tally_app_mints by done.
  injection Hb as <-. cbn [fst snd]. f_equal. lia.
Qed.

Lemma mints_spend_the_budget_witness :
  liveMintBudget nothing_attached 0 two_pods (Some [minted_now "x"]) Hour = Some 1.
Proof.
  refine (mints_spend_the_budget nothing_attached 0 two_pods [] [minted_now "x"] Hour 2 _ _).
  - vm_compute. reflexivity.
  - repeat constructor.
Defined.

(** ** How a conversation ends *)

Lemma writes_park_nothing {A B} (l : list A) (g : A -> B) (p : B -> bool) :
  (forall a, p (g a) = false) -> List.filter p (map g l) = [].
Proof. intros H. induction l as [|a l IH]; [done|]. cbn. by rewrite H. Qed.

Lemma ends_of_parks l : List.filter ends (map ParkEffect l) = map ParkEffect (List.filter parks l).
Proof. induction l as [|e l IH]; [done|]. cbn. destruct (parks e); cbn; by rewrite IH. Qed.

Lemma annotations_park_nothing task mutate l :
  List.filter parks (o_effects (patchTaskAnnotations task mutate l)) = [].
Proof.
  unfold patchTaskAnnotations. induction (firstn 5 l) as [|[[f|] ans] l' IH]; [done| |done]. cbn.
  destruct (mutate f); [|done]. by destruct ans.
Qed.

Lemma andThen_says o k said : says o [] -> (forall t, says (k t) said) -> says (andThen o k) said.
Proof.
  unfold says, andThen. intros Ho Hk. destruct (o_err o) eqn:E; [by rewrite E|].
  cbn [after_effects o_effects o_err]. by rewrite List.filter_app, Ho, Hk.
Qed.

Lemma annotations_say task mutate l : says (patchTaskAnnotations task mutate l) [].
Proof. unfold says. rewrite annotations_park_nothing. by destruct (o_err _). Qed.

(** A park is counted when it went through, and only then. *)
Lemma ParkTask_counts w m task reason now mutate :
  says (ParkTask w m task reason now mutate)
    (if Parked task then [] else TaskParked m (State (Status task)) reason).
Proof.
  unfold says, ParkTask. destruct (negb (IsParkReason reason)); [done|].
  destruct (Parked task); [done|]. destruct (FitTask _ _ _ _ _ _) as [r fit].
  assert (List.filter parks (map Fit fit) = []) as Hfit by (by apply writes_park_nothing).
  cbn [after_effects o_err o_effects]. rewrite List.filter_app, Hfit. cbn [app].
  destruct r; [|done]. destruct (captured _ _); [done|].
  destruct (parkClosure reason now mutate task) as [task' [e|]]; [done|].
  destruct (DeleteWrapper w) as [ok es] eqn:Ed.
  assert (List.filter parks es = []) as Hes.
  { unfold DeleteWrapper in Ed. destruct (delete_failed _); [by injection Ed as _ <-|].
    destruct (delete_failed _); by injection Ed as _ <-. }
  destruct ok; cbn [negb]; [|done]. cbn [after_effects o_err o_effects].
  rewrite List.filter_app, Hes. apply andThen_says; [apply annotations_say|]. intros t1.
  apply andThen_says; [apply annotations_say|]. intros t2. unfold says, TaskParked. by destruct m.
Qed.

Lemma exit_after_stop_ends w m task cause now err es :
  exit_after_stop w m task cause now = (err, es) ->
  List.filter ends es = match err with
                        | None => ending w m task cause
                        | Some TurnClearFailed => [CountedRecreation]
                        | Some _ => []
                        end.
Proof.
  unfold exit_after_stop, ending. destruct (ew_reload w) as [fresh|]; [|by intros [= <- <-]].
  destruct (HasAgentHandoffNote fresh); cbn [negb].
  - set (o := ParkTask _ _ _ _ _ _).
    pose proof (ParkTask_counts (ew_park w) m task ReasonAwaitingHuman now None) as Hp. fold o in Hp.
    unfold says in Hp. destruct (o_err o); intros [= <- <-].
    + by rewrite ends_of_parks, Hp.
    + rewrite List.filter_app, ends_of_parks, Hp. destruct (Parked task); by destruct m.
  - unfold reArmWithoutHandoff. set (r := patchStatus _ _). destruct (patch_error r); [by intros [= <- <-]|].
    intros [= <- <-]. rewrite List.filter_app, (writes_park_nothing (patch_written r)) by done.
    cbn [app List.filter ends]. rewrite ends_of_parks.
    unfold clearTurnAnnotations. rewrite annotations_park_nothing. by destruct (o_err _).
Qed.

Lemma conversation_end (w : ExitWorld) (m : bool) (poll : Duration) (proj : Project)
    (task : Task) (cause : string) (now : Time) (err : option ExitError) (es : list ExitEffect) :
  liveHandoffAndPark w m poll proj task cause now = (err, es) ->
  List.filter ends es
  = match err with
    | None =>
        ending w m
          (match PodStartedAt (Status task) with
           | None => task
           | Some _ => patch_copy task (patchStatus (fun fresh => Some (clearLastTurn fresh)) (ew_retire w))
           end) cause
    | Some TurnClearFailed => [CountedRecreation]
    | Some _ => []
    end.
Proof.
  unfold liveHandoffAndPark. destruct (PodStartedAt (Status task)); [|apply exit_after_stop_ends].
  destruct (StopWithHandoff _ _ _) as [r stops].
  destruct r; [|intros [= <- <-]; by apply writes_park_nothing].
  set (p := patchStatus _ _). destruct (patch_error p); [intros [= <- <-]; by apply writes_park_nothing|].
  destruct (exit_after_stop _ _ _ _ _) as [err' es'] eqn:E. intros [= <- <-].
  apply exit_after_stop_ends in E.
  by rewrite !List.filter_app, !writes_park_nothing, E by done.
Qed.

(** a conversation is closed only on the agent's own handoff: whether the Task, read
    again after the pod was stopped, holds one decides between the park for a person and
    the count of a closed conversation on one side and a re-armed clock for a replacement
    pod on the other; never both, and neither where anything failed on the way. *)
Theorem conversation_ends_once (w : ExitWorld) (m : bool) (poll : Duration) (proj : Project)
    (task : Task) (cause : string) (now : Time) (err : option ExitError) (es : list ExitEffect) :
  liveHandoffAndPark w m poll proj task cause now = (err, es) ->
  List.filter ends es
  = match err with
    | None =>
        ending w m
          (match PodStartedAt (Status task) with
           | None => task
           | Some _ => patch_copy task (patchStatus (fun fresh => Some (clearLastTurn fresh)) (ew_retire w))
           end) cause
    | Some TurnClearFailed => [CountedRecreation]
    | Some _ => []
    end.
Proof. apply conversation_end. Qed.

Lemma conversation_ends_once_witness :
  let t := conversing "a" Hour in
  List.filter ends (liveHandoffAndPark (stopped_world t) true TTLPollInterval zero_Project t causeIdle (2 * Hour)).2
  = [CountedRecreation].
Proof.
  intros t. destruct (liveHandoffAndPark _ _ _ _ _ _ _) as [err es] eqn:E.
  assert (err = None) as -> by (change err with (fst (err, es)); rewrite <- E; vm_compute; reflexivity).
  cbn [snd]. rewrite (conversation_ends_once (stopped_world t) true TTLPollInterval zero_Project t causeIdle
    (2 * Hour) None es E). vm_compute. reflexivity.
Defined.

(** The handoff that is looked for is any one of the Task's whole journal: where an earlier
    pod left one, a pod that ended without any of its own closes the conversation all the
    same. *)
Theorem earlier_handoff_closes (w : ExitWorld) (poll : Duration) (proj : Project) (task fresh : Task)
    (cause : string) (now started : Time) (es : list ExitEffect) :
  PodStartedAt (Status task) = Some started ->
  ew_reload w = Some fresh ->
  HasAgentHandoffNoteSince fresh started = false -> HasAgentHandoffNote fresh = true ->
  liveHandoffAndPark w true poll proj task cause now = (None, es) ->
  In (CountedClosed cause) es /\ ~ In CountedRecreation es.
Proof.
  intros Hp Hr _ Hh H. apply conversation_end in H. rewrite Hp in H. unfold ending in H. rewrite Hr, Hh in H.
  split.
  - apply (filter_In ends). rewrite H. apply in_or_app. right. by left.
  - intros Hin. assert (In CountedRecreation (List.filter ends es)) as Hf by (by apply filter_In).
    rewrite H in Hf. apply in_app_or in Hf as [Hf|[Hf|[]]]; [|done].
    destruct (Parked _); [done|]. unfold TaskParked in Hf. cbn in Hf. by destruct Hf.
Qed.

Lemma earlier_handoff_closes_witness :
  In (CountedClosed causeIdle)
     (liveHandoffAndPark (stopped_world handed_off_before) true TTLPollInterval zero_Project handed_off_before
        causeIdle (2 * Hour)).2.
Proof.
  destruct (liveHandoffAndPark (stopped_world handed_off_before) true TTLPollInterval zero_Project handed_off_before
              causeIdle (2 * Hour)) as [err es] eqn:E.
  assert (err = None) as -> by (change err with (fst (err, es)); rewrite <- E; vm_compute; reflexivity).
  exact (proj1 (earlier_handoff_closes (stopped_world handed_off_before) TTLPollInterval zero_Project
    handed_off_before handed_off_before causeIdle (2 * Hour) Hour es eq_refl eq_refl eq_refl eq_refl E)).
Defined.
