(* ===== verification/Queue.v ===== *)
(** * The admission queue's events (api/v1alpha1/queuedevent_types.go,
    internal/queue/enqueue.go): what a queued event is, how it is deduplicated and
    enqueued, and the Task it mints. *)

From stdpp Require Import relations.
From Stdlib Require Import String Ascii.
From S2P Require Import Prelude GoTime Text Limits Api Vocabulary ObjBudget Seq Names.

Open Scope Z_scope.
Open Scope go_scope.

(** ** Data *)

Definition QueueClassNormal : string := "normal".
Definition QueueClassAlert : string := "alert".
Definition QueueStateQueued : string := "Queued".
Definition QueueStateAdmitted : string := "Admitted".
Definition QueueStateDone : string := "Done".

(** A Task to mint, spelled out. *)
Record QueuedTaskBlueprint := mkQueuedTaskBlueprint {
  bp_Name : string;
  bp_Kind : string;
  bp_Goal : string;
  bp_ProjectRef : string;
  bp_RepositoryRef : string;
  bp_IssueKeys : list string;
  bp_AlertRules : list string;
  bp_Labels : gmap string string;
  bp_Annotations : option (gmap string string)
}.

(** A dependency-upgrade merge request to adopt. *)
Record AdoptedUpgradeRef := mkAdoptedUpgradeRef {
  au_Number : Z;
  au_Title : string;
  au_Author : string;
  au_HeadSHA : string;
  au_HeadBranch : string;
  au_Body : string;
  au_Labels : list string;
  au_Repo : string;
  au_HeadRepo : string
}.

Record QueuedEventPayload := mkQueuedEventPayload {
  p_Goal : string;
  p_Kind : string;
  p_RepositoryRef : string;
  p_Source : option TaskSource;
  p_Labels : gmap string string;
  p_Annotations : gmap string string;
  p_GenerateName : string;
  p_Name : string;
  p_Provider : string;
  p_PodRepo : string;
  p_InitialState : string;
  p_AlertRule : string;
  p_DedupKey : string;
  p_GroupKey : string;
  p_AgentKind : string;
  p_TaskRef : string;
  p_NewTask : option QueuedTaskBlueprint;
  p_AdoptedUpgrade : option AdoptedUpgradeRef
}.

Record QueuedEventSpec := mkQueuedEventSpec {
  qs_Seq : Z;
  qs_Class : string;
  qs_Kind : string;
  qs_Autonomous : bool;
  qs_ProjectRef : string;
  qs_RepositoryRef : string;
  qs_DedupKey : string;
  qs_Payload : QueuedEventPayload;
  qs_Priority : option Z
}.

Record QueuedEventStatus := mkQueuedEventStatus {
  qst_State : string;
  qst_TaskRef : string;
  qst_AdmittedAt : option Time
}.

(** A QueuedEvent object with the metadata the program reads. *)
Record QueuedEvent := mkQueuedEvent {
  qe_Name : string;
  qe_GenerateName : string;
  qe_UID : string;
  qe_Labels : gmap string string;
  qe_CreationTimestamp : Time;
  qe_Spec : QueuedEventSpec;
  qe_Status : QueuedEventStatus
}.

Definition eta_QueuedTaskBlueprint (x : QueuedTaskBlueprint) : QueuedTaskBlueprint :=
  mkQueuedTaskBlueprint (bp_Name x) (bp_Kind x) (bp_Goal x) (bp_ProjectRef x) (bp_RepositoryRef x)
    (bp_IssueKeys x) (bp_AlertRules x) (bp_Labels x) (bp_Annotations x).

#[export] Instance set_bp_Goal : Settable bp_Goal := ltac:(setter_of bp_Goal eta_QueuedTaskBlueprint).

Definition eta_QueuedEventPayload (x : QueuedEventPayload) : QueuedEventPayload :=
  mkQueuedEventPayload (p_Goal x) (p_Kind x) (p_RepositoryRef x) (p_Source x) (p_Labels x)
    (p_Annotations x) (p_GenerateName x) (p_Name x) (p_Provider x) (p_PodRepo x)
    (p_InitialState x) (p_AlertRule x) (p_DedupKey x) (p_GroupKey x) (p_AgentKind x)
    (p_TaskRef x) (p_NewTask x) (p_AdoptedUpgrade x).

#[export] Instance set_p_Goal : Settable p_Goal := ltac:(setter_of p_Goal eta_QueuedEventPayload).
#[export] Instance set_p_Kind : Settable p_Kind := ltac:(setter_of p_Kind eta_QueuedEventPayload).
#[export] Instance set_p_Labels : Settable p_Labels := ltac:(setter_of p_Labels eta_QueuedEventPayload).
#[export] Instance set_p_AgentKind : Settable p_AgentKind := ltac:(setter_of p_AgentKind eta_QueuedEventPayload).
#[export] Instance set_p_TaskRef : Settable p_TaskRef := ltac:(setter_of p_TaskRef eta_QueuedEventPayload).
#[export] Instance set_p_NewTask : Settable p_NewTask := ltac:(setter_of p_NewTask eta_QueuedEventPayload).
#[export] Instance set_p_AdoptedUpgrade : Settable p_AdoptedUpgrade :=
  ltac:(setter_of p_AdoptedUpgrade eta_QueuedEventPayload).

Definition eta_QueuedEventSpec (x : QueuedEventSpec) : QueuedEventSpec :=
  mkQueuedEventSpec (qs_Seq x) (qs_Class x) (qs_Kind x) (qs_Autonomous x) (qs_ProjectRef x)
    (qs_RepositoryRef x) (qs_DedupKey x) (qs_Payload x) (qs_Priority x).

#[export] Instance set_qs_Seq : Settable qs_Seq := ltac:(setter_of qs_Seq eta_QueuedEventSpec).
#[export] Instance set_qs_Class : Settable qs_Class := ltac:(setter_of qs_Class eta_QueuedEventSpec).
#[export] Instance set_qs_Kind : Settable qs_Kind := ltac:(setter_of qs_Kind eta_QueuedEventSpec).
#[export] Instance set_qs_ProjectRef : Settable qs_ProjectRef := ltac:(setter_of qs_ProjectRef eta_QueuedEventSpec).
#[export] Instance set_qs_DedupKey : Settable qs_DedupKey := ltac:(setter_of qs_DedupKey eta_QueuedEventSpec).
#[export] Instance set_qs_Payload : Settable qs_Payload := ltac:(setter_of qs_Payload eta_QueuedEventSpec).
#[export] Instance set_qs_Priority : Settable qs_Priority := ltac:(setter_of qs_Priority eta_QueuedEventSpec).

Definition eta_QueuedEventStatus (x : QueuedEventStatus) : QueuedEventStatus :=
  mkQueuedEventStatus (qst_State x) (qst_TaskRef x) (qst_AdmittedAt x).

#[export] Instance set_qst_State : Settable qst_State := ltac:(setter_of qst_State eta_QueuedEventStatus).
#[export] Instance set_qst_TaskRef : Settable qst_TaskRef := ltac:(setter_of qst_TaskRef eta_QueuedEventStatus).
#[export] Instance set_qst_AdmittedAt : Settable qst_AdmittedAt :=
  ltac:(setter_of qst_AdmittedAt eta_QueuedEventStatus).

Definition eta_QueuedEvent (x : QueuedEvent) : QueuedEvent :=
  mkQueuedEvent (qe_Name x) (qe_GenerateName x) (qe_UID x) (qe_Labels x) (qe_CreationTimestamp x)
    (qe_Spec x) (qe_Status x).

#[export] Instance set_qe_Name : Settable qe_Name := ltac:(setter_of qe_Name eta_QueuedEvent).
#[export] Instance set_qe_UID : Settable qe_UID := ltac:(setter_of qe_UID eta_QueuedEvent).
#[export] Instance set_qe_CreationTimestamp : Settable qe_CreationTimestamp :=
  ltac:(setter_of qe_CreationTimestamp eta_QueuedEvent).
#[export] Instance set_qe_Spec : Settable qe_Spec := ltac:(setter_of qe_Spec eta_QueuedEvent).
#[export] Instance set_qe_Status : Settable qe_Status := ltac:(setter_of qe_Status eta_QueuedEvent).

Definition zero_QueuedEventPayload : QueuedEventPayload :=
  mkQueuedEventPayload "" "" "" None ∅ ∅ "" "" "" "" "" "" "" "" "" "" None None.

Definition zero_QueuedEvent : QueuedEvent :=
  mkQueuedEvent "" "" "" ∅ 0
    (mkQueuedEventSpec 0 "" "" false "" "" "" zero_QueuedEventPayload None)
    (mkQueuedEventStatus "" "" None).

(** ** The specification's validation *)

Definition validAgentKinds : list (string * bool) :=
  [("brainstorm", true); ("incident", true); ("refine", true); ("review", true);
   ("documentation", true); ("implement", true); ("upgrade", true)]%string.

Definition EffectiveQueuePriority (spec : QueuedEventSpec) : Z :=
  match qs_Priority spec with Some p => p | None => 2 end.

Inductive QueuedEventSpecError :=
  | SeqNotPositive
  | InvalidClass (class : string)
  | ProjectRefRequired
  | InvalidKind (kind : string)
  | ProjectScoped (kind : string)
  | RepoScoped (kind : string)
  | InvalidAgentKind (kind : string)
  | OneOfTaskRefNewTask
  | GoalTooLong
  | AdoptedExclusive
  | AdoptedNumber
  | AdoptedNeedsRepository.

(** The checks of an agent kind, and of an adopted upgrade. *)
Definition validate_agent_kind (p : QueuedEventPayload) : option QueuedEventSpecError :=
  if p_AgentKind p == "" then None
  else if negb (in_set validAgentKinds (p_AgentKind p)) then Some (InvalidAgentKind (p_AgentKind p))
  else if Bool.eqb (p_TaskRef p != "") (is_set (p_NewTask p)) then Some OneOfTaskRefNewTask
  else match p_NewTask p with
       | Some bp => if 16384 <? strlen (bp_Goal bp) then Some GoalTooLong else None
       | None => None
       end.

Definition validate_adopted (spec : QueuedEventSpec) : option QueuedEventSpecError :=
  let p := qs_Payload spec in
  match p_AdoptedUpgrade p with
  | None => None
  | Some a =>
      if (p_AgentKind p != "") || (p_TaskRef p != "") || is_set (p_NewTask p) then Some AdoptedExclusive
      else if au_Number a <=? 0 then Some AdoptedNumber
      else if qs_RepositoryRef spec == "" then Some AdoptedNeedsRepository
      else None
  end.

Definition ValidateQueuedEventSpec (spec : QueuedEventSpec) : option QueuedEventSpecError :=
  let kind := qs_Kind spec in
  if qs_Seq spec <=? 0 then Some SeqNotPositive
  else if (qs_Class spec != QueueClassNormal) && (qs_Class spec != QueueClassAlert) then
    Some (InvalidClass (qs_Class spec))
  else if qs_ProjectRef spec == "" then Some ProjectRefRequired
  else if negb (IsKnownKind kind) then Some (InvalidKind kind)
  else if in_set projectScopedKinds kind && (qs_RepositoryRef spec != "") then Some (ProjectScoped kind)
  else if in_set repoScopedKinds kind && (qs_RepositoryRef spec == "") then Some (RepoScoped kind)
  else match validate_agent_kind (qs_Payload spec) with
       | Some e => Some e
       | None => validate_adopted spec
       end.

(** ** Deduplication *)

Definition LabelQueuedEvent : string := "tatara.dev/queued-event".
Definition LabelDedupKey : string := "tatara.dev/dedup-key".
Definition LabelMintedBy : string := "tatara.dev/minted-by".
Definition LabelAlertRuleKey : string := "tatara.dev/alert-rule-key".
Definition LabelAlertGroupKey : string := "tatara.dev/alert-group-key".

(** The two field indexes: the keys an event is found under. *)
Definition DedupKeyIndexer (q : QueuedEvent) : list string :=
  if qs_DedupKey (qe_Spec q) == "" then [] else [qs_DedupKey (qe_Spec q)].

Definition TaskRefIndexer (q : QueuedEvent) : list string :=
  if p_TaskRef (qs_Payload (qe_Spec q)) == "" then [] else [p_TaskRef (qs_Payload (qe_Spec q))].

(** The loop over the key's runes; the first one is told apart. *)
Fixpoint label_safe (l : list string) (first : bool) : bool :=
  match l with
  | [] => true
  | String a EmptyString :: l' =>
      if within 97 122 a || within 65 90 a || within 48 57 a then label_safe l' false
      else if Ascii.eqb a "-" || Ascii.eqb a "_" || Ascii.eqb a "." then
        if first then false else label_safe l' false
      else false
  | _ => false
  end.

Definition isLabelSafe (key : string) : bool := label_safe (runes key) true.

Definition dedupLabel (key : string) : string :=
  if key == "" then ""
  else if (strlen key <=? 63) && isLabelSafe key then key
  else first_bytes (sha256_hex key) 32.

(** [client.MatchingLabels] of one pair, and a field index: what the API server selects
    from the namespace. *)
Definition matching {A} (labels : A -> gmap string string) (k v : string) (l : list A) : list A :=
  List.filter (fun o => bool_decide (labels o !! k = Some v)) l.

Definition indexed (index : QueuedEvent -> list string) (v : string) (l : list QueuedEvent)
  : list QueuedEvent := List.filter (fun q => str_mem (index q) v) l.

(** The objects of the namespace a read answers, [None] when it fails. *)
Definition Listing (A : Type) : Type := option (list A).

(** A read by field index: a client without the index answers so. *)
Inductive FieldListing :=
  | FieldListed (l : list QueuedEvent)
  | FieldUnsupported (all : Listing QueuedEvent)
  | FieldFailed.

Definition field_list (index : QueuedEvent -> list string) (v : string) (a : FieldListing)
  : Listing QueuedEvent :=
  match a with
  | FieldListed l => Some (indexed index v l)
  | FieldUnsupported all => all
  | FieldFailed => None
  end.

Definition QueuedEventStillQueued (projectRef dedupKey : string) (a : FieldListing) : option bool :=
  if dedupKey == "" then Some false
  else match field_list DedupKeyIndexer dedupKey a with
       | None => None
       | Some l =>
           Some (existsb (fun q =>
             (qs_DedupKey (qe_Spec q) == dedupKey) && (qs_ProjectRef (qe_Spec q) == projectRef)
             && ((qst_State (qe_Status q) == "") || (qst_State (qe_Status q) == QueueStateQueued))) l)
       end.

Definition FindOpenIncidentIssue (projectRef dedupKey : string) (il : Listing Issue)
  : option (option Issue) :=
  if dedupKey == "" then Some None
  else match il with
       | None => None
       | Some l =>
           Some (List.find (fun iss => (is_ProjectRef (iss_Spec iss) == projectRef)
                                  && (iss_State (iss_Status iss) != "closed"))
                  (matching iss_MetaLabels LabelAlertRuleKey (dedupLabel dedupKey) l))
       end.

(** The loop that keeps the oldest sibling so far. *)
Definition older (oldest : option Issue) (iss : Issue) : option Issue :=
  match oldest with
  | None => Some iss
  | Some o => if Before (iss_CreationTimestamp iss) (iss_CreationTimestamp o) then Some iss else oldest
  end.

Definition FindOldestOpenGroupSibling (projectRef groupKey excludeRuleKey : string) (il : Listing Issue)
  : option (option Issue) :=
  if groupKey == "" then Some None
  else match il with
       | None => None
       | Some l =>
           let excl := dedupLabel excludeRuleKey in
           let keep iss :=
             (is_ProjectRef (iss_Spec iss) == projectRef) && (iss_State (iss_Status iss) != "closed")
             && negb ((excl != "") && (default ""%string (iss_MetaLabels iss !! LabelAlertRuleKey) == excl)) in
           Some (fold_left older
                   (List.filter keep (matching iss_MetaLabels LabelAlertGroupKey (dedupLabel groupKey) l))
                   None)
       end.

Definition dedupExists (projectRef dedupKey : string) (checkOpenIssue : bool)
    (events : Listing QueuedEvent) (tasks : Listing Task) (issues : Listing Issue) : option bool :=
  if dedupKey == "" then Some false
  else
    let label := dedupLabel dedupKey in
    match events with
    | None => None
    | Some qel =>
        if existsb (fun q => (qs_ProjectRef (qe_Spec q) == projectRef)
                             && (qst_State (qe_Status q) != QueueStateDone))
             (matching qe_Labels LabelDedupKey label qel) then Some true
        else match tasks with
             | None => None
             | Some tl =>
                 if existsb (fun t => (ProjectRef (Spec t) == projectRef) && negb (TaskDone t))
                      (matching Labels LabelDedupKey label tl) then Some true
                 else if negb checkOpenIssue then Some false
                 else match FindOpenIncidentIssue projectRef dedupKey issues with
                      | None => None
                      | Some found => Some (is_set found)
                      end
             end
    end.

Definition QueuedEventName (projectRef dedupKey : string) : string :=
  String.append "qe-"
    (first_bytes (sha256_hex (String.append projectRef (String.append "|" dedupKey))) 16).

Definition AdoptUpgradeDedupKey (repo : string) (number : Z) : string :=
  String.append "adopt-upgrade|" (String.append repo (String.append "|" (FormatInt number))).

(** ** Enqueueing *)

Record enqueueOpts := mkEnqueueOpts { ignoreOpenIssueDedup : bool; o_priority : option Z }.

Definition WithIgnoreOpenIssueDedup (o : enqueueOpts) : enqueueOpts :=
  mkEnqueueOpts true (o_priority o).

Definition WithPriority (p : Z) (o : enqueueOpts) : enqueueOpts :=
  mkEnqueueOpts (ignoreOpenIssueDedup o) (Some p).

(** The API server's answer to a Create: it fills in the name it generates, the UID and
    the creation time. *)
Inductive CreateAnswer :=
  | Created (generated uid : string) (at_ : Time)
  | CreateExists
  | CreateFailed.

(** What the outside answers to one enqueue: the three reads, the sequence counter's,
    the owner reference, the Create and the status Update. *)
Record QueueWorld := mkQueueWorld {
  qw_events : Listing QueuedEvent;
  qw_tasks : Listing Task;
  qw_issues : Listing Issue;
  qw_seq : list SeqAttempt;
  qw_ownerref : bool;
  qw_create : CreateAnswer;
  qw_status : bool
}.

Inductive EnqueueError :=
  | DedupFailed
  | SeqAllocation (e : SeqError)
  | OwnerRefFailed
  | EventCreateFailed
  | SetStateFailed (created : QueuedEvent).

(** The event created and the state written, in order. *)
Inductive QueueWrite := WroteEvent (q : QueuedEvent) | WroteState (q : QueuedEvent).

Definition truncate_goal (p : QueuedEventPayload) : QueuedEventPayload :=
  p <| p_Goal ::= fun g => TruncateUTF8 g GoalMaxBytes |>
    <| p_NewTask ::= option_map (fun bp => bp <| bp_Goal ::= fun g => TruncateUTF8 g GoalMaxBytes |>) |>.

Definition default_priority (class : string) : Z := if class == QueueClassAlert then 0 else 2.

(** The event EnqueueEvent builds. *)
Definition new_event (proj : Project) (class : string) (autonomous : bool) (dedupKey : string)
    (payload : QueuedEventPayload) (priority : option Z) (seqNum : Z) : QueuedEvent :=
  let labels : gmap string string :=
    if dedupKey != "" then {[ LabelDedupKey := dedupLabel dedupKey ]} else ∅ in
  let name := if dedupKey != "" then QueuedEventName (proj_Name proj) dedupKey else ""%string in
  let generateName := if dedupKey != "" then ""%string else "qe-"%string in
  let priority := match priority with Some p => p | None => default_priority class end in
  mkQueuedEvent name generateName "" labels 0
    (mkQueuedEventSpec seqNum class (p_Kind payload) autonomous (proj_Name proj)
       (p_RepositoryRef payload) dedupKey payload (Some priority))
    (mkQueuedEventStatus "" "" None).

(** What the API server fills in. *)
Definition server_created (q : QueuedEvent) (generated uid : string) (at_ : Time) : QueuedEvent :=
  q <| qe_Name ::= fun n => if n == "" then generated else n |>
    <| qe_UID := uid |> <| qe_CreationTimestamp := at_ |>.

(** [None]: a duplicate, nothing enqueued. *)
Definition EnqueueEvent (w : QueueWorld) (proj : Project) (class : string) (autonomous : bool)
    (dedupKey : string) (payload : QueuedEventPayload) (o : enqueueOpts)
  : result EnqueueError (option QueuedEvent) * list QueueWrite :=
  let payload := truncate_goal payload in
  match dedupExists (proj_Name proj) dedupKey (negb (ignoreOpenIssueDedup o))
          (qw_events w) (qw_tasks w) (qw_issues w) with
  | None => (Err DedupFailed, [])
  | Some true => (Ok None, [])
  | Some false =>
      match Next (qw_seq w) with
      | Err e => (Err (SeqAllocation e), [])
      | Ok seqNum =>
          let qe := new_event proj class autonomous dedupKey payload (o_priority o) seqNum in
          if negb (qw_ownerref w) then (Err OwnerRefFailed, [])
          else match qw_create w with
               | CreateExists => (Ok None, [])
               | CreateFailed => (Err EventCreateFailed, [])
               | Created generated uid at_ =>
                   let qe := server_created qe generated uid at_ in
                   let queued := qe <| qe_Status ::= fun s => s <| qst_State := QueueStateQueued |> |> in
                   if negb (qw_status w) then (Err (SetStateFailed qe), [WroteEvent qe])
                   else (Ok (Some queued), [WroteEvent qe; WroteState queued])
               end
      end
  end.

(** ** The Task an event mints *)

Definition IsAdmissionTicket (qe : QueuedEvent) : bool := p_TaskRef (qs_Payload (qe_Spec qe)) != "".

(** The pointer may be nil. *)
Definition IsAdoptedUpgradeMint (qe : option QueuedEvent) : bool :=
  match qe with Some q => is_set (p_AdoptedUpgrade (qs_Payload (qe_Spec q))) | None => false end.

Definition MintStamp (qe : QueuedEvent) : gmap string string :=
  let stamp : gmap string string := {[ LabelQueuedEvent := qe_Name qe ]} in
  let stamp := if qe_UID qe != "" then <[LabelMintedBy := qe_UID qe]> stamp else stamp in
  if qs_DedupKey (qe_Spec qe) != "" then <[LabelDedupKey := dedupLabel (qs_DedupKey (qe_Spec qe))]> stamp
  else stamp.

Inductive BuildTaskError := AdmitsExistingTask (event task : string) | BuildOwnerRef.

(** What a blueprint overrides. *)
Definition apply_blueprint (bp : option QueuedTaskBlueprint) (t : Task) : Task :=
  match bp with
  | None => t
  | Some b =>
      let t := t <| Labels := bp_Labels b |>
                 <| Annotations ::= fun a => default a (bp_Annotations b) |> in
      let t := if bp_Name b != "" then t <| task_Name := bp_Name b |> <| task_GenerateName := ""%string |>
               else t in
      t <| Spec ::= fun s =>
             s <| RepositoryRef := bp_RepositoryRef b |> <| Goal := bp_Goal b |>
               <| Kind := bp_Kind b |> <| AlertRules := bp_AlertRules b |> |>
  end.

Definition payload_task (qe : QueuedEvent) (proj : Project) : Task :=
  let p := qs_Payload (qe_Spec qe) in
  let spec := zero_TaskSpec
    <| ProjectRef := proj_Name proj |> <| RepositoryRef := p_RepositoryRef p |>
    <| Goal := TruncateUTF8 (p_Goal p) GoalMaxBytes |> <| Kind := p_Kind p |>
    <| DedupKey := p_DedupKey p |> <| GroupKey := p_GroupKey p |> <| Source := p_Source p |>
    <| InitialState := p_InitialState p |>
    <| AlertRules := if p_AlertRule p != "" then [p_AlertRule p] else [] |> in
  zero_Task
    <| task_Name := p_Name p |>
    <| task_GenerateName :=
         if p_Name p != "" then ""%string
         else String.append (p_GenerateName p) (String.append (qe_Name qe) "-") |>
    <| Labels := p_Labels p |> <| Annotations := p_Annotations p |> <| Spec := spec |>.

(** [ownerref] is whether the controller reference could be set. *)
Definition BuildTaskFromQueuedEvent (unicodeLower : string -> string) (qe : QueuedEvent)
    (proj : Project) (ownerref : bool) : result BuildTaskError Task :=
  let p := qs_Payload (qe_Spec qe) in
  if p_TaskRef p != "" then Err (AdmitsExistingTask (qe_Name qe) (p_TaskRef p))
  else
    let t := apply_blueprint (p_NewTask p) (payload_task qe proj) in
    let t := t <| Labels ::= fun l => MintStamp qe ∪ l |> in
    let t := StampPodName unicodeLower t (proj_Name proj) (p_PodRepo p) in
    if negb ownerref then Err BuildOwnerRef else Ok t.

(** ** The events of a namespace, under any interleaving *)

(** An enqueue whose Create went through needs its name free (the API server refuses a
    name that is taken); statuses change and events go away at any time. *)
Inductive queue_step (s : list QueuedEvent) : list QueuedEvent -> Prop :=
  | step_enqueue w proj class autonomous dedupKey payload o r q rest :
      EnqueueEvent w proj class autonomous dedupKey payload o = (r, WroteEvent q :: rest) ->
      ~ In (qe_Name q) (map qe_Name s) ->
      queue_step s (s ++ [q])
  | step_status l q k f : s = (l ++ q :: k)%list -> queue_step s (l ++ q <| qe_Status ::= f |> :: k)
  | step_delete l q k : s = (l ++ q :: k)%list -> queue_step s (l ++ k).

Record queue_ok (s : list QueuedEvent) : Prop := {
  qo_names : NoDup (map qe_Name s);
  qo_keyed : forall q, In q s -> qs_DedupKey (qe_Spec q) <> ""%string ->
    qe_Name q = QueuedEventName (qs_ProjectRef (qe_Spec q)) (qs_DedupKey (qe_Spec q))
}.

(** ** Vocabulary of the lemmas and the witnesses *)

(** An open member of a correlation group, other than of one rule. *)
Definition open_sibling (projectRef groupKey excludeRuleKey : string) (iss : Issue) : Prop :=
  is_ProjectRef (iss_Spec iss) = projectRef /\ iss_State (iss_Status iss) <> "closed"%string
  /\ iss_MetaLabels iss !! LabelAlertGroupKey = Some (dedupLabel groupKey)
  /\ (dedupLabel excludeRuleKey <> ""%string ->
      iss_MetaLabels iss !! LabelAlertRuleKey <> Some (dedupLabel excludeRuleKey)).

(** What Kubernetes accepts as the value of a label. *)
Definition word (a : ascii) : bool := within 97 122 a || within 65 90 a || within 48 57 a.

Definition label_byte (a : ascii) : bool :=
  word a || (Ascii.eqb a "-" || Ascii.eqb a "_" || Ascii.eqb a ".").

Fixpoint ends_word (s : string) : bool :=
  match s with
  | EmptyString => false
  | String a EmptyString => word a
  | String _ s' => ends_word s'
  end.

Definition starts_word (s : string) : bool :=
  match s with String a _ => word a | EmptyString => false end.

Definition label_value (s : string) : Prop :=
  s = ""%string \/ (strlen s <= 63 /\ all_bytes label_byte s = true
                    /\ starts_word s = true /\ ends_word s = true).

Definition open_world (uid : string) : QueueWorld :=
  mkQueueWorld (Some []) (Some []) (Some []) [mkSeqAttempt (Some None) UpdateOk] true
    (Created "qe-x7" uid 5) true.

Definition incident_payload : QueuedEventPayload :=
  zero_QueuedEventPayload <| p_Kind := "incident" |> <| p_Goal := "look into it" |>.

Definition tatara : Project := zero_Project <| proj_Name := "tatara" |>.

Definition enqueued_incident : QueuedEvent :=
  server_created (new_event tatara "alert" false "rule-1" (truncate_goal incident_payload) None 1) "qe-x7" "u1" 5.

Definition queued_incident : QueuedEvent :=
  enqueued_incident <| qe_Status ::= fun s => s <| qst_State := QueueStateQueued |> |>.

(** ** Lemmas on enqueueing *)

(** What a written event looks like. *)
Lemma EnqueueEvent_writes w proj class autonomous dedupKey payload o r q rest :
  EnqueueEvent w proj class autonomous dedupKey payload o = (r, WroteEvent q :: rest) ->
  exists n generated uid at_,
    q = server_created (new_event proj class autonomous dedupKey (truncate_goal payload) (o_priority o) n)
          generated uid at_.
Proof.
  unfold EnqueueEvent. destruct (dedupExists _ _ _ _ _ _) as [[]|]; try discriminate.
  destruct (Next _) as [n|]; [|discriminate]. destruct (qw_ownerref w); [cbn [negb]|discriminate].
  destruct (qw_create w) as [g u a| |]; try discriminate.
  destruct (qw_status w); cbn [negb]; intros [= _ <- _]; by exists n, g, u, a.
Qed.

Lemma server_created_keyed proj class autonomous dedupKey payload prio n generated uid at_ :
  dedupKey <> ""%string ->
  qe_Name (server_created (new_event proj class autonomous dedupKey payload prio n) generated uid at_)
  = QueuedEventName (proj_Name proj) dedupKey.
Proof.
  intros H%str_neq_eqb. unfold server_created, new_event. rewrite H. cbn.
  unfold QueuedEventName. by rewrite app_cons.
Qed.

Lemma queue_step_ok s s' : queue_step s s' -> queue_ok s -> queue_ok s'.
Proof.
  intros Hs [Hn Hk]. destruct Hs as [w proj class aut key payload o r q rest He Hf|l q k f ->|l q k ->].
  - split.
    + rewrite map_app. apply NoDup_app. split; [done|]. split; [|apply NoDup_singleton].
      intros x Hx Hq. apply list_elem_of_singleton in Hq as ->. apply Hf. by apply list_elem_of_In.
    + intros x Hx Hne. apply in_app_or in Hx as [Hx|[<-|[]]]; [by apply Hk|].
      apply EnqueueEvent_writes in He as (n & g & u & a & ->). by apply server_created_keyed.
  - split; [rewrite map_app in *; exact Hn|]. intros x Hx Hne.
    apply in_app_or in Hx as [Hx|[<-|Hx]].
    + apply Hk; [apply in_or_app; by left|done].
    + apply (Hk q); [apply in_or_app; right; by left|done].
    + apply Hk; [apply in_or_app; right; by right|done].
  - split.
    + rewrite map_app in *. cbn [map] in Hn.
      apply NoDup_app in Hn as (H1 & H2 & H3). apply NoDup_cons in H3 as [_ H3].
      apply NoDup_app. split; [done|]. split; [|done]. intros x Hx Hi. apply (H2 x Hx). by right.
    + intros x Hx. apply Hk. apply in_app_or in Hx as [Hx|Hx]; apply in_or_app; [by left|right; by right].
Qed.

Lemma NoDup_map_inj {A B} (f : A -> B) l x y :
  NoDup (map f l) -> In x l -> In y l -> f x = f y -> x = y.
Proof.
  induction l as [|a l IH]; [done|]. cbn. intros [Ha Hl]%NoDup_cons [->|Hx] [->|Hy] E; [done| | |by apply IH].
  - destruct Ha. apply list_elem_of_In. rewrite E. by apply in_map.
  - destruct Ha. apply list_elem_of_In. rewrite <- E. by apply in_map.
Qed.

(** however enqueues, status writes and deletions interleave, and whatever the reads
    of an enqueue missed, a project never has two events with the same deduplication
    key. *)
Theorem one_event_per_key (s : list QueuedEvent) (q q' : QueuedEvent) :
  rtc queue_step [] s -> In q s -> In q' s ->
  qs_ProjectRef (qe_Spec q) = qs_ProjectRef (qe_Spec q') ->
  qs_DedupKey (qe_Spec q) = qs_DedupKey (qe_Spec q') ->
  qs_DedupKey (qe_Spec q) <> ""%string -> q = q'.
Proof.
  intros Hr Hq Hq' Hp Hk Hne.
  assert (queue_ok s) as [Hn Hname].
  { apply (rtc_ind_r (R := queue_step) (fun s => queue_ok s) []); [by split; [constructor|]| |exact Hr].
    intros y z _ Hs Hy. by apply (queue_step_ok y). }
  apply (NoDup_map_inj qe_Name s); [done..|].
  rewrite (Hname q Hq Hne), (Hname q' Hq'), Hp, Hk; [done|congruence].
Qed.

Lemma one_event_per_key_witness :
  EnqueueEvent (open_world "u1") tatara "alert" false "rule-1" incident_payload (mkEnqueueOpts false None)
  = (Ok (Some queued_incident),
     [WroteEvent enqueued_incident;
      WroteState queued_incident])
  /\ enqueued_incident = enqueued_incident.
Proof.
  assert (EnqueueEvent (open_world "u1") tatara "alert" false "rule-1" incident_payload (mkEnqueueOpts false None)
  = (Ok (Some queued_incident),
     [WroteEvent enqueued_incident;
      WroteState queued_incident])) as He
    by (vm_compute; reflexivity).
  split; [exact He|].
  apply (one_event_per_key [enqueued_incident]);
    [|by left|by left|reflexivity|reflexivity|vm_compute; discriminate].
  eapply rtc_l; [|apply rtc_refl]. eapply (step_enqueue []); [exact He|intros []].
Defined.

(** ** Lemmas on minting *)

Lemma apply_blueprint_status bp t : Status (apply_blueprint bp t) = Status t.
Proof. destruct bp as [b|]; [|done]. cbn. by destruct (bp_Name b == ""). Qed.

Lemma apply_blueprint_project bp t :
  ProjectRef (Spec (apply_blueprint bp t)) = ProjectRef (Spec t).
Proof. destruct bp as [b|]; [|done]. cbn. by destruct (bp_Name b == ""). Qed.

Lemma apply_blueprint_named bp t :
  task_Name t <> ""%string \/ task_GenerateName t <> ""%string ->
  task_Name (apply_blueprint bp t) <> ""%string \/ task_GenerateName (apply_blueprint bp t) <> ""%string.
Proof.
  destruct bp as [b|]; [|done]. cbn. intros H.
  destruct (String.eqb_spec (bp_Name b) ""); cbn; [done|by left].
Qed.

Lemma apply_blueprint_goal bp t n :
  strlen (Goal (Spec t)) <= n -> (forall b, bp = Some b -> strlen (bp_Goal b) <= n) ->
  strlen (Goal (Spec (apply_blueprint bp t))) <= n.
Proof.
  destruct bp as [b|]; [|done]. intros _ H. cbn.
  destruct (bp_Name b == ""); cbn; by apply H.
Qed.

Lemma payload_task_named qe proj :
  task_Name (payload_task qe proj) <> ""%string \/ task_GenerateName (payload_task qe proj) <> ""%string.
Proof.
  unfold payload_task. cbn.
  destruct (String.eqb_spec (p_Name (qs_Payload (qe_Spec qe))) "") as [_|H]; cbn; [right|by left].
  destruct (p_GenerateName (qs_Payload (qe_Spec qe))) as [|a g]; [|by rewrite app_cons].
  rewrite app_start. destruct (qe_Name qe); [by rewrite app_start|by rewrite app_cons].
Qed.

(** an event that was enqueued and is not a ticket mints a Task: in its project, in
    no state yet, with a name the API server can complete, a goal within the limit also
    where a blueprint spells it, the event's stamp over whatever labels the payload
    carries, and the pod name derived from what was built. *)
Theorem minted_task (unicodeLower : string -> string) (w : QueueWorld) (proj : Project)
    (class dedupKey : string) (autonomous : bool) (payload : QueuedEventPayload) (o : enqueueOpts)
    (qe : QueuedEvent) (writes : list QueueWrite) :
  EnqueueEvent w proj class autonomous dedupKey payload o = (Ok (Some qe), writes) ->
  p_TaskRef payload = ""%string ->
  exists t, BuildTaskFromQueuedEvent unicodeLower qe proj true = Ok t
    /\ ProjectRef (Spec t) = proj_Name proj /\ Status t = zero_TaskStatus
    /\ (task_Name t <> ""%string \/ task_GenerateName t <> ""%string)
    /\ strlen (Goal (Spec t)) <= GoalMaxBytes
    /\ MintStamp qe ⊆ Labels t
    /\ exists before, t = StampPodName unicodeLower before (proj_Name proj) (p_PodRepo payload).
Proof.
  intros He Ht.
  assert (qs_Payload (qe_Spec qe) = truncate_goal payload) as Hpay.
  { revert He. unfold EnqueueEvent. destruct (dedupExists _ _ _ _ _ _) as [[]|]; try discriminate.
    destruct (Next _) as [n|]; [|discriminate]. destruct (qw_ownerref w); [cbn [negb]|discriminate].
    destruct (qw_create w) as [g u a| |]; try discriminate.
    destruct (qw_status w); cbn [negb]; [|discriminate]. by intros [= <- _]. }
  unfold BuildTaskFromQueuedEvent. rewrite Hpay. cbn [p_TaskRef truncate_goal upd set_p_NewTask set_p_Goal].
  rewrite Ht. cbn [String.eqb negb]. eexists. split; [reflexivity|].
  set (t0 := payload_task qe proj). set (bp := p_NewTask _).
  repeat split.
  - cbn. by rewrite apply_blueprint_project.
  - cbn. by rewrite apply_blueprint_status.
  - cbn. apply apply_blueprint_named, payload_task_named.
  - cbn [StampPodName upd set_Annotations set_Labels Spec Goal]. apply apply_blueprint_goal.
    + unfold t0, payload_task. cbn. by apply TruncateUTF8_length.
    + intros b Hb. unfold bp in Hb. cbn in Hb. destruct (p_NewTask payload) as [b'|]; [|done].
      injection Hb as <-. cbn. by apply TruncateUTF8_length.
  - cbn. apply map_union_subseteq_l.
  - by eexists.
Qed.

Lemma minted_task_witness :
  exists t, BuildTaskFromQueuedEvent id queued_incident tatara true = Ok t
    /\ ProjectRef (Spec t) = "tatara"%string /\ strlen (Goal (Spec t)) <= GoalMaxBytes.
Proof.
  destruct (minted_task id (open_world "u1") tatara "alert" "rule-1" false incident_payload
    (mkEnqueueOpts false None) queued_incident
    [WroteEvent enqueued_incident; WroteState queued_incident]
    ltac:(vm_compute; reflexivity) eq_refl) as (t & Ht & Hp & _ & _ & Hg & _).
  exists t. exact (conj Ht (conj Hp Hg)).
Defined.

(** ** The label of a key *)

Lemma label_safe_bytes key first : label_safe (runes key) first = true ->
  all_bytes label_byte key = true /\ (first = true -> key <> ""%string -> starts_word key = true).
Proof.
  revert first. induction key as [|w t Hr _ _ IH] using rune_ind; intros first; [done|].
  rewrite Hr. destruct w as [|a [|b w]]; cbn [label_safe]; try done.
  rewrite app_cons, app_start. cbn [all_bytes starts_word].
  change (label_byte a) with (word a || (Ascii.eqb a "-" || Ascii.eqb a "_" || Ascii.eqb a ".")).
  fold (word a). destruct (word a) eqn:Ew; cbn [orb].
  - intros H. destruct (IH _ H) as [-> _]. done.
  - destruct (Ascii.eqb a "-" || Ascii.eqb a "_" || Ascii.eqb a "."); [|done].
    destruct first; [done|]. intros H. destruct (IH _ H) as [-> _]. done.
Qed.

Lemma alnum_word a : alnum a = true -> word a = true.
Proof. unfold alnum, word. destruct (within 97 122 a), (within 48 57 a); by rewrite ?orb_true_r. Qed.

Lemma ends_word_alnum s : all_bytes alnum s = true -> s <> ""%string -> ends_word s = true.
Proof.
  induction s as [|a s IH]; [done|]. cbn. intros [Ha H]%andb_true_iff _.
  destruct s; [by apply alnum_word|by apply IH].
Qed.

Lemma digest_is_label key : label_value (first_bytes (sha256_hex key) 32).
Proof.
  destruct (digest_prefix key 32 ltac:(lia)) as [H1 H2].
  assert (first_bytes (sha256_hex key) 32 <> ""%string) as Hne.
  { intros E. rewrite E in H1. discriminate H1. }
  right. split; [lia|].
  split; [eapply all_bytes_imp, H2; intros a Ha; unfold label_byte; by rewrite alnum_word|].
  split; [|by apply ends_word_alnum]. destruct (first_bytes _ _) as [|a s]; [done|].
  cbn in H2. apply andb_true_iff in H2 as [Ha _]. by apply alnum_word.
Qed.

(** the label a deduplication key is filed under is one Kubernetes accepts, whatever
    the key, except that a short key that ends in punctuation is passed through. *)
Theorem dedupLabel_is_a_label_value (key : string) :
  label_value (dedupLabel key)
  <-> ~ (key <> ""%string /\ strlen key <= 63 /\ isLabelSafe key = true /\ ends_word key = false).
Proof.
  unfold dedupLabel, label_value. destruct (String.eqb_spec key "") as [->|Hne].
  { split; [by intros _ [? _]|by left]. }
  destruct (Z.leb_spec (strlen key) 63) as [Hl|Hl]; cbn [andb].
  2:{ split; [lia|]. intros _. apply digest_is_label. }
  destruct (isLabelSafe key) eqn:Es.
  - destruct (label_safe_bytes key true Es) as [Hb Hw]. split.
    + intros [->|(_ & _ & _ & He)]; [done|]. intros (_ & _ & _ & He'). congruence.
    + intros H. right. repeat split; [done|done|by apply Hw|].
      destruct (ends_word key) eqn:E; [done|]. destruct H. done.
  - split; [intros _ (_ & _ & ? & _); done|]. intros _. apply digest_is_label.
Qed.

(** A rule key that ends in a dash keeps it, and no object can carry the label. *)
Theorem trailing_punctuation_is_no_label : ~ label_value (dedupLabel "rule-").
Proof.
  intros H. apply dedupLabel_is_a_label_value in H. apply H.
  split; [discriminate|]. split; [by vm_compute|]. split; vm_compute; reflexivity.
Qed.

(** ** The oldest sibling *)

Lemma fold_older l o : fold_left older l (Some o) <> None
  /\ forall r, fold_left older l (Some o) = Some r ->
     In r (o :: l) /\ forall x, In x (o :: l) -> iss_CreationTimestamp r <= iss_CreationTimestamp x.
Proof.
  revert o. induction l as [|y l IH]; intros o.
  { split; [done|]. intros r [= ->]. split; [by left|]. intros x [->|[]]. lia. }
  cbn [fold_left older]. unfold Before.
  destruct (Z.ltb_spec (iss_CreationTimestamp y) (iss_CreationTimestamp o)) as [Hlt|Hge].
  - destruct (IH y) as [H1 H2]. split; [done|]. intros r Hr. destruct (H2 r Hr) as [Hin Hmin].
    split; [by right|]. intros x [<-|Hx]; [|by apply Hmin].
    pose proof (Hmin y (or_introl eq_refl)). lia.
  - destruct (IH o) as [H1 H2]. split; [done|]. intros r Hr. destruct (H2 r Hr) as [Hin Hmin].
    split; [destruct Hin as [->|Hin]; [by left|by right; right]|].
    intros x [<-|[<-|Hx]]; [by apply Hmin; left| |by apply Hmin; right].
    pose proof (Hmin o (or_introl eq_refl)). lia.
Qed.

(** the Issue an alert of a correlation group is folded into is the oldest open one
    of the group in the project that belongs to another rule, and it is found whenever
    there is one. *)
Theorem FindOldestOpenGroupSibling_oldest (projectRef groupKey excludeRuleKey : string)
    (l : list Issue) (found : option Issue) :
  groupKey <> ""%string ->
  FindOldestOpenGroupSibling projectRef groupKey excludeRuleKey (Some l) = Some found ->
  match found with
  | Some o => In o l /\ open_sibling projectRef groupKey excludeRuleKey o
      /\ forall x, In x l -> open_sibling projectRef groupKey excludeRuleKey x ->
         iss_CreationTimestamp o <= iss_CreationTimestamp x
  | None => forall x, In x l -> ~ open_sibling projectRef groupKey excludeRuleKey x
  end.
Proof.
  intros Hne%str_neq_eqb. unfold FindOldestOpenGroupSibling. rewrite Hne.
  set (keep := fun iss : Issue => _). set (fl := List.filter keep _). intros [= <-].
  assert (forall x, In x fl <-> In x l /\ open_sibling projectRef groupKey excludeRuleKey x) as Hfl.
  { intros x. unfold fl, matching, keep, open_sibling. rewrite !filter_In, bool_decide_eq_true. cbv beta.
    rewrite !andb_true_iff, !negb_true_iff, andb_false_iff, negb_false_iff, !eqb_to_eq, !String.eqb_neq.
    set (dl := dedupLabel excludeRuleKey). set (v := iss_MetaLabels x !! LabelAlertRuleKey).
    assert (dl = ""%string \/ default ""%string v <> dl <-> (dl <> ""%string -> v <> Some dl)) as ->.
    { destruct (decide (dl = ""%string)) as [->|He]; [naive_solver|].
      destruct v as [v|]; cbn; naive_solver. }
    tauto. }
  destruct fl as [|o rest] eqn:Ef; cbn [fold_left].
  { intros x Hx Hs. apply (Hfl x). done. }
  change (older None o) with (Some o). destruct (fold_older rest o) as [Hn Hr].
  destruct (fold_left older rest (Some o)) as [r|]; [|done]. destruct (Hr r eq_refl) as [Hin Hmin].
  apply Hfl in Hin as [Hin Hs]. split; [done|]. split; [done|].
  intros x Hx Hsx. apply Hmin. by apply Hfl.
Qed.

Lemma FindOldestOpenGroupSibling_oldest_witness :
  forall x, In x [zero_Issue] -> ~ open_sibling "tatara" "grp1" "" x.
Proof.
  exact (FindOldestOpenGroupSibling_oldest "tatara" "grp1" "" [zero_Issue] None
           ltac:(discriminate) ltac:(vm_compute; reflexivity)).
Defined.
