(* ===== verification/Dispatch.v ===== *)
(** * The dispatcher (internal/controller/queue_controller.go): which queued events are
    admitted, in which order, under which ceilings, and when admission is tried again. *)

From stdpp Require Import sorting.
From Stdlib Require Import String.
From S2P Require Import Prelude GoTime Api Vocabulary Machine Park Budget Settings ObjBudget Patch Transition Queue LivePods.

Open Scope Z_scope.
Open Scope go_scope.

(** ** Reading the queue *)

Definition isQueued (state : string) : bool := (state == QueueStateQueued) || (state == "").

Definition queued_event (q : QueuedEvent) : bool := isQueued (qst_State (qe_Status q)).

Definition ceilingKey (cfg : Config) (q : QueuedEvent) : string :=
  let act := default ""%string (p_Labels (qs_Payload (qe_Spec q)) !! LabelActivity) in
  if (act != "") && is_set (SpawnCeilingByKind cfg !! act) then act else qs_Kind (qe_Spec q).

Definition taskByName (tasks : list Task) (name : string) : option Task :=
  List.find (fun t => task_Name t == name) tasks.

Definition starvationBudget : Duration := Hour.

Definition effectivePriority (q : QueuedEvent) : Z := EffectiveQueuePriority (qe_Spec q).

Definition queueOrderBefore (a b : QueuedEvent) : bool :=
  let pa := effectivePriority a in
  let pb := effectivePriority b in
  if pa =? pb then qs_Seq (qe_Spec a) <? qs_Seq (qe_Spec b) else pa <? pb.

Definition hasStarvingPriority2 (queued : list QueuedEvent) (now : Time) : bool :=
  existsb (fun q => (effectivePriority q =? 2)
                    && (starvationBudget <? Sub now (qe_CreationTimestamp q))) queued.

Definition filterQEsByProject (l : list QueuedEvent) (project : string) : list QueuedEvent :=
  List.filter (fun q => qs_ProjectRef (qe_Spec q) == project) l.

Definition filterTasksByProject (l : list Task) (project : string) : list Task :=
  List.filter (fun t => ProjectRef (Spec t) == project) l.

(** The answers to the two lists of one read of a project, [None] when one fails. *)
Definition ProjectListing : Type := option (list QueuedEvent * list Task).

Definition listProjectVia (a : ProjectListing) (proj : Project) : ProjectListing :=
  match a with
  | None => None
  | Some (qes, tasks) =>
      Some (filterQEsByProject qes (proj_Name proj), filterTasksByProject tasks (proj_Name proj))
  end.

(** Keeps the earlier one, the first of equals. *)
Definition older_task (found : option Task) (t : Task) : option Task :=
  match found with
  | None => Some t
  | Some f => if Before (CreationTimestamp t) (CreationTimestamp f) then Some t else found
  end.

(** The Task an event has minted; [None] when the list failed. *)
Definition mintedTask (a : TaskListing) (q : QueuedEvent) : option (option Task) :=
  if qe_UID q == "" then Some None
  else match a with
       | None => None
       | Some l => Some (fold_left older_task (matching Labels LabelMintedBy (qe_UID q) l) None)
       end.

Definition queueTaskDone (t : Task) : bool := TaskDone t.

Definition queueTaskHoldsSlot (t : Task) : bool :=
  if queueTaskDone t || Parked t then false
  else if State (Status t) == "" then true
  else Live (State (Status t)).

(** No stage, or not triaged yet. *)
Definition unstaged (state : string) : bool := (state == "") || (state == StateNew).

Definition ticketSpent (q : QueuedEvent) (t : Task) : bool :=
  let want := p_AgentKind (qs_Payload (qe_Spec q)) in
  if want == "" then negb (unstaged (State (Status t)))
  else
    let cur := AgentKindFor (State (Status t)) (Kind (Spec t)) in
    if cur != "" then cur != want else negb (unstaged (State (Status t))).

Definition holds_slot (tasks : list Task) (class : string) (q : QueuedEvent) : bool :=
  if (qs_Class (qe_Spec q) != class) || (qst_State (qe_Status q) != QueueStateAdmitted) then false
  else match taskByName tasks (qst_TaskRef (qe_Status q)) with
       | Some t => queueTaskHoldsSlot t && negb (ticketSpent q t)
       | None => false
       end.

Definition poolInflight (qes : list QueuedEvent) (tasks : list Task) (class : string) : Z :=
  Z.of_nat (List.length (List.filter (holds_slot tasks class) qes)).

Definition poolHasQueued (qes : list QueuedEvent) (class : string) : bool :=
  existsb (fun q => (qs_Class (qe_Spec q) == class) && queued_event q) qes.

(** The order of the admission sort (events of a project have distinct [Seq]). *)
Definition queue_le (a b : QueuedEvent) : Prop := queueOrderBefore b a = false.

#[export] Instance queue_le_dec : RelDecision queue_le.
Proof. intros a b. unfold queue_le. apply _. Defined.

Definition pool_queue (qes : list QueuedEvent) (class : string) : list QueuedEvent :=
  merge_sort queue_le
    (List.filter (fun q => (qs_Class (qe_Spec q) == class) && queued_event q) qes).

(** ** Admitting one event *)

(** What creating a Task answers: the Task as the server stored it; or that one of its
    name exists, with the answer to the read of that one; or an error. *)
Inductive TaskCreate := TaskCreated (t : Task) | TaskExists (t : option Task) | TaskRefused.

(** The outcomes of the intake's mint of an adopted upgrade. *)
Definition MintCreated : string := "created".
Definition MintExistingLive : string := "existing_live".
Definition MintTombstoneDeleted : string := "tombstone_deleted".

(** What the outside, and the intake, answer while one event is looked at. *)
Record EventWorld := mkEventWorld {
  ew_ticket : GetAnswer Task;
  ew_label : list (Attempt Task);
  ew_kind : list (Attempt Task);
  ew_delete : DeleteAnswer;
  ew_minted : TaskListing;
  ew_tasks : TaskListing;
  ew_repo : GetAnswer unit;
  ew_mr : GetAnswer MergeRequest;
  ew_adoptable : option bool;
  ew_upgrade : option (Task * string);
  ew_converged : bool;
  ew_ownerref : bool;
  ew_create : TaskCreate;
  ew_stale : DeleteAnswer;
  ew_now : Time;
  ew_admit : list (Attempt QueuedEvent)
}.

Inductive DispatchEffect :=
  | AdmissionBlocked (class kind reason : string)
  | DeletedEvent (name : string)
  | AdoptionDropped (reason : string)
  | AdoptionError
  | TaskMeta (e : Effect)
  | TaskKind (t : Task)
  | MintedTask (t : Task)
  | MintedUpgrade (t : Task)
  | DeletedTask (name : string)
  | WroteAdmitted (q : QueuedEvent)
  | QueueAdmitted (class kind : string).

Inductive AdmitError :=
  | AdmitList
  | TicketRead
  | TicketLabel (e : TransitionError)
  | TicketKind (e : FitError)
  | EventDelete
  | MintedList
  | ConvergeFailed
  | RoomRead
  | AdoptFailed
  | BuildFailed (e : BuildTaskError)
  | CreateRefused
  | StaleDelete
  | AdmitWrite (e : FitError).

(** The delete of an event; one that is gone already is no error. *)
Definition delete_event (a : DeleteAnswer) (q : QueuedEvent) : option AdmitError * list DispatchEffect :=
  match a with
  | DeleteFailed => (Some EventDelete, [])
  | NotFound => (None, [])
  | Deleted => (None, [DeletedEvent (qe_Name q)])
  end.

Inductive Ticket := TicketFailed (e : AdmitError) | TicketDropped | TicketDeferred | TicketAdmitted (name : string).

Definition dropTicket (w : EventWorld) (q : QueuedEvent) : Ticket * list DispatchEffect :=
  let '(e, es) := delete_event (ew_delete w) q in
  (match e with Some e => TicketFailed e | None => TicketDropped end, es).

Definition set_label (q : QueuedEvent) (fresh : Task) : option Task :=
  if default ""%string (Labels fresh !! LabelQueuedEvent) == qe_Name q then None
  else Some (fresh <| Labels ::= insert LabelQueuedEvent (qe_Name q) |>).

Definition set_kind (agentKind : string) (fresh : Task) : option Task :=
  if AgentKind (Status fresh) == agentKind then None
  else Some (on_status fresh (fun s => s <| AgentKind := agentKind |>)).

(** The label goes on the Task first; then the agent kind its stage runs. *)
Definition label_ticket (w : EventWorld) (q : QueuedEvent) (task : Task) : Outcome :=
  if default ""%string (Labels task !! LabelQueuedEvent) != qe_Name q
  then patchTaskAnnotations task (set_label q) (ew_label w)
  else mkOutcome None task [].

Definition admitTicket (w : EventWorld) (q : QueuedEvent) : Ticket * list DispatchEffect :=
  match ew_ticket w with
  | GetNotFound => dropTicket w q
  | GetErrored => (TicketFailed TicketRead, [])
  | Found task =>
      if is_set (DeletionTimestamp task) || queueTaskDone task then dropTicket w q
      else
        let from := State (Status task) in
        let agentKind := AgentKindFor from (Kind (Spec task)) in
        if agentKind == "" then
          if unstaged from then (TicketDeferred, []) else dropTicket w q
        else
          let o := label_ticket w q task in
          let es := map TaskMeta (o_effects o) in
          match o_err o with
          | Some e => (TicketFailed (TicketLabel e), es)
          | None =>
              if AgentKind (Status (o_task o)) == agentKind then (TicketAdmitted (task_Name (o_task o)), es)
              else
                let r := patchStatus (set_kind agentKind) (ew_kind w) in
                match patch_error r with
                | Some e => (TicketFailed (TicketKind e), es)
                | None => (TicketAdmitted (task_Name (patch_copy (o_task o) r)),
                           (es ++ map TaskKind (patch_written r))%list)
                end
          end
  end.

Inductive Adoption :=
  | AdoptError (e : AdmitError)
  | AdoptDropped
  | AdoptRetry
  | AdoptMinted (t : Task) (created : bool).

Definition fail_adopt : Adoption * list DispatchEffect := (AdoptError AdoptFailed, [AdoptionError]).

Definition drop_adopt (w : EventWorld) (q : QueuedEvent) (reason : string) : Adoption * list DispatchEffect :=
  match ew_delete w with
  | DeleteFailed => fail_adopt
  | NotFound => (AdoptDropped, [])
  | Deleted => (AdoptDropped, [DeletedEvent (qe_Name q); AdoptionDropped reason])
  end.

(** From the state of the merge request's mirror on, empty where there is none. *)
Definition adopt_known (w : EventWorld) (q : QueuedEvent) (state : string) : Adoption * list DispatchEffect :=
  if state == "merged" then drop_adopt w q "merged"
  else if state == "closed" then drop_adopt w q "closed"
  else match ew_adoptable w with
       | None => fail_adopt
       | Some false => drop_adopt w q "not_adoptable"
       | Some true =>
           match ew_upgrade w with
           | None => fail_adopt
           | Some (task, outcome) =>
               if outcome == MintTombstoneDeleted then (AdoptRetry, [])
               else (AdoptMinted task (outcome == MintCreated),
                     if outcome == MintCreated then [MintedUpgrade task] else [])
           end
       end.

Definition admitAdoptedUpgrade (w : EventWorld) (q : QueuedEvent) : Adoption * list DispatchEffect :=
  match ew_repo w with
  | GetNotFound => drop_adopt w q "repository_gone"
  | GetErrored => fail_adopt
  | Found _ =>
      match ew_mr w with
      | GetErrored => fail_adopt
      | GetNotFound => adopt_known w q ""
      | Found cr => adopt_known w q (mr_State (mr_Status cr))
      end
  end.

(** Whether it may go on; a repository that is gone is skipped. *)
Definition convergeAdoptedAdmission (w : EventWorld) : bool :=
  match ew_repo w with GetNotFound => true | GetErrored => false | Found _ => ew_converged w end.

(** ** One pass of admission *)

(** The counters of a pass: the slots taken in the pool at hand, the cached mint budget
    ([-1] before it was read), and what the pass answers. *)
Record PassState := mkPassState {
  inflight : Z;
  mintBudget : Z;
  requeue : bool;
  heldOnUsage : bool;
  heldOnLiveCeiling : bool
}.

Definition eta_PassState (s : PassState) : PassState :=
  mkPassState (inflight s) (mintBudget s) (requeue s) (heldOnUsage s) (heldOnLiveCeiling s).

#[export] Instance set_inflight : Settable inflight := ltac:(setter_of inflight eta_PassState).
#[export] Instance set_mintBudget : Settable mintBudget := ltac:(setter_of mintBudget eta_PassState).
#[export] Instance set_requeue : Settable requeue := ltac:(setter_of requeue eta_PassState).
#[export] Instance set_heldOnUsage : Settable heldOnUsage := ltac:(setter_of heldOnUsage eta_PassState).
#[export] Instance set_heldOnLiveCeiling : Settable heldOnLiveCeiling :=
  ltac:(setter_of heldOnLiveCeiling eta_PassState).

Definition fresh_pass : PassState := mkPassState 0 (-1) false false false.

(** What a step of a pass answers: an error or nil, the counters, and what was done. *)
Definition Step : Type := (option AdmitError * PassState * list DispatchEffect)%type.

Definition step_after (es : list DispatchEffect) (r : Step) : Step :=
  let '(e, s, es') := r in (e, s, (es ++ es')%list).

Section Admit.

Context (unicodeLower : string -> string).
Context (art : Artifacts).
Context (wall : Time).

(** Whether there are metrics, and what the outside answers for each event. *)
Context (m : bool).
Context (world : QueuedEvent -> EventWorld).
Context (proj : Project).
Context (d : Decision) (cfg : Config) (sub : Subscription) (now : Time).

Definition blocked (class kind reason : string) : list DispatchEffect :=
  if m then [AdmissionBlocked class kind reason] else [].

Definition subscription : bool := Enabled cfg && (Mode cfg == ModeClaudeSubscription).

Definition poolBlocked (class : string) : bool :=
  ((class == QueueClassNormal) && ProactiveBlocked d) || ((class == QueueClassAlert) && EmergencyBlocked d).

(** Whether account usage holds an event, and the reason it is counted under. *)
Definition usage_hold (class : string) (q : QueuedEvent) : bool * string :=
  let key := ceilingKey cfg q in
  let '(held, reason) :=
    if is_set (SpawnCeilingByKind cfg !! key) then (KindBlocked cfg sub key now, "kind_ceiling"%string)
    else (poolBlocked class, "token_budget"%string) in
  (if key == "refine" then false else held, reason).

(** The status write of an admission. *)
Definition admitted_event (taskName : string) (at_ : Time) (fresh : QueuedEvent) : QueuedEvent :=
  fresh <| qe_Status ::= fun st =>
    st <| qst_State := QueueStateAdmitted |> <| qst_TaskRef := taskName |>
       <| qst_AdmittedAt := Some at_ |> |>.

Definition admit_as (class : string) (q : QueuedEvent) (taskName : string) (s : PassState) : Step :=
  let r := patchStatus (fun fresh => Some (admitted_event taskName (ew_now (world q)) fresh)) (ew_admit (world q)) in
  match patch_error r with
  | Some e => (Some (AdmitWrite e), s, [])
  | None =>
      (None, s <| inflight ::= Z.succ |>,
       (map WroteAdmitted (patch_written r) ++ if m then [QueueAdmitted class (qs_Kind (qe_Spec q))] else [])%list)
  end.

(** The admission of an event whose Task exists: a finished one is deleted first. *)
Definition admit_existing (class : string) (q : QueuedEvent) (existing : Task) (s : PassState) : Step :=
  if queueTaskDone existing then
    match ew_stale (world q) with
    | DeleteFailed => (Some StaleDelete, s, [])
    | NotFound => (None, s <| requeue := true |>, [])
    | Deleted => (None, s <| requeue := true |>, [DeletedTask (task_Name existing)])
    end
  else admit_as class q (task_Name existing) s.

(** Read once in a pass, when it is first wanted, as long as it is not negative. *)
Definition liveRoomFor (q : QueuedEvent) (s : PassState) : option Z :=
  if 0 <=? mintBudget s then Some (mintBudget s)
  else liveMintBudget art wall proj (ew_tasks (world q)) now.

Definition charge (s : PassState) : PassState := s <| mintBudget ::= Z.pred |>.

Definition mint (class : string) (q : QueuedEvent) (s : PassState) : Step :=
  if IsAdoptedUpgradeMint (Some q) then
    let '(a, es) := admitAdoptedUpgrade (world q) q in
    step_after es
      match a with
      | AdoptError e => (Some e, s, [])
      | AdoptDropped => (None, s, [])
      | AdoptRetry => (None, s <| requeue := true |>, [])
      | AdoptMinted t created => admit_existing class q t (if created then charge s else s)
      end
  else
    match BuildTaskFromQueuedEvent unicodeLower q proj (ew_ownerref (world q)) with
    | Err e => (Some (BuildFailed e), s, [])
    | Ok _ =>
        match ew_create (world q) with
        | TaskCreated t => step_after [MintedTask t] (admit_existing class q t (charge s))
        | TaskExists (Some t) => admit_existing class q t (charge s)
        | TaskExists None | TaskRefused => (Some CreateRefused, s, [])
        end
    end.

Definition admit_mint (class : string) (q : QueuedEvent) (s : PassState) : Step :=
  match mintedTask (ew_minted (world q)) q with
  | None => (Some MintedList, s, [])
  | Some (Some existing) =>
      if IsAdoptedUpgradeMint (Some q) && negb (convergeAdoptedAdmission (world q)) then
        (Some ConvergeFailed, s, [])
      else admit_existing class q existing s
  | Some None =>
      match liveRoomFor q s with
      | None => (Some RoomRead, s, [])
      | Some room =>
          let s := s <| mintBudget := room |> in
          if room <=? 0 then
            (None, s <| heldOnLiveCeiling := true |>, blocked class (qs_Kind (qe_Spec q)) "live_ceiling")
          else mint class q s
      end
  end.

Definition admit_event (class : string) (cap reserve : Z) (q : QueuedEvent) (s : PassState) : Step :=
  if (0 <? reserve) && negb (effectivePriority q =? 2) && (cap - reserve <=? inflight s) then (None, s, [])
  else if subscription && fst (usage_hold class q) then
    (None, s <| heldOnUsage := true |>, blocked class (qs_Kind (qe_Spec q)) (snd (usage_hold class q)))
  else if IsAdmissionTicket q then
    let '(t, es) := admitTicket (world q) q in
    step_after es
      match t with
      | TicketFailed e => (Some e, s, [])
      | TicketDropped => (None, s, [])
      | TicketDeferred => (None, s <| requeue := true |>, [])
      | TicketAdmitted name => admit_as class q name s
      end
  else admit_mint class q s.

Fixpoint pool_loop (class : string) (cap reserve : Z) (queued : list QueuedEvent) (s : PassState) : Step :=
  match queued with
  | [] => (None, s, [])
  | q :: rest =>
      if cap <=? inflight s then (None, s, blocked class "" "pool_full")
      else match admit_event class cap reserve q s with
           | (Some e, s, es) => (Some e, s, es)
           | (None, s, es) => step_after es (pool_loop class cap reserve rest s)
           end
  end.

Definition pool_reserve (class : string) (queued : list QueuedEvent) : Z :=
  if (class == QueueClassNormal) && hasStarvingPriority2 queued now then 1 else 0.

Definition admitPool (qes inflightQEs : list QueuedEvent) (inflightTasks : list Task) (class : string)
    (cap : Z) (s : PassState) : Step :=
  let queued := pool_queue qes class in
  if negb subscription && poolBlocked class then
    (None, s, match queued with [] => [] | _ => blocked class "" "token_budget" end)
  else pool_loop class cap (pool_reserve class queued) queued
         (s <| inflight := poolInflight inflightQEs inflightTasks class |>).

(** The alert pool goes first; an error answers no requeue. *)
Definition admit_pools (qes inflightQEs : list QueuedEvent) (inflightTasks : list Task) : Step :=
  match admitPool qes inflightQEs inflightTasks QueueClassAlert (AlertCapacity proj) fresh_pass with
  | (Some e, s, es) => (Some e, s <| requeue := false |>, es)
  | (None, s, es) =>
      step_after es
        match admitPool qes inflightQEs inflightTasks QueueClassNormal (QueueCapacity proj) s with
        | (Some e, s, es') => (Some e, s <| requeue := false |>, es')
        | ok => ok
        end
  end.

Definition paused_note (q : QueuedEvent) : list DispatchEffect :=
  blocked (qs_Class (qe_Spec q)) "" "project_paused".

(** [apiReader] is the answer to the uncached read, where there is one. *)
Definition admit_pass (qes : list QueuedEvent) (tasks : list Task) (apiReader : option ProjectListing) : Step :=
  if proj_MaxConcurrentAgents proj =? 0 then
    (None, fresh_pass, flat_map paused_note (List.filter queued_event qes))
  else
    match apiReader with
    | None => admit_pools qes qes tasks
    | Some a =>
        match listProjectVia a proj with
        | None => (Some AdmitList, fresh_pass, [])
        | Some (iq, it) => admit_pools qes iq it
        end
    end.

End Admit.

(** ** A reconcile *)

Definition event_done (tasks : list Task) (q : QueuedEvent) : bool :=
  if qst_State (qe_Status q) != QueueStateAdmitted then false
  else match taskByName tasks (qst_TaskRef (qe_Status q)) with
       | None => true
       | Some t => queueTaskDone t || ticketSpent q t
       end.

(** Whether anything changed, the error, and the events that were deleted. *)
Fixpoint reconcileDone (answer : QueuedEvent -> DeleteAnswer) (qes : list QueuedEvent) (tasks : list Task)
  : bool * option AdmitError * list DispatchEffect :=
  match qes with
  | [] => (false, None, [])
  | q :: rest =>
      if event_done tasks q then
        match delete_event (answer q) q with
        | (Some e, es) => (false, Some e, es)
        | (None, es) =>
            let '(_, e, es') := reconcileDone answer rest tasks in (true, e, (es ++ es')%list)
        end
      else reconcileDone answer rest tasks
  end.

Definition blockedPollInterval : Duration := 30 * Second.

(** [wired] is whether the backstop's channel is. *)
Definition blockedPoll (wired : bool) : Duration := if wired then 0 else blockedPollInterval.

Definition usageRequeueAfter (usagePollInterval : Duration) : Duration :=
  if 0 <? usagePollInterval then usagePollInterval else 60 * Second.

Section Requeue.

Context {Schedule : Type}.
Context (ParseStandard : string -> option Schedule).
Context (Next : Schedule -> Time -> Time).

Definition budgetRequeueAfter (cfg : Config) (now : Time) : Duration :=
  let fallback := 60 * Second in
  let maxWait := 5 * Minute in
  if ResetSchedule cfg == "" then fallback
  else match ParseSchedule ParseStandard (ResetSchedule cfg) with
       | None => fallback
       | Some sched =>
           let next := Next sched now in
           if IsZero next then fallback
           else
             let wait := i64 (Sub next now + Second) in
             if wait <=? 0 then fallback else if maxWait <? wait then maxWait else wait
       end.

(** Whether a pool is at its cap with events queued behind it. *)
Definition pool_waiting (proj : Project) (qes : list QueuedEvent) (tasks : list Task) (class : string) : bool :=
  let cap := if class == QueueClassAlert then AlertCapacity proj else QueueCapacity proj in
  (cap <=? poolInflight qes tasks class) && poolHasQueued qes class.

(** What [doReconcile] answers once the pass of admission is over: the delay, [0] for none. *)
Definition requeue_after (proj : Project) (qes : list QueuedEvent) (tasks : list Task) (d : Decision)
    (cfg : Config) (s : PassState) (wired : bool) (usagePollInterval : Duration) (now : Time) : Duration :=
  let waiting := pool_waiting proj qes tasks QueueClassNormal || pool_waiting proj qes tasks QueueClassAlert in
  let budgetHeld := (ProactiveBlocked d && poolHasQueued qes QueueClassNormal)
                    || (EmergencyBlocked d && poolHasQueued qes QueueClassAlert) in
  if requeue s then Second
  else if budgetHeld then budgetRequeueAfter cfg now
  else if heldOnUsage s then usageRequeueAfter usagePollInterval
  else if waiting || heldOnLiveCeiling s then blockedPoll wired
  else 0.

(** The answers to a reconcile's calls: the event's and the Project's reads, the three lists
    of the project, the deletes of [reconcileDone], the uncached list, the usage store's
    snapshot where there is a store, and the clock at its three readings. *)
Record DispatchWorld := mkDispatchWorld {
  dw_event : GetAnswer QueuedEvent;
  dw_project : GetAnswer Project;
  dw_lists : ProjectListing * ProjectListing * ProjectListing;
  dw_delete : QueuedEvent -> DeleteAnswer;
  dw_apiReader : option ProjectListing;
  dw_usage : option Subscription;
  dw_evaluated : Time;
  dw_admitted : Time;
  dw_requeued : Time;
  dw_each : QueuedEvent -> EventWorld
}.

(** How the reconciler was set up. *)
Record Dispatcher := mkDispatcher {
  r_BudgetDefaults : Config;
  r_UsagePollInterval : Duration;
  r_backstop : bool;
  r_metrics : bool
}.

Inductive DispatchError := EventRead | ProjectRead | ProjectList | DoneDelete (e : AdmitError) | AdmitFailed (e : AdmitError).

(** The subscription windows in force. *)
Definition governing_sub (w : DispatchWorld) (proj : Project) (cfg : Config) : Subscription :=
  if Mode cfg == ModeClaudeSubscription then default (BudgetSubscription proj) (dw_usage w)
  else BudgetSubscription proj.

(** The error or nil, the delay and the effects; the gauges of the end are left out. *)
Definition doReconcile (unicodeLower : string -> string) (art : Artifacts) (wall : Time)
    (r : Dispatcher) (w : DispatchWorld)
  : option DispatchError * Duration * list DispatchEffect :=
  match dw_event w with
  | GetNotFound => (None, 0, [])
  | GetErrored => (Some EventRead, 0, [])
  | Found _ =>
      match dw_project w with
      | GetNotFound => (None, 0, [])
      | GetErrored => (Some ProjectRead, 0, [])
      | Found proj =>
          if proj_Name proj == "" then (None, 0, [])
          else
            let '(l1, l2, l3) := dw_lists w in
            match listProjectVia l1 proj with
            | None => (Some ProjectList, 0, [])
            | Some (qes, tasks) =>
                match reconcileDone (dw_delete w) qes tasks with
                | (_, Some e, es1) => (Some (DoneDelete e), 0, es1)
                | (_, None, es1) =>
                    match listProjectVia l2 proj with
                    | None => (Some ProjectList, 0, es1)
                    | Some (qes, tasks) =>
                        let cfg := BudgetConfig proj (r_BudgetDefaults r) in
                        let sub := governing_sub w proj cfg in
                        let d := Evaluate ParseStandard Next cfg (Settings.BudgetWindowState proj) sub (dw_evaluated w) in
                        let '(e, s, es2) :=
                          admit_pass unicodeLower art wall (r_metrics r) (dw_each w) proj d cfg sub
                            (dw_admitted w) qes tasks (dw_apiReader w) in
                        match e with
                        | Some e => (Some (AdmitFailed e), 0, (es1 ++ es2)%list)
                        | None =>
                            match listProjectVia l3 proj with
                            | None => (Some ProjectList, 0, (es1 ++ es2)%list)
                            | Some (qes, tasks) =>
                                (None, requeue_after proj qes tasks d cfg s (r_backstop r)
                                         (r_UsagePollInterval r) (dw_requeued w), (es1 ++ es2)%list)
                            end
                        end
                    end
                end
            end
      end
  end.

End Requeue.

(** ** The backstop *)

(** The heads by class; a key that is absent has none. *)
Definition head_step (heads : gmap string QueuedEvent) (q : QueuedEvent) : gmap string QueuedEvent :=
  if negb (queued_event q) then heads
  else match heads !! qs_Class (qe_Spec q) with
       | Some cur => if queueOrderBefore q cur then <[qs_Class (qe_Spec q) := q]> heads else heads
       | None => <[qs_Class (qe_Spec q) := q]> heads
       end.

Definition pool_heads (qes : list QueuedEvent) : gmap string QueuedEvent :=
  fold_left head_step qes ∅.

(** Sorted by class. *)
Definition string_le (a b : string) : Prop := String.compare a b <> Gt.

#[export] Instance string_le_dec : RelDecision string_le.
Proof. intros a b. unfold string_le. destruct (String.compare a b); [by left|by left|right; by intros H]. Defined.

Definition pendingPoolHeads (qes : list QueuedEvent) : list QueuedEvent :=
  omap (fun class => pool_heads qes !! class)
    (merge_sort string_le (map fst (map_to_list (pool_heads qes)))).

(** One project of the pass over all of them: its events, where the list went through, and
    how many sends the channel took before the context was done. What was sent, and
    whether the pass came to its end. *)
Fixpoint enqueue_projects (projects : list (Project * option (list QueuedEvent) * nat))
  : list QueuedEvent * bool :=
  match projects with
  | [] => ([], true)
  | (_, None, _) :: _ => ([], false)
  | (proj, Some l, taken) :: rest =>
      let heads := pendingPoolHeads (filterQEsByProject l (proj_Name proj)) in
      if (taken <? List.length heads)%nat then (firstn taken heads, false)
      else let '(sent, ok) := enqueue_projects rest in ((heads ++ sent)%list, ok)
  end.

(** [projects] is [None] when the Projects cannot be listed. *)
Definition EnqueuePending (wired : bool)
    (projects : option (list (Project * option (list QueuedEvent) * nat))) : list QueuedEvent * bool :=
  if negb wired then ([], true)
  else match projects with None => ([], false) | Some l => enqueue_projects l end.

(** ** Vocabulary of the lemmas and the witnesses *)

(** The admissions among the effects, and the Tasks minted. *)
Definition admitted_by (e : DispatchEffect) : option QueuedEvent :=
  match e with WroteAdmitted q => Some q | _ => None end.

Definition admissions (es : list DispatchEffect) : list QueuedEvent := omap admitted_by es.

Definition minted_by (e : DispatchEffect) : option Task :=
  match e with MintedTask t | MintedUpgrade t => Some t | _ => None end.

Definition mints (es : list DispatchEffect) : list Task := omap minted_by es.

(** Reading an event again answers that event. *)
Definition reads_the_event (world : QueuedEvent -> EventWorld) : Prop :=
  forall q a fresh, In a (ew_admit (world q)) -> at_fresh a = Some fresh ->
  qe_Name fresh = qe_Name q /\ qe_Spec fresh = qe_Spec q.

(** A step admits nothing, or the event [q], which takes a slot. *)
Definition admits (q : QueuedEvent) (world : QueuedEvent -> EventWorld) (s : PassState) (r : Step) : Prop :=
  (admissions r.2 = [] /\ inflight r.1.2 = inflight s)
  \/ exists fresh t at_, In (mkAttempt (Some fresh) UpdateOk) (ew_admit (world q))
       /\ admissions r.2 = [admitted_event t at_ fresh]
       /\ inflight r.1.2 = inflight s + 1 /\ r.1.1 = None.

(** Counters only grow, and what is set stays set. *)
Definition grows (s s' : PassState) : Prop :=
  inflight s <= inflight s' /\ (requeue s = true -> requeue s' = true)
  /\ (heldOnUsage s = true -> heldOnUsage s' = true)
  /\ (heldOnLiveCeiling s = true -> heldOnLiveCeiling s' = true).

(** Why an event that was looked at needs no second look in this pass: it was admitted, or
    it is gone, or the pass says that it has to come back. *)
Definition settled (q : QueuedEvent) (answer : DeleteAnswer) (s' : PassState) (es : list DispatchEffect) : Prop :=
  In (qe_Name q) (map qe_Name (admissions es))
  \/ In (DeletedEvent (qe_Name q)) es \/ answer = NotFound
  \/ requeue s' = true \/ heldOnUsage s' = true \/ heldOnLiveCeiling s' = true.

(** What is dropped is gone. *)
Definition is_gone (w : EventWorld) (q : QueuedEvent) (es : list DispatchEffect) : Prop :=
  In (DeletedEvent (qe_Name q)) es \/ ew_delete w = NotFound.

(** A step from [s] spends [n] of the mint budget: of what was read before, or of a reading
    of its own. *)
Definition spends (readings : Z -> Prop) (s s' : PassState) (n : Z) : Prop :=
  if 0 <=? mintBudget s then 0 <= mintBudget s' /\ mintBudget s' + n <= mintBudget s
  else (mintBudget s' < 0 /\ n = 0)
       \/ (0 <= mintBudget s' /\ exists b, readings b /\ mintBudget s' + n <= b).

(** The mint-budget readings that the looks at [qs] may make. *)
Definition budget_reading (art : Artifacts) (wall : Time) (world : QueuedEvent -> EventWorld) (proj : Project)
    (now : Time) (qs : list QueuedEvent) (b : Z) : Prop :=
  exists q, In q qs /\ liveMintBudget art wall proj (ew_tasks (world q)) now = Some b.

(** The events that are not of priority 2 among the admissions. *)
Definition others (es : list DispatchEffect) : list QueuedEvent :=
  List.filter (fun o => negb (effectivePriority o =? 2)) (admissions es).

(** The head of a class: queued, of the class, and with no event of it before it. *)
Definition heads_class (l : list QueuedEvent) (c : string) (q : QueuedEvent) : Prop :=
  In q l /\ qs_Class (qe_Spec q) = c /\ queued_event q = true
  /\ forall q', In q' l -> qs_Class (qe_Spec q') = c -> queued_event q' = true -> queue_le q q'.

(** A ticket of the normal pool, for a Task that runs an agent already. *)
Definition ticket (name : string) (priority seq : Z) (at_ : Time) : QueuedEvent :=
  (zero_QueuedEvent <| qe_Name := name |> <| qe_CreationTimestamp := at_ |>)
    <| qe_UID := name |>
    <| qe_Spec ::= fun sp =>
         sp <| qs_Seq := seq |> <| qs_Class := QueueClassNormal |> <| qs_Priority := Some priority |>
            <| qs_Payload ::= fun p => p <| p_TaskRef := "task" |> |> |>.

Definition at_work (event : string) : Task :=
  (on_status zero_Task (fun s => s <| State := StateRefined |> <| AgentKind := AgentImplement |>))
    <| task_Name := "task" |> <| Labels := {[ LabelQueuedEvent := event ]} |>
    <| Spec ::= fun sp => sp <| Kind := "implement" |> |>.

Definition waiting_world (minted : list Task) (q : QueuedEvent) : EventWorld :=
  mkEventWorld (Found (at_work (qe_Name q))) [] [] Deleted (Some minted) (Some []) (Found tt) GetNotFound
    None None true true TaskRefused Deleted 0 [mkAttempt (Some q) UpdateOk].

(** Nothing is limited but the slots. *)
Definition no_budget : Config := mkConfig false "" 0 0 "" 0 0 ∅ 0 0 0 0 0.
Definition no_sub : Subscription := mkSubscription f64_zero 0 f64_zero 0 0.

Definition two_tickets : list QueuedEvent := [ticket "late" 2 7 0; ticket "first" 1 9 Hour].

(** An event that creates its Task, and one it has created. *)
Definition minting : QueuedEvent :=
  (ticket "m" 2 1 0) <| qe_Spec ::= fun sp => sp <| qs_Payload ::= fun p => p <| p_TaskRef := ""%string |> |> |>.

Definition minted_already : Task   := (at_work "m") <| Labels := {[ LabelMintedBy := "m"%string ]} |>.

(** ** The order *)

Lemma queue_le_iff a b : queue_le a b <->
  effectivePriority a < effectivePriority b
  \/ (effectivePriority a = effectivePriority b /\ qs_Seq (qe_Spec a) <= qs_Seq (qe_Spec b)).
Proof.
  unfold queue_le, queueOrderBefore.
  destruct (Z.eqb_spec (effectivePriority b) (effectivePriority a)); rewrite Z.ltb_ge; lia.
Qed.

#[export] Instance queue_le_total : Total queue_le.
Proof. intros a b. rewrite !queue_le_iff. lia. Qed.

#[export] Instance queue_le_transitive : Transitive queue_le.
Proof. intros a b c. rewrite !queue_le_iff. lia. Qed.

(** ** Steps *)

Lemma step_after_spec es r : step_after es r = (r.1.1, r.1.2, (es ++ r.2)%list).
Proof. by destruct r as [[e s] es']. Qed.

Lemma admissions_app k l : admissions (k ++ l) = (admissions k ++ admissions l)%list.
Proof. unfold admissions. by rewrite omap_app. Qed.

Lemma mints_app k l : mints (k ++ l) = (mints k ++ mints l)%list.
Proof. unfold mints. by rewrite omap_app. Qed.

(** Effects without admissions. *)
Lemma omap_none {A B} (f : A -> option B) l : (forall x, In x l -> f x = None) -> omap f l = [].
Proof.
  induction l as [|x l IH]; [done|]. intros H. cbn. rewrite (H x) by (by left).
  apply IH. intros y Hy. apply H. by right.
Qed.

Definition quiet (es : list DispatchEffect) : Prop := admissions es = [] /\ mints es = [].

Lemma quiet_nil : quiet [].
Proof. done. Qed.

Lemma quiet_app k l : quiet k -> quiet l -> quiet (k ++ l).
Proof. intros [H1 H2] [H3 H4]. split; [by rewrite admissions_app, H1, H3|by rewrite mints_app, H2, H4]. Qed.

Lemma quiet_map {A} (g : A -> DispatchEffect) l :
  (forall a, admitted_by (g a) = None /\ minted_by (g a) = None) -> quiet (map g l).
Proof.
  intros H. split; apply omap_none; intros x (a & <- & _)%in_map_iff; apply H.
Qed.

Lemma delete_event_quiet a q : quiet (delete_event a q).2.
Proof. by destruct a. Qed.

Lemma dropTicket_quiet w q : quiet (dropTicket w q).2.
Proof. unfold dropTicket. pose proof (delete_event_quiet (ew_delete w) q). by destruct (delete_event _ _). Qed.

Lemma admitTicket_quiet w q : quiet (admitTicket w q).2.
Proof.
  unfold admitTicket. destruct (ew_ticket w) as [task| |]; [|apply dropTicket_quiet|done].
  destruct (_ || _); [apply dropTicket_quiet|].
  destruct (_ == ""); [destruct (unstaged _); [done|apply dropTicket_quiet]|].
  assert (quiet (map TaskMeta (o_effects (label_ticket w q task)))) by (by apply quiet_map).
  destruct (o_err _); [done|]. destruct (_ == _); [done|]. destruct (patch_error _); [done|].
  apply quiet_app; [done|by apply quiet_map].
Qed.

(** An adoption counts as minted only what it created. *)
Lemma admitAdoptedUpgrade_mints w q :
  admissions (admitAdoptedUpgrade w q).2 = []
  /\ mints (admitAdoptedUpgrade w q).2
     = match (admitAdoptedUpgrade w q).1 with AdoptMinted t true => [t] | _ => [] end.
Proof.
  assert (forall reason, admissions (drop_adopt w q reason).2 = []
    /\ mints (drop_adopt w q reason).2 = match (drop_adopt w q reason).1 with AdoptMinted t true => [t] | _ => [] end) as Hd.
  { intros reason. unfold drop_adopt. by destruct (ew_delete w). }
  assert (forall state, admissions (adopt_known w q state).2 = []
    /\ mints (adopt_known w q state).2 = match (adopt_known w q state).1 with AdoptMinted t true => [t] | _ => [] end) as Hr.
  { intros state. unfold adopt_known. destruct (state == "merged"); [apply Hd|]. destruct (state == "closed"); [apply Hd|].
    destruct (ew_adoptable w) as [[|]|]; [|apply Hd|done]. destruct (ew_upgrade w) as [[t o]|]; [|done].
    destruct (o == MintTombstoneDeleted); [done|]. by destruct (o == MintCreated). }
  unfold admitAdoptedUpgrade. destruct (ew_repo w); [|apply Hd|done].
  destruct (ew_mr w); [apply Hr|apply Hr|done].
Qed.

Lemma grows_refl s : grows s s.
Proof. repeat split; done || lia. Qed.

Lemma grows_trans s s' s'' : grows s s' -> grows s' s'' -> grows s s''.
Proof. intros (?&?&?&?) (?&?&?&?). repeat split; [lia|auto..]. Qed.

#[local] Hint Resolve grows_refl : core.

Lemma settled_more q a s' s'' es es' es'' : grows s' s'' -> settled q a s' es ->
  settled q a s'' (es' ++ es ++ es'')%list.
Proof.
  intros (_&G1&G2&G3) H. unfold settled. rewrite !admissions_app, !map_app, !in_app_iff. unfold settled in H. tauto.
Qed.

Lemma dropTicket_gone w q : (dropTicket w q).1 = TicketDropped -> is_gone w q (dropTicket w q).2.
Proof.
  unfold dropTicket, is_gone. destruct (ew_delete w); cbn; [left; by left|by right|done].
Qed.

Lemma admitTicket_gone w q : (admitTicket w q).1 = TicketDropped -> is_gone w q (admitTicket w q).2.
Proof.
  unfold admitTicket. destruct (ew_ticket w) as [task| |]; [|apply dropTicket_gone|done].
  destruct (_ || _); [apply dropTicket_gone|].
  destruct (_ == ""); [destruct (unstaged _); [done|apply dropTicket_gone]|].
  destruct (o_err _); [done|]. destruct (_ == _); [done|]. by destruct (patch_error _).
Qed.

Lemma drop_adopt_gone w q reason :
  (drop_adopt w q reason).1 = AdoptDropped -> is_gone w q (drop_adopt w q reason).2.
Proof. unfold drop_adopt, is_gone. destruct (ew_delete w); cbn; [left; by left|by right|done]. Qed.

Lemma admitAdoptedUpgrade_gone w q :
  (admitAdoptedUpgrade w q).1 = AdoptDropped -> is_gone w q (admitAdoptedUpgrade w q).2.
Proof.
  assert (forall state, (adopt_known w q state).1 = AdoptDropped -> is_gone w q (adopt_known w q state).2) as Hk.
  { intros state. unfold adopt_known. do 2 (destruct (state == _); [apply drop_adopt_gone|]).
    destruct (ew_adoptable w) as [[|]|]; [|apply drop_adopt_gone|done].
    destruct (ew_upgrade w) as [[t o]|]; [|done]. by destruct (o == _). }
  unfold admitAdoptedUpgrade. destruct (ew_repo w); [|apply drop_adopt_gone|done].
  destruct (ew_mr w); [apply Hk|apply Hk|done].
Qed.

(** ** A pass *)

Section PassLemmas.

Context (unicodeLower : string -> string) (art : Artifacts) (wall : Time).
Context (m : bool) (world : QueuedEvent -> EventWorld) (proj : Project).
Context (d : Decision) (cfg : Config) (sub : Subscription) (now : Time).

Local Abbreviation admit_event' := (admit_event unicodeLower art wall m world proj d cfg sub now).
Local Abbreviation pool_loop' := (pool_loop unicodeLower art wall m world proj d cfg sub now).

Lemma blocked_quiet class kind reason : quiet (blocked m class kind reason).
Proof. unfold blocked. by destruct m. Qed.

Local Abbreviation reading := (budget_reading art wall world proj now).

Lemma admit_as_admits class q t s :
  let r := admit_as m world class q t s in
  admits q world s r /\ mints r.2 = [] /\ mintBudget r.1.2 = mintBudget s.
Proof.
  unfold admit_as. destruct (patchStatus _ _) as [o|o|e] eqn:E; cbn [patch_error patch_written map fst snd].
  - destruct (patchStatus_written _ _ _ E) as (fresh & Hin & [= <-]).
    split; [|split; [by destruct m|done]]. right. exists fresh, t, (ew_now (world q)).
    split; [done|]. split; [by destruct m|done].
  - split; [|split; [by destruct m|done]]. exfalso.
    destruct (patchStatus_copy _ _ o (f_equal patch_error E)) as [(x & Hx & _)|(x & Hx & Hm & _)]; congruence.
  - split; [by left|done].
Qed.

Lemma admit_existing_admits class q t s :
  let r := admit_existing m world class q t s in
  admits q world s r /\ mints r.2 = [] /\ mintBudget r.1.2 = mintBudget s.
Proof.
  unfold admit_existing. destruct (queueTaskDone t); [|apply admit_as_admits].
  destruct (ew_stale (world q)); (split; [by left|done]).
Qed.

(** Effects without admissions in front of a step change nothing of what it admits. *)
Lemma admits_after q s es r : admissions es = [] -> admits q world s r -> admits q world s (step_after es r).
Proof.
  intros He. rewrite step_after_spec. unfold admits. cbn [fst snd]. by rewrite admissions_app, He.
Qed.

Lemma admits_from q s s' r : inflight s = inflight s' -> admits q world s r -> admits q world s' r.
Proof. unfold admits. by intros ->. Qed.

Lemma mint_step class q s : 0 < mintBudget s ->
  let r := mint unicodeLower m world proj class q s in
  admits q world s r /\ 0 <= mintBudget r.1.2
  /\ mintBudget r.1.2 + Z.of_nat (List.length (mints r.2)) <= mintBudget s.
Proof.
  intros Hb. unfold mint.
  assert (forall t n, admits q world s (admit_existing m world class q t (charge s))
    /\ 0 <= mintBudget (admit_existing m world class q t (charge s)).1.2
    /\ (n <= 1 -> mintBudget (admit_existing m world class q t (charge s)).1.2 + n <= mintBudget s)) as Hc.
  { intros t n. destruct (admit_existing_admits class q t (charge s)) as (Ha & _ & ->).
    split; [by apply (admits_from q (charge s))|]. cbn. lia. }
  destruct (IsAdoptedUpgradeMint (Some q)).
  - destruct (admitAdoptedUpgrade_mints (world q) q) as [Ha Hm].
    destruct (admitAdoptedUpgrade (world q) q) as [a es]. cbn [fst snd] in Ha, Hm.
    rewrite step_after_spec. cbn [fst snd]. rewrite mints_app, Hm.
    destruct a as [e| | |t created]; cbn [fst snd]; rewrite ?app_nil_r.
    1-3: split; [by left|cbn; lia].
    assert (forall s0, admits q world s (admit_existing m world class q t s0) -> admits q world s
      ((admit_existing m world class q t s0).1.1, (admit_existing m world class q t s0).1.2,
       (es ++ (admit_existing m world class q t s0).2)%list)) as Haft.
    { intros s0 H. pose proof (admits_after q s es _ Ha H) as H'. by rewrite step_after_spec in H'. }
    destruct created.
    + destruct (Hc t 1) as (H1 & H2 & H3). split; [by apply Haft|]. split; [done|].
      destruct (admit_existing_admits class q t (charge s)) as (_ & -> & _). cbn [app List.length]. lia.
    + destruct (admit_existing_admits class q t s) as (H1 & -> & H3). split; [by apply Haft|]. rewrite H3. cbn. lia.
  - destruct (BuildTaskFromQueuedEvent _ _ _ _); [|split; [by left|cbn; lia]].
    destruct (ew_create (world q)) as [t|[t|]|]; [| |split; [by left|cbn; lia]..].
    + destruct (Hc t 1) as (H1 & H2 & H3). split; [by apply admits_after|]. rewrite step_after_spec. cbn [fst snd].
      split; [done|]. rewrite mints_app. destruct (admit_existing_admits class q t (charge s)) as (_ & -> & _).
      cbn [app List.length]. apply H3. lia.
    + destruct (Hc t 0) as (H1 & H2 & H3). split; [done|]. split; [done|].
      destruct (admit_existing_admits class q t (charge s)) as (_ & -> & _). apply H3. lia.
Qed.

Lemma spends_same readings s s' : mintBudget s' = mintBudget s -> spends readings s s' 0.
Proof. intros H. unfold spends. rewrite H. destruct (Z.leb_spec 0 (mintBudget s)); [lia|left; lia]. Qed.

Lemma spends_trans readings s s' s'' n k :
  spends readings s s' n -> spends readings s' s'' k -> spends readings s s'' (n + k).
Proof.
  unfold spends. destruct (Z.leb_spec 0 (mintBudget s)), (Z.leb_spec 0 (mintBudget s')).
  - lia.
  - lia.
  - intros [[? ?]|[? (b & Hb & ?)]]; [lia|]. intros [? ?]. right. split; [done|]. exists b. split; [done|lia].
  - intros [[? ->]|[? _]]; [|lia]. intros [[? ->]|[? (b & Hb & ?)]]; [by left|right]. split; [done|]. exists b. split; [done|lia].
Qed.

Lemma spends_more (P Q : Z -> Prop) s s' n : (forall b, P b -> Q b) -> spends P s s' n -> spends Q s s' n.
Proof.
  intros H. unfold spends. destruct (0 <=? mintBudget s); [done|]. intros [?|[? (b & Hb & ?)]]; [by left|right].
  split; [done|]. exists b. split; [by apply H|done].
Qed.

Lemma admit_mint_step class q s :
  let r := admit_mint unicodeLower art wall m world proj now class q s in
  admits q world s r /\ spends (reading [q]) s r.1.2 (Z.of_nat (List.length (mints r.2))).
Proof.
  unfold admit_mint. destruct (mintedTask _ _) as [[t|]|]; [| |split; [by left|by apply spends_same]].
  - destruct (_ && _); [split; [by left|by apply spends_same]|].
    destruct (admit_existing_admits class q t s) as (H1 & -> & H3). split; [done|]. by apply spends_same.
  - unfold liveRoomFor. set (l := if 0 <=? mintBudget s then _ else _). destruct l as [room|] eqn:El;
      [|split; [by left|by apply spends_same]].
    assert (forall s' n, 0 <= mintBudget s' -> 0 < room -> mintBudget s' + n <= room -> spends (reading [q]) s s' n) as Hs.
    { intros s' n H0 Hp Hn. unfold spends. subst l. destruct (0 <=? mintBudget s); [injection El as <-; done|].
      right. split; [done|]. exists room. split; [|done]. exists q. split; [by left|done]. }
    destruct (Z.leb_spec room 0) as [Hr|Hr].
    + split; [left; by destruct (blocked_quiet class (qs_Kind (qe_Spec q)) "live_ceiling") as [? _]|].
      destruct (blocked_quiet class (qs_Kind (qe_Spec q)) "live_ceiling") as [_ Hq]. cbn [fst snd]. rewrite Hq.
      unfold spends. cbn. subst l. destruct (Z.leb_spec 0 (mintBudget s)); [injection El as <-; lia|].
      destruct (Z.eq_dec room 0) as [->|]; [right|left; lia]. split; [lia|]. exists 0. split; [|lia]. exists q. split; [by left|done].
    + destruct (mint_step class q (s <| mintBudget := room |>) ltac:(cbn; exact Hr)) as (H1 & H2 & H3).
      split; [done|]. by apply Hs.
Qed.

(** An event that is looked at is admitted, or takes no slot; and the reserve keeps the
    others than priority 2 off the last slots. *)
Lemma admit_event_step class cap reserve q s :
  let r := admit_event' class cap reserve q s in
  admits q world s r
  /\ (admissions r.2 <> [] -> 0 < reserve -> effectivePriority q <> 2 -> inflight s < cap - reserve)
  /\ spends (reading [q]) s r.1.2 (Z.of_nat (List.length (mints r.2))).
Proof.
  unfold admit_event.
  destruct ((0 <? reserve) && _ && _) eqn:Er; [split; [by left|split; [done|by apply spends_same]]|].
  assert (forall P : Prop, P -> 0 < reserve -> effectivePriority q <> 2 -> inflight s < cap - reserve) as Hres.
  { intros P _ H1 H2. destruct (Z.ltb_spec 0 reserve); [|lia]. destruct (Z.eqb_spec (effectivePriority q) 2); [done|].
    cbn in Er. lia. }
  destruct (subscription cfg && _).
  { destruct (blocked_quiet class (qs_Kind (qe_Spec q)) (snd (usage_hold d cfg sub now class q))) as [H1 H2].
    split; [left; by cbn [fst snd]|]. cbn [fst snd]. rewrite H1, H2. split; [done|by apply spends_same]. }
  destruct (IsAdmissionTicket q).
  - pose proof (admitTicket_quiet (world q) q) as [Ha Hm]. destruct (admitTicket (world q) q) as [t es].
    cbn [snd] in Ha, Hm.
    destruct t as [e| | |name].
    4: { destruct (admit_as_admits class q name s) as (H1 & H2 & H3). split; [by apply admits_after|].
      rewrite step_after_spec. cbn [fst snd]. split; [by apply Hres|]. rewrite mints_app, Hm, H2. by apply spends_same. }
    all: cbn [step_after fst snd]; rewrite app_nil_r; split; [left; by cbn [fst snd]|]; cbn [fst snd];
      rewrite Ha, Hm; (split; [done|by apply spends_same]).
  - destruct (admit_mint_step class q s) as [H1 H2]. split; [done|]. split; [by apply Hres|done].
Qed.

Lemma pool_loop_step class cap reserve queued s :
  let r := pool_loop' class cap reserve queued s in
  inflight r.1.2 = inflight s + Z.of_nat (List.length (admissions r.2))
  /\ Z.of_nat (List.length (admissions r.2)) <= Z.max 0 (cap - inflight s)
  /\ spends (reading queued) s r.1.2 (Z.of_nat (List.length (mints r.2))).
Proof.
  revert s. induction queued as [|q rest IH]; intros s; cbn [pool_loop].
  { cbn. split; [lia|]. split; [lia|]. by apply spends_same. }
  destruct (Z.leb_spec cap (inflight s)) as [Hc|Hc].
  { destruct (blocked_quiet class "" "pool_full") as [H1 H2]. cbn [fst snd]. rewrite H1, H2. cbn.
    split; [lia|]. split; [lia|]. by apply spends_same. }
  pose proof (admit_event_step class cap reserve q s) as (Ha & _ & Hs).
  destruct (admit_event' class cap reserve q s) as [[e s1] es]. cbn [fst snd] in Hs.
  assert (inflight s1 = inflight s + Z.of_nat (List.length (admissions es))
          /\ Z.of_nat (List.length (admissions es)) <= 1) as [Hi Hl].
  { destruct Ha as [[H1 H2]|(f & t & a & _ & H1 & H2 & _)]; cbn [fst snd] in *; rewrite H1, H2; cbn; lia. }
  apply (spends_more _ (reading (q :: rest))) in Hs; [|intros b (q' & [<-|[]] & Hb); exists q; split; [by left|done]].
  destruct e; [cbn [fst snd]; split; [done|]; split; [lia|done]|].
  destruct (IH s1) as (I1 & I2 & I3). rewrite step_after_spec. cbn [fst snd].
  rewrite admissions_app, mints_app, !length_app, !Nat2Z.inj_add, I1. split; [lia|]. split; [lia|].
  apply (spends_trans _ _ s1); [done|]. apply (spends_more (reading rest)); [|done].
  intros b (q' & Hin & Hb). exists q'. split; [by right|done].
Qed.

Lemma pool_queue_In qes class q :
  In q (pool_queue qes class) <-> In q qes /\ qs_Class (qe_Spec q) = class /\ queued_event q = true.
Proof.
  unfold pool_queue. rewrite <- list_elem_of_In, merge_sort_Permutation, list_elem_of_In, filter_In, andb_true_iff.
  by rewrite String.eqb_eq.
Qed.

Local Abbreviation admitPool' := (admitPool unicodeLower art wall m world proj d cfg sub now).

Lemma admitPool_spends qes iq it class cap s :
  let r := admitPool' qes iq it class cap s in
  spends (reading qes) s r.1.2 (Z.of_nat (List.length (mints r.2))).
Proof.
  unfold admitPool. destruct (_ && _).
  - assert (quiet (match pool_queue qes class with [] => [] | _ => blocked m class "" "token_budget" end)) as [_ Hq].
    { destruct (pool_queue qes class); [done|apply blocked_quiet]. }
    cbn [fst snd]. rewrite Hq. by apply spends_same.
  - set (s1 := s <| inflight := _ |>).
    destruct (pool_loop_step class cap (pool_reserve now class (pool_queue qes class)) (pool_queue qes class) s1) as (_ & _ & H).
    apply (spends_more _ (reading qes)) in H; [exact H|].
    intros b (q & Hq & Hb). exists q. split; [|done]. exact (proj1 (proj1 (pool_queue_In _ _ _) Hq)).
Qed.

(** a pool is never filled past its capacity: a pass admits at most as many of its
    events as slots were free when it began, whatever fails on the way. *)
Theorem pool_keeps_its_cap (qes iq : list QueuedEvent) (it : list Task) (class : string) (cap : Z)
    (s : PassState) :
  Z.of_nat (List.length (admissions (admitPool' qes iq it class cap s).2))
  <= Z.max 0 (cap - poolInflight iq it class).
Proof.
  unfold admitPool. destruct (_ && _).
  - assert (quiet (match pool_queue qes class with [] => [] | _ => blocked m class "" "token_budget" end)) as [Hq _].
    { destruct (pool_queue qes class); [done|apply blocked_quiet]. }
    cbn [snd]. rewrite Hq. cbn. lia.
  - set (s1 := s <| inflight := _ |>).
    by destruct (pool_loop_step class cap (pool_reserve now class (pool_queue qes class)) (pool_queue qes class) s1) as (_ & H & _).
Qed.

(** over both pools a pass mints nothing, or no more Tasks than the mint budget had room
    for when it was read, once, for one of its events: the Tasks minted earlier in the pass,
    which no cached read can show yet, are counted in memory. *)
Theorem mints_within_the_room (qes : list QueuedEvent) (tasks : list Task) (apiReader : option ProjectListing) :
  let r := admit_pass unicodeLower art wall m world proj d cfg sub now qes tasks apiReader in
  mints r.2 = []
  \/ exists q b, In q qes /\ liveMintBudget art wall proj (ew_tasks (world q)) now = Some b
       /\ Z.of_nat (List.length (mints r.2)) <= b.
Proof.
  assert (forall iq it, let r := admit_pools unicodeLower art wall m world proj d cfg sub now qes iq it in
    mints r.2 = [] \/ exists q b, In q qes /\ liveMintBudget art wall proj (ew_tasks (world q)) now = Some b
       /\ Z.of_nat (List.length (mints r.2)) <= b) as Hpools.
  { intros iq it. unfold admit_pools.
    assert (forall s s' (n : list Task), spends (reading qes) s s' (Z.of_nat (List.length n)) -> mintBudget s < 0 ->
      n = [] \/ exists q b, In q qes /\ liveMintBudget art wall proj (ew_tasks (world q)) now = Some b
       /\ Z.of_nat (List.length n) <= b) as Hend.
    { intros s s' n. unfold spends. destruct (Z.leb_spec 0 (mintBudget s)); [lia|].
      intros [[_ H1]|(H1 & b & (q & Hq & Hb) & H2)] _; [left; by destruct n|right].
      exists q, b. split; [done|]. split; [done|lia]. }
    pose proof (admitPool_spends qes iq it QueueClassAlert (AlertCapacity proj) fresh_pass) as H1.
    destruct (admitPool' qes iq it QueueClassAlert (AlertCapacity proj) fresh_pass) as [[[e1|] s1] es1];
      cbn [fst snd] in *; [by apply (Hend _ _ _ H1)|].
    pose proof (admitPool_spends qes iq it QueueClassNormal (QueueCapacity proj) s1) as H2.
    destruct (admitPool' qes iq it QueueClassNormal (QueueCapacity proj) s1) as [[e2 s2] es2]. cbn [fst snd] in H2.
    pose proof (spends_trans _ _ _ _ _ _ H1 H2) as H. rewrite <- Nat2Z.inj_add, <- length_app in H.
    destruct e2; cbn [step_after fst snd]; rewrite mints_app; by apply (Hend _ _ _ H). }
  intros r. subst r. unfold admit_pass. destruct (proj_MaxConcurrentAgents proj =? 0).
  { left. cbn [snd]. induction (List.filter queued_event qes) as [|q l IH]; [done|]. cbn [flat_map].
    rewrite mints_app, IH. unfold paused_note. by destruct (blocked_quiet (qs_Class (qe_Spec q)) "" "project_paused") as [_ ->]. }
  destruct apiReader as [a|]; [|apply Hpools]. destruct (listProjectVia a proj) as [[iq it]|]; [apply Hpools|by left].
Qed.

(** ** Order, reserve and what is left *)

Context (Hreads : reads_the_event world).

Lemma admits_one q s r : admits q world s r ->
  (admissions r.2 = [] /\ inflight r.1.2 = inflight s)
  \/ exists o, admissions r.2 = [o] /\ qe_Name o = qe_Name q /\ qe_Spec o = qe_Spec q
       /\ inflight r.1.2 = inflight s + 1 /\ r.1.1 = None.
Proof using All.
  intros [H|(fresh & t & a & Hin & H1 & H2 & H3)]; [by left|right].
  destruct (Hreads q _ fresh Hin eq_refl) as [Hn Hsp].
  exists (admitted_event t a fresh). split; [done|]. split; [exact Hn|]. split; [exact Hsp|done].
Qed.

Lemma pool_loop_order class cap reserve queued s :
  let r := pool_loop' class cap reserve queued s in
  sublist (map qe_Name (admissions r.2)) (map qe_Name queued)
  /\ (0 < reserve -> Z.of_nat (List.length (others r.2)) <= Z.max 0 (cap - reserve - inflight s)).
Proof using All.
  revert s. induction queued as [|q rest IH]; intros s; cbn [pool_loop].
  { cbn. split; [constructor|lia]. }
  destruct (Z.leb_spec cap (inflight s)) as [Hc|Hc].
  { destruct (blocked_quiet class "" "pool_full") as [H1 _]. unfold others. cbn [fst snd]. rewrite H1. cbn.
    split; [apply sublist_nil_l|lia]. }
  pose proof (admit_event_step class cap reserve q s) as (Ha & Hres & _).
  destruct (admit_event' class cap reserve q s) as [[e s1] es]. cbn [snd] in Hres.
  apply admits_one in Ha. cbn [fst snd] in Ha.
  assert (sublist (map qe_Name (admissions es)) [qe_Name q]
     /\ (0 < reserve -> Z.of_nat (List.length (others es)) <= 1
         /\ inflight s <= inflight s1
         /\ (Z.of_nat (List.length (others es)) = 1 -> inflight s < cap - reserve /\ inflight s1 = inflight s + 1))) as [Hsub Hoth].
  { unfold others. destruct Ha as [[-> ->]|(o & Hes & Hn & Hsp & Hi & _)].
    - cbn. split; [constructor; constructor|lia].
    - rewrite Hes. cbn. rewrite Hn. split; [done|]. intros Hr.
      assert (effectivePriority o = effectivePriority q) as -> by (unfold effectivePriority; by rewrite Hsp).
      destruct (Z.eqb_spec (effectivePriority q) 2) as [E|E]; cbn; [lia|].
      split; [lia|]. split; [lia|]. intros _. split; [|lia]. apply Hres; [by rewrite Hes|done|done]. }
  destruct e.
  { cbn [fst snd]. split; [|intros Hr; destruct (Hoth Hr) as (H1 & H2 & H3)].
    - change (map qe_Name (q :: rest)) with ([qe_Name q] ++ map qe_Name rest)%list.
      by apply sublist_inserts_r.
    - destruct (Z.eq_dec (Z.of_nat (List.length (others es))) 1) as [E1|]; [destruct (H3 E1); lia|lia]. }
  destruct (IH s1) as (I1 & I2). rewrite step_after_spec. cbn [fst snd]. unfold others in *.
  rewrite admissions_app, map_app, List.filter_app, length_app, Nat2Z.inj_add. split.
  - change (map qe_Name (q :: rest)) with ([qe_Name q] ++ map qe_Name rest)%list. by apply sublist_app.
  - intros Hr. destruct (Hoth Hr) as (H1 & H2 & H3). specialize (I2 Hr).
    destruct (Z.eq_dec (Z.of_nat (List.length (List.filter (fun o => negb (effectivePriority o =? 2)) (admissions es)))) 1) as [E1|];
      [destruct (H3 E1); lia|lia].
Qed.

Lemma admit_as_settles class q t s :
  let r := admit_as m world class q t s in
  grows s r.1.2 /\ (r.1.1 = None -> settled q (ew_delete (world q)) r.1.2 r.2).
Proof using All.
  destruct (admit_as_admits class q t s) as (Ha & _ & _). apply admits_one in Ha. revert Ha. unfold admit_as.
  destruct (patch_error _); cbn [fst snd]; [done|].
  intros [[_ H]|(o & Ho & Hn & _ & Hi & _)]; [cbn in H; lia|].
  split; [cbn; repeat split; done || lia|]. intros _. left. rewrite Ho. left. exact Hn.
Qed.

Lemma admit_existing_settles class q t s :
  let r := admit_existing m world class q t s in
  grows s r.1.2 /\ (r.1.1 = None -> settled q (ew_delete (world q)) r.1.2 r.2).
Proof using All.
  unfold admit_existing. destruct (queueTaskDone t); [|apply admit_as_settles].
  assert (grows s (s <| requeue := true |>)) by (repeat split; cbn; done || lia).
  destruct (ew_stale (world q)); cbn [fst snd]; (split; [done|]); [..|done];
    intros _; do 3 right; by left.
Qed.

(** The form of the three lemmas that follow: a step grows the counters, and without an
    error it settles its event. *)
Lemma settles_after q s es r :
  grows s r.1.2 /\ (r.1.1 = None -> settled q (ew_delete (world q)) r.1.2 r.2) ->
  grows s (step_after es r).1.2
  /\ ((step_after es r).1.1 = None -> settled q (ew_delete (world q)) (step_after es r).1.2 (step_after es r).2).
Proof using All.
  rewrite step_after_spec. cbn [fst snd]. intros [Hg Hs]. split; [done|]. intros He.
  rewrite <- (app_nil_r r.2). apply (settled_more q _ r.1.2); [apply grows_refl|by apply Hs].
Qed.

Lemma settles_gone q s es : is_gone (world q) q es ->
  grows s s /\ (@None AdmitError = None -> settled q (ew_delete (world q)) s es).
Proof using All. intros [H|H]; (split; [apply grows_refl|]); intros _; unfold settled; auto. Qed.

Lemma settles_requeue q s es :
  grows s (s <| requeue := true |>)
  /\ (@None AdmitError = None -> settled q (ew_delete (world q)) (s <| requeue := true |>) es).
Proof using All.
  split; [repeat split; cbn; done || lia|]. intros _. unfold settled. do 3 right. by left.
Qed.

Lemma charge_grows s : grows s (charge s).
Proof using All. repeat split; cbn; done || lia. Qed.

Lemma mint_settles class q s :
  let r := mint unicodeLower m world proj class q s in
  grows s r.1.2 /\ (r.1.1 = None -> settled q (ew_delete (world q)) r.1.2 r.2).
Proof using All.
  assert (forall t, let r := admit_existing m world class q t (charge s) in
    grows s r.1.2 /\ (r.1.1 = None -> settled q (ew_delete (world q)) r.1.2 r.2)) as Hc.
  { intros t. destruct (admit_existing_settles class q t (charge s)) as [Hg Hs].
    split; [by apply (grows_trans _ (charge s)); [apply charge_grows|]|done]. }
  unfold mint. destruct (IsAdoptedUpgradeMint (Some q)).
  - pose proof (admitAdoptedUpgrade_gone (world q) q) as Hg.
    destruct (admitAdoptedUpgrade (world q) q) as [[e| | |t created] es]; cbn [fst snd] in Hg.
    + by split; [apply grows_refl|].
    + cbn [step_after fst snd]. rewrite app_nil_r. by apply settles_gone, Hg.
    + apply settles_requeue.
    + apply settles_after. destruct created; [apply Hc|apply admit_existing_settles].
  - destruct (BuildTaskFromQueuedEvent _ _ _ _); [|by split; [apply grows_refl|]].
    destruct (ew_create (world q)) as [t|[t|]|]; [by apply settles_after|apply Hc|by split; [apply grows_refl|]..].
Qed.

Lemma admit_event_settles class cap q s reserve :
  let r := admit_event' class cap reserve q s in
  grows s r.1.2
  /\ (r.1.1 = None -> settled q (ew_delete (world q)) r.1.2 r.2
       \/ (0 < reserve /\ effectivePriority q <> 2 /\ cap - reserve <= inflight r.1.2)).
Proof using All.
  unfold admit_event.
  destruct ((0 <? reserve) && _ && _) eqn:Er.
  { split; [apply grows_refl|]. intros _. right. cbn [fst snd]. destruct (Z.eqb_spec (effectivePriority q) 2); lia. }
  assert (forall r, grows s r.1.2 /\ (r.1.1 = @None AdmitError -> settled q (ew_delete (world q)) r.1.2 r.2) ->
    grows s r.1.2 /\ (r.1.1 = @None AdmitError -> settled q (ew_delete (world q)) r.1.2 r.2
       \/ (0 < reserve /\ effectivePriority q <> 2 /\ cap - reserve <= inflight r.1.2))) as Hw by tauto.
  clear Er. apply Hw. destruct (subscription cfg && _).
  { split; [repeat split; cbn; done || lia|]. intros _. unfold settled. do 4 right. by left. }
  destruct (IsAdmissionTicket q).
  - pose proof (admitTicket_gone (world q) q) as Hg.
    destruct (admitTicket (world q) q) as [[e| | |name] es]; cbn [fst snd] in Hg.
    + by split; [apply grows_refl|].
    + cbn [step_after fst snd]. rewrite app_nil_r. by apply settles_gone, Hg.
    + apply settles_requeue.
    + apply settles_after, admit_as_settles.
  - unfold admit_mint. destruct (mintedTask _ _) as [[t|]|]; [| |by split; [apply grows_refl|]].
    + destruct (_ && _); [by split; [apply grows_refl|]|apply admit_existing_settles].
    + destruct (liveRoomFor _ _ _ _ _ _ _) as [room|]; [|by split; [apply grows_refl|]].
      destruct (room <=? 0).
      * split; [repeat split; cbn; done || lia|]. intros _. unfold settled. by do 5 right.
      * destruct (mint_settles class q (s <| mintBudget := room |>)) as [Hg Hs].
        split; [|done]. apply (grows_trans _ (s <| mintBudget := room |>)); [|done]. repeat split; cbn; done || lia.
Qed.

Lemma pool_loop_settles class cap reserve queued s :
  let r := pool_loop' class cap reserve queued s in
  grows s r.1.2
  /\ (r.1.1 = None -> forall q, In q queued ->
       settled q (ew_delete (world q)) r.1.2 r.2
       \/ cap <= inflight r.1.2
       \/ (0 < reserve /\ effectivePriority q <> 2 /\ cap - reserve <= inflight r.1.2)).
Proof using All.
  revert s. induction queued as [|q rest IH]; intros s; cbn [pool_loop].
  { by split; [apply grows_refl|]. }
  destruct (Z.leb_spec cap (inflight s)) as [Hc|Hc].
  { split; [apply grows_refl|]. intros _ q' _. right. by left. }
  destruct (admit_event_settles class cap q s reserve) as [Hg Hs].
  destruct (admit_event' class cap reserve q s) as [[e s1] es]. cbn [fst snd] in Hg, Hs.
  destruct e; [by split|]. destruct (IH s1) as [Ig Is].
  rewrite step_after_spec. cbn [fst snd]. split; [by apply (grows_trans _ s1)|].
  intros He q' [<-|Hin].
  - pose proof Ig as (Hi & _). destruct (Hs eq_refl) as [H|(H1 & H2 & H3)].
    + left. by apply (settled_more q _ s1 _ es []).
    + right. right. split; [done|]. split; [done|lia].
  - destruct (Is He q' Hin) as [H|H]; [left|by right]. rewrite <- (app_nil_r (_ ++ _)%list), <- app_assoc.
    by apply (settled_more q' _ _ _ _ es [] (grows_refl _)).
Qed.

(** an event that a pass over a pool leaves in the queue is left there for a reason that
    can be seen: its pool is full but for the reserved slot, or the pass asks to be run
    again, or it is held by account usage or the live ceiling, which the reconcile answers
    with a delay; every other one is admitted or gone. *)
Theorem nothing_left_unexplained (qes iq : list QueuedEvent) (it : list Task) (class : string) (cap : Z)
    (s s' : PassState) (es : list DispatchEffect) (q : QueuedEvent) :
  (negb (subscription cfg) && poolBlocked d class) = false ->
  admitPool' qes iq it class cap s = (None, s', es) ->
  In q qes -> qs_Class (qe_Spec q) = class -> queued_event q = true ->
  settled q (ew_delete (world q)) s' es
  \/ (if (class == QueueClassNormal) && hasStarvingPriority2 (pool_queue qes class) now
         && negb (effectivePriority q =? 2) then cap - 1 else cap) <= inflight s'.
Proof using All.
  intros Hb. unfold admitPool. rewrite Hb. set (reserve := pool_reserve _ _ _). intros Hp Hq Hc Hd.
  match type of Hp with pool_loop _ _ _ _ _ _ _ _ _ _ _ _ _ _ ?s1 = _ =>
    destruct (pool_loop_settles class cap reserve (pool_queue qes class) s1) as [_ H] end.
  rewrite Hp in H. cbn [fst snd] in H.
  destruct (H eq_refl q) as [H1|[H1|(H1 & H2 & H3)]]; [by apply pool_queue_In|by left|right..].
  - match goal with |- (if ?b then _ else _) <= _ => destruct b end; lia.
  - unfold reserve, pool_reserve in *. destruct (_ && hasStarvingPriority2 _ _); [|lia].
    destruct (Z.eqb_spec (effectivePriority q) 2); [done|exact H3].
Qed.

(** a pool is admitted in the order of its queue: by priority, and by sequence number
    within one. *)
Theorem pool_in_order (qes iq : list QueuedEvent) (it : list Task) (class : string) (cap : Z)
    (s : PassState) :
  sublist (map qe_Name (admissions (admitPool' qes iq it class cap s).2))
          (map qe_Name (pool_queue qes class))
  /\ StronglySorted queue_le (pool_queue qes class)
  /\ Permutation (pool_queue qes class)
       (List.filter (fun q => (qs_Class (qe_Spec q) == class) && queued_event q) qes).
Proof using All.
  split; [|split; [apply StronglySorted_merge_sort; apply _|apply merge_sort_Permutation]].
  unfold admitPool. destruct (_ && _).
  - assert (quiet (match pool_queue qes class with [] => [] | _ => blocked m class "" "token_budget" end)) as [Hq _].
    { destruct (pool_queue qes class); [done|apply blocked_quiet]. }
    cbn [snd]. rewrite Hq. apply sublist_nil_l.
  - apply pool_loop_order.
Qed.

(** while an event of priority 2 has waited for more than an hour, the events of the
    other priorities do not take the last slot of the pool: a pass admits one of priority
    2, or leaves a slot free. *)
Theorem starving_slot (qes iq : list QueuedEvent) (it : list Task) (cap : Z) (s : PassState) :
  hasStarvingPriority2 (pool_queue qes QueueClassNormal) now = true ->
  poolInflight iq it QueueClassNormal < cap ->
  let es := (admitPool' qes iq it QueueClassNormal cap s).2 in
  (exists o, In o (admissions es) /\ effectivePriority o = 2)
  \/ poolInflight iq it QueueClassNormal + Z.of_nat (List.length (admissions es)) < cap.
Proof using All.
  intros Hst Hfree es. subst es. unfold admitPool, pool_reserve. rewrite Hst. change (_ == _) with true.
  destruct (_ && _).
  - assert (quiet (match pool_queue qes QueueClassNormal with [] => [] | _ => blocked m QueueClassNormal "" "token_budget" end)) as [Hq _].
    { destruct (pool_queue qes QueueClassNormal); [done|apply blocked_quiet]. }
    right. cbn [snd]. rewrite Hq. cbn. lia.
  - cbn [andb]. set (s1 := s <| inflight := _ |>).
    destruct (pool_loop_order QueueClassNormal cap 1 (pool_queue qes QueueClassNormal) s1) as [_ H].
    specialize (H ltac:(lia)). change (inflight s1) with (poolInflight iq it QueueClassNormal) in H.
    unfold others in H. set (adm := admissions _) in *.
    destruct (List.existsb (fun o => effectivePriority o =? 2) adm) eqn:E.
    + left. apply existsb_exists in E as (o & Ho & E). exists o. split; [done|by apply Z.eqb_eq].
    + right. enough (List.filter (fun o => negb (effectivePriority o =? 2)) adm = adm) as He by (rewrite He in H; lia).
      clear -E. induction adm as [|o l IH]; [done|]. cbn in E |- *. apply orb_false_iff in E as [-> E]. cbn. by rewrite IH.
Qed.

End PassLemmas.

(** ** One event *)

Lemma older_task_some l f : exists g, fold_left older_task l (Some f) = Some g.
Proof.
  revert f. induction l as [|t l IH]; intros f; [by exists f|]. cbn.
  destruct (Before _ _); apply IH.
Qed.


(** ** Done events *)

(** clearing the admitted events whose Task is gone, finished or past their stage
    deletes these and no other, and frees no slot that was counted: what still runs keeps
    its slot. *)
Theorem reconcileDone_frees_what_is_done (answer : QueuedEvent -> DeleteAnswer) (qes : list QueuedEvent)
    (tasks : list Task) (class : string) :
  let r := reconcileDone answer qes tasks in
  (forall q, event_done tasks q = true <->
     qst_State (qe_Status q) = QueueStateAdmitted
     /\ forall t, taskByName tasks (qst_TaskRef (qe_Status q)) = Some t -> TaskDone t = true \/ ticketSpent q t = true)
  /\ (r.1.2 = None ->
    r.2 = flat_map (fun q => match answer q with Deleted => [DeletedEvent (qe_Name q)] | _ => [] end)
            (List.filter (event_done tasks) qes)
    /\ r.1.1 = existsb (event_done tasks) qes)
  /\ (r.1.2 <> None <-> exists q, In q qes /\ event_done tasks q = true /\ answer q = DeleteFailed)
  /\ poolInflight (List.filter (fun q => negb (event_done tasks q)) qes) tasks class
     = poolInflight qes tasks class.
Proof.
  assert (forall q, event_done tasks q = true -> holds_slot tasks class q = false) as Hfree.
  { intros q. unfold event_done, holds_slot. destruct (_ != QueueStateAdmitted); [done|]. rewrite orb_false_r.
    destruct (_ != class); [done|]. destruct (taskByName _ _) as [t|]; [|done].
    unfold queueTaskHoldsSlot. destruct (queueTaskDone t); [done|]. cbn [orb]. intros ->. by rewrite andb_false_r. }
  intros r. subst r. split.
  { intros q. unfold event_done, queueTaskDone. destruct (String.eqb_spec (qst_State (qe_Status q)) QueueStateAdmitted) as [E|E];
      cbn [negb]; [|split; [done|by intros []]]. destruct (taskByName _ _) as [t|].
    - rewrite orb_true_iff. split; [intros H; split; [done|by intros ? [= <-]]|intros [_ H]; by apply H].
    - by split. }
  induction qes as [|q rest IH]; cbn [reconcileDone].
  { split; [done|]. split; [|done]. split; [done|]. by intros (q & [] & _). }
  destruct IH as (I1 & I2 & I3). cbn [List.filter existsb].
  destruct (event_done tasks q) eqn:Eq; cbn [negb List.filter flat_map orb].
  - assert (poolInflight (q :: rest) tasks class = poolInflight rest tasks class) as ->
      by (unfold poolInflight; cbn [List.filter]; by rewrite (Hfree q Eq)).
    destruct (reconcileDone answer rest tasks) as [[c e] es']. cbn [fst snd] in I1, I2.
    destruct (answer q) eqn:Ea; cbn [delete_event fst snd app].
    3: { split; [done|]. split; [|done]. split; [|done]. intros _. exists q. by split; [left|]. }
    all: (split; [intros He; destruct (I1 He) as [-> _]; done|]); (split; [|done]); rewrite I2;
      (split; intros (x & Hx & H1 & H2); [exists x; by split; [right|]|];
       destruct Hx as [<-|Hx]; [congruence|by exists x]).
  - destruct (reconcileDone answer rest tasks) as [[c e] es']. cbn [fst snd] in *. split; [done|]. split.
    + rewrite I2. split; intros (x & Hx & H1 & H2); [exists x; by split; [right|]|].
      destruct Hx as [<-|Hx]; [congruence|by exists x].
    + unfold poolInflight in *. cbn [List.filter]. destruct (holds_slot tasks class q); cbn [List.length]; lia.
Qed.

(** ** The delay *)

Lemma budgetRequeueAfter_bounds {Schedule} (ParseStandard : string -> option Schedule) Next cfg now :
  0 < budgetRequeueAfter ParseStandard Next cfg now <= 5 * Minute.
Proof.
  assert (0 < 60 * Second <= 5 * Minute) by (split; vm_compute; done).
  unfold budgetRequeueAfter. destruct (_ == ""); [done|]. destruct (ParseSchedule _ _); [|done].
  destruct (IsZero _); [done|]. set (wait := i64 _). clearbody wait.
  destruct (Z.leb_spec wait 0); [done|]. destruct (Z.ltb_spec (5 * Minute) wait); lia.
Qed.

(** whatever holds an event back brings the reconcile back: the delay is positive exactly
    when something was deferred, a blocked budget or account usage holds an event, or,
    where no backstop is wired, an event waits for a full pool or for the live ceiling. *)
Theorem held_events_come_back {Schedule : Type} (ParseStandard : string -> option Schedule)
    (Next : Schedule -> Time -> Time) (proj : Project) (qes : list QueuedEvent) (tasks : list Task)
    (d : Decision) (cfg : Config) (s : PassState) (wired : bool) (poll : Duration) (now : Time) :
  let waiting := pool_waiting proj qes tasks QueueClassNormal || pool_waiting proj qes tasks QueueClassAlert in
  let budgetHeld := (ProactiveBlocked d && poolHasQueued qes QueueClassNormal)
                    || (EmergencyBlocked d && poolHasQueued qes QueueClassAlert) in
  let delay := requeue_after ParseStandard Next proj qes tasks d cfg s wired poll now in
  (0 < delay <-> requeue s || budgetHeld || heldOnUsage s
                 || (negb wired && (waiting || heldOnLiveCeiling s)) = true)
  /\ 0 <= delay <= Z.max poll (5 * Minute).
Proof.
  intros waiting budgetHeld delay. subst delay. unfold requeue_after. fold waiting budgetHeld.
  pose proof (budgetRequeueAfter_bounds ParseStandard Next cfg now) as Hb.
  assert (0 < Second <= 5 * Minute) by (split; vm_compute; done).
  assert (0 < blockedPollInterval <= 5 * Minute) by (split; vm_compute; done).
  assert (0 < 60 * Second <= 5 * Minute) by (split; vm_compute; done).
  destruct (requeue s); [cbn; lia|]. destruct budgetHeld; [cbn; lia|].
  destruct (heldOnUsage s); cbn [orb andb].
  { unfold usageRequeueAfter. destruct (Z.ltb_spec 0 poll); lia. }
  destruct (waiting || heldOnLiveCeiling s), wired; unfold blockedPoll; cbn; lia.
Qed.

(** ** Tickets *)

Lemma set_kind_written k attempts t :
  In t (patch_written (patchStatus (set_kind k) attempts)) -> AgentKind (Status t) = k.
Proof.
  destruct (patchStatus _ _) as [o|o|e] eqn:E; [|done|done]. intros [<-|[]].
  destruct (patchStatus_written _ _ _ E) as (f & _ & Hf). unfold set_kind in Hf.
  destruct (_ == k); [done|]. by injection Hf as <-.
Qed.

Lemma set_label_written q task attempts o :
  patchTaskAnnotations task (set_label q) attempts = o -> o_err o = None ->
  default ""%string (Labels (o_task o) !! LabelQueuedEvent) = qe_Name q.
Proof.
  intros <-. unfold patchTaskAnnotations. induction (firstn 5 attempts) as [|[[f|] ans] l IH]; [done| |done].
  cbn [patch_attempts at_fresh at_answer].
  unfold set_label at 1 3. destruct (String.eqb_spec (default ""%string (Labels f !! LabelQueuedEvent)) (qe_Name q)) as [E|E];
    [done|]. destruct ans; [|done|done]. intros _. cbn. by rewrite lookup_insert.
Qed.

(** a ticket is admitted only for a Task that is alive and whose stage runs an agent,
    which is labelled with the event and told to run the agent of its stage, whatever agent
    the ticket names; it waits for a Task that is not triaged yet; and it is dropped only
    where the Task is gone, finished, or in a stage that runs no agent. *)
Theorem ticket_verdicts (w : EventWorld) (q : QueuedEvent) :
  let alive task := DeletionTimestamp task = None /\ queueTaskDone task = false in
  let agent task := AgentKindFor (State (Status task)) (Kind (Spec task)) in
  match (admitTicket w q).1 with
  | TicketFailed _ => True
  | TicketDropped =>
      ew_ticket w = GetNotFound
      \/ exists task, ew_ticket w = Found task
           /\ (alive task -> agent task = ""%string /\ unstaged (State (Status task)) = false)
  | TicketDeferred =>
      exists task, ew_ticket w = Found task /\ alive task /\ agent task = ""%string
           /\ unstaged (State (Status task)) = true
  | TicketAdmitted name =>
      exists task labelled, ew_ticket w = Found task /\ alive task /\ agent task <> ""%string
        /\ default ""%string (Labels labelled !! LabelQueuedEvent) = qe_Name q
        /\ (labelled = task \/ o_task (patchTaskAnnotations task (set_label q) (ew_label w)) = labelled)
        /\ (AgentKind (Status labelled) = agent task
            \/ patch_error (patchStatus (set_kind (agent task)) (ew_kind w)) = None)
        /\ forall t, In (TaskKind t) (admitTicket w q).2 -> AgentKind (Status t) = agent task
  end.
Proof.
  intros alive agent. unfold admitTicket. destruct (ew_ticket w) as [task| |]; [|unfold dropTicket; destruct (ew_delete w); cbn; [by left..|done]|done].
  destruct (DeletionTimestamp task) as [dt|] eqn:Edt; cbn [is_set orb].
  { unfold dropTicket. destruct (ew_delete w); cbn; [right..|done]; exists task; split; try done; unfold alive; intros [H _]; congruence. }
  destruct (queueTaskDone task) eqn:Edn.
  { unfold dropTicket. destruct (ew_delete w); cbn; [right..|done]; exists task; split; try done; unfold alive; intros [_ H]; congruence. }
  assert (alive task) as Hal by done. fold (agent task).
  destruct (String.eqb_spec (agent task) "") as [Ea|Ea].
  { destruct (unstaged _) eqn:Eu; [by exists task|].
    unfold dropTicket. destruct (ew_delete w); cbn; [right..|done]; by exists task. }
  assert (o_err (label_ticket w q task) = None ->
    default ""%string (Labels (o_task (label_ticket w q task)) !! LabelQueuedEvent) = qe_Name q
    /\ (o_task (label_ticket w q task) = task
        \/ o_task (patchTaskAnnotations task (set_label q) (ew_label w)) = o_task (label_ticket w q task))) as Hl.
  { unfold label_ticket. destruct (String.eqb_spec (default ""%string (Labels task !! LabelQueuedEvent)) (qe_Name q)); cbn [negb].
    - intros _. split; [done|by left].
    - intros H. split; [by apply (set_label_written q task (ew_label w))|by right]. }
  assert (forall t es, In (TaskKind t) (map TaskMeta es) -> False) as Hno
    by (intros t es (x & Hx & _)%in_map_iff; discriminate).
  destruct (o_err _); [done|]. destruct (Hl eq_refl) as [H1 H2].
  destruct (String.eqb_spec (AgentKind (Status (o_task (label_ticket w q task)))) (agent task)) as [Ek|Ek]; cbn [fst snd].
  - exists task, (o_task (label_ticket w q task)). repeat (split; [done|]).
    split; [by left|]. intros t Ht. by destruct (Hno _ _ Ht).
  - destruct (patch_error _) eqn:Ep; [done|]. cbn [fst snd].
    exists task, (o_task (label_ticket w q task)). repeat (split; [done|]).
    split; [by right|]. intros t Ht. apply in_app_or in Ht as [Ht|Ht]; [by destruct (Hno _ _ Ht)|].
    apply in_map_iff in Ht as (x & [= <-] & Hx). by apply set_kind_written in Hx.
Qed.

(** ** The backstop *)

Lemma pool_heads_snoc l q : pool_heads (l ++ [q]) = head_step (pool_heads l) q.
Proof. unfold pool_heads. by rewrite fold_left_app. Qed.

Lemma pool_heads_spec l c :
  match pool_heads l !! c with
  | Some q => heads_class l c q
  | None => forall q, In q l -> qs_Class (qe_Spec q) = c -> queued_event q = false
  end.
Proof.
  induction l as [|x l IH] using rev_ind; [unfold pool_heads; cbn [fold_left]; rewrite lookup_empty; by intros q []|]. rewrite pool_heads_snoc. unfold head_step.
  destruct (queued_event x) eqn:Ex; cbn [negb].
  2: { destruct (pool_heads l !! c) as [q|].
    - destruct IH as (H1 & H2 & H3 & H4). split; [by apply in_or_app; left|]. repeat (split; [done|]).
      intros q' [Hq|[<-|[]]]%in_app_or; [by apply H4|congruence].
    - intros q [Hq|[<-|[]]]%in_app_or; [by apply IH|done]. }
  destruct (String.eq_dec (qs_Class (qe_Spec x)) c) as [<-|Hne].
  - assert (forall y, (forall q', In q' l -> qs_Class (qe_Spec q') = qs_Class (qe_Spec x) -> queued_event q' = true -> queue_le y q') ->
      queue_le y x -> forall q', In q' (l ++ [x])%list -> qs_Class (qe_Spec q') = qs_Class (qe_Spec x) -> queued_event q' = true -> queue_le y q') as Hx.
    { intros y Hy Hyx q' [Hq|[<-|[]]]%in_app_or; [by apply Hy|done]. }
    destruct (pool_heads l !! qs_Class (qe_Spec x)) as [cur|] eqn:Ec.
    + destruct IH as (H1 & H2 & H3 & H4). destruct (queueOrderBefore x cur) eqn:Eo.
      * rewrite lookup_insert_eq. assert (queue_le x cur) as Hc.
        { destruct (queue_le_total x cur) as [?|H]; [done|unfold queue_le in H; congruence]. }
        split; [apply in_or_app; right; by left|]. repeat (split; [done|]).
        apply Hx; [|by destruct (queue_le_total x x)]. intros q' Hq Hcl Hqq. etransitivity; [exact Hc|by apply H4].
      * rewrite Ec. split; [by apply in_or_app; left|]. repeat (split; [done|]). by apply Hx.
    + rewrite lookup_insert_eq. split; [apply in_or_app; right; by left|]. repeat (split; [done|]).
      apply Hx; [|by destruct (queue_le_total x x)]. intros q' Hq Hcl Hqq. rewrite (IH q' Hq Hcl) in Hqq. done.
  - assert ((if match pool_heads l !! qs_Class (qe_Spec x) with
               | Some cur => queueOrderBefore x cur | None => true end
             then <[qs_Class (qe_Spec x) := x]> (pool_heads l) else pool_heads l) !! c = pool_heads l !! c) as He.
    { destruct (match _ with Some _ => _ | None => _ end); [by apply lookup_insert_ne|done]. }
    assert (match pool_heads l !! qs_Class (qe_Spec x) with
      | Some cur => if queueOrderBefore x cur then <[qs_Class (qe_Spec x) := x]> (pool_heads l) else pool_heads l
      | None => <[qs_Class (qe_Spec x) := x]> (pool_heads l) end !! c = pool_heads l !! c) as ->
      by (by destruct (pool_heads l !! qs_Class (qe_Spec x))).
    destruct (pool_heads l !! c) as [q|].
    + destruct IH as (H1 & H2 & H3 & H4). split; [by apply in_or_app; left|]. repeat (split; [done|]).
      intros q' [Hq|[<-|[]]]%in_app_or; [by apply H4|done].
    + intros q [Hq|[<-|[]]]%in_app_or; [by apply IH|done].
Qed.

Lemma pendingPoolHeads_In qes q :
  In q (pendingPoolHeads qes) <-> pool_heads qes !! qs_Class (qe_Spec q) = Some q.
Proof.
  unfold pendingPoolHeads. rewrite <- list_elem_of_In, list_elem_of_omap. split.
  - intros (c & _ & Hc). pose proof (pool_heads_spec qes c) as Hs. rewrite Hc in Hs.
    destruct Hs as (_ & -> & _). done.
  - intros H. exists (qs_Class (qe_Spec q)). split; [|done].
    rewrite merge_sort_Permutation. apply list_elem_of_fmap. exists (qs_Class (qe_Spec q), q).
    split; [done|]. by apply elem_of_map_to_list.
Qed.

(** the backstop wakes one event of every class that has a queued one: the first of
    that class in the order of admission. *)
Theorem backstop_wakes_every_class (qes : list QueuedEvent) :
  (forall q, In q (pendingPoolHeads qes) -> heads_class qes (qs_Class (qe_Spec q)) q)
  /\ (forall q, In q qes -> queued_event q = true ->
        exists h, In h (pendingPoolHeads qes) /\ qs_Class (qe_Spec h) = qs_Class (qe_Spec q) /\ queue_le h q)
  /\ NoDup (map (fun q => qs_Class (qe_Spec q)) (pendingPoolHeads qes)).
Proof.
  split; [|split].
  - intros q H%pendingPoolHeads_In. pose proof (pool_heads_spec qes (qs_Class (qe_Spec q))) as Hs. by rewrite H in Hs.
  - intros q Hq Hd. pose proof (pool_heads_spec qes (qs_Class (qe_Spec q))) as Hs.
    destruct (pool_heads qes !! qs_Class (qe_Spec q)) as [h|] eqn:Eh; [|by rewrite (Hs q Hq eq_refl) in Hd].
    destruct Hs as (H1 & H2 & H3 & H4). exists h.
    split; [apply pendingPoolHeads_In; by rewrite H2|]. split; [done|by apply H4].
  - assert (NoDup (merge_sort string_le (map fst (map_to_list (pool_heads qes))))) as Hn.
    { rewrite merge_sort_Permutation. apply (NoDup_fst_map_to_list (pool_heads qes)). }
    unfold pendingPoolHeads. induction (merge_sort _ _) as [|c l IH]; [constructor|].
    apply NoDup_cons in Hn as [Hc Hn]. cbn. pose proof (pool_heads_spec qes c) as Hs.
    destruct (pool_heads qes !! c) as [h|]; [|by apply IH]. destruct Hs as (_ & <- & _). cbn.
    apply NoDup_cons. split; [|by apply IH]. intros (h' & He & Hin)%list_elem_of_fmap.
    apply list_elem_of_omap in Hin as (c' & Hc' & Hh'). pose proof (pool_heads_spec qes c') as Hs. rewrite Hh' in Hs.
    destruct Hs as (_ & <- & _). by rewrite He in Hc.
Qed.

(** ** Witnesses *)

Lemma waiting_reads l : reads_the_event (waiting_world l).
Proof. intros q a fresh [<-|[]] [= <-]. done. Qed.

Lemma nothing_left_unexplained_witness :
  let r := admitPool (fun s => s) nothing_attached 0 false (waiting_world []) zero_Project zero_Decision
             no_budget no_sub (2 * Hour) two_tickets [] [] QueueClassNormal 1 fresh_pass in
  settled (ticket "first" 1 9 Hour) Deleted r.1.2 r.2 \/ 1 - 1 <= inflight r.1.2.
Proof.
  intros r. destruct r as [[e s'] es] eqn:E.
  assert (e = None) as -> by (change e with ((e, s', es).1.1); rewrite <- E; vm_compute; reflexivity).
  refine (nothing_left_unexplained (fun s => s) nothing_attached 0 false (waiting_world []) zero_Project zero_Decision
    no_budget no_sub (2 * Hour) (waiting_reads []) two_tickets [] [] QueueClassNormal 1 fresh_pass s' es
    (ticket "first" 1 9 Hour) eq_refl E _ eq_refl eq_refl).
  right. by left.
Defined.

Lemma pool_in_order_witness :
  sublist (map qe_Name (admissions (admitPool (fun s => s) nothing_attached 0 false (waiting_world []) zero_Project
             zero_Decision no_budget no_sub Minute two_tickets [] [] QueueClassNormal 3 fresh_pass).2))
          ["first"; "late"]%string.
Proof.
  exact (proj1 (pool_in_order (fun s => s) nothing_attached 0 false (waiting_world []) zero_Project zero_Decision
    no_budget no_sub Minute (waiting_reads []) two_tickets [] [] QueueClassNormal 3 fresh_pass)).
Defined.

Lemma starving_slot_witness :
  let es := (admitPool (fun s => s) nothing_attached 0 false (waiting_world []) zero_Project zero_Decision
               no_budget no_sub (2 * Hour) two_tickets [] [] QueueClassNormal 1 fresh_pass).2 in
  (exists o, In o (admissions es) /\ effectivePriority o = 2)
  \/ 0 + Z.of_nat (List.length (admissions es)) < 1.
Proof.
  exact (starving_slot (fun s => s) nothing_attached 0 false (waiting_world []) zero_Project zero_Decision
    no_budget no_sub (2 * Hour) (waiting_reads []) two_tickets [] [] 1 fresh_pass eq_refl eq_refl).
Defined.

