(* ===== verification/Refs.v ===== *)
(** * References to the forge's objects (internal/scm: github.go, gitlab.go, slug.go;
    internal/controller: writeback_util.go, semver_label.go): the slug of a repository's
    URL, the reference a controller renders from it, and what the adapters read back. *)

From Stdlib Require Import String Ascii.
From S2P Require Import Prelude Text Limits Seq.

Open Scope Z_scope.
Open Scope go_scope.

(** ** strings *)

(** The index of the last [c], -1 without one: [strings.LastIndexByte]. *)
Fixpoint LastIndexByte (s : string) (c : ascii) : Z :=
  match s with
  | EmptyString => -1
  | String a s' =>
      let i := LastIndexByte s' c in
      if 0 <=? i then i + 1 else if Ascii.eqb a c then 0 else -1
  end.

(** [strings.Split(s, "/")]. *)
Fixpoint split_slash (s : string) : list string :=
  match s with
  | EmptyString => [""]
  | String a s' =>
      if Ascii.eqb a "/" then "" :: split_slash s'
      else match split_slash s' with
           | w :: l => String a w :: l
           | [] => [String a ""]
           end
  end.

Fixpoint trim_left_slash (s : string) : string :=
  match s with
  | String a s' => if Ascii.eqb a "/" then trim_left_slash s' else s
  | EmptyString => ""
  end.

Fixpoint trim_right_slash (s : string) : string :=
  match s with
  | String a s' =>
      match trim_right_slash s' with
      | EmptyString => if Ascii.eqb a "/" then "" else String a ""
      | t => String a t
      end
  | EmptyString => ""
  end.

(** [strings.TrimSuffix(s, ".git")]. *)
Fixpoint trim_git (s : string) : string :=
  if s == ".git" then ""
  else match s with String a s' => String a (trim_git s') | EmptyString => "" end.

(** ** Slugs of URLs: [path] is what [url.Parse] answers for the path, [None] its error. *)

Definition repo_path (path : option string) : option string :=
  option_map (fun p => trim_git (trim_right_slash (trim_left_slash p))) path.

Definition ghOwnerRepo (path : option string) : option (string * string) :=
  match repo_path path with
  | None => None
  | Some p =>
      match split_slash p with
      | [owner; repo] => if (owner == "") || (repo == "") then None else Some (owner, repo)
      | _ => None
      end
  end.

Definition glProjectPath (path : option string) : option string :=
  match repo_path path with
  | None => None
  | Some p => if p == "" then None else Some p
  end.

Definition gh_slug (path : option string) : option string :=
  option_map (fun on => String.append (fst on) (String "/" (snd on))) (ghOwnerRepo path).

(** [toLower] is [strings.ToLower]. *)
Definition RepoSlugFromURL (toLower : string -> string) (parse : string -> option string) (repoURL : string)
  : option string :=
  if Contains (toLower repoURL) "gitlab" then glProjectPath (parse repoURL) else gh_slug (parse repoURL).

(** On an error the slug GitHub's branch answers is of no use: [None]. *)
Definition repoSlugFromURL (toLower : string -> string) (parse : string -> option string)
    (repoURL provider : string) : option string :=
  if provider == "gitlab" then glProjectPath (parse repoURL)
  else if provider == "github" then gh_slug (parse repoURL)
  else RepoSlugFromURL toLower parse repoURL.

(** ** References *)

Definition with_sigil (slug : string) (sigil : ascii) (number : Z) : string :=
  String.append slug (String sigil (FormatInt number)).

Definition commentRef (slug provider : string) (number : Z) (isPR : bool) : string :=
  if isPR && (provider == "gitlab") then with_sigil slug "!" number else with_sigil slug "#" number.

Definition prLabelRef (slug provider : string) (number : Z) : string :=
  if provider == "gitlab" then with_sigil slug "!" number else with_sigil slug "#" number.

Definition ghIssueRef (ref : string) : option (string * string * Z) :=
  let at_ := LastIndexByte ref "#" in
  if at_ <? 0 then None
  else match split_slash (take_bytes (Z.to_nat at_) ref) with
       | [owner; repo] =>
           if (owner == "") || (repo == "") then None
           else match ParseInt (drop_bytes (Z.to_nat at_ + 1) ref) with
                | Some n => Some (owner, repo, n)
                | None => None
                end
       | _ => None
       end.

Definition glParseRef (ref : string) (sep : ascii) : option (string * Z) :=
  let at_ := LastIndexByte ref sep in
  if at_ <? 0 then None
  else let proj := take_bytes (Z.to_nat at_) ref in
       if proj == "" then None
       else match ParseInt (drop_bytes (Z.to_nat at_ + 1) ref) with
            | Some iid => Some (proj, iid)
            | None => None
            end.

Definition glHashRef (ref : string) : option (string * Z) := glParseRef ref "#".
Definition glBangRef (ref : string) : option (string * Z) := glParseRef ref "!".

Definition glLabelRef (ref : string) : option (string * Z * string) :=
  if LastIndexByte ref "#" <? LastIndexByte ref "!"
  then option_map (fun r => (r, "merge_requests")) (glBangRef ref)
  else option_map (fun r => (r, "issues")) (glHashRef ref).

(** ** Lemmas *)

Lemma LastIndexByte_range s c : -1 <= LastIndexByte s c < Z.of_nat (String.length s).
Proof.
  induction s as [|a s IH]; cbn [LastIndexByte String.length]; [lia|].
  destruct (Z.leb_spec 0 (LastIndexByte s c)); [lia|]. destruct (Ascii.eqb a c); lia.
Qed.

Lemma LastIndexByte_app s d c : LastIndexByte d c = -1 ->
  LastIndexByte (String.append s d) c = LastIndexByte s c.
Proof. intros Hd. induction s as [|a s IH]; [done|]. rewrite app_cons. cbn. by rewrite IH. Qed.

Lemma LastIndexByte_here s d c : LastIndexByte d c = -1 ->
  LastIndexByte (String.append s (String c d)) c = Z.of_nat (String.length s).
Proof.
  intros Hd. induction s as [|a s IH].
  - rewrite app_start. cbn. by rewrite Hd, Ascii.eqb_refl.
  - rewrite app_cons. cbn [LastIndexByte String.length]. rewrite IH.
    destruct (Z.leb_spec 0 (Z.of_nat (String.length s))); lia.
Qed.

(** The digits of a number hold no sigil. *)
Lemma digits_no_sigil c fuel n acc :
  (forall d, 0 <= d <= 9 -> Ascii.eqb (digit d) c = false) ->
  0 <= n < 10 ^ Z.of_nat fuel -> (0 < fuel)%nat ->
  LastIndexByte acc c = -1 -> LastIndexByte (format_digits fuel n acc) c = -1.
Proof.
  intros Hd. revert n acc. induction fuel as [|f IH]; intros n acc Hn Hf Hacc; [lia|].
  cbn [format_digits]. destruct (Z.ltb_spec n 10) as [Hlt|Hge].
  - cbn [LastIndexByte]. rewrite Hacc, (Hd n ltac:(lia)). done.
  - assert (0 < f)%nat as Hf'. { destruct f; [|lia]. cbn in Hn. lia. }
    apply IH; [|done|].
    + rewrite Nat2Z.inj_succ, Z.pow_succ_r in Hn by lia. split; [apply Z.div_pos; lia|].
      apply Z.div_lt_upper_bound; lia.
    + cbn [LastIndexByte]. rewrite Hacc, (Hd (n mod 10)); [done|].
      pose proof (Z.mod_pos_bound n 10 ltac:(lia)). lia.
Qed.

Lemma FormatInt_no_sigil c n : In c ["!"; "#"; "/"]%char -> 0 <= n < two63 -> LastIndexByte (FormatInt n) c = -1.
Proof.
  intros Hc Hn. unfold FormatInt. destruct (Z.ltb_spec n 0); [lia|].
  assert (forall d, 0 <= d <= 9 -> Ascii.eqb (digit d) c = false) as Hd.
  { intros d Hd.
    assert (d = 0 \/ d = 1 \/ d = 2 \/ d = 3 \/ d = 4 \/ d = 5 \/ d = 6 \/ d = 7 \/ d = 8 \/ d = 9) as Hv
      by lia.
    destruct Hc as [<-|[<-|[<-|[]]]]; destruct Hv as [->|[->|[->|[->|[->|[->|[->|[->|[->| ->]]]]]]]]]; reflexivity. }
  apply digits_no_sigil; auto; [|lia]. unfold two63 in *. cbn. lia.
Qed.

(** A part of a split. *)
Definition no_slash (w : string) : Prop := LastIndexByte w "/" = -1.

Lemma no_slash_cons a w : no_slash (String a w) <-> Ascii.eqb a "/" = false /\ no_slash w.
Proof.
  unfold no_slash. cbn. pose proof (LastIndexByte_range w "/").
  destruct (Z.leb_spec 0 (LastIndexByte w "/")); [lia|]. destruct (Ascii.eqb a "/"); intuition (lia || congruence).
Qed.

Lemma split_slash_cons s : exists w l, split_slash s = w :: l.
Proof. destruct s as [|a s]; cbn; [eauto|]. destruct (Ascii.eqb a "/"); [eauto|]. destruct (split_slash s); eauto. Qed.

Lemma split_slash_parts s : Forall no_slash (split_slash s).
Proof.
  induction s as [|a s IH]; cbn [split_slash]; [by repeat constructor|].
  destruct (Ascii.eqb a "/") eqn:E; [by constructor|].
  destruct (split_slash_cons s) as (w & l & Hs). rewrite Hs in *. inversion IH; subst.
  constructor; [|done]. by apply no_slash_cons.
Qed.

Lemma split_slash_part w : no_slash w -> split_slash w = [w].
Proof.
  induction w as [|a w IH]; [done|]. rewrite no_slash_cons. intros [Ha Hw]. cbn. by rewrite Ha, IH.
Qed.

Lemma split_slash_join owner repo : no_slash owner -> no_slash repo ->
  split_slash (String.append owner (String "/" repo)) = [owner; repo].
Proof.
  intros Ho Hr. induction owner as [|a o IH].
  - rewrite app_start. cbn. by rewrite split_slash_part.
  - apply no_slash_cons in Ho as [Ha Ho]. rewrite app_cons. cbn. by rewrite Ha, IH.
Qed.

Lemma take_len s t : take_bytes (String.length s) (String.append s t) = s.
Proof. rewrite take_bytes_app, Nat.sub_diag by lia. apply app_nil_s. Qed.

Lemma drop_sigil s c d : drop_bytes (String.length s + 1) (String.append s (String c d)) = d.
Proof.
  rewrite drop_bytes_skip by lia. by replace (String.length s + 1 - String.length s)%nat with 1%nat by lia.
Qed.

Lemma glParseRef_with_sigil slug c n : In c ["!"; "#"]%char -> slug <> "" -> 0 <= n < two63 ->
  glParseRef (with_sigil slug c n) c = Some (slug, n).
Proof.
  intros Hc Hs Hn. unfold glParseRef, with_sigil.
  rewrite LastIndexByte_here by (apply FormatInt_no_sigil; [|done]; cbn in *; tauto).
  destruct (Z.ltb_spec (Z.of_nat (String.length slug)) 0); [lia|].
  rewrite Nat2Z.id, take_len, drop_sigil, FormatInt_parse, str_neq_eqb by done. done.
Qed.

Lemma sigil_order slug c c' n : In c ["!"; "#"; "/"]%char -> In c' ["!"; "#"; "/"]%char -> c <> c' -> 0 <= n < two63 ->
  LastIndexByte (with_sigil slug c n) c' < LastIndexByte (with_sigil slug c n) c.
Proof.
  intros Hc Hc' Hne Hn. unfold with_sigil.
  rewrite LastIndexByte_here by by apply FormatInt_no_sigil.
  rewrite LastIndexByte_app; [apply LastIndexByte_range|].
  cbn. rewrite FormatInt_no_sigil by done. destruct (Ascii.eqb_spec c c'); done.
Qed.

(** the reference a controller renders for a merge request, from the slug it derived
    from the repository's URL, is read back by the provider's adapter as the same
    repository and the same number; GitLab's as a merge request and not as the issue of
    that number. *)
Theorem prLabelRef_roundtrip (toLower : string -> string) (parse : string -> option string)
    (repoURL provider slug : string) (number : Z) :
  repoSlugFromURL toLower parse repoURL provider = Some slug -> 0 <= number < two63 ->
  (provider = "gitlab" ->
     glLabelRef (prLabelRef slug provider number) = Some (slug, number, "merge_requests")
     /\ glLabelRef (commentRef slug provider number false) = Some (slug, number, "issues"))
  /\ (provider = "github" ->
        exists owner repo, ghOwnerRepo (parse repoURL) = Some (owner, repo)
          /\ ghIssueRef (prLabelRef slug provider number) = Some (owner, repo, number)).
Proof.
  unfold repoSlugFromURL. intros Hslug Hn. split; intros ->.
  - cbn in Hslug. assert (slug <> "") as Hne.
    { unfold glProjectPath in Hslug. destruct (repo_path _) as [p|]; [|done].
      destruct (String.eqb_spec p ""); [done|]. by injection Hslug as ->. }
    change (prLabelRef slug "gitlab" number) with (with_sigil slug "!" number).
    change (commentRef slug "gitlab" number false) with (with_sigil slug "#" number).
    unfold glLabelRef, glBangRef, glHashRef.
    assert (LastIndexByte (with_sigil slug "!" number) "#" < LastIndexByte (with_sigil slug "!" number) "!") as H1
      by (apply sigil_order; cbn; auto; done).
    assert (LastIndexByte (with_sigil slug "#" number) "!" < LastIndexByte (with_sigil slug "#" number) "#") as H2
      by (apply sigil_order; cbn; auto; done).
    apply Z.ltb_lt in H1. rewrite H1. apply Z.lt_le_incl, Z.ltb_ge in H2. rewrite H2.
    by rewrite !glParseRef_with_sigil by (cbn; auto).
  - change ("github" == "gitlab") with false in *. change ("github" == "github") with true in *. cbv match in *.
    unfold gh_slug in Hslug. destruct (ghOwnerRepo (parse repoURL)) as [[owner repo]|] eqn:E; [|done].
    injection Hslug as <-. exists owner, repo. split; [done|]. unfold ghOwnerRepo in E.
    destruct (repo_path _) as [p|]; [|done]. pose proof (split_slash_parts p) as Hp.
    destruct (split_slash p) as [|o [|r [|]]]; try done. destruct ((o == "") || (r == "")) eqn:Ee; [done|].
    injection E as -> ->. inversion Hp as [|? ? Ho Hp']; subst. inversion Hp' as [|? ? Hr _]; subst.
    change (prLabelRef ?s "github" number) with (with_sigil s "#" number). unfold ghIssueRef, with_sigil.
    cbn [fst snd]. rewrite LastIndexByte_here by (apply FormatInt_no_sigil; [cbn; auto|done]).
    destruct (Z.ltb_spec (Z.of_nat (String.length (String.append owner (String "/" repo)))) 0); [lia|].
    by rewrite Nat2Z.id, take_len, drop_sigil, split_slash_join, Ee, FormatInt_parse.
Qed.

Lemma prLabelRef_roundtrip_witness :
  repoSlugFromURL (fun s => s) (fun _ => Some "/szymonrychu/tatara-operator.git") "" "github"
    = Some "szymonrychu/tatara-operator"
  /\ exists owner repo, ghOwnerRepo (Some "/szymonrychu/tatara-operator.git") = Some (owner, repo)
       /\ ghIssueRef (prLabelRef "szymonrychu/tatara-operator" "github" 609) = Some (owner, repo, 609).
Proof.
  split; [reflexivity|].
  exact (proj2 (prLabelRef_roundtrip (fun s => s) (fun _ => Some "/szymonrychu/tatara-operator.git") "" "github"
           "szymonrychu/tatara-operator" 609 eq_refl ltac:(unfold two63; lia)) eq_refl).
Defined.
