(* ===== verification/Checks.v ===== *)
(** * Forge check statuses (internal/scm: checks.go and the folds of github.go, gitlab.go,
    mirror_types.go, scm.go): what a commit's CI is said to be, in the gate's words
    (empty, pending, success, failure) and in the mirror's (none, pending, running,
    green, red). *)

From Stdlib Require Import String Ascii.
From S2P Require Import Prelude Text Limits Seq.

Open Scope Z_scope.
Open Scope go_scope.

(** ** The two vocabularies *)

Definition CIMirrorNone : string := "none".
Definition CIMirrorPending : string := "pending".
Definition CIMirrorRunning : string := "running".
Definition CIMirrorGreen : string := "green".
Definition CIMirrorRed : string := "red".

Definition MirrorCIStatus (s : string) : string :=
  if s == "success" then CIMirrorGreen
  else if s == "failure" then CIMirrorRed
  else if s == "pending" then CIMirrorPending
  else CIMirrorNone.

Definition gateCIStatus (s : string) : string :=
  if s == CIMirrorGreen then "success"
  else if s == CIMirrorRed then "failure"
  else if (s == CIMirrorPending) || (s == CIMirrorRunning) then "pending"
  else "".

(** ** The folds *)

Definition foldCIStatuses (statuses : list string) : string :=
  let failure := str_mem statuses "failure" in
  let pending := str_mem statuses "pending" in
  let success := str_mem statuses "success" in
  if failure then "failure" else if pending then "pending" else if success then "success" else "".

Record ghCheckRun := mkGhCheckRun { run_Status : string; run_Conclusion : string }.

(** The conclusions that count as passed. *)
Definition passed (conclusion : string) : bool :=
  (conclusion == "success") || (conclusion == "neutral") || (conclusion == "skipped").

Definition ghRunCIStatus (run : ghCheckRun) : string :=
  if run_Status run != "completed" then "pending"
  else if negb (passed (run_Conclusion run)) then "failure"
  else "success".

Definition deriveGHCIStatus (runs : list ghCheckRun) : string :=
  match runs with [] => "" | _ => foldCIStatuses (map ghRunCIStatus runs) end.

(** GitHub's combined status of the legacy commit statuses. *)
Record Combined := mkCombined { cb_State : string; cb_TotalCount : Z }.

Definition combinedStatus (c : Combined) : string :=
  if 0 <? cb_TotalCount c then
    if cb_State c == "success" then "success"
    else if cb_State c == "pending" then "pending"
    else if (cb_State c == "failure") || (cb_State c == "error") then "failure"
    else "pending"
  else "".

(** [commitCIStatus] of GitHub: the two reads, [None] when one fails. *)
Definition gh_commitCIStatus (runs : option (list ghCheckRun)) (c : option Combined) : option string :=
  match runs with
  | None => None
  | Some runs =>
      match c with
      | None => None
      | Some c => Some (foldCIStatuses [deriveGHCIStatus runs; combinedStatus c])
      end
  end.

Definition glCIStatus (s : string) : string :=
  if s == "" then ""
  else if s == "success" then "success"
  else if (s == "failed") || (s == "canceled") then "failure"
  else if s == "skipped" then "success"
  else "pending".

Definition glPipelineCIStatus (s : string) : string :=
  if (s == "success") || (s == "skipped") then CIMirrorGreen
  else if (s == "failed") || (s == "canceled") then CIMirrorRed
  else if s == "running" then CIMirrorRunning
  else if s == "" then CIMirrorNone
  else CIMirrorPending.

Record glCommitStatus := mkGlCommitStatus { cs_Name : string; cs_Status : string; cs_TargetURL : string }.

Definition foldCommitStatuses (statuses : list glCommitStatus) : string :=
  match statuses with [] => "" | _ => foldCIStatuses (map (fun s => glCIStatus (cs_Status s)) statuses) end.

(** ** GitLab's derivation *)

Record glHeadPipeline := mkGlHeadPipeline { hp_ID : Z; hp_SHA : string; hp_Status : string }.

Record glCIDerivation := mkGlCIDerivation {
  ci_Status : string;
  ci_CommitStatuses : list glCommitStatus;
  ci_StaleHead : bool
}.

(** [statuses] is the answer to the read of the commit statuses, made without a pipeline. *)
Definition headCIStatus (sha : string) (statuses : option (list glCommitStatus))
    (head : option glHeadPipeline) : option glCIDerivation :=
  match head with
  | None =>
      match statuses with
      | None => None
      | Some l => Some (mkGlCIDerivation (MirrorCIStatus (foldCommitStatuses l)) l false)
      end
  | Some h =>
      if (hp_SHA h != "") && (hp_SHA h != sha) then Some (mkGlCIDerivation CIMirrorPending [] true)
      else Some (mkGlCIDerivation (glPipelineCIStatus (hp_Status h)) [] false)
  end.

(** ** One delivery *)

Definition ghAggregateCIStatus (status conclusion : string) : string :=
  if status != "completed" then
    if status == "queued" then CIMirrorPending else CIMirrorRunning
  else if passed conclusion then CIMirrorGreen
  else if conclusion == "" then CIMirrorPending
  else CIMirrorRed.

Definition ghSingleCheckCIStatus (status conclusion : string) : string :=
  if (status != "") && (status != "completed") then CIMirrorRunning
  else if passed conclusion || (conclusion == "pending") || (conclusion == "") then CIMirrorRunning
  else CIMirrorRed.

(** ** The live view of a head's checks (checks.go) *)

Record CICheck := mkCICheck {
  ck_Name : string;
  ck_Status : string;
  ck_Conclusion : string;
  ck_URL : string;
  ck_JobID : string
}.

Record CIResult := mkCIResult {
  res_HeadSHA : string;
  res_Status : string;
  res_Mergeable : bool;
  res_Checks : list CICheck
}.

Definition failing_conclusions : list string := ["failure"; "timed_out"; "cancelled"; "action_required"].

(** The loop: the first failing conclusion returns, the two flags accumulate. *)
Fixpoint derive_checks (checks : list CICheck) (anyInProgress allCompleted : bool) : string :=
  match checks with
  | [] => if allCompleted then "green" else if anyInProgress then "running" else "pending"
  | c :: rest =>
      if str_mem failing_conclusions (ck_Conclusion c) then "red"
      else if ck_Status c != "completed" then
        derive_checks rest (anyInProgress || (ck_Status c == "in_progress")) false
      else derive_checks rest anyInProgress allCompleted
  end.

Definition deriveCIStatus (checks : list CICheck) : string :=
  match checks with [] => "none" | _ => derive_checks checks false true end.

Definition glJobCIStatus (status : string) : string * string :=
  if str_mem ["created"; "pending"; "manual"; "scheduled"; "waiting_for_resource"; "preparing"] status
  then ("queued", "")
  else if status == "running" then ("in_progress", "")
  else if status == "success" then ("completed", "success")
  else if status == "failed" then ("completed", "failure")
  else if status == "canceled" then ("completed", "cancelled")
  else if status == "skipped" then ("completed", "skipped")
  else ("queued", "").

Definition is_digit (a : ascii) : bool := within 48 57 a.

Fixpoint leading_digits (s : string) : string :=
  match s with
  | EmptyString => ""
  | String a s' => if is_digit a then String a (leading_digits s') else ""
  end.

(** The leftmost match of [/job/(\d+)]: its group, the empty string without one. *)
Fixpoint ghJobIDFromHTMLURL (s : string) : string :=
  match s with
  | EmptyString => ""
  | String _ s' =>
      if HasPrefix s "/job/" && negb (leading_digits (drop_bytes 5 s) == "")
      then leading_digits (drop_bytes 5 s)
      else ghJobIDFromHTMLURL s'
  end.

(** An entry of the check runs as [PRChecks] decodes it: the entry the gate decodes, with
    its id, its name and its page. *)
Record CheckRunRow := mkCheckRunRow {
  row_ID : Z;
  row_Name : string;
  row_Run : ghCheckRun;
  row_HTMLURL : string
}.

Definition gh_check (run : CheckRunRow) : CICheck :=
  let jobID := ghJobIDFromHTMLURL (row_HTMLURL run) in
  mkCICheck (row_Name run) (run_Status (row_Run run)) (run_Conclusion (row_Run run)) (row_HTMLURL run)
    (if (jobID == "") && negb (row_ID run =? 0) then FormatInt (row_ID run) else jobID).

(** [PRChecks] of GitHub: the answers to the read of the pull request (its head and the
    forge's nullable mergeable bit) and of its check runs, [None] when one fails. *)
Definition gh_PRChecks (pr : option (string * option bool)) (runs : option (list CheckRunRow)) : option CIResult :=
  match pr with
  | None => None
  | Some (sha, mergeable) =>
      match runs with
      | None => None
      | Some runs =>
          let checks := map gh_check runs in
          Some (mkCIResult sha (deriveCIStatus checks) (default false mergeable) checks)
      end
  end.

Record glPipelineJob := mkGlPipelineJob { job_ID : Z; job_Name : string; job_Status : string; job_WebURL : string }.

Record glPipelineBridge := mkGlPipelineBridge {
  br_Name : string;
  br_Status : string;
  br_WebURL : string;
  br_Downstream : option string
}.

Definition gl_job_check (j : glPipelineJob) : CICheck :=
  let (s, conclusion) := glJobCIStatus (job_Status j) in
  mkCICheck (job_Name j) s conclusion (job_WebURL j) (FormatInt (job_ID j)).

Definition gl_bridge_check (b : glPipelineBridge) : CICheck :=
  let (s, conclusion) := glJobCIStatus (br_Status b) in
  let webURL :=
    match br_Downstream b with
    | Some u => if u != "" then u else br_WebURL b
    | None => br_WebURL b
    end in
  mkCICheck (br_Name b) s conclusion webURL "".

Definition gl_status_check (c : glCommitStatus) : CICheck :=
  let (s, conclusion) := glJobCIStatus (cs_Status c) in
  mkCICheck (cs_Name c) s conclusion (cs_TargetURL c) "".

Record glMergeRequestView := mkGlMergeRequestView {
  mv_SHA : string;
  mv_MergeStatus : string;
  mv_HeadPipeline : option glHeadPipeline
}.

(** [PRChecks] of GitLab: the merge request, its commit statuses, the pages of its head
    pipeline's jobs and of its bridges, each [None] when its read fails. *)
Definition gl_PRChecks (mr : option glMergeRequestView) (statuses : option (list glCommitStatus))
    (jobs : option (list glPipelineJob)) (bridges : option (list glPipelineBridge)) : option CIResult :=
  match mr with
  | None => None
  | Some mr =>
      match headCIStatus (mv_SHA mr) statuses (mv_HeadPipeline mr) with
      | None => None
      | Some ci =>
          let checks :=
            if ci_StaleHead ci then Some []
            else match mv_HeadPipeline mr with
                 | Some _ =>
                     match jobs, bridges with
                     | Some jobs, Some bridges => Some (map gl_job_check jobs ++ map gl_bridge_check bridges)
                     | _, _ => None
                     end
                 | None => Some (map gl_status_check (ci_CommitStatuses ci))
                 end in
          match checks with
          | None => None
          | Some checks =>
              Some (mkCIResult (mv_SHA mr) (ci_Status ci)
                      ((mv_MergeStatus mr == "can_be_merged") && (ci_Status ci != CIMirrorRed)) checks)
          end
      end
  end.

(** ** The state the gate reads *)

Record PRState := mkPRState {
  prs_Author : string;
  prs_HeadSHA : string;
  prs_HeadBranch : string;
  prs_CIStatus : string;
  prs_Merged : bool;
  prs_Closed : bool
}.

(** A merge request as GitLab's [GetPRState] decodes it. *)
Record glMergeRequest := mkGlMergeRequest {
  glmr_Author : string;
  glmr_SHA : string;
  glmr_SourceBranch : string;
  glmr_State : string;
  glmr_HeadPipeline : option glHeadPipeline
}.

Definition gl_GetPRState (mr : option glMergeRequest) (statuses : option (list glCommitStatus)) : option PRState :=
  match mr with
  | None => None
  | Some mr =>
      match headCIStatus (glmr_SHA mr) statuses (glmr_HeadPipeline mr) with
      | None => None
      | Some ci =>
          Some (mkPRState (glmr_Author mr) (glmr_SHA mr) (glmr_SourceBranch mr)
                  (gateCIStatus (ci_Status ci)) (glmr_State mr == "merged") (glmr_State mr == "closed"))
      end
  end.

(** ** The tail of a job's log *)

Fixpoint trim_invalid (fuel : nat) (tail : string) : string :=
  match fuel with
  | O => tail
  | S f => if (tail == "") || ValidString tail then tail else trim_invalid f (drop_bytes 1 tail)
  end.

Definition tailUTF8 (s : string) (maxBytes : Z) : string :=
  if (maxBytes <=? 0) || (s == "") then ""
  else if Z.of_nat (String.length s) <=? maxBytes then s
  else let tail := drop_bytes (String.length s - Z.to_nat maxBytes) s in
       trim_invalid (String.length tail) tail.

(** ** Mergeability *)

Definition MergeStateUnknown : string := "unknown".
Definition MergeStateClean : string := "clean".
Definition MergeStateDirty : string := "dirty".
Definition MergeStateBlocked : string := "blocked".
Definition MergeStateBehind : string := "behind".
Definition MergeStateUnstable : string := "unstable".

Definition ghMergeState (state : string) : string :=
  if (state == "clean") || (state == "has_hooks") then MergeStateClean
  else if state == "unstable" then MergeStateUnstable
  else if state == "dirty" then MergeStateDirty
  else if state == "behind" then MergeStateBehind
  else if (state == "blocked") || (state == "draft") then MergeStateBlocked
  else MergeStateUnknown.

Definition glMergeState (status : string) (hasConflicts : bool) : string :=
  if status == "can_be_merged" then MergeStateClean
  else if (status == "cannot_be_merged") || (status == "cannot_be_merged_recheck") then
    if hasConflicts then MergeStateDirty else MergeStateBlocked
  else MergeStateUnknown.

(** [CIRedSuppressed]: [lister] is the provider's answer to whether the merge request has
    a required check: [None] when the provider cannot list them, [Some None] when the
    read fails. The pair is the verdict and whether an error comes with it. *)
Definition CIRedSuppressed (lister : option (option bool)) (ms : string) : bool * bool :=
  if ms != MergeStateUnstable then (false, false)
  else match lister with
       | None => (false, false)
       | Some None => (false, true)
       | Some (Some required) => (required, false)
       end.

(** ** Lemmas on the folds *)

Lemma foldCIStatuses_app l l' :
  foldCIStatuses (l ++ l') = foldCIStatuses [foldCIStatuses l; foldCIStatuses l'].
Proof.
  assert (forall k, str_mem (l ++ l') k = str_mem l k || str_mem l' k) as Happ.
  { intros k. induction l as [|x l IH]; [done|]. cbn. by rewrite IH, orb_assoc. }
  unfold foldCIStatuses. rewrite !Happ.
  destruct (str_mem l "failure"), (str_mem l "pending"), (str_mem l "success"),
    (str_mem l' "failure"), (str_mem l' "pending"), (str_mem l' "success"); reflexivity.
Qed.

Lemma foldCIStatuses_cons x l :
  foldCIStatuses (x :: l) = foldCIStatuses [foldCIStatuses [x]; foldCIStatuses l].
Proof. exact (foldCIStatuses_app [x] l). Qed.

(** folding statuses does not depend on their order or on how they are grouped, and
    its answer is exact: a failure whenever one of them failed, pending when none failed
    and one is not done, success when every one that says anything succeeded. *)
Theorem foldCIStatuses_exact (l : list string) :
  (forall l', Permutation l l' -> foldCIStatuses l' = foldCIStatuses l)
  /\ (foldCIStatuses l = "failure" <-> In "failure" l)
  /\ (foldCIStatuses l = "pending" <-> In "pending" l /\ ~ In "failure" l)
  /\ (foldCIStatuses l = "success" <-> In "success" l /\ ~ In "failure" l /\ ~ In "pending" l)
  /\ (foldCIStatuses l = "" <-> ~ In "failure" l /\ ~ In "pending" l /\ ~ In "success" l).
Proof.
  split.
  - intros l' HP. assert (forall k, str_mem l' k = str_mem l k) as E.
    { intros k. apply eq_true_iff_eq. rewrite !str_mem_In. split; apply Permutation_in; [by symmetry|done]. }
    unfold foldCIStatuses. by rewrite !E.
  - unfold foldCIStatuses. rewrite <- !str_mem_In.
    destruct (str_mem l "failure"), (str_mem l "pending"), (str_mem l "success");
      intuition congruence.
Qed.

Lemma ghRunCIStatus_words run :
  ghRunCIStatus run = "failure" \/ ghRunCIStatus run = "pending" \/ ghRunCIStatus run = "success".
Proof. unfold ghRunCIStatus. destruct (_ != _); [auto|]. destruct (negb _); auto. Qed.

(** What the loop of [deriveCIStatus] has accumulated, seen by what is left. *)
Lemma derive_checks_spec checks anyInProgress allCompleted :
  derive_checks checks anyInProgress allCompleted =
    if existsb (fun c => str_mem failing_conclusions (ck_Conclusion c)) checks then "red"
    else if allCompleted && forallb (fun c => ck_Status c == "completed") checks then "green"
    else if anyInProgress || existsb (fun c => ck_Status c == "in_progress") checks then "running"
    else "pending".
Proof.
  revert anyInProgress allCompleted. induction checks as [|c l IH]; intros p a.
  { cbn. by rewrite andb_true_r, orb_false_r. }
  cbn [derive_checks existsb forallb]. destruct (str_mem failing_conclusions (ck_Conclusion c)); [done|].
  cbn [orb]. rewrite !IH. destruct (ck_Status c == "completed") eqn:E; cbn [negb andb].
  - apply eqb_to_eq in E. by rewrite E.
  - by rewrite andb_false_r, orb_assoc.
Qed.

(** A GitHub check run as the API documents it, the two conclusions the agent-facing fold
    does not name apart: a conclusion comes with completion, and is one of the listed. *)
Definition folds_agree_on (run : ghCheckRun) : bool :=
  if run_Status run == "completed"
  then passed (run_Conclusion run) || str_mem failing_conclusions (run_Conclusion run)
  else run_Conclusion run == "".

Lemma passed_not_failing c : passed c = true -> str_mem failing_conclusions c = false.
Proof.
  unfold passed. rewrite !orb_true_iff, !eqb_to_eq. intros [[->| ->]| ->]; reflexivity.
Qed.

Lemma agreeing_run run : folds_agree_on run = true ->
  str_mem failing_conclusions (run_Conclusion run) = (ghRunCIStatus run == "failure")
  /\ (run_Status run == "completed") = negb (ghRunCIStatus run == "pending").
Proof.
  unfold folds_agree_on, ghRunCIStatus. destruct (run_Status run == "completed") eqn:E; cbn [negb].
  - destruct (passed (run_Conclusion run)) eqn:Ep; cbn.
    + intros _. split; [by apply passed_not_failing|done].
    + by intros ->.
  - rewrite eqb_to_eq. by intros ->.
Qed.

Lemma agreeing_runs rows : let runs := map row_Run rows in forallb folds_agree_on runs = true ->
  existsb (fun c => str_mem failing_conclusions (ck_Conclusion c)) (map gh_check rows)
    = str_mem (map ghRunCIStatus runs) "failure"
  /\ forallb (fun c => ck_Status c == "completed") (map gh_check rows)
    = negb (str_mem (map ghRunCIStatus runs) "pending").
Proof.
  induction rows as [|r l IH]; [done|]. cbn [forallb map] in *. rewrite andb_true_iff.
  intros [Hr [IH1 IH2]%IH]. apply agreeing_run in Hr as [Hr1 Hr2].
  cbn [map existsb forallb str_mem]. rewrite IH1, IH2. unfold gh_check at 1 2. cbn [ck_Conclusion ck_Status].
  rewrite Hr1, Hr2. by rewrite negb_orb, !(String.eqb_sym (ghRunCIStatus (row_Run r))).
Qed.



Lemma deriveCIStatus_one row : run_Status (row_Run row) = "completed" ->
  str_mem failing_conclusions (run_Conclusion (row_Run row)) = false ->
  deriveCIStatus (map gh_check [row]) = CIMirrorGreen.
Proof.
  intros Hs Hf. change (deriveCIStatus _) with (derive_checks (map gh_check [row]) false true).
  rewrite derive_checks_spec. cbn [map existsb forallb gh_check ck_Conclusion ck_Status].
  by rewrite Hf, Hs.
Qed.

(** the two folds of GitHub's check runs disagree on the conclusions only one of them
    names: a run that never started, or went stale, is green for the agent that asks and
    a failure for the gate that merges. *)
Theorem ci_folds_disagree (sha : string) (mergeable : option bool) (row : CheckRunRow) :
  run_Status (row_Run row) = "completed" ->
  passed (run_Conclusion (row_Run row)) = false ->
  str_mem failing_conclusions (run_Conclusion (row_Run row)) = false ->
  (exists r, gh_PRChecks (Some (sha, mergeable)) (Some [row]) = Some r /\ res_Status r = CIMirrorGreen)
  /\ deriveGHCIStatus [row_Run row] = "failure".
Proof.
  intros Hs Hp Hf. split.
  - eexists. split; [reflexivity|]. by apply deriveCIStatus_one.
  - unfold deriveGHCIStatus. cbn. unfold ghRunCIStatus. by rewrite Hs, Hp.
Qed.

Lemma ci_folds_disagree_witness :
  deriveGHCIStatus [mkGhCheckRun "completed" "startup_failure"] = "failure"
  /\ (exists r, gh_PRChecks (Some ("abc", None))
         (Some [mkCheckRunRow 1 "unit" (mkGhCheckRun "completed" "startup_failure") ""]) = Some r
        /\ res_Status r = CIMirrorGreen).
Proof.
  destruct (ci_folds_disagree "abc" None (mkCheckRunRow 1 "unit" (mkGhCheckRun "completed" "startup_failure") "")
              eq_refl eq_refl eq_refl) as [H1 H2].
  split; assumption.
Defined.

(** ** Lemmas on the two vocabularies *)

(** the gate's words survive the mirror, and GitLab's pipeline status says the same
    through the mirror's words as directly in the gate's. *)
Theorem gate_words_roundtrip (s : string) :
  (In s [""; "pending"; "success"; "failure"] -> gateCIStatus (MirrorCIStatus s) = s)
  /\ gateCIStatus (glPipelineCIStatus s) = glCIStatus s
  /\ (gateCIStatus (MirrorCIStatus s) = s \/ MirrorCIStatus s = CIMirrorNone).
Proof.
  split; [|split].
  - cbn. intros [<-|[<-|[<-|[<-|[]]]]]; reflexivity.
  - unfold glPipelineCIStatus, glCIStatus. str_cases; done.
  - unfold MirrorCIStatus. str_cases; auto.
Qed.

(** GitLab's view of a head. A pipeline of another commit says pending and shows no
    rows; a green status comes from this head's own pipeline having passed or been
    skipped, or, without a pipeline, from commit statuses of which none failed and none
    is pending; and a merge request whose status is red is never mergeable. *)
Theorem gl_green_is_this_head (mr : glMergeRequestView) statuses jobs bridges r :
  gl_PRChecks (Some mr) statuses jobs bridges = Some r ->
  (res_Status r = CIMirrorRed -> res_Mergeable r = false)
  /\ (forall h, mv_HeadPipeline mr = Some h -> hp_SHA h <> "" -> hp_SHA h <> mv_SHA mr ->
        res_Status r = CIMirrorPending /\ res_Checks r = [])
  /\ (res_Status r = CIMirrorGreen ->
        match mv_HeadPipeline mr with
        | Some h => (hp_SHA h = "" \/ hp_SHA h = mv_SHA mr) /\ In (hp_Status h) ["success"; "skipped"]
        | None => exists l, statuses = Some l
            /\ forall c, In c l -> glCIStatus (cs_Status c) = "success" \/ glCIStatus (cs_Status c) = ""
        end).
Proof.
  unfold gl_PRChecks, headCIStatus. destruct mr as [sha ms [h|]]; cbn [mv_SHA mv_HeadPipeline mv_MergeStatus].
  - destruct ((hp_SHA h != "") && (hp_SHA h != sha)) eqn:Est; cbn.
    + intros [= <-]. cbn. split; [done|]. split; [intros _ _ _ _; done|done].
    + destruct jobs as [jobs|], bridges as [bridges|]; try done. intros [= <-]. cbn.
      split; [by intros ->; rewrite andb_false_r|]. split.
      * intros h' [= <-] H1 H2. by rewrite !str_neq_eqb in Est.
      * intros Hg. split.
        -- apply andb_false_iff in Est. rewrite !neqb_false in Est. exact Est.
        -- revert Hg. unfold glPipelineCIStatus. str_cases; subst; auto; discriminate.
  - destruct statuses as [l|]; [|done]. cbn. intros [= <-]. cbn.
    split; [by intros ->; rewrite andb_false_r|]. split; [done|]. intros Hg. exists l. split; [done|].
    destruct l as [|c0 l0]; [done|]. unfold foldCommitStatuses in Hg.
    set (L := map (fun s => glCIStatus (cs_Status s)) (c0 :: l0)) in *.
    assert (foldCIStatuses L = "success") as Hs.
    { revert Hg. unfold MirrorCIStatus. str_cases; done. }
    destruct (foldCIStatuses_exact L) as (_ & _ & _ & [Hx _] & _).
    destruct (Hx Hs) as (_ & Hnf & Hnp). intros c Hc.
    assert (In (glCIStatus (cs_Status c)) L) as Hin by (unfold L; apply (in_map (fun s => glCIStatus (cs_Status s))); done).
    revert Hin. unfold glCIStatus. str_cases; auto; intros Hin; exfalso; auto.
Qed.

Lemma gl_green_is_this_head_witness :
  exists r, gl_PRChecks
      (Some (mkGlMergeRequestView "abc" "can_be_merged" (Some (mkGlHeadPipeline 9 "old" "success"))))
      None None None = Some r
    /\ res_Status r = CIMirrorPending /\ res_Checks r = [].
Proof.
  eexists. split; [reflexivity|].
  exact (proj1 (proj2 (gl_green_is_this_head
           (mkGlMergeRequestView "abc" "can_be_merged" (Some (mkGlHeadPipeline 9 "old" "success")))
           None None None _ eq_refl)) _ eq_refl ltac:(discriminate) ltac:(discriminate)).
Defined.

(** What the gate reads of a merge request whose pipeline is of another commit: pending,
    whatever the commit statuses would say. *)
Lemma stale_pipeline_is_pending mr h statuses :
  glmr_HeadPipeline mr = Some h -> hp_SHA h <> "" -> hp_SHA h <> glmr_SHA mr ->
  exists s, gl_GetPRState (Some mr) statuses = Some s /\ prs_CIStatus s = "pending"
    /\ gl_GetPRState (Some mr) None = Some s.
Proof.
  intros Hh H1 H2. unfold gl_GetPRState, headCIStatus. rewrite Hh, !str_neq_eqb by done. cbn. eauto.
Qed.

(** One delivery never says green: a single check that passed leaves the status running. *)
Lemma single_check_never_green status conclusion :
  ghSingleCheckCIStatus status conclusion = CIMirrorRunning
  \/ ghSingleCheckCIStatus status conclusion = CIMirrorRed /\ passed conclusion = false
     /\ ghAggregateCIStatus status conclusion <> CIMirrorGreen.
Proof.
  unfold ghSingleCheckCIStatus, ghAggregateCIStatus. destruct (_ && _); [auto|].
  destruct (passed conclusion); [auto|]. cbn [orb]. destruct (_ || _); [auto|]. right.
  split; [done|]. split; [done|]. destruct (_ != _); [by destruct (_ == _)|]. by destruct (_ == _).
Qed.

(** GitHub's own legacy statuses are part of what the gate reads and not of the agent's
    rows: a commit whose check runs all passed and whose one legacy status failed. *)
Lemma legacy_status_outside_the_rows row c :
  run_Status (row_Run row) = "completed" -> passed (run_Conclusion (row_Run row)) = true ->
  0 < cb_TotalCount c -> cb_State c = "failure" ->
  (exists r, gh_PRChecks (Some ("", Some true)) (Some [row]) = Some r /\ res_Status r = CIMirrorGreen)
  /\ gh_commitCIStatus (Some [row_Run row]) (Some c) = Some "failure".
Proof.
  intros Hs Hp Hc Hf. split.
  - eexists. split; [reflexivity|]. apply deriveCIStatus_one; [done|]. by apply passed_not_failing.
  - unfold gh_commitCIStatus, combinedStatus. apply Z.ltb_lt in Hc. rewrite Hc, Hf. cbn.
    unfold ghRunCIStatus. by rewrite Hs, Hp.
Qed.

(** a red check is let pass only when the forge itself says the merge is not blocked
    and a required check exists: not on an error, not for a provider that cannot list them,
    not in any other merge state, and so never on GitLab. *)
Theorem red_suppressed_exact (lister : option (option bool)) (ms : string) :
  (fst (CIRedSuppressed lister ms) = true <-> ms = MergeStateUnstable /\ lister = Some (Some true))
  /\ (snd (CIRedSuppressed lister ms) = true -> fst (CIRedSuppressed lister ms) = false)
  /\ (forall status hasConflicts, fst (CIRedSuppressed lister (glMergeState status hasConflicts)) = false)
  /\ (forall state, fst (CIRedSuppressed lister (ghMergeState state)) = true -> state = "unstable").
Proof.
  unfold CIRedSuppressed. split; [|split; [|split]].
  - destruct (String.eqb_spec ms MergeStateUnstable) as [->|Hne]; cbn; [|intuition congruence].
    destruct lister as [[[|]|]|]; cbn; intuition congruence.
  - destruct (_ != _); [done|]. by destruct lister as [[[|]|]|].
  - intros. unfold glMergeState. destruct (_ == "can_be_merged"); [done|].
    destruct (_ || _); [by destruct hasConflicts|done].
  - intros st. unfold ghMergeState. destruct (_ || _); [done|].
    destruct (String.eqb_spec st "unstable"); [done|].
    destruct (_ == "dirty"); [done|]. destruct (_ == "behind"); [done|]. by destruct (_ || _).
Qed.

(** ** Lemmas on the tail *)

(** Above any place of a valid string there is a boundary at most three bytes up. *)
Lemma valid_boundary_up s : ValidString s = true -> forall n, (n <= String.length s)%nat ->
  exists n', (n <= n' <= n + 3)%nat /\ (n' <= String.length s)%nat /\ ValidString (drop_bytes n' s) = true.
Proof.
  unfold ValidString. induction s as [|w t Hr Hl He IH] using rune_ind; intros Hv n Hn.
  { exists n. cbn in *. destruct n; [|lia]. repeat split; lia. }
  rewrite length_app_s in *. pose proof Hv as Hv0. rewrite Hr in Hv. apply andb_true_iff in Hv as [Hw Hv].
  destruct n as [|n0]; [exists O; repeat split; try lia; done|].
  destruct (Nat.lt_ge_cases (S n0) (String.length w)) as [Hlt|Hge].
  - exists (String.length w). repeat split; try lia. by rewrite drop_bytes_skip, Nat.sub_diag by lia.
  - destruct (IH Hv (S n0 - String.length w)%nat ltac:(lia)) as (n' & Hn' & Hle & Hv').
    exists (String.length w + n')%nat. repeat split; try lia. rewrite drop_bytes_skip by lia.
    replace (String.length w + n' - String.length w)%nat with n' by lia. done.
Qed.

Lemma trim_invalid_spec fuel s : (String.length s <= fuel)%nat ->
  exists k, (k <= String.length s)%nat /\ trim_invalid fuel s = drop_bytes k s
  /\ ValidString (drop_bytes k s) = true
  /\ forall j, (j < k)%nat -> ValidString (drop_bytes j s) = false.
Proof.
  revert s. induction fuel as [|f IH]; intros s Hf.
  { destruct s; cbn in Hf; [|lia]. exists O. repeat split; try done. intros; lia. }
  cbn [trim_invalid]. destruct s as [|a s]; [exists O; repeat split; try done; intros; lia|].
  change (String a s == "") with false. cbn [orb].
  destruct (ValidString (String a s)) eqn:E; [exists O; repeat split; [cbn; lia|done|]; intros; lia|].
  cbn in Hf. destruct (IH s ltac:(lia)) as (k & Hk & Ht & Hv & Hmin).
  exists (S k). repeat split; [cbn; lia|done|done|]. intros [|j] Hj; [done|]. apply Hmin. lia.
Qed.

(** the tail of a log is a suffix of it and fits the limit; a log that fits is whole;
    otherwise what is left is whole UTF-8, starts at the first place of the last
    [maxBytes] bytes from where everything is, and costs a valid log at most three bytes. *)
Theorem tailUTF8_exact (s : string) (maxBytes : Z) :
  0 < maxBytes ->
  exists k, tailUTF8 s maxBytes = drop_bytes k s /\ (k <= String.length s)%nat
  /\ Z.of_nat (String.length (tailUTF8 s maxBytes)) <= maxBytes
  /\ (Z.of_nat (String.length s) <= maxBytes -> k = O)
  /\ (maxBytes < Z.of_nat (String.length s) ->
        ValidString (tailUTF8 s maxBytes) = true
        /\ (forall j, (j < k)%nat -> maxBytes < Z.of_nat (String.length (drop_bytes j s))
                                   \/ ValidString (drop_bytes j s) = false)
        /\ (ValidString s = true -> maxBytes - 3 <= Z.of_nat (String.length (tailUTF8 s maxBytes)))).
Proof.
  intros Hm. unfold tailUTF8. apply Z.leb_gt in Hm as Hm'. rewrite Hm'. cbn [orb].
  destruct (String.eqb_spec s "") as [->|Hne]; [exists O; cbn; repeat split; lia|].
  destruct (Z.leb_spec (Z.of_nat (String.length s)) maxBytes) as [Hf|Hf].
  { exists O. repeat split; cbn; try lia. }
  set (n := (String.length s - Z.to_nat maxBytes)%nat).
  destruct (trim_invalid_spec (String.length (drop_bytes n s)) (drop_bytes n s) ltac:(lia))
    as (k & Hk & -> & Hv & Hmin).
  rewrite drop_bytes_drop in *. rewrite drop_bytes_length in *. exists (n + k)%nat.
  repeat split; try lia; try done.
  - intros j Hj. rewrite drop_bytes_length. destruct (Nat.lt_ge_cases j n) as [Hlt|Hge]; [left; lia|right].
    specialize (Hmin (j - n)%nat ltac:(lia)). rewrite drop_bytes_drop in Hmin.
    by replace (n + (j - n))%nat with j in Hmin by lia.
  - intros Hs. destruct (valid_boundary_up s Hs n ltac:(lia)) as (n' & Hn' & Hle & Hv').
    destruct (Nat.lt_ge_cases (n' - n) k) as [Hlt|Hge]; [|lia].
    specialize (Hmin _ Hlt). rewrite drop_bytes_drop in Hmin.
    replace (n + (n' - n))%nat with n' in Hmin by lia. congruence.
Qed.

Lemma tailUTF8_exact_witness :
  tailUTF8 (of_bytes [97; 226; 130; 172; 98])%nat 3 = "b"%string
  /\ exists k, tailUTF8 (of_bytes [97; 226; 130; 172; 98])%nat 3
        = drop_bytes k (of_bytes [97; 226; 130; 172; 98])%nat.
Proof.
  split; [vm_compute; reflexivity|].
  destruct (tailUTF8_exact (of_bytes [97; 226; 130; 172; 98])%nat 3 ltac:(lia)) as (k & Hk & _).
  exists k. exact Hk.
Defined.

(** one byte that is no UTF-8 at the end of a log that does not fit costs the whole
    tail: what is trimmed forward from the cut is everything. *)
Theorem bad_byte_costs_the_tail (s : string) (maxBytes : Z) :
  maxBytes <= Z.of_nat (String.length s) ->
  tailUTF8 (String.append s (of_bytes [255]%nat)) maxBytes = "".
Proof.
  intros Hm. destruct (Z.leb_spec maxBytes 0) as [H0|H0].
  { unfold tailUTF8. apply Z.leb_le in H0. by rewrite H0. }
  destruct (tailUTF8_exact (String.append s (of_bytes [255]%nat)) maxBytes H0) as (k & Ht & Hk & _ & _ & Hv).
  rewrite length_app_s in *. change (String.length (of_bytes [255]%nat)) with 1%nat in *.
  destruct (Hv ltac:(lia)) as [Hval _]. rewrite Ht in Hval |- *.
  destruct (Nat.le_gt_cases k (String.length s)) as [Hle|Hgt].
  - rewrite drop_bytes_app in Hval by lia. unfold ValidString in Hval.
    rewrite runes_app, forallb_app in Hval by reflexivity. apply andb_true_iff in Hval as [_ Hval].
    vm_compute in Hval. done.
  - replace k with (String.length s + 1)%nat by lia. rewrite drop_bytes_skip by lia.
    by replace (String.length s + 1 - String.length s)%nat with 1%nat by lia.
Qed.

Lemma bad_byte_costs_the_tail_witness :
  tailUTF8 (String.append "the failing assertion" (of_bytes [255]%nat)) 16 = "".
Proof. apply bad_byte_costs_the_tail. vm_compute. discriminate. Defined.
