(* ===== verification/Corridor.v ===== *)
(** * What the merge corridor shares (internal/controller: ci_gate.go, semver_label.go,
    brainstorm_resume.go, the operator's note of reviewpost.go): the red-CI gate, the
    projection of a declared significance onto a label, and the note the operator leaves
    for the next agent. *)

From stdpp Require Import strings.
From Stdlib Require Import String Ascii.
From S2P Require Import Prelude GoTime Text Limits Api Vocabulary Machine Park Clocks Unpark ObjBudget Lifecycle Transition Patch Seq Refs Checks.

Open Scope Z_scope.
Open Scope go_scope.

(** ** The outside *)

(** What the outside answers to one guarded write. *)
Record FitWorld (Obj Item : Type) := mkFitWorld {
  fw_sizeOf : Obj -> option Z;
  fw_spiller : option (Spiller Item);
  fw_reads : list (GetAnswer Obj);
  fw_attempts : list (Attempt Obj)
}.
Arguments mkFitWorld {Obj Item} _ _ _ _.
Arguments fw_sizeOf {Obj Item} _.
Arguments fw_spiller {Obj Item} _.
Arguments fw_reads {Obj Item} _.
Arguments fw_attempts {Obj Item} _.

Abbreviation TaskFit := (FitWorld Task Note).
Abbreviation MRFit := (FitWorld MergeRequest Comment).

Definition fit_task (w : TaskFit) (noteCap : bool) (mutate : Task -> Task)
  : option FitError * list (FitEffect Task Note) :=
  let '(r, es) := FitTask (fw_sizeOf w) (fw_spiller w) noteCap (fw_reads w) mutate (fw_attempts w) in
  (match r with Ok _ => None | Err e => Some e end, es).

Definition fit_mr (w : MRFit) (mutate : MergeRequest -> MergeRequest)
  : option FitError * list (FitEffect MergeRequest Comment) :=
  let '(r, es) := FitMergeRequest (fw_sizeOf w) (fw_spiller w) (fw_reads w) mutate (fw_attempts w) in
  (match r with Ok _ => None | Err e => Some e end, es).

(** The answer of a forge write: fine, an HTTP error with its status, another error. *)
Inductive ScmAnswer := ScmOk | ScmHTTP (status : Z) | ScmFailed.

Definition scm_ok (a : ScmAnswer) : bool := match a with ScmOk => true | _ => false end.

Definition isPermanentTargetGone (a : ScmAnswer) : bool :=
  match a with ScmHTTP s => (s =? 404) || (s =? 410) | _ => false end.

(** What the merge path does to the outside, in order. *)
Inductive CorridorEffect :=
  | Choke (e : Transition.Effect)
  | WriteTask (e : FitEffect Task Note)
  | WriteMR (e : FitEffect MergeRequest Comment)
  | WriteIssue (e : FitEffect Issue Comment)
  | EnsureLabel (repoURL label color : string)
  | AddLabel (ref label : string)
  | RemoveLabel (ref label : string)
  | UpdateMR (mr : MergeRequest)
  | Merge (repoURL : string) (number : Z) (method expectedHead : string)
  | CloseIssue (slug : string) (number : Z) (comment : string)
  | StampMovement (at_ : Time)
  | AnnotateResume (trigger : string)
  | ReadRelease (owner name sha : string)
  | ClearStalled
  | SetStalled (repo : string) (seconds : float64)
  | CountSemver (repo level outcome : string)
  | CountSemverMissing (repo : string)
  | CountUnexpectedMerge (repo : string)
  | CountCIRedExit (repo from to : string)
  | CountConflictExit (repo to : string).

Inductive CorridorError :=
  | RefusedReviewTask
  | ListFailed
  | NoForge
  | NotMergeable (mr : string)
  | NoRepository (repo : string)
  | NoSlug (repo : string)
  | LabelFailed (label : string)
  | HeadUnreadable
  | StateUnreadable
  | MergeRefused
  | ReleaseUnreadable
  | CloseRefused
  | TaskWriteFailed (e : FitError)
  | MRWriteFailed (e : FitError)
  | IssueWriteFailed (e : FitError)
  | AnnotateFailed (e : FitError)
  | ChokeFailed (e : TransitionError).

Definition choke_error (o : Outcome) : option CorridorError := option_map ChokeFailed (o_err o).

(** ** The forge of a project *)

Record ForgeWorld := mkForgeWorld { fg_wired : bool; fg_writer : bool; fg_token : bool }.

Definition provider_of (proj : Project) : string :=
  match proj_Scm proj with
  | Some s => if scm_Provider s != "" then scm_Provider s else "github"
  | None => "github"
  end.

(** [forge]: the provider, with the writer and the token; [None] is an error. *)
Definition forge (w : ForgeWorld) (proj : Project) : option string :=
  if fg_wired w && fg_writer w && fg_token w then Some (provider_of proj) else None.

(** ** The operator's note *)

Definition operator_note (body : string) (now : Time) (t : Task) : Task :=
  if existsb (fun n => (n_Agent n == "operator") && (n_Body n == body)) (Notes (Status t)) then t
  else on_status t (fun s => s <| Notes ::= fun l => (l ++ [mkNote "" now "operator" "note" body])%list |>).

Definition appendOperatorNoteTo (w : TaskFit) (body : string) (now : Time)
  : option CorridorError * list CorridorEffect :=
  let body := TruncateUTF8 body NoteBodyMaxBytes in
  let '(e, es) := fit_task w true (operator_note body now) in
  (option_map TaskWriteFailed e, map WriteTask es).

(** ** The red-CI gate (ci_gate.go) *)

Definition landed (mr : MergeRequest) : bool :=
  (mr_State (mr_Status mr) == "merged") || (mr_State (mr_Status mr) == "closed").

Definition ciVerdictClear : string := "clear".
Definition ciVerdictPending : string := "pending".
Definition ciVerdictRed : string := "red".

Fixpoint mirror_verdict (mrs : list MergeRequest) (out : string) : string :=
  match mrs with
  | [] => out
  | mr :: rest =>
      if landed mr then mirror_verdict rest out
      else if mr_CIStatus (mr_Status mr) == CIMirrorRed then ciVerdictRed
      else if (mr_CIStatus (mr_Status mr) == CIMirrorPending) || (mr_CIStatus (mr_Status mr) == CIMirrorRunning)
      then mirror_verdict rest ciVerdictPending
      else mirror_verdict rest out
  end.

Definition ciMirrorVerdict (mrs : list MergeRequest) : string := mirror_verdict mrs ciVerdictClear.

(** The reads of one merge request: whether its repository is found, and its state on
    the forge. *)
Record MRRead := mkMRRead { rd_repo : bool; rd_state : option PRState }.

Definition mark_merged (mr : MergeRequest) : MergeRequest :=
  mr <| mr_Status ::= fun s => s <| mr_State := "merged"%string |> |>.

(** Red at the head that was reviewed, or at one nobody dated. *)
Definition red_at_reviewed (mr : MergeRequest) (st : PRState) : bool :=
  (prs_CIStatus st == "failure")
  && negb ((mr_ReviewedSHA (mr_Status mr) != "") && (prs_HeadSHA st != "")
           && (prs_HeadSHA st != mr_ReviewedSHA (mr_Status mr))).

(** The loop: the merge requests as it leaves them, with the first red one. *)
Fixpoint ci_red_scan (read : MergeRequest -> MRRead) (mrs : list MergeRequest) (red : option MergeRequest)
  : result CorridorError (option MergeRequest) * list MergeRequest :=
  match mrs with
  | [] => (Ok red, [])
  | mr :: rest =>
      if landed mr then
        let '(r, l) := ci_red_scan read rest red in (r, mr :: l)
      else if negb (rd_repo (read mr)) then (Err (NoRepository (mrs_RepositoryRef (mr_Spec mr))), mr :: rest)
      else match rd_state (read mr) with
           | None => (Err StateUnreadable, mr :: rest)
           | Some st =>
               if prs_Merged st then
                 let '(r, l) := ci_red_scan read rest red in (r, mark_merged mr :: l)
               else
                 let red' := if red_at_reviewed mr st && negb (is_set red) then Some mr else red in
                 let '(r, l) := ci_red_scan read rest red' in (r, mr :: l)
           end
  end.

Definition ciRedAtReviewedHead (w : ForgeWorld) (read : MergeRequest -> MRRead) (mrs : list MergeRequest)
  : result CorridorError (option MergeRequest) * list MergeRequest :=
  if negb (fg_wired w) then (Ok None, mrs)
  else match mrs with
       | [] => (Ok None, mrs)
       | _ => if fg_writer w && fg_token w then ci_red_scan read mrs None else (Err NoForge, mrs)
       end.

Definition dquote : string := String "034" "".

Section Corridor.

(** [strconv.Quote], [strings.ToLower] and the path of [url.Parse]. *)
Context (Quote toLower : string -> string) (parse : string -> option string).

Definition mr_ref (mr : MergeRequest) : string :=
  with_sigil (mrs_RepositoryRef (mr_Spec mr)) "!" (mrs_Number (mr_Spec mr)).

(** The pieces of a message, in order. *)
Definition sprintf (l : list string) : string := join l.

Definition ciRedNote (red : MergeRequest) (lap : Z) : string :=
  let sha := mr_ReviewedSHA (mr_Status red) in
  if sha != "" then
    sprintf ["CI is RED on "; mr_ref red; " at the reviewed head "; sha; " (attempt "; FormatInt lap;
             " of "; FormatInt MaxCIRedReentries; "). The change was reviewed ";
             "and cannot merge until the required checks pass. Read the failing job on the forge, fix it, ";
             "and submit again - do not re-open the review discussion."]
  else
    sprintf ["CI is RED on "; mr_ref red; " at the head you pushed, "; mr_HeadSHA (mr_Status red);
             " (attempt "; FormatInt lap; " of "; FormatInt MaxCIRedReentries; "). Nothing has reviewed this ";
             "change yet and nothing will until the required checks pass. Read the failing job ";
             "(`scm_read(kind="; dquote; "ci"; dquote; ", repo="; Quote (mrs_RepositoryRef (mr_Spec red)); ", number=";
             FormatInt (mrs_Number (mr_Spec red)); ")`), fix it, push, and submit again."].

(** The outside of one exit: the note, the choke points, and the write of the arm that
    does not move. *)
Record CIRedWorld := mkCIRedWorld { cr_note : TaskFit; cr_world : World; cr_fit : TaskFit }.

(** What a step of the corridor answers: its error, the caller's copy of the Task, and
    what it did. *)
Record Step := mkStep { st_err : option CorridorError; st_task : Task; st_effects : list CorridorEffect }.

Definition of_outcome (o : Outcome) : Step := mkStep (choke_error o) (o_task o) (map Choke (o_effects o)).

(** Effects that happened before. *)
Definition step_after (before : list CorridorEffect) (s : Step) : Step :=
  mkStep (st_err s) (st_task s) (before ++ st_effects s).

(** Goes on when there was no error. *)
Definition step_then (s : Step) (k : Task -> Step) : Step :=
  match st_err s with
  | Some _ => s
  | None => step_after (st_effects s) (k (st_task s))
  end.

Definition ci_red_mutate (reentries : Z) (extra : option (Task -> Task)) (t : Task) : Task :=
  run_mutate extra (on_status t (fun s => s <| CIRedReentries := reentries |>)).

Definition enterCIRedWith (w : CIRedWorld) (m : bool) (task : Task) (mrs : list MergeRequest)
    (red : MergeRequest) (now : Time) (extra : option (Task -> Task)) : Step :=
  let from := State (Status task) in
  let '(edge, task) := CIRed task mrs MaxCIRedReentries in
  let reentries := CIRedReentries (Status task) in
  let '(e, es) := appendOperatorNoteTo (cr_note w) (ciRedNote red reentries) now in
  match e with
  | Some e => mkStep (Some e) task es
  | None =>
      let mutate := ci_red_mutate reentries extra in
      let moved :=
        if To edge == ParkTarget then of_outcome (ParkTask (cr_world w) m task (Reason edge) now (Some mutate))
        else if To edge == from then
          let '(e, es) := fit_task (cr_fit w) false mutate in
          mkStep (option_map TaskWriteFailed e) task (map WriteTask es)
        else of_outcome (EnterStage (cr_world w) m task mrs (To edge) (Reason edge) now (Some mutate) no_opts) in
      step_after es (step_then moved (fun t =>
        mkStep None t [ClearStalled; CountCIRedExit (mrs_RepositoryRef (mr_Spec red)) from (To edge)]))
  end.

Definition enterCIRed (w : CIRedWorld) (m : bool) (task : Task) (mrs : list MergeRequest)
    (red : MergeRequest) (now : Time) : Step := enterCIRedWith w m task mrs red now None.

(** ** The significance label (semver_label.go) *)

Definition AnnSemverLabel : string := "tatara.dev/semver-label".
Definition semverLabelMajor : string := "semver:major".
Definition semverLabelMinor : string := "semver:minor".
Definition semverLabelPatch : string := "semver:patch".
Definition semverLabels : list string := [semverLabelMajor; semverLabelMinor; semverLabelPatch].

Definition semverLabelColors : list (string * string) :=
  [(semverLabelMajor, "b60205"); (semverLabelMinor, "d93f0b"); (semverLabelPatch, "0e8a16")]%string.

Definition semverLabelFor (significance : string) : string :=
  if significance == "major" then semverLabelMajor
  else if significance == "minor" then semverLabelMinor
  else if significance == "patch" then semverLabelPatch
  else "".

Definition annotate (key value : string) (mr : MergeRequest) : MergeRequest :=
  mr <| mr_Annotations ::= <[key := value]> |>.

(** The caller's copy takes the annotations of what was written. *)
Definition annotateMergeRequest (attempts : list (Attempt MergeRequest)) (mr : MergeRequest) (key value : string)
  : option FitError * MergeRequest * list CorridorEffect :=
  let r := patchStatus (fun cur => Some (annotate key value cur)) attempts in
  let copy := match r with
              | Patched cur => mr <| mr_Annotations := mr_Annotations cur |>
              | _ => mr
              end in
  (patch_error r, copy, map UpdateMR (patch_written r)).

Record LabelWorld := mkLabelWorld {
  lw_forge : ForgeWorld;
  lw_ensure : bool;
  lw_add : ScmAnswer;
  lw_annotate : list (Attempt MergeRequest)
}.

(** Each superseded label is dropped, whatever the forge answers. *)
Definition removals (ref want : string) : list CorridorEffect :=
  omap (fun other => if other == want then None else Some (RemoveLabel ref other)) semverLabels.

Definition ProjectSemverLabel (w : LabelWorld) (proj : Project) (repo : Repository) (mr : MergeRequest)
  : option CorridorError * MergeRequest * list CorridorEffect :=
  let want := semverLabelFor (mr_Significance (mr_Status mr)) in
  let level := mr_Significance (mr_Status mr) in
  if negb (fg_wired (lw_forge w)) || (mr_State (mr_Status mr) == "closed") then (None, mr, [])
  else if (want == "") || (default "" (mr_Annotations mr !! AnnSemverLabel) == want) then (None, mr, [])
  else match forge (lw_forge w) proj with
  | None => (Some NoForge, mr, [])
  | Some provider =>
  match repoSlugFromURL toLower parse (repo_URL repo) provider with
  | None => (Some (NoSlug (repo_Name repo)), mr, [])
  | Some slug =>
      let ref := prLabelRef slug provider (mrs_Number (mr_Spec mr)) in
      let counted := CountSemver (mrs_RepositoryRef (mr_Spec mr)) level in
      let ensured := [EnsureLabel (repo_URL repo) want (default "" (tbl semverLabelColors want))] in
      if negb (lw_ensure w) then (Some (LabelFailed want), mr, ensured ++ [counted "error"])
      else
        let added := ensured ++ [AddLabel ref want] in
        if negb (scm_ok (lw_add w)) then
          if isPermanentTargetGone (lw_add w) then (None, mr, added)
          else (Some (LabelFailed want), mr, added ++ [counted "error"])
        else
          let '(e, copy, es) := annotateMergeRequest (lw_annotate w) mr AnnSemverLabel want in
          let done := added ++ removals ref want ++ es in
          match e with
          | Some e => (Some (AnnotateFailed e), copy, done)
          | None => (None, copy, done ++ [counted "applied"])
          end
  end end.

End Corridor.

(** ** Vocabulary of the lemmas *)

(** What the gate knows of a merge request: red at the reviewed head and open. *)
Definition red_now (read : MergeRequest -> MRRead) (mr : MergeRequest) : bool :=
  negb (landed mr)
  && match rd_state (read mr) with
     | Some st =>
         negb (prs_Merged st) && (prs_CIStatus st == "failure")
         && ((mr_ReviewedSHA (mr_Status mr) == "") || (prs_HeadSHA st == "")
             || (prs_HeadSHA st == mr_ReviewedSHA (mr_Status mr)))
     | None => false
     end.

(** The caller's copy of a merge request after the gate. *)
Definition synced (read : MergeRequest -> MRRead) (mr : MergeRequest) : MergeRequest :=
  if landed mr then mr
  else match rd_state (read mr) with
       | Some st => if prs_Merged st then mark_merged mr else mr
       | None => mr
       end.

(** A merge request the gate cannot read. *)
Definition unreadable (read : MergeRequest -> MRRead) (mr : MergeRequest) : bool :=
  negb (landed mr) && (negb (rd_repo (read mr)) || negb (is_set (rd_state (read mr)))).

(** ** Lemmas *)

Lemma red_at_reviewed_spec mr st :
  red_at_reviewed mr st =
    (prs_CIStatus st == "failure")
    && ((mr_ReviewedSHA (mr_Status mr) == "") || (prs_HeadSHA st == "")
        || (prs_HeadSHA st == mr_ReviewedSHA (mr_Status mr))).
Proof. unfold red_at_reviewed. by rewrite !negb_andb, !negb_involutive. Qed.

Lemma ci_red_scan_spec read mrs : forall red,
  match ci_red_scan read mrs red with
  | (Ok r, l) =>
      existsb (unreadable read) mrs = false /\ l = map (synced read) mrs
      /\ r = match red with Some m => Some m | None => List.find (red_now read) mrs end
  | (Err _, _) => existsb (unreadable read) mrs = true
  end.
Proof.
  induction mrs as [|mr l IH]; intros red; [by destruct red|]. cbn [ci_red_scan existsb map List.find].
  unfold unreadable at 1 3, synced at 1, red_now at 1. destruct (landed mr) eqn:El; cbn [negb andb orb].
  { specialize (IH red). destruct (ci_red_scan read l red) as [[r|e] l']; [|done].
    destruct IH as (H1 & -> & ->). done. }
  destruct (rd_repo (read mr)); cbn [negb orb]; [|done].
  destruct (rd_state (read mr)) as [st|]; cbn [is_set negb orb]; [|done].
  destruct (prs_Merged st); cbn [negb andb]; rewrite <- ?red_at_reviewed_spec.
  { specialize (IH red). destruct (ci_red_scan read l red) as [[r|e] l']; [|done].
    destruct IH as (H1 & -> & ->). done. }
  set (red' := if _ && _ then _ else red). specialize (IH red').
  destruct (ci_red_scan read l red') as [[r|e] l']; [|done]. destruct IH as (H1 & -> & ->).
  split; [done|]. split; [done|]. subst red'. destruct (red_at_reviewed mr st), red; done.
Qed.

(** the red-CI gate.  With a forge, it answers the first open merge request whose
    checks failed at the head that was reviewed, red at another head being no verdict,
    and marks those the forge says are merged; it is an error exactly when one that is
    open cannot be read. *)
Theorem ci_gate_finds_the_first_red (w : ForgeWorld) (read : MergeRequest -> MRRead) (mrs : list MergeRequest) :
  fg_wired w = true -> fg_writer w = true -> fg_token w = true ->
  match ciRedAtReviewedHead w read mrs with
  | (Ok red, l) => existsb (unreadable read) mrs = false
                   /\ red = List.find (red_now read) mrs /\ l = map (synced read) mrs
  | (Err _, _) => existsb (unreadable read) mrs = true
  end.
Proof.
  intros H1 H2 H3. unfold ciRedAtReviewedHead. rewrite H1, H2, H3. cbn [negb andb].
  destruct mrs as [|mr l]; [done|]. pose proof (ci_red_scan_spec read (mr :: l) None) as H.
  destruct (ci_red_scan read (mr :: l) None) as [[r|e] l']; [|done]. destruct H as (? & -> & ->). done.
Qed.

Lemma ci_gate_finds_the_first_red_witness :
  let mr := zero_MergeRequest <| mr_Status ::= fun s => s <| mr_ReviewedSHA := "sha"%string |> |> in
  let st head := mkPRState "" head "" "failure" false false in
  fst (ciRedAtReviewedHead (mkForgeWorld true true true) (fun _ => mkMRRead true (Some (st "sha"))) [mr]) = Ok (Some mr)
  /\ fst (ciRedAtReviewedHead (mkForgeWorld true true true) (fun _ => mkMRRead true (Some (st "new"))) [mr]) = Ok None.
Proof.
  cbn zeta. split.
  - pose proof (ci_gate_finds_the_first_red (mkForgeWorld true true true)
      (fun _ => mkMRRead true (Some (mkPRState "" "sha" "" "failure" false false)))
      [zero_MergeRequest <| mr_Status ::= fun s => s <| mr_ReviewedSHA := "sha"%string |> |>] eq_refl eq_refl eq_refl) as H.
    cbn in *. exact (f_equal Ok (proj1 (proj2 H))).
  - reflexivity.
Defined.

Lemma mirror_verdict_spec mrs : forall out,
  mirror_verdict mrs out =
    if existsb (fun mr => negb (landed mr) && (mr_CIStatus (mr_Status mr) == CIMirrorRed)) mrs then ciVerdictRed
    else if existsb (fun mr => negb (landed mr) && ((mr_CIStatus (mr_Status mr) == CIMirrorPending)
                               || (mr_CIStatus (mr_Status mr) == CIMirrorRunning))) mrs then ciVerdictPending
    else out.
Proof.
  induction mrs as [|mr l IH]; intros out; [done|]. cbn [mirror_verdict existsb].
  destruct (landed mr); cbn [negb andb orb]; [apply IH|].
  destruct (mr_CIStatus (mr_Status mr) == CIMirrorRed); cbn [orb]; [done|].
  destruct (_ || (_ == CIMirrorRunning)); cbn [orb]; rewrite IH; [|done].
  destruct (existsb _ l); [done|]. by destruct (existsb _ l).
Qed.

(** The mirror's verdict does not depend on the order of the merge requests. *)
Lemma ciMirrorVerdict_perm mrs mrs' : Permutation mrs mrs' -> ciMirrorVerdict mrs = ciMirrorVerdict mrs'.
Proof.
  intros HP. unfold ciMirrorVerdict. rewrite !mirror_verdict_spec.
  assert (forall f : MergeRequest -> bool, existsb f mrs = existsb f mrs') as E.
  { intros f. apply eq_true_iff_eq. rewrite !existsb_exists.
    split; intros (x & Hx & Hf); exists x; (split; [|done]); (eapply Permutation_in; [|exact Hx]); [done|by apply Permutation_sym]. }
  by rewrite !E.
Qed.

(** A recorded label: the projection has nothing to do. *)
Lemma label_recorded toLower parse w proj repo mr :
  (semverLabelFor (mr_Significance (mr_Status mr)) = ""
   \/ mr_Annotations mr !! AnnSemverLabel = Some (semverLabelFor (mr_Significance (mr_Status mr)))
   \/ mr_State (mr_Status mr) = "closed") ->
  ProjectSemverLabel toLower parse w proj repo mr = (None, mr, []).
Proof.
  intros H. unfold ProjectSemverLabel. destruct (negb (fg_wired (lw_forge w))); [done|]. cbn [orb].
  destruct (mr_State (mr_Status mr) == "closed") eqn:Ec; [done|].
  destruct H as [->|[->|H]]; [done| |by rewrite H in Ec]. cbn [default]. by rewrite String.eqb_refl, orb_true_r.
Qed.

Lemma annotate_written attempts mr key value copy es :
  annotateMergeRequest attempts mr key value = (None, copy, es) ->
  mr_Annotations copy !! key = Some value /\ mr_Status copy = mr_Status mr
  /\ exists cur, es = [UpdateMR cur].
Proof.
  unfold annotateMergeRequest. set (r := patchStatus _ _).
  assert (forall o, r = Unchanged o -> False) as Hno.
  { intros o. unfold r, patchStatus. induction (firstn 5 attempts) as [|a l IH]; [done|]. cbn.
    destruct (at_fresh a); [|done]. by destruct (at_answer a). }
  destruct r as [o|o|e] eqn:E; cbn; [|by destruct (Hno o)|done]. intros [= <- <-]. cbn.
  split; [|split; [done|by exists o]].
  unfold r in E. apply patch_loop_written in E as (fresh & _ & [= <-]). cbn. apply lookup_insert_eq.
Qed.

(** projecting a significance onto the label of a merge request.  Nothing but the
    declared significance decides the label it adds, the other two are dropped and the
    wanted one is not, and once it was added and recorded projecting it again asks the
    forge nothing. *)
Theorem label_projected_once toLower parse w proj repo mr copy es :
  ProjectSemverLabel toLower parse w proj repo mr = (None, copy, es) ->
  let want := semverLabelFor (mr_Significance (mr_Status mr)) in
  (forall ref label, In (AddLabel ref label) es -> label = want)
  /\ (forall ref label, In (RemoveLabel ref label) es -> label <> want)
  /\ (fg_wired (lw_forge w) = true -> scm_ok (lw_add w) = true ->
      forall w' proj' repo', ProjectSemverLabel toLower parse w' proj' repo' copy = (None, copy, [])).
Proof.
  cbn zeta. unfold ProjectSemverLabel at 1. set (want := semverLabelFor _).
  destruct (negb (fg_wired (lw_forge w))) eqn:Ew; cbn [orb].
  { intros [= <- <-]. split; [by intros ? ? []|]. split; [by intros ? ? []|]. intros Hw. by rewrite Hw in Ew. }
  destruct (mr_State (mr_Status mr) == "closed") eqn:Ec.
  { intros [= <- <-]. split; [by intros ? ? []|]. split; [by intros ? ? []|]. intros _ _ w' proj' repo'.
    apply label_recorded. right. right. by apply eqb_to_eq. }
  destruct ((want == "") || (default "" (mr_Annotations mr !! AnnSemverLabel) == want)) eqn:Ea.
  { intros [= <- <-]. split; [by intros ? ? []|]. split; [by intros ? ? []|]. intros _ _ w' proj' repo'.
    apply label_recorded. apply orb_true_iff in Ea as [Ea%eqb_to_eq|Ea%eqb_to_eq]; [by left|]. fold want.
    destruct (mr_Annotations mr !! AnnSemverLabel); cbn in Ea; subst; auto. }
  destruct (forge _ _) as [provider|]; [|done]. destruct (repoSlugFromURL _ _ _ _) as [slug|]; [|done].
  destruct (negb (lw_ensure w)); [done|]. set (ref0 := prLabelRef _ _ _). destruct (scm_ok (lw_add w)); cbn [negb].
  - destruct (annotateMergeRequest _ _ _ _) as [[[e|] copy'] es'] eqn:Ean; [done|]. intros [= <- <-].
    apply annotate_written in Ean as (Hann & Hst & cur & ->).
    split; [|split].
    + intros ref label [?|[[= _ ->]|Hin]]; [done|done|].
      repeat (apply in_app_iff in Hin as [Hin|[?|[]]]; [|done]).
      unfold removals in Hin. apply list_elem_of_In, list_elem_of_omap in Hin as (x & _ & Hx). by destruct (String.eqb_spec x want).
    + intros ref label [?|[?|Hin]]; [done|done|].
      repeat (apply in_app_iff in Hin as [Hin|[?|[]]]; [|done]).
      unfold removals in Hin. apply list_elem_of_In, list_elem_of_omap in Hin as (x & _ & Hx).
      destruct (String.eqb_spec x want); [done|]. by injection Hx as _ <-.
    + intros _ _ w' proj' repo'. apply label_recorded. right. left. by rewrite Hann, Hst.
  - destruct (isPermanentTargetGone _); [|done]. intros [= <- <-]. split; [|split; [|done]].
    + intros ref label [?|[[= _ ->]|[]]]; done.
    + intros ref label [?|[?|[]]]; done.
Qed.

Lemma label_projected_once_witness :
  let mr := zero_MergeRequest <| mr_Status ::= fun s => s <| mr_Significance := "minor"%string |> |> in
  let w := mkLabelWorld (mkForgeWorld true true true) true ScmOk [mkAttempt (Some mr) UpdateOk] in
  exists copy es,
    ProjectSemverLabel (fun s => s) (fun _ => Some "o/r") w zero_Project zero_Repository mr = (None, copy, es)
    /\ In (AddLabel "o/r#0" "semver:minor") es
    /\ ProjectSemverLabel (fun s => s) (fun _ => Some "o/r") w zero_Project zero_Repository copy = (None, copy, []).
Proof.
  cbn zeta. eexists _, _. split; [reflexivity|]. split; [right; left; reflexivity|].
  exact (proj2 (proj2 (label_projected_once (fun s => s) (fun _ => Some "o/r")
    (mkLabelWorld (mkForgeWorld true true true) true ScmOk
       [mkAttempt (Some (zero_MergeRequest <| mr_Status ::= fun s => s <| mr_Significance := "minor"%string |> |>)) UpdateOk])
    zero_Project zero_Repository
    (zero_MergeRequest <| mr_Status ::= fun s => s <| mr_Significance := "minor"%string |> |>) _ _ eq_refl))
    eq_refl eq_refl _ zero_Project zero_Repository).
Defined.
