(* ===== verification/Merge.v ===== *)
(** * The merge corridor (internal/controller/merge.go, brainstorm_resume.go): the one
    place the operator merges a pull request, in the order the Task declares, and the
    delivery that closes its issues. *)

From stdpp Require Import strings sorting.
From Stdlib Require Import String Ascii.
From S2P Require Import Prelude GoTime Own Text Limits Api Vocabulary Machine Park Clocks Unpark ObjBudget Lifecycle Transition Patch Seq Refs Checks Corridor.

Open Scope Z_scope.
Open Scope go_scope.

(** ** The owned mirrors *)

Definition by_name {A} (name : A -> string) (a b : A) : bool :=
  match String.compare (name a) (name b) with Gt => false | _ => true end.

Definition name_le {A} (name : A -> string) (a b : A) : Prop := by_name name a b = true.

#[export] Instance name_le_dec {A} (name : A -> string) : RelDecision (name_le name).
Proof. intros a b. unfold name_le. apply _. Defined.

(** A listed object comes with its owner references. *)
Definition controlled_by {A} (task : string) (x : list OwnerReference * A) : bool :=
  match ControllerOwner (fst x) with Some c => c == task | None => false end.

Definition owned_sorted {A} (name : A -> string) (task : Task) (l : list (list OwnerReference * A)) : list A :=
  merge_sort (name_le name) (map snd (List.filter (controlled_by (task_Name task)) l)).

Definition ownedMergeRequests (task : Task) (l : option (list (list OwnerReference * MergeRequest)))
  : option (list MergeRequest) := option_map (owned_sorted mr_Name task) l.

Definition ownedIssueCRs (task : Task) (l : option (list (list OwnerReference * Issue)))
  : option (list Issue) := option_map (owned_sorted iss_Name task) l.

(** ** Guards *)

Definition externalPushReasonPrefix : string := "external-push:".

Definition mergeAllowedForOwnership (mr : MergeRequest) : bool :=
  (mr_Ownership (mr_Status mr) == OwnershipTatara)
  || ((mr_Ownership (mr_Status mr) == OwnershipExternal)
      && HasPrefix (mr_OwnershipReason (mr_Status mr)) externalPushReasonPrefix).

(** The place in the slice of the merge request the repository has, and its value. *)
Fixpoint mrForRepo (mrs : list MergeRequest) (repo : string) : option (nat * MergeRequest) :=
  match mrs with
  | [] => None
  | mr :: rest =>
      if (mrs_RepositoryRef (mr_Spec mr) == repo) && (mr_State (mr_Status mr) != "closed") then Some (O, mr)
      else option_map (fun km => (S (fst km), snd km)) (mrForRepo rest repo)
  end.

Fixpoint unexpected_at (order : list string) (i cursor : Z) (repo : string) : bool :=
  match order with
  | [] => true
  | r :: rest => if r == repo then cursor <=? i else unexpected_at rest (i + 1) cursor repo
  end.

Definition UnexpectedMerge (task : Task) (mr : MergeRequest) : bool :=
  (mr_State (mr_Status mr) == "merged")
  && unexpected_at (MergeOrder (Spec task)) 0 (MergeCursor (Status task)) (mrs_RepositoryRef (mr_Spec mr)).

Definition RecordUnexpectedMerge (task : Task) (mr : MergeRequest) : list CorridorEffect :=
  if UnexpectedMerge task mr then [CountUnexpectedMerge (mrs_RepositoryRef (mr_Spec mr))] else [].

Definition mergeAllowed (proj : Project) (st : PRState) : bool :=
  let policy := match proj_Scm proj with
                | Some s => if scm_MergePolicy s != "" then scm_MergePolicy s else "afterApproval"
                | None => "afterApproval"
                end in
  if policy == "autoMergeOnGreenCI" then
    if prs_CIStatus st == "success" then true else if prs_CIStatus st != "" then false else true
  else true.

Definition mergePolicyAllows (proj : Project) (st : PRState) (ciRedSuppressed : bool) : bool :=
  if ciRedSuppressed then true else mergeAllowed proj st.

(** ** What the outside answers to one pass *)

Inductive MergeAnswer := Merged (sha : string) | MergeHeadMoved | MergeConflicts | MergeAuthFailed | MergeFailed.

(** What a project records about its brainstorming: its last movement, its pause, and
    the annotation that asks for a resume. *)
Record Movement := mkMovement { mv_LastMovementAt : option Time; mv_PausedAt : option Time; mv_Resume : string }.

(** The release job's read: whether a reader is wired, whether one is had, and the
    commit's status. *)
Record ReleaseWorld := mkReleaseWorld { rl_wired : bool; rl_reader : bool; rl_status : option string }.

(** The answers to the calls made for one repository of the order. *)
Record RepoWorld := mkRepoWorld {
  rw_repo : option Repository;
  rw_label : LabelWorld;
  rw_head : option string;
  rw_state : option PRState;
  rw_redState : option string;
  rw_lister : option (option bool);
  rw_mergeState : option string;
  rw_merge : MergeAnswer;
  rw_stamp : MRFit;
  rw_movement : list (Attempt Movement);
  rw_resume : list (Attempt Movement);
  rw_release : ReleaseWorld
}.

(** The answers to one pass: the list, the forge, each place of the order, and the
    writes of the exits. *)
Record MergeWorld := mkMergeWorld {
  mw_list : option (list (list OwnerReference * MergeRequest));
  mw_forge : ForgeWorld;
  mw_repo : Z -> RepoWorld;
  mw_world : World;
  mw_cursor : TaskFit;
  mw_note : TaskFit;
  mw_reset : MRFit;
  mw_relist : option (list (list OwnerReference * MergeRequest));
  mw_release : Task -> bool;
  mw_metrics : bool
}.

(** What a pass answers: an error, the requeue it asks for, the caller's copy of the
    Task, and its effects. *)
Record PassResult := mkPass {
  p_err : option CorridorError;
  p_requeue : Duration;
  p_task : Task;
  p_effects : list CorridorEffect
}.

Definition mergeRequeue : Duration := 60 * Second.

Definition of_step (s : Step) : PassResult := mkPass (st_err s) 0 (st_task s) (st_effects s).

(** A stretch of the loop: it goes on with a value after some effects, or the pass
    returns. *)
Inductive Run (A : Type) := Next (es : list CorridorEffect) (a : A) | Exit (r : PassResult).
Arguments Next {A} _ _.
Arguments Exit {A} _.

Definition pass_after (es : list CorridorEffect) (r : PassResult) : PassResult :=
  mkPass (p_err r) (p_requeue r) (p_task r) (es ++ p_effects r).

Definition bind {A B} (m : Run A) (k : A -> Run B) : Run B :=
  match m with
  | Exit r => Exit r
  | Next es a =>
      match k a with
      | Next es' b => Next (es ++ es') b
      | Exit r => Exit (pass_after es r)
      end
  end.

Notation "'let*' x := m 'in' k" := (bind m (fun x => k)) (at level 10, x name, m at level 100, k at level 200) : go_scope.
Notation "'let*' ( x , y ) := m 'in' k" := (bind m (fun p => let '(x, y) := p in k)) (at level 10, x name, y name, m at level 100, k at level 200) : go_scope.

Definition emit (es : list CorridorEffect) : Run () := Next es ().

Definition fails {A} (task : Task) (e : CorridorError) : Run A := Exit (mkPass (Some e) 0 task []).

(** [what], or the failure of the pass without it. *)
Definition need {A} (task : Task) (e : CorridorError) (what : option A) : Run A :=
  match what with Some a => Next [] a | None => fails task e end.

(** ** The brainstorm resume *)

Definition ResumeTriggerMerge : string := "merge".

Definition brainstormResumeKind (kind : string) : bool :=
  str_mem ["implement"; "incident"; "takeover"; "upgrade"] kind.

(** The two patches; [wall] is the time of the stamp. The answer is whether it failed. *)
Definition StampBrainstormResume (movement resume : list (Attempt Movement)) (projName trigger : string) (wall : Time)
  : bool * list CorridorEffect :=
  if (projName == "") || (trigger == "") then (false, [])
  else
    let r1 := patchStatus (fun p => Some (mkMovement (Some wall) (mv_PausedAt p) (mv_Resume p))) movement in
    let es1 := map (fun _ => StampMovement wall) (patch_written r1) in
    if is_set (patch_error r1) then (true, es1)
    else
      let r2 := patchStatus (fun p =>
                  match mv_PausedAt p with
                  | None => None
                  | Some _ => if mv_Resume p == trigger then None
                              else Some (mkMovement (mv_LastMovementAt p) (mv_PausedAt p) trigger)
                  end) resume in
      (is_set (patch_error r2), es1 ++ map (fun _ => AnnotateResume trigger) (patch_written r2)).

Section Merging.

(** [strconv.Quote], [strings.ToLower] and the path of [url.Parse]; the outside of the
    pass; the project; the clock. *)
Context (Quote toLower : string -> string) (parse : string -> option string).
Context (w : MergeWorld) (proj : Project) (now : Time).

(** ** The writes of the exits *)

Definition parkTask (task : Task) (reason : string) : Step :=
  of_outcome (ParkTask (mw_world w) (mw_metrics w) task reason now None).

Definition cursor_mutate (task : Task) (cursor : Z) (t : Task) : Task :=
  let t := on_status t (fun s => s <| HeadMoveReentries := HeadMoveReentries (Status task) |>
                                   <| MergeConflictReentries := MergeConflictReentries (Status task) |>) in
  let t := if 0 <=? cursor then on_status t (fun s => s <| MergeCursor := cursor |>) else t in
  if (0 <=? cursor) && negb (cursor =? MergeCursor (Status task)) then ResetRetryBudget t else t.

Definition enterStageWithCursor (task : Task) (to reason : string) (mrs : list MergeRequest) (cursor : Z) : Step :=
  let mutate := cursor_mutate task cursor in
  if to == "" then
    let '(e, es) := fit_task (mw_cursor w) false mutate in
    match e with
    | Some e => mkStep (Some (TaskWriteFailed e)) task (map WriteTask es)
    | None => mkStep None (mutate task) (map WriteTask es)
    end
  else of_outcome (EnterStage (mw_world w) (mw_metrics w) task mrs to reason now (Some mutate)
                     (WithTerminalIssueRelease (Some (mw_release w)) no_opts)).

Definition headMoved (task : Task) (mr : MergeRequest) (cursor : Z) : Step :=
  let '(edge, task) := HeadMoved task MaxHeadMoveReentries in
  step_after [ClearStalled]
    (if To edge == ParkTarget then parkTask task ReasonHeadMoving
     else
       let '(e, es) := fit_mr (mw_reset w) (fun m =>
         m <| mr_Status ::= fun s => s <| mr_StatusWord := "new"%string |> <| mr_ReviewedSHA := ""%string |> |>) in
       match e with
       | Some e => mkStep (Some (MRWriteFailed e)) task (map WriteMR es)
       | None =>
           step_after (map WriteMR es)
             match ownedMergeRequests task (mw_relist w) with
             | None => mkStep (Some ListFailed) task []
             | Some fresh => enterStageWithCursor task StateAwaitingReview "" fresh cursor
             end
       end).

Definition mergeConflictNote (mr : MergeRequest) (baseBranch : string) (lap : Z) : string :=
  sprintf [mr_ref mr; " CONFLICTS with "; baseBranch; " and cannot merge (attempt "; FormatInt lap; " of ";
           FormatInt MaxMergeConflictReentries; "). This turn is a conflict ";
           "resolution, not a fresh implementation: the change was already reviewed. Merge "; baseBranch; " into ";
           "the merge request's branch, resolve the conflicts, keep the change's intent intact, and ";
           "push. Do NOT force-push, rebase or regenerate the branch - the existing commits are what ";
           "the merge request is, and re-creating it would discard them."].

Definition mergeConflict (task : Task) (mrs : list MergeRequest) (mr : MergeRequest) (baseBranch : string) (cursor : Z)
  : Step :=
  let '(edge, task) := MergeConflict task mrs MaxMergeConflictReentries in
  let '(e, es) := appendOperatorNoteTo (mw_note w)
                    (mergeConflictNote mr baseBranch (MergeConflictReentries (Status task))) now in
  step_after (ClearStalled :: es)
    match e with
    | Some e => mkStep (Some e) task []
    | None =>
        step_then
          (if To edge == ParkTarget then parkTask task (Reason edge)
           else enterStageWithCursor task (To edge) (Reason edge) mrs cursor)
          (fun t => mkStep None t [CountConflictExit (mrs_RepositoryRef (mr_Spec mr)) (To edge)])
    end.

Definition stallMerge (task : Task) (repo : string) (cursor : Z) : PassResult :=
  pass_after [SetStalled repo (StateElapsedSeconds task now)]
    (if cursor =? MergeCursor (Status task) then mkPass None mergeRequeue task []
     else let s := enterStageWithCursor task "" "" [] cursor in
          mkPass (st_err s) (if is_set (st_err s) then 0 else mergeRequeue) (st_task s) (st_effects s)).

(** ** The steps of one repository *)

Definition merged_closure (mergeSHA : string) (m : MergeRequest) : MergeRequest :=
  m <| mr_Status ::= fun s =>
    let s := s <| mr_State := "merged"%string |> in
    let s := if is_set (mr_MergedAt s) then s else s <| mr_MergedAt := Some now |> in
    if (mergeSHA != "") && (mr_MergedSHA s == "") then s <| mr_MergedSHA := mergeSHA |> else s |>.

(** The caller's copy does not take the time. *)
Definition merged_copy (mergeSHA : string) (m : MergeRequest) : MergeRequest :=
  m <| mr_Status ::= fun s =>
    let s := s <| mr_State := "merged"%string |> in
    if (mergeSHA != "") && (mr_MergedSHA s == "") then s <| mr_MergedSHA := mergeSHA |> else s |>.

Definition stampMerged (task : Task) (fw : MRFit) (mr : MergeRequest) (mergeSHA : string) : Run MergeRequest :=
  let '(e, es) := fit_mr fw (merged_closure mergeSHA) in
  match e with
  | Some e => Exit (mkPass (Some (MRWriteFailed e)) 0 task (map WriteMR es))
  | None => Next (map WriteMR es) (merged_copy mergeSHA mr)
  end.

Definition releaseGreen (rl : ReleaseWorld) (repo : Repository) (provider sha : string)
  : result CorridorError bool * list CorridorEffect :=
  if negb (rl_wired rl) || (sha == "") then (Ok true, [])
  else if negb (rl_reader rl) then (Err ReleaseUnreadable, [])
  else match ghOwnerRepo (parse (repo_URL repo)) with
       | None => (Err (NoSlug (repo_Name repo)), [])
       | Some (owner, name) =>
           let '(owner, name) :=
             if provider == "gitlab" then
               match glProjectPath (parse (repo_URL repo)) with Some pp => (pp, "") | None => (owner, name) end
             else (owner, name) in
           let read := [ReadRelease owner name sha] in
           match rl_status rl with
           | None => (Err ReleaseUnreadable, read)
           | Some status => (Ok ((status == "success") || (status == "")), read)
           end
       end.

(** Whether the red of a head may be ignored: the forge's answers, read on a red only. *)
Definition ciRedSuppressed (rw : RepoWorld) (st : PRState) : bool :=
  (prs_CIStatus st == "failure")
  && match rw_redState rw with
     | None => false
     | Some redMS => fst (CIRedSuppressed (rw_lister rw) redMS)
     end.

Definition project_label (task : Task) (rw : RepoWorld) (repo : Repository) (mr : MergeRequest) : Run MergeRequest :=
  let '(e, copy, es) := ProjectSemverLabel toLower parse (rw_label rw) proj repo mr in
  match e with Some e => Exit (mkPass (Some e) 0 task es) | None => Next es copy end.

(** After the forge has merged: the stamp, the resume, and the release job. *)
Definition after_merge (task : Task) (rw : RepoWorld) (repo : Repository) (provider : string)
    (mr : MergeRequest) (i cursor : Z) (sha : string) : Run (Z * MergeRequest) :=
  let* mr := stampMerged task (rw_stamp rw) mr sha in
  let* _ := emit (if brainstormResumeKind (Kind (Spec task))
                  then snd (StampBrainstormResume (rw_movement rw) (rw_resume rw) (proj_Name proj) ResumeTriggerMerge now)
                  else []) in
  let '(green, es) := releaseGreen (rw_release rw) repo provider sha in
  match green with
  | Err e => Exit (mkPass (Some e) 0 task es)
  | Ok true => Next es (i + 1, mr)
  | Ok false => Exit (pass_after es (stallMerge task (mrs_RepositoryRef (mr_Spec mr)) cursor))
  end.

(** The merge itself, pinned to the head just read. *)
Definition merge_now (task : Task) (rw : RepoWorld) (repo : Repository) (provider : string)
    (mr : MergeRequest) (i cursor : Z) (liveHead : string) : Run (Z * MergeRequest) :=
  let* _ := emit [Merge (repo_URL repo) (mrs_Number (mr_Spec mr)) "squash" liveHead] in
  match rw_merge rw with
  | Merged sha => after_merge task rw repo provider mr i cursor sha
  | MergeHeadMoved => Exit (of_step (headMoved task mr cursor))
  | MergeConflicts => Exit (stallMerge task (mrs_RepositoryRef (mr_Spec mr)) cursor)
  | MergeAuthFailed => Exit (of_step (parkTask task ReasonMergeAuthRefused))
  | MergeFailed => fails task MergeRefused
  end.

(** From the state of the pull request on. *)
Definition gate_merge (task : Task) (rw : RepoWorld) (repo : Repository) (provider : string)
    (mrs : list MergeRequest) (mr : MergeRequest) (i cursor : Z) (liveHead : string) (st : PRState)
  : Run (Z * MergeRequest) :=
  let repoRef := mrs_RepositoryRef (mr_Spec mr) in
  let suppressed := ciRedSuppressed rw st in
  if (prs_CIStatus st == "failure") && negb suppressed then
    Exit (of_step (enterCIRed Quote (mkCIRedWorld (mw_note w) (mw_world w) (mw_cursor w)) (mw_metrics w) task mrs mr now))
  else if ((prs_CIStatus st != "success") && negb suppressed) || negb (mergePolicyAllows proj st suppressed) then
    Exit (stallMerge task repoRef cursor)
  else match rw_mergeState rw with
       | Some ms =>
           if (ms == MergeStateDirty) && (mr_Ownership (mr_Status mr) == OwnershipTatara) then
             Exit (of_step (mergeConflict task mrs mr (repo_DefaultBranch repo) cursor))
           else if (ms == MergeStateDirty) || (ms == MergeStateBlocked) then Exit (stallMerge task repoRef cursor)
           else merge_now task rw repo provider mr i cursor liveHead
       | None => merge_now task rw repo provider mr i cursor liveHead
       end.

(** One turn of the loop. *)
Definition visit (task : Task) (provider repoRef : string) (i cursor : Z) (mrs : list MergeRequest)
  : Run (Z * list MergeRequest) :=
  let rw := mw_repo w i in
  match mrForRepo mrs repoRef with
  | None => Exit (of_step (step_after [ClearStalled] (parkTask task ReasonOperatorError)))
  | Some (k, mr) =>
      if mr_State (mr_Status mr) == "merged" then Next [] (i + 1, mrs)
      else if negb (mergeAllowedForOwnership mr) then fails task (NotMergeable (mr_Name mr))
      else
        let* repo := need task (NoRepository repoRef) (rw_repo rw) in
        let* mr := project_label task rw repo mr in
        let mrs := <[k := mr]> mrs in
        let* _ := emit (if mr_Significance (mr_Status mr) == "" then [CountSemverMissing repoRef] else []) in
        let* liveHead := need task HeadUnreadable (rw_head rw) in
        if liveHead != mr_ReviewedSHA (mr_Status mr) then Exit (of_step (headMoved task mr cursor))
        else
          let* st := need task StateUnreadable (rw_state rw) in
          if prs_Merged st then
            let* _ := emit (RecordUnexpectedMerge task mr) in
            let* mr := stampMerged task (rw_stamp rw) mr "" in
            Next [] (i + 1, <[k := mr]> mrs)
          else
            let* (cursor, mr) := gate_merge task rw repo provider mrs mr i cursor liveHead st in
            Next [] (cursor, <[k := mr]> mrs)
  end.

Fixpoint merge_loop (task : Task) (provider : string) (order : list string) (i cursor : Z) (mrs : list MergeRequest)
  : Run (Z * list MergeRequest) :=
  match order with
  | [] => Next [] (cursor, mrs)
  | repoRef :: rest =>
      let* (cursor, mrs) := visit task provider repoRef i cursor mrs in
      merge_loop task provider rest (i + 1) cursor mrs
  end.

(** The cursor is never negative: it is only ever written one past a place of the order. *)
Definition ReconcileMerging (task : Task) : PassResult :=
  if Kind (Spec task) == "review" then mkPass (Some RefusedReviewTask) 0 task []
  else match MergeOrder (Spec task) with
  | [] => of_step (step_after [ClearStalled] (parkTask task ReasonMergeOrderMissing))
  | order =>
      match ownedMergeRequests task (mw_list w) with
      | None => mkPass (Some ListFailed) 0 task []
      | Some mrs =>
          match forge (mw_forge w) proj with
          | None => mkPass (Some NoForge) 0 task []
          | Some provider =>
              let cursor := MergeCursor (Status task) in
              match merge_loop task provider (skipn (Z.to_nat cursor) order) cursor cursor mrs with
              | Exit r => r
              | Next es (cursor, mrs) =>
                  pass_after es (of_step (step_after [ClearStalled]
                    (enterStageWithCursor task StateDeployed "" mrs cursor)))
              end
          end
      end
  end.

End Merging.

(** ** Delivery *)

Record IssueWorld := mkIssueWorld {
  iw_repo : option Repository;
  iw_close : ScmAnswer;
  iw_fit : FitWorld Issue Comment
}.

Record DeliverWorld := mkDeliverWorld {
  dv_list : option (list (list OwnerReference * MergeRequest));
  dv_issues : option (list (list OwnerReference * Issue));
  dv_forge : ForgeWorld;
  dv_issue : Issue -> IssueWorld;
  dv_world : World;
  dv_release : Task -> bool;
  dv_metrics : bool
}.

Fixpoint join_comma (parts : list string) : string :=
  match parts with
  | [] => ""
  | [p] => p
  | p :: rest => sprintf [p; ", "; join_comma rest]
  end.

Definition deliveryCitation (mrs : list MergeRequest) : string :=
  join_comma (map (fun mr =>
    let v := mr_DeployedVersion (mr_Status mr) in
    sprintf [mr_ref mr; " ("; (if v == "" then "unversioned" else v); ")"]) mrs).

Definition fit_issue (fw : FitWorld Issue Comment) (mutate : Issue -> Issue)
  : option FitError * list (FitEffect Issue Comment) :=
  let '(r, es) := FitIssue (fw_sizeOf fw) (fw_spiller fw) (fw_reads fw) mutate (fw_attempts fw) in
  (match r with Ok _ => None | Err e => Some e end, es).

Definition issue_done (iss : Issue) : Issue :=
  iss <| iss_Status ::= fun s => s <| iss_State := "closed"%string |> <| iss_StatusWord := "done"%string |> |>.

Section Delivery.

Context (toLower : string -> string) (parse : string -> option string).
Context (w : DeliverWorld) (proj : Project) (now : Time).

Definition close_issue (task : Task) (provider cite : string) (iss : Issue) : Run () :=
  if iss_State (iss_Status iss) != "open" then Next [] ()
  else
    let iw := dv_issue w iss in
    let* repo := need task (NoRepository (is_RepositoryRef (iss_Spec iss))) (iw_repo iw) in
    let* slug := need task (NoSlug (repo_Name repo)) (repoSlugFromURL toLower parse (repo_URL repo) provider) in
    let* _ := emit [CloseIssue slug (is_Number (iss_Spec iss)) (sprintf ["Delivered in "; cite; ". Closed by tatara."])] in
    if negb (scm_ok (iw_close iw)) then fails task CloseRefused
    else
      let '(e, es) := fit_issue (iw_fit iw) issue_done in
      match e with
      | Some e => Exit (mkPass (Some (IssueWriteFailed e)) 0 task (map WriteIssue es))
      | None => Next (map WriteIssue es) ()
      end.

Fixpoint close_issues (task : Task) (provider cite : string) (issues : list Issue) : Run () :=
  match issues with
  | [] => Next [] ()
  | iss :: rest =>
      let* _ := close_issue task provider cite iss in
      close_issues task provider cite rest
  end.

(** Every owned merge request is merged and deployed. *)
Definition delivered (mrs : list MergeRequest) : bool :=
  forallb (fun mr => (mr_State (mr_Status mr) == "merged") && is_set (mr_DeployedAt (mr_Status mr))) mrs.

Definition deliver_stage (task : Task) (mrs : list MergeRequest) : Step :=
  step_then
    (of_outcome (EnterStage (dv_world w) (dv_metrics w) task mrs StateDone "" now
       (Some (fun t => on_status t (fun s => s <| DeliveredAt := Some now |>)))
       (WithTerminalIssueRelease (Some (dv_release w)) no_opts)))
    (fun t => mkStep None t [ClearStalled]).

Definition CloseIssuesOnDelivery (task : Task) : PassResult :=
  match ownedMergeRequests task (dv_list w) with
  | None => mkPass (Some ListFailed) 0 task []
  | Some [] => mkPass None 0 task []
  | Some mrs =>
      if negb (delivered mrs) then mkPass None 0 task []
      else match ownedIssueCRs task (dv_issues w) with
           | None => mkPass (Some ListFailed) 0 task []
           | Some issues =>
               match forge (dv_forge w) proj with
               | None => mkPass (Some NoForge) 0 task []
               | Some provider =>
                   match close_issues task provider (deliveryCitation mrs) issues with
                   | Exit r => r
                   | Next es _ => pass_after es (of_step (deliver_stage task mrs))
                   end
               end
           end
  end.

End Delivery.

(** ** Vocabulary of the lemmas and the witnesses *)

Definition is_merge (e : CorridorEffect) : bool := match e with Merge _ _ _ _ => true | _ => false end.
Definition is_unexpected (e : CorridorEffect) : bool := match e with CountUnexpectedMerge _ => true | _ => false end.

(** What a stretch of the loop did, whether it went on or returned. *)
Definition run_effects {A} (r : Run A) : list CorridorEffect :=
  match r with Next es _ => es | Exit r => p_effects r end.

(** A merge the corridor may make: of a merge request its repository has and that is not
    merged, tatara's or one stood down after a takeover, pinned to the head the review
    was of, which the forge says is the head now; with its checks green, or red in a way
    the forge says does not block, and no conflict and no block reported. *)
Definition merge_ok (rw : RepoWorld) (repoRef : string) (mr : MergeRequest) (e : CorridorEffect) : Prop :=
  exists repo st, e = Merge (repo_URL repo) (mrs_Number (mr_Spec mr)) "squash" (mr_ReviewedSHA (mr_Status mr))
  /\ mrs_RepositoryRef (mr_Spec mr) = repoRef
  /\ mr_State (mr_Status mr) <> "merged" /\ mr_State (mr_Status mr) <> "closed"
  /\ mergeAllowedForOwnership mr = true
  /\ rw_repo rw = Some repo /\ rw_head rw = Some (mr_ReviewedSHA (mr_Status mr))
  /\ rw_state rw = Some st /\ prs_Merged st = false
  /\ (prs_CIStatus st = "success"
      \/ prs_CIStatus st = "failure" /\ rw_redState rw = Some MergeStateUnstable /\ rw_lister rw = Some (Some true))
  /\ rw_mergeState rw <> Some MergeStateDirty /\ rw_mergeState rw <> Some MergeStateBlocked.

(** The merge request that a place of the order has is merged as far as the pass knows. *)
Definition repo_merged (mrs : list MergeRequest) (repo : string) : Prop :=
  exists k mr, mrForRepo mrs repo = Some (k, mr) /\ mr_State (mr_Status mr) = "merged".

Definition is_choke (e : CorridorEffect) : bool := match e with Choke _ => true | _ => false end.

(** The issue was closed on the forge. *)
Definition closed_in (w : DeliverWorld) (iss : Issue) (es : list CorridorEffect) : Prop :=
  iw_close (dv_issue w iss) = ScmOk
  /\ exists slug c, In (CloseIssue slug (is_Number (iss_Spec iss)) c) es.

(** Two repositories in order, each with a reviewed, green merge request. *)
Definition sample_mr (name repo sha : string) (number : Z) : MergeRequest :=
  zero_MergeRequest <| mr_Name := name |> <| mr_Annotations := {[ AnnSemverLabel := semverLabelPatch ]} |>
    <| mr_Spec := mkMergeRequestSpec repo number ""%string ""%string |>
    <| mr_Status ::= fun s => s <| mr_State := "open"%string |> <| mr_Ownership := OwnershipTatara |>
         <| mr_ReviewedSHA := sha |> <| mr_Significance := "patch"%string |> |>.

Definition operator_mr : MergeRequest := sample_mr "mr-a" "operator" "sha-a" 7.
Definition cli_mr : MergeRequest := sample_mr "mr-b" "cli" "sha-b" 9.

Definition sample_repo (name url : string) : Repository := mkRepository name url "main" None None "" ∅.

Definition once {Obj Item} (o : Obj) : FitWorld Obj Item :=
  mkFitWorld (fun _ => Some 100) None [Found o] [mkAttempt (Some o) UpdateOk].

Definition all_wired : ForgeWorld := mkForgeWorld true true true.

(** A repository whose forge says its merge request is open, green and mergeable;
    [release] is what its release job says at the merge commit. *)
Definition green_repo (repo : Repository) (mr : MergeRequest) (sha release : string) : RepoWorld :=
  mkRepoWorld (Some repo) (mkLabelWorld all_wired true ScmOk []) (Some sha)
    (Some (mkPRState "bot" sha "work" "success" false false)) None None (Some MergeStateClean)
    (Merged (String.append "merge-" sha)) (once mr) [] [] (mkReleaseWorld true true (Some release)).

Definition merging_task : Task :=
  (at_state "implement" StateMerged "") <| task_Name := "t1"%string |>
    <| Spec ::= fun s => s <| MergeOrder := ["operator"; "cli"]%string |> |>.

Definition t1_ref : OwnerReference :=
  mkOwnerReference groupVersion taskKind "t1" "u1" (Some true) (Some true).

Definition merge_world (mrs : list MergeRequest) (release : string) : MergeWorld :=
  mkMergeWorld (Some (map (fun mr => ([t1_ref], mr)) mrs)) all_wired
    (fun i => if i =? 0 then green_repo (sample_repo "operator" "u/operator") operator_mr "sha-a" release
              else green_repo (sample_repo "cli" "u/cli") cli_mr "sha-b" release)
    (calm merging_task) (once merging_task) (once merging_task) (once operator_mr) None (fun _ => true) true.

Definition sample_path (url : string) : option string :=
  if url == "u/operator" then Some "/szymonrychu/operator" else Some "/szymonrychu/cli".

Definition sample_project : Project := zero_Project <| proj_Name := "tatara"%string |>.

Abbreviation sample_pass mrs release :=
  (ReconcileMerging (fun s => s) (fun s => s) sample_path (merge_world mrs release) sample_project 100 merging_task).

(** How the pass changes its copy of a merge request: its annotations, and its state once
    merged. *)
Definition evolved (m0 m : MergeRequest) : Prop :=
  mr_Name m = mr_Name m0 /\ mr_Spec m = mr_Spec m0
  /\ (mr_Status m = mr_Status m0
      \/ mr_State (mr_Status m) = "merged" /\ mr_State (mr_Status m0) <> "closed").

(** A merge made at place [p] of the order the pass takes from place [i] on: of the
    merge request that place's repository had when the pass began, in a way the corridor
    may, and once every place before is merged as far as the pass knows. *)
Definition merge_at (w : MergeWorld) (i : Z) (order : list string) (mrs0 : list MergeRequest) (p : Z)
    (e : CorridorEffect) : Prop :=
  i <= p /\ exists repo k mr mrs, order !! Z.to_nat (p - i) = Some repo
  /\ mrForRepo mrs0 repo = Some (k, mr) /\ merge_ok (mw_repo w p) repo mr e
  /\ Forall2 evolved mrs0 mrs /\ Forall (repo_merged mrs) (firstn (Z.to_nat (p - i)) order).

(** An effect that only the steps of a repository have, never an exit. *)
Definition egress (e : CorridorEffect) : bool :=
  match e with Merge _ _ _ _ | ReadRelease _ _ _ | CountUnexpectedMerge _ => true | _ => false end.

Definition silent (f : CorridorEffect -> bool) (es : list CorridorEffect) : Prop := forall e, In e es -> f e = false.

(** Neither a call of a choke point nor one of those. *)
Definition plain (e : CorridorEffect) : bool := match e with Choke _ => false | e => negb (egress e) end.

(** A kind of effect that no plain one is, no park, and no transition but to deployed. *)
Record leaves_alone (w : MergeWorld) (f : CorridorEffect -> bool) : Prop := {
  la_plain e : plain e = true -> f e = false;
  la_park task reason now mutate : transparent mutate ->
    silent f (map Choke (o_effects (ParkTask (mw_world w) (mw_metrics w) task reason now mutate)));
  la_enter task mrs to reason now mutate eo : transparent mutate -> to <> StateDeployed ->
    silent f (map Choke (o_effects (EnterStage (mw_world w) (mw_metrics w) task mrs to reason now mutate eo)))
}.

(** A write that puts the Task into deployed. *)
Definition deploys (e : CorridorEffect) : bool :=
  match e with Choke (Fit (Updated t)) => State (Status t) == StateDeployed | _ => false end.

Definition quiet : list CorridorEffect -> Prop := silent egress.

(** A stretch that merges nothing, or makes one merge, of which [P] holds. *)
Definition at_most {A} (P : CorridorEffect -> Prop) (r : Run A) : Prop :=
  silent is_unexpected (run_effects r)
  /\ (silent is_merge (run_effects r) \/ exists e, List.filter is_merge (run_effects r) = [e] /\ P e).

(** Such a stretch, which goes on with values of which [post] holds. *)
Definition sound {A} (P : CorridorEffect -> Prop) (post : A -> Prop) (r : Run A) : Prop :=
  at_most P r /\ forall es a, r = Next es a -> post a.

(** What lets a state of the pull request through to the merge. *)
Definition ci_lets (rw : RepoWorld) (st : PRState) : Prop :=
  prs_CIStatus st = "success"
  \/ prs_CIStatus st = "failure" /\ rw_redState rw = Some MergeStateUnstable /\ rw_lister rw = Some (Some true).

(** What lets the forge's merge state through. *)
Definition state_lets (rw : RepoWorld) : Prop :=
  rw_mergeState rw <> Some MergeStateDirty /\ rw_mergeState rw <> Some MergeStateBlocked.

(** ** Lemmas on effects *)

Lemma silent_nil f : silent f [].
Proof. intros e []. Qed.

Lemma silent_cons f e es : f e = false -> silent f es -> silent f (e :: es).
Proof. intros He Hes x [<-|Hx]; auto. Qed.

Lemma silent_app f l l' : silent f l -> silent f l' -> silent f (l ++ l').
Proof. intros H H' e [He|He]%in_app_iff; auto. Qed.

Lemma silent_map {A} f (g : A -> CorridorEffect) l : (forall a, f (g a) = false) -> silent f (map g l).
Proof. intros H e (a & <- & _)%in_map_iff. apply H. Qed.

Lemma silent_after f es s : silent f es -> silent f (st_effects s) -> silent f (st_effects (step_after es s)).
Proof. apply silent_app. Qed.

Lemma silent_then f s k : silent f (st_effects s) -> (forall t, silent f (st_effects (k t))) ->
  silent f (st_effects (step_then s k)).
Proof. intros Hs Hk. unfold step_then. destruct (st_err s); [done|]. by apply silent_after. Qed.

Lemma transparent_cursor task cursor : transparent (Some (cursor_mutate task cursor)).
Proof.
  intros t. cbn [run_mutate]. unfold cursor_mutate.
  set (t1 := on_status t _). set (t2 := if 0 <=? cursor then _ else _).
  assert (outside t t2) as Ho.
  { subst t2 t1. destruct (0 <=? cursor); (split; [reflexivity|auto]). }
  assert (State (Status t2) = State (Status t) /\ ParkReason (Status t2) = ParkReason (Status t)
          /\ Kind (Spec t2) = Kind (Spec t)) as (H1 & H2 & H3)
    by (split; [by apply outside_state|split; [by apply outside_park|by apply outside_kind]]).
  destruct (_ && _).
  - split; [|done]. eapply rtc_l; [apply step_outside, Ho|]. apply rtc_once, (step_op _ OpResetRetryBudget).
  - split; [by apply rtc_once, step_outside|done].
Qed.

Lemma transparent_ci_red n : transparent (Some (ci_red_mutate n None)).
Proof. apply outside_transparent. intros t. split; [reflexivity|auto]. Qed.

(** The bounces do not lead to deployed. *)
Lemma CIRed_to task mrs n : To (fst (CIRed task mrs n)) <> StateDeployed.
Proof. unfold CIRed. destruct (_ == _); [done|]. destruct (anyMerged mrs); [done|]. by destruct (_ <=? _). Qed.

Lemma MergeConflict_to task mrs n : To (fst (MergeConflict task mrs n)) <> StateDeployed.
Proof. unfold MergeConflict. destruct (_ == _); [done|]. destruct (anyMerged mrs); [done|]. by destruct (_ <=? _). Qed.

Lemma label_keeps toLower parse w proj repo mr :
  let mr' := snd (fst (ProjectSemverLabel toLower parse w proj repo mr)) in
  mr_Name mr' = mr_Name mr /\ mr_Spec mr' = mr_Spec mr /\ mr_Status mr' = mr_Status mr.
Proof.
  unfold ProjectSemverLabel. destruct (_ || _); [done|]. destruct (_ || _); [done|].
  destruct (forge _ _); [|done]. destruct (repoSlugFromURL _ _ _ _); [|done].
  destruct (negb (lw_ensure w)); [done|]. destruct (negb (scm_ok _)); [by destruct (isPermanentTargetGone _)|].
  unfold annotateMergeRequest. set (r := patchStatus _ _). destruct r; done.
Qed.

Section Exits.

Context (Quote toLower : string -> string) (parse : string -> option string).
Context (w : MergeWorld) (proj : Project) (now : Time).
Context (f : CorridorEffect -> bool) (Hf : leaves_alone w f).

Lemma plain_cons e es : plain e = true -> silent f es -> silent f (e :: es).
Proof using Hf. intros He. apply silent_cons. by apply (la_plain _ _ Hf). Qed.

Lemma plain_one e : plain e = true -> silent f [e].
Proof using Hf. intros He. by apply plain_cons, silent_nil. Qed.

Lemma plain_map {A} (g : A -> CorridorEffect) l : (forall a, plain (g a) = true) -> silent f (map g l).
Proof using Hf. intros H. apply silent_map. intros a. by apply (la_plain _ _ Hf). Qed.

Lemma alone_park task reason : silent f (st_effects (parkTask w now task reason)).
Proof using Hf. apply (la_park _ _ Hf), transparent_None. Qed.

Lemma alone_note fw body : silent f (snd (appendOperatorNoteTo fw body now)).
Proof using Hf. unfold appendOperatorNoteTo. destruct (fit_task _ _ _) as [e es]. by apply plain_map. Qed.

Lemma alone_ci_red note fit task mrs red :
  silent f (st_effects (enterCIRed Quote (mkCIRedWorld note (mw_world w) fit) (mw_metrics w) task mrs red now)).
Proof using Hf.
  unfold enterCIRed, enterCIRedWith. pose proof (CIRed_to task mrs MaxCIRedReentries) as Hto.
  destruct (CIRed task mrs MaxCIRedReentries) as [edge t]. cbn [cr_note cr_world cr_fit].
  match goal with |- context [appendOperatorNoteTo ?a ?b now] =>
    pose proof (alone_note a b) as Hn; destruct (appendOperatorNoteTo a b now) as [[e|] es] end; [done|].
  apply silent_after; [done|]. apply silent_then; [|intros; by apply plain_cons, plain_one].
  destruct (_ == ParkTarget); [apply (la_park _ _ Hf), transparent_ci_red|].
  destruct (_ == _); [|apply (la_enter _ _ Hf); [apply transparent_ci_red|done]].
  destruct (fit_task _ _ _) as [e' es']. by apply plain_map.
Qed.

Lemma alone_label lw repo mr : silent f (snd (ProjectSemverLabel toLower parse lw proj repo mr)).
Proof using Hf.
  unfold ProjectSemverLabel. destruct (_ || _); [apply silent_nil|]. destruct (_ || _); [apply silent_nil|].
  destruct (forge _ _) as [p|]; [|apply silent_nil]. destruct (repoSlugFromURL _ _ _ _) as [s|]; [|apply silent_nil].
  destruct (negb (lw_ensure lw)); [by apply plain_cons, plain_one|].
  destruct (negb (scm_ok _)).
  { destruct (isPermanentTargetGone _); [by apply plain_cons, plain_one|by do 2 (apply plain_cons; [done|]); apply plain_one]. }
  unfold annotateMergeRequest. set (r := patchStatus _ _). set (ref := prLabelRef _ _ _). set (want := semverLabelFor _).
  assert (silent f (removals ref want)) as Hr.
  { intros e (x & _ & He)%list_elem_of_In%list_elem_of_omap. destruct (_ == _); [done|]. injection He as <-.
    by apply (la_plain _ _ Hf). }
  assert (silent f ([EnsureLabel (repo_URL repo) want (default "" (tbl semverLabelColors want))] ++ [AddLabel ref want])) as Ha
    by (by apply plain_cons, plain_one).
  assert (silent f (map UpdateMR (patch_written r))) as Hu by (by apply plain_map).
  destruct (patch_error r); cbn [snd]; repeat apply silent_app; auto; by apply plain_one.
Qed.

Lemma alone_cursor task to reason mrs cursor : to <> StateDeployed ->
  silent f (st_effects (enterStageWithCursor w now task to reason mrs cursor)).
Proof using Hf.
  intros Hto. unfold enterStageWithCursor. destruct (to == ""); [|by apply (la_enter _ _ Hf), Hto; apply transparent_cursor].
  destruct (fit_task _ _ _) as [[e|] es]; by apply plain_map.
Qed.

Lemma alone_head_moved task mr cursor : silent f (st_effects (headMoved w now task mr cursor)).
Proof using Hf.
  unfold headMoved. destruct (HeadMoved task MaxHeadMoveReentries) as [edge t].
  apply silent_after; [by apply plain_one|]. destruct (_ == _); [apply alone_park|].
  destruct (fit_mr _ _) as [[e|] es]; [by apply plain_map|]. apply silent_after; [by apply plain_map|].
  destruct (ownedMergeRequests _ _); [by apply alone_cursor|apply silent_nil].
Qed.

Lemma alone_conflict task mrs mr base cursor : silent f (st_effects (mergeConflict w now task mrs mr base cursor)).
Proof using Hf.
  unfold mergeConflict. pose proof (MergeConflict_to task mrs MaxMergeConflictReentries) as Hto.
  destruct (MergeConflict task mrs MaxMergeConflictReentries) as [edge t].
  match goal with |- context [appendOperatorNoteTo ?a ?b now] =>
    pose proof (alone_note a b) as Hn; destruct (appendOperatorNoteTo a b now) as [e es] end.
  apply silent_after; [by apply plain_cons|]. destruct e; [apply silent_nil|].
  apply silent_then; [|intros; by apply plain_one]. destruct (_ == _); [apply alone_park|by apply alone_cursor].
Qed.

Lemma alone_stall task repo cursor : silent f (p_effects (stallMerge w now task repo cursor)).
Proof using Hf.
  unfold stallMerge. apply silent_app; [by apply plain_one|].
  destruct (_ =? _); [apply silent_nil|by apply alone_cursor].
Qed.

Lemma alone_stamp task fw mr sha : silent f (run_effects (stampMerged now task fw mr sha)).
Proof using Hf. unfold stampMerged. destruct (fit_mr _ _) as [[e|] es]; by apply plain_map. Qed.

Lemma alone_movement l l' name trigger wall : silent f (snd (StampBrainstormResume l l' name trigger wall)).
Proof using Hf.
  unfold StampBrainstormResume. destruct (_ || _); [apply silent_nil|].
  destruct (is_set _); cbn; [by apply plain_map|]. apply silent_app; by apply plain_map.
Qed.

End Exits.

(** No park and no transition counts as one of the marks of a repository's steps. *)
Lemma egress_alone w : leaves_alone w egress.
Proof.
  split; [|intros; by apply silent_map|intros; by apply silent_map].
  intros e. unfold plain. destruct e; try done; by destruct (egress _).
Qed.

Lemma choke_updates l t : In (Choke (Fit (Updated t))) (map Choke l) -> In t (updates l).
Proof.
  intros (e & [= ->] & He)%in_map_iff. unfold updates. apply list_elem_of_In, list_elem_of_omap.
  exists (Fit (Updated t)). split; [by apply list_elem_of_In|done].
Qed.

Lemma deploys_inv e : deploys e = true -> exists t, e = Choke (Fit (Updated t)) /\ State (Status t) = StateDeployed.
Proof.
  destruct e as [e| | | | | | | | | | | | | | | | | | | ]; try done. destruct e as [e| | | | | | | | | | | | ]; try done.
  destruct e as [|t]; try done. cbn. intros H%eqb_to_eq. eauto.
Qed.

(** The exits do not deploy a Task that was read elsewhere. *)
Lemma deploys_alone w :
  (forall fresh, In (mkAttempt (Some fresh) UpdateOk) (w_attempts (mw_world w)) -> State (Status fresh) <> StateDeployed) ->
  leaves_alone w deploys.
Proof.
  intros Hfresh. split; [by intros []| |].
  - intros task reason now mutate Hm e He. destruct (deploys e) eqn:E; [|done]. exfalso.
    apply deploys_inv in E as (t & -> & E). apply choke_updates in He.
    destruct (ParkTask_updates (mw_world w) (mw_metrics w) task reason now mutate) as [Hu|(fresh & t' & Hin & Ht & Hu)];
      rewrite Hu in He; [done|]. destruct He as [->|[]]. apply (Hfresh fresh Hin). rewrite <- E.
    rewrite (outside_state _ _ (trimmed_outside _ _ Ht)). destruct (Hm fresh) as (_ & Hs & _). rewrite <- Hs.
    unfold parkClosure, Park. destruct (negb (IsParkReason reason)); [done|]. destruct (ParkReason (Status (run_mutate mutate fresh)) != "");
      [reflexivity|]. cbn. by destruct (StateEnteredAt _).
  - intros task mrs to reason now mutate eo Hm Hto e He. destruct (deploys e) eqn:E; [|done]. exfalso.
    apply deploys_inv in E as (t & -> & E). apply choke_updates in He.
    destruct (enterStage_updates (mw_world w) (mw_metrics w) task mrs to reason "" now mutate eo)
      as [Hu|(fresh & t' & Hin & Ht & Hu)]; unfold EnterStage in He; rewrite Hu in He; [done|].
    destruct He as [->|[]]. apply (Hfresh fresh Hin). rewrite <- E.
    rewrite (outside_state _ _ (trimmed_outside _ _ Ht)) in *.
    pose proof (enterClosure_spec mrs to reason "" now mutate eo fresh Hm) as Hc.
    destruct (enterClosure mrs to reason "" now mutate eo fresh) as [t1 [err|]]; cbn [fst] in *.
    + destruct Hc as [_ [Hs|[? _]]]; congruence.
    + pose proof (en_state _ _ _ _ _ _ _ _ Hc). congruence.
Qed.

(** ** Lemmas on the loop *)

Lemma bind_effects {A B} (m : Run A) (k : A -> Run B) :
  run_effects (bind m k) = match m with Next es a => (es ++ run_effects (k a))%list | Exit r => p_effects r end.
Proof. destruct m as [es a|r]; [|done]. cbn. by destruct (k a). Qed.

Lemma bind_next {A B} (m : Run A) (k : A -> Run B) es b : bind m k = Next es b ->
  exists es1 a es2, m = Next es1 a /\ k a = Next es2 b /\ es = (es1 ++ es2)%list.
Proof.
  destruct m as [es1 a|r]; [|done]. cbn. destruct (k a) as [es2 b'|r] eqn:E; [|done].
  intros [= <- <-]. eauto 6.
Qed.

Lemma silent_filter f es : silent f es -> List.filter f es = [].
Proof.
  induction es as [|e es IH]; intros Hs; [done|]. cbn. rewrite (Hs e (or_introl eq_refl)).
  apply IH. intros x Hx. apply Hs. by right.
Qed.

(** A kind of effect that neither an exit nor the read of a release is. *)
Definition marked (f : CorridorEffect -> bool) : Prop :=
  (forall e, f e = true -> egress e = true) /\ (forall o n sha, f (ReadRelease o n sha) = false).

Lemma quiet_silent f es : marked f -> quiet es -> silent f es.
Proof.
  intros [Hf _] Hq e He. destruct (f e) eqn:E; [|done]. apply Hf in E. by rewrite (Hq e He) in E.
Qed.

Lemma marked_merge : marked is_merge.
Proof. split; [by intros []|done]. Qed.

Lemma marked_unexpected : marked is_unexpected.
Proof. split; [by intros []|done]. Qed.

Lemma mrForRepo_spec mrs repo k mr : mrForRepo mrs repo = Some (k, mr) ->
  mrs !! k = Some mr /\ mrs_RepositoryRef (mr_Spec mr) = repo /\ mr_State (mr_Status mr) <> "closed".
Proof.
  revert k. induction mrs as [|m l IH]; intros k; [done|]. cbn [mrForRepo].
  destruct (_ && _) eqn:E.
  - intros [= <- <-]. apply andb_true_iff in E as [E1%eqb_to_eq E2%neqb_to_neq]. done.
  - destruct (mrForRepo l repo) as [[k' m']|]; [|done]. intros [= <- <-]. by apply IH.
Qed.

Lemma evolved_refl m : evolved m m.
Proof. unfold evolved. auto. Qed.

Lemma evolved_trans a b c : evolved a b -> evolved b c -> evolved a c.
Proof.
  intros (N1 & S1 & H1) (N2 & S2 & H2). split; [congruence|]. split; [congruence|].
  destruct H2 as [E2|[H2 N]].
  - destruct H1 as [E1|[H1 N']]; [left; congruence|right; rewrite E2; auto].
  - right. split; [done|]. destruct H1 as [E1|[_ N']]; [congruence|done].
Qed.

Lemma evolved_closed m0 m : evolved m0 m -> (mr_State (mr_Status m) == "closed") = (mr_State (mr_Status m0) == "closed").
Proof.
  intros (_ & _ & [->|[-> N]]); [done|]. symmetry. by apply str_neq_eqb.
Qed.

Lemma evolved_refl_list l : Forall2 evolved l l.
Proof. induction l; constructor; auto using evolved_refl. Qed.

Lemma evolved_trans_list a b c : Forall2 evolved a b -> Forall2 evolved b c -> Forall2 evolved a c.
Proof.
  intros H. revert c. induction H as [|x y l l' Hxy _ IH]; intros c Hc; [by inversion Hc|].
  inversion Hc as [|? z ? l'' Hyz Hl]; subst. constructor; [by eapply evolved_trans|by apply IH].
Qed.

Lemma evolved_insert mrs k mr mr' : mrs !! k = Some mr -> evolved mr mr' -> Forall2 evolved mrs (<[k := mr']> mrs).
Proof.
  revert k. induction mrs as [|m l IH]; intros [|k] Hk He; try done; cbn in *.
  - injection Hk as ->. constructor; [done|apply evolved_refl_list].
  - constructor; [apply evolved_refl|by apply IH].
Qed.

(** The merge request of a repository keeps its place. *)
Lemma evolved_find mrs mrs' repo : Forall2 evolved mrs mrs' ->
  match mrForRepo mrs repo with
  | None => mrForRepo mrs' repo = None
  | Some (k, mr) => exists mr', mrForRepo mrs' repo = Some (k, mr') /\ evolved mr mr'
  end.
Proof.
  induction 1 as [|m m' l l' Hm _ IH]; [done|]. cbn [mrForRepo].
  rewrite (evolved_closed _ _ Hm), (proj1 (proj2 Hm)). destruct (_ && _); [eauto|].
  destruct (mrForRepo l repo) as [[k mr]|]; [|by rewrite IH].
  destruct IH as (mr' & -> & He). cbn. eauto.
Qed.

Lemma evolved_merged mrs mrs' repo : Forall2 evolved mrs mrs' -> repo_merged mrs repo -> repo_merged mrs' repo.
Proof.
  intros H (k & mr & Hf & Hm). pose proof (evolved_find mrs mrs' repo H) as E. rewrite Hf in E.
  destruct E as (mr' & Hf' & (_ & _ & [Es|[Es _]])); exists k, mr'; split; try done. congruence.
Qed.

Section Loop.

#[local] Set Default Proof Using "All".

Context (Quote toLower : string -> string) (parse : string -> option string).
Context (w : MergeWorld) (proj : Project) (now : Time).

Lemma stamp_spec task fw mr sha :
  quiet (run_effects (stampMerged now task fw mr sha))
  /\ forall es mr', stampMerged now task fw mr sha = Next es mr' -> mr' = merged_copy sha mr.
Proof.
  split; [apply (alone_stamp w), egress_alone|]. unfold stampMerged.
  destruct (fit_mr _ _) as [[e|] es]; [done|]. by intros es' mr' [= _ <-].
Qed.

Lemma merged_copy_spec sha mr : mr_State (mr_Status mr) <> "closed" ->
  evolved mr (merged_copy sha mr) /\ mr_State (mr_Status (merged_copy sha mr)) = "merged".
Proof.
  intros Hc.
  assert (mr_State (mr_Status (merged_copy sha mr)) = "merged") as E by (cbn; by destruct (_ && _)).
  split; [|done]. split; [done|]. split; [done|]. by right.
Qed.

Lemma release_silent f rl repo provider sha : marked f -> silent f (snd (releaseGreen parse rl repo provider sha)).
Proof.
  intros [_ Hf]. unfold releaseGreen. destruct (_ || _); [by intros e []|]. destruct (negb _); [by intros e []|].
  destruct (ghOwnerRepo _) as [[o n]|]; [|by intros e []].
  destruct (if provider == "gitlab" then _ else _) as [o' n']. cbn.
  destruct (rl_status rl); intros e [<-|[]]; apply Hf.
Qed.

(** After the merge there is no other, and what goes on is stamped. *)
Lemma after_merge_spec task rw repo provider mr i cursor sha :
  let r := after_merge parse w proj now task rw repo provider mr i cursor sha in
  (forall f, marked f -> silent f (run_effects r))
  /\ forall es c mr', r = Next es (c, mr') -> c = i + 1 /\ mr' = merged_copy sha mr.
Proof.
  cbn zeta. unfold after_merge. destruct (stamp_spec task (rw_stamp rw) mr sha) as [Hq Hs].
  destruct (stampMerged now task (rw_stamp rw) mr sha) as [es1 mr1|r1]; cbn [bind];
    [|split; [|done]; intros f Hf; by apply quiet_silent].
  specialize (Hs _ _ eq_refl) as ->. cbn [run_effects] in Hq.
  set (es2 := if brainstormResumeKind _ then _ else _).
  assert (quiet es2) as Hq2 by (unfold es2; destruct (brainstormResumeKind _); [apply (alone_movement w), egress_alone|apply silent_nil]).
  cbn [emit bind]. pose proof (fun f Hf => release_silent f (rw_release rw) repo provider sha Hf) as Hr.
  destruct (releaseGreen parse (rw_release rw) repo provider sha) as [green es3]. cbn [snd] in Hr.
  split.
  - intros f Hf. assert (silent f es1 /\ silent f es2 /\ silent f es3) as (H1 & H2 & H3).
    { split; [by apply quiet_silent|]. split; [by apply quiet_silent|]. by apply Hr. }
    destruct green as [[|]|e]; cbn [run_effects p_effects pass_after];
      (apply silent_app; [done|]); (apply silent_app; [done|]); [done| |done].
    apply silent_app; [done|]. apply quiet_silent; [done|]. apply alone_stall, egress_alone.
  - destruct green as [[|]|e]; [|done|done]. by intros es c mr' [= _ <- <-].
Qed.

Lemma suppressed_spec rw st : ciRedSuppressed rw st = true ->
  prs_CIStatus st = "failure" /\ rw_redState rw = Some MergeStateUnstable /\ rw_lister rw = Some (Some true).
Proof.
  unfold ciRedSuppressed. rewrite andb_true_iff, eqb_to_eq. intros [Hf H]. destruct (rw_redState rw) as [ms|]; [|done].
  revert H. unfold CIRedSuppressed. destruct (String.eqb_spec ms MergeStateUnstable) as [->|]; [|done]. cbn.
  destruct (rw_lister rw) as [[b|]|]; cbn; try done. by intros ->.
Qed.

Lemma quiet_at_most {A} P (r : Run A) : quiet (run_effects r) -> at_most P r.
Proof.
  intros Hr. split; [by apply quiet_silent, Hr; apply marked_unexpected|].
  left. by apply quiet_silent, Hr; apply marked_merge.
Qed.

Lemma exit_sound {A} P (post : A -> Prop) r : quiet (p_effects r) -> sound P post (Exit r).
Proof. intros Hr. split; [by apply quiet_at_most|done]. Qed.

Lemma next_sound {A} P (post : A -> Prop) es a : quiet es -> post a -> sound P post (Next es a).
Proof. intros Hr Ha. split; [by apply quiet_at_most|]. by intros es' a' [= <- <-]. Qed.

(** A quiet stretch before a sound one. *)
Lemma bind_sound {A B} P (post : B -> Prop) (m : Run A) (k : A -> Run B) :
  quiet (run_effects m) -> (forall es a, m = Next es a -> sound P post (k a)) -> sound P post (bind m k).
Proof.
  intros Hq Hk. destruct m as [es a|r]; [|by apply exit_sound]. specialize (Hk es a eq_refl). cbn in Hq.
  destruct Hk as [[Hu Hm] Hp]. assert (silent is_unexpected es /\ silent is_merge es) as [Q1 Q2]
    by (split; apply quiet_silent; auto using marked_merge, marked_unexpected).
  assert (run_effects (bind (Next es a) k) = (es ++ run_effects (k a))%list) as E
    by exact (bind_effects (Next es a) k).
  split; [split; rewrite E|].
  - by apply silent_app.
  - destruct Hm as [Hm|(e & He & HP)]; [left; by apply silent_app|]. right. exists e. split; [|done].
    by rewrite List.filter_app, (silent_filter is_merge es), He.
  - intros es' b H. apply bind_next in H as (? & ? & ? & [= <- <-] & H & _). by eapply Hp.
Qed.

(** A sound stretch before a last one without effects. *)
Lemma sound_bind {A B} P (post : A -> Prop) (post' : B -> Prop) (m : Run A) (k : A -> Run B) :
  sound P post m -> (forall a, exists b, k a = Next [] b /\ (post a -> post' b)) -> sound P post' (bind m k).
Proof.
  intros [Ham Hp] Hk. assert (run_effects (bind m k) = run_effects m) as E.
  { rewrite bind_effects. destruct m as [es a|]; [|done]. destruct (Hk a) as (b & -> & _). apply app_nil_r. }
  split; [unfold at_most in *; by rewrite E|]. intros es b H.
  apply bind_next in H as (? & a & ? & Hm & Hka & _). destruct (Hk a) as (b' & Hk' & Hb).
  rewrite Hk' in Hka. injection Hka as <- <-. apply Hb. by eapply Hp.
Qed.

Lemma need_sound {A B} P (post : B -> Prop) task e (what : option A) (k : A -> Run B) :
  (forall a, what = Some a -> sound P post (k a)) -> sound P post (bind (need task e what) k).
Proof.
  intros H. apply bind_sound; [destruct what; apply silent_nil|]. intros es a Hn.
  destruct what as [a'|]; [|done]. injection Hn as <- <-. by apply H.
Qed.

Lemma emit_sound {B} P (post : B -> Prop) es (k : () -> Run B) :
  quiet es -> sound P post (k ()) -> sound P post (bind (emit es) k).
Proof. intros Hq H. apply bind_sound; [done|]. by intros es' [] [= <-]. Qed.

Lemma merge_now_spec task rw repo provider mr i cursor liveHead :
  let r := merge_now parse w proj now task rw repo provider mr i cursor liveHead in
  silent is_unexpected (run_effects r)
  /\ List.filter is_merge (run_effects r) = [Merge (repo_URL repo) (mrs_Number (mr_Spec mr)) "squash" liveHead]
  /\ forall es c mr', r = Next es (c, mr') -> c = i + 1 /\ exists sha, mr' = merged_copy sha mr.
Proof.
  cbn zeta. unfold merge_now. set (e := Merge _ _ _ _).
  set (k := match rw_merge rw with Merged _ => _ | _ => _ end).
  assert ((forall f, marked f -> silent f (run_effects k))
          /\ forall es c mr', k = Next es (c, mr') -> c = i + 1 /\ exists sha, mr' = merged_copy sha mr) as [Hk Hn].
  { unfold k. destruct (rw_merge rw) as [sha| | | |].
    - destruct (after_merge_spec task rw repo provider mr i cursor sha) as [H1 H2]. split; [done|].
      intros es c mr' [-> ->]%H2. eauto.
    - split; [|done]. intros f Hf. apply quiet_silent; [done|]. apply alone_head_moved, egress_alone.
    - split; [|done]. intros f Hf. apply quiet_silent; [done|]. apply alone_stall, egress_alone.
    - split; [|done]. intros f Hf. apply quiet_silent; [done|]. apply alone_park, egress_alone.
    - split; [|done]. by intros f Hf e' []. }
  rewrite bind_effects. cbn [emit app]. split; [|split].
  - intros x [<-|Hx]; [done|]. by apply (Hk _ marked_unexpected).
  - cbn. f_equal. apply silent_filter, Hk, marked_merge.
  - intros es c mr' H. apply bind_next in H as (? & ? & ? & [= <- <-] & H & _). by eapply Hn.
Qed.

Lemma gate_merge_spec task rw repo provider mrs mr i cursor liveHead st :
  sound (fun e => e = Merge (repo_URL repo) (mrs_Number (mr_Spec mr)) "squash" liveHead /\ ci_lets rw st /\ state_lets rw)
    (fun cm => fst cm = i + 1 /\ exists sha, snd cm = merged_copy sha mr)
    (gate_merge Quote parse w proj now task rw repo provider mrs mr i cursor liveHead st).
Proof.
  unfold gate_merge.
  destruct (_ && negb (ciRedSuppressed rw st)) eqn:E1; [apply exit_sound, alone_ci_red, egress_alone|].
  destruct (_ || negb (mergePolicyAllows _ _ _)) eqn:E2; [apply exit_sound, alone_stall, egress_alone|].
  assert (ci_lets rw st) as Hci.
  { apply orb_false_iff in E2 as [E2 _]. destruct (ciRedSuppressed rw st) eqn:Es; [right; by apply suppressed_spec|].
    left. apply andb_false_iff in E2 as [E2|E2]; [by apply neqb_false in E2|done]. }
  destruct (merge_now_spec task rw repo provider mr i cursor liveHead) as (Hu & Hm & Hn).
  assert (state_lets rw -> sound (fun e => e = Merge (repo_URL repo) (mrs_Number (mr_Spec mr)) "squash" liveHead
            /\ ci_lets rw st /\ state_lets rw) (fun cm => fst cm = i + 1 /\ exists sha, snd cm = merged_copy sha mr)
            (merge_now parse w proj now task rw repo provider mr i cursor liveHead)) as Hgo.
  { intros Hs. split; [split; [done|right; eauto]|]. intros es [c mr'] H. by eapply Hn. }
  destruct (rw_mergeState rw) as [ms|] eqn:Ems.
  - destruct (_ && (mr_Ownership _ == OwnershipTatara)); [apply exit_sound, alone_conflict, egress_alone|].
    destruct ((ms == MergeStateDirty) || (ms == MergeStateBlocked)) eqn:E4; [apply exit_sound, alone_stall, egress_alone|]. apply Hgo.
    apply orb_false_iff in E4 as [Hd%String.eqb_neq Hb%String.eqb_neq]. unfold state_lets. rewrite Ems. split; congruence.
  - apply Hgo. unfold state_lets. rewrite Ems. done.
Qed.

Lemma label_run_spec task rw repo mr :
  let r := project_label toLower parse proj task rw repo mr in
  (forall f, leaves_alone w f -> silent f (run_effects r))
  /\ forall es mr', r = Next es mr' -> mr_Name mr' = mr_Name mr /\ mr_Spec mr' = mr_Spec mr /\ mr_Status mr' = mr_Status mr.
Proof.
  cbn zeta. unfold project_label.
  pose proof (fun f Hf => alone_label toLower parse w proj f Hf (rw_label rw) repo mr) as Hq.
  pose proof (label_keeps toLower parse (rw_label rw) proj repo mr) as Hk. cbn zeta in Hk.
  destruct (ProjectSemverLabel _ _ _ _ _ _) as [[[e|] copy] es]; (split; [done|]); [done|].
  intros es' mr' [= _ <-]. exact Hk.
Qed.

Lemma evolved_same mr mr' : mr_Name mr' = mr_Name mr -> mr_Spec mr' = mr_Spec mr -> mr_Status mr' = mr_Status mr ->
  evolved mr mr'.
Proof. unfold evolved. auto. Qed.

(** What a turn leaves when it goes on. *)
Lemma landed_turn mrs repoRef k mr mr' mr'' : mrForRepo mrs repoRef = Some (k, mr) -> evolved mr mr' ->
  evolved mr' mr'' -> mr_State (mr_Status mr'') = "merged" ->
  Forall2 evolved mrs (<[k := mr'']> (<[k := mr']> mrs)) /\ repo_merged (<[k := mr'']> (<[k := mr']> mrs)) repoRef.
Proof.
  intros Hf He He' Hm. rewrite list_insert_insert_eq. destruct (mrForRepo_spec _ _ _ _ Hf) as (Hk & _ & _).
  assert (Forall2 evolved mrs (<[k := mr'']> mrs)) as HF
    by (eapply evolved_insert; [done|by eapply evolved_trans]).
  split; [done|]. pose proof (evolved_find _ _ repoRef HF) as E. rewrite Hf in E.
  destruct E as (x & Hx & _). exists k, mr''. rewrite Hx. destruct (mrForRepo_spec _ _ _ _ Hx) as (Hk' & _ & _).
  rewrite list_lookup_insert_eq in Hk' by (by eapply lookup_lt_Some). injection Hk' as <-. done.
Qed.

Lemma visit_spec task provider repoRef i cursor mrs :
  sound (fun e => exists k mr, mrForRepo mrs repoRef = Some (k, mr) /\ merge_ok (mw_repo w i) repoRef mr e)
    (fun cm => fst cm = i + 1 /\ Forall2 evolved mrs (snd cm) /\ repo_merged (snd cm) repoRef)
    (visit Quote toLower parse w proj now task provider repoRef i cursor mrs).
Proof.
  unfold visit. set (rw := mw_repo w i). destruct (mrForRepo mrs repoRef) as [[k mr]|] eqn:Hf.
  2: { apply exit_sound. apply silent_after; [by apply silent_cons, silent_nil|apply alone_park, egress_alone]. }
  destruct (mrForRepo_spec _ _ _ _ Hf) as (_ & Hrepo & Hopen).
  destruct (mr_State (mr_Status mr) == "merged") eqn:Em.
  { apply eqb_to_eq in Em. apply next_sound; [apply silent_nil|]. cbn.
    split; [done|]. split; [apply evolved_refl_list|]. by exists k, mr. }
  apply String.eqb_neq in Em. destruct (mergeAllowedForOwnership mr) eqn:Eo; [|apply exit_sound, silent_nil]. cbn [negb].
  apply need_sound. intros repo Hr. destruct (label_run_spec task rw repo mr) as [Hq Hl].
  apply bind_sound; [apply Hq, egress_alone|]. intros es mr' (HN & HS & Hst)%Hl. pose proof (evolved_same _ _ HN HS Hst) as He.
  apply emit_sound; [destruct (_ == ""); [by apply silent_cons, silent_nil|apply silent_nil]|].
  apply need_sound. intros liveHead Hh. destruct (liveHead != _) eqn:Ehead; [apply exit_sound, alone_head_moved, egress_alone|].
  apply neqb_false in Ehead as ->. apply need_sound. intros st Hstate. destruct (prs_Merged st) eqn:Emst.
  - apply emit_sound.
    { unfold RecordUnexpectedMerge, UnexpectedMerge. rewrite Hst, (str_neq_eqb _ _ Em). apply silent_nil. }
    destruct (stamp_spec task (rw_stamp rw) mr' "") as [Hqs Hs]. apply bind_sound; [done|].
    intros es' mr'' ->%Hs. apply next_sound; [apply silent_nil|]. cbn [fst snd].
    destruct (merged_copy_spec "" mr') as [Hc1 Hc2]; [by rewrite Hst|]. split; [done|]. by eapply landed_turn.
  - pose proof (gate_merge_spec task rw repo provider (<[k:=mr']> mrs) mr' i cursor
                  (mr_ReviewedSHA (mr_Status mr')) st) as Hg.
    eapply (sound_bind _ (fun cm => fst cm = i + 1 /\ exists sha, snd cm = merged_copy sha mr'));
      [|intros [c m]; eexists; split; [reflexivity|]; cbn [fst snd]; intros [-> [sha ->]]].
    { destruct Hg as [[Hu Hm] Hp]. split; [split; [exact Hu|]|exact Hp].
      destruct Hm as [Hm|(e & Hm & -> & Hci & Hms)]; [by left|]. right. eexists. split; [exact Hm|].
      exists k, mr. split; [done|]. exists repo, st. rewrite HS, Hst in *. destruct Hms. tauto. }
    destruct (merged_copy_spec sha mr') as [Hc1 Hc2]; [by rewrite Hst|]. split; [done|]. by eapply landed_turn.
Qed.

(** What leaves the exits alone, and is no mark of a repository's steps, is in no turn. *)
Lemma bind_silent {A B} f (m : Run A) (k : A -> Run B) :
  silent f (run_effects m) -> (forall es a, m = Next es a -> silent f (run_effects (k a))) ->
  silent f (run_effects (bind m k)).
Proof.
  intros Hm Hk. rewrite bind_effects. destruct m as [es a|r]; [|done]. apply silent_app; [done|]. by eapply Hk.
Qed.

Lemma need_silent {A} f task e (what : option A) : silent f (run_effects (need task e what)).
Proof. destruct what; apply silent_nil. Qed.

Lemma after_merge_silent f task rw repo provider mr i cursor sha :
  leaves_alone w f -> (forall e, egress e = true -> f e = false) ->
  silent f (run_effects (after_merge parse w proj now task rw repo provider mr i cursor sha)).
Proof.
  intros Hf Hm. unfold after_merge. apply bind_silent; [by apply (alone_stamp w)|]. intros _ mr' _.
  apply bind_silent.
  { unfold emit. cbn [run_effects]. destruct (brainstormResumeKind (Kind (Spec task))); [by apply (alone_movement w)|apply silent_nil]. }
  intros _ _ _. assert (silent f (snd (releaseGreen parse (rw_release rw) repo provider sha))) as Hr.
  { unfold releaseGreen. destruct (_ || _); [apply silent_nil|]. destruct (negb _); [apply silent_nil|].
    destruct (ghOwnerRepo _) as [[o n]|]; [|apply silent_nil].
    destruct (if provider == "gitlab" then _ else _) as [o' n']. cbn.
    destruct (rl_status _); by apply silent_cons, silent_nil; apply Hm. }
  destruct (releaseGreen _ _ _ _ _) as [[[|]|] es]; try exact Hr.
  apply silent_app; [done|]. by apply alone_stall.
Qed.

Lemma gate_merge_silent f task rw repo provider mrs mr i cursor liveHead st :
  leaves_alone w f -> (forall e, egress e = true -> f e = false) ->
  silent f (run_effects (gate_merge Quote parse w proj now task rw repo provider mrs mr i cursor liveHead st)).
Proof.
  intros Hf Hm. unfold gate_merge. destruct (_ && negb (ciRedSuppressed rw st)); [by apply alone_ci_red|].
  destruct (_ || negb (mergePolicyAllows _ _ _)); [by apply alone_stall|].
  assert (silent f (run_effects (merge_now parse w proj now task rw repo provider mr i cursor liveHead))) as Hn.
  { unfold merge_now. apply bind_silent; [by apply silent_cons, silent_nil; apply Hm|]. intros _ _ _.
    destruct (rw_merge rw); [by apply after_merge_silent|by apply alone_head_moved|by apply alone_stall
                            |by apply alone_park|apply silent_nil]. }
  destruct (rw_mergeState rw) as [ms|]; [|done].
  destruct (_ && (mr_Ownership _ == OwnershipTatara)); [by apply alone_conflict|].
  destruct ((ms == MergeStateDirty) || (ms == MergeStateBlocked)); [by apply alone_stall|done].
Qed.

Lemma visit_silent f task provider repoRef i cursor mrs :
  leaves_alone w f -> (forall e, egress e = true -> f e = false) ->
  silent f (run_effects (visit Quote toLower parse w proj now task provider repoRef i cursor mrs)).
Proof.
  intros Hf Hm. unfold visit. destruct (mrForRepo mrs repoRef) as [[k mr]|].
  2: { apply silent_after; [by apply silent_cons, silent_nil; apply (la_plain _ _ Hf)|by apply alone_park]. }
  destruct (mr_State _ == "merged"); [apply silent_nil|]. destruct (mergeAllowedForOwnership mr); [|apply silent_nil].
  apply bind_silent; [apply need_silent|]. intros _ repo _.
  apply bind_silent; [by apply label_run_spec|]. intros _ mr' _.
  apply bind_silent; [cbn; destruct (mr_Significance (mr_Status mr') == ""); [|apply silent_nil]|].
  { apply silent_cons, silent_nil. by apply (la_plain _ _ Hf). }
  intros _ _ _. apply bind_silent; [apply need_silent|]. intros _ liveHead _.
  destruct (liveHead != _); [by apply alone_head_moved|]. apply bind_silent; [apply need_silent|]. intros _ st _.
  destruct (prs_Merged st).
  - apply bind_silent; [cbn; unfold RecordUnexpectedMerge; destruct (UnexpectedMerge _ _); [|apply silent_nil]|].
    { by apply silent_cons, silent_nil; apply Hm. }
    intros _ _ _. apply bind_silent; [by apply (alone_stamp w)|]. intros _ m _. apply silent_nil.
  - apply bind_silent; [by apply gate_merge_silent|]. intros _ [c m] _. apply silent_nil.
Qed.

Lemma loop_silent f task provider order : leaves_alone w f -> (forall e, egress e = true -> f e = false) ->
  forall i cursor mrs,
  silent f (run_effects (merge_loop Quote toLower parse w proj now task provider order i cursor mrs)).
Proof.
  intros Hf Hm. induction order as [|repo rest IH]; intros i cursor mrs; [apply silent_nil|].
  apply bind_silent; [by apply visit_silent|]. intros _ [c m] _. apply IH.
Qed.

Lemma mrForRepo_evolved mrs mrs' repo k mr : Forall2 evolved mrs mrs' -> mrForRepo mrs' repo = Some (k, mr) ->
  mr_State (mr_Status mr) <> "merged" ->
  exists mr0, mrForRepo mrs repo = Some (k, mr0) /\ mr_Name mr = mr_Name mr0 /\ mr_Spec mr = mr_Spec mr0
    /\ mr_Status mr = mr_Status mr0.
Proof.
  intros HF Hf Hm. pose proof (evolved_find _ _ repo HF) as E. destruct (mrForRepo mrs repo) as [[k0 mr0]|]; [|congruence].
  destruct E as (mr' & Hf' & HN & HS & Hst). rewrite Hf in Hf'. injection Hf' as -> ->. exists mr0.
  split; [done|]. split; [done|]. split; [done|]. destruct Hst as [?|[? _]]; done.
Qed.


Lemma merge_ok_same rw repo mr mr0 e : mr_Spec mr = mr_Spec mr0 -> mr_Status mr = mr_Status mr0 ->
  merge_ok rw repo mr e -> merge_ok rw repo mr0 e.
Proof. intros HS Hst. unfold merge_ok, mergeAllowedForOwnership. by rewrite HS, Hst. Qed.

(** A merge of what follows the first place is one of the whole. *)
Lemma merge_at_later i repo rest mrs mrs1 p e : Forall2 evolved mrs mrs1 -> repo_merged mrs1 repo ->
  merge_at w (i + 1) rest mrs1 p e -> merge_at w i (repo :: rest) mrs p e.
Proof.
  intros HF Hm (Hp & r & k & mr & mrs2 & Ho & Hfind & Hok & HF2 & Hall). split; [lia|].
  assert (mr_State (mr_Status mr) <> "merged") as Hne by (destruct Hok as (? & ? & _ & _ & H & _); exact H).
  destruct (mrForRepo_evolved _ _ _ _ _ HF Hfind Hne) as (mr0 & H0 & _ & HS & Hst).
  replace (Z.to_nat (p - i)) with (S (Z.to_nat (p - (i + 1)))) by lia.
  exists r, k, mr0, mrs2. split; [done|]. split; [done|]. split; [by eapply merge_ok_same|].
  split; [by eapply evolved_trans_list|]. constructor; [by eapply evolved_merged|done].
Qed.

Lemma merge_at_first i repo rest mrs e :
  (exists k mr, mrForRepo mrs repo = Some (k, mr) /\ merge_ok (mw_repo w i) repo mr e) ->
  merge_at w i (repo :: rest) mrs i e.
Proof.
  intros (k & mr & Hf & Hok). split; [lia|]. rewrite Z.sub_diag. exists repo, k, mr, mrs.
  repeat (split; [done|]). split; [apply evolved_refl_list|constructor].
Qed.

(** The merges of a first turn, and of what follows. *)
Lemma places_cons i repo rest mrs mrs1 es1 es2 places :
  Forall2 evolved mrs mrs1 -> repo_merged mrs1 repo ->
  (silent is_merge es1 \/ exists e, List.filter is_merge es1 = [e] /\ merge_at w i (repo :: rest) mrs i e) ->
  StronglySorted Z.lt places -> Forall2 (merge_at w (i + 1) rest mrs1) places (List.filter is_merge es2) ->
  exists places', StronglySorted Z.lt places'
    /\ Forall2 (merge_at w i (repo :: rest) mrs) places' (List.filter is_merge (es1 ++ es2)).
Proof.
  intros HF Hm H1 Hs H2. rewrite List.filter_app.
  assert (Forall2 (merge_at w i (repo :: rest) mrs) places (List.filter is_merge es2)) as H2'
    by (eapply Forall2_impl; [exact H2|]; intros p e; by apply merge_at_later).
  destruct H1 as [H1|(e & H1 & Hat)].
  - rewrite (silent_filter _ _ H1). by exists places.
  - rewrite H1. exists (i :: places). split; [|by constructor]. constructor; [done|].
    clear -H2. induction H2 as [|p x ps xs [Hp _] _ IH]; constructor; [lia|done].
Qed.

(** The loop: where it merges, what was merged before, and what it leaves. *)
Lemma loop_spec task provider order : forall i cursor mrs,
  let r := merge_loop Quote toLower parse w proj now task provider order i cursor mrs in
  silent is_unexpected (run_effects r)
  /\ (exists places, StronglySorted Z.lt places
        /\ Forall2 (merge_at w i order mrs) places (List.filter is_merge (run_effects r)))
  /\ forall es c mrs', r = Next es (c, mrs') ->
       c = (match order with [] => cursor | _ => i + Z.of_nat (List.length order) end)
       /\ Forall2 evolved mrs mrs' /\ Forall (repo_merged mrs') order.
Proof.
  induction order as [|repo rest IH]; intros i cursor mrs; cbn zeta.
  { split; [apply silent_nil|]. split; [exists []; repeat constructor|]. intros es c mrs' [= <- <- <-].
    split; [done|]. split; [apply evolved_refl_list|constructor]. }
  cbn [merge_loop]. destruct (visit_spec task provider repo i cursor mrs) as [[Hu Hm] Hp].
  assert (silent is_merge (run_effects (visit Quote toLower parse w proj now task provider repo i cursor mrs))
          \/ exists e, List.filter is_merge (run_effects (visit Quote toLower parse w proj now task provider repo i cursor mrs)) = [e]
               /\ merge_at w i (repo :: rest) mrs i e) as Hm'
    by (destruct Hm as [Hm|(e & Hm & He)]; [by left|right; exists e; split; [done|by apply merge_at_first]]).
  clear Hm. rewrite bind_effects.
  destruct (visit Quote toLower parse w proj now task provider repo i cursor mrs) as [es1 [c1 mrs1]|r1];
    cbn [run_effects] in *.
  - destruct (Hp _ _ eq_refl) as (Hc & HF & Hrm). cbn [fst snd] in *.
    destruct (IH (i + 1) c1 mrs1) as (Hu2 & (places & Hs & H2) & Hn). split; [by apply silent_app|]. split.
    + by apply (places_cons i repo rest mrs mrs1 es1 _ places).
    + intros es c mrs' H. apply bind_next in H as (? & ? & ? & [= <- <-] & H & _). destruct (Hn _ _ _ H) as (-> & HF2 & Hall).
      split; [destruct rest; cbn [List.length] in *; lia|]. split; [by eapply evolved_trans_list|].
      constructor; [by eapply evolved_merged|done].
  - split; [done|]. split; [|done]. destruct Hm' as [Hm|(e & Hm & He)].
    + rewrite (silent_filter _ _ Hm). exists []. repeat constructor.
    + rewrite Hm. exists [i]. split; [by repeat constructor|]. constructor; [exact He|constructor].
Qed.

End Loop.

(** ** Where a pass ends *)

(** A pass without an error polls again in a minute with the stall of its repository on
    the gauge, or has left and cleared it, the refused credential apart. *)
Definition settles (w : MergeWorld) (r : PassResult) : Prop :=
  p_err r = None ->
  (p_requeue r = mergeRequeue /\ exists repo s, In (SetStalled repo s) (p_effects r))
  \/ (p_requeue r = 0 /\ (In ClearStalled (p_effects r) \/ exists i, rw_merge (mw_repo w i) = MergeAuthFailed)).

Lemma settles_pass_after w es r : settles w r -> settles w (pass_after es r).
Proof.
  intros H He. destruct (H He) as [[Hr (repo & s & Hin)]|[Hr [Hin|Ha]]]; cbn.
  - left. split; [done|]. exists repo, s. apply in_app_iff. by right.
  - right. split; [done|]. left. apply in_app_iff. by right.
  - right. auto.
Qed.

Lemma settles_fails {A} w task e r : @fails A task e = Exit r -> settles w r.
Proof. by intros [= <-]. Qed.

Lemma settles_step w s : (st_err s = None -> In ClearStalled (st_effects s)) -> settles w (of_step s).
Proof. intros H He. right. split; [done|]. left. by apply H. Qed.

Lemma settles_stall w now task repo cursor : settles w (stallMerge w now task repo cursor).
Proof.
  unfold stallMerge. intros He. left. split; [|by exists repo, (StateElapsedSeconds task now); left].
  destruct (cursor =? _); [done|]. cbn in *. by destruct (st_err _).
Qed.

Lemma bind_exit {A B} w (m : Run A) (k : A -> Run B) r :
  (forall r', m = Exit r' -> settles w r') -> (forall es a r', m = Next es a -> k a = Exit r' -> settles w r') ->
  bind m k = Exit r -> settles w r.
Proof.
  intros Hm Hk. destruct m as [es a|r']; [|intros [= <-]; by apply Hm]. cbn.
  destruct (k a) as [es' b|r'] eqn:E; [done|]. intros [= <-]. apply settles_pass_after. by eapply Hk.
Qed.

Lemma then_ends e s k : (forall t, In e (st_effects (k t))) -> st_err (step_then s k) = None ->
  In e (st_effects (step_then s k)).
Proof.
  intros Hk. unfold step_then. destruct (st_err s) eqn:E; [congruence|]. intros _.
  apply in_app_iff. right. apply Hk.
Qed.

Lemma ci_red_clears Quote cw m task mrs red now :
  let s := enterCIRed Quote cw m task mrs red now in st_err s = None -> In ClearStalled (st_effects s).
Proof.
  cbn zeta. unfold enterCIRed, enterCIRedWith. destruct (CIRed task mrs MaxCIRedReentries) as [edge t].
  destruct (appendOperatorNoteTo _ _ _) as [[e|] es]; [done|]. intros H. apply in_app_iff. right.
  apply then_ends; [by left|exact H].
Qed.

Section Settles.

Context (Quote toLower : string -> string) (parse : string -> option string).
Context (w : MergeWorld) (proj : Project) (now : Time).

#[local] Set Default Proof Using "All".

Lemma head_moved_settles task mr cursor : settles w (of_step (headMoved w now task mr cursor)).
Proof.
  apply settles_step. intros _. unfold headMoved. destruct (HeadMoved task MaxHeadMoveReentries). by left.
Qed.

Lemma stamp_settles task fw mr sha r : stampMerged now task fw mr sha = Exit r -> settles w r.
Proof. unfold stampMerged. destruct (fit_mr _ _) as [[e|] es]; [|done]. by intros [= <-]. Qed.

Lemma merge_now_settles task i repo provider mr cursor liveHead r :
  merge_now parse w proj now task (mw_repo w i) repo provider mr i cursor liveHead = Exit r -> settles w r.
Proof.
  unfold merge_now. apply bind_exit; [done|]. intros _ _ r1 _. destruct (rw_merge (mw_repo w i)) as [sha| | | |] eqn:Em.
  - unfold after_merge. apply bind_exit; [apply stamp_settles|]. intros _ m r2 _. apply bind_exit; [done|].
    intros _ _ r3 _. destruct (releaseGreen _ _ _ _ _) as [[[|]|e] es]; [done| |by intros [= <-]].
    intros [= <-]. apply settles_pass_after, settles_stall.
  - intros [= <-]. apply head_moved_settles.
  - intros [= <-]. apply settles_stall.
  - intros [= <-] _. right. split; [done|]. right. by exists i.
  - by intros [= <-].
Qed.

Lemma gate_merge_settles task i repo provider mrs mr cursor liveHead st r :
  gate_merge Quote parse w proj now task (mw_repo w i) repo provider mrs mr i cursor liveHead st = Exit r -> settles w r.
Proof.
  unfold gate_merge.
  destruct (_ && negb (ciRedSuppressed _ _)); [intros [= <-]; apply settles_step, ci_red_clears|].
  destruct (_ || negb (mergePolicyAllows _ _ _)); [intros [= <-]; apply settles_stall|].
  destruct (rw_mergeState (mw_repo w i)) as [ms|]; [|apply merge_now_settles].
  destruct (_ && (mr_Ownership _ == OwnershipTatara)).
  { intros [= <-]. apply settles_step. intros _. unfold mergeConflict.
    destruct (MergeConflict task mrs MaxMergeConflictReentries). destruct (appendOperatorNoteTo _ _ _). by left. }
  destruct ((ms == MergeStateDirty) || (ms == MergeStateBlocked)); [intros [= <-]; apply settles_stall|].
  apply merge_now_settles.
Qed.

Lemma visit_settles task provider repoRef i cursor mrs r :
  visit Quote toLower parse w proj now task provider repoRef i cursor mrs = Exit r -> settles w r.
Proof.
  unfold visit. destruct (mrForRepo mrs repoRef) as [[k mr]|].
  2: { intros [= <-]. apply settles_step. by left. }
  destruct (mr_State _ == "merged"); [done|]. destruct (mergeAllowedForOwnership mr); [|by intros [= <-]].
  assert (forall A e (o : option A) r', need task e o = Exit r' -> settles w r') as Hneed.
  { intros A e [a|] r'; [done|]. intros H. injection H as <-. done. }
  apply bind_exit; [apply Hneed|]. intros _ repo r1 _. apply bind_exit.
  { unfold project_label. destruct (ProjectSemverLabel _ _ _ _ _ _) as [[[e|] copy] es]; [|done]. by intros r' [= <-]. }
  intros _ mr' r2 _. apply bind_exit; [done|]. intros _ _ r3 _. apply bind_exit; [apply Hneed|]. intros _ head r4 _.
  destruct (head != _); [intros [= <-]; apply head_moved_settles|]. apply bind_exit; [apply Hneed|]. intros _ st r5 _.
  destruct (prs_Merged st).
  - apply bind_exit; [done|]. intros _ _ r6 _. apply bind_exit; [apply stamp_settles|done].
  - apply bind_exit; [apply gate_merge_settles|]. by intros _ [c m] r6 _.
Qed.

Lemma loop_settles task provider order : forall i cursor mrs r,
  merge_loop Quote toLower parse w proj now task provider order i cursor mrs = Exit r -> settles w r.
Proof.
  induction order as [|repo rest IH]; intros i cursor mrs r; [done|].
  apply bind_exit; [apply visit_settles|]. intros _ [c m] r' _. apply IH.
Qed.

(** A turn at a merged repository asks the outside nothing. *)
Lemma visit_merged task provider repoRef i cursor mrs : repo_merged mrs repoRef ->
  visit Quote toLower parse w proj now task provider repoRef i cursor mrs = Next [] (i + 1, mrs).
Proof. intros (k & mr & Hf & Hm). unfold visit. by rewrite Hf, Hm. Qed.

Lemma loop_merged task provider order : forall i cursor mrs, Forall (repo_merged mrs) order ->
  merge_loop Quote toLower parse w proj now task provider order i cursor mrs
  = Next [] (match order with [] => cursor | _ => i + Z.of_nat (List.length order) end, mrs).
Proof.
  induction order as [|repo rest IH]; intros i cursor mrs Hall; [done|]. inversion Hall; subst.
  cbn [merge_loop]. rewrite visit_merged by done. cbn [bind]. rewrite IH by done. f_equal. f_equal.
  destruct rest; cbn [List.length]; lia.
Qed.

End Settles.

(** ** The corridor *)

(** The last write of a pass. *)
Lemma last_write_quiet w now task to reason mrs cursor :
  quiet (st_effects (enterStageWithCursor w now task to reason mrs cursor)).
Proof.
  unfold enterStageWithCursor. destruct (to == ""); [|by apply silent_map].
  destruct (fit_task _ _ _) as [[e|] es]; by apply silent_map.
Qed.




(** a pass without an error either asks to come back in a minute, having said which
    repository it waits at, or has left the corridor and taken the stall off the gauge;
    only after a refused credential is the gauge left as it was. *)
Theorem a_pass_polls_or_leaves Quote toLower parse w proj now task :
  settles w (ReconcileMerging Quote toLower parse w proj now task).
Proof.
  unfold ReconcileMerging. destruct (_ == "review"); [done|].
  destruct (MergeOrder (Spec task)) as [|r0 order0]; [apply settles_step; by left|].
  destruct (ownedMergeRequests task (mw_list w)) as [mrs|]; [|done].
  destruct (forge (mw_forge w) proj) as [provider|]; [|done].
  destruct (merge_loop _ _ _ _ _ _ _ _ _ _ _ _) as [es [c mrs']|r] eqn:E; [|by eapply loop_settles].
  apply settles_pass_after, settles_step. by left.
Qed.

(** the detector of a merge the operator did not make never fires in the corridor,
    whatever the forge reports: it is asked of a mirror that does not say merged yet. *)
Theorem unexpected_merge_is_never_counted Quote toLower parse w proj now task repo :
  ~ In (CountUnexpectedMerge repo) (p_effects (ReconcileMerging Quote toLower parse w proj now task)).
Proof.
  intros H. assert (silent is_unexpected (p_effects (ReconcileMerging Quote toLower parse w proj now task))) as Hs;
    [|by specialize (Hs _ H)]. clear H. unfold ReconcileMerging. destruct (_ == "review"); [by intros e []|].
  assert (forall es, quiet es -> silent is_unexpected es) as Hq by (intros es; apply quiet_silent, marked_unexpected).
  destruct (MergeOrder (Spec task)) as [|r0 order0].
  { apply Hq, silent_after; [by apply silent_cons, silent_nil|apply alone_park, egress_alone]. }
  destruct (ownedMergeRequests task (mw_list w)) as [mrs|]; [|by intros e []].
  destruct (forge (mw_forge w) proj) as [provider|]; [|by intros e []].
  match goal with |- context [merge_loop _ _ _ _ _ _ _ _ ?o ?i ?c ?l] =>
    destruct (loop_spec Quote toLower parse w proj now task provider o i c l) as (Hu & _) end.
  destruct (merge_loop _ _ _ _ _ _ _ _ _ _ _ _) as [es [c mrs']|r]; [|exact Hu].
  apply silent_app; [exact Hu|]. apply silent_cons; [done|]. apply Hq, last_write_quiet.
Qed.

(** What the detector is for: another place of the order merged ahead of the cursor. *)
Lemma unexpected_merge_out_of_order :
  UnexpectedMerge merging_task (mark_merged cli_mr) = true /\ UnexpectedMerge merging_task cli_mr = false.
Proof. split; reflexivity. Qed.

(** the release job of a merge is asked about once, in the pass that merges.  A pass
    that finds every repository of the order merged goes straight to deployed, with
    nothing asked of the forge, whatever the release jobs would answer. *)
Theorem resume_asks_no_release Quote toLower parse w proj now task mrs provider :
  Kind (Spec task) <> "review" -> MergeOrder (Spec task) <> [] ->
  ownedMergeRequests task (mw_list w) = Some mrs -> forge (mw_forge w) proj = Some provider ->
  Forall (repo_merged mrs) (MergeOrder (Spec task)) ->
  exists c, ReconcileMerging Quote toLower parse w proj now task
    = of_step (step_after [ClearStalled] (enterStageWithCursor w now task StateDeployed "" mrs c)).
Proof.
  intros Hk Ho Hl Hf Hall. unfold ReconcileMerging. rewrite (str_neq_eqb _ _ Hk), Hl, Hf.
  destruct (MergeOrder (Spec task)) as [|r0 order0]; [done|]. rewrite loop_merged by by apply Forall_drop.
  eexists. unfold pass_after, of_step. cbn. reflexivity.
Qed.

(** The first repository is merged, its release job failed and the pass waits; the next
    pass, from the mirror that pass wrote, merges the second one. *)
Lemma resume_asks_no_release_witness :
  let first := sample_pass [operator_mr; cli_mr] "failure" in
  p_requeue first = mergeRequeue
  /\ List.filter is_merge (p_effects first) = [Merge "u/operator" 7 "squash" "sha-a"]
  /\ In (WriteMR (Updated (merged_closure 100 "merge-sha-a" operator_mr))) (p_effects first)
  /\ List.filter is_merge (p_effects (sample_pass [merged_closure 100 "merge-sha-a" operator_mr; cli_mr] "failure"))
     = [Merge "u/cli" 9 "squash" "sha-b"]
  /\ exists c, sample_pass [merged_closure 100 "merge-sha-a" operator_mr; merged_closure 100 "merge-sha-b" cli_mr] "failure"
     = of_step (step_after [ClearStalled] (enterStageWithCursor
         (merge_world [merged_closure 100 "merge-sha-a" operator_mr; merged_closure 100 "merge-sha-b" cli_mr] "failure")
         100 merging_task StateDeployed ""
         [merged_closure 100 "merge-sha-a" operator_mr; merged_closure 100 "merge-sha-b" cli_mr] c)).
Proof.
  split; [vm_compute; reflexivity|]. split; [vm_compute; reflexivity|].
  split; [vm_compute; repeat first [left; reflexivity | right]|]. split; [vm_compute; reflexivity|].
  refine (resume_asks_no_release _ _ _ _ _ _ merging_task _ "github" _ _ _ _ _);
    [discriminate|discriminate|vm_compute; reflexivity|vm_compute; reflexivity|].
  repeat constructor; [exists 0%nat|exists 1%nat]; eexists; (split; [vm_compute; reflexivity|reflexivity]).
Defined.

(** A project nested in a GitLab group has a path and no owner and name: its release
    status is never read, and the pass that has just merged there answers an error. *)
Lemma nested_project_has_no_release parse rl repo sha :
  rl_wired rl = true -> rl_reader rl = true -> sha <> "" -> parse (repo_URL repo) = Some "/group/sub/project.git" ->
  glProjectPath (parse (repo_URL repo)) = Some "group/sub/project"
  /\ releaseGreen parse rl repo "gitlab" sha = (Err (NoSlug (repo_Name repo)), []).
Proof.
  intros H1 H2 H3 H4. unfold releaseGreen. rewrite H1, H2, H4, (str_neq_eqb _ _ H3). split; reflexivity.
Qed.

(** ** Delivery *)

Section Delivered.

Context (toLower : string -> string) (parse : string -> option string).
Context (w : DeliverWorld) (proj : Project) (now : Time).

#[local] Set Default Proof Using "All".

Lemma close_issue_spec task provider cite iss :
  let r := close_issue toLower parse w task provider cite iss in
  silent is_choke (run_effects r)
  /\ forall es, r = Next es () -> iss_State (iss_Status iss) = "open" -> closed_in w iss es.
Proof.
  cbn zeta. unfold close_issue. destruct (iss_State (iss_Status iss) != "open") eqn:Eo.
  { split; [apply silent_nil|]. intros es [= <-] H. by rewrite H in Eo. }
  destruct (iw_repo (dv_issue w iss)) as [repo|]; cbn [need bind]; [|by split; [apply silent_nil|]].
  destruct (repoSlugFromURL _ _ _ _) as [slug|]; cbn [need bind]; [|by split; [apply silent_nil|]].
  unfold emit. cbn [bind]. destruct (iw_close (dv_issue w iss)) eqn:Ec; cbn [scm_ok negb];
    [|by split; [apply silent_cons, silent_nil|]..].
  destruct (fit_issue _ _) as [[e|] es']; cbn.
  - split; [|done]. apply silent_cons; [done|]. by apply silent_map.
  - split; [apply silent_cons; [done|]; by apply silent_map|]. intros es [= <-] _.
    split; [done|]. exists slug. eexists. by left.
Qed.

Lemma close_issues_spec task provider cite issues :
  let r := close_issues toLower parse w task provider cite issues in
  silent is_choke (run_effects r)
  /\ forall es, r = Next es () ->
     forall iss, In iss issues -> iss_State (iss_Status iss) = "open" -> closed_in w iss es.
Proof.
  cbn zeta. induction issues as [|iss rest [IH1 IH2]]; [split; [apply silent_nil|by intros es _ iss []]|].
  destruct (close_issue_spec task provider cite iss) as [H1 H2]. cbn [close_issues]. rewrite bind_effects. split.
  - destruct (close_issue _ _ _ _ _ _ _) as [es []|r]; [|exact H1]. by apply silent_app.
  - intros es H. apply bind_next in H as (es1 & [] & es2 & Hc & Hr & ->). intros x [<-|Hx] Ho.
    + destruct (H2 _ Hc Ho) as (Hok & slug & c & Hin). split; [done|]. exists slug, c. apply in_app_iff. by left.
    + destruct (IH2 _ Hr x Hx Ho) as (Hok & slug & c & Hin). split; [done|]. exists slug, c. apply in_app_iff. by right.
Qed.

End Delivered.

(** delivery has an actor, and an order.  The Task moves only once it owns a merge
    request, every one it owns is merged and deployed, and every open issue it owns was
    closed on the forge; and no issue is closed before all of them are deployed. *)
Theorem delivery_closes_then_moves toLower parse w proj now task :
  let r := CloseIssuesOnDelivery toLower parse w proj now task in
  (forall e, In (Choke e) (p_effects r) ->
     exists issues, ownedIssueCRs task (dv_issues w) = Some issues
     /\ forall iss, In iss issues -> iss_State (iss_Status iss) = "open" -> closed_in w iss (p_effects r))
  /\ (p_effects r <> [] ->
     exists mrs, ownedMergeRequests task (dv_list w) = Some mrs /\ mrs <> []
     /\ forall mr, In mr mrs -> mr_State (mr_Status mr) = "merged" /\ is_set (mr_DeployedAt (mr_Status mr)) = true).
Proof.
  cbn zeta. unfold CloseIssuesOnDelivery.
  destruct (ownedMergeRequests task (dv_list w)) as [mrs|] eqn:El; [|by split; [intros e []|]].
  destruct mrs as [|mr0 mrs0]; [by split; [intros e []|]|]. set (mrs := mr0 :: mrs0).
  destruct (delivered mrs) eqn:Ed; cbn [negb]; [|by split; [intros e []|]].
  split.
  - destruct (ownedIssueCRs task (dv_issues w)) as [issues|]; [|by intros e []].
    destruct (forge (dv_forge w) proj) as [provider|]; [|by intros e []].
    destruct (close_issues_spec toLower parse w proj now task provider (deliveryCitation mrs) issues) as [H1 H2].
    destruct (close_issues _ _ _ _ _ _ _) as [es []|r]; [|intros e He; by specialize (H1 _ He)].
    intros e _. exists issues. split; [done|]. intros iss Hin Ho.
    destruct (H2 _ eq_refl iss Hin Ho) as (Hok & slug & c & Hc). split; [done|]. exists slug, c. apply in_app_iff. by left.
  - intros _. exists mrs. split; [done|]. split; [done|]. intros mr Hin.
    unfold delivered in Ed. rewrite forallb_forall in Ed. specialize (Ed mr Hin).
    apply andb_true_iff in Ed as [H1%eqb_to_eq H2]. done.
Qed.
