(* ===== verification/Escalate.v ===== *)
(** * The end of a retry lane (internal/controller/retry_escalation.go): a Task whose
    technical blocker outlived its retries is re-parked for a human, and the humans on its
    issue are told, once per park. *)

From Stdlib Require Import String Ascii.
From S2P Require Import Prelude GoTime Text Limits Api Vocabulary Machine Park Clocks Unpark ObjBudget Lifecycle Patch Seq Refs Checks Logins Corridor.

Open Scope Z_scope.
Open Scope go_scope.

(** ** time.Duration's text *)

(** [fmtFrac]: the fraction of [v] at [prec] digits without its trailing zeros, in front of
    [buf], and what is left of [v]. *)
Fixpoint fmt_frac (prec : nat) (v : Z) (print : bool) (buf : string) : string * Z :=
  match prec with
  | O => ((if print then String "." buf else buf), v)
  | S prec' =>
      let digit := v mod 10 in
      let print := print || negb (digit =? 0) in
      fmt_frac prec' (v / 10) print (if print then String (digit_char digit) buf else buf)
  end.

Definition fraction (prec : nat) (v : Z) (unit_ : string) : string * Z := fmt_frac prec v false unit_.

(** [Duration.String]. *)
Definition DurationString (d : Duration) : string :=
  let u := Z.abs d in
  let body :=
    if u <? Second then
      if u =? 0 then "0s"%string
      else let '(buf, v) := if u <? Microsecond then fraction 0 u "ns"
                            else if u <? Millisecond then fraction 3 u (micro 194 181)
                            else fraction 6 u "ms" in
           String.append (FormatInt v) buf
    else
      let '(buf, u) := fraction 9 u "s" in
      let secs := String.append (FormatInt (u mod 60)) buf in
      let u := u / 60 in
      if u =? 0 then secs
      else
        let mins := String.append (FormatInt (u mod 60)) (String "m" secs) in
        let u := u / 60 in
        if u =? 0 then mins else String.append (FormatInt u) (String "h" mins) in
  if d <? 0 then String "-" body else body.

(** [Duration.Round]: to the nearest multiple of [m], halves away from zero. *)
Definition Round (d m : Duration) : Duration :=
  if m <=? 0 then d
  else if d <? 0 then
    let r := - Z.rem d m in
    if r + r <? m then i64 (d + r)
    else let d1 := i64 (d - m + r) in if d1 <? d then d1 else - two63
  else
    let r := Z.rem d m in
    if r + r <? m then i64 (d - r)
    else let d1 := i64 (d + m - r) in if d <? d1 then d1 else two63 - 1.

(** ** When a Task was parked (reaper.go) *)

Definition stageEnteredAt (t : Task) : Time := default (CreationTimestamp t) (StateEnteredAt (Status t)).
Definition parkedAt (t : Task) : Time := default (stageEnteredAt t) (ParkedAt (Status t)).

Definition parkStamp (t : Task) : string := FormatRFC3339 (parkedAt t).

Definition AnnRetryExhaustedCommented : string := "tatara.dev/retry-exhausted-commented".

(** ** What the un-park drivers do to the outside, and their errors *)

Inductive DriveEffect :=
  | WriteStatus (t : Task)
  | StampTask (name : string) (annotations : list (string * string))
  | PostComment (ref body : string)
  | ProbeBlocker (name reason : string)
  | CountUnparked (reason class : string)
  | CountDeclined (reason decline : string)
  | CountBlockerRead (reason answer : string)
  | CountRetryScheduled (reason : string)
  | CountRetryExhausted (reason state : string).

Inductive DriveError :=
  | Cancelled
  | ListTasksFailed
  | CountFailed
  | LoadIssueFailed (name : string)
  | LoadMRFailed (name : string)
  | LoadRepositoryFailed (name : string)
  | OwnedListFailed
  | StampRefused
  | StageRefused (e : StageError)
  | WriteFailed (e : FitError)
  | BlockerUnread (e : CorridorError)
  | CommentRefused.

(** The metric is there when the collector is wired. *)
Definition count (m : bool) (e : DriveEffect) : list DriveEffect := if m then [e] else [].

(** ** The mirrors a Task refers to: a reference without its object is skipped *)

Fixpoint load_refs {A} (get : string -> GetAnswer A) (refs : list string) : result string (list A) :=
  match refs with
  | [] => Ok []
  | name :: rest =>
      match get name with
      | GetErrored => Err name
      | GetNotFound => load_refs get rest
      | Found a => match load_refs get rest with Ok l => Ok (a :: l) | Err e => Err e end
      end
  end.

Definition loadTaskIssues (get : string -> GetAnswer Issue) (t : Task) : result DriveError (list Issue) :=
  match load_refs get (IssueRefs (Status t)) with Ok l => Ok l | Err name => Err (LoadIssueFailed name) end.

Definition LoadTaskMRsFor (get : string -> GetAnswer MergeRequest) (t : Task) : result DriveError (list MergeRequest) :=
  match load_refs get (MRRefs (Status t)) with Ok l => Ok l | Err name => Err (LoadMRFailed name) end.

(** ** The comments *)

(** [blocked since] or [stopped since], when the instant is known. *)
Definition since_line (verb : string) (at_ now : Time) : list string :=
  if IsZero at_ then []
  else ["- "; verb; " since: "; FormatRFC3339 at_; " ("; DurationString (Round (Sub now at_) Minute); " ago)"; newline].

(** [for i := 0; i < attempts; i++]. *)
Definition retry_waits (attempts : Z) : list string :=
  map (fun i => DurationString (RetryWait (Z.of_nat i))) (seq 0 (Z.to_nat attempts)).

Definition retryExhaustedComment (reason : string) (attempts : Z) (parkedAt now : Time) : string :=
  sprintf (["tatara stopped retrying this task and is asking for a human."; newline; newline;
            "- blocker: `"; reason; "`"; newline;
            "- attempts: "; FormatInt attempts; " of "; FormatInt MaxUnparkRetries; ", waiting ";
            str_join ", " (retry_waits attempts); " between them"; newline]
           ++ since_line "blocked" parkedAt now
           ++ [newline; "The blocker is one a machine is normally expected to clear on its own ";
               "(a pipeline finishing, a branch rebasing), so it was retried with a growing backoff rather than ";
               "handed straight to a person. It is still standing. Look at the merge request's checks and ";
               "mergeability; a comment on this issue resumes the task."; newline])%list.

Definition strandedLaneComment (blocker : string) (attempts stops : Z) (parkedAt now : Time) : string :=
  sprintf (["tatara stopped working on this task and is asking for a human."; newline; newline;
            "- was retried for: `"; blocker; "` ("; FormatInt attempts; " of "; FormatInt MaxUnparkRetries;
            " attempts spent before it cleared)"; newline]
           ++ (if 0 <? stops then
                 ["- then: the agent asked to stop "; FormatInt stops;
                  " times in a row without submitting an outcome"; newline]
               else ["- then: the pod ended without submitting an outcome"; newline])
           ++ since_line "stopped" parkedAt now
           ++ [newline; "Part of this task's merge order has already landed, so tatara will not re-implement ";
               "it: that would re-propose merged code. It will not retry either - the agent had nothing left to ";
               "say. Look at what is still unmerged and why; a comment on this issue resumes the task."; newline])%list.

(** ** Where to say it *)

(** What the outside answers to one escalation.  A patch of the annotations answers the
    object as the server holds it, [None] when it fails. *)
Record EscalateWorld := mkEscalateWorld {
  es_issue : string -> GetAnswer Issue;
  es_mr : string -> GetAnswer MergeRequest;
  es_repo : string -> GetAnswer Repository;
  es_writer : bool;
  es_comment : bool;
  es_latch : option Task;
  es_relatch : option Task;
  es_repark : list (Attempt Task)
}.

Definition is_open (state : string) : bool := (state == "") || (state == "open").

Section Escalate.

(** [strings.ToLower] and the path of [url.Parse]. *)
Context (toLower : string -> string) (parse : string -> option string).
Context (m : bool) (w : EscalateWorld) (proj : Project) (now : Time).

(** [Ok None] is a mirror that cannot address the forge. *)
Definition repoSlugFor (name : string) : result DriveError (option string) :=
  match es_repo w name with
  | GetNotFound => Ok None
  | GetErrored => Err (LoadRepositoryFailed name)
  | Found repo => Ok (RepoSlugFromURL toLower parse (repo_URL repo))
  end.

(** The first open one whose repository has a slug. *)
Fixpoint first_target {A} (state repo : A -> string) (number : A -> Z) (sigil : ascii) (l : list A)
  : result DriveError (option string) :=
  match l with
  | [] => Ok None
  | a :: rest =>
      if negb (is_open (state a)) then first_target state repo number sigil rest
      else match repoSlugFor (repo a) with
           | Err e => Err e
           | Ok None => first_target state repo number sigil rest
           | Ok (Some slug) => Ok (Some (with_sigil slug sigil (number a)))
           end
  end.

Definition mr_sigil : ascii :=
  match proj_Scm proj with Some s => if scm_Provider s == "gitlab" then "!" else "#" | None => "#" end%char.

Definition exhaustedRetryTarget (t : Task) : result DriveError (option string) :=
  match loadTaskIssues (es_issue w) t with
  | Err e => Err e
  | Ok issues =>
      match first_target (fun i => iss_State (iss_Status i)) (fun i => is_RepositoryRef (iss_Spec i))
              (fun i => is_Number (iss_Spec i)) "#" issues with
      | Err e => Err e
      | Ok (Some ref) => Ok (Some ref)
      | Ok None =>
          match LoadTaskMRsFor (es_mr w) t with
          | Err e => Err e
          | Ok mrs =>
              first_target (fun r => mr_State (mr_Status r)) (fun r => mrs_RepositoryRef (mr_Spec r))
                (fun r => mrs_Number (mr_Spec r)) mr_sigil mrs
          end
      end
  end.

(** ** The writes *)

(** A patch of the annotations: the copy takes the server's object with them. *)
Definition stamped (kvs : list (string * string)) (server : Task) : Task :=
  server <| Annotations ::= fun a => fold_left (fun a kv => <[fst kv := snd kv]> a) kvs a |>.

(** [stampRetryExhaustedCommented] leaves the copy alone until the patch is accepted. *)
Definition stampRetryExhaustedCommented (answer : option Task) (t : Task) (stamp : string)
  : bool * Task * list DriveEffect :=
  let kvs := [(AnnRetryExhaustedCommented, stamp)] in
  match answer with
  | Some server => (true, stamped kvs server, [StampTask (task_Name t) kvs])
  | None => (false, t, [])
  end.

Definition endRetryLane (t : Task) : result StageError Task :=
  if LaneStranded t
  then match StrandRetryLane t now with Ok (_, t') => Ok t' | Err e => Err e end
  else match ExhaustRetry t now with Ok (_, t') => Ok t' | Err e => Err e end.

(** The closure of [applyRetryExhaustion] on a fresh read. *)
Definition decide_exhaustion (t fresh : Task) : Verdict Task (option StageError) :=
  if ParkReason (Status fresh) != ParkReason (Status t) then Leave None
  else match endRetryLane fresh with Ok t' => Change None t' | Err e => Leave (Some e) end.

(** An appliers' answer: its error, the caller's copy, and whether it wrote. *)
Definition applied (t : Task) (r : CasResult Task (option StageError)) : option DriveError * Task * list DriveEffect :=
  match r with
  | CasLeft e => (option_map StageRefused e, t, [])
  | CasWrote _ t' => (None, t', [WriteStatus t'])
  | CasFailed e => (Some (WriteFailed e), t, [])
  end.

Definition applyRetryExhaustion (t : Task) : option DriveError * Task * list DriveEffect :=
  applied t (cas (decide_exhaustion t) (es_repark w)).

Definition escalation_body (t : Task) : string :=
  if LaneStranded t
  then strandedLaneComment (RetryBlocker (Status t)) (RetryAttempts (Status t)) (AgentStops (Stats (Status t)))
         (parkedAt t) now
  else retryExhaustedComment (ParkReason (Status t)) (RetryAttempts (Status t)) (parkedAt t) now.

(** The comment and its latch, swallowed when they fail: the copy, and whether a comment
    has landed that nothing records. *)
Definition announce (t : Task) : result DriveError (Task * bool * list DriveEffect) :=
  if ann t AnnRetryExhaustedCommented == parkStamp t then Ok (t, false, [])
  else match exhaustedRetryTarget t with
       | Err e => Err e
       | Ok None => Ok (t, false, [])
       | Ok (Some ref) =>
           if negb (es_writer w && es_comment w) then Ok (t, false, [])
           else
             let '(ok, t', es) := stampRetryExhaustedCommented (es_latch w) t (parkStamp t) in
             Ok (t', negb ok, PostComment ref (escalation_body t) :: es)
       end.

Definition escalateExhaustedRetry (t : Task) : option DriveError * Task * list DriveEffect :=
  let reason := ParkReason (Status t) in
  let state := State (Status t) in
  let stamp := parkStamp t in
  match announce t with
  | Err e => (Some e, t, [])
  | Ok (t1, unlatched, es) =>
      match applyRetryExhaustion t1 with
      | (Some e, t2, es2) =>
          if unlatched then
            let '(_, t3, es3) := stampRetryExhaustedCommented (es_relatch w) t2 stamp in
            (Some e, t3, es ++ es2 ++ es3)
          else (Some e, t2, es ++ es2)
      | (None, t2, es2) => (None, t2, es ++ es2 ++ count m (CountRetryExhausted reason state))
      end
  end%list.

End Escalate.
