(* ===== verification/Drivers.v ===== *)
(** * The drivers that release parked Tasks (internal/controller/unpark.go): the single
    application of [Unpark], the retry lane in front of it, the two one-shot migrations, the
    CI recovery, and the pacing of all four. *)

From stdpp Require Import strings sorting.
From Stdlib Require Import String Ascii.
From S2P Require Import Prelude GoTime Own Text Limits Api Vocabulary Machine Park Clocks Unpark ObjBudget Settings Lifecycle Transition Patch Seq LivePods Refs Checks Corridor Merge Escalate.

Open Scope Z_scope.
Open Scope go_scope.

(** ** Declines *)

Definition DeclineGuard : string := "guard".
Definition DeclineRule : string := "rule".

(** [DeclineFor]: the codes of [Unpark] keep their name. *)
Definition DeclineFor (code : string) : string :=
  if code == DeclineNone then DeclineNone
  else if str_mem UnparkDeclines code then code
  else DeclineRule.

(** ** CI evidence of a decline (api/v1alpha1/ci_decline.go) *)

Definition CIEvidenceRed : string := "red".
Definition CIEvidenceGreen : string := "green".
Definition CIEvidenceUnknown : string := "unknown".

(** The merge requests that may be acted on, by name. *)
Definition may_act (mr : MergeRequest) : bool :=
  (mr_Ownership (mr_Status mr) == OwnershipTatara) && is_open (mr_State (mr_Status mr)).

Definition evidence_set (mrs : list MergeRequest) : list MergeRequest :=
  merge_sort (name_le mr_Name) (List.filter may_act mrs).

Definition fingerprint (mr : MergeRequest) : string :=
  String.append (mr_Name mr) (String "@" (mr_HeadSHA (mr_Status mr))).

Definition ci_is (word : string) (mr : MergeRequest) : bool := mr_CIStatus (mr_Status mr) == word.

Definition CIDeclineEvidence (mrs : list MergeRequest) : string * string :=
  match evidence_set mrs with
  | [] => ("", "")
  | live =>
      if existsb (fun mr => mr_HeadSHA (mr_Status mr) == "") live then ("", "")
      else
        (if existsb (ci_is "red") live then CIEvidenceRed
         else if forallb (ci_is "green") live then CIEvidenceGreen
         else CIEvidenceUnknown,
         str_join "," (map fingerprint live))
  end%string.

(** ** The constants and annotations of the drivers *)

Definition AnnRetiredParkMigrated : string := "tatara.dev/retired-park-migrated".
Definition AnnRetryLaneMigrated : string := "tatara.dev/retry-lane-migrated".
Definition AnnCIRecoveryUnparks : string := "tatara.dev/ci-recovery-unparks".
Definition AnnCIRecoveryHeads : string := "tatara.dev/ci-recovery-heads".
Definition MaxCIRecoveryUnparks : Z := 3.
Definition RetiredParkMigrationWindow : Duration := 48 * Hour.
Definition maxRetryBlockerReadsPerPass : Z := 2.
Definition maxRetryLaneMigrationsPerPass : Z := 10.
Definition defaultUnparkDriveInterval : Duration := 30 * Second.
Definition UnparkClassRetired : string := "retired".
Definition UnparkClassCIRecovered : string := "ci-recovered".
Definition RetryBlockerReadStanding : string := "standing".
Definition RetryBlockerReadCleared : string := "cleared".
Definition RetryBlockerReadError : string := "error".
Definition RetryBlockerReadDeferred : string := "deferred".

Definition retryLaneMigrations : list (string * string) :=
  [(ReasonCIRed, ReasonCIFailed); (ReasonMergeConflict, ReasonMergeConflictRetry)].

(** ** What the outside answers *)

Record ApplyWorld := mkApplyWorld {
  aw_issue : string -> GetAnswer Issue;
  aw_mr : string -> GetAnswer MergeRequest;
  aw_write : list (Attempt Task)
}.

(** A latch patched into the annotations and a status write; a patch answers the object as
    the server holds it. *)
Record StampWorld := mkStampWorld {
  sw_cancelled : bool;
  sw_stamp : option Task;
  sw_write : list (Attempt Task)
}.

(** The probe of a blocker: the listed merge requests with their owners, the writer and the
    token of the forge, and its reads. *)
Record ProbeWorld := mkProbeWorld {
  pw_owned : option (list (list OwnerReference * MergeRequest));
  pw_writer : bool;
  pw_token : bool;
  pw_read : MergeRequest -> MRRead;
  pw_repo : MergeRequest -> option Repository;
  pw_mergeState : MergeRequest -> option string
}.

(** One Task of [driveUnparks]. *)
Record TurnWorld := mkTurnWorld {
  tw_cancelled : bool;
  tw_probe : ProbeWorld;
  tw_schedule : list (Attempt Task);
  tw_exhaust : EscalateWorld;
  tw_apply : ApplyWorld;
  tw_strand : EscalateWorld
}.

(** A list by the index on the project, which a client may not support. *)
Inductive IndexAnswer := Indexed (l : list Task) | IndexUnsupported (fallback : TaskListing) | IndexFailed.

Definition activeTaskCount (proj : Project) (a : IndexAnswer) : option Z :=
  match a with
  | Indexed l => Some (active_tasks proj l)
  | IndexUnsupported fallback => option_map (active_tasks proj) fallback
  | IndexFailed => None
  end.

Definition CountActiveTasks (proj : Project) (tl : TaskListing) : option Z := option_map (active_tasks proj) tl.

(** ** One loop over the Tasks *)

(** The state of the pass after one Task, its error, and whether the loop stops there. *)
Record Turn (S : Type) := mkTurn {
  tn_state : S;
  tn_err : option DriveError;
  tn_effects : list DriveEffect;
  tn_stop : bool
}.
Arguments mkTurn {S} _ _ _ _.
Arguments tn_state {S} _.
Arguments tn_err {S} _.
Arguments tn_effects {S} _.
Arguments tn_stop {S} _.

Definition turn {S} (s : S) (e : option DriveError) (es : list DriveEffect) : Turn S := mkTurn s e es false.

(** The loop goes on past an error and answers the first; a cancelled context ends it. *)
Fixpoint sweep {S} (cancelled : Task -> bool) (visit : S -> Task -> Turn S) (s : S) (first : option DriveError)
    (l : list Task) : option DriveError * S * list DriveEffect :=
  match l with
  | [] => (first, s, [])
  | t :: rest =>
      if cancelled t then (Some Cancelled, s, [])
      else
        let r := visit s t in
        let first := match first with Some e => Some e | None => tn_err r end in
        if tn_stop r then (first, tn_state r, tn_effects r)
        else let '(e, s', es) := sweep cancelled visit (tn_state r) first rest in
             (e, s', tn_effects r ++ es)
  end.

(** What the loop skips: the Tasks of other projects and those that are not parked. *)
Definition ours (proj : Project) (t : Task) : bool := (ProjectRef (Spec t) == proj_Name proj) && Parked t.

(** ** The takeover *)

Definition takeover_closure (to : string) (now : Time) (t : Task) : Task * option StageError :=
  match UnparkTakeover t to now with Ok t' => (t', None) | Err e => (t, Some e) end.

Definition UnparkTakeoverTask (w : World) (m : bool) (task : Task) (to : string) (now : Time) : Outcome :=
  let from := State (Status task) in
  let leavingPodStage := AgentKindFor from (Kind (Spec task)) != "" in
  let closure := takeover_closure to now in
  let '(r, fit) := FitTask (w_sizeOf w) (w_spiller w) false (w_reads w) (fun t => fst (closure t)) (w_attempts w) in
  after_effects (map Fit fit)
    match r with
    | Err e => mkOutcome (Some (WriteError e)) task []
    | Ok _ =>
        match captured closure (w_attempts w) with
        | Some e => mkOutcome (Some (EnterError e)) task []
        | None =>
            match UnparkTakeover task to now with
            | Err e => mkOutcome (Some (MemoryError e)) task []
            | Ok task =>
                let '(ok, es) := if leavingPodStage then DeleteWrapper w else (true, []) in
                if negb ok then mkOutcome (Some TeardownError) task es
                else mkOutcome None task (es ++ TaskTerminalEntry m (Kind (Spec task)) from to "")
            end
        end
    end.

(** ** The annotations and parks the CI recovery reads *)

Definition ciRecoverablePark (reason : string) : bool :=
  (reason == ReasonImplementDeclined) || (reason == ReasonAwaitingHuman).

Definition ciRecoveryUnparks (t : Task) : Z :=
  match Annotations t !! AnnCIRecoveryUnparks with
  | None => 0
  | Some raw => default MaxCIRecoveryUnparks (ParseInt raw)
  end.

(** ** The retry lane's reads *)

Definition corridorMergeRequests (t : Task) (mrs : list MergeRequest) : list MergeRequest :=
  if negb (OperatorDriven (State (Status t))) then mrs
  else
    let cursor := MergeCursor (Status t) in
    if cursor <? 0 then mrs
    else match nth_error (MergeOrder (Spec t)) (Z.to_nat cursor) with
         | None => mrs
         | Some repo => match mrForRepo mrs repo with None => [] | Some (_, mr) => [mr] end
         end.

Definition sameRetrySchedule (a b : Task) : bool :=
  match RetryNextAt (Status a), RetryNextAt (Status b) with
  | Some x, Some y => x =? y
  | None, None => true
  | _, _ => false
  end.

(** The pass's allowance of reads, and how many Tasks it turned away. *)
Record retryReadBudget := mkReadBudget { remaining : Z; deferred : Z }.

Definition take (b : retryReadBudget) : bool * retryReadBudget :=
  if remaining b <=? 0 then (false, mkReadBudget (remaining b) (deferred b + 1))
  else (true, mkReadBudget (remaining b - 1) (deferred b)).

Section Drivers.

(** [strings.ToLower] and the path of [url.Parse]; [m] and [scmFor] are whether the metrics
    and the forges are wired; [wall] and [wall'] what [time.Now()] answers where [now] is
    zero. *)
Context (toLower : string -> string) (parse : string -> option string).
Context (m scmFor : bool) (proj : Project) (now wall wall' : Time).

(** ** One un-park *)

(** The closure of [ApplyUnpark]: whether it un-parked, and why not.  An exhausted budget
    has re-parked the Task, so it is written all the same. *)
Definition decide_unpark (task : Task) (issues : list Issue) (mrs : list MergeRequest) (activeTasks maxOpen : Z)
    (liveHasRoom : bool) (fresh : Task) : Verdict Task (bool * string) :=
  if negb (Parked fresh) || (ParkReason (Status fresh) != ParkReason (Status task)) then Leave (false, DeclineGuard)
  else
    let '(code, t) := Unpark (mkUnparkInput fresh issues mrs activeTasks maxOpen (botLoginOf proj) liveHasRoom now)
                        wall wall' in
    if (code != DeclineNone) && (code != DeclineRetryBudgetSpent) then Leave (false, DeclineFor code)
    else Change (code == DeclineNone, DeclineFor code) t.

Definition ApplyUnpark (w : ApplyWorld) (task : Task) (activeTasks maxOpen : Z) (liveHasRoom : bool)
  : result DriveError (bool * string) * Task * list DriveEffect :=
  match loadTaskIssues (aw_issue w) task with
  | Err e => (Err e, task, [])
  | Ok issues =>
      match LoadTaskMRsFor (aw_mr w) task with
      | Err e => (Err e, task, [])
      | Ok mrs =>
          match cas (decide_unpark task issues mrs activeTasks maxOpen liveHasRoom) (aw_write w) with
          | CasLeft r => (Ok r, task, [])
          | CasWrote r t => (Ok r, t, [WriteStatus t])
          | CasFailed e => (Err (WriteFailed e), task, [])
          end
      end
  end.

(** ** The migrations *)

(** A release of a stamped park: left alone where the park is over. *)
Definition decide_release (over : Task -> bool) (release : Task -> result StageError Task) (fresh : Task)
  : Verdict Task (option StageError) :=
  if over fresh then Leave None
  else match release fresh with Ok t => Change None t | Err e => Leave (Some e) end.

(** The park of the copy as the stamp left it is over. *)
Definition park_moved (t fresh : Task) : bool :=
  negb (Parked fresh) || (ParkReason (Status fresh) != ParkReason (Status t)).

(** The latch first, then the write on the copy the patch answered. *)
Definition stamp_then (w : StampWorld) (t : Task) (kvs : list (string * string))
    (write : Task -> option DriveError * Task * list DriveEffect) : option DriveError * list DriveEffect :=
  match sw_stamp w with
  | None => (Some StampRefused, [])
  | Some server =>
      let '(e, _, es) := write (stamped kvs server) in (e, StampTask (task_Name t) kvs :: es)
  end.

Definition applyRetiredUnpark (w : StampWorld) (t : Task) : option DriveError * Task * list DriveEffect :=
  applied t (cas (decide_release (park_moved t) (fun fresh => UnparkRetiredPark fresh now wall)) (sw_write w)).

Definition stamp_instant : string := FormatRFC3339 now.

Definition retired_turn (world : Task -> StampWorld) (s : unit) (t : Task) : Turn unit :=
  if negb (ours proj t) || negb (class_is (ParkReason (Status t)) UnparkRetired)
     || is_set (Annotations t !! AnnRetiredParkMigrated)
     || (RetiredParkMigrationWindow <? Sub now (parkedAt t)) then turn s None []
  else
    let '(e, es) := stamp_then (world t) t [(AnnRetiredParkMigrated, stamp_instant)] (applyRetiredUnpark (world t)) in
    turn s e (es ++ if is_set e then []
                    else count m (CountUnparked (ParkReason (Status t)) UnparkClassRetired)).

Definition driveRetiredUnparks (world : Task -> StampWorld) (tl : TaskListing) : option DriveError * list DriveEffect :=
  match tl with
  | None => (Some ListTasksFailed, [])
  | Some l => let '(e, _, es) := sweep (fun t => sw_cancelled (world t)) (retired_turn world) () None l in (e, es)
  end.

Definition applyRetryLaneMigration (w : StampWorld) (to : string) (t : Task)
  : option DriveError * Task * list DriveEffect :=
  applied t (cas (decide_release (park_moved t) (fun fresh => migrate fresh to now)) (sw_write w)).

(** [touched] counts the Tasks this pass has written to. *)
Definition migrate_turn (world : Task -> StampWorld) (touched : Z) (t : Task) : Turn Z :=
  if negb (ours proj t) then turn touched None []
  else match tbl retryLaneMigrations (ParkReason (Status t)) with
       | None => turn touched None []
       | Some to =>
           if maxRetryLaneMigrationsPerPass <=? touched then mkTurn touched None [] true
           else if is_set (Annotations t !! AnnRetryLaneMigrated) || (ParkRetention <? Sub now (parkedAt t))
           then turn touched None []
           else
             let '(e, es) := stamp_then (world t) t [(AnnRetryLaneMigrated, stamp_instant)]
                               (applyRetryLaneMigration (world t) to) in
             turn (touched + 1) e es
       end.

Definition driveRetryLaneMigration (world : Task -> StampWorld) (tl : TaskListing)
  : option DriveError * list DriveEffect :=
  match tl with
  | None => (Some ListTasksFailed, [])
  | Some l => let '(e, _, es) := sweep (fun t => sw_cancelled (world t)) (migrate_turn world) 0 None l in (e, es)
  end.

(** ** The recovery of a give-up that CI caused *)

(** The room of a pass: asked once, if a Task of the batch would use it; a failed list is
    no room. *)
Definition room_budget (uses : Task -> bool) (l : list Task) (live : TaskListing) : Z :=
  if existsb uses l then
    match countLive proj live with
    | Some pods => Z.max 0 (MaxLivePods (Some proj) - Z.of_nat (List.length pods))
    | None => 0
    end
  else 0.

Definition applyCIRecoveryUnpark (w : StampWorld) (t : Task) : option DriveError * Task * list DriveEffect :=
  applied t (cas (decide_release (fun fresh => negb (Parked fresh) || negb (ciRecoverablePark (ParkReason (Status fresh))))
                    (fun fresh => UnparkCIRecovered fresh now wall)) (sw_write w)).

(** Whether the evidence says the give-up is void: red then, green now, at the same heads,
    which have not had their lap. *)
Definition ci_recovered (t : Task) (mrs : list MergeRequest) : bool :=
  (ann t AnnDeclineCI == CIEvidenceRed) && (ann t AnnDeclineHeads != "")
  && (fst (CIDeclineEvidence mrs) == CIEvidenceGreen)
  && (snd (CIDeclineEvidence mrs) == ann t AnnDeclineHeads)
  && (ann t AnnCIRecoveryHeads != snd (CIDeclineEvidence mrs)).

Definition recovery_stamps (t : Task) (heads : string) : list (string * string) :=
  [(AnnCIRecoveryUnparks, FormatInt (i64 (ciRecoveryUnparks t + 1))); (AnnCIRecoveryHeads, heads)].

Definition recovery_turn (world : Task -> StampWorld) (mrsOf : Task -> string -> GetAnswer MergeRequest)
    (room : Z) (t : Task) : Turn Z :=
  if negb (ours proj t) || negb (ciRecoverablePark (ParkReason (Status t))) || (Kind (Spec t) == kindTakeover)
     || (ann t AnnDeclineCI != CIEvidenceRed) || (ann t AnnDeclineHeads == "") then turn room None []
  else match LoadTaskMRsFor (mrsOf t) t with
       | Err e => turn room (Some e) []
       | Ok mrs =>
           let wasLive := Live (State (Status t)) in
           if negb (ci_recovered t mrs) then turn room None []
           else if wasLive && (room <=? 0) then turn room None []
           else if MaxCIRecoveryUnparks <=? ciRecoveryUnparks t then turn room None []
           else
             let '(e, es) := stamp_then (world t) t (recovery_stamps t (snd (CIDeclineEvidence mrs)))
                               (applyCIRecoveryUnpark (world t)) in
             if is_set e then turn room e es
             else turn (if wasLive then room - 1 else room) None
                    (es ++ count m (CountUnparked (ParkReason (Status t)) UnparkClassCIRecovered))
       end.

Definition recovery_uses_room (t : Task) : bool :=
  ours proj t && ciRecoverablePark (ParkReason (Status t)) && Live (State (Status t)).

Definition driveCIRecoveryUnparks (world : Task -> StampWorld) (mrsOf : Task -> string -> GetAnswer MergeRequest)
    (tl live : TaskListing) : option DriveError * list DriveEffect :=
  match tl with
  | None => (Some ListTasksFailed, [])
  | Some l =>
      let '(e, _, es) := sweep (fun t => sw_cancelled (world t)) (recovery_turn world mrsOf)
                           (room_budget recovery_uses_room l live) None l in (e, es)
  end.

(** ** The retry lane *)

Definition retryBlockerProbed (reason : string) : bool :=
  scmFor && ((reason == ReasonCIFailed) || (reason == ReasonMergeConflictRetry)).

(** The first conflict among the merge requests that are open. *)
Fixpoint dirty_scan (w : ProbeWorld) (probe : list MergeRequest) : result DriveError bool :=
  match probe with
  | [] => Ok false
  | mr :: rest =>
      if negb (is_open (mr_State (mr_Status mr))) then dirty_scan w rest
      else match pw_repo w mr with
           | None => Err (LoadRepositoryFailed (mrs_RepositoryRef (mr_Spec mr)))
           | Some _ =>
               match pw_mergeState w mr with
               | None => Err (BlockerUnread StateUnreadable)
               | Some ms => if ms == MergeStateDirty then Ok true else dirty_scan w rest
               end
           end
  end.

Definition retryBlockerStanding (w : ProbeWorld) (t : Task) : result DriveError bool :=
  let reason := ParkReason (Status t) in
  if negb (retryBlockerProbed reason) then Ok false
  else match ownedMergeRequests t (pw_owned w) with
       | None => Err OwnedListFailed
       | Some [] => Ok false
       | Some mrs =>
           let fg := mkForgeWorld scmFor (pw_writer w) (pw_token w) in
           if reason == ReasonCIFailed then
             match fst (ciRedAtReviewedHead fg (pw_read w) mrs) with
             | Err e => Err (BlockerUnread e)
             | Ok red => Ok (is_set red)
             end
           else match forge fg proj with
                | None => Err (BlockerUnread NoForge)
                | Some _ => dirty_scan w (corridorMergeRequests t mrs)
                end
       end.

(** The closure of [writeRetryPark]: the schedule must be the one this pass has read. *)
Definition decide_schedule (apply : Task -> Time -> result StageError Task) (t fresh : Task)
  : Verdict Task (option StageError) :=
  if (ParkReason (Status fresh) != ParkReason (Status t)) || negb (sameRetrySchedule fresh t) then Leave None
  else match apply fresh now with Ok t' => Change None t' | Err e => Leave (Some e) end.

Definition writeRetryPark (apply : Task -> Time -> result StageError Task) (attempts : list (Attempt Task)) (t : Task)
  : result DriveError bool * Task * list DriveEffect :=
  match cas (decide_schedule apply t) attempts with
  | CasLeft None => (Ok false, t, [])
  | CasLeft (Some e) => (Err (StageRefused e), t, [])
  | CasWrote _ t' => (Ok true, t', [WriteStatus t'])
  | CasFailed e => (Err (WriteFailed e), t, [])
  end.

Definition armRetryPark := writeRetryPark ArmRetry.
Definition rescheduleRetryPark := writeRetryPark RescheduleRetry.

(** What a driver leaves: its error, the copy, and the effects. *)
Definition DriveStep : Type := (option DriveError * Task * list DriveEffect)%type.

Definition chargeNextRetryLap (attempts : list (Attempt Task)) (t : Task) (reason : string) : DriveStep :=
  match armRetryPark attempts t with
  | (Err e, t', es) => (Some e, t', es)
  | (Ok false, t', es) => (None, t', es)
  | (Ok true, t', es) => (None, t', es ++ count m (CountRetryScheduled reason))
  end.

(** The blocker is gone, and no pod may run: the same wait again. *)
Definition reschedule_for_room (w : TurnWorld) (t : Task) (reason : string) : DriveStep :=
  match rescheduleRetryPark (tw_schedule w) t with
  | (Err e, t', es) => (Some e, t', es)
  | (Ok done, t', es) => (None, t', es ++ if done then count m (CountDeclined reason DeclineNoLiveRoom) else [])
  end.

(** A pass of the lane over one Task: [None] hands it to [ApplyUnpark]. *)
Record Lane := mkLane { ln_handled : bool; ln_step : DriveStep; ln_budget : retryReadBudget }.

Definition handled (b : retryReadBudget) (s : DriveStep) : Lane := mkLane true s b.

(** The blocker's answer, acted on. *)
Definition act_on_blocker (w : TurnWorld) (t : Task) (liveRoom : bool) (b : retryReadBudget)
    (before : list DriveEffect) : Lane :=
  let reason := ParkReason (Status t) in
  let after (s : DriveStep) : DriveStep := let '(e, t', es) := s in (e, t', before ++ es) in
  match retryBlockerStanding (tw_probe w) t with
  | Err _ => handled b (after (None, t, count m (CountBlockerRead reason RetryBlockerReadError)))
  | Ok false =>
      let read := if retryBlockerProbed reason then count m (CountBlockerRead reason RetryBlockerReadCleared) else [] in
      if Live (State (Status t)) && negb liveRoom then
        let '(e, t', es) := reschedule_for_room w t reason in handled b (after (e, t', read ++ es))
      else mkLane false (after (None, t, read)) b
  | Ok true =>
      let read := count m (CountBlockerRead reason RetryBlockerReadStanding) in
      let '(e, t', es) :=
        if MaxUnparkRetries <=? RetryAttempts (Status t)
        then escalateExhaustedRetry toLower parse m (tw_exhaust w) proj now t
        else chargeNextRetryLap (tw_schedule w) t reason in
      handled b (after (e, t', read ++ es))
  end.

Definition driveRetryLane (w : TurnWorld) (t : Task) (liveRoom : bool) (b : retryReadBudget) : Lane :=
  let reason := ParkReason (Status t) in
  let attempts := RetryAttempts (Status t) in
  if is_set (RetryNextAt (Status t)) then
    if negb (RetryDue t now) then handled b (None, t, count m (CountDeclined reason DeclineRetryNotDue))
    else if NeedsLiveRoom reason && negb liveRoom && (attempts <? MaxUnparkRetries) then handled b (None, t, [])
    else if retryBlockerProbed reason then
      let '(taken, b') := take b in
      if negb taken then handled b' (None, t, count m (CountBlockerRead reason RetryBlockerReadDeferred))
      else act_on_blocker w t liveRoom b' [ProbeBlocker (task_Name t) reason]
    else act_on_blocker w t liveRoom b []
  else if (RetryBlocker (Status t) == reason) && (MaxUnparkRetries <=? attempts) then
    handled b (escalateExhaustedRetry toLower parse m (tw_exhaust w) proj now t)
  else if NeedsLiveRoom reason && negb liveRoom then handled b (None, t, [])
  else handled b (chargeNextRetryLap (tw_schedule w) t reason).

(** ** The pass over the parked Tasks of a project *)

Record UnparkPass := mkUnparkPass { up_room : Z; up_active : Z; up_reads : retryReadBudget }.

(** After the lane has let the Task through, if it is one of its own. *)
Definition unpark_then (w : TurnWorld) (maxOpen : Z) (liveRoom : bool) (s : UnparkPass) (t : Task)
  : Turn UnparkPass :=
  match ApplyUnpark (tw_apply w) t (up_active s) maxOpen liveRoom with
  | (Err e, _, es) => turn s (Some e) es
  | (Ok (unparked, decline), t', es) =>
      let room := if unparked && Live (State (Status t)) && (0 <? up_room s) then up_room s - 1 else up_room s in
      let declined := if decline != DeclineNone then count m (CountDeclined (ParkReason (Status t')) decline) else [] in
      let s' := mkUnparkPass room (if unparked then up_active s + 1 else up_active s) (up_reads s) in
      if (decline == DeclineMergedMR) && LaneStranded t' then
        let '(e, _, es') := escalateExhaustedRetry toLower parse m (tw_strand w) proj now t' in
        turn s' e (es ++ declined ++ es')
      else turn s' None (es ++ declined)
  end.

Definition unpark_turn (world : Task -> TurnWorld) (maxOpen : Z) (s : UnparkPass) (t : Task) : Turn UnparkPass :=
  if negb (ours proj t) then turn s None []
  else
    let reason := ParkReason (Status t) in
    let liveRoom := NeedsLiveRoom reason && (0 <? up_room s) in
    let w := world t in
    if class_is reason UnparkRetry then
      let l := driveRetryLane w t liveRoom (up_reads s) in
      let s := mkUnparkPass (up_room s) (up_active s) (ln_budget l) in
      let '(e, t', es) := ln_step l in
      if is_set e || ln_handled l then turn s e es
      else let r := unpark_then w maxOpen liveRoom s t' in
           turn (tn_state r) (tn_err r) (es ++ tn_effects r)
    else unpark_then w maxOpen liveRoom s t.

Definition unpark_uses_room (t : Task) : bool := ours proj t && NeedsLiveRoom (ParkReason (Status t)).

Definition start_pass (l : list Task) (active : Z) (live : TaskListing) : UnparkPass :=
  mkUnparkPass (room_budget unpark_uses_room l live) active (mkReadBudget maxRetryBlockerReadsPerPass 0).

Definition driveUnparks (world : Task -> TurnWorld) (tl : TaskListing) (active : IndexAnswer) (live : TaskListing)
  : option DriveError * list DriveEffect :=
  match tl with
  | None => (Some ListTasksFailed, [])
  | Some l =>
      match activeTaskCount proj active with
      | None => (Some CountFailed, [])
      | Some n =>
          let '(e, _, es) := sweep (fun t => tw_cancelled (world t)) (unpark_turn world (max_open proj))
                               (start_pass l n live) None l in (e, es)
      end
  end.

(** ** The pace *)

(** One round of the four drivers: their lists, and the worlds of their Tasks. *)
Record RoundWorld := mkRoundWorld {
  rw_tasks : TaskListing;
  rw_active : IndexAnswer;
  rw_live : TaskListing;
  rw_turn : Task -> TurnWorld;
  rw_retired_tasks : TaskListing;
  rw_retired : Task -> StampWorld;
  rw_migrate_tasks : TaskListing;
  rw_migrate : Task -> StampWorld;
  rw_recovery_tasks : TaskListing;
  rw_recovery_live : TaskListing;
  rw_recovery : Task -> StampWorld;
  rw_recovery_mrs : Task -> string -> GetAnswer MergeRequest
}.

(** The drivers of a round in order, the first error ending it. *)
Fixpoint drive_all (l : list (option DriveError * list DriveEffect)) : option DriveError * list DriveEffect :=
  match l with
  | [] => (None, [])
  | (Some e, es) :: _ => (Some e, es)
  | (None, es) :: rest => let '(e, es') := drive_all rest in (e, es ++ es')
  end.

Definition drive_round (w : RoundWorld) : option DriveError * list DriveEffect :=
  drive_all [driveUnparks (rw_turn w) (rw_tasks w) (rw_active w) (rw_live w);
             driveRetiredUnparks (rw_retired w) (rw_retired_tasks w);
             driveRetryLaneMigration (rw_migrate w) (rw_migrate_tasks w);
             driveCIRecoveryUnparks (rw_recovery w) (rw_recovery_mrs w) (rw_recovery_tasks w) (rw_recovery_live w)].

(** [last] is when each project was last driven: the next requeue or the error, and the
    table afterwards. *)
Definition driveUnparksPaced (interval : Duration) (last : gmap string Time) (w : RoundWorld)
  : result DriveError Duration * gmap string Time * list DriveEffect :=
  let interval := if interval <=? 0 then defaultUnparkDriveInterval else interval in
  let drive :=
    let '(e, es) := drive_round w in
    match e with
    | Some e => (Err e, last, es)
    | None => (Ok interval, <[proj_Name proj := now]> last, es)
    end in
  match last !! proj_Name proj with
  | Some at_ => let elapsed := Sub now at_ in
                if elapsed <? interval then (Ok (i64 (interval - elapsed)), last, []) else drive
  | None => drive
  end.

End Drivers.

(** ** What the theorems say *)

(** A read whose write was accepted. *)
Definition accepts (attempts : list (Attempt Task)) (fresh : Task) : Prop :=
  In (mkAttempt (Some fresh) UpdateOk) attempts.

Definition turn_reads (w : TurnWorld) (fresh : Task) : Prop :=
  accepts (tw_schedule w) fresh \/ accepts (es_repark (tw_exhaust w)) fresh
  \/ accepts (aw_write (tw_apply w)) fresh \/ accepts (es_repark (tw_strand w)) fresh.

Definition round_reads (w : RoundWorld) (fresh : Task) : Prop :=
  exists t, turn_reads (rw_turn w t) fresh \/ accepts (sw_write (rw_retired w t)) fresh
            \/ accepts (sw_write (rw_migrate w t)) fresh \/ accepts (sw_write (rw_recovery w t)) fresh.

(** What one operation of internal/stage makes of a parked Task, without moving it. *)
Definition by_an_operation (reads : Task -> Prop) (t' : Task) : Prop :=
  exists o fresh, reads fresh /\ Parked fresh = true /\ t' = exec o fresh
                  /\ State (Status t') = State (Status fresh).

(** Every status write of a list has the property. *)
Definition all_writes (P : Task -> Prop) : list DriveEffect -> Prop :=
  Forall (fun e => match e with WriteStatus t => P t | _ => True end).

(** How many effects of a list are of a kind. *)
Definition tally_of (f : DriveEffect -> bool) (es : list DriveEffect) : Z := Z.of_nat (List.length (List.filter f es)).

Definition is_probe (e : DriveEffect) : bool := match e with ProbeBlocker _ _ => true | _ => false end.

(** A release that brings a pod back. *)
Definition releases_live (e : DriveEffect) : bool :=
  match e with WriteStatus t => negb (Parked t) && Live (State (Status t)) | _ => false end.

(** The three reasons whose rule does not ask for a slot. *)
Definition asks_no_room (reason : string) : bool :=
  (reason == ReasonBacklogSweep) || (reason == ReasonMergeTimeout) || (reason == ReasonDeployTimeout).

Definition roomless (proj : Project) (t : Task) : bool :=
  ours proj t && Live (State (Status t)) && asks_no_room (ParkReason (Status t)).

(** The slots a listing leaves under the project's ceiling; none when it fails. *)
Definition room_left (proj : Project) (live : TaskListing) : Z :=
  match countLive proj live with
  | Some pods => Z.max 0 (MaxLivePods (Some proj) - Z.of_nat (List.length pods))
  | None => 0
  end.

(** A world in which a Task's reads answer the copy the pass has, and its writes and its
    escalation go through. *)
Record steady (toLower : string -> string) (parse : string -> option string) (proj : Project)
    (world : Task -> TurnWorld) : Prop := {
  steady_schedule : forall t, tw_schedule (world t) = [mkAttempt (Some t) UpdateOk];
  steady_repark : forall t, es_repark (tw_exhaust (world t)) = [mkAttempt (Some t) UpdateOk];
  steady_latch : forall t, es_latch (tw_exhaust (world t)) = Some t \/ es_latch (tw_exhaust (world t)) = None;
  steady_target : forall t, exists r, exhaustedRetryTarget toLower parse (tw_exhaust (world t)) proj t = Ok r
}.

(** One pass of the lane over a Task, with room and with reads left. *)
Definition lane_pass (toLower : string -> string) (parse : string -> option string) (m scmFor : bool) (proj : Project)
    (world : Task -> TurnWorld) (now : Time) (t : Task) : Task :=
  snd (fst (ln_step (driveRetryLane toLower parse m scmFor proj now (world t) t true (mkReadBudget 2 0)))).

(** The first [n] passes, at the given instants. *)
Fixpoint lane_passes (toLower : string -> string) (parse : string -> option string) (m scmFor : bool) (proj : Project)
    (world : Task -> TurnWorld) (at_ : nat -> Time) (n : nat) (t : Task) : Task :=
  match n with
  | O => t
  | S n' => lane_pass toLower parse m scmFor proj world (at_ n')
              (lane_passes toLower parse m scmFor proj world at_ n' t)
  end.

(** Parked for [reason] with [k] attempts spent on it, the last armed at [now]. *)
Definition armed_at (reason : string) (k : Z) (now : Time) (t : Task) : Prop :=
  ParkReason (Status t) = reason /\ RetryBlocker (Status t) = reason /\ RetryAttempts (Status t) = k
  /\ RetryNextAt (Status t) = Some (Add now (RetryWait (k - 1))).

(** Every write follows a latch directly. *)
Definition latched (es : list DriveEffect) : Prop :=
  forall es1 t' es2, es = es1 ++ WriteStatus t' :: es2 -> exists es0 name kvs, es1 = es0 ++ [StampTask name kvs].

(** What lets the CI recovery spend a lap on a Task. *)
Definition recovery_licensed (proj : Project) (mrsOf : Task -> string -> GetAnswer MergeRequest) (t : Task)
    (kvs : list (string * string)) : Prop :=
  ours proj t = true /\ ciRecoverablePark (ParkReason (Status t)) = true /\ Kind (Spec t) <> kindTakeover
  /\ ciRecoveryUnparks t < MaxCIRecoveryUnparks
  /\ exists mrs, LoadTaskMRsFor (mrsOf t) t = Ok mrs /\ kvs = recovery_stamps t (snd (CIDeclineEvidence mrs))
     /\ ann t AnnDeclineCI = CIEvidenceRed /\ fst (CIDeclineEvidence mrs) = CIEvidenceGreen
     /\ ann t AnnDeclineHeads = snd (CIDeclineEvidence mrs) /\ ann t AnnCIRecoveryHeads <> snd (CIDeclineEvidence mrs).

(** One lap of the recovery: the annotations before and after, whatever else the server
    held. *)
Definition recovery_lap (t t' : Task) : Prop :=
  ciRecoveryUnparks t < MaxCIRecoveryUnparks
  /\ exists heads server, ann t AnnCIRecoveryHeads <> heads /\ t' = stamped (recovery_stamps t heads) server.

(** Samples: a world that answers nothing, and one whose writes find the given Task. *)
Definition no_answers : EscalateWorld :=
  mkEscalateWorld (fun _ => GetNotFound) (fun _ => GetNotFound) (fun _ => GetNotFound) false false None None [].

Definition unprobed : ProbeWorld := mkProbeWorld None false false (fun _ => mkMRRead false None) (fun _ => None) (fun _ => None).

Definition self_turn (probe : ProbeWorld) (t : Task) : TurnWorld :=
  let own := [mkAttempt (Some t) UpdateOk] in
  mkTurnWorld false probe own
    (mkEscalateWorld (fun _ => GetNotFound) (fun _ => GetNotFound) (fun _ => GetNotFound) false false None None own)
    (mkApplyWorld (fun _ => GetNotFound) (fun _ => GetNotFound) own) no_answers.

(** A stamp and a write that both find the given object. *)
Definition finds (server : Task) : StampWorld := mkStampWorld false (Some server) [mkAttempt (Some server) UpdateOk].

Definition retired_round (tasks : list Task) : RoundWorld :=
  mkRoundWorld (Some []) (Indexed []) (Some []) (self_turn unprobed) (Some tasks) finds (Some []) finds
    (Some []) (Some []) finds (fun _ _ => GetNotFound).

Definition work (name state reason : string) : Task := (parked_in "work" state reason) <| task_Name := name |>.

(** A merge request of the Task whose checks are red at the head that was reviewed. *)
Definition red_probe (t : Task) : ProbeWorld :=
  let mr := zero_MergeRequest <| mr_Status ::= fun s => s <| mr_ReviewedSHA := "sha"%string |> |> in
  mkProbeWorld (Some [([mkOwnerReference groupVersion taskKind (task_Name t) "u" (Some true) (Some true)], mr)]) true true
    (fun _ => mkMRRead true (Some (mkPRState "" "sha" "" "failure" false false))) (fun _ => None) (fun _ => None).

(** A day between two looks. *)
Definition daily (n : nat) : Time := Z.of_nat n * (24 * Hour).

(** ** Lemmas: the writes *)

Lemma writes_count P m e : (forall t, e <> WriteStatus t) -> all_writes P (count m e).
Proof. intros H. destruct m; [|constructor]. constructor; [|constructor]. destruct e; try done. by destruct (H t). Qed.

Lemma writes_mono (P Q : Task -> Prop) es : (forall t, P t -> Q t) -> all_writes P es -> all_writes Q es.
Proof. intros H Hf. eapply Forall_impl; [exact Hf|]. intros []; auto. Qed.

Lemma operation_mono (P Q : Task -> Prop) t' : (forall t, P t -> Q t) -> by_an_operation P t' -> by_an_operation Q t'.
Proof. intros H (o & f & Hr & Hp & He & Hs). exists o, f. auto. Qed.

Lemma writes_app P es es' : all_writes P es -> all_writes P es' -> all_writes P (es ++ es').
Proof. intros H H'. apply Forall_app. by split. Qed.

Lemma writes_skip P e es : (forall t, e <> WriteStatus t) -> all_writes P es -> all_writes P (e :: es).
Proof. intros H H'. constructor; [|done]. destruct e; try done. by destruct (H t). Qed.

Lemma writes_nil P : all_writes P [].
Proof. constructor. Qed.

(** The tactics of these lemmas: a list of effects, piece by piece. *)
Ltac each_write :=
  repeat match goal with
  | |- all_writes _ (_ ++ _) => apply writes_app
  | |- all_writes _ (_ :: _) => apply writes_skip; [discriminate|]
  | |- all_writes _ [] => apply writes_nil
  | |- all_writes _ (count _ _) => apply writes_count; discriminate
  | |- all_writes _ (if ?b then _ else _) => destruct b
  end; auto.

Lemma state_of_repark t r now : State (Status (repark t r now)) = State (Status t).
Proof. apply repark_frame. Qed.

Lemma parked_spec t : Parked t = true <-> ParkReason (Status t) <> ""%string.
Proof. unfold Parked. rewrite negb_true_iff. apply String.eqb_neq. Qed.

Lemma operated (reads : Task -> Prop) o fresh :
  reads fresh -> ParkReason (Status fresh) <> ""%string -> State (Status (exec o fresh)) = State (Status fresh) ->
  by_an_operation reads (exec o fresh).
Proof. intros Hr Hp Hs. exists o, fresh. rewrite parked_spec. auto. Qed.

Lemma lane_reason_parked t : class_is (ParkReason (Status t)) UnparkRetry = true -> ParkReason (Status t) <> ""%string.
Proof. intros H E. rewrite E in H. discriminate. Qed.

(** The operations the appliers run, with the reads they accept. *)
Lemma exhaustion_operates reads now t fresh r t' :
  reads fresh -> decide_exhaustion now t fresh = Change r t' -> by_an_operation reads t'.
Proof.
  intros Hr. unfold decide_exhaustion, endRetryLane. destruct (_ != _); [done|].
  destruct (LaneStranded fresh) eqn:Hl.
  - unfold StrandRetryLane. rewrite Hl. intros [= <- <-].
    replace (repark fresh ReasonRetryExhausted now) with (exec (OpStrandRetryLane now) fresh)
      by (cbn; unfold StrandRetryLane; by rewrite Hl).
    apply operated; [done| |cbn; unfold StrandRetryLane; rewrite Hl; apply state_of_repark].
    unfold LaneStranded in Hl. intros E. by rewrite E in Hl.
  - destruct (ExhaustRetry fresh now) as [[r' t1]|] eqn:E; [|done]. intros [= <- <-].
    replace t1 with (exec (OpExhaustRetry now) fresh) by (cbn; by rewrite E).
    unfold ExhaustRetry in E. destruct (String.eqb_spec (ParkReason (Status fresh)) ""); [done|].
    apply operated; [done|done|]. cbn. unfold ExhaustRetry. destruct (_ == ""); [done|].
    destruct (class_is _ _); [apply state_of_repark|done].
Qed.

Lemma schedule_operates reads now (o : Time -> op) apply t fresh r t' :
  (forall t1 t2, apply t1 now = Ok t2 ->
     ParkReason (Status t1) <> ""%string /\ t2 = exec (o now) t1 /\ State (Status t2) = State (Status t1)) ->
  reads fresh -> decide_schedule now apply t fresh = Change r t' -> by_an_operation reads t'.
Proof.
  intros Ho Hr. unfold decide_schedule. destruct (_ || _); [done|].
  destruct (apply fresh now) as [t2|] eqn:E; [|done]. intros [= <- <-].
  destruct (Ho _ _ E) as (Hp & -> & Hs). by apply operated.
Qed.

Lemma arm_operates now t1 t2 :
  ArmRetry t1 now = Ok t2 ->
  ParkReason (Status t1) <> ""%string /\ t2 = exec (OpArmRetry now) t1 /\ State (Status t2) = State (Status t1).
Proof.
  intros E. split; [intros Ep; unfold ArmRetry in E; by rewrite Ep in E|].
  split; [cbn; by rewrite E|]. unfold ArmRetry in E. destruct (_ == ""); [done|].
  destruct (class_is _ _); [|done]. injection E as <-. by destruct (_ != _).
Qed.

Lemma reschedule_operates now t1 t2 :
  RescheduleRetry t1 now = Ok t2 ->
  ParkReason (Status t1) <> ""%string /\ t2 = exec (OpRescheduleRetry now) t1 /\ State (Status t2) = State (Status t1).
Proof.
  intros E. split; [intros Ep; unfold RescheduleRetry in E; by rewrite Ep in E|].
  split; [cbn; by rewrite E|]. unfold RescheduleRetry in E. destruct (_ == ""); [done|].
  destruct (class_is _ _); [|done]. by injection E as <-.
Qed.

(** The releases of the migrations. *)
Lemma release_operates reads over release (o : op) fresh r t' :
  (forall t2, release fresh = Ok t2 ->
     ParkReason (Status fresh) <> ""%string /\ t2 = exec o fresh /\ State (Status t2) = State (Status fresh)) ->
  reads fresh -> decide_release over release fresh = Change r t' -> by_an_operation reads t'.
Proof.
  intros Ho Hr. unfold decide_release. destruct (over fresh); [done|].
  destruct (release fresh) as [t2|]; [|done]. intros [= <- <-].
  destruct (Ho _ eq_refl) as (Hp & -> & Hs). by apply operated.
Qed.

Lemma retired_operates now wall t1 t2 :
  UnparkRetiredPark t1 now wall = Ok t2 ->
  ParkReason (Status t1) <> ""%string /\ t2 = exec (OpRetiredPark now wall) t1 /\ State (Status t2) = State (Status t1).
Proof.
  intros E. split; [|split; [cbn; by rewrite E|]]; unfold UnparkRetiredPark in E.
  - intros Ep. by rewrite Ep in E.
  - destruct (class_is _ _); [|done]. by injection E as <-.
Qed.

Lemma migrate_operates to now t1 t2 :
  migrate t1 to now = Ok t2 ->
  ParkReason (Status t1) <> ""%string /\ t2 = exec (OpMigrate to now) t1 /\ State (Status t2) = State (Status t1).
Proof.
  intros E. split; [|split; [cbn; by rewrite E|]]; unfold migrate, Repark in E.
  - intros Ep. by rewrite Ep in E.
  - destruct (_ == ""); [done|]. destruct (IsParkReason to); [|done]. injection E as <-. apply state_of_repark.
Qed.

Lemma recovery_operates now wall t1 t2 :
  UnparkCIRecovered t1 now wall = Ok t2 ->
  ParkReason (Status t1) <> ""%string /\ t2 = exec (OpCIRecovered now wall) t1 /\ State (Status t2) = State (Status t1).
Proof.
  intros E. split; [|split; [cbn; by rewrite E|]]; unfold UnparkCIRecovered in E.
  - intros Ep. by rewrite Ep in E.
  - destruct (_ && _); [done|]. destruct (_ == kindTakeover); [done|]. by injection E as <-.
Qed.

(** An un-park never moves its Task. *)
Lemma Unpark_keeps_state inp wall wall' :
  State (Status (snd (Unpark inp wall wall'))) = State (Status (in_Task inp)).
Proof.
  destruct (Unpark_answer inp wall wall') as (t1 & Ha & ->).
  assert (State (Status t1) = State (Status (in_Task inp))) as H1.
  { inversion Ha as [d' Hd E|r Hr E|t0 Hs E]; subst; [done|apply state_of_repark|].
    apply spends_frame in Hs as (H & _). exact H. }
  destruct (_ == DeclineNone); [|done].
  destruct (launder_frame inp wall' t1) as (es & a & b & c & -> & _). exact H1.
Qed.

Lemma unpark_operates reads proj now wall wall' task issues mrs active maxOpen room fresh r t' :
  reads fresh -> decide_unpark proj now wall wall' task issues mrs active maxOpen room fresh = Change r t' ->
  by_an_operation reads t'.
Proof.
  intros Hr. unfold decide_unpark. destruct (negb (Parked fresh)) eqn:Hp; [done|]. cbn [orb].
  destruct (_ != _); [done|].
  set (inp := mkUnparkInput _ _ _ _ _ _ _ _).
  destruct (Unpark inp wall wall') as [code t] eqn:E. destruct (_ && _); [done|]. intros [= <- <-].
  apply negb_false_iff, parked_spec in Hp.
  replace t with (exec (OpUnpark issues mrs active maxOpen (botLoginOf proj) room now wall wall') fresh)
    by (cbn; by fold inp; rewrite E).
  apply operated; [done|done|]. cbn. fold inp. apply (Unpark_keeps_state inp).
Qed.

(** The loop: what holds of every turn's effects holds of the pass's. *)
Lemma sweep_writes {S} (P : Task -> Prop) cancelled (visit : S -> Task -> Turn S) l : forall s first,
  (forall s t, all_writes P (tn_effects (visit s t))) ->
  all_writes P (snd (sweep cancelled visit s first l)).
Proof.
  induction l as [|t l IH]; intros s first H; cbn [sweep]; [constructor|].
  destruct (cancelled t); [constructor|]. destruct (tn_stop (visit s t)); [apply H|].
  set (f := match first with Some e => Some e | None => _ end).
  specialize (IH (tn_state (visit s t)) f H). destruct (sweep _ _ _ _ l) as [[e s'] es]. cbn in *.
  apply Forall_app. split; [apply H|done].
Qed.

Lemma sweep_writes_of {S} (P : Task -> Prop) cancelled (visit : S -> Task -> Turn S) s first l e s' es :
  (forall s t, all_writes P (tn_effects (visit s t))) ->
  sweep cancelled visit s first l = (e, s', es) -> all_writes P es.
Proof. intros H E. pose proof (sweep_writes P cancelled visit l s first H) as Hw. by rewrite E in Hw. Qed.

Lemma applied_writes (P : Task -> Prop) decide attempts t :
  (forall fresh r t', accepts attempts fresh -> decide fresh = Change r t' -> P t') ->
  all_writes P (snd (applied t (cas decide attempts))).
Proof.
  intros H. destruct (cas decide attempts) as [r|r t'|e] eqn:E; cbn; try constructor; [|constructor].
  apply cas_wrote in E as (f & Hin & Hd). by eapply H.
Qed.

Lemma stamp_then_writes (P : Task -> Prop) w t kvs write :
  (forall t1, all_writes P (snd (write t1))) -> all_writes P (snd (stamp_then w t kvs write)).
Proof.
  intros H. unfold stamp_then. destruct (sw_stamp w) as [server|]; [|constructor].
  specialize (H (stamped kvs server)). destruct (write (stamped kvs server)) as [[e t1] es]. by constructor.
Qed.

Lemma drive_all_writes (P : Task -> Prop) l :
  Forall (fun r => all_writes P (snd r)) l -> all_writes P (snd (drive_all l)).
Proof.
  induction 1 as [|[[e|] es] l H Hl IH]; cbn; [constructor|exact H|].
  destruct (drive_all l) as [e es']. cbn in *. each_write.
Qed.

Section Writes.

#[local] Set Default Proof Using "All".

Context (toLower : string -> string) (parse : string -> option string).
Context (m scmFor : bool) (proj : Project) (now wall wall' : Time).

Lemma escalate_writes (P : Task -> Prop) w t :
  (forall t0 fresh r t', accepts (es_repark w) fresh -> decide_exhaustion now t0 fresh = Change r t' -> P t') ->
  all_writes P (snd (escalateExhaustedRetry toLower parse m w proj now t)).
Proof.
  intros H. unfold escalateExhaustedRetry.
  assert (forall t1 unlatched es, announce toLower parse w proj now t = Ok (t1, unlatched, es) -> all_writes P es) as Ha.
  { unfold announce. intros t1 u es. destruct (_ == _); [intros [= <- <- <-]; constructor|].
    destruct (exhaustedRetryTarget _ _ _ _ _) as [[ref|]|]; [|intros [= <- <- <-]; constructor|done].
    destruct (negb _); [intros [= <- <- <-]; constructor|]. unfold stampRetryExhaustedCommented.
    destruct (es_latch w); intros [= <- <- <-]; each_write. }
  destruct (announce _ _ _ _ _ t) as [[[t1 unlatched] es]|e]; [|constructor]. specialize (Ha _ _ _ eq_refl).
  assert (all_writes P (snd (applyRetryExhaustion w now t1))) as Hx.
  { apply applied_writes. intros fresh r t' Hf Hd. by eapply H. }
  destruct (applyRetryExhaustion w now t1) as [[[e|] t2] es2]; cbn [snd] in Hx |- *.
  - destruct unlatched; [|cbn [snd]; each_write]. unfold stampRetryExhaustedCommented.
    destruct (es_relatch w); cbn [snd]; each_write.
  - each_write.
Qed.

Lemma schedule_writes (P : Task -> Prop) apply attempts t :
  (forall fresh r t', accepts attempts fresh -> decide_schedule now apply t fresh = Change r t' -> P t') ->
  all_writes P (snd (writeRetryPark now apply attempts t)).
Proof.
  intros H. unfold writeRetryPark. destruct (cas _ _) as [[e|]|r t'|e] eqn:E; cbn; try constructor; [|constructor].
  apply cas_wrote in E as (f & Hin & Hd). by eapply H.
Qed.

Lemma charge_writes (P : Task -> Prop) attempts t reason :
  (forall fresh r t', accepts attempts fresh -> decide_schedule now ArmRetry t fresh = Change r t' -> P t') ->
  all_writes P (snd (chargeNextRetryLap m now attempts t reason)).
Proof.
  intros H. unfold chargeNextRetryLap, armRetryPark. pose proof (schedule_writes P ArmRetry attempts t H) as Hw.
  destruct (writeRetryPark now ArmRetry attempts t) as [[[[]|e] t'] es]; cbn in *; each_write.
Qed.

Lemma lane_writes (P : Task -> Prop) w t liveRoom b :
  (forall t0 fresh r t', accepts (tw_schedule w) fresh -> decide_schedule now ArmRetry t0 fresh = Change r t' -> P t') ->
  (forall t0 fresh r t', accepts (tw_schedule w) fresh -> decide_schedule now RescheduleRetry t0 fresh = Change r t' ->
     P t') ->
  (forall t0 fresh r t', accepts (es_repark (tw_exhaust w)) fresh -> decide_exhaustion now t0 fresh = Change r t' -> P t') ->
  all_writes P (snd (ln_step (driveRetryLane toLower parse m scmFor proj now w t liveRoom b))).
Proof.
  intros Harm Hres Hexh.
  assert (forall t0, all_writes P (snd (escalateExhaustedRetry toLower parse m (tw_exhaust w) proj now t0))) as Hesc.
  { intros t0. by apply escalate_writes. }
  assert (forall t0 reason, all_writes P (snd (chargeNextRetryLap m now (tw_schedule w) t0 reason))) as Hch.
  { intros t0 reason. apply charge_writes. intros fresh r t'. apply Harm. }
  assert (forall reason, all_writes P (snd (reschedule_for_room m now w t reason))) as Hre.
  { intros reason. unfold reschedule_for_room, rescheduleRetryPark.
    pose proof (schedule_writes P RescheduleRetry (tw_schedule w) t (Hres t)) as Hw.
    destruct (writeRetryPark _ _ _ _) as [[[[]|e] t'] es]; cbn in *; each_write. }
  assert (forall b before, all_writes P before ->
           all_writes P (snd (ln_step (act_on_blocker toLower parse m scmFor proj now w t liveRoom b before)))) as Hact.
  { intros b0 before Hb. unfold act_on_blocker. destruct (retryBlockerStanding _ _ _ _) as [[]|e]; cbn; [| |each_write].
    - pose proof (Hesc t) as He. pose proof (Hch t (ParkReason (Status t))) as Hc.
      destruct (MaxUnparkRetries <=? _).
      + destruct (escalateExhaustedRetry _ _ _ _ _ _ _) as [[e t'] es]. cbn in *. each_write.
      + destruct (chargeNextRetryLap _ _ _ _ _) as [[e t'] es]. cbn in *. each_write.
    - pose proof (Hre (ParkReason (Status t))) as Hr. destruct (_ && negb liveRoom).
      + destruct (reschedule_for_room _ _ _ _ _) as [[e t'] es]. cbn in *. each_write.
      + cbn. each_write. }
  unfold driveRetryLane. destruct (is_set _).
  - destruct (negb (RetryDue t now)); [cbn; each_write|]. destruct (_ && _ && _); [cbn; each_write|].
    destruct (retryBlockerProbed _ _); [|apply Hact; constructor].
    destruct (take b) as [[] b']; cbn; [apply Hact; each_write|each_write].
  - destruct (_ && _); [apply Hesc|]. destruct (_ && _); [cbn; each_write|apply Hch].
Qed.

Lemma apply_writes w t active maxOpen room :
  all_writes (by_an_operation (accepts (aw_write w))) (snd (ApplyUnpark proj now wall wall' w t active maxOpen room)).
Proof.
  unfold ApplyUnpark. destruct (loadTaskIssues _ _) as [issues|]; [|constructor].
  destruct (LoadTaskMRsFor _ _) as [mrs|]; [|constructor].
  destruct (cas _ _) as [r|r t'|e] eqn:E; cbn [snd]; try constructor; [|constructor].
  apply cas_wrote in E as (f & Hin & Hd). by eapply unpark_operates.
Qed.

Lemma unpark_then_writes w maxOpen liveRoom s t :
  all_writes (by_an_operation (turn_reads w))
    (tn_effects (unpark_then toLower parse m proj now wall wall' w maxOpen liveRoom s t)).
Proof.
  unfold unpark_then. pose proof (apply_writes (tw_apply w) t (up_active s) maxOpen liveRoom) as Ha.
  apply (writes_mono _ (by_an_operation (turn_reads w))) in Ha.
  2: { intros t'. apply operation_mono. intros f Hf. right. right. by left. }
  destruct (ApplyUnpark _ _ _ _ _ _ _ _ _) as [[[[unparked decline]|e] t'] es]; cbn [snd] in Ha; [|exact Ha].
  destruct (_ && LaneStranded t').
  - assert (all_writes (by_an_operation (turn_reads w))
              (snd (escalateExhaustedRetry toLower parse m (tw_strand w) proj now t'))) as Hesc.
    { apply escalate_writes. intros t1 fresh r t2 Hf. apply exhaustion_operates. right. right. by right. }
    destruct (escalateExhaustedRetry _ _ _ _ _ _ t') as [[e t2] es']. cbn [tn_effects turn snd] in *. each_write.
  - cbn [tn_effects turn]. each_write.
Qed.

Lemma unpark_turn_writes world maxOpen s t :
  all_writes (by_an_operation (turn_reads (world t)))
    (tn_effects (unpark_turn toLower parse m scmFor proj now wall wall' world maxOpen s t)).
Proof.
  unfold unpark_turn. destruct (negb _); [constructor|].
  destruct (class_is _ UnparkRetry); [|apply unpark_then_writes].
  set (room := _ && _).
  assert (all_writes (by_an_operation (turn_reads (world t)))
    (snd (ln_step (driveRetryLane toLower parse m scmFor proj now (world t) t room (up_reads s))))) as Hl.
  { apply lane_writes; intros t0 fresh r t' Hf.
    - apply (schedule_operates _ now OpArmRetry); [apply arm_operates|by left].
    - apply (schedule_operates _ now OpRescheduleRetry); [apply reschedule_operates|by left].
    - apply exhaustion_operates. right. by left. }
  destruct (driveRetryLane _ _ _ _ _ _ _ _ _ _) as [h [[e t'] es] b]. cbn [ln_step ln_handled ln_budget snd] in *.
  destruct (is_set e || h); [exact Hl|]. cbn [tn_effects turn]. apply writes_app; [exact Hl|].
  apply unpark_then_writes.
Qed.

End Writes.

Lemma stamped_writes (reads : Task -> Prop) w t kvs over release (o : op) :
  (forall fresh t2, release fresh = Ok t2 ->
     ParkReason (Status fresh) <> ""%string /\ t2 = exec o fresh /\ State (Status t2) = State (Status fresh)) ->
  (forall fresh, accepts (sw_write w) fresh -> reads fresh) ->
  all_writes (by_an_operation reads)
    (snd (stamp_then w t kvs (fun t1 => applied t1 (cas (decide_release (over t1) release) (sw_write w))))).
Proof.
  intros Ho Hr. apply stamp_then_writes. intros t1. apply applied_writes. intros fresh r t' Hf.
  apply (release_operates _ _ _ o); [intros t2; apply Ho|by apply Hr].
Qed.

Lemma retired_turn_writes m proj now wall world s t :
  all_writes (by_an_operation (accepts (sw_write (world t)))) (tn_effects (retired_turn m proj now wall world s t)).
Proof.
  unfold retired_turn. destruct (_ || _); [constructor|].
  pose proof (stamped_writes (accepts (sw_write (world t))) (world t) t [(AnnRetiredParkMigrated, stamp_instant now)]
    park_moved (fun fresh => UnparkRetiredPark fresh now wall) (OpRetiredPark now wall)
    (fun f t2 => retired_operates now wall f t2) (fun _ H => H)) as H.
  unfold applyRetiredUnpark. destruct (stamp_then _ _ _ _) as [e es]. cbn [tn_effects turn snd] in *. each_write.
Qed.

Lemma migrate_turn_writes proj now world s t :
  all_writes (by_an_operation (accepts (sw_write (world t)))) (tn_effects (migrate_turn proj now world s t)).
Proof.
  unfold migrate_turn. destruct (negb _); [constructor|]. destruct (tbl _ _) as [to|]; [|constructor].
  destruct (_ <=? s); [constructor|]. destruct (_ || _); [constructor|].
  pose proof (stamped_writes (accepts (sw_write (world t))) (world t) t [(AnnRetryLaneMigrated, stamp_instant now)]
    park_moved (fun fresh => migrate fresh to now) (OpMigrate to now)
    (fun f t2 => migrate_operates to now f t2) (fun _ H => H)) as H.
  unfold applyRetryLaneMigration. destruct (stamp_then _ _ _ _) as [e es]. exact H.
Qed.

Lemma recovery_turn_writes m proj now wall world mrsOf s t :
  all_writes (by_an_operation (accepts (sw_write (world t)))) (tn_effects (recovery_turn m proj now wall world mrsOf s t)).
Proof.
  unfold recovery_turn. destruct (_ || _); [constructor|]. destruct (LoadTaskMRsFor _ _) as [mrs|]; [|constructor].
  destruct (negb _); [constructor|]. destruct (_ && _); [constructor|]. destruct (_ <=? _); [constructor|].
  pose proof (stamped_writes (accepts (sw_write (world t))) (world t) t (recovery_stamps t (snd (CIDeclineEvidence mrs)))
    (fun _ fresh => negb (Parked fresh) || negb (ciRecoverablePark (ParkReason (Status fresh))))
    (fun fresh => UnparkCIRecovered fresh now wall) (OpCIRecovered now wall)
    (fun f t2 => recovery_operates now wall f t2) (fun _ H => H)) as H.
  unfold applyCIRecoveryUnpark. destruct (stamp_then _ _ _ _) as [e es]. cbn [snd] in H.
  destruct (is_set e); cbn [tn_effects turn]; each_write.
Qed.


(** C18: the un-park drivers refine the life of a Task.  Whatever a round of the four
    drivers writes to a Task is what one operation of internal/stage makes of a read the
    write was accepted against, of a Task that is parked, and none of them moves its state;
    so from reachable Tasks they only write reachable ones. *)
Theorem drivers_refine_lifecycle toLower parse (m scmFor : bool) (proj : Project) (now wall wall' : Time)
    (interval : Duration) (last : gmap string Time) (w : RoundWorld) (t' : Task) :
  In (WriteStatus t') (snd (driveUnparksPaced toLower parse m scmFor proj now wall wall' interval last w)) ->
  by_an_operation (round_reads w) t' /\ ((forall f, round_reads w f -> reachable f) -> reachable t').
Proof.
  intros Hin.
  assert (all_writes (by_an_operation (round_reads w))
            (snd (drive_round toLower parse m scmFor proj now wall wall' w))) as Hw.
  { apply drive_all_writes. repeat (apply Forall_cons; split); try apply Forall_nil; cbn [snd]; try done.
    - unfold driveUnparks. destruct (rw_tasks w) as [l|]; [|constructor].
      destruct (activeTaskCount _ _) as [n|]; [|constructor]. destruct (sweep _ _ _ _ _) as [[e s'] es] eqn:E. cbn.
      eapply sweep_writes_of; [|exact E]. intros s t. eapply writes_mono; [|apply unpark_turn_writes].
      intros t0 H0. eapply operation_mono; [|exact H0]. intros f Hf. exists t. by left.
    - unfold driveRetiredUnparks. destruct (rw_retired_tasks w) as [l|]; [|constructor].
      destruct (sweep _ _ _ _ _) as [[e s'] es] eqn:E. cbn.
      eapply sweep_writes_of; [|exact E]. intros s t. eapply writes_mono; [|apply retired_turn_writes].
      intros t0 H0. eapply operation_mono; [|exact H0]. intros f Hf. exists t. auto.
    - unfold driveRetryLaneMigration. destruct (rw_migrate_tasks w) as [l|]; [|constructor].
      destruct (sweep _ _ _ _ _) as [[e s'] es] eqn:E. cbn.
      eapply sweep_writes_of; [|exact E]. intros s t. eapply writes_mono; [|apply migrate_turn_writes].
      intros t0 H0. eapply operation_mono; [|exact H0]. intros f Hf. exists t. auto.
    - unfold driveCIRecoveryUnparks. destruct (rw_recovery_tasks w) as [l|]; [|constructor].
      destruct (sweep _ _ _ _ _) as [[e s'] es] eqn:E. cbn.
      eapply sweep_writes_of; [|exact E]. intros s t. eapply writes_mono; [|apply recovery_turn_writes].
      intros t0 H0. eapply operation_mono; [|exact H0]. intros f Hf. exists t. auto. }
  assert (by_an_operation (round_reads w) t') as Ho.
  { unfold driveUnparksPaced in Hin. destruct (drive_round _ _ _ _ _ _ _ _ w) as [[e|] es]; cbn [snd] in Hw.
    all: destruct (last !! proj_Name proj); [destruct (_ <? _)|]; cbn in Hin; try done.
    all: unfold all_writes in Hw; rewrite List.Forall_forall in Hw; exact (Hw _ Hin). }
  split; [exact Ho|]. intros Hr. destruct Ho as (o & f & Hf & _ & -> & _).
  destruct (Hr f Hf) as (t0 & Hc & Hs). exists t0. split; [done|]. eapply rtc_r; [exact Hs|]. constructor.
Qed.

(** ** Lemmas: counting *)

Lemma tally_app f es es' : tally_of f (es ++ es') = tally_of f es + tally_of f es'.
Proof. unfold tally_of. rewrite List.filter_app, length_app. lia. Qed.

Lemma tally_nil f : tally_of f [] = 0.
Proof. done. Qed.

Lemma tally_nonneg f es : 0 <= tally_of f es.
Proof. unfold tally_of. lia. Qed.

Lemma tally_none f es : Forall (fun e => f e = false) es -> tally_of f es = 0.
Proof. unfold tally_of. induction 1 as [|e es He Hes IH]; cbn; [done|]. by rewrite He. Qed.

(** Nothing that is still parked is a release. *)
Lemma parked_releases_none es : all_writes (fun t => Parked t = true) es -> tally_of releases_live es = 0.
Proof. intros H. apply tally_none. eapply Forall_impl; [exact H|]. intros [] Hp; cbn in *; try done. by rewrite Hp. Qed.

(** A pass spends what its turns spend. *)
Lemma sweep_spends {S} (I : S -> Prop) (f : S -> Z) (g : DriveEffect -> bool) (extra : Task -> bool)
    (cancelled : Task -> bool) (visit : S -> Task -> Turn S) l : forall s first e s' es,
  (forall s t, In t l -> I s -> I (tn_state (visit s t))
     /\ tally_of g (tn_effects (visit s t)) + f (tn_state (visit s t)) <= f s + (if extra t then 1 else 0)) ->
  I s -> sweep cancelled visit s first l = (e, s', es) ->
  I s' /\ tally_of g es + f s' <= f s + Z.of_nat (List.length (List.filter extra l)).
Proof.
  induction l as [|t l IH]; intros s first e s' es H HI; cbn [sweep].
  - intros [= <- <- <-]. split; [done|]. unfold tally_of. cbn [List.filter List.length]. lia.
  - destruct (cancelled t); [intros [= <- <- <-]; split; [done|]; unfold tally_of; cbn [List.filter List.length]; lia|].
    destruct (H s t (or_introl eq_refl) HI) as [H1 H2].
    assert (Z.of_nat (List.length (List.filter extra (t :: l)))
            = (if extra t then 1 else 0) + Z.of_nat (List.length (List.filter extra l))) as ->.
    { cbn [List.filter]. destruct (extra t); cbn [List.length]; lia. }
    destruct (tn_stop (visit s t)); [intros [= <- <- <-]; split; [done|lia]|].
    destruct (sweep _ _ (tn_state (visit s t)) _ l) as [[e1 s1] es1] eqn:E. intros [= <- <- <-].
    eapply IH in E; [|intros s0 t0 Hin; apply H; by right|done]. rewrite tally_app. destruct E. split; [done|lia].
Qed.

(** ** Lemmas: what a release needs *)

Lemma Unpark_without_room inp wall wall' :
  in_LiveHasRoom inp = false -> Live (State (Status (in_Task inp))) = true ->
  fst (Unpark inp wall wall') = DeclineNone -> asks_no_room (ParkReason (Status (in_Task inp))) = true.
Proof.
  intros Hroom Hlive Hd.
  assert (fst (unparkRule inp wall) = DeclineNone) as Hr.
  { unfold Unpark in Hd. destruct (unparkRule inp wall) as [d t]. destruct (String.eqb_spec d DeclineNone); [done|].
    exact Hd. }
  clear Hd. unfold unparkRule in Hr. destruct (_ == ""); [done|].
  assert (forall t t', fst (gate_room t inp t') = DeclineNone -> State (Status t) = State (Status (in_Task inp)) -> False) as Hg.
  { intros t t' H Hs. unfold gate_room, liveRoomDecline in H. rewrite Hs, Hlive, Hroom in H. done. }
  assert (fst (unpark_arm inp (now_or (in_Now inp) wall)) = DeclineNone) as Ha.
  { destruct (UnparkClassFor _) as [[]|]; try done; by destruct (_ && _). }
  clear Hr. unfold unpark_arm in Ha. unfold asks_no_room.
  destruct (_ == ReasonBacklogSweep); [done|]. cbn [orb].
  destruct (_ || (_ == ReasonMRSurfaceSpent)).
  { destruct (negb _); [done|]. by destruct (Hg _ _ Ha). }
  destruct (_ || (_ == ReasonRetryExhausted)).
  { unfold unpark_awaiting_human in Ha. destruct (_ == kindReview).
    - destruct (anyMerged _); [done|]. destruct (negb _); [destruct (_ <=? _); [done|]|]; by destruct (Hg _ _ Ha).
    - destruct (openIssues _) as [|i l]; [destruct (openMRs _); [done|]|]; by destruct (Hg _ _ Ha). }
  destruct (_ == ReasonIdentityUnverified).
  { unfold unpark_identity_unverified, liveRoomDecline in Ha. rewrite Hlive, Hroom in Ha. done. }
  destruct (_ == ReasonHandoffStalled).
  { destruct (anyMerged _); [done|]. destruct (_ <=? _); [done|]. by destruct (Hg _ _ Ha). }
  destruct (_ == ReasonMergeTimeout); [done|]. destruct (_ == ReasonDeployTimeout); [done|].
  destruct (_ == ReasonNoOutcome); [|done]. destruct (_ && _); [done|]. destruct (anyMerged _); [done|].
  by destruct (Hg _ _ Ha).
Qed.

(** The operations that leave a Task parked. *)
Lemma scheduled_parked now apply t fresh r t' :
  (forall t1 t2, apply t1 now = Ok t2 -> ParkReason (Status t1) <> ""%string
                                         /\ ParkReason (Status t2) = ParkReason (Status t1)) ->
  decide_schedule now apply t fresh = Change r t' -> Parked t' = true.
Proof.
  intros Ha. unfold decide_schedule. destruct (_ || _); [done|].
  destruct (apply fresh now) as [t2|] eqn:E; [|done]. intros [= _ <-]. apply parked_spec.
  destruct (Ha _ _ E) as [Hp ->]. exact Hp.
Qed.

Lemma arm_parked now t1 t2 :
  ArmRetry t1 now = Ok t2 -> ParkReason (Status t1) <> ""%string /\ ParkReason (Status t2) = ParkReason (Status t1).
Proof.
  unfold ArmRetry. destruct (String.eqb_spec (ParkReason (Status t1)) ""); [done|].
  destruct (class_is _ _); [|done]. intros [= <-]. by destruct (_ != _).
Qed.

Lemma reschedule_parked now t1 t2 :
  RescheduleRetry t1 now = Ok t2 ->
  ParkReason (Status t1) <> ""%string /\ ParkReason (Status t2) = ParkReason (Status t1).
Proof.
  unfold RescheduleRetry. destruct (String.eqb_spec (ParkReason (Status t1)) ""); [done|].
  destruct (class_is _ _); [|done]. by intros [= <-].
Qed.

Lemma exhausted_reason t now : ParkReason (Status (repark t ReasonRetryExhausted now)) = ReasonRetryExhausted.
Proof. by apply repark_frame. Qed.

Lemma exhaustion_reason now t fresh r t' :
  decide_exhaustion now t fresh = Change r t' -> ParkReason (Status t') = ReasonRetryExhausted.
Proof.
  unfold decide_exhaustion, endRetryLane, StrandRetryLane, ExhaustRetry. destruct (_ != _); [done|].
  destruct (LaneStranded fresh); cbn [negb]; [intros [= _ <-]; apply exhausted_reason|].
  destruct (_ == ""); [done|]. destruct (class_is _ _); [|done]. intros [= _ <-]. apply exhausted_reason.
Qed.

Lemma exhaustion_parked now t fresh r t' : decide_exhaustion now t fresh = Change r t' -> Parked t' = true.
Proof. intros H. apply parked_spec. by rewrite (exhaustion_reason _ _ _ _ _ H). Qed.

Section Counting.

#[local] Set Default Proof Using "All".

Context (toLower : string -> string) (parse : string -> option string).
Context (m scmFor : bool) (proj : Project) (now wall wall' : Time).

Lemma escalate_parked w t :
  all_writes (fun t => Parked t = true) (snd (escalateExhaustedRetry toLower parse m w proj now t)).
Proof. eapply escalate_writes; eauto using exhaustion_parked. Qed.

Lemma lane_parked w t liveRoom b :
  all_writes (fun t => Parked t = true)
    (snd (ln_step (driveRetryLane toLower parse m scmFor proj now w t liveRoom b))).
Proof.
  eapply lane_writes; eauto using exhaustion_parked; intros t0 fresh r t' _; apply scheduled_parked;
    [apply arm_parked|apply reschedule_parked].
Qed.

(** The room of a pass after one un-park, and what it released. *)
Lemma apply_spends w t active maxOpen liveRoom r t' es :
  (forall fresh, accepts (aw_write w) fresh -> State (Status fresh) = State (Status t)) ->
  ApplyUnpark proj now wall wall' w t active maxOpen liveRoom = (Ok r, t', es) ->
  tally_of releases_live es <= (if fst r && Live (State (Status t)) then 1 else 0)
  /\ (liveRoom = false -> asks_no_room (ParkReason (Status t)) = false -> tally_of releases_live es = 0).
Proof.
  intros Hst. unfold ApplyUnpark. destruct (loadTaskIssues _ _) as [issues|]; [|done].
  destruct (LoadTaskMRsFor _ _) as [mrs|]; [|done].
  destruct (cas _ _) as [r'|r' o|e] eqn:E; [| |done].
  { intros [= <- <- <-]. destruct (_ && _); cbn; done. }
  intros [= <- <- <-]. apply cas_wrote in E as (f & Hin & Hd). specialize (Hst f Hin).
  unfold decide_unpark in Hd. destruct (negb (Parked f)); [done|]. cbn [orb] in Hd.
  destruct (String.eqb_spec (ParkReason (Status f)) (ParkReason (Status t))) as [Hr|]; [|done]. cbn [negb] in Hd.
  set (inp := mkUnparkInput _ _ _ _ _ _ _ _) in Hd. pose proof (Unpark_keeps_state inp wall wall') as Hk.
  pose proof (Unpark_without_room inp wall wall') as Hn.
  destruct (Unpark_answer inp wall wall') as (t1 & Ha & Ht).
  destruct (Unpark inp wall wall') as [code o'] eqn:EU. cbn [fst snd in_Task in_LiveHasRoom inp] in *.
  destruct (_ && _) eqn:Ec; [done|]. injection Hd as <- <-. cbn [fst].
  unfold tally_of. cbn [List.filter releases_live]. rewrite Hk, Hst.
  destruct (String.eqb_spec code DeclineNone) as [->|Hne]; cbn [andb].
  - destruct (Live (State (Status t))) eqn:Hl; [|rewrite andb_false_r; cbn; done].
    split; [destruct (negb (Parked o') && true); cbn; lia|]. intros -> Hx. rewrite Hst, Hr, Hx in Hn.
    specialize (Hn eq_refl Hl eq_refl). discriminate.
  - cbn [negb andb] in Ec. apply negb_false_iff, String.eqb_eq in Ec. subst code.
    assert (Parked o' = true) as ->; [|cbn; done].
    cbn in Ht. subst o'. inversion Ha as [d' Hd' E'|r0 Hr0 E'|t0 Hs E']; subst.
    + apply parked_spec. cbn. rewrite Hr. intros E0. unfold Unpark, unparkRule in EU. cbn in EU. rewrite Hr, E0 in EU. done.
    + apply parked_spec. destruct (repark_frame f r0 (now_or now wall)) as (_ & _ & _ & _ & _ & Hp).
      rewrite Hp; by in_cases Hr0.
Qed.

(** What follows the probe reads no blocker. *)
Lemma count_probes e : is_probe e = false -> tally_of is_probe (count m e) = 0.
Proof. intros H. unfold count. destruct m; [|done]. unfold tally_of. cbn. by rewrite H. Qed.

Ltac no_probes :=
  cbn [snd fst ln_step handled ln_budget]; rewrite ?tally_app, ?count_probes by reflexivity;
  repeat match goal with |- context [tally_of is_probe (if ?b then _ else _)] => destruct b end;
  rewrite ?count_probes by reflexivity; rewrite ?tally_nil; try reflexivity.

Lemma escalate_probes w t : tally_of is_probe (snd (escalateExhaustedRetry toLower parse m w proj now t)) = 0.
Proof.
  unfold escalateExhaustedRetry.
  assert (forall t1 u es, announce toLower parse w proj now t = Ok (t1, u, es) -> tally_of is_probe es = 0) as Ha.
  { unfold announce, stampRetryExhaustedCommented. intros t1 u es. destruct (_ == _); [by intros [= <- <- <-]|].
    destruct (exhaustedRetryTarget _ _ _ _ _) as [[ref|]|]; [|by intros [= <- <- <-]|done].
    destruct (negb _); [by intros [= <- <- <-]|]. destruct (es_latch w); by intros [= <- <- <-]. }
  destruct (announce _ _ _ _ _ t) as [[[t1 unlatched] es]|e]; [|done]. specialize (Ha _ _ _ eq_refl).
  unfold applyRetryExhaustion, applied, stampRetryExhaustedCommented.
  destruct (cas _ _) as [[e|]|r o|e]; cbn [option_map];
    try (destruct unlatched; [destruct (es_relatch w)|]); rewrite ?tally_app; no_probes; by rewrite Ha.
Qed.

Lemma schedule_probes apply attempts t : tally_of is_probe (snd (writeRetryPark now apply attempts t)) = 0.
Proof. unfold writeRetryPark. by destruct (cas _ _) as [[]| |]. Qed.

Lemma charge_probes attempts t reason : tally_of is_probe (snd (chargeNextRetryLap m now attempts t reason)) = 0.
Proof.
  unfold chargeNextRetryLap, armRetryPark. pose proof (schedule_probes ArmRetry attempts t) as H.
  destruct (writeRetryPark now ArmRetry attempts t) as [[[[]|e] t'] es]; no_probes; exact H || (cbn in H; by rewrite H).
Qed.

Lemma room_probes w t reason : tally_of is_probe (snd (reschedule_for_room m now w t reason)) = 0.
Proof.
  unfold reschedule_for_room, rescheduleRetryPark. pose proof (schedule_probes RescheduleRetry (tw_schedule w) t) as H.
  destruct (writeRetryPark now RescheduleRetry (tw_schedule w) t) as [[[[]|e] t'] es]; no_probes; exact H || (cbn in H; by rewrite H).
Qed.

Lemma act_probes w t liveRoom b before :
  ln_budget (act_on_blocker toLower parse m scmFor proj now w t liveRoom b before) = b
  /\ tally_of is_probe (snd (ln_step (act_on_blocker toLower parse m scmFor proj now w t liveRoom b before)))
     = tally_of is_probe before.
Proof.
  unfold act_on_blocker. pose proof (escalate_probes (tw_exhaust w) t) as He.
  pose proof (charge_probes (tw_schedule w) t (ParkReason (Status t))) as Hc.
  pose proof (room_probes w t (ParkReason (Status t))) as Hr.
  destruct (retryBlockerStanding _ _ _ _) as [[]|e].
  - destruct (MaxUnparkRetries <=? _).
    + destruct (escalateExhaustedRetry _ _ _ _ _ _ _) as [[e t'] es]. split; [done|]. no_probes. cbn in He. lia.
    + destruct (chargeNextRetryLap _ _ _ _ _) as [[e t'] es]. split; [done|]. no_probes. cbn in Hc. lia.
  - destruct (_ && negb liveRoom).
    + destruct (reschedule_for_room _ _ _ _ _) as [[e t'] es]. split; [done|]. cbn in Hr. no_probes; lia.
    + split; [done|]. no_probes; lia.
  - split; [done|]. no_probes; lia.
Qed.

Lemma lane_probes w t liveRoom b :
  0 <= remaining b ->
  let l := driveRetryLane toLower parse m scmFor proj now w t liveRoom b in
  0 <= remaining (ln_budget l) /\ tally_of is_probe (snd (ln_step l)) + remaining (ln_budget l) <= remaining b.
Proof.
  intros Hb. cbv zeta. unfold driveRetryLane. destruct (is_set _).
  - destruct (negb (RetryDue t now)); [split; [done|]; no_probes; lia|].
    destruct (_ && _ && _); [split; [done|]; no_probes; lia|].
    destruct (retryBlockerProbed _ _).
    + unfold take. destruct (Z.leb_spec (remaining b) 0); cbn [negb].
      * split; [done|]. no_probes; cbn [remaining]; lia.
      * destruct (act_probes w t liveRoom (mkReadBudget (remaining b - 1) (deferred b))
                    [ProbeBlocker (task_Name t) (ParkReason (Status t))]) as [-> ->].
        unfold tally_of. cbn. lia.
    + destruct (act_probes w t liveRoom b []) as [-> ->]. rewrite tally_nil. lia.
  - destruct (_ && _); [split; [done|]; cbn [ln_step handled ln_budget]; rewrite escalate_probes; lia|].
    destruct (_ && _); [split; [done|]; no_probes; lia|].
    split; [done|]. cbn [ln_step handled ln_budget]. rewrite charge_probes. lia.
Qed.

(** A Task the lane hands over is the one it was given. *)
Lemma lane_hands_over w t liveRoom b :
  ln_handled (driveRetryLane toLower parse m scmFor proj now w t liveRoom b) = false ->
  snd (fst (ln_step (driveRetryLane toLower parse m scmFor proj now w t liveRoom b))) = t.
Proof.
  assert (forall b0 before, ln_handled (act_on_blocker toLower parse m scmFor proj now w t liveRoom b0 before) = false ->
            snd (fst (ln_step (act_on_blocker toLower parse m scmFor proj now w t liveRoom b0 before))) = t) as Ha.
  { intros b0 before. unfold act_on_blocker. destruct (retryBlockerStanding _ _ _ _) as [[]|e]; [| |done].
    - by destruct (if MaxUnparkRetries <=? _ then _ else _) as [[e t'] es].
    - destruct (_ && negb liveRoom); [|done]. by destruct (reschedule_for_room _ _ _ _ _) as [[e t'] es]. }
  unfold driveRetryLane. destruct (is_set _); [|by destruct (_ && _); [|destruct (_ && _)]].
  destruct (negb (RetryDue t now)); [done|]. destruct (_ && _ && _); [done|].
  destruct (retryBlockerProbed _ _); [|apply Ha]. destruct (take b) as [[] b']; [apply Ha|done].
Qed.

Definition spends_room (s : UnparkPass) (t : Task) (r : Turn UnparkPass) : Prop :=
  0 <= up_room (tn_state r)
  /\ tally_of releases_live (tn_effects r) + up_room (tn_state r) <= up_room s + (if roomless proj t then 1 else 0).

Lemma count_releases e : (forall t, e <> WriteStatus t) -> tally_of releases_live (count m e) = 0.
Proof. intros H. apply parked_releases_none. by apply writes_count. Qed.

Lemma unpark_then_spends w maxOpen s t :
  (forall fresh, accepts (aw_write (tw_apply w)) fresh -> State (Status fresh) = State (Status t)) ->
  ours proj t = true -> 0 <= up_room s ->
  spends_room s t (unpark_then toLower parse m proj now wall wall' w maxOpen
                     (NeedsLiveRoom (ParkReason (Status t)) && (0 <? up_room s)) s t).
Proof.
  intros Hst Ho Hs. unfold spends_room, unpark_then. set (room := _ && (0 <? up_room s)).
  destruct (ApplyUnpark _ _ _ _ _ _ _ _ _) as [[[[unparked decline]|e] t'] es] eqn:E.
  2: { unfold ApplyUnpark in E. cbn [tn_state tn_effects turn].
       destruct (loadTaskIssues _ _) as [issues|]; [|injection E as <- <- <-; rewrite tally_nil; destruct (roomless _ _); lia].
       destruct (LoadTaskMRsFor _ _) as [mrs|]; [|injection E as <- <- <-; rewrite tally_nil; destruct (roomless _ _); lia].
       destruct (cas _ _); try done. injection E as <- <- <-. rewrite tally_nil. destruct (roomless _ _); lia. }
  destruct (apply_spends _ _ _ _ _ _ _ _ Hst E) as [H1 H2]. cbn [fst] in H1.
  set (room' := if _ && _ && _ then _ else _).
  assert (0 <= room' /\ tally_of releases_live es + room' <= up_room s + (if roomless proj t then 1 else 0)) as Hr.
  { subst room'. unfold roomless. rewrite Ho. cbn [andb].
    destruct (unparked && Live (State (Status t))) eqn:El; cbn [andb].
    - apply andb_true_iff in El as [-> ->]. cbn [andb]. destruct (Z.ltb_spec 0 (up_room s)); [destruct (asks_no_room _); lia|].
      subst room. rewrite andb_false_r in H2.
      destruct (asks_no_room _); [lia|]. rewrite H2 by done. lia.
    - destruct (Live _ && asks_no_room _); lia. }
  destruct (_ && LaneStranded t').
  - pose proof (parked_releases_none _ (escalate_parked (tw_strand w) t')) as He.
    destruct (escalateExhaustedRetry _ _ _ _ _ _ t') as [[e t2] es']. cbn [tn_state tn_effects turn up_room snd] in *.
    rewrite !tally_app, He. destruct (decline != _); rewrite ?count_releases, ?tally_nil by discriminate; lia.
  - cbn [tn_state tn_effects turn up_room] in *.
    rewrite tally_app. destruct (decline != _); rewrite ?count_releases, ?tally_nil by discriminate; lia.
Qed.

Lemma unpark_turn_spends world maxOpen s t :
  (forall fresh, accepts (aw_write (tw_apply (world t))) fresh -> State (Status fresh) = State (Status t)) ->
  0 <= up_room s ->
  spends_room s t (unpark_turn toLower parse m scmFor proj now wall wall' world maxOpen s t).
Proof.
  intros Hst Hs. unfold unpark_turn. destruct (ours proj t) eqn:Ho; cbn [negb].
  2: { unfold spends_room. cbn [tn_state tn_effects turn]. rewrite tally_nil. destruct (roomless _ _); lia. }
  destruct (class_is _ UnparkRetry); [|by apply unpark_then_spends].
  set (room := _ && _). pose proof (parked_releases_none _ (lane_parked (world t) t room (up_reads s))) as Hl.
  pose proof (lane_hands_over (world t) t room (up_reads s)) as Ht.
  destruct (driveRetryLane _ _ _ _ _ _ _ _ _ _) as [h [[e t'] es] b]. cbn [ln_step ln_handled ln_budget snd fst] in *.
  destruct (is_set e || h) eqn:Eh.
  { unfold spends_room. cbn [tn_state tn_effects turn up_room]. rewrite Hl. destruct (roomless _ _); lia. }
  apply orb_false_iff in Eh as [_ ->]. rewrite Ht by done.
  pose proof (unpark_then_spends (world t) maxOpen (mkUnparkPass (up_room s) (up_active s) b) t Hst Ho Hs) as [H1 H2].
  unfold spends_room. cbn [tn_state tn_effects turn up_room] in *. rewrite tally_app, Hl. split; [exact H1|]. exact H2.
Qed.

Lemma apply_probes w t active maxOpen room :
  tally_of is_probe (snd (ApplyUnpark proj now wall wall' w t active maxOpen room)) = 0.
Proof.
  unfold ApplyUnpark. destruct (loadTaskIssues _ _); [|done]. destruct (LoadTaskMRsFor _ _); [|done]. by destruct (cas _ _).
Qed.

Lemma unpark_turn_probes world maxOpen s t :
  0 <= remaining (up_reads s) ->
  let r := unpark_turn toLower parse m scmFor proj now wall wall' world maxOpen s t in
  0 <= remaining (up_reads (tn_state r))
  /\ tally_of is_probe (tn_effects r) + remaining (up_reads (tn_state r)) <= remaining (up_reads s).
Proof.
  intros Hs. cbv zeta.
  assert (forall liveRoom s0 t0,
    up_reads (tn_state (unpark_then toLower parse m proj now wall wall' (world t) maxOpen liveRoom s0 t0)) = up_reads s0
    /\ tally_of is_probe (tn_effects (unpark_then toLower parse m proj now wall wall' (world t) maxOpen liveRoom s0 t0)) = 0)
    as Hthen.
  { intros liveRoom s0 t0. unfold unpark_then. pose proof (apply_probes (tw_apply (world t)) t0 (up_active s0) maxOpen liveRoom) as Ha.
    destruct (ApplyUnpark _ _ _ _ _ _ _ _ _) as [[[[unparked decline]|e] t'] es]; cbn [snd] in Ha; [|by split].
    destruct (_ && LaneStranded t').
    - pose proof (escalate_probes (tw_strand (world t)) t') as He.
      destruct (escalateExhaustedRetry _ _ _ _ _ _ t') as [[e t2] es']. cbn [tn_state tn_effects turn up_reads snd] in *.
      split; [done|]. no_probes; lia.
    - cbn [tn_state tn_effects turn up_reads]. split; [done|]. no_probes; lia. }
  unfold unpark_turn. destruct (negb _); [cbn [tn_state tn_effects turn]; rewrite tally_nil; lia|].
  destruct (class_is _ UnparkRetry); [|edestruct Hthen as [-> ->]; lia].
  set (room := _ && _). pose proof (lane_probes (world t) t room (up_reads s) Hs) as Hl. cbv zeta in Hl.
  destruct (driveRetryLane _ _ _ _ _ _ _ _ _ _) as [h [[e t'] es] b]. cbn [ln_step ln_handled ln_budget snd fst] in *.
  destruct (is_set e || h); [exact Hl|]. cbn [tn_state tn_effects turn].
  edestruct Hthen as [-> Hp]. rewrite tally_app, Hp. cbn [up_reads]. lia.
Qed.

End Counting.

(** a pass over the parked Tasks stays within the project's ceiling and within its
    allowance of forge reads.  It brings back at most as many pods as the listing left
    slots, not counting the Tasks parked for one of the three reasons whose rule asks for
    no slot; it reads the blocker of at most two Tasks, whatever the backlog.  The reads it
    writes on must agree with the listing on the state of a parked Task. *)
Theorem unparks_within_the_room toLower parse (m scmFor : bool) (proj : Project) (now wall wall' : Time)
    (world : Task -> TurnWorld) (l : list Task) (active : IndexAnswer) (live : TaskListing) :
  (forall t fresh, In t l -> accepts (aw_write (tw_apply (world t))) fresh -> State (Status fresh) = State (Status t)) ->
  let es := snd (driveUnparks toLower parse m scmFor proj now wall wall' world (Some l) active live) in
  tally_of releases_live es <= room_left proj live + Z.of_nat (List.length (List.filter (roomless proj) l))
  /\ tally_of is_probe es <= 2.
Proof.
  intros Hst. cbv zeta. unfold driveUnparks. destruct (activeTaskCount _ _) as [n|].
  2: { cbn [snd]. rewrite !tally_nil. unfold room_left. destruct (countLive _ _); lia. }
  destruct (sweep _ _ _ _ _) as [[e s'] es] eqn:E. cbn [snd].
  assert (0 <= up_room (start_pass proj l n live) <= room_left proj live) as Hroom.
  { unfold start_pass, room_budget, room_left. cbn [up_room]. destruct (existsb _ l), (countLive _ _); lia. }
  split.
  - edestruct (sweep_spends (fun s => 0 <= up_room s) up_room releases_live (roomless proj)) as [H1 H2];
      [|apply Hroom|exact E|lia].
    intros s t Hin Hs. apply (unpark_turn_spends toLower parse m scmFor proj now wall wall' world (max_open proj) s t); auto.
  - edestruct (sweep_spends (fun s => 0 <= remaining (up_reads s)) (fun s => remaining (up_reads s)) is_probe
                 (fun _ => false)) as [H1 H2]; [| |exact E|].
    + intros s t Hin Hs. rewrite Z.add_0_r. by apply unpark_turn_probes.
    + unfold start_pass, maxRetryBlockerReadsPerPass. cbn. lia.
    + replace (List.filter (fun _ : Task => false) l) with (@nil Task) in H2 by (clear; by induction l).
      unfold start_pass, maxRetryBlockerReadsPerPass in H2. cbn in H1, H2. lia.
Qed.

(** ** Lemmas: the lane of one Task *)

Lemma sameRetrySchedule_refl t : sameRetrySchedule t t = true.
Proof. unfold sameRetrySchedule. destruct (RetryNextAt _); [apply Z.eqb_refl|done]. Qed.

(** Arming, on a blocker with [n] attempts spent. *)
Lemma ArmRetry_armed t now n :
  class_is (ParkReason (Status t)) UnparkRetry = true ->
  n = (if RetryBlocker (Status t) == ParkReason (Status t) then RetryAttempts (Status t) else 0) -> 0 <= n < 100 ->
  exists t', ArmRetry t now = Ok t' /\ armed_at (ParkReason (Status t)) (n + 1) now t'
             /\ State (Status t') = State (Status t).
Proof.
  intros Hc Hn Hr. pose proof (ArmRetry_schedules t now) as H. pose proof (arm_operates now t) as Ho.
  unfold armed_at. destruct (ArmRetry t now) as [t'|e] eqn:E.
  - exists t'. split; [done|]. destruct (Ho _ eq_refl) as (_ & _ & Hs). destruct H as (_ & Hp & Hb & n' & Hn' & Ha & _).
    injection Hp as Hp _ _. split; [|done]. split; [done|]. split; [done|]. subst n'. rewrite <- Hn in Ha.
    rewrite Ha, i64_small by (unfold in_i64, two63; lia). split; [done|].
    replace (n + 1 - 1) with n by lia. unfold ArmRetry in E. rewrite Hc in E. destruct (_ == ""); [done|].
    injection E as <-. cbn [negb]. destruct (String.eqb_spec (RetryBlocker (Status t)) (ParkReason (Status t))); cbn in *; by subst n.
  - destruct H as [H|H]; [rewrite H in Hc; discriminate|]. apply class_spec in Hc. congruence.
Qed.

Section Steady.

Context (toLower : string -> string) (parse : string -> option string).
Context (m scmFor : bool) (proj : Project) (world : Task -> TurnWorld).
Context (Hw : steady toLower parse proj world).

Lemma charge_steady now t t' reason :
  ArmRetry t now = Ok t' -> snd (fst (chargeNextRetryLap m now (tw_schedule (world t)) t reason)) = t'.
Proof using Hw.
  intros H. unfold chargeNextRetryLap, armRetryPark, writeRetryPark. rewrite (steady_schedule _ _ _ _ Hw).
  unfold cas. cbn [firstn cas_loop at_fresh at_answer]. unfold decide_schedule.
  by rewrite String.eqb_refl, sameRetrySchedule_refl, H.
Qed.

Lemma escalate_steady now t :
  class_is (ParkReason (Status t)) UnparkRetry = true ->
  snd (fst (escalateExhaustedRetry toLower parse m (tw_exhaust (world t)) proj now t)) = repark t ReasonRetryExhausted now.
Proof using Hw.
  intros Hc. unfold escalateExhaustedRetry.
  assert (exists t1 u es, announce toLower parse (tw_exhaust (world t)) proj now t = Ok (t1, u, es)
                          /\ ParkReason (Status t1) = ParkReason (Status t)) as (t1 & u & es & -> & Hr).
  { unfold announce. destruct (_ == parkStamp t); [eauto|]. destruct (steady_target _ _ _ _ Hw t) as [[ref|] ->]; [|eauto].
    destruct (negb _); [eauto|]. unfold stampRetryExhaustedCommented.
    destruct (steady_latch _ _ _ _ Hw t) as [-> | ->]; eauto. }
  unfold applyRetryExhaustion. rewrite (steady_repark _ _ _ _ Hw).
  unfold cas. cbn [firstn cas_loop at_fresh at_answer]. unfold decide_exhaustion. rewrite Hr, String.eqb_refl. cbn [negb].
  unfold endRetryLane, ExhaustRetry.
  assert (LaneStranded t = false) as ->.
  { unfold LaneStranded. destruct (String.eqb_spec (ParkReason (Status t)) ReasonNoOutcome) as [E|]; [|done].
    rewrite E in Hc. discriminate. }
  rewrite Hc. destruct (String.eqb_spec (ParkReason (Status t)) "") as [E|]; [rewrite E in Hc; discriminate|]. done.
Qed.

Lemma probed_class reason : retryBlockerProbed scmFor reason = true -> class_is reason UnparkRetry = true.
Proof.
  unfold retryBlockerProbed. intros [_ [->%String.eqb_eq| ->%String.eqb_eq]%orb_true_iff]%andb_true_iff; reflexivity.
Qed.

(** A due pass over a blocker that still stands. *)
Lemma standing_pass now t :
  retryBlockerProbed scmFor (ParkReason (Status t)) = true ->
  retryBlockerStanding scmFor proj (tw_probe (world t)) t = Ok true ->
  is_set (RetryNextAt (Status t)) = true -> RetryDue t now = true ->
  lane_pass toLower parse m scmFor proj world now t
  = if MaxUnparkRetries <=? RetryAttempts (Status t) then repark t ReasonRetryExhausted now
    else snd (fst (chargeNextRetryLap m now (tw_schedule (world t)) t (ParkReason (Status t)))).
Proof using Hw.
  intros Hp Hs Ha Hd. unfold lane_pass, driveRetryLane. rewrite Ha, Hd, Hp. cbn [negb andb]. rewrite andb_false_r. cbn [andb].
  unfold take. cbn [remaining Z.leb Z.compare negb]. unfold act_on_blocker. rewrite Hs.
  pose proof (escalate_steady now t (probed_class _ Hp)) as He.
  destruct (MaxUnparkRetries <=? _).
  - destruct (escalateExhaustedRetry _ _ _ _ _ _ _) as [[e t'] es]. exact He.
  - by destruct (chargeNextRetryLap _ _ _ _ _) as [[e t'] es].
Qed.

End Steady.


(** ** Lemmas: the latch comes first *)

Lemma latched_nil : latched [].
Proof. intros [|] t' es2 H; discriminate. Qed.

Lemma latched_app es es' : latched es -> latched es' -> latched (es ++ es').
Proof.
  intros H H' es1 t' es2 E. apply app_eq_app in E as (k & [[-> E]|[-> E]]).
  - destruct k as [|x k]; cbn in E.
    + destruct (H' [] t' es2 (eq_sym E)) as ([|? ?] & ? & ? & E0); discriminate.
    + injection E as <- _. by apply (H es1 t' k).
  - destruct (H' k t' es2 E) as (es0 & name & kvs & ->). exists (es ++ es0), name, kvs. by rewrite app_assoc.
Qed.

Lemma latched_plain es : Forall (fun e => match e with WriteStatus _ => False | _ => True end) es -> latched es.
Proof.
  intros H es1 t' es2 ->. apply Forall_app in H as [_ H]. inversion H. contradiction.
Qed.

Lemma latched_count m e : (forall t, e <> WriteStatus t) -> latched (count m e).
Proof.
  intros H. apply latched_plain. destruct m; [|constructor]. constructor; [|constructor]. destruct e; try done.
  by destruct (H t).
Qed.

Lemma latched_one name kvs t' : latched [StampTask name kvs; WriteStatus t'].
Proof.
  intros [|a [|b es1]] t0 es2 E; injection E; intros; subst; try discriminate.
  - exists [], name, kvs. done.
  - destruct es1; discriminate.
Qed.

(** A stamp and an applier's write: what happens, in order. *)
Lemma stamp_then_effects w t kvs decide :
  let r := stamp_then w t kvs (fun t1 => applied t1 (cas (decide t1) (sw_write w))) in
  snd r = [] /\ is_set (fst r) = true
  \/ snd r = [StampTask (task_Name t) kvs]
  \/ exists t', snd r = [StampTask (task_Name t) kvs; WriteStatus t'].
Proof.
  cbv zeta. unfold stamp_then, applied. destruct (sw_stamp w) as [server|]; [|by left].
  destruct (cas _ _) as [r|r t'|e]; cbn; eauto.
Qed.

Lemma stamp_then_latched w t kvs decide :
  latched (snd (stamp_then w t kvs (fun t1 => applied t1 (cas (decide t1) (sw_write w))))).
Proof.
  destruct (stamp_then_effects w t kvs decide) as [[-> _]|[-> |(t' & ->)]]; [apply latched_nil| |apply latched_one].
  apply latched_plain. repeat constructor.
Qed.

Lemma sweep_all {S} (P : list DriveEffect -> Prop) cancelled (visit : S -> Task -> Turn S) l : forall s first,
  P [] -> (forall es es', P es -> P es' -> P (es ++ es')) ->
  (forall s t, In t l -> P (tn_effects (visit s t))) -> P (snd (sweep cancelled visit s first l)).
Proof.
  induction l as [|t l IH]; intros s first H0 Ha H; cbn [sweep]; [done|]. destruct (cancelled t); [done|].
  destruct (tn_stop (visit s t)); [apply H; by left|]. set (f := match first with Some e => Some e | None => _ end).
  pose proof (IH (tn_state (visit s t)) f H0 Ha (fun s t Hin => H s t (or_intror Hin))) as Hl.
  destruct (sweep _ _ _ _ l) as [[e s'] es]. cbn in *. apply Ha; [apply H; by left|done].
Qed.

Lemma recovery_turn_latched m proj now wall world mrsOf s t :
  latched (tn_effects (recovery_turn m proj now wall world mrsOf s t)).
Proof.
  unfold recovery_turn. destruct (_ || _); [apply latched_nil|]. destruct (LoadTaskMRsFor _ _) as [mrs|]; [|apply latched_nil].
  destruct (negb _); [apply latched_nil|]. destruct (_ && _); [apply latched_nil|]. destruct (_ <=? _); [apply latched_nil|].
  unfold applyCIRecoveryUnpark. pose proof (stamp_then_latched (world t) t (recovery_stamps t (snd (CIDeclineEvidence mrs)))
    (fun _ => decide_release (fun fresh => negb (Parked fresh) || negb (ciRecoverablePark (ParkReason (Status fresh))))
                (fun fresh => UnparkCIRecovered fresh now wall))) as H.
  destruct (stamp_then _ _ _ _) as [e es]. destruct (is_set e); [exact H|]. cbn [tn_effects turn].
  apply latched_app; [exact H|apply latched_count; discriminate].
Qed.

(** Only a licensed Task is stamped. *)
Lemma recovery_turn_stamps m proj now wall world mrsOf s t :
  Forall (fun e => match e with
                   | StampTask name kvs => name = task_Name t /\ recovery_licensed proj mrsOf t kvs
                   | _ => True end) (tn_effects (recovery_turn m proj now wall world mrsOf s t)).
Proof.
  unfold recovery_turn. destruct (_ || (ann t AnnDeclineHeads == "")) eqn:Eg; [constructor|].
  apply orb_false_iff in Eg as [Eg _]. apply orb_false_iff in Eg as [Eg Hred].
  apply orb_false_iff in Eg as [Eg Hk%String.eqb_neq]. apply orb_false_iff in Eg as [Ho%negb_false_iff Hp%negb_false_iff].
  destruct (LoadTaskMRsFor _ _) as [mrs|] eqn:El; [|constructor].
  destruct (ci_recovered t mrs) eqn:Ec; [cbn [negb]|constructor].
  destruct (_ && _); [constructor|]. destruct (Z.leb_spec MaxCIRecoveryUnparks (ciRecoveryUnparks t)); [constructor|].
  assert (recovery_licensed proj mrsOf t (recovery_stamps t (snd (CIDeclineEvidence mrs)))) as Hl.
  { unfold ci_recovered in Ec. rewrite !andb_true_iff, negb_true_iff, !String.eqb_eq in Ec.
    destruct Ec as [[[[H1 _] H2] H3] H4%negb_true_iff%String.eqb_neq]. repeat split; try done. exists mrs. auto 10. }
  unfold applyCIRecoveryUnpark.
  pose proof (stamp_then_effects (world t) t (recovery_stamps t (snd (CIDeclineEvidence mrs)))
    (fun _ => decide_release (fun fresh => negb (Parked fresh) || negb (ciRecoverablePark (ParkReason (Status fresh))))
                (fun fresh => UnparkCIRecovered fresh now wall))) as H0. cbv zeta in H0.
  destruct (stamp_then _ _ _ _) as [e es]. cbn [snd fst] in H0.
  assert (Forall (fun e => match e with
            | StampTask name kvs => name = task_Name t /\ recovery_licensed proj mrsOf t kvs
            | _ => True end) es) as Hes.
  { destruct H0 as [[-> _]|[-> |(t' & ->)]]; repeat (apply Forall_cons; split); try apply Forall_nil; done. }
  destruct (is_set e); cbn [tn_effects turn]; [exact Hes|]. apply Forall_app. split; [exact Hes|].
  destruct m; repeat constructor.
Qed.

(** A lap raises the count it is charged to. *)
Lemma recovery_stamp_counts t heads server :
  0 <= ciRecoveryUnparks t < MaxCIRecoveryUnparks ->
  ciRecoveryUnparks (stamped (recovery_stamps t heads) server) = ciRecoveryUnparks t + 1.
Proof.
  intros Hr. unfold stamped, recovery_stamps, ciRecoveryUnparks at 1. cbn [fold_left fst snd].
  assert (forall a : gmap string string, <[AnnCIRecoveryHeads := heads]>
            (<[AnnCIRecoveryUnparks := FormatInt (i64 (ciRecoveryUnparks t + 1))]> a) !! AnnCIRecoveryUnparks
          = Some (FormatInt (i64 (ciRecoveryUnparks t + 1)))) as Hl.
  { intros a. rewrite lookup_insert_ne by done. apply lookup_insert_eq. }
  cbn. rewrite Hl. unfold MaxCIRecoveryUnparks in Hr.
  rewrite i64_small by (unfold in_i64, two63; lia). rewrite FormatInt_parse by (unfold two63; lia). done.
Qed.

Lemma recovery_laps_bounded n : forall t t', 0 <= ciRecoveryUnparks t -> nsteps recovery_lap n t t' ->
  Z.of_nat n <= Z.max 0 (MaxCIRecoveryUnparks - ciRecoveryUnparks t).
Proof.
  induction n as [|n IH]; intros t t' H0 Hn; [lia|]. inversion Hn as [|? x y z [Hlt (heads & server & _ & Ex)] Hrest]; subst.
  pose proof (recovery_stamp_counts t heads server ltac:(lia)) as Hc.
  apply IH in Hrest; lia.
Qed.

(** the CI recovery re-drives a give-up only on evidence that it is void, and at most
    three times.  A pass charges a lap only to Tasks of the project parked for a decline
    or a question, never to a takeover, whose checks were red then and are green now at
    the same heads, where that head has not had its lap; every release directly follows
    the latch that charges it; and laps charged one after the other are at most three,
    whatever else happens to the Task. *)
Theorem ci_recovery_needs_void_evidence (m : bool) (proj : Project) (now wall : Time) (world : Task -> StampWorld)
    (mrsOf : Task -> string -> GetAnswer MergeRequest) (l : list Task) (live : TaskListing) :
  let es := snd (driveCIRecoveryUnparks m proj now wall world mrsOf (Some l) live) in
  (forall name kvs, In (StampTask name kvs) es ->
     exists t, In t l /\ task_Name t = name /\ recovery_licensed proj mrsOf t kvs)
  /\ latched es
  /\ (forall n t t', 0 <= ciRecoveryUnparks t -> nsteps recovery_lap n t t' -> (n <= 3)%nat).
Proof.
  cbv zeta. unfold driveCIRecoveryUnparks. destruct (sweep _ _ _ _ l) as [[e s'] es] eqn:E. cbn [snd].
  split; [|split].
  - assert (Forall (fun e => match e with
      | StampTask name kvs => exists t, In t l /\ task_Name t = name /\ recovery_licensed proj mrsOf t kvs
      | _ => True end) es) as H.
    { replace es with (snd (sweep (fun t => sw_cancelled (world t)) (recovery_turn m proj now wall world mrsOf)
                              (room_budget proj (recovery_uses_room proj) l live) None l)) by (by rewrite E).
      apply sweep_all; [constructor|intros es1 es2 H1 H2; by apply Forall_app|].
      intros s t Ht. eapply Forall_impl; [apply recovery_turn_stamps|]. intros []; try done. cbn.
      intros [-> Hl]. by exists t. }
    intros name kvs Hin. rewrite List.Forall_forall in H. exact (H _ Hin).
  - pose proof (sweep_all latched (fun t => sw_cancelled (world t)) (recovery_turn m proj now wall world mrsOf) l
      (room_budget proj (recovery_uses_room proj) l live) None latched_nil latched_app) as H.
    rewrite E in H. apply H. intros s t _. apply recovery_turn_latched.
  - intros n t t' H0 Hn. apply recovery_laps_bounded in Hn; [|done]. unfold MaxCIRecoveryUnparks in Hn. lia.
Qed.

(** ** What modelling showed *)

(** The migration into the retry lane checks the park against the copy its own stamp has
    refreshed, not against the reason it decided on: a Task that had been re-parked for
    another reason by then, here for lost ownership, is re-parked into the lane. *)
Theorem migration_reparks_a_moved_park :
  match snd (driveRetryLaneMigration zero_Project Hour
               (fun _ => finds (work "t" StateMerged ReasonOwnershipLost)) (Some [work "t" StateMerged ReasonCIRed])) with
  | [StampTask "t" _; WriteStatus t'] => ParkReason (Status t') = ReasonCIFailed
  | _ => False
  end.
Proof. vm_compute. reflexivity. Qed.

(** A release that lost the race is counted as one: the Task was un-parked already, nothing
    was written, and the counter moves. *)
Theorem raced_release_is_counted :
  let unparked := clearPark (work "t" StateUnderImplementation ReasonReviewLoopExhausted) in
  match snd (driveRetiredUnparks true zero_Project Hour 0 (fun _ => finds unparked)
               (Some [work "t" StateUnderImplementation ReasonReviewLoopExhausted])) with
  | [StampTask "t" _; CountUnparked reason "retired"] => reason = ReasonReviewLoopExhausted
  | _ => False
  end.
Proof. vm_compute. reflexivity. Qed.

(** A spent timeout budget re-parks the Task before the decline is counted, so the decline
    is counted under the park it ended in, not under the one that was declined. *)
Theorem spent_budget_counts_the_new_park :
  let t := (work "t" StateMerged ReasonMergeTimeout) in
  let t := on_status t (fun s => s <| MergeReentries := MaxMergeReentries |>) in
  match snd (driveUnparks id (fun _ => None) true false zero_Project Hour 0 0 (self_turn unprobed) (Some [t]) (Indexed [])
               (Some [])) with
  | [WriteStatus t'; CountDeclined reason "retry-budget-spent"] =>
      ParkReason (Status t) = ReasonMergeTimeout /\ ParkReason (Status t') = ReasonMergeBlocked
      /\ reason = ReasonMergeBlocked
  | _ => False
  end.
Proof. vm_compute. auto. Qed.

(** ** Witnesses *)

Lemma drivers_refine_lifecycle_witness :
  exists t', In (WriteStatus t')
    (snd (driveUnparksPaced id (fun _ => None) true false zero_Project Hour 0 0 0 ∅
            (retired_round [work "t" StateUnderImplementation ReasonReviewLoopExhausted])))
  /\ by_an_operation (round_reads (retired_round [work "t" StateUnderImplementation ReasonReviewLoopExhausted])) t'.
Proof.
  pose (w := retired_round [work "t" StateUnderImplementation ReasonReviewLoopExhausted]).
  pose (t' := reArm (work "t" StateUnderImplementation ReasonReviewLoopExhausted) Hour).
  exists t'.
  assert (nth_error (snd (driveUnparksPaced id (fun _ => None) true false zero_Project Hour 0 0 0 ∅ w)) 1
          = Some (WriteStatus t')) as H by (vm_compute; reflexivity).
  apply nth_error_In in H.
  split; [exact H|]. exact (proj1 (drivers_refine_lifecycle _ _ _ _ _ _ _ _ _ _ w t' H)).
Defined.

Lemma unparks_within_the_room_witness :
  let l := [work "a" StateUnderImplementation ReasonNoOutcome; work "b" StateUnderImplementation ReasonNoOutcome;
            work "c" StateUnderImplementation ReasonNoOutcome] in
  let es := snd (driveUnparks id (fun _ => None) true false two_pods Hour 0 0 (self_turn unprobed) (Some l) (Indexed [])
                   (Some [])) in
  tally_of releases_live es = 2 /\ tally_of releases_live es <= room_left two_pods (Some [])
                                  + Z.of_nat (List.length (List.filter (roomless two_pods) l)).
Proof.
  cbv zeta. split; [vm_compute; reflexivity|].
  refine (proj1 (unparks_within_the_room id (fun _ => None) true false two_pods Hour 0 0 (self_turn unprobed) _
    (Indexed []) (Some []) _)).
  intros t fresh _ [E|[]]. injection E as E. by subst fresh.
Defined.

