(* ===== verification/Calls.v ===== *)
(** * Programs as trees of calls: what the controllers ask of the API server and of the
    forge, and every way the outside may answer.

    A controller procedure is a value of [Prog]: it ends with a value, or asks the outside
    and goes on with the answer.  A [World] answers each call from the calls made before;
    [run] plays a program against one and returns its value with the trace of its calls.
    [does] is the specification of all traces at once: what holds of it holds in every
    world ([run_does]). *)

From Stdlib Require Import String.
From S2P Require Import Prelude GoTime Api Machine ObjBudget Own Transition Checks Corridor TtlStop LivePods Queue Escalate Drivers Merge.

Open Scope Z_scope.
Open Scope go_scope.

(** ** Programs *)

Section Programs.

Context {Call : Type -> Type}.

Inductive Prog (A : Type) : Type :=
  | Ret (a : A)
  | Do {X : Type} (c : Call X) (k : X -> Prog A).

(** A call that was made, with its answer. *)
Record Did := did { did_type : Type; did_call : Call did_type; did_answer : did_type }.

Definition World : Type := list Did -> forall X, Call X -> X.

End Programs.

Arguments Prog Call A : clear implicits.
Arguments Did Call : clear implicits.
Arguments World Call : clear implicits.
Arguments Ret {Call A} a.
Arguments Do {Call A X} c k.
Arguments did {Call did_type} did_call did_answer.

Section Combinators.

Context {Call : Type -> Type}.

Definition ask {X} (c : Call X) : Prog Call X := Do c Ret.

Fixpoint bind {A B} (p : Prog Call A) (f : A -> Prog Call B) : Prog Call B :=
  match p with
  | Ret a => f a
  | Do c k => Do c (fun x => bind (k x) f)
  end.

(** On with the value of a success; an error is returned at once. *)
Definition try {E A B} (p : Prog Call (result E A)) (f : A -> Prog Call (result E B)) : Prog Call (result E B) :=
  bind p (fun r => match r with Ok a => f a | Err e => Ret (Err e) end).

(** The value and the trace of a run, [past] being what has happened before. *)
Fixpoint run_from {A} (w : World Call) (past : list (Did Call)) (p : Prog Call A) : A * list (Did Call) :=
  match p with
  | Ret a => (a, [])
  | Do c k => let x := w past _ c in
              let '(a, es) := run_from w (past ++ [did c x]) (k x) in (a, did c x :: es)
  end.

Definition run {A} (w : World Call) (p : Prog Call A) : A * list (Did Call) := run_from w [] p.

(** Every run returns a value and leaves a trace that satisfy [R]. *)
Fixpoint does {A} (p : Prog Call A) (R : A -> list (Did Call) -> Prop) : Prop :=
  match p with
  | Ret a => R a []
  | Do c k => forall x, does (k x) (fun a es => R a (did c x :: es))
  end.

Lemma run_from_does {A} w (p : Prog Call A) : forall R past, does p R ->
  R (fst (run_from w past p)) (snd (run_from w past p)).
Proof.
  induction p as [a|X c k IH]; intros R past H; [exact H|]. cbn in *.
  specialize (IH (w past X c) _ (past ++ [did c (w past X c)]) (H _)).
  destruct (run_from _ _ _). exact IH.
Qed.

Lemma run_does {A} w (p : Prog Call A) R : does p R -> R (fst (run w p)) (snd (run w p)).
Proof. apply run_from_does. Qed.

(** Every answer of a trace is the world's. *)
Lemma run_answers {A} (w : World Call) (p : Prog Call A) : forall past,
  Forall (fun d => exists past, did_answer d = w past _ (did_call d)) (snd (run_from w past p)).
Proof.
  induction p as [a|X c k IH]; intros past; [constructor|]. cbn.
  specialize (IH (w past X c) (past ++ [did c (w past X c)])). destruct (run_from _ _ _).
  constructor; [by exists past|exact IH].
Qed.

Lemma run_answer {A X} (w : World Call) (p : Prog Call A) (c : Call X) x :
  In (did c x) (snd (run w p)) -> exists past, x = w past _ c.
Proof. intros Hin. exact (proj1 (List.Forall_forall _ _) (run_answers w p []) _ Hin). Qed.

Lemma does_mono {A} (p : Prog Call A) : forall R R' : A -> list (Did Call) -> Prop,
  (forall a es, R a es -> R' a es) -> does p R -> does p R'.
Proof.
  induction p as [a|X c k IH]; intros R R' H Hp; [exact (H _ _ Hp)|].
  intros x. exact (IH x _ _ (fun a es => H a _) (Hp x)).
Qed.

Lemma does_bind {A B} (p : Prog Call A) (f : A -> Prog Call B) : forall R,
  does p (fun a es => does (f a) (fun b es' => R b (es ++ es'))) -> does (bind p f) R.
Proof.
  induction p as [a|X c k IH]; intros R H; [exact H|]. intros x. apply IH. exact (H x).
Qed.

Lemma does_and {A} (p : Prog Call A) : forall R R' : A -> list (Did Call) -> Prop,
  does p R -> does p R' -> does p (fun a es => R a es /\ R' a es).
Proof. induction p as [a|X c k IH]; intros R R' H H'; [by split|]. intros x. exact (IH x _ _ (H x) (H' x)). Qed.

(** *** What every trace of a program keeps *)

(** A property of traces that holds of none and of one after another. *)
Class Closed (Q : list (Did Call) -> Prop) := { closed_nil : Q []; closed_app es es' : Q es -> Q es' -> Q (es ++ es') }.

#[export] Instance closed_Forall (P : Did Call -> Prop) : Closed (Forall P).
Proof. split; [constructor|]. intros es es' H H'. by apply Forall_app. Qed.

Definition keeps {A} (Q : list (Did Call) -> Prop) (p : Prog Call A) : Prop := does p (fun _ es => Q es).

(** What holds of every call. *)
Definition each {A} (P : Did Call -> Prop) (p : Prog Call A) : Prop := keeps (Forall P) p.

Section Keeps.

#[local] Set Default Proof Using "Type*".

Context (Q : list (Did Call) -> Prop) `{Closed Q}.

Lemma keeps_ret {A} (a : A) : keeps Q (Ret a).
Proof. exact closed_nil. Qed.

Lemma keeps_do {A X} (c : Call X) (k : X -> Prog Call A) :
  (forall x, Q [did c x]) -> (forall x, keeps Q (k x)) -> keeps Q (Do c k).
Proof.
  intros Hc Hk x. eapply does_mono; [|exact (Hk x)]. intros a es Hes. exact (closed_app [_] es (Hc x) Hes).
Qed.

Lemma keeps_bind {A B} (p : Prog Call A) (f : A -> Prog Call B) :
  keeps Q p -> (forall a, keeps Q (f a)) -> keeps Q (bind p f).
Proof.
  intros Hp Hf. apply does_bind. eapply does_mono; [|exact Hp]. intros a es Hes. cbn.
  eapply does_mono; [|apply Hf]. intros b es'. by apply closed_app.
Qed.

Lemma keeps_try {E A B} (p : Prog Call (result E A)) (f : A -> Prog Call (result E B)) :
  keeps Q p -> (forall a, keeps Q (f a)) -> keeps Q (try p f).
Proof. intros Hp Hf. apply keeps_bind; [done|]. intros [a|e]; [apply Hf|apply keeps_ret]. Qed.

(** The same with what is known of the value. *)
Lemma keeps_try_that {E A B} (P : A -> Prop) (p : Prog Call (result E A)) (f : A -> Prog Call (result E B)) :
  keeps Q p -> does p (fun r _ => forall a, r = Ok a -> P a) -> (forall a, P a -> keeps Q (f a)) -> keeps Q (try p f).
Proof.
  intros Hp HP Hf. apply does_bind. eapply does_mono; [|exact (does_and _ _ _ Hp HP)]. intros [a|e] es [Hes Ha]; cbn.
  - eapply does_mono; [|exact (Hf a (Ha a eq_refl))]. intros b es'. by apply closed_app.
  - by rewrite app_nil_r.
Qed.

End Keeps.

(** What is known of the value of a program. *)
Definition yields {E A} (P : A -> Prop) (p : Prog Call (result E A)) : Prop := does p (fun r _ => forall a, r = Ok a -> P a).

Lemma yields_try {E A B} (P : A -> Prop) (P' : B -> Prop) (p : Prog Call (result E A)) (f : A -> Prog Call (result E B)) :
  yields P p -> (forall a, P a -> yields P' (f a)) -> yields P' (try p f).
Proof.
  intros Hp Hf. apply does_bind. eapply does_mono; [|exact Hp]. intros [a|e] es Ha; [|by intros b [=]].
  eapply does_mono; [|exact (Hf a (Ha a eq_refl))]. intros r es' Hr. exact Hr.
Qed.

Lemma yields_any {E A} (p : Prog Call (result E A)) : yields (fun _ => True) p.
Proof. induction p as [a|X c k IH]; [by intros|]. intros x. exact (IH x). Qed.

(** *** Order: what each call finds done *)

(** [P past d] of every call [d] of the trace, [past] being all that was done before it. *)
Fixpoint guarded (P : list (Did Call) -> Did Call -> Prop) (past es : list (Did Call)) : Prop :=
  match es with
  | [] => True
  | d :: rest => P past d /\ guarded P (past ++ [d]) rest
  end.

Lemma guarded_app P es : forall past es', guarded P past (es ++ es') <-> guarded P past es /\ guarded P (past ++ es) es'.
Proof.
  induction es as [|d es IH]; intros past es'; cbn [guarded app].
  - rewrite app_nil_r. tauto.
  - rewrite IH, <- app_assoc. cbn. tauto.
Qed.

(** The call at its place in the trace. *)
Lemma guarded_split P past es before d after : guarded P past es -> es = before ++ d :: after -> P (past ++ before) d.
Proof. intros H ->. apply guarded_app in H as [_ [H _]]. exact H. Qed.

Lemma trace_at k (es : list (Did Call)) d0 : (k < length es)%nat -> es = firstn k es ++ nth k es d0 :: skipn (S k) es.
Proof.
  revert k. induction es as [|d es IH]; intros k Hk; cbn in *; [lia|]. destruct k as [|k]; [done|]. cbn. f_equal. apply IH. lia.
Qed.

(** Calls nothing is asked of. *)
Lemma guarded_free P (Q : Did Call -> Prop) es : (forall past d, Q d -> P past d) -> Forall Q es -> forall past, guarded P past es.
Proof. intros HQ. induction 1 as [|d es H _ IH]; intros past; [done|]. split; [by apply HQ|apply IH]. Qed.

(** What is enough from here on. *)
Lemma guarded_once (P : list (Did Call) -> Did Call -> Prop) (E : list (Did Call) -> Prop) es : forall past,
  (forall past d, E past -> P past d) -> (forall past d, E past -> E (past ++ [d])) -> E past -> guarded P past es.
Proof. induction es as [|d es IH]; intros past HP Hm He; [done|]. split; [by apply HP|by apply IH, Hm]. Qed.

(** The same with what is known of each call. *)
Lemma guarded_each (P : list (Did Call) -> Did Call -> Prop) (E : list (Did Call) -> Prop) (Q : Did Call -> Prop) es : forall past,
  (forall past d, E past -> Q d -> P past d) -> (forall past d, E past -> E (past ++ [d])) -> E past -> Forall Q es ->
  guarded P past es.
Proof.
  induction es as [|d es IH]; intros past HP Hm He Hq; [done|]. inversion_clear Hq.
  split; [by apply HP|]. apply IH; auto.
Qed.

(** A longer past. *)
Lemma guarded_past (P : list (Did Call) -> Did Call -> Prop) q es : (forall past d, P past d -> P (q ++ past) d) ->
  forall past, guarded P past es -> guarded P (q ++ past) es.
Proof.
  intros HP. induction es as [|d es IH]; intros past; [done|]. cbn. intros [Hd H].
  rewrite <- app_assoc. split; [by apply HP|by apply IH].
Qed.

(** Whatever was done before. *)
Definition always {A} (P : list (Did Call) -> Did Call -> Prop) (p : Prog Call A) : Prop :=
  forall past, does p (fun _ es => guarded P past es).

Lemma always_ret {A} P (a : A) : always P (Ret a).
Proof. by intros past. Qed.

Lemma always_bind {A B} P (p : Prog Call A) (f : A -> Prog Call B) :
  always P p -> (forall a, always P (f a)) -> always P (bind p f).
Proof.
  intros Hp Hf past. apply does_bind. eapply does_mono; [|exact (Hp past)]. intros a es H. cbn.
  eapply does_mono; [|exact (Hf a (past ++ es))]. intros b es' H'. by apply guarded_app.
Qed.

Lemma always_try {E A B} P (p : Prog Call (result E A)) (f : A -> Prog Call (result E B)) :
  always P p -> (forall a, always P (f a)) -> always P (try p f).
Proof. intros Hp Hf. apply always_bind; [done|]. intros [a|e]; [apply Hf|apply always_ret]. Qed.

Lemma always_free {A} P (Q : Did Call -> Prop) (p : Prog Call A) :
  (forall past d, Q d -> P past d) -> each Q p -> always P p.
Proof. intros HQ Hp past. eapply does_mono; [|exact Hp]. intros a es Hes. by apply (guarded_free P Q). Qed.

(** The order of the calls of a program that is run after [past]; [Q] are the calls nothing is
    asked of. *)
Definition guards {A} (P : list (Did Call) -> Did Call -> Prop) (past : list (Did Call)) (p : Prog Call A) : Prop :=
  does p (fun _ es => guarded P past es).

Lemma guards_bind {A B} P (Q : Did Call -> Prop) past (p : Prog Call A) (f : A -> Prog Call B) :
  (forall past d, Q d -> P past d) -> does p (fun a es => Forall Q es /\ guards P (past ++ es) (f a)) -> guards P past (bind p f).
Proof.
  intros HQ H. apply does_bind. eapply does_mono; [|exact H]. intros a es [Hes Hf]. eapply does_mono; [|exact Hf].
  intros b es' Hg. apply guarded_app. split; [by apply (guarded_free P Q)|exact Hg].
Qed.

Lemma guards_try {E A B} P (Q : Did Call -> Prop) past (p : Prog Call (result E A)) (f : A -> Prog Call (result E B)) :
  (forall past d, Q d -> P past d) -> does p (fun r es => Forall Q es /\ forall a, r = Ok a -> guards P (past ++ es) (f a)) ->
  guards P past (try p f).
Proof.
  intros HQ H. apply (guards_bind P Q); [exact HQ|]. eapply does_mono; [|exact H].
  intros [a|e] es [Hes Hf]; (split; [exact Hes|]); [by apply Hf|done].
Qed.

Lemma run_from_bind {A B} w (p : Prog Call A) (f : A -> Prog Call B) : forall past,
  run_from w past (bind p f) =
  let '(a, es) := run_from w past p in let '(b, es') := run_from w (past ++ es) (f a) in (b, es ++ es').
Proof.
  induction p as [a|X c k IH]; intros past; cbn [run_from bind].
  - rewrite app_nil_r. by destruct (run_from _ _ _).
  - rewrite IH. destruct (run_from w _ (k _)) as [a es]. rewrite <- app_assoc. cbn [app].
    by destruct (run_from w _ (f a)).
Qed.

(** A run of a program and of what follows it: the value of the first, and the two traces. *)
Lemma run_try {E A B} w (p : Prog Call (result E A)) (f : A -> Prog Call (result E B)) a :
  fst (run w p) = Ok a -> exists es', snd (run w (try p f)) = snd (run w p) ++ es' /\ es' = snd (run_from w (snd (run w p)) (f a)).
Proof.
  unfold run, try. intros H. rewrite run_from_bind. destruct (run_from w [] p) as [r es]. cbn in H. subst r.
  cbn [app snd]. destruct (run_from w es (f a)) as [b es'] eqn:E'. exists es'. cbn. by rewrite ?E'.
Qed.

(** *** Loops *)

(** [for ... { if err != nil { return err } }]. *)
Fixpoint foreach {E A} (l : list A) (body : A -> Prog Call (result E unit)) : Prog Call (result E unit) :=
  match l with
  | [] => Ret (Ok tt)
  | a :: l' => try (body a) (fun _ => foreach l' body)
  end.

(** The loop with a value threaded through it. *)
Fixpoint fold_prog {E A S} (l : list A) (s : S) (body : S -> A -> Prog Call (result E S)) : Prog Call (result E S) :=
  match l with
  | [] => Ret (Ok s)
  | a :: l' => try (body s a) (fun s' => fold_prog l' s' body)
  end.

(** The loop whose body goes on whatever happens. *)
Fixpoint fold_all {A S} (l : list A) (s : S) (body : S -> A -> Prog Call S) : Prog Call S :=
  match l with
  | [] => Ret s
  | a :: l' => bind (body s a) (fun s' => fold_all l' s' body)
  end.

(** What holds of the value and the trace so far, after each turn. *)
Lemma does_fold_all {A S} (I : S -> list (Did Call) -> Prop) (l : list A) (body : S -> A -> Prog Call S) : forall s past,
  I s past -> (forall s a past, In a l -> I s past -> does (body s a) (fun s' es => I s' (past ++ es))) ->
  does (fold_all l s body) (fun s' es => I s' (past ++ es)).
Proof.
  induction l as [|a l IH]; intros s past Hi Hb; cbn [fold_all]; [change (I s (past ++ [])); by rewrite app_nil_r|].
  apply does_bind. eapply does_mono; [|exact (Hb s a past (or_introl eq_refl) Hi)]. intros s' es Hs'.
  eapply does_mono; [|apply (IH s' (past ++ es) Hs'); intros; apply Hb; [by right|done]].
  intros s0 es0 H0. by rewrite app_assoc.
Qed.

Lemma keeps_fold_all {A S} Q `{Closed Q} (l : list A) (body : S -> A -> Prog Call S) : forall s,
  (forall s a, In a l -> keeps Q (body s a)) -> keeps Q (fold_all l s body).
Proof.
  induction l as [|a l IH]; intros s Hb; [by apply keeps_ret|]. apply keeps_bind; [done|apply Hb; by left|].
  intros s'. apply IH. intros s0 b Hin. apply Hb. by right.
Qed.

Lemma keeps_foreach {E A} Q `{Closed Q} (l : list A) (body : A -> Prog Call (result E unit)) :
  (forall a, In a l -> keeps Q (body a)) -> keeps Q (foreach l body).
Proof.
  induction l as [|a l IH]; intros Hb; [by apply keeps_ret|]. apply keeps_try; [done|apply Hb; by left|].
  intros _. apply IH. intros b Hin. apply Hb. by right.
Qed.

Lemma always_foreach {E A} P (l : list A) (body : A -> Prog Call (result E unit)) :
  (forall a, In a l -> always P (body a)) -> always P (foreach l body).
Proof.
  induction l as [|a l IH]; intros Hb; [apply always_ret|]. apply always_try; [apply Hb; by left|].
  intros _. apply IH. intros b Hin. apply Hb. by right.
Qed.

Lemma keeps_fold_prog {E A S} Q `{Closed Q} (l : list A) (body : S -> A -> Prog Call (result E S)) : forall s,
  (forall s a, In a l -> keeps Q (body s a)) -> keeps Q (fold_prog l s body).
Proof.
  induction l as [|a l IH]; intros s Hb; [by apply keeps_ret|]. apply keeps_try; [done|apply Hb; by left|].
  intros s'. apply IH. intros s0 b Hin. apply Hb. by right.
Qed.

End Combinators.

Notation "'let!' x ':=' p 'in' q" := (bind p (fun x => q))
  (at level 10, x pattern, p at level 100, q at level 200) : go_scope.
Notation "'let?' x ':=' p 'in' q" := (try p (fun x => q))
  (at level 10, x pattern, p at level 100, q at level 200) : go_scope.

(** ** What the forge lists (internal/scm/scm.go, mirror_types.go) *)

Record IssueComment := mkIssueComment {
  ic_ExternalID : string;
  ic_Author : string;
  ic_Body : string;
  ic_CreatedAt : Time
}.

Record ScmIssue := mkScmIssue {
  si_Number : Z;
  si_URL : string;
  si_Title : string;
  si_Author : string;
  si_Body : string;
  si_State : string;
  si_Labels : list string;
  si_CreatedAt : Time;
  si_UpdatedAt : Time;
  si_Comments : list IssueComment
}.

Record ScmMergeRequest := mkScmMergeRequest {
  sm_Number : Z;
  sm_URL : string;
  sm_Title : string;
  sm_Author : string;
  sm_Body : string;
  sm_State : string;
  sm_HeadBranch : string;
  sm_HeadSHA : string;
  sm_CIStatus : string;
  sm_Mergeable : bool;
  sm_CreatedAt : Time;
  sm_UpdatedAt : Time;
  sm_MergedAt : option Time;
  sm_Comments : list IssueComment
}.

Record PRRef := mkPRRef {
  prr_Repo : string;
  prr_Number : Z;
  prr_Title : string;
  prr_Author : string;
  prr_HeadSHA : string;
  prr_HeadBranch : string;
  prr_HeadRepo : string;
  prr_Labels : list string;
  prr_Body : string;
  prr_UpdatedAt : Time
}.

Record IssueRef := mkIssueRef {
  ir_Repo : string;
  ir_Number : Z;
  ir_Title : string;
  ir_Author : string;
  ir_State : string;
  ir_IsPR : bool;
  ir_Labels : list string;
  ir_CreatedAt : Time;
  ir_UpdatedAt : Time
}.

Record IssueContent := mkIssueContent { icn_Title : string; icn_Body : string; icn_Labels : list string }.

(** What the forge has of a review, and of an inline comment (internal/scm/review.go). *)
Record Review := mkReview { rv_ID : string; rv_Body : string }.

Record PostedComment := mkPostedComment {
  pst_ExternalID : string;
  pst_Path : string;
  pst_Line : Z;
  pst_InReplyTo : string;
  pst_Body : string;
  pst_CreatedAt : Time
}.

Record ScmReviewFinding := mkScmReviewFinding { srf_Path : string; srf_Line : Z; srf_Body : string; srf_Severity : string }.

(** A run of a workflow. *)
Record WorkflowRun := mkWorkflowRun {
  wr_HeadSHA : string;
  wr_Status : string;
  wr_Conclusion : string;
  wr_CreatedAt : Time
}.

(** A container that has terminated; a wrapper pod, and a volume claim, as they are read. *)
Record Termination := mkTermination { tm_Reason : string; tm_ExitCode : Z; tm_FinishedAt : Time }.

Record PodObject := mkPodObject {
  pod_Annotations : gmap string string;
  pod_Terminated : list (option Termination);
  pod_Phase : string
}.

Record ClaimObject := mkClaimObject { pvc_Created : Time; pvc_Phase : string }.

(** What a call of the wrapper may fail with (internal/agent/session.go). *)
Inductive SessionError := SessionUnreachable | SessionHTTP (status : Z) | SessionUnsupported | SessionTimeout | SessionFailed.

(** One proposal of the past, as a brainstorming agent is shown it (internal/prompt/proposalhistory.go). *)
Record ProposalHistoryEntry := mkProposalHistoryEntry {
  ph_Repo : string;
  ph_Number : Z;
  ph_Status : string;
  ph_Title : string;
  ph_Body : string;
  ph_At : Time;
  ph_Comments : list Comment
}.

Record ProbeResult := mkProbeResult { pb_State : string; pb_Answer : string }.

(** An Issue the forge has opened. *)
Record CreatedIssue := mkCreatedIssue { ci_Ref : string; ci_URL : string }.

(** A wrapper pod, service or workspace volume claim: its metadata, and a pod's environment. *)
Record Wrapper := mkWrapper {
  wp_Name : string;
  wp_Labels : gmap string string;
  wp_Created : Time;
  wp_Env : Pod
}.

(** ** The calls *)

(** What an error of the API server is to apierrors; [ApiUnindexed]: the client has no such
    field index. *)
Inductive ApiError := ApiMissing | ApiExists | ApiConflict | ApiUnindexed | ApiFailed.

(** The cached client and the API server behind it. *)
Inductive View := Cached | Direct.

Inductive Call : Type -> Type :=
  | ContextDone : Call bool
  (* the last error is the manager's own shutdown *)
  | Cancelled : Call bool
  | TimeNow : Call Time
  | ListTasks : Call (result ApiError (list Task))
  | ListTasksOf (project : string) : Call (result ApiError (list Task))
  | ListIssues : Call (result ApiError (list Issue))
  | ListIssuesByKey (key : string) : Call (result ApiError (list Issue))
  | GetTask (v : View) (name : string) : Call (result ApiError Task)
  | GetIssue (v : View) (name : string) : Call (result ApiError Issue)
  | GetMergeRequest (v : View) (name : string) : Call (result ApiError MergeRequest)
  | GetRepository (name : string) : Call (result ApiError Repository)
  | GetProject (name : string) : Call (result ApiError Project)
  | CreateTask (t : Task) : Call (result ApiError Task)
  (* whether a controller reference to the project can be set *)
  | SetProjectOwner (task : string) : Call bool
  | UpdateTask (t : Task) : Call (option ApiError)
  | UpdateTaskStatus (t : Task) : Call (option ApiError)
  | DeleteTask (name : string) : Call (option ApiError)
  | CreateIssue (i : Issue) : Call (option ApiError)
  | UpdateIssue (i : Issue) : Call (option ApiError)
  | UpdateIssueStatus (i : Issue) : Call (option ApiError)
  | DeleteIssue (name : string) : Call (option ApiError)
  | CreateMergeRequest (mr : MergeRequest) : Call (option ApiError)
  | UpdateMergeRequest (mr : MergeRequest) : Call (option ApiError)
  | ListProjects : Call (result ApiError (list Project))
  | ListPods : Call (result ApiError (list Wrapper))
  | ListServices : Call (result ApiError (list Wrapper))
  | ListPVCs : Call (result ApiError (list Wrapper))
  | DeletePodNamed (name : string) : Call (option ApiError)
  | DeleteServiceNamed (name : string) : Call (option ApiError)
  | DeletePVCNamed (name : string) : Call (option ApiError)
  (* the guarded writes: their reads and attempts, and what they did *)
  | IssueAnswers (name : string) : Call (list (GetAnswer Issue) * list (Attempt Issue))
  | IssueEffects (name : string) (es : list (FitEffect Issue Comment)) : Call unit
  | MergeRequestAnswers (name : string) : Call (list (GetAnswer MergeRequest) * list (Attempt MergeRequest))
  | MergeRequestEffects (name : string) (es : list (FitEffect MergeRequest Comment)) : Call unit
  | TaskAnswers (name : string) : Call (list (GetAnswer Task) * list (Attempt Task))
  | TaskEffects (name : string) (es : list (FitEffect Task Note)) : Call unit
  (* the choke points and the queue, with everything the outside answers them *)
  | StageAnswers (name : string) : Call Transition.World
  | StageEffects (name : string) (es : list Transition.Effect) : Call unit
  | QueueAnswers : Call QueueWorld
  | QueueEffects (es : list QueueWrite) : Call unit
  (* an un-park of a Task: the reads and the writes of ApplyUnpark *)
  | UnparkAnswers (name : string) : Call ApplyWorld
  | UnparkEffects (name : string) (es : list DriveEffect) : Call unit
  (* pods, their services and volumes *)
  | ListMergeRequests (v : View) : Call (result ApiError (list MergeRequest))
  | ListRepositories : Call (result ApiError (list Repository))
  | ListRepositoriesOf (project : string) : Call (result ApiError (list Repository))
  | TicketsOf (task : string) : Call FieldListing
  | GetPod (name : string) : Call (result ApiError PodObject)
  | CreatePod (name stage : string) : Call (option ApiError)
  | CreateService (name : string) : Call (option ApiError)
  | GetPVC (name : string) : Call (result ApiError ClaimObject)
  | CreatePVC (name : string) : Call (option ApiError)
  (* the session of an agent, by its Task *)
  | RenderBundle (t : Task) (agentKind : string) (issues : list Issue) (mrs : list MergeRequest)
      (history : list ProposalHistoryEntry) : Call (option string)
  | SubmitTurn (task text : string) : Call (result SessionError string)
  | Probe (task text : string) : Call (result SessionError string)
  | ProbeStatus (task id : string) : Call (result SessionError ProbeResult)
  | Interrupt (task : string) : Call bool
  | DeleteSession (task : string) : Call bool
  (* the stop of a pod with its handoff, and the end of a conversation *)
  | StopAnswers (name : string) : Call StopWorld
  | StopEffects (name : string) (es : list StopEffect) : Call unit
  | ExitAnswers (name : string) : Call ExitWorld
  | ExitEffects (name : string) (es : list ExitEffect) : Call unit
  (* the CI gate: its reads, and the exit on a red *)
  | CIReads : Call (ForgeWorld * (MergeRequest -> MRRead))
  | CIRedAnswers (name : string) : Call CIRedWorld
  (* a pass of the merge, and the delivery *)
  | MergeAnswers (name : string) : Call MergeWorld
  | DeliveryAnswers (name : string) : Call DeliverWorld
  | CorridorEffects (name : string) (es : list CorridorEffect) : Call unit
  (* a request of an agent: the secret of the project, a random suffix, the repositories
     the approval gate reads with the clock it reads them at, and the minimal patch *)
  | SecretToken (name : string) : Call (result ApiError string)
  | RandString (n : Z) : Call string
  | ApprovalReads : Call ((string -> option Repository) * Time)
  | PatchFailed (t : Task) (reason : string) (at_ : Time) : Call (option ApiError)
  | UpdateProjectStatus (p : Project) : Call (option ApiError)
  (* a delivery of the webhook: a key of a secret, the objects it annotates, and the events
     that wait in the queue *)
  | SecretKey (name key : string) : Call (result ApiError (option string))
  | UpdateProject (p : Project) : Call (option ApiError)
  | UpdateRepository (r : Repository) : Call (option ApiError)
  | GetQueuedEvent (v : View) (name : string) : Call (result ApiError QueuedEvent)
  | UpdateQueuedEvent (q : QueuedEvent) : Call (option ApiError)
  | DeleteQueuedEvent (name : string) : Call (option ApiError)
  (* the forge *)
  | GetPRState (repoURL : string) (number : Z) : Call (result ScmAnswer PRState)
  | GetMergeState (repoURL : string) (number : Z) : Call (result ScmAnswer string)
  (* whether a required check is among those that failed, where the provider can say *)
  | RequiredChecks (repoURL : string) (number : Z) : Call (option (option bool))
  | GetIssueClosed (repoURL : string) (number : Z) : Call (result ScmAnswer bool)
  | EditPR (repoURL : string) (number : Z) (title body : string) : Call ScmAnswer
  | OpenIssue (repoURL title body : string) (labels : list string) : Call (result ScmAnswer CreatedIssue)
  | AddSubIssue (parentRef : string) (child : Z) : Call ScmAnswer
  | ForgeReader : Call bool
  (* a refusal, or any other error *)
  | PostReview (repoURL : string) (number : Z) (body : string) (findings : list ScmReviewFinding) : Call (result (bool * ScmAnswer) string)
  | ListReviews (repoURL : string) (number : Z) : Call (result ScmAnswer (list Review))
  | ListReviewComments (repoURL : string) (number : Z) (id : string) : Call (result ScmAnswer (list PostedComment))
  | CloseIssue (slug : string) (number : Z) (comment : string) : Call ScmAnswer
  | EditIssue (slug : string) (number : Z) (title body : option string) : Call ScmAnswer
  | CanWatchDeploys : Call bool
  | LatestSemverTag (owner name : string) : Call (result ScmAnswer (option string))
  | LatestWorkflowRun (owner name file branch : string) : Call (result ScmAnswer (option WorkflowRun))
  | GetFileContent (owner name path ref : string) : Call (result ScmAnswer string)
  | ForgeWriter : Call bool
  | CanDeleteBranches : Call bool
  | PostComment (ref body : string) : Call ScmAnswer
  | AddLabel (ref label : string) : Call ScmAnswer
  | RemoveLabel (ref label : string) : Call ScmAnswer
  | ClosePR (repoURL : string) (number : Z) (body : string) : Call ScmAnswer
  | DeleteBranch (repoURL branch : string) : Call ScmAnswer
  | GetPRHead (repoURL : string) (number : Z) : Call (result ScmAnswer string)
  | ListOpenIssues (owner name : string) : Call (result ScmAnswer (list IssueRef))
  | ListOpenPRs (owner name : string) : Call (result ScmAnswer (list PRRef))
  | ListIssueComments (owner name : string) (number : Z) : Call (result ScmAnswer (list IssueComment))
  | CanListPRComments : Call bool
  | ListPRComments (owner name : string) (number : Z) : Call (result ScmAnswer (list IssueComment))
  | GetIssueContent (owner name : string) (number : Z) : Call (result ScmAnswer IssueContent)
  | GetDefaultBranchHead (owner name : string) : Call (result ScmAnswer string)
  (* a counter or gauge, with its labels *)
  | Count (metric : string) (labels : list string) : Call unit
  | SetGauge (metric : string) (labels : list string) (value : Z) : Call unit
  | ClearSeries (metric : string) (labels : list string) : Call unit
  | Observe (metric : string) (labels : list string) (value : Z) : Call unit.

Definition no_stage : Transition.World := Transition.mkWorld (fun _ => Some 0) None [] [] Deleted Deleted Deleted [] [].

Definition no_stop : StopWorld :=
  mkStopWorld true None 0 (mkWaiting (fun _ => None) (fun _ => 0) (fun _ => false)) 0 false 0
      (mkWaiting (fun _ => None) (fun _ => 0) (fun _ => false)) None 0 false false false Deleted Deleted false Deleted Deleted.

(** An outside with nothing in it: a read finds nothing, a write is taken, the clock stands
    at its zero. *)
Definition nowhere {X} (c : Call X) : X :=
  match c with
  | ContextDone => false
  | Cancelled => false
  | TimeNow => 0
  | ListTasks => Ok []
  | ListTasksOf _ => Ok []
  | ListIssues => Ok []
  | ListIssuesByKey _ => Ok []
  | GetTask _ _ => Err ApiMissing
  | GetIssue _ _ => Err ApiMissing
  | GetMergeRequest _ _ => Err ApiMissing
  | GetRepository _ => Err ApiMissing
  | GetProject _ => Err ApiMissing
  | CreateTask t => Ok t
  | SetProjectOwner _ => true
  | UpdateTask _ => None
  | UpdateTaskStatus _ => None
  | DeleteTask _ => None
  | CreateIssue _ => None
  | UpdateIssue _ => None
  | UpdateIssueStatus _ => None
  | DeleteIssue _ => None
  | CreateMergeRequest _ => None
  | UpdateMergeRequest _ => None
  | ListProjects => Ok []
  | ListPods => Ok []
  | ListServices => Ok []
  | ListPVCs => Ok []
  | DeletePodNamed _ => None
  | DeleteServiceNamed _ => None
  | DeletePVCNamed _ => None
  | IssueAnswers _ => ([], [])
  | IssueEffects _ _ => tt
  | MergeRequestAnswers _ => ([], [])
  | MergeRequestEffects _ _ => tt
  | TaskAnswers _ => ([], [])
  | TaskEffects _ _ => tt
  | StageAnswers _ => no_stage
  | StageEffects _ _ => tt
  | QueueAnswers => mkQueueWorld None None None [] true CreateFailed true
  | QueueEffects _ => tt
  | UnparkAnswers _ => mkApplyWorld (fun _ => GetNotFound) (fun _ => GetNotFound) []
  | UnparkEffects _ _ => tt
  | ForgeWriter => true
  | CanDeleteBranches => true
  | ListMergeRequests _ => Ok []
  | ListRepositories => Ok []
  | ListRepositoriesOf _ => Ok []
  | TicketsOf _ => FieldListed []
  | GetPod _ => Err ApiMissing
  | CreatePod _ _ => None
  | CreateService _ => None
  | GetPVC _ => Err ApiMissing
  | CreatePVC _ => None
  | RenderBundle _ _ _ _ _ => None
  | SubmitTurn _ _ => Err SessionFailed
  | Probe _ _ => Err SessionFailed
  | ProbeStatus _ _ => Err SessionFailed
  | Interrupt _ => false
  | DeleteSession _ => false
  | StopAnswers _ => no_stop
  | StopEffects _ _ => tt
  | ExitAnswers _ => mkExitWorld no_stop [] None [] no_stage
  | ExitEffects _ _ => tt
  | CIReads => (mkForgeWorld false false false, fun _ => mkMRRead false None)
  | CIRedAnswers _ => mkCIRedWorld (mkFitWorld (fun _ => Some 0) None [] []) no_stage (mkFitWorld (fun _ => Some 0) None [] [])
  | MergeAnswers _ => merge_world [] ""
  | DeliveryAnswers _ => mkDeliverWorld (Some []) (Some []) all_wired (fun _ => mkIssueWorld None ScmOk (mkFitWorld (fun _ => None) None [] []))
                           no_stage (fun _ => true) true
  | CorridorEffects _ _ => tt
  | SecretToken _ => Ok "token"%string
  | RandString _ => ""%string
  | ApprovalReads => (fun _ => None, 0)
  | PatchFailed _ _ _ => None
  | UpdateProjectStatus _ => None
  | SecretKey _ _ => Ok None
  | UpdateProject _ => None
  | UpdateRepository _ => None
  | GetQueuedEvent _ _ => Err ApiMissing
  | UpdateQueuedEvent _ => None
  | DeleteQueuedEvent _ => None
  | GetPRState _ _ => Err ScmFailed
  | GetMergeState _ _ => Err ScmFailed
  | RequiredChecks _ _ => None
  | GetIssueClosed _ _ => Err ScmFailed
  | EditPR _ _ _ _ => ScmOk
  | OpenIssue _ _ _ _ => Err ScmFailed
  | AddSubIssue _ _ => ScmOk
  | ForgeReader => false
  | PostReview _ _ _ _ => Err (false, ScmFailed)
  | ListReviews _ _ => Ok []
  | ListReviewComments _ _ _ => Ok []
  | CloseIssue _ _ _ => ScmOk
  | EditIssue _ _ _ _ => ScmOk
  | CanWatchDeploys => false
  | LatestSemverTag _ _ => Ok None
  | LatestWorkflowRun _ _ _ _ => Ok None
  | GetFileContent _ _ _ _ => Ok ""%string
  | PostComment _ _ => ScmOk
  | AddLabel _ _ => ScmOk
  | RemoveLabel _ _ => ScmOk
  | ClosePR _ _ _ => ScmOk
  | DeleteBranch _ _ => ScmOk
  | GetPRHead _ _ => Err ScmFailed
  | ListOpenIssues _ _ => Ok []
  | ListOpenPRs _ _ => Ok []
  | ListIssueComments _ _ _ => Ok []
  | CanListPRComments => true
  | ListPRComments _ _ _ => Ok []
  | GetIssueContent _ _ _ => Err ScmFailed
  | GetDefaultBranchHead _ _ => Ok ""%string
  | Count _ _ => tt
  | SetGauge _ _ _ => tt
  | ClearSeries _ _ => tt
  | Observe _ _ _ => tt
  end.

(** ** Errors *)

Inductive Fail :=
  | ContextEnded
  | ApiFault (e : ApiError)
  | FitFault (e : FitError)
  | StageFault (e : StageError)
  | ChokeFault (e : TransitionError)
  | QueueFault (e : EnqueueError)
  | UnparkFault (e : DriveError)
  | OwnerFault (e : HandOverError)
  | ForgeFault (a : ScmAnswer)
  | NoForgeWriter
  | NoSlug (url : string)
  | NoIssueFor (key : string)
  | NoProjectOwner
  | OwnedElsewhere (owner : string)
  | OwnerRefsUnchanged
  | MintStillOwed (name : string)
  | NameStillHeld (name : string)
  | CorridorFault (e : CorridorError)
  | StopFault (e : StopError)
  | ExitFault (e : ExitError)
  | RepairFault (e : RepairError)
  | NoForgeReader
  | SessionFault (e : SessionError)
  | BundleFailed
  | SpecRefused (what : string)
  | NotAPark (to : string)
  | FanoutStalled
  | PodRefused
  | Panicked.

Definition IsNotFound (e : Fail) : bool := match e with ApiFault ApiMissing => true | _ => false end.
Definition IsConflict (e : Fail) : bool := match e with ApiFault ApiConflict => true | _ => false end.
Definition IsAlreadyExists (e : Fail) : bool := match e with ApiFault ApiExists => true | _ => false end.


Definition Io (A : Type) : Type := Prog Call (result Fail A).

(** ** Calls as steps of a fallible program *)

Definition ok {A} (a : A) : Io A := Ret (Ok a).
Definition fail {A} (e : Fail) : Io A := Ret (Err e).

(** An API read, and an API write. *)
Definition api {A} (c : Call (result ApiError A)) : Io A :=
  Do c (fun r => match r with Ok a => ok a | Err e => fail (ApiFault e) end).

Definition write (c : Call (option ApiError)) : Io unit :=
  Do c (fun r => match r with None => ok tt | Some e => fail (ApiFault e) end).

Definition tell (c : Call unit) : Io unit := Do c (fun _ => ok tt).

(** A read of the forge. *)
Definition forge {A} (c : Call (result ScmAnswer A)) : Io A :=
  Do c (fun r => match r with Ok a => ok a | Err e => fail (ForgeFault e) end).

(** A choke point of internal/controller/transition.go, on the answers of the outside. *)
Definition choke (name : string) (f : Transition.World -> Outcome) : Io Task :=
  Do (StageAnswers name) (fun w =>
    Do (StageEffects name (o_effects (f w))) (fun _ =>
      match o_err (f w) with None => ok (o_task (f w)) | Some e => fail (ChokeFault e) end)).

(** [if apierrors.IsNotFound(err) { ... }]. *)
Definition found {A} (p : Io A) : Io (option A) :=
  let! r := p in
  match r with
  | Ok a => ok (Some a)
  | Err e => if IsNotFound e then ok None else fail e
  end.

(** [if err != nil && !apierrors.IsNotFound(err) { return err }]. *)
Definition unless_missing (p : Io unit) : Io unit := let? _ := found p in ok tt.

(** [retry.OnError]: the body again on an error it may be retried on, up to [n] times. *)
Fixpoint on_error {A} (n : nat) (again : Fail -> bool) (body : Io A) : Io A :=
  match n with
  | O => body
  | S n' => let! r := body in
            match r with
            | Err e => if again e then on_error n' again body else fail e
            | Ok a => ok a
            end
  end.

(** [retry.RetryOnConflict(retry.DefaultRetry, ...)]: five steps, the last error kept. *)
Definition on_conflict {A} (body : Io A) : Io A := on_error 4 IsConflict body.

(** The guarded writes, on the answers of the outside. *)
Section Guards.

Context (issueSize : Issue -> option Z) (mrSize : MergeRequest -> option Z) (taskSize : Task -> option Z).
Context (sp : option (Spiller Comment)) (notes : option (Spiller Note)).

Definition fit_answer {A} (r : result FitError A) : Io A :=
  match r with Ok a => ok a | Err e => fail (FitFault e) end.

Definition fitIssue (name : string) (mutate : Issue -> Issue) : Io Issue :=
  Do (IssueAnswers name) (fun '(reads, attempts) =>
    let '(r, es) := FitIssue issueSize sp reads mutate attempts in
    Do (IssueEffects name es) (fun _ => fit_answer r)).

Definition fitMergeRequest (name : string) (mutate : MergeRequest -> MergeRequest) : Io MergeRequest :=
  Do (MergeRequestAnswers name) (fun '(reads, attempts) =>
    let '(r, es) := FitMergeRequest mrSize sp reads mutate attempts in
    Do (MergeRequestEffects name es) (fun _ => fit_answer r)).

Definition fitTask (name : string) (mutate : Task -> Task) : Io Task :=
  Do (TaskAnswers name) (fun '(reads, attempts) =>
    let '(r, es) := FitTask taskSize notes false reads mutate attempts in
    Do (TaskEffects name es) (fun _ => fit_answer r)).

End Guards.

(** [if elapsed < interval { return interval - elapsed }] in front of a driver, and the
    stamp after one that answered nil: the next requeue, and the table of stamps. *)
Definition paced (interval : Duration) (last : gmap string Time) (project : string) (now : Time) (driver : Io unit)
  : Prog Call (result Fail Duration * gmap string Time) :=
  let drive := let! r := driver in
               Ret (match r with
                    | Ok _ => (Ok interval, <[project := now]> last)
                    | Err e => (Err e, last)
                    end) in
  match last !! project with
  | Some at_ => let elapsed := Sub now at_ in
                if elapsed <? interval then Ret (Ok (i64 (interval - elapsed)), last) else drive
  | None => drive
  end.

(** ** Lemmas *)

Lemma does_try {E A B} (p : Prog Call (result E A)) (f : A -> Prog Call (result E B)) R :
  does p (fun r es => match r with
                      | Ok a => does (f a) (fun b es' => R b (es ++ es'))
                      | Err e => R (Err e) es
                      end) ->
  does (try p f) R.
Proof.
  intros H. apply does_bind. eapply does_mono; [|exact H]. intros [a|e] es Hr; [exact Hr|].
  cbn. by rewrite app_nil_r.
Qed.

Lemma does_found {A} (p : Io A) R :
  does p (fun r es => match r with
                      | Ok a => R (Ok (Some a)) es
                      | Err e => if IsNotFound e then R (Ok None) es else R (Err e) es
                      end) ->
  does (found p) R.
Proof.
  intros H. apply does_bind. eapply does_mono; [|exact H]. intros [a|e] es Hr; cbn; rewrite ?app_nil_r; [exact Hr|].
  destruct (IsNotFound e); cbn; by rewrite app_nil_r.
Qed.

(** A retried body leaves the traces of its failures, then that of its last try. *)
Lemma does_on_error {A} n again (body : Io A) (R : result Fail A -> list (Did Call) -> Prop) :
  does body R -> does (on_error n again body) (fun r es => exists before es', es = before ++ es' /\ R r es').
Proof.
  intros H. induction n as [|n IH]; cbn [on_error].
  - eapply does_mono; [|exact H]. intros a es Hr. by exists [], es.
  - apply does_bind. eapply does_mono; [|exact H]. intros [a|e] es Hr; cbn.
    + exists [], es. by rewrite app_nil_r.
    + destruct (again e); [|cbn; exists [], es; by rewrite app_nil_r].
      eapply does_mono; [|exact IH]. intros r es0 (before & es' & -> & Hr'). exists (es ++ before), es'.
      by rewrite app_assoc.
Qed.

Lemma does_True {A} (p : Prog Call A) : does p (fun _ _ => True).
Proof. induction p as [a|X c k IH]; [exact I|]. intros x. exact (IH x). Qed.

Section KeepsCalls.

#[local] Set Default Proof Using "Type*".

Context (Q : list (Did Call) -> Prop) `{HQ : Closed _ Q}.

Lemma keeps_value {A} (r : result Fail A) : keeps Q (Ret r).
Proof. by apply keeps_ret. Qed.

Lemma keeps_api {A} (c : Call (result ApiError A)) : (forall x, Q [did c x]) -> keeps Q (api c).
Proof. intros Hc. apply keeps_do; [exact HQ|exact Hc|]. intros []; apply keeps_value. Qed.

Lemma keeps_forge {A} (c : Call (result ScmAnswer A)) : (forall x, Q [did c x]) -> keeps Q (forge c).
Proof. intros Hc. apply keeps_do; [exact HQ|exact Hc|]. intros []; apply keeps_value. Qed.

Lemma keeps_write c : (forall x, Q [did c x]) -> keeps Q (write c).
Proof. intros Hc. apply keeps_do; [exact HQ|exact Hc|]. intros []; apply keeps_value. Qed.

Lemma keeps_tell c : (forall x, Q [did c x]) -> keeps Q (tell c).
Proof. intros Hc. apply keeps_do; [exact HQ|exact Hc|]. intros; apply keeps_value. Qed.

Lemma keeps_found {A} (p : Io A) : keeps Q p -> keeps Q (found p).
Proof.
  intros Hp. apply keeps_bind; [exact HQ|exact Hp|]. intros [a|e]; [apply keeps_value|].
  destruct (IsNotFound e); apply keeps_value.
Qed.

Lemma keeps_unless_missing p : keeps Q p -> keeps Q (unless_missing p).
Proof. intros Hp. apply keeps_try; [exact HQ|by apply keeps_found|]. intros; apply keeps_value. Qed.

Lemma keeps_on_error {A} n again (body : Io A) : keeps Q body -> keeps Q (on_error n again body).
Proof.
  intros Hb. induction n as [|n IH]; cbn [on_error]; [exact Hb|]. apply keeps_bind; [exact HQ|exact Hb|].
  intros [a|e]; [apply keeps_value|]. destruct (again e); [exact IH|apply keeps_value].
Qed.

Lemma keeps_on_conflict {A} (body : Io A) : keeps Q body -> keeps Q (on_conflict body).
Proof. apply keeps_on_error. Qed.

Lemma keeps_choke name f :
  (forall x, Q [did (StageAnswers name) x]) -> (forall es x, Q [did (StageEffects name es) x]) -> keeps Q (choke name f).
Proof.
  intros H1 H2. apply keeps_do; [exact HQ|exact H1|]. intros w. apply keeps_do; [exact HQ|apply H2|].
  intros _. destruct (o_err _); apply keeps_value.
Qed.

Lemma keeps_fitTask size sp name mutate :
  (forall x, Q [did (TaskAnswers name) x]) -> (forall es x, Q [did (TaskEffects name es) x]) ->
  keeps Q (fitTask size sp name mutate).
Proof.
  intros H1 H2. apply keeps_do; [exact HQ|exact H1|]. intros [reads attempts]. destruct (FitTask _ _ _ _ _ _) as [r es].
  apply keeps_do; [exact HQ|apply H2|]. intros _. destruct r; apply keeps_value.
Qed.

Lemma keeps_fitIssue size sp name mutate :
  (forall x, Q [did (IssueAnswers name) x]) -> (forall es x, Q [did (IssueEffects name es) x]) ->
  keeps Q (fitIssue size sp name mutate).
Proof.
  intros H1 H2. apply keeps_do; [exact HQ|exact H1|]. intros [reads attempts]. destruct (FitIssue _ _ _ _ _) as [r es].
  apply keeps_do; [exact HQ|apply H2|]. intros _. destruct r; apply keeps_value.
Qed.

Lemma keeps_fitMergeRequest size sp name mutate :
  (forall x, Q [did (MergeRequestAnswers name) x]) -> (forall es x, Q [did (MergeRequestEffects name es) x]) ->
  keeps Q (fitMergeRequest size sp name mutate).
Proof.
  intros H1 H2. apply keeps_do; [exact HQ|exact H1|]. intros [reads attempts].
  destruct (FitMergeRequest _ _ _ _ _) as [r es]. apply keeps_do; [exact HQ|apply H2|]. intros _. destruct r; apply keeps_value.
Qed.

End KeepsCalls.

(** One step into a program that is to keep something; [side] proves it of a single call. *)
Ltac keep_step side :=
  match goal with
  | |- each _ _ => unfold each
  | |- keeps ?Q (ok _) => apply (keeps_value Q)
  | |- keeps ?Q (fail _) => apply (keeps_value Q)
  | |- keeps ?Q (Ret _) => apply (keeps_ret Q)
  | |- keeps ?Q (api _) => apply (keeps_api Q); intros ?; side
  | |- keeps ?Q (forge _) => apply (keeps_forge Q); intros ?; side
  | |- keeps ?Q (write _) => apply (keeps_write Q); intros ?; side
  | |- keeps ?Q (tell _) => apply (keeps_tell Q); intros ?; side
  | |- keeps ?Q (found _) => apply (keeps_found Q)
  | |- keeps ?Q (unless_missing _) => apply (keeps_unless_missing Q)
  | |- keeps ?Q (on_conflict _) => apply (keeps_on_conflict Q)
  | |- keeps ?Q (on_error _ _ _) => apply (keeps_on_error Q)
  | |- keeps ?Q (choke _ _) => apply (keeps_choke Q); intros; side
  | |- keeps ?Q (fitTask _ _ _ _) => apply (keeps_fitTask Q); intros; side
  | |- keeps ?Q (fitIssue _ _ _ _) => apply (keeps_fitIssue Q); intros; side
  | |- keeps ?Q (fitMergeRequest _ _ _ _) => apply (keeps_fitMergeRequest Q); intros; side
  | |- keeps ?Q (foreach _ _) => apply (keeps_foreach Q); intros ? ?
  | |- keeps ?Q (fold_prog _ _ _) => apply (keeps_fold_prog Q); intros ? ? ?
  | |- keeps ?Q (fold_all _ _ _) => apply (keeps_fold_all Q); intros ? ? ?
  | |- keeps ?Q (try _ _) => apply (keeps_try Q); [|intros ?]
  | |- keeps ?Q (bind _ _) => apply (keeps_bind Q); [|intros ?]
  | |- keeps ?Q (Do _ _) => apply (keeps_do Q); [intros ?; side|intros ?]
  | |- keeps _ (let '(_, _) := ?x in _) => destruct x
  | |- keeps _ (if ?b then _ else _) => destruct b
  | |- keeps _ (match ?x with _ => _ end) => destruct x
  | |- keeps _ ((match ?x with _ => _ end) _) => destruct x
  end.

Ltac keep_go side := cbv zeta; repeat (keep_step side; cbv zeta).

(** The calls of a program, one by one. *)
Ltac each_go side := keep_go ltac:(apply Forall_singleton; side).

(** Runs a specification up to its next answer. *)
Ltac play := cbn [does bind try ok fail api write tell found unless_missing].
