(* ===== verification/Release.v ===== *)
(** * Letting go of a Task's artifacts (internal/controller/reaper.go, sever.go,
    ownership.go): owner references that are dropped or handed over, the notice on an
    Issue, the merge requests a Task closes with it, and the deletion of the Task. *)

From Stdlib Require Import String Ascii.
From S2P Require Import Prelude GoTime Text Limits Api Vocabulary Machine Park ObjBudget Own Names Logins Seq Refs Corridor LivePods Calls.

Open Scope Z_scope.
Open Scope go_scope.

(** ** Annotations *)

Definition TataraParkedLabel : string := "tatara-parked".
Definition AnnTerminalCommented : string := "tatara.dev/terminal-commented".
Definition AnnTerminalClosed : string := "tatara.dev/terminal-closed".
Definition AnnAdoptionRefused : string := "tatara.dev/adoption-refused".
Definition AnnTerminalReleased : string := "tatara.dev/terminal-released".
Definition AnnHumanReviewRounds : string := "tatara.dev/human-review-rounds".
Definition adoptionRefusedSHASep : string := "@".

(** ** Objects with annotations, and artifacts with owners *)

Class Object (A : Type) := {
  obj_name : A -> string;
  obj_ann : A -> gmap string string;
  with_ann : gmap string string -> A -> A;
  get_obj : View -> string -> Call (result ApiError A);
  update_obj : A -> Call (option ApiError);
  with_ann_name a o : obj_name (with_ann a o) = obj_name o;
  with_ann_ann a o : obj_ann (with_ann a o) = a
}.

Class Artifact (A : Type) `{Object A} := {
  owners : A -> list OwnerReference;
  with_owners : list OwnerReference -> A -> A;
  with_owners_name r o : obj_name (with_owners r o) = obj_name o;
  with_owners_owners r o : owners (with_owners r o) = r
}.

#[local] Obligation Tactic := intros; reflexivity.

#[export] Program Instance task_object : Object Task := {
  obj_name := task_Name; obj_ann := Annotations;
  with_ann a t := t <| Annotations := a |>;
  get_obj := GetTask; update_obj := UpdateTask
}.

#[export] Program Instance issue_object : Object Issue := {
  obj_name := iss_Name; obj_ann := iss_Annotations;
  with_ann a i := i <| iss_Annotations := a |>;
  get_obj := GetIssue; update_obj := UpdateIssue
}.

#[export] Program Instance mergerequest_object : Object MergeRequest := {
  obj_name := mr_Name; obj_ann := mr_Annotations;
  with_ann a m := m <| mr_Annotations := a |>;
  get_obj := GetMergeRequest; update_obj := UpdateMergeRequest
}.

#[export] Program Instance issue_artifact : Artifact Issue := {
  owners := iss_OwnerReferences;
  with_owners r i := i <| iss_OwnerReferences := r |>
}.

#[export] Program Instance mergerequest_artifact : Artifact MergeRequest := {
  owners := mr_OwnerReferences;
  with_owners r m := m <| mr_OwnerReferences := r |>
}.

(** [o.Annotations[k]]. *)
Definition annotation `{Object A} (o : A) (k : string) : string := default ""%string (obj_ann o !! k).

Definition set_annotation `{Object A} (o : A) (k v : string) : A := with_ann (<[k := v]> (obj_ann o)) o.

(** [annotateTask], [annotateIssueOn], [annotateMergeRequest]: the caller's copy with the
    annotations that were written. *)
Definition annotate `{Object A} (o : A) (k v : string) : Io A :=
  on_conflict
    (let? cur := api (get_obj Cached (obj_name o)) in
     let cur := set_annotation cur k v in
     let? _ := write (update_obj cur) in
     ok (with_ann (obj_ann cur) o)).

(** ** Reading what a Task owns *)

Fixpoint owned_of {A} (get : string -> Call (result ApiError A)) (refs : list string) : Io (list A) :=
  match refs with
  | [] => ok []
  | name :: rest =>
      let? o := found (api (get name)) in
      let? l := owned_of get rest in
      ok (match o with Some a => a :: l | None => l end)
  end.

Definition ownedIssues (t : Task) : Io (list Issue) := owned_of (GetIssue Cached) (IssueRefs (Status t)).
Definition ownedMRs (t : Task) : Io (list MergeRequest) := owned_of (GetMergeRequest Cached) (MRRefs (Status t)).

Definition repositoryFor (name : string) : Io Repository := api (GetRepository name).

(** A list by the project index, or of everything where the client has no index. *)
Definition listProjectTasks (proj : Project) : Io (list Task) :=
  Do (ListTasksOf (proj_Name proj)) (fun r =>
    match r with
    | Ok l => ok l
    | Err ApiUnindexed => api ListTasks
    | Err e => fail (ApiFault e)
    end).

(** ** Owner references *)

Definition dropOwnerRef (refs : list OwnerReference) (taskName : string) : list OwnerReference :=
  List.filter (fun r => negb (names taskName r)) refs.

(** [MutateArtifactOwnerRefs]: what was written, [None] where the closure left it alone. *)
Definition MutateArtifactOwnerRefs `{Artifact A} {R} (o : A) (mutate : A -> result Fail (A * R))
  : Io (option (A * R)) :=
  on_conflict
    (let? fresh := api (get_obj Cached (obj_name o)) in
     match mutate fresh with
     | Err OwnerRefsUnchanged => ok None
     | Err e => fail e
     | Ok (changed, r) => let? _ := write (update_obj changed) in ok (Some (changed, r))
     end).

(** What a release did to an artifact. *)
Inductive Released := HandedOver (heir : string) | Dropped.

Definition owned_by `{Artifact A} (t : Task) (o : A) : bool :=
  match ControllerOwner (owners o) with Some owner => owner == task_Name t | None => false end.

(** The closure of [releaseOwnership]. *)
Definition release_mutate `{Artifact A} (t : Task) (others : gmap string bool) (dropWhenOrphaned : bool)
    (fresh : A) : result Fail (A * Released) :=
  if negb (owned_by t fresh) then Err OwnerRefsUnchanged
  else match OldestSurvivingOwner (owners fresh) others with
       | Some survivor =>
           match HandOverController (owners fresh) (Some (task_Name t)) (Some survivor) with
           | Ok refs => Ok (with_owners refs fresh, HandedOver survivor)
           | Err e => Err (OwnerFault e)
           end
       | None => if negb dropWhenOrphaned then Err OwnerRefsUnchanged
                 else Ok (with_owners (dropOwnerRef (owners fresh) (task_Name t)) fresh, Dropped)
       end.

(** The artifact as it is afterwards, and whether control went to another Task. *)
Definition release_artifact `{Artifact A} (t : Task) (others : gmap string bool) (o : A) (drop : bool)
  : Io (A * bool) :=
  let! r := MutateArtifactOwnerRefs o (release_mutate t others drop) in
  match r with
  | Ok None => ok (o, false)
  | Ok (Some (o', HandedOver _)) => ok (o', true)
  | Ok (Some (o', Dropped)) => ok (o', false)
  | Err e =>
      let? _ := (if IsConflict e then ok tt else tell (Count "gc_blocked" ["no_controller_owner"])) in
      fail e
  end.

(** The Tasks that may inherit: those that are live, but for this one. *)
Definition other_tasks (t : Task) (live : gmap string bool) : gmap string bool :=
  filter (fun kv => kv.2 = true /\ kv.1 <> task_Name t) live.

(** ** The forge *)

Section Release.

(** [strings.ToLower] and the path of [url.Parse]; whether the metrics are wired. *)
Context (toLower : string -> string) (parse : string -> option string) (m : bool) (proj : Project).

Definition scm_word (a : ScmAnswer) : string :=
  if scm_ok a then "ok" else if isPermanentTargetGone a then "gone" else "error".

Definition ErrorStatus (a : ScmAnswer) : string :=
  match a with
  | ScmOk => ""%string
  | ScmHTTP status => FormatInt status
  | ScmFailed => "network"%string
  end.

Definition RecordSCM (verb : string) (a : ScmAnswer) : Io unit :=
  if m then
    let? _ := tell (Count "scm_write" [provider_of proj; verb; scm_word a]) in
    if scm_ok a then ok tt else tell (Count "scm_request_error" [provider_of proj; verb; ErrorStatus a])
  else ok tt.

(** A write to the forge, recorded; an error that is not [isPermanentTargetGone] ends the
    program. *)
Definition forge_write (verb : string) (c : Call ScmAnswer) : Io unit :=
  Do c (fun a =>
    let? _ := RecordSCM verb a in
    if scm_ok a || isPermanentTargetGone a then ok tt else fail (ForgeFault a)).

Definition scanWriter : Io unit := Do ForgeWriter (fun resolved : bool => if resolved then ok tt else fail NoForgeWriter).

(** ** The notice on an Issue *)

Record parkNotice := mkParkNotice { Marker : string; MarkerValue : string; Body : string }.

(** The comment once per marker, then the label. *)
Definition commentAndParkIssue (iss : Issue) (repo : Repository) (n : parkNotice) : Io unit :=
  match RepoSlugFromURL toLower parse (repo_URL repo) with
  | None => fail (NoSlug (repo_URL repo))
  | Some slug =>
      let issueRef := with_sigil slug "#"%char (is_Number (iss_Spec iss)) in
      let? _ := (if annotation iss (Marker n) == MarkerValue n then ok tt
                 else let? _ := forge_write "comment" (PostComment issueRef (Body n)) in
                      let? _ := annotate iss (Marker n) (MarkerValue n) in ok tt) in
      forge_write "add_label" (AddLabel issueRef TataraParkedLabel)
  end.

Definition terminalIssueComment (t : Task) : string :=
  sprintf ["tatara has stopped working this issue: task `"; task_Name t; "` ended in `"; State (Status t);
           "` (`"; ParkReason (Status t); "`)."; newline; newline;
           "The issue stays open and is labelled `"; TataraParkedLabel; "`, so the platform will not spend ";
           "another agent on it until a human replies here. Comment to pick it back up."].

Definition notifyTerminalIssueWith (t : Task) (iss : Issue) (repo : Repository) : Io unit :=
  commentAndParkIssue iss repo (mkParkNotice AnnTerminalCommented (task_Name t) (terminalIssueComment t)).

Definition notifyTerminalIssue (t : Task) (iss : Issue) : Io unit :=
  let? _ := scanWriter in
  let? repo := repositoryFor (is_RepositoryRef (iss_Spec iss)) in
  notifyTerminalIssueWith t iss repo.

(** ** The merge requests of a Task *)

(** One the bot opened from the Task's own branch. *)
Definition ourMR (t : Task) (mr : MergeRequest) : bool :=
  let bot := botLoginOf proj in
  (bot != "") && (mr_Author (mr_Status mr) == bot) && (mr_HeadBranch (mr_Status mr) == TaskBranch toLower t).

Definition carryHumanReviewRounds (t : Task) (mr : MergeRequest) : Io MergeRequest :=
  if HumanReviewRounds (Status t) <=? 0 then ok mr
  else annotate mr AnnHumanReviewRounds (FormatInt (HumanReviewRounds (Status t))).

Definition mr_open (mr : MergeRequest) : bool := mr_State (mr_Status mr) == "open".

(** Whether a release leaves the merge request without any Task. *)
Definition orphaning (t : Task) (others : gmap string bool) (mr : MergeRequest) (drop : bool) : bool :=
  drop && owned_by t mr && negb (is_set (OldestSurvivingOwner (owners mr) others)).

Definition release_issues (t : Task) (others : gmap string bool) (issues : list Issue) : Io (list string) :=
  fold_prog issues [] (fun survivors iss =>
    let? (_, survived) := release_artifact t others iss true in
    ok (if survived then iss_Name iss :: survivors else survivors)).

Definition release_mrs (t : Task) (others : gmap string bool) (mrs : list MergeRequest) (survivors : list string)
  : Io (list MergeRequest * list string) :=
  fold_prog mrs ([], survivors) (fun '(done_, survivors) mr =>
    let drop := negb (ourMR t mr) && mr_open mr in
    let? mr := (if orphaning t others mr drop then carryHumanReviewRounds t mr else ok mr) in
    let? (mr, survived) := release_artifact t others mr drop in
    ok ((done_ ++ [mr])%list, if survived then mr_Name mr :: survivors else survivors)).

(** The merge requests as they are afterwards, and the artifacts another Task inherited. *)
Definition releaseOwnership (t : Task) (issues : list Issue) (mrs : list MergeRequest) (live : gmap string bool)
  : Io (list MergeRequest * list string) :=
  let others := other_tasks t live in
  let? survivors := release_issues t others issues in
  release_mrs t others mrs survivors.

Definition adoptionRefusalReason (t : Task) : string :=
  if State (Status t) == StateRejected then
    if StateReason (Status t) != "" then StateReason (Status t) else StateRejected
  else if (ParkReason (Status t) == ReasonImplementDeclined) || (ParkReason (Status t) == ReasonDeclined)
  then ParkReason (Status t) else "".

Definition markAdoptionRefused (t : Task) (mrs : list MergeRequest) (wasController : list string)
  : Io (list MergeRequest) :=
  if negb (AdoptedUpgrade (Some t)) then ok mrs
  else let reason := adoptionRefusalReason t in
       if reason == "" then ok mrs
       else fold_prog mrs [] (fun done_ mr =>
              if negb (str_mem wasController (mr_Name mr)) || negb (mr_open mr)
                 || (annotation mr AnnAdoptionRefused != "") then ok (done_ ++ [mr])%list
              else let? mr := annotate mr AnnAdoptionRefused
                                (join [reason; adoptionRefusedSHASep; mr_HeadSHA (mr_Status mr)]) in
                   ok (done_ ++ [mr])%list).

Definition taskStillPushes (t : Task) : bool := negb (TaskDone t).

(** The first live Task of the project, other than [exclude], that pushes to the branch. *)
Definition pushes_to (exclude branch : string) (t : Task) : bool :=
  (task_Name t != exclude) && (ProjectRef (Spec t) == proj_Name proj) && taskStillPushes t && (PushBranch toLower t == branch).

Definition liveTaskPushingTo (branch exclude : string) : Io (option string) :=
  if branch == "" then ok None
  else let? l := listProjectTasks proj in
       ok (option_map task_Name (List.find (pushes_to exclude branch) l)).

Definition closing_comment (t : Task) : string :=
  sprintf ["Closing: the tatara task that opened this PR ended in `"; State (Status t); "` (`"; ParkReason (Status t);
           "`). Its head branch is deleted with it."].

(** The branch goes with the merge request, unless a live Task still pushes to it. *)
Definition delete_own_branch (t : Task) (repo : Repository) (branch : string) : Io unit :=
  Do CanDeleteBranches (fun can : bool =>
    if negb can then ok tt
    else let? live := liveTaskPushingTo branch (task_Name t) in
         match live with
         | Some _ => ok tt
         | None => forge_write "delete_branch" (DeleteBranch (repo_URL repo) branch)
         end).

(** What [closeOwnMRs] closes: the Task's own, controlled by it alone. *)
Definition closable (t : Task) (wasController survivors : list string) (mr : MergeRequest) : bool :=
  mr_open mr && (annotation mr AnnTerminalClosed == "")
  && str_mem wasController (mr_Name mr) && negb (str_mem survivors (mr_Name mr)) && ourMR t mr.

Definition close_own_mr (t : Task) (mr : MergeRequest) : Io unit :=
  let? _ := scanWriter in
  let? repo := repositoryFor (mrs_RepositoryRef (mr_Spec mr)) in
  let? _ := forge_write "close_pr" (ClosePR (repo_URL repo) (mrs_Number (mr_Spec mr)) (closing_comment t)) in
  let? _ := annotate mr AnnTerminalClosed (task_Name t) in
  delete_own_branch t repo (mr_HeadBranch (mr_Status mr)).

Definition closeOwnMRs (t : Task) (mrs : list MergeRequest) (wasController survivors : list string) : Io unit :=
  foreach mrs (fun mr => if closable t wasController survivors mr then close_own_mr t mr else ok tt).

(** ** The release of a Task *)

Definition no_fold (t : Task) : Task :=
  on_status t (fun s => s <| FoldInFlight := [] |> <| FoldInFlightSince := None |>).

Definition clearFoldInFlight (t : Task) : Io Task :=
  let? _ := on_conflict
    (let? cur := api (GetTask Cached (task_Name t)) in
     if (match FoldInFlight (Status cur) with [] => true | _ => false end)
        && negb (is_set (FoldInFlightSince (Status cur))) then ok tt
     else write (UpdateTaskStatus (no_fold cur))) in
  ok (no_fold t).

Definition controlled_names (t : Task) (mrs : list MergeRequest) : list string :=
  map mr_Name (List.filter (owned_by t) mrs).

(** Notice, marker, handover, close, latch, in this order. *)
Definition releaseTerminal (t : Task) (live : gmap string bool) : Io Task :=
  let? t := (match FoldInFlight (Status t) with [] => ok t | _ => clearFoldInFlight t end) in
  if annotation t AnnTerminalReleased == "true" then ok t
  else
    let? issues := ownedIssues t in
    let? mrs := ownedMRs t in
    let wasController := controlled_names t mrs in
    let? _ := foreach issues (fun iss =>
                if iss_State (iss_Status iss) == "closed" then ok tt else notifyTerminalIssue t iss) in
    let? mrs := markAdoptionRefused t mrs wasController in
    let? (mrs, survivors) := releaseOwnership t issues mrs live in
    let? _ := closeOwnMRs t mrs wasController survivors in
    annotate t AnnTerminalReleased "true".

(** The labels of a Task's token series. *)
Definition series_labels (t : Task) : list string :=
  [ProjectRef (Spec t); RepositoryRef (Spec t); Kind (Spec t);
   match Source (Spec t) with
   | Some src => if src_IssueRef src != "" then src_IssueRef src
                 else if 0 <? src_Number src then FormatInt (src_Number src) else ""%string
   | None => ""%string
   end].

Definition deleteReapedTask (t : Task) (live : gmap string bool) : Io unit :=
  let? _ := (if annotation t AnnTerminalReleased == "true" then ok tt
             else let? issues := ownedIssues t in
                  let? mrs := ownedMRs t in
                  let? _ := releaseOwnership t issues mrs live in ok tt) in
  let? _ := unless_missing (write (DeleteTask (task_Name t))) in
  if m then tell (Count "delete_task_series" (series_labels t)) else ok tt.

End Release.

(** ** Severing one Issue (sever.go) *)

Inductive SeverMode := SeverDeleteCR | SeverOrphan | SeverRetainCR.

Definition drop_name (name : string) (l : list string) : list string := List.filter (fun n => n != name) l.

Definition without_issue (issueName : string) (t : Task) : Task :=
  on_status t (fun s => s <| IssueRefs ::= drop_name issueName |>).

(** The Task lets go first; its copy is what the API server has. *)
Definition detach_issue (t : Task) (issueName : string) : Io Task :=
  on_conflict
    (let? fresh := found (api (GetTask Cached (task_Name t))) in
     match fresh with
     | None => ok t
     | Some fresh =>
         let fresh' := without_issue issueName fresh in
         if Nat.eqb (length (IssueRefs (Status fresh'))) (length (IssueRefs (Status fresh))) then ok fresh'
         else let? _ := write (UpdateTaskStatus fresh') in ok fresh'
     end).

(** Which of the other owners still exist. *)
Definition existing_owners (t : Task) (refs : list OwnerReference) : Io (gmap string bool) :=
  fold_prog refs ∅ (fun live r =>
    if negb (isTaskRef r) || (ref_Name r == task_Name t) then ok live
    else let? other := found (api (GetTask Cached (ref_Name r))) in
         ok (<[ref_Name r := is_set other]> live)).

Definition orphan_owner (t : Task) (issueName : string) : Io unit :=
  on_conflict
    (let? iss := api (GetIssue Cached issueName) in
     let dropped := with_owners (dropOwnerRef (owners iss) (task_Name t)) iss in
     if negb (owned_by t iss) then write (UpdateIssue dropped)
     else
       let? live := existing_owners t (owners iss) in
       match OldestSurvivingOwner (owners iss) live with
       | Some heir =>
           match HandOverController (owners iss) (Some (task_Name t)) (Some heir) with
           | Ok refs => write (UpdateIssue (with_owners refs iss))
           | Err e => fail (OwnerFault e)
           end
       | None => write (UpdateIssue dropped)
       end).

Definition with_labels (f : list string -> list string) (iss : Issue) : Issue :=
  iss <| iss_Status ::= fun s => s <| iss_Labels ::= f |> |>.

Definition strip_parked_label (issueName : string) : Io unit :=
  on_conflict
    (let? iss := api (GetIssue Cached issueName) in
     if negb (str_mem (iss_Labels (iss_Status iss)) TataraParkedLabel) then ok tt
     else write (UpdateIssueStatus (with_labels (drop_name TataraParkedLabel) iss))).

Definition SeverIssueFromTask (t : Task) (issueName : string) (mode : SeverMode) : Io Task :=
  let? t := detach_issue t issueName in
  match mode with
  | SeverRetainCR => ok t
  | SeverDeleteCR =>
      let? iss := found (api (GetIssue Cached issueName)) in
      match iss with
      | None => ok t
      | Some _ => let? _ := unless_missing (write (DeleteIssue issueName)) in ok t
      end
  | SeverOrphan =>
      let? orphaned := found (orphan_owner t issueName) in
      match orphaned with
      | None => ok t
      | Some _ => let? _ := found (strip_parked_label issueName) in ok t
      end
  end.

(** ** What the theorems say *)

(** The Task no longer controls the Issue: it was found gone, found without the Task as its
    controller, or written so. *)
Definition let_go (t : Task) (name : string) (es : list (Did Call)) : Prop :=
  In (did (GetIssue Cached name) (Err ApiMissing)) es
  \/ (exists iss, In (did (GetIssue Cached name) (Ok iss)) es /\ owned_by t iss = false)
  \/ (exists iss, In (did (UpdateIssue iss) None) es /\ iss_Name iss = name /\ owned_by t iss = false).

(** The API server answers a read with the object that was asked for. *)
Definition honest (es : list (Did Call)) : Prop :=
  forall v name iss, In (did (GetIssue v name) (Ok iss)) es -> iss_Name iss = name.

(** What was read or written of a merge request. *)
Definition same_mr (mr mr' : MergeRequest) : Prop :=
  mr_Name mr = mr_Name mr' /\ mr_Status mr = mr_Status mr' /\ mr_Spec mr = mr_Spec mr'.

Definition seen (es : list (Did Call)) (mr : MergeRequest) : Prop :=
  exists v name mr0, In (did (GetMergeRequest v name) (Ok mr0)) es /\ same_mr mr0 mr.

(** What a call deletes or closes. *)
Definition deleted_task (d : Did Call) : option string :=
  match did_call d with DeleteTask name => Some name | _ => None end.
Definition closed_pr (d : Did Call) : option (string * Z) :=
  match did_call d with ClosePR url number _ => Some (url, number) | _ => None end.
Definition deleted_branch (d : Did Call) : option string :=
  match did_call d with DeleteBranch _ branch => Some branch | _ => None end.

(** A merge request that is closed is one of the Task's own, open as it was read; a branch
    that is deleted is the Task's own, with no live Task of the project pushing to it in a
    list of the same pass. *)
Definition own_only (toLower : string -> string) (proj : Project) (t : Task) (es : list (Did Call)) (d : Did Call) : Prop :=
  match did_call d with
  | ClosePR _ n _ =>
      exists mr, seen es mr /\ n = mrs_Number (mr_Spec mr) /\ mr_open mr = true /\ ourMR toLower proj t mr = true
  | DeleteBranch _ b =>
      b = TaskBranch toLower t
      /\ exists l, (In (did ListTasks (Ok l)) es \/ In (did (ListTasksOf (proj_Name proj)) (Ok l)) es)
                   /\ existsb (pushes_to toLower proj (task_Name t) b) l = false
  | _ => True
  end.

(** Neither closes nor deletes on the forge. *)
Definition quiet (d : Did Call) : Prop := closed_pr d = None /\ deleted_branch d = None.

(** A program that knows the merge requests of [K] and closes no other but those it sees;
    [pick] is what it hands on. *)
Definition tidy (toLower : string -> string) (proj : Project) (t : Task) {B} (pick : B -> list MergeRequest)
    (K : MergeRequest -> Prop) (p : Io B) : Prop :=
  does p (fun r es =>
    (forall ctx, incl es ctx -> (forall mr, K mr -> seen ctx mr) -> Forall (own_only toLower proj t ctx) es)
    /\ (forall b, r = Ok b -> forall mr, In mr (pick b) -> K mr \/ seen es mr)).

Definition known (K : MergeRequest -> Prop) : Prop := forall mr mr', K mr -> same_mr mr mr' -> K mr'.

(** An outside with one Issue, and one pull request of the bot's, that a Task owns. *)
Definition owner_ref (name : string) : OwnerReference :=
  mkOwnerReference groupVersion taskKind name "u" (Some true) (Some true).

Definition owning_task : Task :=
  zero_Task <| task_Name := "t"%string |>
    <| Status ::= fun s => s <| State := StateRejected |> <| IssueRefs := ["i"%string] |> <| MRRefs := ["m"%string] |> |>.

Definition bot_project : Project :=
  zero_Project <| proj_Scm := Some (mkScmSpec ""%string "bot"%string [] [] ""%string ""%string 0 ""%string None ""%string ""%string ""%string) |>.

Definition owned_issue (name : string) : Issue :=
  zero_Issue <| iss_Name := name |> <| iss_OwnerReferences := [owner_ref "t"] |>
    <| iss_Status ::= fun s => s <| iss_State := "closed"%string |> |>.

Definition owned_mr (name : string) : MergeRequest :=
  zero_MergeRequest <| mr_Name := name |> <| mr_OwnerReferences := [owner_ref "t"] |>
    <| mr_Spec := mkMergeRequestSpec ""%string 7 ""%string ""%string |>
    <| mr_Status ::= fun s => s <| mr_State := "open"%string |> <| mr_Author := "bot"%string |>
                               <| mr_HeadBranch := "tatara/task-t"%string |> |>.

Definition one_of_each (past : list (Did Call)) (X : Type) (c : Call X) : X :=
  match c with
  | GetIssue _ name => Ok (owned_issue name)
  | GetMergeRequest _ name => Ok (owned_mr name)
  | GetTask _ name => Ok owning_task
  | GetRepository _ => Ok zero_Repository
  | c => nowhere c
  end.

(** ** Lemmas: owners *)

Lemma dropped_not_owned `{Artifact A} (t : Task) (o : A) :
  owned_by t (with_owners (dropOwnerRef (owners o) (task_Name t)) o) = false.
Proof.
  unfold owned_by, ControllerOwner. rewrite with_owners_owners.
  destruct (List.find _ _) as [r|] eqn:E; [cbn|done]. apply List.find_some in E as [Hin Hr].
  apply String.eqb_neq. intros Hn. unfold dropOwnerRef in Hin. apply filter_In in Hin as [_ Hn'].
  apply andb_true_iff in Hr as [Hk _]. unfold names in Hn'. rewrite Hk, Hn, String.eqb_refl in Hn'. done.
Qed.

Lemma handed_not_owned `{Artifact A} (t : Task) (o : A) heir refs :
  HandOverController (owners o) (Some (task_Name t)) (Some heir) = Ok refs -> owned_by t (with_owners refs o) = false.
Proof.
  rewrite hand_over_cases. destruct (find_target _ _ _) as [k|] eqn:Ek; [|done].
  case_bool_decide as Hne; [done|]. intros [= <-]. unfold owned_by. rewrite with_owners_owners.
  destruct (promote_swaps _ _ _ Ek) as (_ & Hc & _). rewrite Hc. apply String.eqb_neq. congruence.
Qed.

(** What a release writes keeps the name and lets go. *)
Lemma release_mutate_spec `{Artifact A} t others drop (o : A) o' r :
  release_mutate t others drop o = Ok (o', r) ->
  (exists refs, o' = with_owners refs o) /\ owned_by t o' = false.
Proof.
  unfold release_mutate. destruct (owned_by t o); [|done]. cbn [negb].
  destruct (OldestSurvivingOwner _ _) as [heir|].
  - destruct (HandOverController _ _ _) as [refs|e] eqn:E; [|done]. intros [= <- _].
    split; [by exists refs|]. by eapply handed_not_owned.
  - destruct drop; [|done]. intros [= <- _]. split; [by eexists|]. apply dropped_not_owned.
Qed.

Lemma let_go_app_l t name es es' : let_go t name es -> let_go t name (es ++ es').
Proof. unfold let_go. setoid_rewrite in_app_iff. intros [H|[(iss & H & Ho)|(iss & H & Ho)]]; eauto 8. Qed.

Lemma let_go_app_r t name es es' : let_go t name es' -> let_go t name (es ++ es').
Proof. unfold let_go. setoid_rewrite in_app_iff. intros [H|[(iss & H & Ho)|(iss & H & Ho)]]; eauto 8. Qed.

Lemma honest_app es es' : honest (es ++ es') -> honest es /\ honest es'.
Proof. intros H. split; intros v name iss Hin; apply (H v name iss), in_app_iff; auto. Qed.

Lemma honest_cons d es : honest (d :: es) -> honest es.
Proof. intros H v name iss Hin. apply (H v). by right. Qed.

(** ** Lemmas: an Issue is let go *)

(** What is asked of a program that may let an Issue go: on a nil error it did. *)
Definition lets_go {B} (t : Task) (name : string) (p : Io B) : Prop :=
  does p (fun r es => honest es -> is_ok r = true -> let_go t name es).

Lemma lets_go_first {B C} t name (p : Io B) (f : B -> Io C) : lets_go t name p -> lets_go t name (try p f).
Proof.
  intros H. apply does_try. eapply does_mono; [|exact H]. intros [b|e] es Hr; cbn; [|intros; done].
  eapply does_mono; [|apply does_True]. intros r es' _ Hh _. apply let_go_app_l, Hr; [|done].
  by apply honest_app in Hh as [? _].
Qed.

Lemma lets_go_then {B C} t name (p : Io B) (f : B -> Io C) : (forall b, lets_go t name (f b)) -> lets_go t name (try p f).
Proof.
  intros H. apply does_try. eapply does_mono; [|apply does_True]. intros [b|e] es _; [|intros; done].
  eapply does_mono; [|apply H]. intros r es' Hr Hh Ho. apply let_go_app_r, Hr; [|done]. by apply honest_app in Hh as [_ ?].
Qed.

Lemma lets_go_on_conflict {B} t name (p : Io B) : lets_go t name p -> lets_go t name (on_conflict p).
Proof.
  intros H. eapply does_mono; [|apply does_on_error, H]. intros r es (before & es' & -> & Hr) Hh Ho.
  apply let_go_app_r, Hr; [|done]. by apply honest_app in Hh as [_ ?].
Qed.

Lemma release_issue_lets_go t others iss : lets_go t (iss_Name iss) (release_artifact t others iss true).
Proof.
  unfold release_artifact.
  assert (lets_go t (iss_Name iss) (MutateArtifactOwnerRefs iss (release_mutate t others true))) as Hm.
  { apply lets_go_on_conflict. intros [cur|e]; [|intros; done].
    destruct (release_mutate t others true cur) as [[o' r]|e] eqn:E; play; rewrite E.
    - destruct (release_mutate_spec _ _ _ _ _ _ E) as [[refs ->] Ho]. intros [e|]; [intros; done|]. play. intros Hh _.
      right. right. eexists. split; [right; left; reflexivity|]. split; [|done].
      change (iss_Name (with_owners refs cur)) with (obj_name (with_owners refs cur)).
      rewrite with_owners_name. apply (Hh Cached). by left.
    - destruct e; try (intros; done). play. intros Hh _. right. left. exists cur. split; [by left|].
      unfold release_mutate in E. destruct (owned_by t cur); [cbn [negb] in E|done].
      destruct (OldestSurvivingOwner _ _); [destruct (HandOverController _ _ _); done|done]. }
  apply does_bind. eapply does_mono; [|exact Hm]. intros [[[o' [heir|]]|]|e] es Hr; cbn.
  1,2,3: rewrite app_nil_r; intros Hh _; by apply Hr.
  destruct (IsConflict e); [intros; done|]. intros; done.
Qed.

(** The reads of a list of references: each was found, or is gone. *)
Lemma owned_issues_found names0 :
  does (owned_of (GetIssue Cached) names0) (fun r es => forall l, r = Ok l -> honest es ->
    forall name, In name names0 -> In name (map iss_Name l) \/ In (did (GetIssue Cached name) (Err ApiMissing)) es).
Proof.
  induction names0 as [|n names0 IH]; [by intros l|]. cbn [owned_of]. apply does_try, does_found.
  intros [iss|e]; cbn.
  - apply does_try. eapply does_mono; [|exact IH]. intros [l|e] es Hr; [|done]. cbn. intros l' [= <-] Hh name [->|Hin].
    + left. left. apply (Hh Cached). by left.
    + rewrite app_nil_r in *. apply honest_cons in Hh. destruct (Hr l eq_refl Hh name Hin); [left|right]; by right.
  - destruct e; cbn; try done. apply does_try. eapply does_mono; [|exact IH].
    intros [l|e] es Hr; [|done]. cbn. intros l' [= <-] Hh name [->|Hin]; [right; by left|].
    rewrite app_nil_r in *. apply honest_cons in Hh. destruct (Hr l eq_refl Hh name Hin); [by left|right; by right].
Qed.

(** The loop over the Issues lets go of every one. *)
Lemma release_issues_lets_go t others issues : forall iss, In iss issues -> forall survivors,
  lets_go t (iss_Name iss) (fold_prog issues survivors (fun survivors iss =>
    let? (_, survived) := release_artifact t others iss true in
    ok (if survived then iss_Name iss :: survivors else survivors))).
Proof.
  induction issues as [|i issues IH]; [done|]. intros iss [->|Hin] survivors; cbn [fold_prog].
  - apply lets_go_first, lets_go_first, release_issue_lets_go.
  - apply lets_go_then. intros s. by apply IH.
Qed.

Lemma released_lets_go toLower proj t live issueName :
  In issueName (IssueRefs (Status t)) ->
  lets_go t issueName (let? issues := ownedIssues t in
                       let? mrs := ownedMRs t in
                       let? _ := releaseOwnership toLower proj t issues mrs live in ok tt).
Proof.
  intros Hin. apply does_try. eapply does_mono; [|apply owned_issues_found].
  intros [issues|e] es Hf; [|intros; done]. cbn beta iota.
  assert (forall A (p : Io A), (In issueName (map iss_Name issues) -> lets_go t issueName p) ->
            does p (fun b es' => honest (es ++ es') -> is_ok b = true -> let_go t issueName (es ++ es'))) as Hp.
  { intros A p Hp. destruct (in_dec string_dec issueName (map iss_Name issues)) as [Hi|Hi].
    - eapply does_mono; [|exact (Hp Hi)]. intros r es' Hr Hh Ho. apply let_go_app_r, Hr; [|done].
      by apply honest_app in Hh as [_ ?].
    - eapply does_mono; [|apply does_True]. intros r es' _ Hh _. apply let_go_app_l.
      apply honest_app in Hh as [Hh _]. destruct (Hf issues eq_refl Hh issueName Hin); [done|by left]. }
  apply Hp. intros Hi. apply in_map_iff in Hi as (iss & <- & Hi).
  apply lets_go_then. intros mrs. apply lets_go_first. unfold releaseOwnership.
  apply lets_go_first. by apply release_issues_lets_go.
Qed.

(** A release deletes no Task. *)
Definition spares (d : Did Call) : Prop := deleted_task d = None.

Ltac spare := each_go ltac:(reflexivity).

Lemma annotate_spares `{Object A} (o : A) k v :
  (forall v n x, spares (did (get_obj v n) x)) -> (forall a x, spares (did (update_obj a) x)) -> each spares (annotate o k v).
Proof. intros H1 H2. unfold annotate. each_go ltac:(first [apply H1|apply H2]). Qed.

Lemma annotate_mr_spares (o : MergeRequest) k v : each spares (annotate o k v).
Proof. by apply annotate_spares. Qed.

Lemma annotate_issue_spares (o : Issue) k v : each spares (annotate o k v).
Proof. by apply annotate_spares. Qed.

Lemma annotate_task_spares (o : Task) k v : each spares (annotate o k v).
Proof. by apply annotate_spares. Qed.

Lemma release_artifact_spares `{Artifact A} t others (o : A) drop :
  (forall v n x, spares (did (get_obj v n) x)) -> (forall a x, spares (did (update_obj a) x)) ->
  each spares (release_artifact t others o drop).
Proof.
  intros H1 H2. unfold release_artifact, MutateArtifactOwnerRefs.
  each_go ltac:(first [apply H1|apply H2|reflexivity]).
Qed.

Lemma owned_spares {A} get refs : (forall n x, spares (did (get n) x)) -> each spares (owned_of (A := A) get refs).
Proof. intros H. induction refs as [|n refs IH]; cbn [owned_of]; each_go ltac:(apply H); exact IH. Qed.

Lemma owned_quiet {A} get refs : (forall n x, quiet (did (get n) x)) -> each quiet (owned_of (A := A) get refs).
Proof. intros H. induction refs as [|n refs IH]; cbn [owned_of]; each_go ltac:(apply H); exact IH. Qed.

Lemma releaseOwnership_spares toLower proj t issues mrs live : each spares (releaseOwnership toLower proj t issues mrs live).
Proof.
  unfold releaseOwnership, release_issues, release_mrs, carryHumanReviewRounds. spare.
  all: first [by apply annotate_spares | by apply release_artifact_spares].
Qed.

(** ** Lemmas: what is closed and deleted on the forge *)

Lemma quiet_own toLower proj t es d : quiet d -> own_only toLower proj t es d.
Proof. destruct d as [X c x]. unfold quiet, own_only, closed_pr, deleted_branch. cbn. by destruct c; intros []. Qed.

Lemma quiet_all toLower proj t es l : Forall quiet l -> Forall (own_only toLower proj t es) l.
Proof. intros H. eapply Forall_impl; [exact H|]. intros d. apply quiet_own. Qed.

Lemma seen_app_l es es' mr : seen es mr -> seen (es ++ es') mr.
Proof. intros (v & n & mr0 & H & Hs). exists v, n, mr0. by rewrite in_app_iff; auto. Qed.

Lemma seen_app_r es es' mr : seen es' mr -> seen (es ++ es') mr.
Proof. intros (v & n & mr0 & H & Hs). exists v, n, mr0. by rewrite in_app_iff; auto. Qed.

Lemma seen_same es mr mr' : seen es mr -> same_mr mr mr' -> seen es mr'.
Proof.
  intros (v & n & mr0 & H & (A & B & C)) (A' & B' & C'). exists v, n, mr0. split; [done|].
  repeat split; congruence.
Qed.

Lemma same_mr_refl mr : same_mr mr mr.
Proof. done. Qed.

Lemma same_mr_trans a b c : same_mr a b -> same_mr b c -> same_mr a c.
Proof. intros (A & B & C) (A' & B' & C'). repeat split; congruence. Qed.

Lemma own_only_mono toLower proj t es es' d :
  (forall e, In e es -> In e es') -> own_only toLower proj t es d -> own_only toLower proj t es' d.
Proof.
  intros Hi. destruct d as [X c x]. unfold own_only. destruct c; cbn; try done.
  - intros (mr & (v & n & mr0 & H & Hs) & Hr). exists mr. split; [|done]. exists v, n, mr0. auto.
  - intros (-> & l & Hl & He). split; [done|]. exists l. split; [|done]. destruct Hl; auto.
Qed.

Lemma TaskBranch_not_empty toLower t : TaskBranch toLower t <> ""%string.
Proof.
  assert (forall s, TrimDash (String "t" s) <> ""%string) as Ht.
  { intros s. unfold TrimDash. cbn [TrimLeftDash Ascii.eqb Bool.eqb TrimRightDash]. by destruct (TrimRightDash s). }
  unfold TaskBranch. destruct (source_number t) as [s|].
  - set (base := str_join "" ["tatara/"%string; _; _; _]).
    assert (exists r, base = String "t" r) as [r Hr] by (eexists; reflexivity).
    cbv zeta. set (b := if slugifyTitle toLower (src_Title s) != "" then _ else base).
    assert (exists r', b = String "t" r') as [r' Hb].
    { subst b. destruct (_ != _); [|by exists r]. rewrite Hr. eexists. reflexivity. }
    rewrite Hb. destruct (_ <? _); [|done]. apply Ht.
  - by destruct (_ && _).
Qed.

(** What a release leaves quiet. *)
Lemma annotate_quiet `{Object A} (o : A) k v :
  (forall v n x, quiet (did (get_obj v n) x)) -> (forall a x, quiet (did (update_obj a) x)) ->
  does (annotate o k v) (fun r es => Forall quiet es /\ forall o', r = Ok o' -> exists a, o' = with_ann a o).
Proof.
  intros H1 H2.
  assert (each quiet (annotate o k v)) as Hq by (unfold annotate; each_go ltac:(first [apply H1|apply H2])).
  apply does_and; [exact Hq|]. unfold annotate.
  eapply does_mono; [|apply does_on_error with (R := fun r _ => forall o', r = Ok o' -> exists a, o' = with_ann a o)].
  - intros r es (before & es' & -> & Hr). exact Hr.
  - intros [cur|e]; [|done]. play. intros [e|]; [done|]. play. intros o' [= <-]. by eexists.
Qed.

Section Tidy.

Context (toLower : string -> string) (proj : Project) (t : Task).

Abbreviation tidy := (tidy toLower proj t).
Abbreviation nothing := (fun _ => []).

Lemma tidy_ret {B} (pick : B -> list MergeRequest) K r :
  (forall b, r = Ok b -> forall mr, In mr (pick b) -> K mr) -> tidy pick K (Ret r).
Proof. intros H. split; [constructor|]. intros b -> mr Hin. left. by eapply H. Qed.

Lemma tidy_try {A B} (pick : A -> list MergeRequest) (pick' : B -> list MergeRequest) K (p : Io A) (f : A -> Io B) :
  known K -> tidy pick K p ->
  (forall K' a, known K' -> (forall mr, K mr -> K' mr) -> (forall mr, In mr (pick a) -> K' mr) -> tidy pick' K' (f a)) ->
  tidy pick' K (try p f).
Proof.
  intros HK Hp Hf. apply does_try. eapply does_mono; [|exact Hp]. intros [a|e] es [Ho Hs]; cbn beta iota.
  2: { split; [exact Ho|]. intros b [=]. }
  eapply does_mono; [|apply (Hf (fun mr => K mr \/ seen es mr) a)].
  - intros r es' [Ho' Hs']. split.
    + intros ctx Hi Hk. apply incl_app_inv in Hi as [Hi Hi'].
      apply Forall_app. split; [by apply Ho|]. apply Ho'; [done|].
      intros mr [Hm|(v & n & mr0 & Hm & Hs0)]; [by apply Hk|]. exists v, n, mr0. split; [by apply Hi|done].
    + intros b -> mr Hin. destruct (Hs' b eq_refl mr Hin) as [[?|?]|?]; auto using seen_app_l, seen_app_r.
  - intros mr mr' [Hm|Hm] Hs0; [left; by eapply HK|right; by eapply seen_same].
  - by left.
  - intros mr Hin. by eapply Hs.
Qed.

(** A quiet program may come first. *)
Lemma tidy_quiet {B} K (p : Io B) : each quiet p -> tidy nothing K p.
Proof.
  intros H. eapply does_mono; [|exact H]. intros r es Hq. split; [|by intros].
  intros ctx _ _. by apply quiet_all.
Qed.

Lemma tidy_then {A B} (pick : B -> list MergeRequest) K (p : Io A) (f : A -> Io B) :
  known K -> each quiet p -> (forall K' a, known K' -> (forall mr, K mr -> K' mr) -> tidy pick K' (f a)) ->
  tidy pick K (try p f).
Proof.
  intros HK Hp Hf. eapply (tidy_try nothing); [done|by apply tidy_quiet|]. intros K' a HK' Hi _. by apply Hf.
Qed.

Lemma tidy_fold {S A} (pick : S -> list MergeRequest) (from : A -> list MergeRequest) (l : list A) (body : S -> A -> Io S) :
  (forall K s a, known K -> (forall mr, In mr (pick s) -> K mr) -> (forall mr, In mr (from a) -> K mr) ->
     tidy pick K (body s a)) ->
  forall K s, known K -> (forall mr, In mr (pick s) -> K mr) -> (forall a mr, In a l -> In mr (from a) -> K mr) ->
  tidy pick K (fold_prog l s body).
Proof.
  intros Hb. induction l as [|a l IH]; intros K s HK Hs Hl; cbn [fold_prog].
  - apply tidy_ret. intros b [= <-]. exact Hs.
  - eapply (tidy_try pick); [done|apply Hb; [done|done|]|].
    + intros mr. apply Hl. by left.
    + intros K' s' HK' Hi Hs'. apply IH; [done|done|]. intros a' mr Hin Hm. apply Hi, (Hl a'); [by right|done].
Qed.

Lemma tidy_annotate K (mr : MergeRequest) k v : known K -> K mr -> tidy (fun mr => [mr]) K (annotate mr k v).
Proof.
  intros HK Hm. eapply does_mono; [|apply (annotate_quiet mr); done]. intros r es [Hq Ho]. split.
  - intros ctx _ _. by apply quiet_all.
  - intros o' -> mr' [<-|[]]. left. destruct (Ho o' eq_refl) as [a ->]. by eapply HK.
Qed.

Lemma tidy_release_artifact K (others : gmap string bool) (mr : MergeRequest) drop :
  known K -> K mr -> tidy (fun r => [r.1]) K (release_artifact t others mr drop).
Proof.
  intros HK Hm. unfold release_artifact.
  assert (does (MutateArtifactOwnerRefs mr (release_mutate t others drop))
            (fun r es => Forall quiet es /\ forall mr' x, r = Ok (Some (mr', x)) -> seen es mr')) as H.
  { apply does_and.
    - change (each quiet (MutateArtifactOwnerRefs mr (release_mutate t others drop))).
      unfold MutateArtifactOwnerRefs. each_go ltac:(done).
    - unfold MutateArtifactOwnerRefs. eapply does_mono;
        [|apply does_on_error with (R := fun r es => forall mr' x, r = Ok (Some (mr', x)) -> seen es mr')].
      + intros r es (before & es' & -> & Hr) mr' x ->. apply seen_app_r. by eapply Hr.
      + intros [cur|e]; [|done]. destruct (release_mutate t others drop cur) as [[o' x]|e] eqn:E; play; rewrite E.
        * destruct (release_mutate_spec _ _ _ _ _ _ E) as [[refs ->] _]. intros [e|]; [done|]. play.
          intros mr' x' [= <- <-]. exists Cached, (obj_name mr), cur. split; [by left|done].
        * by destruct e. }
  apply does_bind. eapply does_mono; [|exact H]. intros r es [Hq Hs].
  assert (forall ctx, Forall (own_only toLower proj t ctx) es) as Hq' by (intros; by apply quiet_all).
  destruct r as [[[mr' [heir|]]|]|e]; cbn; rewrite ?app_nil_r.
  1,2: split; [by intros|]; intros b [= <-] m [<-|[]]; right; by eapply Hs.
  - split; [by intros|]. intros b [= <-] m [<-|[]]. by left.
  - destruct (IsConflict e); [cbn; rewrite app_nil_r; split; [by intros|done]|].
    intros x. split; [|done]. intros ctx _ _. apply Forall_app. split; [done|]. by constructor.
Qed.

Lemma tidy_owned K names0 : known K -> tidy (fun l => l) K (owned_of (GetMergeRequest Cached) names0).
Proof.
  revert K. induction names0 as [|n names0 IH]; intros K HK; cbn [owned_of]; [by apply tidy_ret; intros b [= <-]|].
  eapply (tidy_try (fun o => match o with Some mr => [mr] | None => [] end)); [done| |].
  - apply does_found. intros [mr|e]; play.
    + split; [intros; by repeat constructor|]. intros b [= <-] m [<-|[]]. right. exists Cached, n, mr. split; [by left|done].
    + destruct (IsNotFound _); (split; [intros; by repeat constructor|]); [by intros b [= <-]|done].
  - intros K1 o HK1 _ Ho. eapply (tidy_try (fun l => l)); [done|by apply IH|].
    intros K2 l HK2 Hi Hl. apply tidy_ret. intros b [= <-] m. destruct o as [mr|]; [intros [<-|]|]; auto.
    apply Hi, Ho. by left.
Qed.

Lemma tidy_mark K mrs was : known K -> (forall mr, In mr mrs -> K mr) ->
  tidy (fun l => l) K (markAdoptionRefused t mrs was).
Proof.
  intros HK Hm. unfold markAdoptionRefused. destruct (negb _); [by apply tidy_ret; intros b [= <-]|].
  cbv zeta. destruct (_ == _); [by apply tidy_ret; intros b [= <-]|].
  apply (tidy_fold (fun l => l) (fun mr => [mr])); [|done|done|].
  - intros K1 s mr HK1 Hs Hmr. destruct (_ || _).
    + apply tidy_ret. intros b [= <-] m Hin. apply in_app_iff in Hin as [?|[<-|[]]]; auto using in_eq.
    + eapply tidy_try; [done|apply tidy_annotate; auto using in_eq|].
      intros K2 mr' HK2 Hi Hm'. apply tidy_ret. intros b [= <-] m Hin.
      apply in_app_iff in Hin as [?|[<-|[]]]; auto using in_eq.
  - intros a mr Hin [<-|[]]. by apply Hm.
Qed.

Lemma tidy_release_mrs K others mrs survivors : known K -> (forall mr, In mr mrs -> K mr) ->
  tidy (fun r => r.1) K (release_mrs toLower proj t others mrs survivors).
Proof.
  intros HK Hm. unfold release_mrs.
  apply (tidy_fold (fun r => r.1) (fun mr => [mr])); [|done|done|].
  - intros K1 [done_ surv] mr HK1 Hs Hmr. cbv zeta.
    eapply (tidy_try (fun mr => [mr])); [done| |].
    + destruct (orphaning _ _ _ _); [|by apply tidy_ret; intros b [= <-]]. unfold carryHumanReviewRounds.
      destruct (_ <=? 0); [by apply tidy_ret; intros b [= <-]|]. apply tidy_annotate; auto using in_eq.
    + intros K2 mr2 HK2 Hi2 Hm2. eapply tidy_try; [done|apply tidy_release_artifact; auto using in_eq|].
      intros K3 [mr3 survived] HK3 Hi3 Hm3. apply tidy_ret. intros b [= <-] m Hin.
      apply in_app_iff in Hin as [?|[<-|[]]]; auto using in_eq.
  - intros a mr Hin [<-|[]]. by apply Hm.
Qed.

Lemma forge_write_quiet b verb c : (forall x, quiet (did c x)) -> each quiet (forge_write b proj verb c).
Proof. intros H. unfold forge_write, RecordSCM. each_go ltac:(first [apply H|done]). Qed.

(** No live Task was found: a list of the trace has none. *)
Lemma live_pusher_found branch exclude : branch <> ""%string ->
  does (liveTaskPushingTo toLower proj branch exclude) (fun r es => Forall quiet es /\ (r = Ok None ->
    exists l, (In (did ListTasks (Ok l)) es \/ In (did (ListTasksOf (proj_Name proj)) (Ok l)) es)
              /\ existsb (pushes_to toLower proj exclude branch) l = false)).
Proof.
  intros Hb. apply String.eqb_neq in Hb. unfold liveTaskPushingTo. rewrite Hb.
  assert (forall l, Ok (option_map task_Name (List.find (pushes_to toLower proj exclude branch) l)) = Ok (E := Fail) None ->
            existsb (pushes_to toLower proj exclude branch) l = false) as Hf.
  { intros l. destruct (List.find _ l) as [t'|] eqn:E; [done|]. intros _. apply not_true_is_false. intros Hx.
    apply existsb_exists in Hx as (t' & Hin & Ht'). by rewrite (find_none _ _ E t' Hin) in Ht'. }
  unfold listProjectTasks. intros [l|[]]; play; try (split; [by repeat constructor|by intros]).
  - split; [by repeat constructor|]. intros H. exists l. split; [right; by left|by apply Hf].
  - intros [l|e]; play; (split; [by repeat constructor|]); [|by intros].
    intros H. exists l. split; [left; right; by left|by apply Hf].
Qed.

(** The branch goes only when a list of the same program shows no live Task on it. *)
Lemma tidy_delete_branch b K repo branch : branch = TaskBranch toLower t ->
  tidy nothing K (delete_own_branch toLower b proj t repo branch).
Proof.
  intros Hb. rewrite Hb. clear Hb. unfold delete_own_branch. intros [|]; [|split; [by repeat constructor|done]]. cbn [negb].
  apply does_try. eapply does_mono; [|apply live_pusher_found, TaskBranch_not_empty]. intros [[heir|]|e] es [Hq Hl].
  - cbn. rewrite app_nil_r. split; [|by intros]. intros ctx _ _. constructor; [done|by apply quiet_all].
  - destruct (Hl eq_refl) as (l & Hin & He). intros a.
    eapply does_mono with (R := fun _ es => Forall quiet es).
    + intros r es' Hq'. split; [|by intros]. intros ctx Hi _. constructor; [done|]. apply Forall_app.
      split; [by apply quiet_all|]. constructor; [|by apply quiet_all]. split; [reflexivity|]. exists l.
      split; [|exact He]. destruct Hin as [Hin|Hin]; [left|right]; apply Hi; right; apply in_app_iff; by left.
    + change (each quiet (let? _ := RecordSCM b proj "delete_branch" a in
                          if scm_ok a || isPermanentTargetGone a then ok tt else fail (ForgeFault a))).
      unfold RecordSCM. each_go ltac:(done).
  - split; [|by intros]. intros ctx _ _. constructor; [done|by apply quiet_all].
Qed.

(** The same with what is known of the value. *)
Lemma tidy_then_that {A B} (P : A -> Prop) (pick : B -> list MergeRequest) K (p : Io A) (f : A -> Io B) :
  known K -> each quiet p -> does p (fun r _ => forall a, r = Ok a -> P a) ->
  (forall K' a, known K' -> P a -> tidy pick K' (f a)) -> tidy pick K (try p f).
Proof.
  intros HK Hq Hp Hf. apply does_try. eapply does_mono; [|exact (does_and _ _ _ Hq Hp)].
  intros [a|e] es [He Ha]; cbn beta iota.
  - eapply does_mono; [|exact (Hf K a HK (Ha a eq_refl))]. intros r es' [Ho Hs]. split.
    + intros ctx Hi Hk. apply incl_app_inv in Hi as [_ Hi]. apply Forall_app. split; [by apply quiet_all|by apply Ho].
    + intros b -> mr Hin. destruct (Hs b eq_refl mr Hin); auto using seen_app_r.
  - split; [intros; by apply quiet_all|by intros].
Qed.

(** A merge request that is closed is known, and the Task's own. *)
Lemma tidy_close b K mr was surv : known K -> K mr -> closable toLower proj t was surv mr = true ->
  tidy nothing K (close_own_mr toLower b proj t mr).
Proof.
  intros HK Hm Hc. unfold closable in Hc. rewrite !andb_true_iff in Hc. destruct Hc as ((((Ho & _) & _) & _) & Hour).
  apply tidy_then; [done|by unfold scanWriter; each_go ltac:(done)|]. intros K1 _ HK1 Hi1.
  apply tidy_then; [done|by unfold repositoryFor; each_go ltac:(done)|]. intros K2 repo HK2 Hi2.
  eapply (tidy_try nothing); [done| |].
  - intros a. eapply does_mono with (R := fun _ es => Forall quiet es).
    + intros r es Hq. split; [|by intros]. intros ctx _ Hk. constructor; [|by apply quiet_all].
      exists mr. split; [by auto|done].
    + change (each quiet (let? _ := RecordSCM b proj "close_pr" a in
                          if scm_ok a || isPermanentTargetGone a then ok tt else fail (ForgeFault a))).
      unfold RecordSCM. each_go ltac:(done).
  - intros K3 _ HK3 _ _. apply tidy_then; [done|by unfold annotate; each_go ltac:(done)|].
    intros K4 mr' HK4 _. apply tidy_delete_branch. unfold ourMR in Hour. rewrite !andb_true_iff in Hour.
    destruct Hour as [_ Hour]. by apply String.eqb_eq.
Qed.

Lemma tidy_close_all b K mrs was surv : known K -> (forall mr, In mr mrs -> K mr) ->
  tidy nothing K (closeOwnMRs toLower b proj t mrs was surv).
Proof.
  unfold closeOwnMRs. revert K. induction mrs as [|mr mrs IH]; intros K HK Hm; cbn [foreach]; [by apply tidy_ret; intros|].
  eapply (tidy_try nothing); [done| |].
  - destruct (closable _ _ _ _ _ _) eqn:E; [eapply tidy_close; eauto using in_eq|by apply tidy_ret; intros].
  - intros K1 _ HK1 Hi _. apply IH; auto using in_cons.
Qed.

Lemma release_issues_quiet others issues : each quiet (release_issues t others issues).
Proof. unfold release_issues, release_artifact, MutateArtifactOwnerRefs. each_go ltac:(done). Qed.

Lemma notify_quiet parse b iss : each quiet (notifyTerminalIssue toLower parse b proj t iss).
Proof.
  unfold notifyTerminalIssue, notifyTerminalIssueWith, commentAndParkIssue, scanWriter, repositoryFor, annotate.
  each_go ltac:(done). all: by apply forge_write_quiet.
Qed.

End Tidy.

Lemma tidy_release_from toLower parse b proj t K live : known K ->
  tidy toLower proj t (fun _ => []) K
    (if annotation t AnnTerminalReleased == "true" then ok t
     else
       let? issues := ownedIssues t in
       let? mrs := ownedMRs t in
       let wasController := controlled_names t mrs in
       let? _ := foreach issues (fun iss =>
                   if iss_State (iss_Status iss) == "closed" then ok tt else notifyTerminalIssue toLower parse b proj t iss) in
       let? mrs := markAdoptionRefused t mrs wasController in
       let? (mrs, survivors) := releaseOwnership toLower proj t issues mrs live in
       let? _ := closeOwnMRs toLower b proj t mrs wasController survivors in
       annotate t AnnTerminalReleased "true").
Proof.
  intros HK. destruct (_ == _); [by apply tidy_ret; intros|].
  apply tidy_then; [done|by apply owned_quiet|]. intros K1 issues HK1 _.
  eapply tidy_try; [done|by apply tidy_owned|]. intros K2 mrs HK2 _ Hm2. cbv zeta.
  apply tidy_then; [done| |].
  { apply keeps_foreach; [apply _|]. intros iss _. destruct (_ == _); [by apply keeps_ret, _|apply notify_quiet]. }
  intros K3 _ HK3 Hi3. eapply tidy_try; [done|by apply tidy_mark; auto|]. intros K4 mrs4 HK4 _ Hm4.
  eapply (tidy_try _ _ _ (fun r => r.1)); [done| |].
  - unfold releaseOwnership. apply tidy_then; [done|apply release_issues_quiet|]. intros K5 surv HK5 Hi5.
    apply tidy_release_mrs; auto.
  - intros K5 [mrs5 surv] HK5 _ Hm5. eapply (tidy_try _ _ _ (fun _ => [])); [done|by apply tidy_close_all|].
    intros K6 _ HK6 _ _. apply tidy_quiet. unfold annotate. each_go ltac:(done).
Qed.

Lemma tidy_release toLower parse b proj t K live : known K ->
  tidy toLower proj t (fun _ => []) K (releaseTerminal toLower parse b proj t live).
Proof.
  intros HK. unfold releaseTerminal. apply (tidy_then_that _ _ _ (fun t1 => t1 = t \/ t1 = no_fold t)); [done| | |].
  - destruct (FoldInFlight _); unfold clearFoldInFlight; each_go ltac:(done).
  - destruct (FoldInFlight (Status t)); [by intros a [= <-]; left|]. unfold clearFoldInFlight.
    apply does_try. eapply does_mono; [|apply does_True]. intros [x|e] es _; [|done]. intros a [= <-]. by right.
  - intros K1 t1 HK1 [->| ->]; [by apply tidy_release_from|]. exact (tidy_release_from toLower parse b proj (no_fold t) K1 live HK1).
Qed.

(** ** The theorems *)

(** a Task is not deleted before its Issues are let go: when the reaper asks for the
    deletion of a Task whose release is not latched, every Issue in its references is gone,
    or is not controlled by it, as read or as written in the same pass; so the background
    deletion takes no Issue with it. *)
Theorem deletion_leaves_the_issues (toLower : string -> string) (m : bool) (proj : Project) (t : Task)
    (live : gmap string bool) (w : World Call) (name issueName : string) :
  let es := snd (run w (deleteReapedTask toLower m proj t live)) in
  annotation t AnnTerminalReleased <> "true"%string -> honest es ->
  In (Some name) (map deleted_task es) -> In issueName (IssueRefs (Status t)) -> let_go t issueName es.
Proof.
  cbv zeta. intros Ha. revert name. apply String.eqb_neq in Ha.
  assert (does (deleteReapedTask toLower m proj t live) (fun _ es => honest es ->
            forall name, In (Some name) (map deleted_task es) -> In issueName (IssueRefs (Status t)) -> let_go t issueName es)) as H.
  { unfold deleteReapedTask. rewrite Ha. apply does_try.
    destruct (in_dec string_dec issueName (IssueRefs (Status t))) as [Hin|Hin].
    2: { eapply does_mono; [|apply does_True]. intros [x|e] es _; [|done]. cbn beta iota.
         eapply does_mono; [|apply does_True]. intros; done. }
    assert (each spares (let? issues := ownedIssues t in
                         let? mrs := ownedMRs t in
                         let? _ := releaseOwnership toLower proj t issues mrs live in ok tt)) as Hs.
    { unfold ownedIssues, ownedMRs. each_go ltac:(reflexivity); first [by apply owned_spares|apply releaseOwnership_spares]. }
    eapply does_mono; [|exact (does_and _ _ _ (released_lets_go toLower proj t live issueName Hin) Hs)].
    intros [x|e] es [Hl Hn]; cbn beta iota.
    - eapply does_mono; [|apply does_True]. intros r es' _ Hh name _ _. apply let_go_app_l, Hl; [|done].
      by apply honest_app in Hh as [? _].
    - intros _ name Hd _. exfalso. apply in_map_iff in Hd as (d & Hd & Hd'). unfold each in Hn.
      rewrite List.Forall_forall in Hn. specialize (Hn d Hd'). unfold spares in Hn. congruence. }
  intros name Hh Hd Hin. exact (run_does w _ _ H Hh name Hd Hin).
Qed.


(** ** Witnesses *)

Lemma deletion_leaves_the_issues_witness :
  let es := snd (run one_of_each (deleteReapedTask id false zero_Project owning_task ∅)) in
  In (Some "t"%string) (map deleted_task es) /\ let_go owning_task "i" es.
Proof.
  set (es := snd (run one_of_each (deleteReapedTask id false zero_Project owning_task ∅))).
  assert (In (Some "t"%string) (map deleted_task es)) as H.
  { assert (nth_error (rev (map deleted_task es)) 0 = Some (Some "t"%string)) as E by (vm_compute; reflexivity).
    by apply in_rev, (nth_error_In _ 0). }
  split; [exact H|].
  refine (deletion_leaves_the_issues id false zero_Project owning_task ∅ one_of_each "t" "i" _ _ H _).
  - vm_compute. discriminate.
  - intros v name iss Hin. destruct (run_answer _ _ _ _ Hin) as [past E]. injection E as ->. reflexivity.
  - by left.
Defined.

Example the_release_closes_and_deletes :
  let es := snd (run one_of_each (releaseTerminal id (fun _ => Some "/o/r"%string) false bot_project owning_task ∅)) in
  In (Some (""%string, 7)) (map closed_pr es) /\ In (Some "tatara/task-t"%string) (map deleted_branch es).
Proof. vm_compute. tauto. Qed.
