(* ===== verification/Reaper.v ===== *)
(** * Reaping (internal/controller/reaper.go, docbatch.go): which terminal and parked
    Tasks are released and deleted, how long a delivered Task waits to be documented, and
    which wrapper pods, services and volume claims are orphans. *)

From Stdlib Require Import String Ascii.
From S2P Require Import Prelude GoTime Text Limits Api Vocabulary Machine Park Clocks Unpark ObjBudget Own Transition Names Logins Seq Settings TtlStop Corridor LivePods Calls Release Escalate.

Open Scope Z_scope.
Open Scope go_scope.

(** ** Constants *)

Definition AnnDocBatchResolved : string := "tatara.dev/doc-batch-resolved".
Definition AnnProposalDeclinedAt : string := "tatara.dev/proposal-declined-at".
Definition DeclinedProposalRetention : Duration := 14 * 24 * Hour.
Definition DocStageBudget : Duration := 2 * Hour.
Definition FoldInFlightGrace : Duration := 5 * Minute.
Definition defaultReapTerminalInterval : Duration := 60 * Second.
Definition DocBatchKind : string := "documentation".
Definition pollRequeue : Duration := 30 * Second.
Definition LabelTask : string := "tatara.dev/task".
Definition LabelTaskUID : string := "tatara.dev/task-uid".
Definition LabelAgentKind : string := "tatara.dev/agent-kind".

(** ** Orphaned wrapper pods and volume claims *)

Definition label (w : Wrapper) (k : string) : string := default ""%string (wp_Labels w !! k).

Definition workspacePVCOrphanReason (pvc : Wrapper) (tasks : gmap string Task) (grace : Duration) (now : Time)
  : option string :=
  if Sub now (wp_Created pvc) <? grace then None
  else if label pvc LabelTask == "" then None
  else match tasks !! label pvc LabelTask with
       | None => Some "orphan workspace pvc: task gone"%string
       | Some t => if TaskIsTerminalOutcome (State (Status t)) then Some "orphan workspace pvc: task terminal"%string
                   else None
       end.

(** A live Task within its conversation's idle time owns its pod. *)
Definition liveConversationOwnsPod (t : Task) (proj : option Project) (now : Time) : bool :=
  if Parked t || negb (Live (State (Status t))) then false
  else let r := ArmedClock t false in
       if negb (ck_clock r == ClockWork) || IsZero (ck_since r) then false
       else Sub now (ck_since r) <=? ConversationIdle proj.

Definition later (t : Task) (latest : Time) (key : string) : Time :=
  if ann t key == "" then latest
  else match ParseRFC3339 (ann t key) with
       | Some ts => if After ts latest then ts else latest
       | None => latest
       end.

Definition podLastActivity (pod : Wrapper) (t : Task) : Time :=
  fold_left (later t) [AnnTurnStartedAt; AnnTurnLastActivity; AnnTurnComplete] (wp_Created pod).

(** The four readings of the clock: the pod's age, the stop window, the conversation, the
    idle time. *)
Definition orphanReason (ReaperGrace IdlePodReapAfter : Duration) (pod : Wrapper) (tasks : gmap string Task)
    (projects : gmap string Project) (now_age now_stop now_conv now_idle : Time) : option string :=
  let grace := if ReaperGrace =? 0 then pollRequeue else ReaperGrace in
  if Sub now_age (wp_Created pod) <? grace then None
  else if label pod LabelTask == "" then None
  else match tasks !! label pod LabelTask with
  | None => Some "task absent"%string
  | Some t =>
      let podKind := label pod LabelAgentKind in
      let wantKind := AgentKindFor (State (Status t)) (Kind (Spec t)) in
      if (label pod LabelTaskUID != "") && (label pod LabelTaskUID != task_UID t) then
        Some "stale task incarnation"%string
      else if TaskDone t then Some (join ["task stage "; State (Status t)])
      else if (podKind != "") && (wantKind != "") && (wantKind != podKind) then
        Some (join ["superseded: pod kind "; podKind; ", state wants "; wantKind])
      else if (0 <? IdlePodReapAfter) && negb (TurnInFlight t) then
        if match PodTTLStopWindowFromSpec (wp_Env pod) t with
           | Some (from, until) => negb (Before now_stop from) && Before now_stop until
           | None => false
           end then None
        else if liveConversationOwnsPod t (projects !! ProjectRef (Spec t)) now_conv then None
        else if IdlePodReapAfter <? Sub now_idle (podLastActivity pod t) then Some "idle no live turn"%string
        else None
      else None
  end.

Definition by_name {A} (name : A -> string) (l : list A) : gmap string A :=
  fold_left (fun acc a => <[name a := a]> acc) l ∅.

(** [reapWrapper]: the service's deletion is best effort. *)
Definition reapWrapper (name : string) : Io unit :=
  let! r := unless_missing (write (DeletePodNamed name)) in
  match r with
  | Err e => let? _ := tell (Count "reap_delete_error" ["pod"]) in fail e
  | Ok _ =>
      let! r := unless_missing (write (DeleteServiceNamed name)) in
      match r with
      | Err _ => tell (Count "reap_delete_error" ["service"])
      | Ok _ => ok tt
      end
  end.

(** A loop that a cancelled context ends, as an error. *)
Definition unless_cancelled {A} (p : Io A) : Io A :=
  Do ContextDone (fun done_ : bool => if done_ then fail ContextEnded else p).

Definition reap_pod (ReaperGrace IdlePodReapAfter : Duration) (tasks : gmap string Task) (projects : gmap string Project)
    (alive : gmap string unit) (pod : Wrapper) : Io (gmap string unit) :=
  unless_cancelled
    (Do TimeNow (fun n1 : Time => Do TimeNow (fun n2 : Time => Do TimeNow (fun n3 : Time => Do TimeNow (fun n4 : Time =>
      match orphanReason ReaperGrace IdlePodReapAfter pod tasks projects n1 n2 n3 n4 with
      | None => ok (<[wp_Name pod := tt]> alive)
      | Some reason =>
          let! r := reapWrapper (wp_Name pod) in
          match r with
          | Err _ => ok alive
          | Ok _ => let? _ := tell (Count "orphan_reaped" [reason]) in ok alive
          end
      end))))).

(** A deletion that is counted, whatever its outcome. *)
Definition reap_object (c : Call (option ApiError)) (kind reason : string) : Io unit :=
  let! r := unless_missing (write c) in
  match r with
  | Err _ => tell (Count "reap_delete_error" [kind])
  | Ok _ => tell (Count "orphan_reaped" [reason])
  end.

Definition reap_service (grace : Duration) (alive : gmap string unit) (svc : Wrapper) : Io unit :=
  unless_cancelled
    (if is_set (alive !! wp_Name svc) then ok tt
     else Do TimeNow (fun now : Time =>
            if Sub now (wp_Created svc) <? grace then ok tt
            else reap_object (DeleteServiceNamed (wp_Name svc)) "service" "orphan service")).

Definition reap_pvc (grace : Duration) (tasks : gmap string Task) (pvc : Wrapper) : Io unit :=
  unless_cancelled
    (Do TimeNow (fun now : Time =>
       match workspacePVCOrphanReason pvc tasks grace now with
       | None => ok tt
       | Some reason => reap_object (DeletePVCNamed (wp_Name pvc)) "persistentvolumeclaim" reason
       end)).

(** One pass of the orphan reaper: a failed list ends it, failed deletions do not. *)
Definition ReapOrphans (ReaperGrace IdlePodReapAfter : Duration) : Io unit :=
  let? pods := api ListPods in
  let? taskList := api ListTasks in
  let tasks := by_name task_Name taskList in
  let! projectList := api ListProjects in
  let projects := match projectList with Ok l => by_name proj_Name l | Err _ => ∅ end in
  let? alive := fold_prog pods ∅ (reap_pod ReaperGrace IdlePodReapAfter tasks projects) in
  let? svcs := api ListServices in
  let grace := if ReaperGrace =? 0 then pollRequeue else ReaperGrace in
  let? _ := foreach svcs (reap_service grace alive) in
  let? pvcs := api ListPVCs in
  foreach pvcs (reap_pvc grace tasks).

(** ** Declined proposals (proposalcount.go, issue_apply.go) *)

Definition issueAuthoredByBot (iss : Issue) (botLogin : string) : bool :=
  (botLogin != "") && (iss_Author (iss_Status iss) != "") && (iss_Author (iss_Status iss) == botLogin).

Definition effectiveProposalKind (iss : Issue) (botLogin : string) : string :=
  if is_ProposalKind (iss_Spec iss) != "" then is_ProposalKind (iss_Spec iss)
  else if negb (issueAuthoredByBot iss botLogin) || (is_ProposalBodyHash (iss_Spec iss) == "") then ""
  else ProposalKindFromBody (iss_Body (iss_Status iss)).

Definition severedButStillOwned (t : Task) (iss : Issue) : bool :=
  owned_by t iss && negb (str_mem (IssueRefs (Status t)) (iss_Name iss)).

Definition declinedAt (t : Task) : Time :=
  if ann t AnnProposalDeclinedAt == "" then stageEnteredAt t
  else default (stageEnteredAt t) (ParseRFC3339 (ann t AnnProposalDeclinedAt)).

Definition deliveredTime (t : Task) : Time := default (stageEnteredAt t) (DeliveredAt (Status t)).

(** The retained mirror of a proposal of this project that was closed as declined. *)
Definition declined_mirror (proj : Project) (t : Task) (iss : Issue) : bool :=
  (is_ProjectRef (iss_Spec iss) == proj_Name proj) && (iss_State (iss_Status iss) == "closed")
  && severedButStillOwned t iss
  && (effectiveProposalKind iss (botLoginOf proj) == ProposalKindBrainstorm).

(** [now.After(base.Add(d))]. *)
Definition past (now base : Time) (d : Duration) : bool := After now (Add base d).

(** ** Documentation batches *)

Definition docBatchingConfigured (proj : Project) : bool :=
  match proj_Documentation proj, proj_Scm proj with
  | Some doc, Some scm =>
      doc_Enabled doc && (doc_Repo doc != "")
      && match scm_DocumentationSchedule scm with Some schedule => schedule != "" | None => false end
  | _, _ => false
  end.

Definition docBatchInFlight (tasks : list Task) (project : string) : string :=
  let runs t :=
    (ProjectRef (Spec t) == project) && (Kind (Spec t) == DocBatchKind)
    && (match DocumentsTasks (Spec t) with [] => false | _ => true end)
    && (State (Status t) != "") && negb (TaskDone t)
    && (negb (Parked t)
        || match UnparkClassFor (ParkReason (Status t)) with
           | None | Some UnparkNever => false
           | Some _ => true
           end) in
  match List.find runs tasks with Some t => task_Name t | None => ""%string end.

Section Reaping.

Context (toLower : string -> string) (parse : string -> option string) (m : bool) (proj : Project).
(** The size of an object, the spiller of notes, and the terminal releaser's answer. *)
Context (taskSize : Task -> option Z) (notes : option (Spiller Note)) (releaser : Task -> bool).
(** The cron library. *)
Context {Schedule : Type} (ParseStandard : string -> option Schedule) (Next : Schedule -> Time -> Time).
(** The clocks internal/stage reads itself. *)
Context (wall wall' : Time).

Definition needsDocumenting (t : Task) : Io bool :=
  if (Kind (Spec t) == DocBatchKind) || (DocumentedBy (Status t) != "")
     || (match MRRefs (Status t) with [] => true | _ => false end) then ok false
  else if negb (docBatchingConfigured proj) then ok false
  else let? mrs := ownedMRs t in
       ok (match mrs with [] => false | _ => forallb (fun mr => mr_State (mr_Status mr) == "merged") mrs end).

Definition StampDocumentedBy (batch : Task) : Io unit :=
  foreach (DocumentsTasks (Spec batch)) (fun name =>
    let? parent := found (api (GetTask Cached name)) in
    match parent with
    | None => ok tt
    | Some parent =>
        if DocumentedBy (Status parent) != "" then ok tt
        else let? _ := fitTask taskSize notes name (fun cur =>
                         if DocumentedBy (Status cur) == "" then on_status cur (fun s => s <| DocumentedBy := task_Name batch |>)
                         else cur) in
             ok tt
    end).

(** A batch that was parked, or forced to done by its budget. *)
Definition abandoned (batch : Task) : bool :=
  Parked batch || ((State (Status batch) == StateDone) && (StateReason (Status batch) == ReasonDocTimeout)).

Definition covers (batch : Task) : bool :=
  (Kind (Spec batch) == DocBatchKind) && match DocumentsTasks (Spec batch) with [] => false | _ => true end.

Definition ResolveDocBatch (batch : Task) : Io Task :=
  if negb (covers batch) then ok batch
  else if annotation batch AnnDocBatchResolved == "true" then ok batch
  else if abandoned batch && (PodRuns (Stats (Status batch)) =? 0) then
    let? _ := tell (Count "doc_task_abandoned" ["never_ran"]) in
    annotate batch AnnDocBatchResolved "true"
  else
    let? _ := (if abandoned batch then tell (Count "doc_task_abandoned" ["timeout"]) else ok tt) in
    let? _ := StampDocumentedBy batch in
    annotate batch AnnDocBatchResolved "true".

Definition forceDocTimeout (batch : Task) (now : Time) : Io unit :=
  let? mrs := ownedMRs batch in
  let? batch := choke (task_Name batch) (fun w =>
    EnterStage w m batch mrs StateDone ReasonDocTimeout now
      (Some (fun t => on_status t (fun s => s <| DeliveredAt := Some now |>)))
      (WithTerminalIssueRelease (Some releaser) no_opts)) in
  let? _ := ResolveDocBatch batch in ok tt.

(** ** Terminal and parked Tasks *)

Definition holdsDeclinedProposal (t : Task) (now : Time) : Io bool :=
  if past now (declinedAt t) DeclinedProposalRetention then ok false
  else let? l := api ListIssues in ok (existsb (declined_mirror proj t) l).

Definition deleteUnlessHoldingADecline (t : Task) (live : gmap string bool) (now : Time) : Io unit :=
  let? hold := holdsDeclinedProposal t now in
  if hold then ok tt else deleteReapedTask toLower m proj t live.

Definition max_open : Z := if proj_MaxOpenTasks proj <=? 0 then 6 else proj_MaxOpenTasks proj.

(** Whether the un-park of a parked Task would fire now, asked of a copy. *)
Definition unparkFires (t : Task) (now : Time) (liveRoom : bool) : Io bool :=
  let? issues := ownedIssues t in
  let? mrs := ownedMRs t in
  let? l := listProjectTasks proj in
  ok (fst (Unpark (mkUnparkInput t issues mrs (active_tasks proj l) max_open (botLoginOf proj) liveRoom now) wall wall')
      == DeclineNone).

Definition reapParked (t : Task) (live : gmap string bool) (now : Time) (liveRoom : bool) : Io unit :=
  if ParkReason (Status t) == ReasonBacklogSweep then
    let? issues := ownedIssues t in
    if existsb (fun iss => iss_State (iss_Status iss) != "closed") issues then ok tt
    else deleteUnlessHoldingADecline t live now
  else if negb (past now (parkedAt t) ParkRetention) then ok tt
  else
    let? fires := unparkFires t now liveRoom in
    if fires then ok tt
    else let? t := releaseTerminal toLower parse m proj t live in
         deleteUnlessHoldingADecline t live now.

Definition cronPeriod (sched : Schedule) (base : Time) : Duration :=
  let f1 := Next sched base in Sub (Next sched f1) f1.

Definition documentationCronPeriod (base : Time) : Duration :=
  let fallback := 24 * Hour in
  match proj_Scm proj with
  | Some scm =>
      match scm_DocumentationSchedule scm with
      | Some schedule =>
          match ParseStandard schedule with
          | Some sched => let p := cronPeriod sched base in if 0 <? p then p else fallback
          | None => fallback
          end
      | None => fallback
      end
  | None => fallback
  end.

Definition docHoldStuck (t : Task) (active : list string) (now : Time) : bool :=
  negb (str_mem active (task_Name t)) && past now (deliveredTime t) (documentationCronPeriod (deliveredTime t)).

(** Whether the Task is counted as blocked on its documentation. *)
Definition reapDelivered (t : Task) (live : gmap string bool) (now : Time) (members : list string) : Io bool :=
  let? t := releaseTerminal toLower parse m proj t live in
  let? needs := needsDocumenting t in
  if needs then
    if negb (docHoldStuck t members now) then ok false
    else let? _ := tell (Count "gc_blocked" ["doc_reference"]) in
         let! _ := ownedMRs t in ok true
  else if negb (past now (deliveredTime t) DeliveredRetention) then ok false
  else let? _ := deleteReapedTask toLower m proj t live in ok false.

Definition reapOne (t : Task) (live : gmap string bool) (now : Time) (members : list string) (liveRoom : bool)
  : Io bool :=
  let? t := (if covers t && ((State (Status t) == StateDone) || Parked t) then ResolveDocBatch t else ok t) in
  if Parked t then let? _ := reapParked t live now liveRoom in ok false
  else if State (Status t) == StateRejected then
    let? t := releaseTerminal toLower parse m proj t live in
    let? _ := (if past now (stageEnteredAt t) RejectedRetention then deleteUnlessHoldingADecline t live now else ok tt) in
    ok false
  else if State (Status t) == StateUnderImplementation then
    let? _ := (if (Kind (Spec t) == DocBatchKind) && past now (stageEnteredAt t) DocStageBudget
               then forceDocTimeout t now else ok tt) in
    ok false
  else if State (Status t) == StateDone then reapDelivered t live now members
  else ok false.

(** What the pass knows before it reaps: who is live, which Tasks are held by a fold and
    since when, and the members of batches that are not resolved. *)
Record ReapIndex := mkReapIndex {
  ri_live : gmap string bool;
  ri_held : gmap string Time;
  ri_members : list string
}.

Definition index_task (now : Time) (i : ReapIndex) (t : Task) : Io ReapIndex :=
  let live := <[task_Name t := negb (TaskDone t)]> (ri_live i) in
  let active := FoldInFlightActive t now in
  let held := if active then fold_left (fun h member => <[member := FoldStartedAt t]> h) (FoldInFlight (Status t)) (ri_held i)
              else ri_held i in
  let? _ := match FoldInFlight (Status t) with
            | [] => ok tt
            | _ => if active then ok tt
                   else tell (Count "fold_stranded_released" [if TaskDone t then "umbrella_done"%string else "ttl_expired"%string])
            end in
  let members := if covers t && (annotation t AnnDocBatchResolved != "true")
                 then (DocumentsTasks (Spec t) ++ ri_members i)%list else ri_members i in
  ok (mkReapIndex live held members).

(** The room of the pass is asked once, if a park of the project needs it. *)
Definition reap_room (l : list Task) : Io bool :=
  if existsb (fun t => (ProjectRef (Spec t) == proj_Name proj) && Parked t && NeedsLiveRoom (ParkReason (Status t))) l
  then let! r := api ListTasks in
       ok (default false (LiveHasRoom proj (match r with Ok l => Some l | Err _ => None end)))
  else ok false.

Record ReapPass := mkReapPass { rp_blocked : Z; rp_foldBlocked : Z; rp_first : option Fail }.

Definition reap_step (i : ReapIndex) (now : Time) (liveRoom : bool) (s : ReapPass) (t : Task) : Io ReapPass :=
  unless_cancelled
    (if (ProjectRef (Spec t) != proj_Name proj) || (State (Status t) == "") then ok s
     else match ri_held i !! task_Name t with
     | Some since =>
         if past now since FoldInFlightGrace then
           let? _ := tell (Count "gc_blocked" ["fold_in_flight"]) in
           ok (mkReapPass (rp_blocked s) (rp_foldBlocked s + 1) (rp_first s))
         else ok s
     | None =>
         let! r := reapOne t (ri_live i) now (ri_members i) liveRoom in
         match r with
         | Ok blocked => ok (mkReapPass (if blocked then rp_blocked s + 1 else rp_blocked s) (rp_foldBlocked s) (rp_first s))
         | Err e => ok (mkReapPass (rp_blocked s) (rp_foldBlocked s)
                                   (match rp_first s with None => Some e | first => first end))
         end
     end).

Definition ReapTerminal : Io unit :=
  let? l := api ListTasks in
  Do TimeNow (fun now : Time =>
    let? i := fold_prog l (mkReapIndex ∅ ∅ []) (index_task now) in
    let? liveRoom := reap_room l in
    let? s := fold_prog l (mkReapPass 0 0 None) (reap_step i now liveRoom) in
    let? _ := tell (SetGauge "doc_reference_blocked" [proj_Name proj] (rp_blocked s)) in
    let? _ := tell (SetGauge "fold_in_flight_blocked" [proj_Name proj] (rp_foldBlocked s)) in
    match rp_first s with Some e => fail e | None => ok tt end).

(** The pass, at most once per interval; the table of the last passes. *)
Definition ReapTerminalPaced (last : gmap string Time) (now : Time) : Prog Call (result Fail Duration * gmap string Time) :=
  paced defaultReapTerminalInterval last (proj_Name proj) now ReapTerminal.

End Reaping.

(** ** What the theorems say *)

(** A Task held by a fold that is not over. *)
Definition in_a_fold (l : list Task) (now : Time) (name : string) : Prop :=
  exists t, In t l /\ FoldInFlightActive t now = true /\ In name (FoldInFlight (Status t)).

(** Parked or terminal for as long as it is retained. *)
Definition due (now : Time) (t : Task) : Prop :=
  (Parked t = true
   /\ (ParkReason (Status t) = ReasonBacklogSweep \/ past now (parkedAt t) ParkRetention = true))
  \/ (Parked t = false
      /\ ((State (Status t) = StateRejected /\ past now (stageEnteredAt t) RejectedRetention = true)
          \/ (State (Status t) = StateDone /\ past now (deliveredTime t) DeliveredRetention = true))).

(** A Task the pass may delete: due, of the project, and in no fold. *)
Definition spent (proj : Project) (l : list Task) (now : Time) (name : string) : Prop :=
  exists t, In t l /\ task_Name t = name /\ ProjectRef (Spec t) = proj_Name proj /\ State (Status t) <> ""%string
  /\ ~ in_a_fold l now name /\ due now t.

(** The same Task, but for its annotations and its fold. *)
Definition kin (t t' : Task) : Prop :=
  task_Name t' = task_Name t /\ CreationTimestamp t' = CreationTimestamp t /\ Status (no_fold t') = Status (no_fold t).

(** The index knows every fold of the Tasks read so far. *)
Definition holds (now : Time) (seen : list Task) (i : ReapIndex) : Prop :=
  forall name, in_a_fold seen now name -> ri_held i !! name <> None.

(** A call that deletes no Task but one that [P] holds of. *)
Definition only (P : string -> Prop) (d : Did Call) : Prop := forall name, deleted_task d = Some name -> P name.

(** A pod the orphan reaper may delete, given the Tasks it read: its Task is gone, or was
    recreated, or is done, or wants another agent, or has no turn in flight. *)
Definition disowned (tasks : gmap string Task) (IdlePodReapAfter : Duration) (pod : Wrapper) : Prop :=
  label pod LabelTask <> ""%string /\
  match tasks !! label pod LabelTask with
  | None => True
  | Some t =>
      (label pod LabelTaskUID <> ""%string /\ label pod LabelTaskUID <> task_UID t)
      \/ TaskDone t = true
      \/ (label pod LabelAgentKind <> ""%string /\ label pod LabelAgentKind <> AgentKindFor (State (Status t)) (Kind (Spec t)))
      \/ (TurnInFlight t = false /\ 0 < IdlePodReapAfter)
  end.

(** A volume claim the orphan reaper may delete. *)
Definition unclaimed (tasks : gmap string Task) (pvc : Wrapper) : Prop :=
  label pvc LabelTask <> ""%string /\
  match tasks !! label pvc LabelTask with
  | None => True
  | Some t => TaskIsTerminalOutcome (State (Status t)) = true
  end.

(** Each deletion of a pass, against what the pass listed. *)
Definition justified (IdlePodReapAfter : Duration) (es : list (Did Call)) (d : Did Call) : Prop :=
  match did_call d with
  | DeletePodNamed name =>
      exists pods tasks pod, In (did ListPods (Ok pods)) es /\ In (did ListTasks (Ok tasks)) es
        /\ In pod pods /\ wp_Name pod = name /\ disowned (by_name task_Name tasks) IdlePodReapAfter pod
  | DeleteServiceNamed name =>
      exists pods, In (did ListPods (Ok pods)) es
        /\ ((exists x, In (did (DeletePodNamed name) x) es) \/ ~ In name (map wp_Name pods))
  | DeletePVCNamed name =>
      exists pvcs tasks pvc, In (did ListPVCs (Ok pvcs)) es /\ In (did ListTasks (Ok tasks)) es
        /\ In pvc pvcs /\ wp_Name pvc = name /\ unclaimed (by_name task_Name tasks) pvc
  | _ => True
  end.

(** The part of it each loop shows: a pod deleted is one of the list's and disowned, a
    service goes after its pod or because no pod kept is named so, a claim is unclaimed. *)
Definition pod_deletion (idle : Duration) (tasks : gmap string Task) (pods : list Wrapper) (es : list (Did Call)) (d : Did Call) : Prop :=
  match did_call d with
  | DeletePodNamed name => exists pod, In pod pods /\ wp_Name pod = name /\ disowned tasks idle pod
  | DeleteServiceNamed name => exists x, In (did (DeletePodNamed name) x) es
  | DeletePVCNamed _ => False
  | _ => True
  end.

Definition pod_deletions idle tasks pods (es : list (Did Call)) : Prop := Forall (pod_deletion idle tasks pods es) es.

Definition late_deletion (alive : gmap string unit) (tasks : gmap string Task) (pvcs : list Wrapper) (d : Did Call) : Prop :=
  match did_call d with
  | DeletePodNamed _ => False
  | DeleteServiceNamed name => alive !! name = None
  | DeletePVCNamed name => exists pvc, In pvc pvcs /\ wp_Name pvc = name /\ unclaimed tasks pvc
  | _ => True
  end.

(** Every pod of a list was kept, or its deletion was asked for. *)
Definition accounted (alive : gmap string unit) (pods : list Wrapper) (es : list (Did Call)) : Prop :=
  forall pod, In pod pods -> alive !! wp_Name pod <> None \/ exists x, In (did (DeletePodNamed (wp_Name pod)) x) es.

(** An hour past the retention of rejected Tasks, with one of them to reap. *)
Definition a_day_later (past : list (Did Call)) (X : Type) (c : Call X) : X :=
  match c in Call Y return Y with
  | ListTasks => Ok [owning_task]
  | TimeNow => RejectedRetention + Hour
  | c => one_of_each past _ c
  end.

(** ** Lemmas: what a release hands back *)

Lemma kin_refl t : kin t t.
Proof. done. Qed.

Lemma kin_trans a b c : kin a b -> kin b c -> kin a c.
Proof. intros (A & B & C) (A' & B' & C'). repeat split; congruence. Qed.

Lemma kin_no_fold t : kin t (no_fold t).
Proof. done. Qed.

Lemma annotate_kin (t : Task) k v : yields (kin t) (annotate t k v).
Proof.
  eapply does_mono; [|apply (annotate_quiet t); done]. intros r es [_ H] t' Hr. by destruct (H t' Hr) as [a ->].
Qed.

Lemma releaseTerminal_kin toLower parse m proj t live : yields (kin t) (releaseTerminal toLower parse m proj t live).
Proof.
  unfold releaseTerminal. apply (yields_try (kin t)).
  - destruct (FoldInFlight _); [by intros a [= <-]|]. unfold clearFoldInFlight.
    apply (yields_try (fun _ => True)); [apply yields_any|]. intros _ _ a [= <-]. apply kin_no_fold.
  - intros t1 H1. destruct (_ == _); [by intros a [= <-]|].
    apply (yields_try (fun _ => True)); [apply yields_any|intros issues _].
    apply (yields_try (fun _ => True)); [apply yields_any|intros mrs _]. cbv zeta.
    apply (yields_try (fun _ => True)); [apply yields_any|intros _ _].
    apply (yields_try (fun _ => True)); [apply yields_any|intros mrs' _].
    apply (yields_try (fun _ => True)); [apply yields_any|intros [mrs'' surv] _].
    apply (yields_try (fun _ => True)); [apply yields_any|intros _ _].
    eapply does_mono; [|apply annotate_kin]. intros r es H a Hr. eapply kin_trans; [exact H1|by apply H].
Qed.

Lemma ResolveDocBatch_kin taskSize notes t : yields (kin t) (ResolveDocBatch taskSize notes t).
Proof.
  unfold ResolveDocBatch. destruct (negb _); [by intros a [= <-]|]. destruct (_ == _); [by intros a [= <-]|].
  destruct (_ && _).
  - apply (yields_try (fun _ => True)); [apply yields_any|intros _ _]. apply annotate_kin.
  - apply (yields_try (fun _ => True)); [apply yields_any|intros _ _].
    apply (yields_try (fun _ => True)); [apply yields_any|intros _ _]. apply annotate_kin.
Qed.

(** ** Lemmas: what deletes no Task *)

Lemma spares_only P d : spares d -> only P d.
Proof. unfold spares, only. congruence. Qed.

Lemma spares_each P {A} (p : Prog Call A) : each spares p -> each (only P) p.
Proof.
  intros H. eapply does_mono; [|exact H]. intros a es Hs. eapply Forall_impl; [exact Hs|]. intros d. apply spares_only.
Qed.

Lemma releaseTerminal_spares toLower parse m proj t live : each spares (releaseTerminal toLower parse m proj t live).
Proof.
  unfold releaseTerminal, notifyTerminalIssue, notifyTerminalIssueWith, commentAndParkIssue, scanWriter, repositoryFor,
    clearFoldInFlight, ownedIssues, ownedMRs, markAdoptionRefused, closeOwnMRs, close_own_mr, delete_own_branch,
    liveTaskPushingTo, listProjectTasks, forge_write, RecordSCM, repositoryFor, scanWriter.
  spare.
  all: first [by apply owned_spares | by apply annotate_spares | by apply releaseOwnership_spares].
Qed.

Lemma ownedMRs_spares t : each spares (ownedMRs t).
Proof. by apply owned_spares. Qed.

Lemma ownedIssues_spares t : each spares (ownedIssues t).
Proof. by apply owned_spares. Qed.

Lemma ResolveDocBatch_spares taskSize notes t : each spares (ResolveDocBatch taskSize notes t).
Proof. unfold ResolveDocBatch, StampDocumentedBy. spare. all: by apply annotate_spares. Qed.

Lemma deleteReapedTask_only toLower m proj t live (P : string -> Prop) : P (task_Name t) ->
  each (only P) (deleteReapedTask toLower m proj t live).
Proof.
  intros HP. unfold deleteReapedTask. each_go ltac:(intros n; cbn; congruence).
  all: apply spares_each; first [apply ownedIssues_spares | apply ownedMRs_spares | apply releaseOwnership_spares].
Qed.

(** ** Lemmas: a pass of the reaper *)

Lemma kin_entered t t' : kin t t' -> stageEnteredAt t' = stageEnteredAt t.
Proof.
  intros (_ & Hc & Hs). unfold stageEnteredAt.
  change (StateEnteredAt (Status t')) with (StateEnteredAt (Status (no_fold t'))). by rewrite Hs, Hc.
Qed.

Lemma kin_parked t t' : kin t t' -> Parked t' = Parked t /\ ParkReason (Status t') = ParkReason (Status t)
  /\ parkedAt t' = parkedAt t.
Proof.
  intros Hk. unfold Parked, parkedAt. rewrite (kin_entered _ _ Hk). destruct Hk as (_ & _ & Hs).
  change (ParkedAt (Status t')) with (ParkedAt (Status (no_fold t'))).
  change (ParkReason (Status t')) with (ParkReason (Status (no_fold t'))). by rewrite Hs.
Qed.

Lemma kin_delivered t t' : kin t t' -> deliveredTime t' = deliveredTime t /\ State (Status t') = State (Status t).
Proof.
  intros Hk. unfold deliveredTime. rewrite (kin_entered _ _ Hk). destruct Hk as (_ & _ & Hs).
  change (DeliveredAt (Status t')) with (DeliveredAt (Status (no_fold t'))).
  change (State (Status t')) with (State (Status (no_fold t'))). by rewrite Hs.
Qed.

Lemma kin_due now t t' : kin t t' -> due now t' -> due now t.
Proof.
  intros Hk. unfold due. destruct (kin_parked _ _ Hk) as (-> & -> & ->). destruct (kin_delivered _ _ Hk) as (-> & ->).
  by rewrite (kin_entered _ _ Hk).
Qed.

Section Pass.

Context (toLower : string -> string) (parse : string -> option string) (m : bool) (proj : Project).
Context (taskSize : Task -> option Z) (notes : option (Spiller Note)) (releaser : Task -> bool).
Context {Schedule : Type} (ParseStandard : string -> option Schedule) (Next : Schedule -> Time -> Time).
Context (wall wall' : Time) (P : string -> Prop).

Lemma delete_unless_only t live now : P (task_Name t) ->
  each (only P) (deleteUnlessHoldingADecline toLower m proj t live now).
Proof.
  intros HP. unfold deleteUnlessHoldingADecline, holdsDeclinedProposal. each_go ltac:(by apply spares_only).
  by apply deleteReapedTask_only.
Qed.

Lemma reapParked_only t live now liveRoom : Parked t = true -> (due now t -> P (task_Name t)) ->
  each (only P) (reapParked toLower parse m proj wall wall' t live now liveRoom).
Proof.
  intros Hp HP. unfold reapParked. destruct (_ == ReasonBacklogSweep) eqn:Er.
  - apply String.eqb_eq in Er. apply keeps_try; [apply _|apply spares_each, ownedIssues_spares|]. intros issues.
    destruct (existsb _ _); [by apply keeps_ret, _|]. apply delete_unless_only, HP. left. auto.
  - destruct (past _ _ _) eqn:Ep; cbn [negb]; [|by apply keeps_ret, _]. apply keeps_try; [apply _| |].
    + unfold unparkFires, listProjectTasks. each_go ltac:(by apply spares_only).
      all: apply spares_each; first [apply ownedIssues_spares|apply ownedMRs_spares].
    + intros [|]; [by apply keeps_ret, _|]. apply (keeps_try_that _ (kin t)).
      * apply spares_each, releaseTerminal_spares.
      * apply releaseTerminal_kin.
      * intros t' (Hn & _). apply delete_unless_only. rewrite Hn. apply HP. left. auto.
Qed.

Lemma reapDelivered_only t live now members : Parked t = false -> State (Status t) = StateDone ->
  (due now t -> P (task_Name t)) ->
  each (only P) (reapDelivered toLower parse m proj ParseStandard Next t live now members).
Proof.
  intros Hp Hs HP. unfold reapDelivered. apply (keeps_try_that _ (kin t)).
  - apply spares_each, releaseTerminal_spares.
  - apply releaseTerminal_kin.
  - intros t' Hk. apply keeps_try; [apply _| |].
    { unfold needsDocumenting. each_go ltac:(by apply spares_only). apply spares_each, ownedMRs_spares. }
    intros [|].
    + destruct (negb _); [by apply keeps_ret, _|]. each_go ltac:(by apply spares_only).
      apply spares_each, ownedMRs_spares.
    + destruct (past _ _ _) eqn:Ep; cbn [negb]; [|by apply keeps_ret, _]. apply keeps_try; [apply _| |].
      * apply deleteReapedTask_only. rewrite (proj1 Hk). apply HP. right. split; [done|].
        right. split; [done|]. by rewrite (proj1 (kin_delivered _ _ Hk)) in Ep.
      * intros _. by apply keeps_ret, _.
Qed.

Lemma forceDocTimeout_only t now : each (only P) (forceDocTimeout m taskSize notes releaser t now).
Proof.
  unfold forceDocTimeout. each_go ltac:(by apply spares_only).
  all: apply spares_each; first [apply ownedMRs_spares|apply ResolveDocBatch_spares].
Qed.

Lemma reapOne_only t live now members liveRoom : (due now t -> P (task_Name t)) ->
  each (only P) (reapOne toLower parse m proj taskSize notes releaser ParseStandard Next wall wall' t live now members liveRoom).
Proof.
  intros HP. unfold reapOne. apply (keeps_try_that _ (kin t)).
  - destruct (_ && _); [apply spares_each, ResolveDocBatch_spares|by apply keeps_ret, _].
  - destruct (_ && _); [apply ResolveDocBatch_kin|by intros a [= <-]].
  - intros t' Hk.
    assert (due now t' -> P (task_Name t')) as HP'.
    { intros Hd. rewrite (proj1 Hk). by apply HP, (kin_due _ _ _ Hk). }
    clear HP Hk. destruct (Parked t') eqn:Hp.
    { apply keeps_try; [apply _|by apply reapParked_only|]. intros _. by apply keeps_ret, _. }
    destruct (_ == StateRejected) eqn:Er.
    { apply String.eqb_eq in Er. apply (keeps_try_that _ (kin t')).
      - apply spares_each, releaseTerminal_spares.
      - apply releaseTerminal_kin.
      - intros t2 Hk. apply keeps_try; [apply _| |intros _; by apply keeps_ret, _].
        destruct (past _ _ _) eqn:Ep; [|by apply keeps_ret, _]. apply delete_unless_only. rewrite (proj1 Hk). apply HP'.
        right. split; [done|]. left. split; [done|]. by rewrite (kin_entered _ _ Hk) in Ep. }
    destruct (_ == StateUnderImplementation).
    { apply keeps_try; [apply _| |intros _; by apply keeps_ret, _]. destruct (_ && _); [apply forceDocTimeout_only|by apply keeps_ret, _]. }
    destruct (_ == StateDone) eqn:Ed; [|by apply keeps_ret, _]. apply String.eqb_eq in Ed. by apply reapDelivered_only.
Qed.

End Pass.

(** ** Lemmas: the index of a pass *)

Lemma held_fold (at_ : Time) (ms : list string) : forall (h : gmap string Time) (name : string), (In name ms \/ h !! name <> None) ->
  fold_left (fun h member => <[member := at_]> h) ms h !! name <> None.
Proof.
  induction ms as [|m ms IH]; intros h name H; cbn [fold_left]; [by destruct H|]. apply IH.
  destruct (string_dec m name) as [->|Hne]; [right; by rewrite lookup_insert_eq|].
  rewrite lookup_insert_ne by done. destruct H as [[?|?]|?]; auto; congruence.
Qed.

Lemma index_task_holds now before i t : holds now before i -> yields (holds now (before ++ [t])) (index_task now i t).
Proof.
  intros Hi. unfold index_task. cbv zeta. apply (yields_try (fun _ => True)); [apply yields_any|].
  intros _ _ a [= <-] name (t' & Hin & Ha & Hm). cbn [ri_held]. apply in_app_iff in Hin as [Hin|[->|[]]].
  - assert (ri_held i !! name <> None) as Hn by (apply Hi; by exists t'). destruct (FoldInFlightActive t now); [|done].
    apply held_fold. by right.
  - rewrite Ha. apply held_fold. by left.
Qed.

Lemma index_holds now l : forall before i, holds now before i ->
  yields (holds now (before ++ l)) (fold_prog l i (index_task now)).
Proof.
  induction l as [|t l IH]; intros before i Hi; cbn [fold_prog]; [rewrite app_nil_r; by intros a [= <-]|].
  apply (yields_try (holds now (before ++ [t]))); [by apply index_task_holds|]. intros i' Hi'.
  specialize (IH _ _ Hi'). by rewrite <- app_assoc in IH.
Qed.

(** ** Lemmas: orphans *)

Lemma orphanReason_disowned grace idle pod tasks projects n1 n2 n3 n4 r :
  orphanReason grace idle pod tasks projects n1 n2 n3 n4 = Some r -> disowned tasks idle pod.
Proof.
  unfold orphanReason, disowned. cbv zeta. destruct (_ <? _); [done|].
  destruct (label pod LabelTask == "") eqn:El; [done|]. apply String.eqb_neq in El. intros H. split; [exact El|].
  destruct (tasks !! label pod LabelTask) as [t|]; [|done].
  destruct (_ && _) eqn:E1 in H.
  { apply andb_true_iff in E1 as [A B]. apply negb_true_iff in A, B. apply String.eqb_neq in A, B. by left. }
  destruct (TaskDone t); [right; by left|]. right; right.
  destruct (_ && _) eqn:E2 in H.
  { apply andb_true_iff in E2 as [A B]. apply andb_true_iff in A as [A _]. apply negb_true_iff in A, B.
    apply String.eqb_neq in A, B. left. by split; [|congruence]. }
  destruct (_ && _) eqn:E3 in H; [|done]. apply andb_true_iff in E3 as [A B]. right.
  apply negb_true_iff in B. apply Z.ltb_lt in A. done.
Qed.

Lemma pvc_unclaimed pvc tasks grace now r : workspacePVCOrphanReason pvc tasks grace now = Some r -> unclaimed tasks pvc.
Proof.
  unfold workspacePVCOrphanReason, unclaimed. destruct (_ <? _); [done|].
  destruct (_ == _) eqn:El; [done|]. apply String.eqb_neq in El. intros H. split; [exact El|].
  destruct (tasks !! _) as [t|]; [|done]. by destruct (TaskIsTerminalOutcome _).
Qed.

Lemma pod_deletion_mono idle tasks pods es es' d : incl es es' ->
  pod_deletion idle tasks pods es d -> pod_deletion idle tasks pods es' d.
Proof. intros Hi. unfold pod_deletion. destruct (did_call d); try done. intros [x Hx]. exists x. by apply Hi. Qed.

#[export] Instance pod_deletions_closed idle tasks pods : Closed (pod_deletions idle tasks pods).
Proof.
  split; [constructor|]. unfold pod_deletions. intros es es' H H'. apply Forall_app.
  split; (eapply Forall_impl; [eassumption|]); intros d; apply pod_deletion_mono; intros x Hx; apply in_app_iff; auto.
Qed.

Lemma reapWrapper_deletions idle tasks pods pod : In pod pods -> disowned tasks idle pod ->
  keeps (pod_deletions idle tasks pods) (reapWrapper (wp_Name pod)).
Proof.
  intros Hin Hd. unfold reapWrapper, unless_missing.
  assert (forall x es, pod_deletion idle tasks pods es (did (DeletePodNamed (wp_Name pod)) x)) as Hp by (intros; by exists pod).
  assert (forall x y es, pod_deletion idle tasks pods (did (DeletePodNamed (wp_Name pod)) x :: es)
            (did (DeleteServiceNamed (wp_Name pod)) y)) as Hs by (intros x y es; exists x; by left).
  unfold keeps, pod_deletions. intros [[]|]; cbn; intros x; try destruct x as [[]|]; cbn; try intros [].
  all: repeat (apply Forall_cons; split; [first [apply Hp|apply Hs|exact I]|]); constructor.
Qed.

Lemma reap_pod_deletions grace idle tasks projects pods alive pod : In pod pods ->
  keeps (pod_deletions idle tasks pods) (reap_pod grace idle tasks projects alive pod).
Proof.
  intros Hin. unfold reap_pod, unless_cancelled.
  keep_step ltac:(by repeat constructor). keep_step idtac; [by apply keeps_ret, _|].
  do 4 keep_step ltac:(by repeat constructor).
  destruct (orphanReason _ _ _ _ _ _ _ _ _) as [r|] eqn:Er; [|by apply keeps_ret, _].
  apply keeps_bind; [apply _| |intros []; keep_go ltac:(by repeat constructor)].
  by eapply reapWrapper_deletions, orphanReason_disowned.
Qed.

Lemma reapWrapper_asks name : does (reapWrapper name) (fun _ es => exists x, In (did (DeletePodNamed name) x) es).
Proof.
  intros x. eapply does_mono; [|apply does_True]. intros r es _. exists x. by left.
Qed.

Lemma accounted_mono (alive alive' : gmap string unit) pods es es' :
  (forall n, alive !! n <> None -> alive' !! n <> None) -> incl es es' -> accounted alive pods es -> accounted alive' pods es'.
Proof. intros Ha Hi H pod Hin. destruct (H pod Hin) as [Hx|[x Hx]]; [left; by apply Ha|right; exists x; by apply Hi]. Qed.

Lemma reap_pod_accounts grace idle tasks projects alive pod :
  does (reap_pod grace idle tasks projects alive pod) (fun r es => forall alive', r = Ok alive' ->
    (forall n, alive !! n <> None -> alive' !! n <> None) /\ accounted alive' [pod] es).
Proof.
  unfold reap_pod, unless_cancelled. intros [|]; [done|]. do 4 intros ?.
  destruct (orphanReason _ _ _ _ _ _ _ _ _) as [r|].
  - apply does_bind. eapply does_mono; [|apply reapWrapper_asks]. intros r0 es [ans Hx].
    assert (accounted alive [pod] es) as Hs by (intros p [<-|[]]; right; by exists ans).
    destruct r0 as [u|e]; cbn; [intros ?|]; intros a [= <-]; (split; [done|]);
      (eapply accounted_mono; [done| |exact Hs]); intros d Hd; do 5 right; apply in_app_iff; by left.
  - cbn. intros a [= <-]. split.
    + intros n Hn. destruct (string_dec (wp_Name pod) n) as [<-|Hne]; [by rewrite lookup_insert_eq|by rewrite lookup_insert_ne].
    + intros p [<-|[]]. left. by rewrite lookup_insert_eq.
Qed.

Lemma reap_pods_account grace idle tasks projects pods : forall alive,
  does (fold_prog pods alive (reap_pod grace idle tasks projects)) (fun r es => forall alive', r = Ok alive' ->
    (forall n, alive !! n <> None -> alive' !! n <> None) /\ accounted alive' pods es).
Proof.
  induction pods as [|pod pods IH]; intros alive; cbn [fold_prog]; [intros a [= <-]; split; [done|by intros p []]|].
  apply does_try. eapply does_mono; [|apply reap_pod_accounts]. intros [alive1|e] es H; [|by intros a [=]].
  destruct (H _ eq_refl) as [Hm1 Ha1]. eapply does_mono; [|apply IH]. intros r es' H' alive' Hr.
  destruct (H' _ Hr) as [Hm2 Ha2]. split; [auto|]. intros p [<-|Hin].
  - apply (accounted_mono alive1 alive' [pod] es (es ++ es') Hm2); [intros d Hd; apply in_app_iff; by left|done|by left].
  - apply (accounted_mono alive' alive' pods es' (es ++ es')); [done|intros d Hd; apply in_app_iff; by right|done|done].
Qed.

Lemma late_services grace alive tasks pvcs svcs :
  each (late_deletion alive tasks pvcs) (foreach svcs (reap_service grace alive)).
Proof.
  apply keeps_foreach; [apply _|]. intros svc _. unfold reap_service, unless_cancelled, reap_object, unless_missing.
  keep_step ltac:(by repeat constructor). keep_step idtac; [by apply keeps_ret, _|].
  destruct (alive !! wp_Name svc) eqn:E; [by apply keeps_ret, _|]. cbn [is_set].
  each_go ltac:(first [exact E|exact I]).
Qed.

Lemma late_pvcs grace alive tasks pvcs :
  each (late_deletion alive tasks pvcs) (foreach pvcs (reap_pvc grace tasks)).
Proof.
  apply keeps_foreach; [apply _|]. intros pvc Hin. unfold reap_pvc, unless_cancelled, reap_object, unless_missing.
  keep_step ltac:(by repeat constructor). keep_step idtac; [by apply keeps_ret, _|].
  keep_step ltac:(by repeat constructor). destruct (workspacePVCOrphanReason _ _ _ _) as [r|] eqn:E; [|by apply keeps_ret, _].
  each_go ltac:(first [exact I|exists pvc; split; [done|split; [done|by eapply pvc_unclaimed]]]).
Qed.

Lemma justified_mono idle es es' d : incl es es' -> justified idle es d -> justified idle es' d.
Proof.
  intros Hi. unfold justified. destruct (did_call d); try done.
  - intros (pods & tasks & pod & H1 & H2 & H). exists pods, tasks, pod. auto.
  - intros (pods & H1 & H). exists pods. split; [auto|]. destruct H as [[x H]|H]; [left; exists x|right]; auto.
  - intros (pvcs & tasks & pvc & H1 & H2 & H). exists pvcs, tasks, pvc. auto.
Qed.

(** What the loop over the pods shows, and what the loops after it show. *)
Lemma justified_pods idle tasks pods ctx es :
  In (did ListPods (Ok pods)) ctx -> In (did ListTasks (Ok tasks)) ctx -> incl es ctx ->
  pod_deletions idle (by_name task_Name tasks) pods es -> Forall (justified idle ctx) es.
Proof.
  intros Hp Ht Hi H. eapply Forall_impl; [exact H|]. intros d. unfold pod_deletion, justified. destruct (did_call d); try done.
  - intros (pod & Hin & Hn & Hd). by exists pods, tasks, pod.
  - intros [x Hx]. exists pods. split; [done|]. left. exists x. by apply Hi.
Qed.

Lemma justified_late idle tasks pods pvcs alive ctx es :
  In (did ListPods (Ok pods)) ctx -> In (did ListTasks (Ok tasks)) ctx -> accounted alive pods ctx ->
  (In (did ListPVCs (Ok pvcs)) ctx \/ pvcs = []) ->
  Forall (late_deletion alive (by_name task_Name tasks) pvcs) es -> Forall (justified idle ctx) es.
Proof.
  intros Hp Ht Ha Hc H. eapply Forall_impl; [exact H|]. intros d. unfold late_deletion, justified.
  destruct (did_call d); try done.
  - intros Hn. exists pods. split; [done|].
    match type of Hn with alive !! ?n = None => destruct (in_dec string_dec n (map wp_Name pods)) as [Hin|Hout] end;
      [left|by right].
    apply in_map_iff in Hin as (pod & <- & Hin). by destruct (Ha pod Hin) as [Hl|Hx].
  - intros (pvc & Hin & Hn & Hu). destruct Hc as [Hc| ->]; [by exists pvcs, tasks, pvc|done].
Qed.

(** The services, then the claims. *)
Lemma reap_late grace idle tasks pods alive :
  does (let? svcs := api ListServices in
        let? _ := foreach svcs (reap_service grace alive) in
        let? pvcs := api ListPVCs in
        foreach pvcs (reap_pvc grace (by_name task_Name tasks)))
    (fun _ es => forall ctx, incl es ctx -> In (did ListPods (Ok pods)) ctx -> In (did ListTasks (Ok tasks)) ctx ->
       accounted alive pods ctx -> Forall (justified idle ctx) es).
Proof.
  intros [svcs|e]; [|intros; by repeat constructor]. apply does_try.
  eapply does_mono; [|exact (late_services grace alive (by_name task_Name tasks) [] svcs)]. intros r es1 H1.
  assert (forall ctx, In (did ListPods (Ok pods)) ctx -> In (did ListTasks (Ok tasks)) ctx ->
            accounted alive pods ctx -> Forall (justified idle ctx) es1) as H1'.
  { intros ctx Hp Ht Ha. eapply justified_late; [done|done|done|by right|exact H1]. }
  destruct r as [u|e]; [|intros ctx _ Hp Ht Ha; constructor; [done|by apply H1']].
  intros [pvcs|e]; [|intros ctx _ Hp Ht Ha; constructor; [done|]; apply Forall_app; split; [by apply H1'|by repeat constructor]].
  eapply does_mono; [|exact (late_pvcs grace alive (by_name task_Name tasks) pvcs)]. intros r es2 H2 ctx Hi Hp Ht Ha.
  constructor; [done|]. apply Forall_app. split; [by apply H1'|]. constructor; [done|].
  eapply justified_late; [done|done|done| |exact H2]. left. apply Hi. right. apply in_app_iff. right. by left.
Qed.

Lemma reap_rest grace ReaperGrace idle tasks projects pods :
  does (let? alive := fold_prog pods ∅ (reap_pod ReaperGrace idle (by_name task_Name tasks) projects) in
        let? svcs := api ListServices in
        let? _ := foreach svcs (reap_service grace alive) in
        let? pvcs := api ListPVCs in
        foreach pvcs (reap_pvc grace (by_name task_Name tasks)))
    (fun _ es => forall ctx, incl es ctx -> In (did ListPods (Ok pods)) ctx -> In (did ListTasks (Ok tasks)) ctx ->
       Forall (justified idle ctx) es).
Proof.
  apply does_try. eapply does_mono; [|exact (does_and _ _ _
    (keeps_fold_prog (pod_deletions idle (by_name task_Name tasks) pods) pods _ ∅
       (fun alive pod Hin => reap_pod_deletions ReaperGrace idle _ _ pods alive pod Hin))
    (reap_pods_account ReaperGrace idle _ _ pods ∅))].
  intros [alive|e] es [Hd Ha]; cbn beta iota.
  2: { intros ctx Hi Hp Ht. by eapply justified_pods. }
  destruct (Ha _ eq_refl) as [_ Hacc]. eapply does_mono; [|apply reap_late]. intros r es' H ctx Hi Hp Ht.
  apply incl_app_inv in Hi as [Hi Hi']. apply Forall_app. split; [by eapply justified_pods|].
  apply H; [done|done|done|]. apply (accounted_mono alive alive pods es ctx); [done|exact Hi|exact Hacc].
Qed.

(** ** The theorems *)

(** C20: the reaper deletes only what is spent: every Task whose deletion a pass asks for is
    a Task of the project in the list the pass read, with a state, in no fold that is still
    active, and is parked as a backlog sweep or for longer than the retention of parks, or
    else rejected or done for longer than theirs, by the clock the pass read.  A live Task
    that is not parked is never deleted, whatever the outside answers. *)
Theorem reaper_deletes_only_the_spent (toLower : string -> string) (parse : string -> option string) (m : bool)
    (proj : Project) (taskSize : Task -> option Z) (notes : option (Spiller Note)) (releaser : Task -> bool)
    {Schedule : Type} (ParseStandard : string -> option Schedule) (Next : Schedule -> Time -> Time) (wall wall' : Time)
    (w : World Call) (name : string) :
  let es := snd (run w (ReapTerminal toLower parse m proj taskSize notes releaser ParseStandard Next wall wall')) in
  In (Some name) (map deleted_task es) ->
  exists l now, In (did ListTasks (Ok l)) es /\ In (did TimeNow now) es /\ spent proj l now name.
Proof.
  cbv zeta.
  assert (does (ReapTerminal toLower parse m proj taskSize notes releaser ParseStandard Next wall wall')
    (fun _ es => In (Some name) (map deleted_task es) ->
       exists l now, In (did ListTasks (Ok l)) es /\ In (did TimeNow now) es /\ spent proj l now name)) as H.
  { intros [l|e]; [|intros [|[]]; done]. cbn beta iota. intros now.
    assert (each (only (spent proj l now))
      (let? i := fold_prog l (mkReapIndex ∅ ∅ []) (index_task now) in
       let? liveRoom := reap_room proj l in
       let? s := fold_prog l (mkReapPass 0 0 None)
                   (reap_step toLower parse m proj taskSize notes releaser ParseStandard Next wall wall' i now liveRoom) in
       let? _ := tell (SetGauge "doc_reference_blocked" [proj_Name proj] (rp_blocked s)) in
       let? _ := tell (SetGauge "fold_in_flight_blocked" [proj_Name proj] (rp_foldBlocked s)) in
       match rp_first s with Some e => fail e | None => ok tt end)) as He.
    { apply (keeps_try_that _ (holds now l)).
      - apply spares_each. unfold index_task. spare.
      - apply (index_holds now l []). by intros n (t & [] & _).
      - intros i Hi. apply keeps_try; [apply _|unfold reap_room; each_go ltac:(by apply spares_only)|]. intros liveRoom.
        apply keeps_try; [apply _| |intros s; each_go ltac:(by apply spares_only)].
        apply keeps_fold_prog; [apply _|]. intros s t Hin. unfold reap_step, unless_cancelled.
        apply keeps_do; [apply _|intros x; apply Forall_singleton; by apply spares_only|]. intros [|]; [by apply keeps_ret, _|].
        destruct (_ || _) eqn:Eg; [by apply keeps_ret, _|]. apply orb_false_iff in Eg as [Ep Es].
        apply negb_false_iff, String.eqb_eq in Ep. apply String.eqb_neq in Es.
        destruct (ri_held i !! task_Name t) as [since|] eqn:Eh; [each_go ltac:(by apply spares_only)|].
        apply keeps_bind; [apply _| |intros r; each_go ltac:(by apply spares_only)].
        apply reapOne_only. intros Hd. exists t. repeat (split; [done|]). split; [|done].
        intros Hf. by apply (Hi (task_Name t)). }
    eapply does_mono; [|exact He]. intros r es Hes [H|[H|Hin]]; [done|done|]. exists l, now.
    split; [by left|]. split; [right; by left|]. apply in_map_iff in Hin as (d & Hd & Hin).
    unfold each in Hes. rewrite List.Forall_forall in Hes. by apply (Hes d Hin). }
  exact (run_does w _ _ H).
Qed.

(** the orphan reaper takes nothing from a Task at work: in every run, a pod that is
    deleted was listed, carries a Task's label, and that Task is absent from the list of the
    same run, or was recreated, or is done, or wants another kind of agent, or has no turn in
    flight; a service goes only with its pod or when no listed pod has its name; a volume
    claim goes only when its Task is gone or ended. *)
Theorem orphans_are_disowned (ReaperGrace IdlePodReapAfter : Duration) (w : World Call) :
  let es := snd (run w (ReapOrphans ReaperGrace IdlePodReapAfter)) in Forall (justified IdlePodReapAfter es) es.
Proof.
  cbv zeta. apply (run_does w _ (fun _ es => Forall (justified IdlePodReapAfter es) es)).
  unfold ReapOrphans. intros [pods|e]; [|by repeat constructor]. intros [tasks|e]; [|by repeat constructor].
  cbn beta iota zeta. intros [projects|e]; cbn [bind ok fail].
  all: eapply does_mono; [|eapply reap_rest]; intros r es H; do 3 (constructor; [done|]); apply H;
    [intros d Hd; by do 3 right|by left|right; by left].
Qed.

(** ** Witnesses *)

Lemma reaper_deletes_only_the_spent_witness :
  let es := snd (run a_day_later (ReapTerminal id (fun _ => None) false zero_Project (fun _ => Some 0) None (fun _ => true)
                   (fun _ => None) (fun (_ : unit) t => t) 0 0)) in
  In (Some "t"%string) (map deleted_task es)
  /\ exists l now, In (did ListTasks (Ok l)) es /\ In (did TimeNow now) es /\ spent zero_Project l now "t".
Proof.
  set (es := snd (run a_day_later (ReapTerminal id (fun _ => None) false zero_Project (fun _ => Some 0) None (fun _ => true)
                   (fun _ => None) (fun (_ : unit) t => t) 0 0))).
  assert (In (Some "t"%string) (map deleted_task es)) as H.
  { assert (existsb (fun x => match x with Some n => n == "t" | None => false end) (map deleted_task es) = true) as E
      by (vm_compute; reflexivity).
    apply existsb_exists in E as ([n|] & Hin & E); [|done]. apply String.eqb_eq in E. by subst n. }
  split; [exact H|].
  exact (reaper_deletes_only_the_spent id (fun _ => None) false zero_Project (fun _ => Some 0) None (fun _ => true)
           (fun _ => None) (fun (_ : unit) t => t) 0 0 a_day_later "t" H).
Defined.
