(* ===== verification/Mirror.v ===== *)
(** * The mirror (internal/controller/mirror.go): the Issue and MergeRequest objects that
    copy the forge's threads, how a thread is merged into what is known of it, and the
    syncs that write them. *)

From Stdlib Require Import String Ascii Sorted Permutation.
From S2P Require Import Prelude GoTime Text Limits Api Vocabulary Machine Park ObjBudget Own Transition Names Seq Refs Corridor LivePods Calls Release.

Open Scope Z_scope.
Open Scope go_scope.

(** ** Constants and keys *)

Definition commentBodyLimit : Z := CommentBodyMaxBytes.
Definition MirrorCadenceActive : Duration := Hour.
Definition MirrorCadenceParked : Duration := 24 * Hour.
Definition CIRefreshCadenceActive : Duration := 5 * Minute.

Definition IssueName (repoRef : string) (number : Z) : string :=
  sprintf ["iss-"; repoRef; "-"; FormatInt number].

Definition MergeRequestName (repoRef : string) (number : Z) : string :=
  sprintf ["mr-"; repoRef; "-"; FormatInt number].

Definition IssueKey (repoRef : string) (number : Z) : string := sprintf [repoRef; "#"; FormatInt number].
Definition MRKey (repoRef : string) (number : Z) : string := sprintf [repoRef; "!"; FormatInt number].

Definition IssueKeyIndexer (iss : Issue) : list string :=
  if (is_RepositoryRef (iss_Spec iss) == "") || (is_Number (iss_Spec iss) =? 0) then []
  else [IssueKey (is_RepositoryRef (iss_Spec iss)) (is_Number (iss_Spec iss))].

Definition MRKeyIndexer (mr : MergeRequest) : list string :=
  if (mrs_RepositoryRef (mr_Spec mr) == "") || (mrs_Number (mr_Spec mr) =? 0) then []
  else [MRKey (mrs_RepositoryRef (mr_Spec mr)) (mrs_Number (mr_Spec mr))].

Definition TaskProjectRefIndexer (t : Task) : list string :=
  if ProjectRef (Spec t) == "" then [] else [ProjectRef (Spec t)].

Definition TaskDocumentsTasksIndexer (t : Task) : list string :=
  List.filter (fun name => name != "") (DocumentsTasks (Spec t)).

(** ** Cadences: the owner may be nil *)

Definition MirrorCadence (t : option Task) : Duration :=
  match t with
  | Some t => if Parked t then MirrorCadenceParked else MirrorCadenceActive
  | None => MirrorCadenceActive
  end.

Definition CIRefreshCadence (t : option Task) : Duration :=
  match t with
  | Some t' => if negb (TaskDone t') && negb (Parked t') then CIRefreshCadenceActive else MirrorCadence t
  | None => MirrorCadence t
  end.

Definition mirrorSyncDue (lastSyncedAt : option Time) (cadence : Duration) (now : Time) : bool :=
  match lastSyncedAt with None => true | Some at_ => cadence <=? Sub now at_ end.

(** ** Comments *)

Definition truncateCommentBody (body : string) : string * bool :=
  (TruncateUTF8 body commentBodyLimit, commentBodyLimit <? Z.of_nat (String.length body)).

Definition mirrorCommentFrom (proj : Project) (c : IssueComment) : Comment :=
  let '(body, truncated) := truncateCommentBody (ic_Body c) in
  let bot := botLoginOf proj in
  mkComment (ic_ExternalID c) (ic_Author c) body (ic_CreatedAt c)
    ((bot != "") && (ic_Author c != "") && (ic_Author c == bot)) truncated "" "" 0 "" 0.

(** What the forge does not know of a comment is kept from the mirror. *)
Definition mergeOneComment (cur inc : Comment) : Comment :=
  mkComment (cm_ExternalID inc) (cm_Author inc) (cm_Body inc) (cm_CreatedAt inc) (cm_IsBot inc) (cm_Truncated inc)
    (if cm_AgentKind inc == "" then cm_AgentKind cur else cm_AgentKind inc)
    (if cm_Path inc == "" then cm_Path cur else cm_Path inc)
    (if cm_Line inc =? 0 then cm_Line cur else cm_Line inc)
    (if cm_InReplyTo inc == "" then cm_InReplyTo cur else cm_InReplyTo inc)
    (if cm_ReviewRound inc =? 0 then cm_ReviewRound cur else cm_ReviewRound inc).

(** [sort.SliceStable] by the creation times. *)
Fixpoint insert_comment (c : Comment) (l : list Comment) : list Comment :=
  match l with
  | [] => [c]
  | d :: l' => if Before (cm_CreatedAt c) (cm_CreatedAt d) then c :: l else d :: insert_comment c l'
  end.

Definition sort_comments (l : list Comment) : list Comment := fold_left (fun acc c => insert_comment c acc) l [].

(** [byID]: where each identifier was last put, the empty one too. *)
Definition index_comments (l : list Comment) : gmap string nat :=
  fst (fold_left (fun '(m, i) c => (<[cm_ExternalID c := i]> m, S i)) l (∅, O)).

Definition too_old (retainFrom : option Time) (c : Comment) : bool :=
  match retainFrom with Some t => Before (cm_CreatedAt c) t | None => false end.

Fixpoint mirror_loop (retainFrom : option Time) (incoming out : list Comment) (byID : gmap string nat) : list Comment :=
  match incoming with
  | [] => out
  | c :: rest =>
      if too_old retainFrom c then mirror_loop retainFrom rest out byID
      else
        match (if cm_ExternalID c != "" then byID !! cm_ExternalID c else None) with
        | Some i => mirror_loop retainFrom rest (alter (fun cur => mergeOneComment cur c) i out) byID
        | None => mirror_loop retainFrom rest (out ++ [c])%list (<[cm_ExternalID c := length out]> byID)
        end
  end.

Definition mergeComments (existing incoming : list Comment) (retainFrom : option Time) : list Comment :=
  sort_comments (mirror_loop retainFrom incoming existing (index_comments existing)).

(** ** Syncs *)

Section Mirror.

(** The path of [url.Parse], the sizes of the objects and the spiller of comments; whether
    an uncached reader is wired. *)
Context (parse : string -> option string) (issueSize : Issue -> option Z) (mrSize : MergeRequest -> option Z)
  (sp : option (Spiller Comment)) (proj : Project).

(** A truncated comment is counted. *)
Definition mirrorComments (kind : string) (l : list IssueComment) : Io (list Comment) :=
  fold_prog l [] (fun out c =>
    let cm := mirrorCommentFrom proj c in
    let? _ := (if cm_Truncated cm then tell (Count "mirror_comment_truncated" [kind]) else ok tt) in
    ok (out ++ [cm])%list).

(** A failure is counted unless it is the manager's own shutdown; it is returned all the
    same. *)
Definition recordMirrorSyncFailure (kind : string) : Io unit :=
  Do Cancelled (fun shutdown : bool => if shutdown then ok tt else tell (Count "mirror_sync" [kind; "error"%string])).

Definition counting_failure {A} (kind : string) (p : Io A) : Io A :=
  let! r := p in
  match r with
  | Ok a => ok a
  | Err e => let? _ := recordMirrorSyncFailure kind in fail e
  end.

Definition ensureIssueCRWithAnnotations (v : View) (repo : Repository) (number : Z) (url : string)
    (annotations : gmap string string) : Io bool :=
  let name := IssueName (repo_Name repo) number in
  let? cur := found (api (GetIssue v name)) in
  match cur with
  | Some _ => ok false
  | None =>
      let iss := zero_Issue <| iss_Name := name |> <| iss_Annotations := annotations |>
                   <| iss_Spec := mkIssueSpec (repo_Name repo) number url (proj_Name proj) "" "" |> in
      let! r := write (CreateIssue iss) in
      match r with
      | Ok _ => ok true
      | Err e => if IsAlreadyExists e then ok false else fail e
      end
  end.

Definition ensureIssueCR (repo : Repository) (number : Z) (url : string) : Io unit :=
  let? _ := ensureIssueCRWithAnnotations Cached repo number url ∅ in ok tt.

Definition ensureMergeRequestCR (repo : Repository) (number : Z) (url : string) : Io unit :=
  let name := MergeRequestName (repo_Name repo) number in
  let? cur := found (api (GetMergeRequest Cached name)) in
  match cur with
  | Some _ => ok tt
  | None =>
      let mr := zero_MergeRequest <| mr_Name := name |>
                  <| mr_Spec := mkMergeRequestSpec (repo_Name repo) number url (proj_Name proj) |> in
      let! r := write (CreateMergeRequest mr) in
      match r with
      | Ok _ => ok tt
      | Err e => if IsAlreadyExists e then ok tt else fail e
      end
  end.

Definition stamp (t : Time) (old : option Time) : option Time := if IsZero t then old else Some t.

(** What a sync writes; [now] is the clock of the sync.  The Synced condition is left out. *)
Definition synced_issue (ext : ScmIssue) (incoming : list Comment) (now : Time) (iss : Issue) : Issue :=
  iss <| iss_Status ::= fun s =>
    s <| iss_Title := si_Title ext |> <| iss_Author := si_Author ext |>
      <| iss_Body := TruncateUTF8 (si_Body ext) IssueBodyMaxBytes |>
      <| iss_State := si_State ext |> <| iss_Labels := si_Labels ext |>
      <| iss_CreatedAt ::= stamp (si_CreatedAt ext) |> <| iss_UpdatedAt ::= stamp (si_UpdatedAt ext) |>
      <| iss_Comments ::= fun old => mergeComments old incoming (iss_CommentsRetainedFrom s) |>
      <| iss_LastSyncedAt := Some now |> |>.

Definition SyncIssue (repo : Repository) (ext : ScmIssue) : Io unit :=
  let? _ := counting_failure "Issue" (ensureIssueCR repo (si_Number ext) (si_URL ext)) in
  let? incoming := mirrorComments "Issue" (si_Comments ext) in
  Do TimeNow (fun now : Time =>
    let? _ := counting_failure "Issue"
      (fitIssue issueSize sp (IssueName (repo_Name repo) (si_Number ext)) (synced_issue ext incoming now)) in
    tell (Count "mirror_sync" ["Issue"; "ok"])).

Definition synced_mr (ext : ScmMergeRequest) (incoming : list Comment) (now : Time) (mr : MergeRequest) : MergeRequest :=
  mr <| mr_Status ::= fun s =>
    s <| mr_Title := sm_Title ext |> <| mr_Author := sm_Author ext |>
      <| mr_Body := TruncateUTF8 (sm_Body ext) MergeRequestBodyMaxBytes |>
      <| mr_State := sm_State ext |> <| mr_HeadBranch := sm_HeadBranch ext |> <| mr_HeadSHA := sm_HeadSHA ext |>
      <| mr_CIStatus := sm_CIStatus ext |> <| mr_Mergeable := sm_Mergeable ext |>
      <| mr_CreatedAt ::= stamp (sm_CreatedAt ext) |> <| mr_UpdatedAt ::= stamp (sm_UpdatedAt ext) |>
      <| mr_MergedAt ::= fun old => match sm_MergedAt ext with Some t => Some t | None => old end |>
      <| mr_Comments ::= fun old => mergeComments old incoming (mr_CommentsRetainedFrom s) |>
      <| mr_LastSyncedAt := Some now |> |>.

Definition SyncMergeRequest (repo : Repository) (ext : ScmMergeRequest) : Io unit :=
  let? _ := counting_failure "MergeRequest" (ensureMergeRequestCR repo (sm_Number ext) (sm_URL ext)) in
  let? incoming := mirrorComments "MergeRequest" (sm_Comments ext) in
  Do TimeNow (fun now : Time =>
    let? _ := counting_failure "MergeRequest"
      (fitMergeRequest mrSize sp (MergeRequestName (repo_Name repo) (sm_Number ext)) (synced_mr ext incoming now)) in
    tell (Count "mirror_sync" ["MergeRequest"; "ok"])).

Definition truncated (cmt : Comment) : Comment :=
  let '(body, cut) := truncateCommentBody (cm_Body cmt) in
  mkComment (cm_ExternalID cmt) (cm_Author cmt) body (cm_CreatedAt cmt) (cm_IsBot cmt) cut (cm_AgentKind cmt)
    (cm_Path cmt) (cm_Line cmt) (cm_InReplyTo cmt) (cm_ReviewRound cmt).

Definition with_issue_comment (cmt : Comment) (iss : Issue) : Issue :=
  iss <| iss_Status ::= fun s =>
    s <| iss_Comments ::= fun old => mergeComments old [cmt] (iss_CommentsRetainedFrom s) |> |>.

Definition with_mr_comment (cmt : Comment) (mr : MergeRequest) : MergeRequest :=
  mr <| mr_Status ::= fun s =>
    s <| mr_Comments ::= fun old => mergeComments old [cmt] (mr_CommentsRetainedFrom s) |> |>.

(** [AppendCommentToMirror] on an Issue, and on a MergeRequest. *)
Definition append_to_issue (name : string) (cmt : Comment) : Io unit :=
  let cmt := truncated cmt in
  let? _ := (if cm_Truncated cmt then tell (Count "mirror_comment_truncated" ["Issue"]) else ok tt) in
  let? _ := fitIssue issueSize sp name (with_issue_comment cmt) in ok tt.

Definition append_to_mr (name : string) (cmt : Comment) : Io unit :=
  let cmt := truncated cmt in
  let? _ := (if cm_Truncated cmt then tell (Count "mirror_comment_truncated" ["MergeRequest"]) else ok tt) in
  let? _ := fitMergeRequest mrSize sp name (with_mr_comment cmt) in ok tt.

(** The thread of an Issue, and its labels where they can be read. *)
Definition thread_of_issue (incoming : list Comment) (labels : option (list string)) (now : Time) (iss : Issue) : Issue :=
  iss <| iss_Status ::= fun s =>
    s <| iss_Comments ::= fun old => mergeComments old incoming (iss_CommentsRetainedFrom s) |>
      <| iss_Labels ::= fun old => default old labels |>
      <| iss_LastSyncedAt := Some now |> |>.

Definition owner_repo (repo : Repository) : Io (string * string) :=
  match ghOwnerRepo (parse (repo_URL repo)) with
  | Some p => ok p
  | None => fail (NoSlug (repo_URL repo))
  end.

Definition syncIssueThread (repo : Repository) (iss : Issue) : Io unit :=
  let? (owner, name) := owner_repo repo in
  let number := is_Number (iss_Spec iss) in
  let? comments := counting_failure "Issue" (forge (ListIssueComments owner name number)) in
  let! content := forge (GetIssueContent owner name number) in
  let? incoming := mirrorComments "Issue" comments in
  Do TimeNow (fun now : Time =>
    let labels := match content with Ok c => Some (icn_Labels c) | Err _ => None end in
    let? _ := counting_failure "Issue" (fitIssue issueSize sp (iss_Name iss) (thread_of_issue incoming labels now)) in
    tell (Count "mirror_sync" ["Issue"; "ok"])).

Definition thread_of_mr (incoming : list Comment) (now : Time) (mr : MergeRequest) : MergeRequest :=
  mr <| mr_Status ::= fun s =>
    s <| mr_Comments ::= fun old => mergeComments old incoming (mr_CommentsRetainedFrom s) |>
      <| mr_LastSyncedAt := Some now |> |>.

Definition list_thread (owner name : string) (number : Z) : Io (list IssueComment) :=
  Do CanListPRComments (fun pr : bool =>
    forge (if pr then ListPRComments owner name number else ListIssueComments owner name number)).

Definition syncMergeRequestThread (repo : Repository) (mr : MergeRequest) : Io unit :=
  let? (owner, name) := owner_repo repo in
  let? comments := counting_failure "MergeRequest" (list_thread owner name (mrs_Number (mr_Spec mr))) in
  let? incoming := mirrorComments "MergeRequest" comments in
  Do TimeNow (fun now : Time =>
    let? _ := counting_failure "MergeRequest" (fitMergeRequest mrSize sp (mr_Name mr) (thread_of_mr incoming now)) in
    tell (Count "mirror_sync" ["MergeRequest"; "ok"])).

(** GitLab addresses a project by its whole path. *)
Definition ciOwnerRepo (provider : string) (repo : Repository) : option (string * string) :=
  match ghOwnerRepo (parse (repo_URL repo)) with
  | None => None
  | Some p =>
      if provider == "gitlab" then
        match glProjectPath (parse (repo_URL repo)) with Some pp => Some (pp, ""%string) | None => Some p end
      else Some p
  end.

(** A thread is gone when its read was refused for good and the repository can be read. *)
Definition upstreamThreadGone (repo : Repository) (provider : string) (err : ScmAnswer) : Io bool :=
  if negb (isPermanentTargetGone err) then ok false
  else match ciOwnerRepo provider repo with
       | None => ok false
       | Some (owner, name) => let! r := forge (GetDefaultBranchHead owner name) in ok (is_ok r)
       end.

Definition SyncIssueOnDemand (issueKey : string) : Io unit :=
  let? l := api (ListIssuesByKey issueKey) in
  match l with
  | [] => fail (NoIssueFor issueKey)
  | iss :: _ =>
      let? repo := api (GetRepository (is_RepositoryRef (iss_Spec iss))) in
      syncIssueThread repo iss
  end.

Definition at_live_head (head : string) (now : Time) (mr : MergeRequest) : MergeRequest :=
  mr <| mr_Status ::= fun s => s <| mr_HeadSHA := head |> <| mr_LastSyncedAt := Some now |> |>.

(** The live head is stamped although the thread could not be read; that error is returned
    last. *)
Definition SyncMergeRequestOnDemand (repo : Repository) (mr : MergeRequest) (liveHeadSHA : string) : Io unit :=
  let! thread := syncMergeRequestThread repo mr in
  Do TimeNow (fun now : Time =>
    let? _ := counting_failure "MergeRequest" (fitMergeRequest mrSize sp (mr_Name mr) (at_live_head liveHeadSHA now)) in
    Ret thread).

(** The Task that controls a mirror; [None] without one, or when it cannot be read. *)
Definition mirrorOwnerTask `{Artifact A} (o : A) : Prog Call (option Task) :=
  match ControllerOwner (owners o) with
  | None => Ret None
  | Some name => Do (GetTask Cached name) (fun r => Ret (match r with Ok t => Some t | Err _ => None end))
  end.

Definition stampIssueMirrorChecked (iss : Issue) (now : Time) : Io unit :=
  let? _ := fitIssue issueSize sp (iss_Name iss)
              (fun cur => cur <| iss_Status ::= fun s => s <| iss_LastSyncedAt := Some now |> |>) in ok tt.

End Mirror.

(** ** What the theorems say *)

Definition ids (l : list Comment) : list string := List.filter (fun i => i != "") (map cm_ExternalID l).

(** No two comments with an identifier share it. *)
Definition distinct (l : list Comment) : Prop := List.NoDup (ids l).

Definition in_order (l : list Comment) : Prop := StronglySorted (fun c d => cm_CreatedAt c <= cm_CreatedAt d) l.

(** A comment of the forge that a thread has taken in. *)
Definition taken_in (l : list Comment) (c : Comment) : Prop :=
  exists d, In d l /\ cm_ExternalID d = cm_ExternalID c /\ cm_Author d = cm_Author c /\ cm_Body d = cm_Body c
    /\ cm_CreatedAt d = cm_CreatedAt c /\ cm_IsBot d = cm_IsBot c.

(** Merging it once more changes no comment of the thread. *)
Definition absorbed (l : list Comment) (c : Comment) : Prop :=
  In (cm_ExternalID c) (ids l) /\ (forall d, In d l -> cm_ExternalID d = cm_ExternalID c -> mergeOneComment d c = d).

(** The index of a thread. *)
Definition indexes (m : gmap string nat) (l : list Comment) : Prop :=
  forall id i, id <> ""%string -> m !! id = Some i <-> exists d, l !! i = Some d /\ cm_ExternalID d = id.

(** A comment of a person. *)
Definition said (id body : string) (at_ : Time) : Comment := mkComment id "ann" body at_ false false "" "" 0 "" 0.

(** ** Lemmas: the sort *)

Lemma insert_comment_perm c l : Permutation (insert_comment c l) (c :: l).
Proof.
  induction l as [|d l IH]; [done|]. cbn [insert_comment]. destruct (Before _ _); [done|].
  rewrite IH. apply Permutation_swap.
Qed.

Lemma sort_perm_acc l : forall acc, Permutation (fold_left (fun acc c => insert_comment c acc) l acc) (l ++ acc).
Proof.
  induction l as [|c l IH]; intros acc; [done|]. cbn [fold_left]. rewrite IH, insert_comment_perm.
  symmetry. apply Permutation_middle.
Qed.

Lemma sort_perm l : Permutation (sort_comments l) l.
Proof. unfold sort_comments. rewrite sort_perm_acc. by rewrite app_nil_r. Qed.

Lemma insert_comment_sorted c l : in_order l -> in_order (insert_comment c l).
Proof.
  induction l as [|d l IH]; intros H; cbn [insert_comment]; [by repeat constructor|].
  apply StronglySorted_inv in H as [Hs Hd]. destruct (Before _ _) eqn:E; unfold Before in E.
  - constructor; [by constructor|]. apply Z.ltb_lt in E. constructor; [lia|].
    eapply Forall_impl; [exact Hd|]. cbn. lia.
  - constructor; [by apply IH|]. apply Z.ltb_ge in E.
    rewrite insert_comment_perm. constructor; [lia|done].
Qed.

Lemma sort_sorted_acc l : forall acc, in_order acc -> in_order (fold_left (fun acc c => insert_comment c acc) l acc).
Proof. induction l as [|c l IH]; intros acc H; [done|]. cbn. by apply IH, insert_comment_sorted. Qed.

Lemma sort_sorted l : in_order (sort_comments l).
Proof. apply sort_sorted_acc. constructor. Qed.

Lemma insert_at_end c l : Forall (fun d => cm_CreatedAt d <= cm_CreatedAt c) l -> insert_comment c l = (l ++ [c])%list.
Proof.
  induction 1 as [|d l Hd _ IH]; [done|]. cbn [insert_comment]. unfold Before.
  destruct (Z.ltb_spec (cm_CreatedAt c) (cm_CreatedAt d)); [lia|]. by rewrite IH.
Qed.

Lemma sort_id_acc l : forall acc, in_order (acc ++ l) ->
  fold_left (fun acc c => insert_comment c acc) l acc = (acc ++ l)%list.
Proof.
  induction l as [|c l IH]; intros acc H; [by rewrite app_nil_r|]. cbn [fold_left].
  rewrite insert_at_end.
  - rewrite IH; by rewrite <- app_assoc.
  - apply Forall_forall. intros d Hd. apply list_elem_of_In in Hd.
    clear IH. induction acc as [|a acc IHa]; [done|]. cbn in H. apply StronglySorted_inv in H as [H Ha].
    destruct Hd as [->|Hd]; [|by apply IHa]. rewrite Forall_app, Forall_cons in Ha. tauto.
Qed.

Lemma sort_id l : in_order l -> sort_comments l = l.
Proof. intros H. unfold sort_comments. by rewrite sort_id_acc. Qed.

(** ** Lemmas: identifiers and the index *)

Lemma in_ids l id : In id (ids l) <-> id <> ""%string /\ exists d, In d l /\ cm_ExternalID d = id.
Proof.
  unfold ids. rewrite filter_In, in_map_iff, negb_true_iff, String.eqb_neq. firstorder.
Qed.

Lemma ids_app l l' : ids (l ++ l') = (ids l ++ ids l')%list.
Proof. unfold ids. by rewrite map_app, List.filter_app. Qed.

Lemma ids_perm l l' : Permutation l l' -> Permutation (ids l) (ids l').
Proof.
  intros H. unfold ids. apply (Permutation_map cm_ExternalID) in H. revert H. generalize (map cm_ExternalID l) (map cm_ExternalID l').
  induction 1; cbn; repeat (destruct (_ != _)); eauto using Permutation.
Qed.

Lemma distinct_same l i j c d : distinct l -> l !! i = Some c -> l !! j = Some d ->
  cm_ExternalID c = cm_ExternalID d -> cm_ExternalID c <> ""%string -> i = j.
Proof.
  intros Hn Hi Hj He Hne. revert i j Hi Hj. unfold distinct in Hn. induction l as [|a l IH]; intros i j Hi Hj; [done|].
  assert (forall k b, l !! k = Some b -> cm_ExternalID b <> ""%string -> In (cm_ExternalID b) (ids l)) as Hin.
  { intros k b Hk Hb. apply in_ids. split; [done|]. exists b. split; [|done]. apply list_elem_of_In.
    by eapply list_elem_of_lookup_2. }
  unfold ids in Hn. cbn in Hn. destruct i as [|i], j as [|j]; cbn in Hi, Hj; [done| | |].
  - injection Hi as ->. rewrite (proj2 (negb_true_iff _)) in Hn by by apply String.eqb_neq.
    apply NoDup_cons_iff in Hn as [Hn _]. exfalso. apply Hn. fold (ids l). rewrite He. apply (Hin j); [done|congruence].
  - injection Hj as ->. rewrite He in Hne. rewrite (proj2 (negb_true_iff _)) in Hn by by apply String.eqb_neq.
    apply NoDup_cons_iff in Hn as [Hn _]. exfalso. apply Hn. fold (ids l). rewrite <- He. apply (Hin i); [done|congruence].
  - f_equal. apply IH; [|done|done]. destruct (_ != _); [by apply NoDup_cons_iff in Hn as [_ Hn]|done].
Qed.

Lemma distinct_snoc l c : distinct l -> ~ In (cm_ExternalID c) (ids l) -> distinct (l ++ [c]).
Proof.
  intros Hl Hc. unfold distinct. rewrite ids_app. unfold ids at 2. cbn. destruct (_ != _) eqn:E; [|by rewrite app_nil_r].
  apply (Permutation.Permutation_NoDup (Permutation_cons_append _ _)). by constructor.
Qed.

Lemma distinct_app_inv l c : distinct (l ++ [c]) -> distinct l /\ ~ In (cm_ExternalID c) (ids l).
Proof.
  unfold distinct. rewrite ids_app. unfold ids at 2. cbn. intros H. split; [by apply NoDup_app_remove_r in H|].
  intros Hin. destruct (proj1 (in_ids _ _) Hin) as [Hne _]. apply String.eqb_neq in Hne. rewrite Hne in H. cbn in H.
  apply (Permutation.Permutation_NoDup (Permutation_sym (Permutation_cons_append _ _))) in H. by inversion H.
Qed.

Lemma indexes_snoc m l c : indexes m l -> ~ In (cm_ExternalID c) (ids l) ->
  indexes (<[cm_ExternalID c := length l]> m) (l ++ [c]).
Proof.
  intros Hm Hc id i Hne. destruct (string_dec (cm_ExternalID c) id) as [He|He].
  - rewrite He, lookup_insert_eq. split.
    + intros [= <-]. exists c. split; [|done]. by apply list_lookup_middle.
    + intros (d & Hd & Hid). f_equal. apply lookup_app_Some in Hd as [Hd|[Hle Hd]].
      * exfalso. apply Hc, in_ids. split; [congruence|]. exists d. split; [|congruence].
        apply list_elem_of_In. by eapply list_elem_of_lookup_2.
      * destruct (i - length l)%nat eqn:E; [lia|]. done.
  - rewrite lookup_insert_ne by done. rewrite (Hm id i Hne). split; intros (d & Hd & Hid); exists d; (split; [|done]).
    + by apply lookup_app_l_Some.
    + apply lookup_app_Some in Hd as [Hd|[Hle Hd]]; [done|]. exfalso. apply He.
      destruct (i - length l)%nat; cbn in Hd; [congruence|done].
Qed.

Lemma index_snoc l c : index_comments (l ++ [c]) = <[cm_ExternalID c := length l]> (index_comments l).
Proof.
  unfold index_comments. rewrite fold_left_app. cbn.
  assert (forall (m : gmap string nat) i,
    snd (fold_left (fun '(m, i) c => (<[cm_ExternalID c := i]> m, S i)) l (m, i)) = (length l + i)%nat) as H.
  { induction l as [|d l IH]; intros m i; [done|]. cbn. rewrite IH. lia. }
  specialize (H (∅ : gmap string nat) O). destruct (fold_left _ _ _) as [m i]. cbn in *. by rewrite H, Nat.add_0_r.
Qed.

Lemma index_indexes l : distinct l -> indexes (index_comments l) l.
Proof.
  induction l as [|c l IH] using rev_ind; intros H.
  - intros id i _. unfold index_comments. cbn. rewrite lookup_empty. split; [done|]. by intros (d & Hd & _).
  - apply distinct_app_inv in H as [Hl Hc]. rewrite index_snoc. by apply indexes_snoc; [apply IH|].
Qed.

(** One comment goes over its predecessor. *)
Lemma alter_spec l m c i : distinct l -> indexes m l -> cm_ExternalID c <> ""%string -> m !! cm_ExternalID c = Some i ->
  let l' := alter (fun cur => mergeOneComment cur c) i l in
  exists cur, l !! i = Some cur /\ cm_ExternalID cur = cm_ExternalID c
    /\ map cm_ExternalID l' = map cm_ExternalID l /\ indexes m l' /\ In (mergeOneComment cur c) l'
    /\ (forall d, In d l -> cm_ExternalID d <> cm_ExternalID c -> In d l').
Proof.
  intros Hl Hm Hne Hi. cbv zeta. destruct (proj1 (Hm _ _ Hne) Hi) as (cur & Hc & He). exists cur.
  split; [done|]. split; [done|].
  assert (map cm_ExternalID (alter (fun cur => mergeOneComment cur c) i l) = map cm_ExternalID l) as Hmap.
  { change (@map Comment string) with (@fmap list list_fmap Comment string). apply list_eq. intros j. rewrite !list_lookup_fmap.
    destruct (decide (i = j)) as [<-|Hij]; [rewrite list_lookup_alter_eq, Hc; cbn; by rewrite He|by rewrite list_lookup_alter_ne]. }
  split; [exact Hmap|]. split; [|split].
  - intros id j Hid. rewrite (Hm id j Hid).
    assert (forall k : list Comment, (exists d, k !! j = Some d /\ cm_ExternalID d = id) <-> map cm_ExternalID k !! j = Some id) as Hk.
    { intros k. change (@map Comment string) with (@fmap list list_fmap Comment string). rewrite list_lookup_fmap_Some. split; intros (d & A & B); exists d; (split; [|done]); congruence. }
    by rewrite !Hk, Hmap.
  - apply list_elem_of_In, list_elem_of_lookup. exists i. by rewrite list_lookup_alter_eq, Hc.
  - intros d Hd Hdne. apply list_elem_of_In, list_elem_of_lookup in Hd as [j Hj]. apply list_elem_of_In, list_elem_of_lookup.
    exists j. rewrite list_lookup_alter_ne; [done|]. intros ->. congruence.
Qed.

Lemma distinct_map l l' : map cm_ExternalID l = map cm_ExternalID l' -> ids l = ids l'.
Proof. intros H. unfold ids. by rewrite H. Qed.

(** ** Lemmas: a merge *)

Lemma merge_one_idem cur c : mergeOneComment (mergeOneComment cur c) c = mergeOneComment cur c.
Proof.
  unfold mergeOneComment. destruct c as [i a b t o tr k p n r w]. cbn.
  destruct (k == ""), (p == ""), (n =? 0), (r == ""), (w =? 0); reflexivity.
Qed.

Lemma merge_one_self c : mergeOneComment c c = c.
Proof.
  unfold mergeOneComment. destruct c as [i a b t o tr k p n r w]. cbn.
  by destruct (k == ""), (p == ""), (n =? 0), (r == ""), (w =? 0).
Qed.

(** What a merge loop keeps. *)
Lemma merge_loop_keeps retainFrom inc : forall out m, distinct out -> indexes m out ->
  let out' := mirror_loop retainFrom inc out m in
  distinct out' /\ (forall id, In id (ids out) -> In id (ids out'))
  /\ (forall d, In d out -> ~ In (cm_ExternalID d) (ids inc) -> In d out').
Proof.
  induction inc as [|c inc IH]; intros out m Ho Hm; cbn [mirror_loop]; [done|].
  assert (forall id, ~ In id (ids (c :: inc)) -> ~ In id (ids inc)) as Hrest.
  { intros id H Hin. apply H. apply in_ids in Hin as (A & d & B & C). apply in_ids. split; [done|]. exists d. split; [by right|done]. }
  destruct (too_old retainFrom c).
  { destruct (IH out m Ho Hm) as (A & B & C). split; [done|]. split; [done|]. intros d Hd Hn. apply C; auto. }
  assert (forall m', indexes m' (out ++ [c]) -> ~ In (cm_ExternalID c) (ids out) ->
    let out' := mirror_loop retainFrom inc (out ++ [c]) m' in
    distinct out' /\ (forall id, In id (ids out) -> In id (ids out'))
    /\ (forall d, In d out -> ~ In (cm_ExternalID d) (ids (c :: inc)) -> In d out')) as Happ.
  { intros m' Hm' Hc. destruct (IH (out ++ [c])%list m') as (A & B & C); [by apply distinct_snoc|done|].
    split; [done|]. split; [intros id Hid; apply B; rewrite ids_app, in_app_iff; by left|].
    intros d Hd Hn. apply C; [apply in_app_iff; by left|auto]. }
  destruct (cm_ExternalID c != "") eqn:Ec.
  2: { assert (~ In (cm_ExternalID c) (ids out)) as Hc.
       { intros Hin. apply in_ids in Hin as [Hne _]. apply negb_false_iff, String.eqb_eq in Ec. congruence. }
       apply Happ; [by apply indexes_snoc|done]. }
  apply negb_true_iff, String.eqb_neq in Ec. destruct (m !! cm_ExternalID c) as [i|] eqn:Ei.
  - destruct (alter_spec out m c i Ho Hm Ec Ei) as (cur & _ & _ & Hmap & Hidx & _ & Hother).
    destruct (IH (alter (fun cur => mergeOneComment cur c) i out) m) as (A & B & C);
      [unfold distinct; by rewrite (distinct_map _ _ Hmap)|done|].
    split; [done|]. split; [intros id Hid; apply B; by rewrite (distinct_map _ _ Hmap)|].
    intros d Hd Hn. apply C; [|auto]. apply Hother; [done|]. intros He. apply Hn, in_ids. split; [congruence|].
    exists c. split; [by left|done].
  - assert (~ In (cm_ExternalID c) (ids out)) as Hc.
    { intros Hin. apply in_ids in Hin as (_ & d & Hd & Hid). apply list_elem_of_In, list_elem_of_lookup in Hd as [j Hj].
      assert (m !! cm_ExternalID c = Some j) as E by (apply Hm; [done|]; by exists d). congruence. }
    apply Happ; [by apply indexes_snoc|done].
Qed.

Lemma taken_in_self l c : In c l -> taken_in l c.
Proof. intros H. by exists c. Qed.

Lemma in_distinct l c d : distinct l -> In c l -> In d l -> cm_ExternalID c = cm_ExternalID d ->
  cm_ExternalID c <> ""%string -> c = d.
Proof.
  intros Hl Hc Hd He Hne. apply list_elem_of_In, list_elem_of_lookup in Hc as [i Hi], Hd as [j Hj].
  assert (i = j) as -> by (by eapply distinct_same). congruence.
Qed.

(** What a merge loop takes in. *)
Lemma merge_loop_takes retainFrom inc : forall out m, distinct out -> indexes m out -> distinct inc ->
  let out' := mirror_loop retainFrom inc out m in
  forall c, In c inc -> too_old retainFrom c = false ->
    taken_in out' c /\ (cm_ExternalID c <> ""%string -> absorbed out' c).
Proof.
  induction inc as [|a inc IH]; intros out m Ho Hm Hi out' c Hin Hold; [done|].
  assert (distinct inc /\ (cm_ExternalID a <> ""%string -> ~ In (cm_ExternalID a) (ids inc))) as [Hi' Ha].
  { unfold distinct, ids in *. cbn in Hi. destruct (_ != _) eqn:E; [inversion Hi; by split|]. split; [done|].
    apply negb_false_iff, String.eqb_eq in E. by intros ?. }
  (* the element [a] has become, once the rest of the loop has run on [out1] *)
  assert (forall out1 m1 b, distinct out1 -> indexes m1 out1 -> In b out1 ->
    (b = a \/ exists cur, b = mergeOneComment cur a) -> too_old retainFrom a = false ->
    let out2 := mirror_loop retainFrom inc out1 m1 in
    taken_in out2 a /\ (cm_ExternalID a <> ""%string -> absorbed out2 a)) as Hfirst.
  { intros out1 m1 b Hd1 Hm1 Hb Hba _ out2.
    assert (cm_ExternalID b = cm_ExternalID a) as Hid by (destruct Hba as [->|[cur ->]]; done).
    assert (In b out2) as Hb2.
    { apply (merge_loop_keeps retainFrom inc out1 m1 Hd1 Hm1); [done|]. rewrite Hid. destruct (string_dec (cm_ExternalID a) "") as [E|E].
      - intros Hx. by apply in_ids in Hx as [Hx _].
      - by apply Ha. }
    destruct (merge_loop_keeps retainFrom inc out1 m1 Hd1 Hm1) as (Hd2 & _ & _). split.
    - exists b. split; [done|]. destruct Hba as [->|[cur ->]]; done.
    - intros Hne. split; [apply in_ids; split; [done|by exists b]|]. intros d Hd He.
      assert (d = b) as -> by (apply (in_distinct out2); [done|done|done|congruence|congruence]).
      destruct Hba as [->|[cur ->]]; [apply merge_one_self|apply merge_one_idem]. }
  subst out'. cbn [mirror_loop]. destruct (too_old retainFrom a) eqn:Eo.
  { destruct Hin as [->|Hin]; [congruence|]. by apply IH. }
  assert (forall m', indexes m' (out ++ [a]) -> ~ In (cm_ExternalID a) (ids out) ->
    taken_in (mirror_loop retainFrom inc (out ++ [a]) m') c
    /\ (cm_ExternalID c <> ""%string -> absorbed (mirror_loop retainFrom inc (out ++ [a]) m') c)) as Happ.
  { intros m' Hm' Hna. destruct Hin as [->|Hin].
    - apply (Hfirst _ _ c); [by apply distinct_snoc|done|apply in_app_iff; right; by left|by left|done].
    - apply IH; [by apply distinct_snoc|done|done|done|done]. }
  destruct (cm_ExternalID a != "") eqn:Ea.
  2: { assert (~ In (cm_ExternalID a) (ids out)) as Hc.
       { intros Hx. apply in_ids in Hx as [Hne _]. apply negb_false_iff, String.eqb_eq in Ea. congruence. }
       apply Happ; [by apply indexes_snoc|done]. }
  apply negb_true_iff, String.eqb_neq in Ea. destruct (m !! cm_ExternalID a) as [i|] eqn:Ei.
  - destruct (alter_spec out m a i Ho Hm Ea Ei) as (cur & _ & _ & Hmap & Hidx & Hnew & _).
    assert (distinct (alter (fun cur => mergeOneComment cur a) i out)) as Hd by (unfold distinct; by rewrite (distinct_map _ _ Hmap)).
    destruct Hin as [->|Hin]; [|by apply IH]. eapply Hfirst; [done|done|exact Hnew|right; by eexists|done].
  - assert (~ In (cm_ExternalID a) (ids out)) as Hc.
    { intros Hx. apply in_ids in Hx as (_ & d & Hd & Hid). apply list_elem_of_In, list_elem_of_lookup in Hd as [j Hj].
      assert (m !! cm_ExternalID a = Some j) as E by (apply Hm; [done|]; by exists d). congruence. }
    apply Happ; [by apply indexes_snoc|done].
Qed.

(** A thread that has absorbed every comment is left as it is. *)
Lemma merge_loop_noop retainFrom inc : forall out m, distinct out -> indexes m out ->
  (forall c, In c inc -> too_old retainFrom c = false -> absorbed out c) -> mirror_loop retainFrom inc out m = out.
Proof.
  induction inc as [|c inc IH]; intros out m Ho Hm H; cbn [mirror_loop]; [done|].
  destruct (too_old retainFrom c) eqn:Eo; [apply IH; [done|done|]; intros c' Hin; apply H; by right|].
  destruct (H c (or_introl eq_refl) Eo) as [Hin Hd]. apply in_ids in Hin as (Hne & d & Hd' & He).
  apply list_elem_of_In, list_elem_of_lookup in Hd' as [i Hi].
  assert (m !! cm_ExternalID c = Some i) as Em by (apply Hm; [done|]; by exists d).
  rewrite (proj2 (negb_true_iff _)) by by apply String.eqb_neq. rewrite Em.
  assert (alter (fun cur => mergeOneComment cur c) i out = out) as ->.
  { apply list_eq. intros j. destruct (decide (i = j)) as [<-|Hij]; [|by rewrite list_lookup_alter_ne].
    rewrite list_lookup_alter_eq, Hi. cbn. f_equal. apply Hd; [|done]. apply list_elem_of_In.
    by eapply list_elem_of_lookup_2. }
  apply IH; [done|done|]. intros c' Hin'. apply H. by right.
Qed.

(** ** The theorems *)

(** a merge loses nothing and orders what it has: merging what the forge lists into the
    comments of a mirror gives comments in the order of their creation, no two with one
    identifier; every identifier the mirror had is still there, every comment the forge did
    not list is kept as it was, and every comment it listed that is not older than what the
    mirror retains is there with its author, its text and its time. *)
Theorem merge_is_a_union (existing incoming : list Comment) (retainFrom : option Time) :
  distinct existing -> distinct incoming ->
  let m := mergeComments existing incoming retainFrom in
  in_order m /\ distinct m
  /\ (forall id, In id (ids existing) -> In id (ids m))
  /\ (forall d, In d existing -> ~ In (cm_ExternalID d) (ids incoming) -> In d m)
  /\ (forall c, In c incoming -> too_old retainFrom c = false -> taken_in m c).
Proof.
  intros He Hi. cbv zeta. unfold mergeComments. pose proof (index_indexes _ He) as Hx.
  destruct (merge_loop_keeps retainFrom incoming existing _ He Hx) as (A & B & C).
  pose proof (merge_loop_takes retainFrom incoming existing _ He Hx Hi) as D. cbv zeta in D.
  set (out := mirror_loop _ _ _ _) in *. pose proof (sort_perm out) as Hp.
  split; [apply sort_sorted|]. split; [|split; [|split]].
  - unfold distinct. eapply Permutation.Permutation_NoDup; [symmetry; by apply ids_perm|exact A].
  - intros id Hid. eapply Permutation_in; [symmetry; by apply ids_perm|]. by apply B.
  - intros d Hd Hn. eapply Permutation_in; [by symmetry|]. by apply C.
  - intros c Hc Ho. destruct (D c Hc Ho) as [(d & Hd & Hr) _]. exists d. split; [|done].
    eapply Permutation_in; [by symmetry|exact Hd].
Qed.

(** mirroring a thread again changes nothing: merging the same comments of the forge,
    each with its identifier, a second time gives the mirror back. *)
Theorem remirroring_is_a_noop (existing incoming : list Comment) (retainFrom : option Time) :
  distinct existing -> distinct incoming -> (forall c, In c incoming -> cm_ExternalID c <> ""%string) ->
  let m := mergeComments existing incoming retainFrom in mergeComments m incoming retainFrom = m.
Proof.
  intros He Hi Hn. cbv zeta. unfold mergeComments at 1. pose proof (index_indexes _ He) as Hx.
  destruct (merge_loop_keeps retainFrom incoming existing _ He Hx) as (A & _ & _).
  pose proof (merge_loop_takes retainFrom incoming existing _ He Hx Hi) as D. cbv zeta in D.
  unfold mergeComments. set (out := mirror_loop _ incoming existing _) in *. pose proof (sort_perm out) as Hp.
  assert (distinct (sort_comments out)) as Hd.
  { unfold distinct. eapply Permutation.Permutation_NoDup; [symmetry; by apply ids_perm|exact A]. }
  rewrite merge_loop_noop; [apply sort_id, sort_sorted|exact Hd|by apply index_indexes|].
  intros c Hc Ho. destruct (D c Hc Ho) as [_ Hab]. destruct (Hab (Hn c Hc)) as [Hin Hall]. split.
  - eapply Permutation_in; [symmetry; by apply ids_perm|exact Hin].
  - intros d Hd'. apply Hall. eapply Permutation_in; [exact Hp|exact Hd'].
Qed.

(** ** Witnesses *)

Lemma merge_is_a_union_witness :
  let m := mergeComments [said "1" "old" 5; said "" "note" 7] [said "1" "edited" 9; said "2" "late" 6] (Some 6) in
  m = [said "2" "late" 6; said "" "note" 7; said "1" "edited" 9] /\ in_order m.
Proof.
  cbv zeta. split; [vm_compute; reflexivity|].
  refine (proj1 (merge_is_a_union [said "1" "old" 5; said "" "note" 7] [said "1" "edited" 9; said "2" "late" 6] (Some 6) _ _)).
  - vm_compute. repeat constructor. tauto.
  - vm_compute. repeat constructor; cbn; intuition discriminate.
Defined.

Lemma remirroring_is_a_noop_witness :
  let m := mergeComments [said "1" "old" 5] [said "1" "edited" 9; said "2" "late" 6] None in
  mergeComments m [said "1" "edited" 9; said "2" "late" 6] None = m.
Proof.
  apply (remirroring_is_a_noop [said "1" "old" 5] [said "1" "edited" 9; said "2" "late" 6] None).
  - vm_compute. repeat constructor. tauto.
  - vm_compute. repeat constructor; cbn; intuition discriminate.
  - intros c [<-|[<-|[]]]; discriminate.
Defined.
