(* ===== verification/Intake.v ===== *)
(** * Intake (internal/controller/intake.go, sweep.go, ensure_task.go, task_stage.go): what
    a Task an item of the forge is owed, who owns it already, and the minting of one Task
    per item, safe against every race. *)

From Stdlib Require Import String Ascii.
From S2P Require Import Prelude GoTime Text Limits Api Vocabulary Machine Park ObjBudget Own Transition Logins Names Seq Refs Corridor Merge LivePods Calls Release Mirror.

Open Scope Z_scope.
Open Scope go_scope.

(** ** Constants *)

Definition SweepAnnotation : string := "tatara.dev/sweep".
Definition SweepDisabledValue : string := "disabled".
Definition AnnWebhookOriginated : string := "tatara.dev/webhook-originated".
Definition SweepActivity : string := "sweep".
Definition WebhookActivity : string := "webhook".
Definition SweepSkipNone : string := "".
Definition SweepSkipMRClaimed : string := "mr_claimed_by_other_task".
Definition SweepSkipIssueNotOpen : string := "issue_not_open".
Definition SweepSkipIssueOwned : string := "issue_owned".
Definition SweepSkipReporterNotAllowed : string := "issue_reporter_not_allowed".
Definition SweepSkipMintBudget : string := "mint_budget_bound".
Definition SweepSkipAlreadyMinted : string := "already_minted".
Definition SweepSkipTombstoneDeleted : string := "tombstone_deleted".
Definition SweepSkipMintNotOwed : string := "mint_not_owed".
Definition SweepIssueKind : string := "implement".
Definition SweepReviewKind : string := "review".
Definition sweepGoalLimit : Z := 16384.
Definition sweepRemintDelay : Duration := 30 * Second.
Definition MaxTaskNameLength : Z := 49.

(** ** Names and URLs *)

(** The loop of [sanitizeNamePart], [n] bytes being written. *)
Fixpoint name_part (l : list string) (max n : Z) (prevDash : bool) : string :=
  match l with
  | [] => ""
  | w :: l' =>
      let dash := if negb prevDash && (0 <? n) then String "-" (name_part l' max (n + 1) true)
                  else name_part l' max n prevDash in
      if max <=? n then ""
      else match w with
           | String a EmptyString =>
               if within 97 122 a || within 48 57 a then String a (name_part l' max (n + 1) false) else dash
           | _ => dash
           end
  end.

Section Name.

(** [strings.ToLower] of a string that is not ASCII. *)
Context (unicodeLower : string -> string).

Definition sanitizeNamePart (s : string) (max : Z) : string :=
  TrimDash (name_part (runes (ToLower unicodeLower s)) max 0 false).

Definition intake_head (kind : string) : string :=
  if kind != "" then
    let ki := sanitizeNamePart kind 1 in
    if ki != "" then sprintf ["mt-"; ki; "-"] else "mt-"%string
  else "mt-"%string.

Definition IntakeTaskName (project kind repoRef : string) (number : Z) : string :=
  let sum := sha256_hex (sprintf [project; "|"; kind; "|"; repoRef; "|"; FormatInt number]) in
  let suffix := String "-" (first_bytes sum 16) in
  let num := String "-" (FormatInt number) in
  let head := intake_head kind in
  let budget := MaxTaskNameLength - strlen head - strlen num - strlen suffix in
  let budget := if budget <? 0 then 0 else budget in
  TrimDash (sprintf [head; sanitizeNamePart repoRef budget; num; suffix]).

End Name.

(** The index of [sub], [strings.Index]: what is before it and what is after. *)
Fixpoint split_at (s sub : string) : option (string * string) :=
  if HasPrefix s sub then Some (""%string, drop_bytes (String.length sub) s)
  else match s with
       | EmptyString => None
       | String a s' => match split_at s' sub with Some (b, r) => Some (String a b, r) | None => None end
       end.

Definition parseRepoBase (repoURL : string) : option string :=
  match split_at repoURL "://" with
  | None => None
  | Some (scheme, rest) =>
      match split_at rest "/" with
      | Some (host, _) => Some (sprintf [scheme; "://"; host])
      | None => Some (sprintf [scheme; "://"; rest])
      end
  end.

Definition forge_base (repoURL provider : string) : string :=
  match parseRepoBase repoURL with
  | Some u => u
  | None => if provider == "gitlab" then "https://gitlab.com" else "https://github.com"
  end.

Definition issueURLFromRepoURL (repoURL provider repo : string) (number : Z) : string :=
  let base := forge_base repoURL provider in
  if provider == "gitlab" then sprintf [base; "/"; repo; "/-/issues/"; FormatInt number]
  else sprintf [base; "/"; repo; "/issues/"; FormatInt number].

Definition mrURLFromRepoURL (repoURL provider repo : string) (number : Z) : string :=
  let base := forge_base repoURL provider in
  if provider == "gitlab" then sprintf [base; "/"; repo; "/-/merge_requests/"; FormatInt number]
  else sprintf [base; "/"; repo; "/pull/"; FormatInt number].

Definition hasLabel (labels : list string) (want : string) : bool := (want != "") && str_mem labels want.

(** [goal[:sweepGoalLimit]] without its incomplete end. *)
Definition issueGoal (ext : ScmIssue) : string :=
  let goal := sprintf [si_Title ext; newline; newline; si_URL ext; newline; newline; si_Body ext] in
  if strlen goal <=? sweepGoalLimit then goal else cut_back (Z.to_nat sweepGoalLimit) goal.

(** ** Snapshots of what the forge lists *)

Definition issueSnapshot (proj : Project) (repo : Repository) (ref : IssueRef) : ScmIssue :=
  mkScmIssue (ir_Number ref)
    (issueURLFromRepoURL (repo_URL repo) (provider_of proj) (ir_Repo ref) (ir_Number ref))
    (ir_Title ref) (ir_Author ref) "" (if ir_State ref == "" then "open" else ir_State ref)
    (ir_Labels ref) (ir_CreatedAt ref) (ir_UpdatedAt ref) [].

Definition mrSnapshot (proj : Project) (repo : Repository) (pr : PRRef) : ScmMergeRequest :=
  mkScmMergeRequest (prr_Number pr)
    (mrURLFromRepoURL (repo_URL repo) (provider_of proj) (prr_Repo pr) (prr_Number pr))
    (prr_Title pr) (prr_Author pr) (prr_Body pr) "open" (prr_HeadBranch pr) (prr_HeadSHA pr) "" false
    0 (prr_UpdatedAt pr) None [].

(** ** Predicates of an item *)

Definition SweepEnabled (proj : option Project) : bool :=
  match proj with
  | None => false
  | Some p => default ""%string (proj_Annotations p !! SweepAnnotation) != SweepDisabledValue
  end.

Definition IsOrphanIssue (proj : Project) (repo : Repository) (iss : ScmIssue) (liveOwner : string) : bool * string :=
  if si_State iss != "open" then (false, SweepSkipIssueNotOpen)
  else if liveOwner != "" then (false, SweepSkipIssueOwned)
  else if negb (IsAllowedReporter (Some proj) (Some repo) (si_Author iss)) then (false, SweepSkipReporterNotAllowed)
  else (true, SweepSkipNone).

Definition humanHasLastWord (proj : Project) (comments : list IssueComment) : bool :=
  match last comments with
  | None => false
  | Some c => if ic_Author c == "" then false else ic_Author c != botLoginOf proj
  end.

Definition WebhookOriginated (cr : option Issue) : bool :=
  match cr with Some iss => annotation iss AnnWebhookOriginated != "" | None => false end.

(** The state a Task for an Issue is created in, and its park. *)
Definition MintStage (proj : Project) (repo : Repository) (iss : ScmIssue) (cr : option Issue) (webhookOriginated : bool)
  : string * string :=
  if hasLabel (si_Labels iss) TataraParkedLabel then (StateNew, ReasonBacklogSweep)
  else if match cr with
          | Some c => (iss_StatusWord (iss_Status c) == "approved") && is_set (iss_Approval (iss_Status c))
          | None => false
          end then (StateNew, ""%string)
  else if (si_Author iss != botLoginOf proj) && IsTrustedAuthor (Some proj) (Some repo) (si_Author iss) then (StateNew, ""%string)
  else if webhookOriginated then (StateNew, ""%string)
  else if humanHasLastWord proj (si_Comments iss) then (StateNew, ""%string)
  else (StateNew, ReasonBacklogSweep).

Definition adoptBranchPrefixOf (proj : Project) : string :=
  match proj_UpgradePolicy proj with None => "" | Some p => AdoptBranchPrefix p end.

Definition adoptableAuthor (proj : Project) (author : string) : bool :=
  if author == "" then false
  else if author == botLoginOf proj then true
  else match proj_UpgradePolicy proj with None => false | Some p => str_mem (UpgradeEngineLogins p) author end.

Definition AdoptionCandidate (proj : Project) (headBranch author : string) : bool :=
  let prefix := adoptBranchPrefixOf proj in
  if (prefix == "") || negb (HasPrefix headBranch prefix) then false else adoptableAuthor proj author.

(** What is after the last [@], if there is one. *)
Definition after_last_at (value : string) : option string :=
  let i := LastIndexByte value "@" in
  if i <? 0 then None else Some (drop_bytes (S (Z.to_nat i)) value).

Definition adoptionRefused (cr : option MergeRequest) (headSHA : string) : bool :=
  match cr with
  | None => false
  | Some mr =>
      let value := annotation mr AnnAdoptionRefused in
      if value == "" then false
      else match after_last_at value with
           | None => true
           | Some sha => if headSHA == "" then true else sha == headSHA
           end
  end.

Definition mentionsBot (text bot : string) : bool :=
  if (bot == "") || (text == "") then false else Contains text (String "@" bot).

Definition prInReactionScope (proj : Project) (repo : Repository) (pr : PRRef) (bot : string) : bool :=
  if IsTrustedAuthor (Some proj) (Some repo) (prr_Author pr) then true
  else
    let scope := match proj_Scm proj with Some s => scm_PRReactionScope s | None => ""%string end in
    if scope != "labeledOrMentioned" then true
    else if hasLabel (prr_Labels pr) (proj_TriggerLabel proj) then true
    else mentionsBot (prr_Body pr) bot.

Definition AdoptPR (toLower : string -> string) (proj : Project) (task : option Task) (pr : PRRef) : bool :=
  match task with
  | None => false
  | Some t =>
      let bot := botLoginOf proj in
      if (bot == "") || (prr_Author pr != bot) then false
      else if prr_HeadBranch pr != TaskBranch toLower t then false
      else (prr_HeadRepo pr != "") && (prr_HeadRepo pr == prr_Repo pr)
  end.

Definition AdoptUpgradeMR (proj : Project) (pr : PRRef) (owner : option Task) (liveOwner : string) (cr : option MergeRequest)
  : bool :=
  if adoptionRefused cr (prr_HeadSHA pr) then false
  else if match cr with
          | Some c => (mr_Ownership (mr_Status c) == OwnershipExternal) && negb (mergeAllowedForOwnership c)
          | None => false
          end then false
  else
    let prefix := adoptBranchPrefixOf proj in
    if prefix == "" then false
    else if negb (HasPrefix (prr_HeadBranch pr) prefix) then false
    else if negb (adoptableAuthor proj (prr_Author pr)) then false
    else if (prr_HeadRepo pr == "") || (prr_HeadRepo pr != prr_Repo pr) then false
    else if is_set owner || (liveOwner != "") then false
    else negb (hasLabel (prr_Labels pr) (proj_TriggerLabel proj)).

Inductive PRDisposition := PRAdopt | PRReview | PRIgnore | PRAdoptUpgrade | PRClaimed.

Definition ClassifyPR (toLower : string -> string) (proj : Project) (repo : Repository) (pr : PRRef) (owner : option Task)
    (liveOwner : string) (cr : option MergeRequest) : PRDisposition :=
  if AdoptPR toLower proj owner pr then
    if (liveOwner != "") && match owner with Some o => liveOwner != task_Name o | None => false end then PRClaimed else PRAdopt
  else if AdoptUpgradeMR proj pr owner liveOwner cr then PRAdoptUpgrade
  else
    let bot := botLoginOf proj in
    if (bot != "") && (prr_Author pr == bot) then PRIgnore
    else if prr_Author pr == "" then PRIgnore
    else if liveOwner != "" then PRIgnore
    else if prInReactionScope proj repo pr bot then PRReview
    else PRIgnore.

Definition MintReviewStage (cr : option MergeRequest) : string * string :=
  match cr with
  | None => (StateNew, ""%string)
  | Some c =>
      if (mr_StatusWord (mr_Status c) == "") || (mr_StatusWord (mr_Status c) == "new") then (StateNew, ""%string)
      else (StateNew, ReasonAwaitingHuman)
  end.

Definition carriedHumanReviewRounds (cr : option MergeRequest) : Z :=
  match cr with
  | None => 0
  | Some c =>
      match ParseInt (annotation c AnnHumanReviewRounds) with
      | Some n => if n <? 0 then 0 else Z.min n MaxHumanReviewRounds
      | None => 0
      end
  end.

(** ** The minter *)

Inductive MintOutcome := MintNotOwed | MintCreated | MintExistingLive | MintTombstoneDeleted.

Definition outcome_word (o : MintOutcome) : string :=
  match o with
  | MintNotOwed => "not_owed"
  | MintCreated => "created"
  | MintExistingLive => "existing_live"
  | MintTombstoneDeleted => "tombstone_deleted"
  end.

Inductive ForgeItem := ForgeIssue (i : ScmIssue) | ForgePR (pr : PRRef).

(** What an artifact is to [terminalOwnerReleasable]: an Issue that is not closed. *)
Class Sweepable (A : Type) `{Artifact A} := terminalOwnerReleasable : A -> bool.

#[export] Instance issue_sweepable : Sweepable Issue := fun iss => iss_State (iss_Status iss) != "closed".
#[export] Instance mergerequest_sweepable : Sweepable MergeRequest := fun _ => false.

Definition dead (t : Task) : bool := is_set (DeletionTimestamp t) || TaskDone t.

Section Minter.

(** [strings.ToLower] beyond ASCII, the sizes of the mirrors and the spiller of comments;
    the view [m.reader()] has; whether metrics are wired; the activity label. *)
Context (unicodeLower : string -> string) (issueSize : Issue -> option Z) (mrSize : MergeRequest -> option Z)
  (sp : option (Spiller Comment)) (reader : View) (m : bool) (activity : string) (proj : Project).

Definition count_mint (kind word : string) : Io unit := tell (Count "mint_outcome" [kind; word]).

(** [mintErr]: an error is counted and returned. *)
Definition mintErr {A} (kind : string) (p : Io A) : Io A :=
  let! r := p in
  match r with
  | Ok a => ok a
  | Err e => let? _ := count_mint kind "error" in fail e
  end.

Definition issueCR (repo : Repository) (number : Z) : Io (option Issue) :=
  found (api (GetIssue Cached (IssueName (repo_Name repo) number))).

Definition mergeRequestCR (repo : Repository) (number : Z) : Io (option MergeRequest) :=
  found (api (GetMergeRequest Cached (MergeRequestName (repo_Name repo) number))).

(** *** Who owns an artifact already *)

(** Whether the reference was written away, and the artifact with the references of the
    last read. *)
Definition dropStaleOwner `{Artifact A} (cr : A) (owner : string) : Io (bool * A) :=
  let! r := on_conflict
    (let? fresh := api (get_obj reader (obj_name cr)) in
     let '(dropped, refs) := DropOwner (owners fresh) owner in
     if negb dropped then ok (false, with_owners (owners fresh) cr)
     else
       let? _ := write (update_obj (with_owners refs fresh)) in
       ok (true, with_owners refs cr)) in
  match r with
  | Ok p => ok p
  | Err e => if IsNotFound e then ok (false, cr) else fail e
  end.

(** The live controller, [""] without one; two rounds. *)
Fixpoint live_owner_loop `{Sweepable A} (rounds : nat) (cr : A) : Io (string * A) :=
  match rounds with
  | O => ok (""%string, cr)
  | S rounds' =>
      match ControllerOwner (owners cr) with
      | None => ok (""%string, cr)
      | Some name =>
          let? task := found (api (GetTask reader name)) in
          let releasing := match task with Some t => TaskDone t && terminalOwnerReleasable cr | None => false end in
          if is_set task && negb releasing then ok (name, cr)
          else
            let? (dropped, cr) := dropStaleOwner cr name in
            let? _ := (if dropped
                       then tell (Count (if releasing then "sweep_terminal_owner_released" else "sweep_stale_owner_repaired")
                                        [proj_Name proj; activity])
                       else ok tt) in
            match ControllerOwner (owners cr) with
            | None => ok (""%string, cr)
            | Some cur => if cur == name then ok (""%string, cr) else live_owner_loop rounds' cr
            end
      end
  end.

Definition resolveLiveOwner `{Sweepable A} (cr : A) : Io (string * A) := live_owner_loop 2 cr.

(** [resolveLiveIssueOwner], [resolveLiveMROwner]: a mirror that is not there has none. *)
Definition resolve_live `{Sweepable A} (cr : option A) : Io (string * option A) :=
  match cr with
  | None => ok (""%string, None)
  | Some o => let? (owner, o) := resolveLiveOwner o in ok (owner, Some o)
  end.

(** *** Creating *)

(** What a mint gives: the outcome, the Task as it was created, and the twin that is live. *)
Definition Minted : Type := (MintOutcome * Task * option Task)%type.

Definition minted (o : MintOutcome) (task : Task) (twin : option Task) : Io Minted :=
  let? _ := count_mint (Kind (Spec task)) (outcome_word o) in ok (o, task, twin).

Definition mint_error {A} (task : Task) (e : Fail) : Io A :=
  let? _ := count_mint (Kind (Spec task)) "error" in fail e.

(** The name is taken: by a live twin, or by one that is deleted here; the mint is then
    still owed. *)
Definition resolve_twin (task : Task) : Io Minted :=
  let! existing := api (GetTask reader (task_Name task)) in
  match existing with
  | Err e => mint_error task e
  | Ok t =>
      if dead t then
        let! r := unless_missing (write (DeleteTask (task_Name t))) in
        match r with
        | Err e => mint_error task e
        | Ok _ => minted MintTombstoneDeleted task None
        end
      else minted MintExistingLive task (Some t)
  end.

Definition create_task (task : Task) : Io Minted :=
  let! r := api (CreateTask task) in
  match r with
  | Ok created => minted MintCreated created None
  | Err e => if IsAlreadyExists e then resolve_twin task else mint_error task e
  end.

Definition createTaskRaceSafe (task : Task) : Io Minted :=
  let! existing := api (GetTask reader (task_Name task)) in
  match existing with
  | Ok t => if dead t then create_task task else minted MintExistingLive task (Some t)
  | Err e => if IsNotFound e then create_task task else mint_error task e
  end.

(** *** Stamping and binding *)

(** The stamp of a Task that the API server has; [None] leaves it as it is. *)
Definition stampMintStatusIfChanged (task : Task) (mutate : Task -> option Task) : Io Task :=
  on_conflict
    (let? fresh := api (GetTask Cached (task_Name task)) in
     match mutate fresh with
     | None => ok fresh
     | Some fresh' => let? _ := write (UpdateTaskStatus fresh') in ok fresh'
     end).

Definition stampMintStatus (task : Task) (mutate : Task -> Task) : Io Task :=
  stampMintStatusIfChanged task (fun fresh => Some (mutate fresh)).

Definition add_ref (name : string) (refs : list string) : list string :=
  if str_mem refs name then refs else (refs ++ [name])%list.

Definition stampIssueRef (task : Task) (name : string) : Io Task :=
  stampMintStatusIfChanged task (fun fresh =>
    if str_mem (IssueRefs (Status fresh)) name then None
    else Some (on_status fresh (fun s => s <| IssueRefs ::= fun l => (l ++ [name])%list |>))).

Definition stampMRRef (task : Task) (name : string) : Io Task :=
  stampMintStatusIfChanged task (fun fresh =>
    if str_mem (MRRefs (Status fresh)) name then None
    else Some (on_status fresh (fun s => s <| MRRefs ::= fun l => (l ++ [name])%list |>))).

(** The controller reference goes to the Task, from [from]. *)
Definition take_control `{Artifact A} (o : A) (from : option string) (task : Task) : Io unit :=
  let '(_, refs) := AddPlainOwner (owners o) (task_Name task) (task_UID task) in
  match HandOverController refs from (Some (task_Name task)) with
  | Err e => fail (OwnerFault e)
  | Ok refs => write (update_obj (with_owners refs o))
  end.

Definition ownIssueForTask (name : string) (task : Task) : Io unit :=
  on_conflict
    (let? iss := api (GetIssue Cached name) in
     match ControllerOwner (owners iss) with
     | Some cur => if cur == task_Name task then ok tt else fail (OwnedElsewhere cur)
     | None => take_control iss None task
     end).

Definition ownMergeRequest (name : string) (task : Task) (expectFrom : string) : Io unit :=
  on_conflict
    (let? mr := api (GetMergeRequest Cached name) in
     match ControllerOwner (owners mr) with
     | Some cur =>
         if cur == task_Name task then ok tt
         else if cur != expectFrom then fail (OwnedElsewhere cur)
         else take_control mr (Some cur) task
     | None => take_control mr None task
     end).

Definition bindMRToTask (repo : Repository) (ext : ScmMergeRequest) (task : Task) (expectFrom : string) : Io unit :=
  let? _ := SyncMergeRequest mrSize sp proj repo ext in
  ownMergeRequest (MergeRequestName (repo_Name repo) (sm_Number ext)) task expectFrom.

(** An interrupted mint is bound again; the artifact of another Task is left alone.  The
    Task as it is then. *)
Definition repairMRBinding (repo : Repository) (ext : ScmMergeRequest) (task : Task) : Io Task :=
  let name := MergeRequestName (repo_Name repo) (sm_Number ext) in
  let? mr := found (api (GetMergeRequest Cached name)) in
  match (match mr with Some o => ControllerOwner (owners o) | None => None end) with
  | Some ctrl => if ctrl == task_Name task then stampMRRef task name else ok task
  | None =>
      let? _ := bindMRToTask repo ext task "" in
      stampMRRef task name
  end.

Definition repairIssueBinding (repo : Repository) (ext : ScmIssue) (task : Task) : Io Task :=
  let name := IssueName (repo_Name repo) (si_Number ext) in
  let? iss := found (api (GetIssue Cached name)) in
  match (match iss with Some o => ControllerOwner (owners o) | None => None end) with
  | Some ctrl => if ctrl == task_Name task then stampIssueRef task name else ok task
  | None =>
      let? _ := SyncIssue issueSize sp proj repo ext in
      let? _ := ownIssueForTask name task in
      stampIssueRef task name
  end.

(** *** The mints *)

Definition issue_task (repo : Repository) (ext : ScmIssue) (stg reason : string) : Task :=
  let name := IntakeTaskName unicodeLower (proj_Name proj) SweepIssueKind (repo_Name repo) (si_Number ext) in
  let source := mkTaskSource (provider_of proj) (sprintf [si_URL ext; "#"; FormatInt (si_Number ext)]) ""
                  (si_Author ext) false (si_Number ext) "" (si_Title ext) in
  let task := zero_Task <| task_Name := name |>
    <| Spec ::= fun s => s <| ProjectRef := proj_Name proj |> <| Kind := SweepIssueKind |> <| Goal := issueGoal ext |>
                           <| InitialState := stg |> <| InitialParkReason := reason |> <| Source := Some source |> |> in
  StampPodName unicodeLower task (proj_Name proj) (repo_Name repo).

Definition set_project_owner (task : Task) : Io unit :=
  Do (SetProjectOwner (task_Name task)) (fun ok_ : bool => if ok_ then ok tt else fail NoProjectOwner).

Definition orphan_adopted (kind : string) : Io unit := if m then tell (Count "orphan_adopted" [kind]) else ok tt.

(** Create, mirror, own, stamp. *)
Definition MintIssueTask (repo : Repository) (ext : ScmIssue) (stg reason : string) : Io (Task * MintOutcome) :=
  let task := issue_task repo ext stg reason in
  let? _ := mintErr SweepIssueKind (set_project_owner task) in
  let? (outcome, task, existing) := createTaskRaceSafe task in
  match outcome with
  | MintCreated =>
      let issName := IssueName (repo_Name repo) (si_Number ext) in
      let? _ := mintErr SweepIssueKind (SyncIssue issueSize sp proj repo ext) in
      let? _ := mintErr SweepIssueKind (ownIssueForTask issName task) in
      let? task := mintErr SweepIssueKind
        (stampMintStatus task (fun fresh => on_status fresh (fun s => s <| IssueRefs ::= add_ref issName |>))) in
      let? _ := orphan_adopted SweepIssueKind in
      ok (task, MintCreated)
  | _ =>
      let? _ := (match existing with
                 | Some twin => mintErr SweepIssueKind (repairIssueBinding repo ext twin)
                 | None => ok task
                 end) in
      ok (task, outcome)
  end.

Definition review_task (repo : Repository) (pr : PRRef) (stg reason : string) : Task :=
  let ext := mrSnapshot proj repo pr in
  let name := IntakeTaskName unicodeLower (proj_Name proj) SweepReviewKind (repo_Name repo) (prr_Number pr) in
  let source := mkTaskSource (provider_of proj) (sm_URL ext) "" (prr_Author pr) true (prr_Number pr) (prr_HeadSHA pr) "" in
  let task := zero_Task <| task_Name := name |>
    <| Spec ::= fun s => s <| ProjectRef := proj_Name proj |> <| Kind := SweepReviewKind |>
                           <| Goal := sprintf ["Review "; sm_URL ext] |>
                           <| InitialState := stg |> <| InitialParkReason := reason |> <| Source := Some source |> |> in
  StampPodName unicodeLower task (proj_Name proj) (repo_Name repo).

Definition MintReviewTask (repo : Repository) (pr : PRRef) (cr : option MergeRequest) (stg reason expectFrom : string)
  : Io (Task * MintOutcome) :=
  let ext := mrSnapshot proj repo pr in
  let task := review_task repo pr stg reason in
  let? _ := mintErr SweepReviewKind (set_project_owner task) in
  let? (outcome, task, existing) := createTaskRaceSafe task in
  match outcome with
  | MintCreated =>
      let mrName := MergeRequestName (repo_Name repo) (prr_Number pr) in
      let? _ := mintErr SweepReviewKind (bindMRToTask repo ext task expectFrom) in
      let rounds := carriedHumanReviewRounds cr in
      let? task := mintErr SweepReviewKind
        (stampMintStatus task (fun fresh =>
           on_status fresh (fun s => s <| MRRefs ::= add_ref mrName |> <| HumanReviewRounds := rounds |>))) in
      let? _ := orphan_adopted SweepReviewKind in
      ok (task, MintCreated)
  | _ =>
      let? _ := (match existing with
                 | Some twin => mintErr SweepReviewKind (repairMRBinding repo ext twin)
                 | None => ok task
                 end) in
      ok (task, outcome)
  end.

Definition skip_issue (reason : string) : Io unit := tell (Count "sweep_skipped" [proj_Name proj; activity; reason]).

(** The Task an item is owed, created; [None] with [MintNotOwed] where it is owed none. *)
Definition MintForItem (repo : Repository) (item : ForgeItem) (webhookOriginated : bool) : Io (option Task * MintOutcome) :=
  match item with
  | ForgePR pr =>
      let? cr := mintErr SweepReviewKind (mergeRequestCR repo (prr_Number pr)) in
      let? (liveOwner, cr) := mintErr SweepReviewKind (resolve_live cr) in
      match ClassifyPR unicodeLower proj repo pr None liveOwner cr with
      | PRReview =>
          let '(stg, reason) := MintReviewStage cr in
          let? (task, outcome) := MintReviewTask repo pr cr stg reason "" in ok (Some task, outcome)
      | _ => let? _ := count_mint SweepReviewKind "not_owed" in ok (None, MintNotOwed)
      end
  | ForgeIssue iss =>
      let? cr := mintErr SweepIssueKind (issueCR repo (si_Number iss)) in
      let? (liveOwner, cr) := mintErr SweepIssueKind (resolve_live cr) in
      let '(orphan, skipReason) := IsOrphanIssue proj repo iss liveOwner in
      if negb orphan then
        let? _ := skip_issue skipReason in
        let? _ := count_mint SweepIssueKind "not_owed" in ok (None, MintNotOwed)
      else
        let '(stg, reason) := MintStage proj repo iss cr webhookOriginated in
        let? (task, outcome) := MintIssueTask repo iss stg reason in ok (Some task, outcome)
  end.

(** *** A comment on a merge request nobody works on *)

Definition repoSlug (parse : string -> option string) (repo : Repository) : string :=
  match ghOwnerRepo (parse (repo_URL repo)) with
  | Some (owner, name) => sprintf [owner; "/"; name]
  | None => ""
  end.

Definition prRefFromMR (parse : string -> option string) (repo : Repository) (mr : MergeRequest) : PRRef :=
  let s := mr_Status mr in
  mkPRRef (repoSlug parse repo) (mrs_Number (mr_Spec mr)) "" (mr_Author s) (mr_HeadSHA s) (mr_HeadBranch s) ""
    [] (mr_Body s) (default 0 (mr_UpdatedAt s)).

(** The Task that takes the comment, [""] for none, and whether it was created. *)
Definition EnsureTaskForMRComment (parse : string -> option string) (repo : Repository) (mr : MergeRequest) (author : string)
  : Io (string * bool) :=
  let? (owner, mr) := resolveLiveOwner mr in
  if owner != "" then ok (owner, false)
  else if mr_State (mr_Status mr) != "open" then ok (""%string, false)
  else
    let bot := botLoginOf proj in
    if (bot != "") && (author == bot) then ok (""%string, false)
    else
      let pr := prRefFromMR parse repo mr in
      if negb (prInReactionScope proj repo pr bot) then ok (""%string, false)
      else
        let '(stg, reason) := MintReviewStage (Some mr) in
        let? (task, outcome) := MintReviewTask repo pr (Some mr) stg reason "" in
        match outcome with
        | MintTombstoneDeleted => fail (MintStillOwed (mr_Name mr))
        | MintCreated => ok (task_Name task, true)
        | _ => ok (task_Name task, false)
        end.

End Minter.


(** ** What the theorems say *)

(** A Task was read gone or finished. *)
Definition seen_dead (reader : View) (es : list (Did Call)) (c : string) : Prop :=
  In (did (GetTask reader c) (Err ApiMissing)) es
  \/ exists t, In (did (GetTask reader c) (Ok t)) es /\ TaskDone t = true.

(** The controller an artifact was read with keeps it when it is written, unless it was
    seen dead, has the empty name, or is excused. *)
Definition yielded `{Artifact A} (reader : View) (excused : string -> Prop) (es : list (Did Call)) (o o' : A) : Prop :=
  match ControllerOwner (owners o) with
  | None => True
  | Some c => ControllerOwner (owners o') = Some c \/ c = ""%string \/ seen_dead reader es c \/ excused c
  end.

(** A write of an artifact comes from a read of the same run, and steals it from no live
    Task. *)
Definition fair (reader : View) (excused : string -> Prop) (es : list (Did Call)) (d : Did Call) : Prop :=
  match did_call d with
  | UpdateIssue o' => exists v n o, In (did (GetIssue v n) (Ok o)) es /\ yielded reader excused es o o'
  | UpdateMergeRequest o' => exists v n o, In (did (GetMergeRequest v n) (Ok o)) es /\ yielded reader excused es o o'
  | _ => True
  end.

Definition all_fair (reader : View) (excused : string -> Prop) (es : list (Did Call)) : Prop :=
  Forall (fair reader excused es) es.

Definition nobody : string -> Prop := fun _ => False.

(** The Tasks that are created, and the Tasks that are deleted. *)
Definition created_task (d : Did Call) : option Task := match did_call d with CreateTask t => Some t | _ => None end.

Definition item_number (item : ForgeItem) : Z := match item with ForgeIssue i => si_Number i | ForgePR pr => prr_Number pr end.
Definition item_kind (item : ForgeItem) : string := match item with ForgeIssue _ => SweepIssueKind | ForgePR _ => SweepReviewKind end.

(** Only a Task that was read dead is deleted. *)
Definition buries (es : list (Did Call)) (d : Did Call) : Prop :=
  forall n, deleted_task d = Some n -> exists v k t, In (did (GetTask v k) (Ok t)) es /\ task_Name t = n /\ dead t = true.

Definition creations (es : list (Did Call)) : list Task := omap created_task es.

(** At most [n] Tasks are created, all with a name. *)
Definition creates (name : string) (n : nat) (es : list (Did Call)) : Prop :=
  (length (creations es) <= n)%nat /\ (forall t, In t (creations es) -> task_Name t = name).

(** Creates nothing, deletes nothing. *)
Definition still (d : Did Call) : Prop := created_task d = None /\ deleted_task d = None.

(** One creation at most, and only the dead deleted. *)
Definition placed (name : string) (es : list (Did Call)) : Prop := creates name 1 es /\ Forall (buries es) es.

Definition places {A} (name : string) (p : Io A) : Prop := does p (fun _ es => placed name es).

(** ** Lemmas: control is not stolen *)

Lemma seen_dead_mono reader es es' c : incl es es' -> seen_dead reader es c -> seen_dead reader es' c.
Proof. intros Hi [H|(t & H & Hd)]; [left; by apply Hi|right; exists t; auto]. Qed.

Lemma fair_mono reader (exc : string -> Prop) es es' d : incl es es' -> fair reader exc es d -> fair reader exc es' d.
Proof.
  intros Hi. unfold fair, yielded. destruct (did_call d); try done; intros (v & n & o & Ho & Hy); exists v, n, o; (split; [by apply Hi|]).
  all: destruct (ControllerOwner _); [|done]; destruct Hy as [?|[?|[?|?]]]; eauto using seen_dead_mono.
Qed.

#[export] Instance all_fair_closed reader exc : Closed (all_fair reader exc).
Proof.
  split; [constructor|]. unfold all_fair. intros es es' H H'. apply Forall_app.
  split; (eapply Forall_impl; [eassumption|]); intros d; apply fair_mono; intros x Hx; apply in_app_iff; auto.
Qed.

(** An excuse is lifted where the Task is seen dead. *)
Lemma excuse_lifted reader name es ctx : incl es ctx -> seen_dead reader ctx name ->
  Forall (fair reader (eq name) es) es -> Forall (fair reader nobody ctx) es.
Proof.
  intros Hi Hd H. eapply Forall_impl; [exact H|]. intros d Hf. apply (fair_mono _ _ _ ctx) in Hf; [|done].
  revert Hf. unfold fair, yielded. destruct (did_call d); try done; intros (v & n & o & Ho & Hy); exists v, n, o; (split; [done|]).
  all: destruct (ControllerOwner _); [|done]; destruct Hy as [?|[?|[?| <-]]]; auto.
Qed.

Lemma drop_keeps_controller refs name c : ControllerOwner refs = Some c -> c <> name ->
  ControllerOwner (snd (DropOwner refs name)) = Some c.
Proof.
  unfold DropOwner. destruct (Nat.eqb _ _); [done|]. cbn. unfold ControllerOwner. intros H Hne.
  induction refs as [|r refs IH]; [done|]. cbn in *. destruct (isTaskRef r && controls r) eqn:E.
  - cbn in H. injection H as <-. assert (names name r = false) as ->.
    { unfold names. apply andb_false_iff. right. by apply String.eqb_neq. }
    cbn. by rewrite E.
  - destruct (negb (names name r)); cbn; [rewrite E|]; by apply IH.
Qed.

(** What may be written over [o] without stealing. *)
Lemma yields_to reader (exc : string -> Prop) es `{Artifact A} (o o' : A) :
  (forall c, ControllerOwner (owners o) = Some c -> ControllerOwner (owners o') = Some c \/ exc c \/ c = ""%string) ->
  yielded reader exc es o o'.
Proof. intros Hc. unfold yielded. destruct (ControllerOwner (owners o)) as [c|]; [|done]. destruct (Hc c eq_refl) as [?|[?|?]]; auto. Qed.

(** The artifacts the runs write, as the traces see them. *)
Class Traced (A : Type) `{Artifact A} := {
  traced_get reader exc es v n x : fair reader exc es (did (get_obj v n) x);
  traced_update reader exc es v n o o' x : In (did (get_obj v n) (Ok o)) es -> yielded reader exc es o o' ->
    fair reader exc es (did (update_obj o') x)
}.

#[export] Instance issue_traced : Traced Issue.
Proof. split; [done|]. intros reader exc es v n o o' x Hin Hy. by exists v, n, o. Qed.

#[export] Instance mergerequest_traced : Traced MergeRequest.
Proof. split; [done|]. intros reader exc es v n o o' x Hin Hy. by exists v, n, o. Qed.

(** A read, then a write of what was read. *)
Lemma read_then_write `{Traced A} {B} reader (exc : string -> Prop) v n (f : A -> Io B) :
  (forall o, does (f o) (fun _ es => Forall (fair reader exc (did (get_obj v n) (Ok o) :: es)) es)) ->
  keeps (all_fair reader exc) (let? o := api (get_obj v n) in f o).
Proof.
  intros Hf [o|e]; cbn [try bind api].
  - eapply does_mono; [|exact (Hf o)]. intros a es Hes. constructor; [apply traced_get|]. exact Hes.
  - constructor; [apply traced_get|constructor].
Qed.

Lemma dropStaleOwner_fair `{Traced A} reader (cr : A) name :
  keeps (all_fair reader (eq name)) (dropStaleOwner reader cr name).
Proof.
  unfold dropStaleOwner. apply keeps_bind; [apply _| |intros [p|e]; [|destruct (IsNotFound e)]; by apply keeps_ret, _].
  apply keeps_on_conflict; [apply _|]. apply read_then_write. intros o.
  destruct (DropOwner (owners o) name) as [dropped refs] eqn:E. destruct dropped; [|constructor]. cbn [negb].
  assert (forall es x, In (did (get_obj reader (obj_name cr)) (Ok o)) es ->
    fair reader (eq name) es (did (update_obj (with_owners refs o)) x)) as Hw.
  { intros es x Hin. eapply traced_update; [exact Hin|]. apply yields_to. intros c Hc. rewrite with_owners_owners.
    destruct (string_dec name c) as [->|Hne]; [by right; left|left].
    replace refs with (snd (DropOwner (owners o) name)) by by rewrite E. by apply drop_keeps_controller. }
  intros [e|]; (constructor; [apply Hw; by left|constructor]).
Qed.

(** A drop that was licensed, and what comes after it. *)
Lemma licensed_drop `{Traced A} {B} reader (cr : A) name (d0 : Did Call) (f : bool * A -> Io B) :
  fair reader nobody [d0] d0 -> seen_dead reader [d0] name -> (forall p, keeps (all_fair reader nobody) (f p)) ->
  does (let? p := dropStaleOwner reader cr name in f p) (fun _ es => all_fair reader nobody (d0 :: es)).
Proof.
  intros Hd0 Hd Hf. apply does_try. eapply does_mono; [|apply (dropStaleOwner_fair reader cr name)]. intros r es Hes.
  assert (all_fair reader nobody (d0 :: es)) as Hall.
  { constructor; [eapply fair_mono; [|exact Hd0]; intros x [->|[]]; by left|].
    eapply (excuse_lifted reader name es); [by right| |exact Hes].
    eapply seen_dead_mono; [|exact Hd]. intros x [->|[]]; by left. }
  destruct r as [p|e]; [|exact Hall]. eapply does_mono; [|exact (Hf p)]. intros b es' H'.
  exact (closed_app (d0 :: es) es' Hall H').
Qed.

Lemma live_owner_fair `{Sweepable A, !Traced A} reader activity proj rounds : forall (cr : A),
  keeps (all_fair reader nobody) (live_owner_loop reader activity proj rounds cr).
Proof.
  induction rounds as [|rounds IH]; intros cr; cbn [live_owner_loop]; [by apply keeps_ret, _|].
  destruct (ControllerOwner (owners cr)) as [name|]; [|by apply keeps_ret, _].
  assert (forall b (p : bool * A), keeps (all_fair reader nobody)
    (let '(dropped, cr) := p in
     let? _ := (if dropped
                then tell (Count (if b : bool then "sweep_terminal_owner_released" else "sweep_stale_owner_repaired")
                                 [proj_Name proj; activity])
                else ok tt) in
     match ControllerOwner (owners cr) with
     | None => ok (""%string, cr)
     | Some cur => if cur == name then ok (""%string, cr) else live_owner_loop reader activity proj rounds cr
     end)) as Hrest.
  { intros b [dropped cr1]. keep_go ltac:(by repeat constructor). by apply IH. }
  intros [t|[]]; cbn [try bind found api ok fail IsNotFound is_set andb negb]; try by repeat constructor.
  - destruct (TaskDone t && terminalOwnerReleasable cr) eqn:E; cbn [negb]; [|by repeat constructor].
    apply andb_true_iff in E as [E _]. apply (licensed_drop reader cr name _ _); [done| |exact (Hrest true)].
    right. exists t. split; [by left|done].
  - apply (licensed_drop reader cr name _ _); [done| |exact (Hrest false)]. left. by left.
Qed.

Ltac fair_go := keep_go ltac:(by repeat constructor).

Lemma take_control_fair `{Traced A} reader (exc : string -> Prop) v n (o : A) from task :
  (forall c, ControllerOwner (owners o) = Some c -> exc c \/ c = ""%string) ->
  does (take_control o from task) (fun _ es => Forall (fair reader exc (did (get_obj v n) (Ok o) :: es)) es).
Proof.
  intros Hc. unfold take_control. destruct (AddPlainOwner _ _ _) as [b refs]. destruct (HandOverController _ _ _) as [refs'|e]; [|constructor].
  assert (forall es x, In (did (get_obj v n) (Ok o)) es -> fair reader exc es (did (update_obj (with_owners refs' o)) x)) as Hw.
  { intros es x Hin. eapply traced_update; [exact Hin|]. apply yields_to. intros c Ho. right. by apply Hc. }
  intros [e|]; (constructor; [apply Hw; by left|constructor]).
Qed.

Lemma ownIssueForTask_fair reader name task : keeps (all_fair reader nobody) (ownIssueForTask name task).
Proof.
  apply keeps_on_conflict; [apply _|]. apply (@read_then_write Issue _ _ issue_traced unit reader nobody Cached name). intros iss.
  destruct (ControllerOwner (owners iss)) as [cur|] eqn:E; [destruct (_ == _); constructor|].
  apply (take_control_fair reader nobody Cached name iss). by intros c Hc; rewrite E in Hc.
Qed.

Lemma ownMergeRequest_fair reader name task expectFrom :
  keeps (all_fair reader (eq expectFrom)) (ownMergeRequest name task expectFrom).
Proof.
  apply keeps_on_conflict; [apply _|]. apply (@read_then_write MergeRequest _ _ mergerequest_traced unit reader (eq expectFrom) Cached name). intros mr.
  destruct (ControllerOwner (owners mr)) as [cur|] eqn:E.
  - destruct (_ == _); [constructor|]. destruct (_ != _) eqn:Ee; [constructor|].
    apply negb_false_iff, String.eqb_eq in Ee. subst cur.
    apply (take_control_fair reader (eq expectFrom) Cached name mr). intros c Hc. rewrite E in Hc. injection Hc as ->. by left.
  - apply (take_control_fair reader (eq expectFrom) Cached name mr). by intros c Hc; rewrite E in Hc.
Qed.

Lemma fair_excuse reader (exc exc' : string -> Prop) es : (forall c, exc c -> exc' c \/ c = ""%string) ->
  all_fair reader exc es -> all_fair reader exc' es.
Proof.
  intros He H. eapply Forall_impl; [exact H|]. intros d. unfold fair, yielded.
  destruct (did_call d); try done; intros (v & n & o & Ho & Hy); exists v, n, o; (split; [done|]).
  all: destruct (ControllerOwner _); [|done]; destruct Hy as [?|[?|[?|Hx]]]; auto; destruct (He _ Hx); auto.
Qed.

Lemma ownMergeRequest_unexpecting reader name task : keeps (all_fair reader nobody) (ownMergeRequest name task "").
Proof.
  eapply does_mono; [|apply (ownMergeRequest_fair reader name task "")]. intros r es.
  apply fair_excuse. intros c <-. by right.
Qed.

Section Mint.

Context (unicodeLower : string -> string) (issueSize : Issue -> option Z) (mrSize : MergeRequest -> option Z)
  (sp : option (Spiller Comment)) (reader : View) (m : bool) (activity : string) (proj : Project).

Lemma SyncIssue_fair repo ext : keeps (all_fair reader nobody) (SyncIssue issueSize sp proj repo ext).
Proof.
  unfold SyncIssue, counting_failure, ensureIssueCR, ensureIssueCRWithAnnotations, mirrorComments, recordMirrorSyncFailure.
  fair_go.
Qed.

Lemma SyncMergeRequest_fair repo ext : keeps (all_fair reader nobody) (SyncMergeRequest mrSize sp proj repo ext).
Proof.
  unfold SyncMergeRequest, counting_failure, ensureMergeRequestCR, mirrorComments, recordMirrorSyncFailure. fair_go.
Qed.

Lemma stampIfChanged_fair task mutate : keeps (all_fair reader nobody) (stampMintStatusIfChanged task mutate).
Proof. unfold stampMintStatusIfChanged. fair_go. Qed.

Lemma bindMRToTask_fair repo ext task : keeps (all_fair reader nobody) (bindMRToTask mrSize sp proj repo ext task "").
Proof.
  unfold bindMRToTask. apply keeps_try; [apply _|apply SyncMergeRequest_fair|]. intros _. apply ownMergeRequest_unexpecting.
Qed.

Lemma repairMRBinding_fair repo ext task : keeps (all_fair reader nobody) (repairMRBinding mrSize sp proj repo ext task).
Proof.
  unfold repairMRBinding. cbv zeta. fair_go.
  all: first [apply stampIfChanged_fair|apply bindMRToTask_fair].
Qed.

Lemma repairIssueBinding_fair repo ext task : keeps (all_fair reader nobody) (repairIssueBinding issueSize sp proj repo ext task).
Proof.
  unfold repairIssueBinding. cbv zeta. fair_go.
  all: first [apply stampIfChanged_fair|apply SyncIssue_fair|apply ownIssueForTask_fair].
Qed.

Lemma createTaskRaceSafe_fair task : keeps (all_fair reader nobody) (createTaskRaceSafe reader task).
Proof. unfold createTaskRaceSafe, create_task, resolve_twin, minted, mint_error, count_mint. fair_go. Qed.

Lemma mintErr_fair {A} kind (p : Io A) : keeps (all_fair reader nobody) p -> keeps (all_fair reader nobody) (mintErr kind p).
Proof. intros Hp. unfold mintErr, count_mint. apply keeps_bind; [apply _|exact Hp|]. intros r. fair_go. Qed.

Lemma MintIssueTask_fair repo ext stg reason :
  keeps (all_fair reader nobody) (MintIssueTask unicodeLower issueSize sp reader m proj repo ext stg reason).
Proof.
  unfold MintIssueTask, set_project_owner, orphan_adopted, stampMintStatus. cbv zeta.
  repeat first [apply createTaskRaceSafe_fair | apply stampIfChanged_fair | apply SyncIssue_fair | apply ownIssueForTask_fair
               | apply repairIssueBinding_fair | apply mintErr_fair | progress cbv zeta | keep_step ltac:(by repeat constructor)].
Qed.

Lemma MintReviewTask_fair repo pr cr stg reason :
  keeps (all_fair reader nobody) (MintReviewTask unicodeLower mrSize sp reader m proj repo pr cr stg reason "").
Proof.
  unfold MintReviewTask, set_project_owner, orphan_adopted, stampMintStatus. cbv zeta.
  repeat first [apply createTaskRaceSafe_fair | apply stampIfChanged_fair | apply bindMRToTask_fair
               | apply repairMRBinding_fair | apply mintErr_fair | progress cbv zeta | keep_step ltac:(by repeat constructor)].
Qed.

Lemma resolve_live_fair `{Sweepable A, !Traced A} (cr : option A) :
  keeps (all_fair reader nobody) (resolve_live reader activity proj cr).
Proof.
  unfold resolve_live, resolveLiveOwner. destruct cr as [o|]; [|by apply keeps_ret, _].
  apply keeps_try; [apply _|by apply live_owner_fair|]. intros [owner o']. by apply keeps_ret, _.
Qed.

Lemma MintForItem_fair repo item webhookOriginated :
  keeps (all_fair reader nobody) (MintForItem unicodeLower issueSize mrSize sp reader m activity proj repo item webhookOriginated).
Proof.
  unfold MintForItem, mergeRequestCR, issueCR, count_mint, skip_issue. destruct item as [iss|pr].
  - apply keeps_try; [apply _|apply mintErr_fair; fair_go|]. intros cr.
    apply keeps_try; [apply _|apply mintErr_fair, resolve_live_fair|]. intros [liveOwner cr'].
    destruct (IsOrphanIssue _ _ _ _) as [orphan skipReason]. destruct orphan; cbn [negb]; [|fair_go].
    destruct (MintStage _ _ _ _ _) as [stg reason].
    apply keeps_try; [apply _|apply MintIssueTask_fair|]. intros [task outcome]. by apply keeps_ret, _.
  - apply keeps_try; [apply _|apply mintErr_fair; fair_go|]. intros cr.
    apply keeps_try; [apply _|apply mintErr_fair, resolve_live_fair|]. intros [liveOwner cr'].
    destruct (ClassifyPR _ _ _ _ _ _ _); [fair_go| |fair_go..]. destruct (MintReviewStage _) as [stg reason].
    apply keeps_try; [apply _|apply MintReviewTask_fair|]. intros [task outcome]. by apply keeps_ret, _.
Qed.

End Mint.

(** ** The theorems *)


(** ** Lemmas: one creation *)

Lemma still_creates_none es : Forall still es -> creations es = [].
Proof. induction 1 as [|d es [H _] _ IH]; [done|]. cbn. by rewrite H. Qed.

Lemma buries_mono es es' d : incl es es' -> buries es d -> buries es' d.
Proof. intros Hi Hb n Hn. destruct (Hb n Hn) as (v & k & t & Ht & H). exists v, k, t. split; [by apply Hi|exact H]. Qed.

Lemma still_buries es es' : Forall still es' -> Forall (buries es) es'.
Proof. intros Hs. eapply Forall_impl; [exact Hs|]. intros d [_ Hd] n Hn. congruence. Qed.

Lemma still_placed name es : Forall still es -> placed name es.
Proof.
  intros H. split; [|by apply still_buries]. unfold creates. rewrite still_creates_none by done. cbn. split; [lia|done].
Qed.

Lemma placed_app name es es' : placed name es /\ Forall still es' \/ Forall still es /\ placed name es' -> placed name (es ++ es').
Proof.
  unfold placed, creates, creations. rewrite omap_app, length_app.
  intros [[[[Hn Ht] Hb] Hs]|[Hs [[Hn Ht] Hb]]]; pose proof (still_creates_none _ Hs) as E; unfold creations in E; rewrite E.
  - cbn [length]. rewrite app_nil_r. repeat split; [lia|done|]. apply Forall_app. split; [|by apply still_buries].
    eapply Forall_impl; [exact Hb|]. intros d. apply buries_mono. intros x Hx. apply in_app_iff. by left.
  - cbn [length app]. repeat split; [lia|done|]. apply Forall_app. split; [by apply still_buries|].
    eapply Forall_impl; [exact Hb|]. intros d. apply buries_mono. intros x Hx. apply in_app_iff. by right.
Qed.

Lemma places_still {A} name (p : Io A) : keeps (Forall still) p -> places name p.
Proof. apply does_mono. intros _ es. apply still_placed. Qed.

Lemma places_before {A B} name (p : Io A) (f : A -> Io B) :
  keeps (Forall still) p -> (forall a, places name (f a)) -> places name (try p f).
Proof.
  intros Hp Hf. apply does_try. eapply does_mono; [|exact Hp]. intros [a|e] es Hq; [|by apply still_placed].
  eapply does_mono; [|exact (Hf a)]. intros b es' H'. apply placed_app. by right.
Qed.

Lemma places_after {A B} name (p : Io A) (f : A -> Io B) :
  places name p -> (forall a, keeps (Forall still) (f a)) -> places name (try p f).
Proof.
  intros Hp Hf. apply does_try. eapply does_mono; [|exact Hp]. intros [a|e] es Hq; [|done].
  eapply does_mono; [|exact (Hf a)]. intros b es' H'. apply placed_app. by left.
Qed.

Ltac still_go := keep_go ltac:(by repeat constructor).

Lemma minted_still o task twin : keeps (Forall still) (minted o task twin).
Proof. unfold minted, count_mint. still_go. Qed.

Lemma mint_error_still {A} task e : keeps (Forall still) (mint_error (A := A) task e).
Proof. unfold mint_error, count_mint. still_go. Qed.

Lemma resolve_twin_buries reader task :
  does (resolve_twin reader task) (fun _ es => creations es = [] /\ Forall (buries es) es).
Proof.
  assert (forall A (p : Io A) es0, creations es0 = [] -> Forall (buries es0) es0 -> keeps (Forall still) p ->
    does p (fun _ es => creations (es0 ++ es) = [] /\ Forall (buries (es0 ++ es)) (es0 ++ es))) as Hst.
  { intros A p es0 H0 Hb Hp. eapply does_mono; [|exact Hp]. intros a es Hes. unfold creations in *. rewrite omap_app, H0.
    split; [by apply still_creates_none|]. apply Forall_app. split; [|by apply still_buries].
    eapply Forall_impl; [exact Hb|]. intros d. apply buries_mono. intros x Hx. apply in_app_iff. by left. }
  intros [t|e]; cbn [bind api ok fail].
  - destruct (dead t) eqn:E.
    + assert (forall x, Forall (buries [did (GetTask reader (task_Name task)) (Ok t); did (DeleteTask (task_Name t)) x])
        [did (GetTask reader (task_Name task)) (Ok t); did (DeleteTask (task_Name t)) x]) as Hb.
      { intros x. repeat constructor; intros n [=]. subst n. exists reader, (task_Name task), t. split; [by left|by split]. }
      intros [e|]; cbn [bind try found unless_missing write ok fail].
      * destruct (IsNotFound _); cbn [bind try]; apply (Hst _ _ [_; _]); try done; [apply minted_still|apply mint_error_still].
      * apply (Hst _ _ [_; _]); [done|apply Hb|apply minted_still].
    + apply (Hst _ _ [_]); [done| |apply minted_still]. by repeat constructor.
  - apply (Hst _ _ [_]); [done| |apply mint_error_still]. by repeat constructor.
Qed.

Lemma create_task_places reader task : places (task_Name task) (create_task reader task).
Proof.
  intros r. cbn [bind api].
  assert (forall es, creations es = [] -> Forall (buries es) es -> placed (task_Name task) (did (CreateTask task) r :: es)) as Hp.
  { intros es He Hb. split; [split|].
    - cbn. unfold creations in He. rewrite He. cbn. lia.
    - intros t. cbn. unfold creations in He. rewrite He. by intros [->|[]].
    - constructor; [by intros n [=]|]. eapply Forall_impl; [exact Hb|]. intros d. apply buries_mono. intros x Hx. by right. }
  assert (forall A (p : Io A), keeps (Forall still) p ->
    does p (fun _ es => placed (task_Name task) (did (CreateTask task) r :: es))) as Hst.
  { intros A p. apply does_mono. intros _ es Hes. apply Hp; [by apply still_creates_none|by apply still_buries]. }
  destruct r as [created|e]; cbn [bind ok fail].
  - apply Hst, minted_still.
  - destruct (IsAlreadyExists _).
    + eapply does_mono; [|apply resolve_twin_buries]. intros _ es [He Hb]. by apply Hp.
    + apply Hst, mint_error_still.
Qed.

Lemma createTaskRaceSafe_places reader task : places (task_Name task) (createTaskRaceSafe reader task).
Proof.
  assert (forall A (d : Did Call) (p : Io A), still d -> places (task_Name task) p ->
    does p (fun _ es => placed (task_Name task) (d :: es))) as Hd.
  { intros A d p Hs. apply does_mono. intros _ es He. apply (placed_app _ [d]). right. split; [by constructor|done]. }
  intros [t|e]; cbn [bind api ok fail]; apply Hd; try done.
  - destruct (dead t); [apply create_task_places|apply places_still, minted_still].
  - destruct (IsNotFound _); [apply create_task_places|apply places_still, mint_error_still].
Qed.

Section MintOnce.

Context (unicodeLower : string -> string) (issueSize : Issue -> option Z) (mrSize : MergeRequest -> option Z)
  (sp : option (Spiller Comment)) (reader : View) (m : bool) (activity : string) (proj : Project).

Lemma set_project_owner_still task : keeps (Forall still) (set_project_owner task).
Proof. unfold set_project_owner. still_go. Qed.

Lemma mintErr_still {A} kind (p : Io A) : keeps (Forall still) p -> keeps (Forall still) (mintErr kind p).
Proof. intros Hp. unfold mintErr, count_mint. apply keeps_bind; [apply _|exact Hp|]. intros r. still_go. Qed.

Lemma SyncIssue_still repo ext : keeps (Forall still) (SyncIssue issueSize sp proj repo ext).
Proof.
  unfold SyncIssue, counting_failure, ensureIssueCR, ensureIssueCRWithAnnotations, mirrorComments, recordMirrorSyncFailure.
  still_go.
Qed.

Lemma bindMRToTask_still repo ext task from : keeps (Forall still) (bindMRToTask mrSize sp proj repo ext task from).
Proof.
  unfold bindMRToTask, SyncMergeRequest, counting_failure, ensureMergeRequestCR, mirrorComments, recordMirrorSyncFailure,
    ownMergeRequest, take_control. still_go.
Qed.

Lemma ownIssueForTask_still name task : keeps (Forall still) (ownIssueForTask name task).
Proof. unfold ownIssueForTask, take_control. still_go. Qed.

Lemma stampIfChanged_still task mutate : keeps (Forall still) (stampMintStatusIfChanged task mutate).
Proof. unfold stampMintStatusIfChanged. still_go. Qed.

Lemma repairMRBinding_still repo ext task : keeps (Forall still) (repairMRBinding mrSize sp proj repo ext task).
Proof.
  unfold repairMRBinding, stampMRRef. cbv zeta. still_go. all: first [apply stampIfChanged_still|apply bindMRToTask_still].
Qed.

Lemma repairIssueBinding_still repo ext task : keeps (Forall still) (repairIssueBinding issueSize sp proj repo ext task).
Proof.
  unfold repairIssueBinding, stampIssueRef. cbv zeta. still_go.
  all: first [apply stampIfChanged_still|apply SyncIssue_still|apply ownIssueForTask_still].
Qed.

Ltac mint_still := repeat first [apply stampIfChanged_still | apply SyncIssue_still | apply bindMRToTask_still | apply ownIssueForTask_still
  | apply repairIssueBinding_still | apply repairMRBinding_still | apply mintErr_still | progress cbv zeta
  | keep_step ltac:(by repeat constructor)].

Lemma MintIssueTask_places repo ext stg reason :
  places (IntakeTaskName unicodeLower (proj_Name proj) SweepIssueKind (repo_Name repo) (si_Number ext))
    (MintIssueTask unicodeLower issueSize sp reader m proj repo ext stg reason).
Proof.
  unfold MintIssueTask. cbv zeta. apply places_before; [apply mintErr_still, set_project_owner_still|]. intros _.
  apply places_after; [exact (createTaskRaceSafe_places reader (issue_task unicodeLower proj repo ext stg reason))|].
  intros [[o t] twin]. unfold stampMintStatus, orphan_adopted. destruct o; mint_still.
Qed.

Lemma MintReviewTask_places repo pr cr stg reason from :
  places (IntakeTaskName unicodeLower (proj_Name proj) SweepReviewKind (repo_Name repo) (prr_Number pr))
    (MintReviewTask unicodeLower mrSize sp reader m proj repo pr cr stg reason from).
Proof.
  unfold MintReviewTask. cbv zeta. apply places_before; [apply mintErr_still, set_project_owner_still|]. intros _.
  apply places_after; [exact (createTaskRaceSafe_places reader (review_task unicodeLower proj repo pr stg reason))|].
  intros [[o t] twin]. unfold stampMintStatus, orphan_adopted. destruct o; mint_still.
Qed.

Lemma live_owner_still `{Sweepable A} (get_still : forall v n x, still (did (get_obj v n) x))
    (update_still : forall (o : A) x, still (did (update_obj o) x)) rounds : forall (cr : A),
  keeps (Forall still) (live_owner_loop reader activity proj rounds cr).
Proof.
  induction rounds as [|rounds IH]; intros cr; cbn [live_owner_loop]; [by apply keeps_ret, _|].
  destruct (ControllerOwner (owners cr)); [|by apply keeps_ret, _].
  assert (forall name, keeps (Forall still) (dropStaleOwner reader cr name)) as Hd.
  { intros name. unfold dropStaleOwner. keep_go ltac:(constructor; [first [apply get_still|apply update_still]|constructor]). }
  repeat first [apply Hd|apply IH|keep_step ltac:(by repeat constructor)].
Qed.

Lemma resolve_live_still `{Sweepable A} (get_still : forall v n x, still (did (get_obj v n) x))
    (update_still : forall (o : A) x, still (did (update_obj o) x)) (cr : option A) :
  keeps (Forall still) (resolve_live reader activity proj cr).
Proof. unfold resolve_live, resolveLiveOwner. destruct cr; [|still_go]. still_go. by apply live_owner_still. Qed.

Lemma MintForItem_places repo item webhookOriginated :
  places (IntakeTaskName unicodeLower (proj_Name proj) (item_kind item) (repo_Name repo) (item_number item))
    (MintForItem unicodeLower issueSize mrSize sp reader m activity proj repo item webhookOriginated).
Proof.
  unfold MintForItem, mergeRequestCR, issueCR, count_mint, skip_issue. destruct item as [iss|pr]; cbn [item_kind item_number].
  all: (apply places_before; [apply mintErr_still; still_go|]); intros cr.
  all: (apply places_before; [by apply mintErr_still, resolve_live_still|]); intros [liveOwner cr'].
  - destruct (IsOrphanIssue _ _ _ _) as [orphan skipReason]. destruct orphan; cbn [negb]; [|apply places_still; still_go].
    destruct (MintStage _ _ _ _ _) as [stg reason]. apply places_after; [apply MintIssueTask_places|].
    intros [task outcome]. still_go.
  - destruct (ClassifyPR _ _ _ _ _ _ _); [apply places_still; still_go| |apply places_still; still_go..].
    destruct (MintReviewStage _) as [stg reason]. apply places_after; [apply MintReviewTask_places|].
    intros [task outcome]. still_go.
Qed.

End MintOnce.

(** the mint of an item is one mint: a run creates at most one Task, under the name that
    is derived from the project, the kind, the repository and the number of the item, so
    that every minter that races for the item asks the API server for the same name; and
    the run deletes no Task that it has not read deleted or finished. *)
Theorem minting_is_race_safe (unicodeLower : string -> string) (issueSize : Issue -> option Z)
    (mrSize : MergeRequest -> option Z) (sp : option (Spiller Comment)) (reader : View) (m : bool) (activity : string)
    (proj : Project) (repo : Repository) (item : ForgeItem) (webhookOriginated : bool) (w : World Call) :
  let es := snd (run w (MintForItem unicodeLower issueSize mrSize sp reader m activity proj repo item webhookOriginated)) in
  creates (IntakeTaskName unicodeLower (proj_Name proj) (item_kind item) (repo_Name repo) (item_number item)) 1 es
  /\ Forall (buries es) es.
Proof. exact (run_does w _ (fun _ es => placed _ es) (MintForItem_places _ _ _ _ _ _ _ _ _ _ _)). Qed.
