(* ===== verification/Events.v ===== *)
(** * Pending events (internal/controller/task_events.go): the comments a Task has not been
    told of yet.  They are appended by the webhook and the sweep while a turn runs, and the
    turn drains the ones it has rendered. *)

From Stdlib Require Import String Ascii.
From S2P Require Import Prelude GoTime Text Limits Api Vocabulary Machine Park ObjBudget Own Transition Logins Names Seq Refs Corridor LivePods Calls.

Open Scope Z_scope.
Open Scope go_scope.

Definition maxPendingEvents : Z := 20.

Definition taskEventTruncatedMarker : string :=
  String.append newline "...(truncated by tatara; full comment on the mirrored thread".

Definition event_marker (ev : TaskEvent) : string :=
  if (ev_Repo ev != "") && (0 <? ev_Number ev) then
    sprintf [taskEventTruncatedMarker; " "; ev_Repo ev; "#"; FormatInt (ev_Number ev); ")"]
  else String.append taskEventTruncatedMarker ")".

Definition clampTaskEventBody (ev : TaskEvent) : TaskEvent :=
  if strlen (ev_Body ev) <=? TaskEventBodyMaxBytes then ev
  else
    let marker := event_marker ev in
    mkTaskEvent (ev_At ev) (ev_Kind ev) (ev_Repo ev) (ev_Number ev) (ev_Author ev)
      (String.append (TruncateUTF8 (ev_Body ev) (TaskEventBodyMaxBytes - strlen marker)) marker) (UnparkConsumedAt ev).

(** [out[len(out)-max:]] where there are more. *)
Definition appendEventCapped (events : list TaskEvent) (ev : TaskEvent) (max : Z) : list TaskEvent :=
  let out := (events ++ [ev])%list in
  if (0 <? max) && (max <? Z.of_nat (length out)) then skipn (length out - Z.to_nat max) out else out.

Definition EventKey : Type := (string * string * string * string)%type.

Definition eventKey (ev : TaskEvent) : EventKey :=
  (ev_Kind ev, ev_Repo ev, FormatInt (ev_Number ev), FormatRFC3339 (ev_At ev)).

(** [toRemove]: how often each key was rendered. *)
Definition rendered_keys (rendered : list TaskEvent) : gmap EventKey nat :=
  fold_left (fun m r => <[eventKey r := S (default O (m !! eventKey r))]> m) rendered ∅.

Fixpoint drain_loop (current : list TaskEvent) (toRemove : gmap EventKey nat) : list TaskEvent :=
  match current with
  | [] => []
  | ev :: rest =>
      let k := eventKey ev in
      match default O (toRemove !! k) with
      | O => ev :: drain_loop rest toRemove
      | S n => drain_loop rest (<[k := n]> toRemove)
      end
  end.

Definition drainRenderedEvents (current rendered : list TaskEvent) : list TaskEvent :=
  match rendered, current with
  | [], _ | _, [] => current
  | _, _ => drain_loop current (rendered_keys rendered)
  end.

(** A comment of a person: it restarts the idle clock and the count of bot rounds. *)
Definition with_event (ev : TaskEvent) (now : Time) (t : Task) : Task :=
  on_status t (fun s => s <| PendingEvents ::= fun l => appendEventCapped l ev maxPendingEvents |>
                          <| ConversationLastEventAt := Some now |> <| BotRounds := 0 |>).

(** The Task as it was written; the caller's copy becomes it. *)
Definition AppendTaskEvent (task : Task) (ev : TaskEvent) : Io Task :=
  let ev := clampTaskEventBody ev in
  on_conflict
    (let? fresh := api (GetTask Cached (task_Name task)) in
     Do TimeNow (fun now : Time =>
       let fresh := with_event ev now fresh in
       let? _ := write (UpdateTaskStatus fresh) in ok fresh)).

(** A comment of an agent: one more bot round, and no restart of the idle clock. *)
Definition with_agent_event (ev : TaskEvent) (enqueue : bool) (t : Task) : Task :=
  on_status t (fun s =>
    (if enqueue then s <| PendingEvents ::= fun l => appendEventCapped l ev maxPendingEvents |> else s)
    <| BotRounds := i64 (BotRounds s + 1) |>).

Definition AppendAgentTaskEvent (task : Task) (ev : TaskEvent) (enqueue : bool) : Io (Task * Z) :=
  let ev := clampTaskEventBody ev in
  on_conflict
    (let? fresh := api (GetTask Cached (task_Name task)) in
     let fresh := with_agent_event ev enqueue fresh in
     let? _ := write (UpdateTaskStatus fresh) in ok (fresh, BotRounds (Status fresh))).

(** ** What the theorems say *)

(** How often a key is among the events. *)
Definition times (k : EventKey) (l : list TaskEvent) : nat :=
  length (List.filter (fun ev => bool_decide (eventKey ev = k)) l).

(** ** Lemmas *)

Lemma append_capped_length events ev max : 0 < max -> Z.of_nat (length (appendEventCapped events ev max)) <= max.
Proof.
  intros Hm. unfold appendEventCapped. destruct (Z.ltb_spec 0 max); [|lia]. cbn [andb].
  destruct (Z.ltb_spec max (Z.of_nat (length (events ++ [ev])))); [|lia]. rewrite length_skipn. lia.
Qed.

Lemma append_capped_suffix events ev max : 0 < max ->
  exists dropped kept, events = (dropped ++ kept)%list /\ appendEventCapped events ev max = (kept ++ [ev])%list
    /\ (Z.of_nat (length events) < max -> dropped = []).
Proof.
  intros Hm. unfold appendEventCapped. destruct (Z.ltb_spec 0 max); [|lia]. cbn [andb]. rewrite length_app. cbn [length].
  destruct (Z.ltb_spec max (Z.of_nat (length events + 1))) as [Hl|Hl]; [|by exists [], events].
  exists (take (length events + 1 - Z.to_nat max) events), (drop (length events + 1 - Z.to_nat max) events).
  rewrite take_drop. split; [done|]. split; [|intros; lia]. rewrite skipn_app.
  by replace (length events + 1 - Z.to_nat max - length events)%nat with O by lia.
Qed.

Lemma times_cons k ev l : times k (ev :: l) = ((if bool_decide (eventKey ev = k) then 1 else 0) + times k l)%nat.
Proof. unfold times. cbn [List.filter]. by destruct (bool_decide _). Qed.

Lemma rendered_keys_snoc l r :
  rendered_keys (l ++ [r]) = <[eventKey r := S (default O (rendered_keys l !! eventKey r))]> (rendered_keys l).
Proof. unfold rendered_keys. by rewrite fold_left_app. Qed.

Lemma rendered_keys_times l k : default O (rendered_keys l !! k) = times k l.
Proof.
  induction l as [|r l IH] using rev_ind; [done|]. rewrite rendered_keys_snoc. unfold times in *.
  rewrite List.filter_app, length_app. cbn [List.filter]. rewrite <- IH. destruct (decide (eventKey r = k)) as [<-|Hne].
  - rewrite bool_decide_true by done. rewrite lookup_insert_eq. cbn. lia.
  - rewrite bool_decide_false by done. rewrite lookup_insert_ne by done. cbn. lia.
Qed.

Lemma drain_loop_times k l : forall m, times k (drain_loop l m) = (times k l - default O (m !! k))%nat.
Proof.
  induction l as [|ev l IH]; intros m; [done|]. cbn [drain_loop]. rewrite times_cons.
  destruct (decide (eventKey ev = k)) as [<-|Hne].
  - rewrite bool_decide_true by done. destruct (m !! eventKey ev) as [[|n]|] eqn:E; cbn [default from_option id];
      rewrite ?times_cons, ?bool_decide_true, IH, ?lookup_insert_eq, ?E by done; cbn [default from_option id]; lia.
  - rewrite bool_decide_false by done. destruct (default O (m !! eventKey ev)) as [|n].
    + rewrite times_cons, bool_decide_false, IH by done. lia.
    + rewrite IH, lookup_insert_ne by done. lia.
Qed.

Lemma drain_loop_sub l : forall m, sublist (drain_loop l m) l.
Proof.
  induction l as [|ev l IH]; intros m; [constructor|]. cbn [drain_loop].
  destruct (default O _); by constructor.
Qed.

(** ** The theorems *)

(** a turn drains what it has rendered and nothing else: what is left is a part of the
    pending events in their order, and of every key there are as many left as there are
    pending beyond those that were rendered, so that a comment that arrived while the turn
    was running is still there. *)
Theorem drain_is_exact (current rendered : list TaskEvent) :
  sublist (drainRenderedEvents current rendered) current
  /\ forall k, times k (drainRenderedEvents current rendered) = (times k current - times k rendered)%nat.
Proof.
  unfold drainRenderedEvents. destruct rendered as [|r rendered]; [split; [done|intros; unfold times; cbn; lia]|].
  destruct current as [|ev current]; [done|]. split; [apply drain_loop_sub|].
  intros k. by rewrite drain_loop_times, rendered_keys_times.
Qed.

(** the pending events stay twenty at most, the newest is always kept, and the ones
    that go are the oldest, and only when there is no room. *)
Theorem pending_events_are_capped (events : list TaskEvent) (ev : TaskEvent) :
  let l := appendEventCapped events ev maxPendingEvents in
  Z.of_nat (length l) <= maxPendingEvents
  /\ exists dropped kept, events = (dropped ++ kept)%list /\ l = (kept ++ [ev])%list
       /\ (Z.of_nat (length events) < maxPendingEvents -> dropped = []).
Proof. split; [by apply append_capped_length|by apply append_capped_suffix]. Qed.
