(* ===== verification/Proposals.v ===== *)
(** * Closed and reopened Issues (internal/controller/issue_apply.go): the stop of a Task
    whose Issue a person has closed, the mirror of a declined proposal that is kept as
    evidence, and the undo when the proposal is opened again. *)

From Stdlib Require Import String.
From S2P Require Import Prelude GoTime Text Limits Api Vocabulary Machine Park ObjBudget Own Transition Logins Names Seq Refs Corridor LivePods Calls Release Reaper.

Open Scope Z_scope.
Open Scope go_scope.

(** [agent.DeleteWrapper]: what is gone already is as good as deleted. *)
Definition delete_wrapper (t : Task) : Io unit :=
  let? _ := unless_missing (write (DeletePodNamed (PodName t))) in
  unless_missing (write (DeleteServiceNamed (PodName t))).

(** ** The decline *)

(** No project, no bot. *)
Definition proposalBotLogin (iss : Issue) : Io string :=
  let? proj := found (api (GetProject (is_ProjectRef (iss_Spec iss)))) in
  ok (match proj with Some p => botLoginOf p | None => ""%string end).

Definition isBrainstormProposal (iss : Issue) : Io bool :=
  let? botLogin := proposalBotLogin iss in
  ok (effectiveProposalKind iss botLogin == ProposalKindBrainstorm).

(** The clock of the decline, anchored once; the caller's copy with the annotations of the
    server. *)
Definition stampDeclinedAt (t : Task) (now : Time) : Io Task :=
  on_conflict
    (let? cur := found (api (GetTask Cached (task_Name t))) in
     match cur with
     | None => ok t
     | Some cur =>
         if ann cur AnnProposalDeclinedAt != "" then ok (with_ann (obj_ann cur) t)
         else
           let cur := set_annotation cur AnnProposalDeclinedAt (FormatRFC3339 now) in
           let? _ := write (UpdateTask cur) in ok (with_ann (obj_ann cur) t)
     end).

(** A verdict that stands. *)
Definition verdict (word : string) : bool := str_mem ["rejected"; "approved"; "done"]%string word.

Definition with_word (word : string) (iss : Issue) : Issue := iss <| iss_Status ::= fun s => s <| iss_StatusWord := word |> |>.

Definition reject_mirror (name : string) : Io unit :=
  on_conflict
    (let? fresh := api (GetIssue Cached name) in
     if verdict (iss_StatusWord (iss_Status fresh)) then ok tt
     else write (UpdateIssueStatus (with_word "rejected" fresh))).

(** The Task lets go of the Issue and keeps it as its own; the mirror becomes the record of
    the decline. *)
Definition retainProposalDecline (t : Task) (iss : Issue) (now : Time) : Io Task :=
  let? t := SeverIssueFromTask t (iss_Name iss) SeverRetainCR in
  let? marked := found (reject_mirror (iss_Name iss)) in
  match marked with
  | None => ok t
  | Some _ => stampDeclinedAt t now
  end.

(** Whether the mirror was retained, and the caller's Task. *)
Definition recordProposalDecline (t : Task) (issueName : string) (now : Time) : Io (bool * Task) :=
  let? iss := found (api (GetIssue Cached issueName)) in
  match iss with
  | None => ok (false, t)
  | Some iss =>
      let? proposal := isBrainstormProposal iss in
      if proposal then let? t := retainProposalDecline t iss now in ok (true, t)
      else let? t := SeverIssueFromTask t issueName SeverDeleteCR in ok (false, t)
  end.

Definition recordParkedProposalDecline (t : Task) (iss : Issue) (now : Time) : Io Task :=
  let? proposal := isBrainstormProposal iss in
  if proposal then retainProposalDecline t iss now else ok t.

(** ** The stop *)

(** The state the Task was stopped from, and the Task as it was written. *)
Definition stop_task (t : Task) (now : Time) : Io (option (string * Task)) :=
  on_conflict
    (let? fresh := api (GetTask Cached (task_Name t)) in
     if Parked fresh || negb (AllowsIssueClosedStop (State (Status fresh))) then ok None
     else if FoldInFlightActive fresh now then ok None
     else match Enter fresh [] StateRejected ReasonIssueClosed now with
          | Err _ => ok None
          | Ok stopped =>
              let? _ := write (UpdateTaskStatus stopped) in ok (Some (State (Status fresh), stopped))
          end).

(** Whether the Task was stopped, with the error; the caller's Task. *)
Definition ApplyIssueClosedStop (t : Task) (issueName : string) (now : Time) : Prog Call (bool * option Fail * Task) :=
  let! r := stop_task t now in
  match r with
  | Err e => Ret (false, Some e, t)
  | Ok None => Ret (false, None, t)
  | Ok (Some (prevStage, t)) =>
      let! d := (if AgentKindFor prevStage (Kind (Spec t)) != "" then delete_wrapper t else ok tt) in
      match d with
      | Err e => Ret (true, Some e, t)
      | Ok _ =>
          let! r := recordProposalDecline t issueName now in
          Ret (match r with Ok (_, t) => (true, None, t) | Err e => (true, Some e, t) end)
      end
  end.

(** ** The undo *)

(** Step 1: the mirror goes back to the sweep, away from the Task the decline left it with. *)
Definition return_mirror (iss : Issue) : Io unit :=
  match ControllerOwner (owners iss) with
  | None => ok tt
  | Some ownerName =>
      let? owner := found (api (GetTask Cached ownerName)) in
      match owner with
      | Some t => if severedButStillOwned t iss then let? _ := SeverIssueFromTask t (iss_Name iss) SeverOrphan in ok tt
                  else ok tt
      | None => ok tt
      end
  end.

Definition reopened (iss : Issue) : Issue :=
  iss <| iss_Status ::= fun s => s <| iss_StatusWord := "new"%string |> <| iss_State := "open"%string |> |>.

(** Step 2: the verdict goes. *)
Definition clear_verdict (name : string) : Io unit :=
  on_conflict
    (let? fresh := api (GetIssue Cached name) in
     if (iss_StatusWord (iss_Status fresh) != "rejected") && (iss_State (iss_Status fresh) == "open") then ok tt
     else write (UpdateIssueStatus (reopened fresh))).

(** The caller's copy of the mirror. *)
Definition reopenRetainedProposal (iss : Issue) (botLogin : string) : Io Issue :=
  if effectiveProposalKind iss botLogin != ProposalKindBrainstorm then ok iss
  else if iss_StatusWord (iss_Status iss) != "rejected" then ok iss
  else
    let? _ := return_mirror iss in
    let? cleared := found (clear_verdict (iss_Name iss)) in
    ok (if is_set cleared then reopened iss else iss).

(** ** What the theorems say *)

Definition status_write (d : Did Call) : option Issue := match did_call d with UpdateIssueStatus i => Some i | _ => None end.

(** [owner] no longer controls the mirror: it was not there when it was read, nor when it
    was written, or it was written without that control. *)
Definition returned (name owner : string) (es : list (Did Call)) : Prop :=
  In (did (GetIssue Cached name) (Err ApiMissing)) es
  \/ (exists i, In (did (UpdateIssue i) (Some ApiMissing)) es)
  \/ exists o i, In (did (GetIssue Cached name) (Ok o)) es /\ In (did (UpdateIssue i) None) es
       /\ iss_Name i = iss_Name o /\ ControllerOwner (owners i) <> Some owner.

(** The status is written only where [P] holds of what came before. *)
Definition writes_after (P : list (Did Call) -> Prop) : list (Did Call) -> list (Did Call) -> Prop :=
  guarded (fun past d => is_set (status_write d) = true -> P past).

(** What an orphaning answers when the Task has let go. *)
Definition let_off (name : string) (t : Task) (r : result Fail unit) (es : list (Did Call)) : Prop :=
  match r with
  | Ok _ => returned name (task_Name t) es
  | Err e => IsNotFound e = true -> returned name (task_Name t) es
  end.

Definition no_status (d : Did Call) : Prop := status_write d = None.

(** The API server answers a read of a Task with the Task of that name. *)
Definition true_names (es : list (Did Call)) : Prop :=
  forall v n t, In (did (GetTask v n) (Ok t)) es -> task_Name t = n.

(** The status is written after the mirror was returned, and an answer comes after that. *)
Definition in_order_for (name owner : string) (ok_ : bool) (es : list (Did Call)) : Prop :=
  writes_after (returned name owner) [] es /\ (ok_ = true -> returned name owner es).

(** A read of a Task that found it. *)
Definition task_was_read (d : Did Call) : bool :=
  match did_call d in Call X return X -> bool with GetTask _ _ => is_ok | _ => fun _ => false end (did_answer d).

(** A declined proposal whose Task has let go of it and still owns it. *)
Definition declined_issue : Issue :=
  (owned_issue "i") <| iss_Spec := mkIssueSpec "r" 1 "" "" "" ProposalKindBrainstorm |>
    <| iss_Status ::= fun s => s <| iss_StatusWord := "rejected"%string |> <| iss_State := "closed"%string |> |>.

Definition letting_go : Task := owning_task <| Status ::= fun s => s <| IssueRefs := [] |> |>.

Definition half_undone (past : list (Did Call)) (X : Type) (c : Call X) : X :=
  match c in Call Y return Y with
  | GetTask _ _ => Ok letting_go
  | GetIssue _ _ => Ok declined_issue
  | c => nowhere c
  end.

(** ** Lemmas *)

Lemma no_status_writes P es past : Forall no_status es -> writes_after P past es.
Proof. intros H. apply (guarded_free _ no_status); [|done]. intros p d Hd. by rewrite Hd. Qed.

Lemma writes_once (P : list (Did Call) -> Prop) (P_mono : forall es es', P es -> P (es ++ es')) es past : P past -> writes_after P past es.
Proof. intros H. apply (guarded_once _ P); auto. Qed.

Lemma returned_mono name owner es es' : incl es es' -> returned name owner es -> returned name owner es'.
Proof. intros Hi [H|[(i & H)|(o & i & Ho & H & Hr)]]; [left|right; left; exists i|right; right; exists o, i]; auto. Qed.

Lemma not_owned_controls (t : Task) (i : Issue) : owned_by t i = false -> ControllerOwner (owners i) <> Some (task_Name t).
Proof. unfold owned_by. intros H E. by rewrite E, String.eqb_refl in H. Qed.

Ltac silent_go := keep_go ltac:(by repeat constructor).

Lemma detach_issue_silent t name : keeps (Forall no_status) (detach_issue t name).
Proof. unfold detach_issue. silent_go. Qed.

Lemma orphan_owner_silent t name : keeps (Forall no_status) (orphan_owner t name).
Proof. unfold orphan_owner, existing_owners. silent_go. Qed.

(** A loop that catches what is missing does not fail with it. *)
Lemma existing_owners_found t refs : forall live : gmap string bool,
  does (fold_prog (E := Fail) refs live (fun (live : gmap string bool) r =>
    if negb (isTaskRef r) || (ref_Name r == task_Name t) then ok live
    else let? other := found (api (GetTask Cached (ref_Name r))) in
         ok (<[ref_Name r := is_set other]> live)))
    (fun r _ => match r with Ok _ => True | Err e => IsNotFound e = false end).
Proof.
  induction refs as [|r refs IH]; intros live; [exact I|]. cbn [fold_prog]. destruct (_ || _); [exact (IH _)|].
  intros [o|[]]; cbn [try bind found api ok fail IsNotFound]; try exact I; try exact eq_refl; apply IH.
Qed.

(** The one write of an orphaning. *)
Lemma orphan_write t name (o i : Issue) (es : list (Did Call)) :
  In (did (GetIssue Cached name) (Ok o)) es -> iss_Name i = iss_Name o -> owned_by t i = false ->
  does (write (UpdateIssue i)) (fun r es' => let_off name t r (es ++ es')).
Proof.
  intros Ho Hn Hi [e|]; cbn; intros; [right; left; exists i|right; right; exists o, i].
  - destruct e; try discriminate. apply in_app_iff. right. by left.
  - rewrite !in_app_iff. split; [by left|]. split; [right; by left|]. split; [done|by apply not_owned_controls].
Qed.

Lemma orphan_owner_lets_off t name : does (orphan_owner t name) (let_off name t).
Proof.
  eapply does_mono; [|apply does_on_error with (R := let_off name t)].
  - intros [u|e] es (before & es' & -> & H); cbn in *; intros; eapply returned_mono;
      try apply H; try done; intros x Hx; apply in_app_iff; by right.
  - intros [iss|e]; cbn [try bind api ok fail]; [|intros He; left; destruct e; try discriminate; by left].
    destruct (owned_by t iss) eqn:E; cbn [negb].
    + apply does_try. eapply does_mono; [|apply existing_owners_found]. intros [live|e] es He; [cbv beta iota|cbn; by rewrite He].
      destruct (OldestSurvivingOwner _ _) as [heir|].
      * destruct (HandOverController (owners iss) _ _) as [refs|e] eqn:Eh; [|done].
        apply (orphan_write t name iss (with_owners refs iss) (did (GetIssue Cached name) (Ok iss) :: es)); [by left|done|].
        exact (handed_not_owned t iss heir refs Eh).
      * apply (orphan_write t name iss (with_owners (dropOwnerRef (owners iss) (task_Name t)) iss) (did (GetIssue Cached name) (Ok iss) :: es)); [by left|done|]. apply dropped_not_owned.
    + apply (orphan_write t name iss (with_owners (dropOwnerRef (owners iss) (task_Name t)) iss) [did (GetIssue Cached name) (Ok iss)]); [by left|done|]. apply dropped_not_owned.
Qed.

Lemma writes_after_one P (P_mono : forall es es', P es -> P (es ++ es')) es es' :
  Forall no_status es -> P es -> writes_after P [] (es ++ es').
Proof. intros Hs Hp. apply guarded_app. split; [by apply no_status_writes|by apply writes_once]. Qed.

Lemma true_names_app es es' : true_names (es ++ es') -> true_names es /\ true_names es'.
Proof. intros H. split; intros v n t Hin; apply (H v n t), in_app_iff; auto. Qed.

Lemma detach_issue_name t name :
  does (detach_issue t name) (fun r es => true_names es -> forall t', r = Ok t' -> task_Name t' = task_Name t).
Proof.
  eapply does_mono; [|apply does_on_error with (R := fun r es => true_names es -> forall t', r = Ok t' -> task_Name t' = task_Name t)].
  { intros r es (before & es' & -> & H) Hn. apply H. by apply true_names_app in Hn as [_ ?]. }
  intros [fresh|[]]; cbn [try bind found api ok fail IsNotFound]; try (intros _ t' [=]; by subst).
  destruct (Nat.eqb _ _).
  - intros Hn t' [= <-]. by apply (Hn Cached (task_Name t) fresh); left.
  - intros [e|]; cbn; [by intros _ t' [=]|]. intros Hn t' [= <-]. by apply (Hn Cached (task_Name t) fresh); left.
Qed.

(** Severing writes the status after it has let go, and answers a Task only then. *)
Lemma sever_returns t name :
  does (SeverIssueFromTask t name SeverOrphan) (fun r es => true_names es -> in_order_for name (task_Name t) (is_ok r) es).
Proof.
  assert (forall es es', returned name (task_Name t) es -> returned name (task_Name t) (es ++ es')) as Hmono.
  { intros es es'. apply returned_mono. intros x Hx. apply in_app_iff. by left. }
  unfold SeverIssueFromTask. apply does_try.
  eapply does_mono; [|exact (does_and _ _ _ (detach_issue_silent t name) (detach_issue_name t name))].
  intros [t'|e] es [Hs Hn]; [|by split; [apply no_status_writes|]].
  apply does_try, does_found.
  eapply does_mono; [|exact (does_and _ _ _ (orphan_owner_silent t' name) (orphan_owner_lets_off t' name))].
  intros r es1 [Hs1 Hr].
  assert (true_names (es ++ es1) -> returned name (task_Name t') es1 -> returned name (task_Name t) (es ++ es1)) as Hret.
  { intros Ht H. apply true_names_app in Ht as [Ht _]. rewrite <- (Hn Ht t' eq_refl).
    eapply returned_mono; [|exact H]. intros x Hx. apply in_app_iff. by right. }
  destruct r as [u|e]; cbn in Hr.
  - apply does_try. eapply does_mono; [|apply does_True]. intros r' es2 _.
    assert (true_names (es ++ es1 ++ es2) -> in_order_for name (task_Name t) true (es ++ es1 ++ es2)) as H.
    { rewrite app_assoc. intros Ht. apply true_names_app in Ht as [Ht _]. specialize (Hret Ht Hr). split; [|by intros _; apply Hmono].
      apply writes_after_one; [done|by apply Forall_app|done]. }
    destruct r' as [o|e]; cbn; rewrite ?app_nil_r; intros Ht; [by apply H|split; [apply H, Ht|done]].
  - destruct (IsNotFound e) eqn:E; cbn; rewrite ?app_nil_r.
    + intros Ht. split; [apply no_status_writes; by apply Forall_app|]. intros _. apply Hret; auto.
    + intros Ht. split; [apply no_status_writes; by apply Forall_app|done].
Qed.

Lemma severed_returns t name :
  does (let? _ := SeverIssueFromTask t name SeverOrphan in ok tt)
    (fun r es => true_names es -> in_order_for name (task_Name t) (is_ok r) es).
Proof.
  apply does_try. eapply does_mono; [|apply sever_returns]. intros [t'|e] es H; [|exact H]. cbn. by rewrite app_nil_r.
Qed.

(** A read of a Task is known by its name and its answer. *)
Lemma did_task_inj n t n' t' : did (GetTask Cached n) (Ok t) = did (GetTask Cached n') (Ok t') -> n = n' /\ t = t'.
Proof.
  intros E. split.
  - apply (f_equal (fun d => match did_call d with GetTask _ n => n | _ => n' end)) in E. exact E.
  - apply (f_equal (fun d => match did_call d in Call X return X -> Task with
                             | GetTask _ _ => fun r => match r with Ok t => t | Err _ => t' end
                             | _ => fun _ => t'
                             end (did_answer d))) in E. exact E.
Qed.

Lemma did_task_head n t n' t' rest rest' :
  did (GetTask Cached n) (Ok t) :: rest = did (GetTask Cached n') (Ok t') :: rest' -> n = n' /\ t = t'.
Proof. intros E. apply did_task_inj. exact (f_equal (List.hd (did ContextDone true)) E). Qed.

(** Nothing else is such a read. *)
Lemma not_that_read d rest n t rest' : task_was_read d = false -> d :: rest <> did (GetTask Cached n) (Ok t) :: rest'.
Proof. intros H E. apply (f_equal (List.hd (did ContextDone true))) in E. cbn in E. by rewrite E in H. Qed.

(** ** The theorems *)

(** the undo of a declined proposal is crash safe by its order: in every run whose first
    read finds the Task that the decline has left as the owner of the mirror, the status of
    the mirror is written only after that Task no longer controls it, so that wherever the
    run is cut the mirror is still rejected or is without its dead owner, and both are taken
    up again. *)
Theorem reopening_orphans_first (iss : Issue) (botLogin : string) (w : World Call) (owner : string) (t : Task)
    (rest : list (Did Call)) :
  let es := snd (run w (reopenRetainedProposal iss botLogin)) in
  true_names es -> es = did (GetTask Cached owner) (Ok t) :: rest -> severedButStillOwned t iss = true ->
  writes_after (returned (iss_Name iss) owner) [] es.
Proof.
  cbv zeta. revert owner t rest.
  apply (run_does w (reopenRetainedProposal iss botLogin) (fun _ es => forall owner t rest, true_names es ->
    es = did (GetTask Cached owner) (Ok t) :: rest -> severedButStillOwned t iss = true ->
    writes_after (returned (iss_Name iss) owner) [] es)).
  unfold reopenRetainedProposal, return_mirror. destruct (_ != _); [by intros|]. destruct (_ != _); [by intros|].
  destruct (ControllerOwner (owners iss)) as [name|] eqn:Ec.
  - intros [t|e]; cbn [try bind found api ok fail].
    + destruct (severedButStillOwned t iss) eqn:Es.
      * apply does_try. eapply does_mono; [|apply (severed_returns t (iss_Name iss))]. intros r es Hr.
        assert (forall es', is_ok r = true \/ es' = [] -> forall owner t0 rest,
          true_names (did (GetTask Cached name) (Ok t) :: es ++ es') ->
          did (GetTask Cached name) (Ok t) :: es ++ es' = did (GetTask Cached owner) (Ok t0) :: rest ->
          severedButStillOwned t0 iss = true ->
          writes_after (returned (iss_Name iss) owner) [] (did (GetTask Cached name) (Ok t) :: es ++ es')) as H.
        { intros es' Hok owner t0 rest Ht E _. destruct (did_task_head _ _ _ _ _ _ E) as [<- <-].
          assert (task_Name t = name) as En by (apply (Ht Cached name t); by left).
          assert (true_names es) as Ht'. { intros v n t' Hin. apply (Ht v n t'). right. apply in_app_iff. by left. }
          destruct (Hr Ht') as [Hw Hret]. rewrite En in *. split; [done|]. apply guarded_app. split.
          - apply (guarded_past _ [_] es); [|exact Hw]. intros past d Hd Hs. eapply returned_mono; [|exact (Hd Hs)].
            apply incl_appr, incl_refl.
          - destruct Hok as [Hok| ->]; [|done]. apply writes_once.
            + intros l l'. apply returned_mono, incl_appl, incl_refl.
            + eapply returned_mono; [|exact (Hret Hok)]. apply incl_appr, incl_refl. }
        destruct r as [u|e].
        -- eapply does_mono; [|apply does_True]. intros r' es' _. apply H. by left.
        -- specialize (H [] (or_intror eq_refl)). rewrite app_nil_r in H. exact H.
      * eapply does_mono; [|apply does_True]. intros r es _ owner t0 rest _ E Es'.
        destruct (did_task_head _ _ _ _ _ _ E) as [_ <-]. congruence.
    + eapply does_mono; [|apply does_True]. intros r es _ owner t0 rest _ E _. by apply not_that_read in E.
  - intros x. eapply does_mono; [|apply does_True]. intros r es _ owner t0 rest _ E _. by apply not_that_read in E.
Qed.

(** ** Witnesses *)

Lemma reopening_orphans_first_witness :
  writes_after (returned "i" "t") [] (snd (run half_undone (reopenRetainedProposal declined_issue "bot")))
  /\ List.filter (fun d => is_set (status_write d)) (snd (run half_undone (reopenRetainedProposal declined_issue "bot"))) <> [].
Proof.
  split; [|by vm_compute].
  eapply (reopening_orphans_first declined_issue "bot" half_undone "t" letting_go).
  - intros v n t. assert (forall d, In d (snd (run half_undone (reopenRetainedProposal declined_issue "bot"))) ->
      match did_call d in Call X return X -> Prop with
      | GetTask _ n => fun r => match r with Ok t => task_Name t = n | Err _ => True end
      | _ => fun _ => True
      end (did_answer d)) as H; [|intros Hin; exact (H _ Hin)].
    apply List.Forall_forall. vm_compute. repeat constructor.
  - vm_compute. reflexivity.
  - vm_compute. reflexivity.
Defined.
