(* ===== verification/Adopt.v ===== *)
(** * Adoption and takeover (internal/controller/upgrade_adopt.go, takeover_mint.go): the
    Task that takes over a dependency bot's merge request, and the one that takes over a
    merge request at a maintainer's word. *)

From Stdlib Require Import String Ascii.
From S2P Require Import Prelude GoTime Text Limits Api Vocabulary Machine Park ObjBudget Own Transition Logins Names Seq Queue Refs Corridor Merge LivePods Drivers Calls Release Mirror Intake Goals.

Open Scope Z_scope.
Open Scope go_scope.

Definition AdoptedUpgradeKind : string := "upgrade".
Definition AdoptedSignificanceFloor : string := "patch".
Definition takeoverKind : string := kindTakeover.

(** ** The queued form of a pull request *)

Definition ClampAdoptedUpgradeBody (body : string) : string := TruncateUTF8 body MergeRequestBodyMaxBytes.

Definition AdoptedUpgradeRefFromPR (pr : PRRef) : AdoptedUpgradeRef :=
  mkAdoptedUpgradeRef (prr_Number pr) (prr_Title pr) (prr_Author pr) (prr_HeadSHA pr) (prr_HeadBranch pr)
    (ClampAdoptedUpgradeBody (prr_Body pr)) (prr_Labels pr) (prr_Repo pr) (prr_HeadRepo pr).

Definition PRRefFromAdopted (a : option AdoptedUpgradeRef) : PRRef :=
  match a with
  | None => mkPRRef "" 0 "" "" "" "" "" [] "" 0
  | Some a => mkPRRef (au_Repo a) (au_Number a) (au_Title a) (au_Author a) (au_HeadSHA a) (au_HeadBranch a) (au_HeadRepo a)
                (au_Labels a) (au_Body a) 0
  end.

Definition adoptedTaskLabels (stamp : gmap string string) : gmap string string :=
  <[LabelUpgradeOrigin := UpgradeOriginAdopted]> stamp.

Section Adopt.

(** [strings.ToLower] beyond ASCII, [strconv.Quote] and the path of [url.Parse]; the sizes
    of the mirrors and the spiller; the view of [m.reader()]; whether metrics are wired. *)
Context (unicodeLower Quote : string -> string) (parse : string -> option string) (mrSize : MergeRequest -> option Z)
  (sp : option (Spiller Comment)) (reader : View) (m : bool) (proj : Project).

(** ** Adoption *)

Definition AdoptedUpgradeTaskName (repo : string) (number : Z) : string :=
  IntakeTaskName unicodeLower (proj_Name proj) AdoptedUpgradeKind repo number.

Definition seed_significance (mr : MergeRequest) : MergeRequest :=
  mr <| mr_Status ::= fun s => s <| mr_Significance ::= fun g => if g == "" then AdoptedSignificanceFloor else g |> |>.

Definition seedAdoptedSemverFloor (mrName : string) : Io unit :=
  let? _ := fitMergeRequest mrSize sp mrName seed_significance in ok tt.

Definition convergeAdoptedMint (repo : Repository) (ext : ScmMergeRequest) (task : Task) : Io unit :=
  let? _ := repairMRBinding mrSize sp proj repo ext task in
  seedAdoptedSemverFloor (MergeRequestName (repo_Name repo) (sm_Number ext)).

Definition adopted_slug (repo : Repository) : string :=
  match ghOwnerRepo (parse (repo_URL repo)) with
  | Some (o, n) => sprintf [o; "/"; n]
  | None => repo_Name repo
  end.

Definition adopted_task (repo : Repository) (pr : PRRef) (stamp : gmap string string) : Task :=
  let ext := mrSnapshot proj repo pr in
  let source := mkTaskSource (provider_of proj) (sm_URL ext) (sm_URL ext) (prr_Author pr) true (prr_Number pr)
                  (prr_HeadSHA pr) (prr_Title pr) in
  let task := zero_Task <| task_Name := AdoptedUpgradeTaskName (repo_Name repo) (prr_Number pr) |>
    <| Labels := adoptedTaskLabels stamp |>
    <| Annotations := {[ AnnTakeoverHeadBranch := prr_HeadBranch pr ]} |>
    <| Spec ::= fun s => s <| ProjectRef := proj_Name proj |> <| RepositoryRef := repo_Name repo |>
         <| Kind := AdoptedUpgradeKind |>
         <| Goal := GoalAdopted Quote (adopted_slug repo) (prr_HeadBranch pr) (prr_Title pr) (prr_Number pr) (proj_UpgradePolicy proj) |>
         <| InitialState := StateNew |> <| MergeOrder := [repo_Name repo] |> <| Source := Some source |> |> in
  StampPodName unicodeLower task (proj_Name proj) (repo_Name repo).

(** No Task with the outcome of a tombstone: the mint is still owed. *)
Definition MintAdoptedUpgradeTask (repo : Repository) (pr : PRRef) (stamp : gmap string string)
  : Io (option Task * MintOutcome) :=
  let name := AdoptedUpgradeTaskName (repo_Name repo) (prr_Number pr) in
  let ext := mrSnapshot proj repo pr in
  let? existing := found (api (GetTask Cached name)) in
  match existing with
  | Some existing =>
      let? _ := convergeAdoptedMint repo ext existing in ok (Some existing, MintExistingLive)
  | None =>
      let task := adopted_task repo pr stamp in
      let? _ := set_project_owner task in
      let? (outcome, task, twin) := createTaskRaceSafe reader task in
      match outcome, twin with
      | MintExistingLive, Some twin =>
          let? _ := convergeAdoptedMint repo ext twin in ok (Some twin, MintExistingLive)
      | MintTombstoneDeleted, _ => ok (None, MintTombstoneDeleted)
      | _, _ =>
          let mrName := MergeRequestName (repo_Name repo) (prr_Number pr) in
          let? _ := bindMRToTask mrSize sp proj repo ext task "" in
          let? task := stampMintStatus task (fun fresh => on_status fresh (fun s => s <| MRRefs ::= add_ref mrName |>)) in
          let? _ := seedAdoptedSemverFloor mrName in
          ok (Some task, MintCreated)
      end
  end.

(** ** Takeover *)

Definition TakeoverTaskName (repo : Repository) (number : Z) : string :=
  IntakeTaskName unicodeLower (proj_Name proj) takeoverKind (repo_Name repo) number.

Definition mrExtFromMR (mr : MergeRequest) : ScmMergeRequest :=
  let s := mr_Status mr in
  mkScmMergeRequest (mrs_Number (mr_Spec mr)) (mrs_URL (mr_Spec mr)) (mr_Title s) (mr_Author s) (mr_Body s) "open"
    (mr_HeadBranch s) (mr_HeadSHA s) (mr_CIStatus s) (mr_Mergeable s) 0 0 None [].

Definition takeoverGoal (mr : MergeRequest) (user comment : string) : string :=
  sprintf ["Take over "; mrs_URL (mr_Spec mr); " at @"; user; "'s request. Triggering comment:"; newline; newline; comment].

Definition bindAndStampTakeoverMR (repo : Repository) (mr : MergeRequest) (task : Task) (expectFrom : string) : Io Task :=
  let? _ := bindMRToTask mrSize sp proj repo (mrExtFromMR mr) task expectFrom in
  stampMRRef task (MergeRequestName (repo_Name repo) (mrs_Number (mr_Spec mr))).

(** An interrupted binding is made up for. *)
Definition backfill (repo : Repository) (mr : MergeRequest) (task : Task) (expectFrom : string) : Io Task :=
  match MRRefs (Status task) with
  | [] => bindAndStampTakeoverMR repo mr task expectFrom
  | _ => ok task
  end.

Definition takeover_task (repo : Repository) (mr : MergeRequest) (user comment : string) : Task :=
  let s := mr_Status mr in
  let source := mkTaskSource (provider_of proj) (mrs_URL (mr_Spec mr)) (mrs_URL (mr_Spec mr)) (mr_Author s) true
                  (mrs_Number (mr_Spec mr)) (mr_HeadSHA s) (mr_Title s) in
  let task := zero_Task <| task_Name := TakeoverTaskName repo (mrs_Number (mr_Spec mr)) |>
    <| Annotations := {[ AnnTakeoverHeadBranch := mr_HeadBranch s ]} |>
    <| Spec ::= fun s => s <| ProjectRef := proj_Name proj |> <| RepositoryRef := repo_Name repo |> <| Kind := takeoverKind |>
         <| Goal := takeoverGoal mr user comment |> <| InitialState := StateUnderImplementation |>
         <| MergeOrder := [repo_Name repo] |> <| Source := Some source |> |> in
  StampPodName unicodeLower task (proj_Name proj) (repo_Name repo).

(** [retries]: how often the name may still turn out to be a dead twin's. *)
Fixpoint mintOrUnparkTakeoverTask (retries : nat) (repo : Repository) (mr : MergeRequest) (user comment expectFrom : string)
  : Io Task :=
  let name := TakeoverTaskName repo (mrs_Number (mr_Spec mr)) in
  let? existing := found (api (GetTask Cached name)) in
  match existing with
  | Some existing =>
      let? existing := (if ParkReason (Status existing) == ReasonOwnershipLost
                        then Do TimeNow (fun now : Time => choke (task_Name existing) (fun w =>
                               UnparkTakeoverTask w m existing StateUnderImplementation now))
                        else ok existing) in
      backfill repo mr existing expectFrom
  | None =>
      let task := takeover_task repo mr user comment in
      let? _ := set_project_owner task in
      let? (outcome, task, twin) := createTaskRaceSafe reader task in
      match outcome, twin with
      | MintExistingLive, Some twin => backfill repo mr twin expectFrom
      | MintTombstoneDeleted, _ =>
          match retries with
          | O => fail (NameStillHeld name)
          | S retries => mintOrUnparkTakeoverTask retries repo mr user comment expectFrom
          end
      | _, _ => bindAndStampTakeoverMR repo mr task expectFrom
      end
  end.

Definition MintOrUnparkTakeoverTask := mintOrUnparkTakeoverTask 1.

End Adopt.

(** ** Lemmas *)

Lemma keeps_excuse {A} reader (exc : string -> Prop) (p : Io A) :
  keeps (all_fair reader nobody) p -> keeps (all_fair reader exc) p.
Proof. apply does_mono. intros a es. apply fair_excuse. by intros c []. Qed.

Section Lemmas.

Context (unicodeLower Quote : string -> string) (parse : string -> option string) (mrSize : MergeRequest -> option Z)
  (sp : option (Spiller Comment)) (reader : View) (m : bool) (proj : Project).

Lemma bindMRToTask_from repo ext task from : keeps (all_fair reader (eq from)) (bindMRToTask mrSize sp proj repo ext task from).
Proof.
  unfold bindMRToTask. apply keeps_try; [apply _|apply keeps_excuse, SyncMergeRequest_fair|].
  intros _. apply ownMergeRequest_fair.
Qed.

Lemma bindAndStamp_from repo mr task from : keeps (all_fair reader (eq from)) (bindAndStampTakeoverMR mrSize sp proj repo mr task from).
Proof.
  unfold bindAndStampTakeoverMR. apply keeps_try; [apply _|apply bindMRToTask_from|].
  intros _. apply keeps_excuse, stampIfChanged_fair.
Qed.

Lemma backfill_from repo mr task from : keeps (all_fair reader (eq from)) (backfill mrSize sp proj repo mr task from).
Proof. unfold backfill. destruct (MRRefs _); [apply bindAndStamp_from|apply keeps_ret, _]. Qed.

Lemma takeover_from repo mr user comment from : forall retries,
  keeps (all_fair reader (eq from))
    (mintOrUnparkTakeoverTask unicodeLower mrSize sp reader m proj retries repo mr user comment from).
Proof.
  assert (forall A (p : Io A), each (fun d => forall es, fair reader nobody es d) p -> keeps (all_fair reader (eq from)) p) as Hs.
  { intros A p Hp. apply keeps_excuse. eapply does_mono; [|exact Hp]. intros a es H. eapply Forall_impl; [exact H|]. auto. }
  induction retries as [|retries IH]; cbn [mintOrUnparkTakeoverTask]; (apply keeps_try; [apply _|apply Hs; each_go ltac:(done)|]).
  all: intros [existing|]; [apply keeps_try; [apply _|apply Hs; each_go ltac:(done)|]; intros t; apply backfill_from|].
  all: apply keeps_try; [apply _|apply Hs; unfold set_project_owner; each_go ltac:(done)|]; intros _.
  all: apply keeps_try; [apply _|apply keeps_excuse, createTaskRaceSafe_fair|]; intros [[o t] twin].
  all: destruct o, twin; try apply bindAndStamp_from; try apply backfill_from; try exact IH; apply keeps_ret, _.
Qed.

End Lemmas.

(** ** The theorems *)

(** a takeover takes a merge request from nobody but the Task it was told to take it
    from: in every run, each write of an Issue or MergeRequest is of an object the run has
    read, and its controller keeps it unless it is that Task, or one the run has read as
    gone or finished. *)
Theorem takeover_takes_what_it_was_given (unicodeLower : string -> string) (mrSize : MergeRequest -> option Z)
    (sp : option (Spiller Comment)) (reader : View) (m : bool) (proj : Project) (repo : Repository) (mr : MergeRequest)
    (user comment expectFrom : string) (w : World Call) :
  all_fair reader (eq expectFrom)
    (snd (run w (MintOrUnparkTakeoverTask unicodeLower mrSize sp reader m proj repo mr user comment expectFrom))).
Proof. exact (run_does w _ (fun _ es => all_fair reader (eq expectFrom) es) (takeover_from _ _ _ _ _ _ _ _ _ _ _ _)). Qed.

(** the queue gives back the pull request it was given, but for the cut of its body and
    the time of its last change; a queued reference is left as it is by the way back. *)
Theorem adopted_ref_roundtrip :
  (forall pr : PRRef, PRRefFromAdopted (Some (AdoptedUpgradeRefFromPR pr))
     = mkPRRef (prr_Repo pr) (prr_Number pr) (prr_Title pr) (prr_Author pr) (prr_HeadSHA pr) (prr_HeadBranch pr) (prr_HeadRepo pr)
         (prr_Labels pr) (TruncateUTF8 (prr_Body pr) MergeRequestBodyMaxBytes) 0)
  /\ (forall a : AdoptedUpgradeRef, strlen (au_Body a) <= MergeRequestBodyMaxBytes ->
        AdoptedUpgradeRefFromPR (PRRefFromAdopted (Some a)) = a).
Proof.
  split; [done|]. intros a Ha. destruct a. unfold AdoptedUpgradeRefFromPR, ClampAdoptedUpgradeBody, TruncateUTF8. cbn in *.
  unfold strlen in Ha. by rewrite (proj2 (Z.leb_le _ _) Ha).
Qed.
