(* ===== verification/Ownership.v ===== *)
(** * Who owns a merge request (internal/controller/ownership.go, ownership_redeliver.go): the
    stand-down when somebody else pushes, the hand-back to a review Task, and the comments
    a person writes on a merge request the platform does not own. *)

From Stdlib Require Import String Ascii.
From S2P Require Import Prelude GoTime Text Limits Api Vocabulary Machine Park ObjBudget Own Transition Logins Names Seq Queue Refs Corridor Merge LivePods Escalate Drivers Calls Release Reaper Mirror Intake Events Adopt.

Open Scope Z_scope.
Open Scope go_scope.

Definition adoptedPushReasonPrefix : string := "adopted-external-push:".

Definition isExternalPushReason (reason : string) : bool :=
  HasPrefix reason externalPushReasonPrefix || HasPrefix reason adoptedPushReasonPrefix.

Definition ownershipForAuthor (proj : Project) (author : string) : string :=
  if adoptableAuthor proj author then OwnershipTatara else OwnershipExternal.

Section Ownership.

(** [strings.ToLower], and beyond ASCII; the path of [url.Parse]; the sizes of the mirrors,
    the spiller; the view of the driver's reader; whether metrics are wired. *)
Context (toLower unicodeLower : string -> string) (parse : string -> option string) (mrSize : MergeRequest -> option Z)
  (sp : option (Spiller Comment)) (reader : View) (m : bool) (proj : Project).

(** ** Parking the owner, and handing the merge request back *)

Definition tataraOwnDeliverableMR (mr : MergeRequest) (owner : option Task) : bool :=
  match owner with
  | None => false
  | Some owner =>
      let bot := botLoginOf proj in
      if (bot == "") || (mr_Author (mr_Status mr) != bot) then false
      else (mr_HeadBranch (mr_Status mr) != "") && (mr_HeadBranch (mr_Status mr) == TaskBranch toLower owner)
  end.

(** A fold of the mirror, and the copy the caller goes on with. *)
Definition fold_mr (mr : MergeRequest) (f : MergeRequestStatus -> MergeRequestStatus) : Io unit :=
  let? _ := fitMergeRequest mrSize sp (mr_Name mr) (fun cur => cur <| mr_Status ::= f |>) in ok tt.

Definition retainOnHumanAssist (mr : MergeRequest) (liveHead : string) : Io unit :=
  let? _ := fold_mr mr (fun s => s <| mr_LastBotHeadSHA := liveHead |> <| mr_LastExternalAssistSHA := liveHead |>) in
  tell (Count "mr_ownership_human_assist" [mrs_RepositoryRef (mr_Spec mr); FormatInt (mrs_Number (mr_Spec mr))]).

Definition ownerTaskOf (mr : MergeRequest) : Io (option Task) :=
  match ControllerOwner (owners mr) with
  | None => ok None
  | Some ownerName => found (api (GetTask reader ownerName))
  end.

Definition park_task (task : Task) (reason : string) : Io unit :=
  Do TimeNow (fun now : Time => let? _ := choke (task_Name task) (fun w => ParkTask w m task reason now None) in ok tt).

(** A review Task, a finished one and a parked one keep their state, but for the takeover
    that has declined, whose park is raised. *)
Definition parkOwnerTask (task : Task) : Io unit :=
  if (Kind (Spec task) == SweepReviewKind) || TaskDone task then ok tt
  else if Parked task then
    if (Kind (Spec task) == takeoverKind) && (ParkReason (Status task) == ReasonImplementDeclined) then
      Do TimeNow (fun now : Time =>
        let? _ := choke (task_Name task) (fun w => UpgradeDeclinedTakeoverPark w task now) in ok tt)
    else ok tt
  else park_task task ReasonOwnershipLost.

Definition reMintReviewOwner (repo : Repository) (mr : MergeRequest) : Io unit :=
  let prevOwner := default ""%string (ControllerOwner (owners mr)) in
  let pr := prRefFromMR parse repo mr in
  let '(stg, reason) := MintReviewStage (Some mr) in
  let? (_, outcome) := MintReviewTask unicodeLower mrSize sp reader m proj repo pr (Some mr) stg reason prevOwner in
  match outcome with
  | MintTombstoneDeleted => fail (MintStillOwed (mr_Name mr))
  | _ => ok tt
  end.

(** The control goes to the review Task, from whoever has it now. *)
Definition to_review (review : Task) (reviewName : string) (fresh : MergeRequest) : result Fail (MergeRequest * unit) :=
  let prev := default ""%string (ControllerOwner (owners fresh)) in
  let from := if (prev != "") && (prev != reviewName) then Some prev else None in
  let '(_, refs) := AddPlainOwner (owners fresh) (task_Name review) (task_UID review) in
  match HandOverController refs from (Some (task_Name review)) with
  | Ok refs => Ok (with_owners refs fresh, tt)
  | Err e => Err (OwnerFault e)
  end.

Definition handBackToReviewTask (repo : Repository) (mr : MergeRequest) : Io unit :=
  let reviewName := IntakeTaskName unicodeLower (proj_Name proj) SweepReviewKind (repo_Name repo) (mrs_Number (mr_Spec mr)) in
  let? review := found (api (GetTask Cached reviewName)) in
  match review with
  | None => reMintReviewOwner repo mr
  | Some review => let? _ := MutateArtifactOwnerRefs mr (to_review review reviewName) in ok tt
  end.

Definition parkAndHandBack (repo : Repository) (mr : MergeRequest) : Io unit :=
  match ControllerOwner (owners mr) with
  | None => ok tt
  | Some ownerName =>
      let? task := found (api (GetTask Cached ownerName)) in
      let? _ := (match task with Some t => parkOwnerTask t | None => ok tt end) in
      handBackToReviewTask repo mr
  end.

(** ** The stand-down *)

Definition resumeFlipToExternal (repo : Repository) (mr : MergeRequest) : Io unit :=
  match ControllerOwner (owners mr) with
  | None => ok tt
  | Some ownerName =>
      let? task := found (api (GetTask Cached ownerName)) in
      match task with
      | Some t => if Kind (Spec t) == SweepReviewKind then ok tt else parkAndHandBack repo mr
      | None => parkAndHandBack repo mr
      end
  end.

Definition stand_down (reason : string) (now : Time) (s : MergeRequestStatus) : MergeRequestStatus :=
  s <| mr_Ownership := OwnershipExternal |> <| mr_OwnershipReason := reason |> <| mr_OwnershipChangedAt := Some now |>.

Definition flipToExternal (repo : Repository) (mr : MergeRequest) (liveHead : string) (adopted : bool) : Io bool :=
  Do TimeNow (fun now : Time =>
    let prefix := if adopted then adoptedPushReasonPrefix else externalPushReasonPrefix in
    let reason := String.append prefix liveHead in
    let? _ := fold_mr mr (stand_down reason now) in
    let mr := mr <| mr_Status ::= stand_down reason now |> in
    let? _ := parkAndHandBack repo mr in
    let? _ := tell (Count "mr_ownership_flip" ["to-external"; "external-push"]) in
    ok true).

(** ** Comments on a merge request of somebody else *)

(** The owner is driven once more where it waits for a word; no error is returned. *)
Definition driveOwnerReentry (ownerName : string) : Prog Call unit :=
  Do (GetTask Cached ownerName) (fun r =>
    match r with
    | Err _ => Ret tt
    | Ok task =>
        let reason := ParkReason (Status task) in
        if negb (Parked task) || ((reason != ReasonAwaitingHuman) && (reason != ReasonBacklogSweep)
                                  && (reason != ReasonIdentityUnverified)) then Ret tt
        else
          Do ListTasks (fun l =>
            match CountActiveTasks proj (match l with Ok l => Some l | Err _ => None end) with
            | None => Ret tt
            | Some active =>
                let! liveRoom := (if NeedsLiveRoom reason
                                  then Do ListTasks (fun l =>
                                         Ret (default false (LiveHasRoom proj (match l with Ok l => Some l | Err _ => None end))))
                                  else Ret false) in
                Do TimeNow (fun now : Time =>
                  Do (UnparkAnswers (task_Name task)) (fun aw =>
                    let '(_, _, es) := ApplyUnpark proj now now now aw task active (max_open proj) liveRoom in
                    Do (UnparkEffects (task_Name task) es) (fun _ => Ret tt)))
            end)
    end).

Definition mirrored (c : IssueComment) : Comment :=
  mkComment (ic_ExternalID c) (ic_Author c) (ic_Body c) (ic_CreatedAt c) false false "" "" 0 "" 0.

(** Told to the owner, where it still exists. *)
Definition tell_owner (repo : Repository) (mr : MergeRequest) (ownerName : string) (c : IssueComment) : Io bool :=
  let? task := found (api (GetTask Cached ownerName)) in
  match task with
  | None => ok false
  | Some task =>
      Do TimeNow (fun now : Time =>
        let ev := mkTaskEvent now "mr_comment" (repo_Name repo) (mrs_Number (mr_Spec mr)) (ic_Author c) (ic_Body c) None in
        let? _ := AppendTaskEvent task ev in ok true)
  end.

Definition own_comment (c : IssueComment) : bool :=
  match proj_Scm proj with Some s => ic_Author c == scm_BotLogin s | None => false end.

(** One comment: the newest that was dealt with, and whether any was told to the owner. *)
Definition redeliver_one (repo : Repository) (mr : MergeRequest) (ownerName : string) (s : string * bool) (c : IssueComment)
  : Io (string * bool) :=
  let '(newest, delivered) := s in
  if (ic_ExternalID c == "") || (ic_ExternalID c == mr_LastMirroredCommentID (mr_Status mr)) then ok (newest, delivered)
  else if own_comment c then ok (ic_ExternalID c, delivered)
  else
    let? _ := append_to_mr mrSize sp (mr_Name mr) (mirrored c) in
    let? told := (if ownerName != "" then tell_owner repo mr ownerName c else ok false) in
    ok (ic_ExternalID c, delivered || told).

Definition redeliverMRComments (repo : Repository) (mr : MergeRequest) (incoming : list IssueComment) : Io unit :=
  let? (ownerName, mr) := resolveLiveOwner reader SweepActivity proj mr in
  let? ownerName := (match incoming with
                     | c :: _ =>
                         if ownerName == "" then
                           let? (newOwner, _) := EnsureTaskForMRComment unicodeLower mrSize sp reader m SweepActivity proj parse
                                                   repo mr (ic_Author c) in
                           ok newOwner
                         else ok ownerName
                     | [] => ok ownerName
                     end) in
  let cursor := mr_LastMirroredCommentID (mr_Status mr) in
  let? (newest, delivered) := fold_prog incoming (cursor, false) (redeliver_one repo mr ownerName) in
  let! _ := (if delivered : bool then driveOwnerReentry ownerName else Ret tt) in
  if newest != cursor then fold_mr mr (fun s => s <| mr_LastMirroredCommentID := newest |>) else ok tt.

(** ** One pass over a merge request *)

(** The first classification, and the head it takes for the bot's own. *)
Definition classified (cls liveHead : string) (s : MergeRequestStatus) : MergeRequestStatus :=
  let s := s <| mr_Ownership := cls |> <| mr_OwnershipReason := "initial"%string |> in
  if (cls == OwnershipTatara) && (liveHead != "") then s <| mr_LastBotHeadSHA := liveHead |> else s.

Definition classify (mr : MergeRequest) (liveHead : string) : Io MergeRequest :=
  if mr_Ownership (mr_Status mr) != "" then ok mr
  else
    let cls := ownershipForAuthor proj (mr_Author (mr_Status mr)) in
    let? _ := fold_mr mr (fun s => if mr_Ownership s == "" then classified cls liveHead s else s) in
    ok (mr <| mr_Status ::= classified cls liveHead |>).

(** Whether the merge request was stood down. *)
Definition ReconcileOwnership (repo : Repository) (mr : MergeRequest) (liveHead : string) (newComments : list IssueComment)
  : Io bool :=
  if mr_State (mr_Status mr) != "open" then ok false
  else
    let? mr := classify mr liveHead in
    let s := mr_Status mr in
    if (mr_Ownership s == OwnershipTatara) && (liveHead != "") && (mr_LastBotHeadSHA s == "") then
      let? _ := fold_mr mr (fun s => if mr_LastBotHeadSHA s == "" then s <| mr_LastBotHeadSHA := liveHead |> else s) in
      ok false
    else if (mr_Ownership s == OwnershipTatara) && (liveHead != "") && (liveHead != mr_LastBotHeadSHA s) then
      let? owner := ownerTaskOf mr in
      let adopted := AdoptedUpgrade owner in
      if negb adopted && tataraOwnDeliverableMR mr owner then
        let? _ := retainOnHumanAssist mr liveHead in ok false
      else flipToExternal repo mr liveHead adopted
    else if mr_Ownership s == OwnershipExternal then
      let? _ := (if isExternalPushReason (mr_OwnershipReason s) then resumeFlipToExternal repo mr else ok tt) in
      match newComments with
      | [] => ok false
      | _ => let? _ := redeliverMRComments repo mr newComments in ok false
      end
    else ok false.

End Ownership.

(** ** What the theorems say *)

(** A merge request that may be stood down: open and the platform's own, with a head the
    platform knows and another one live. *)
Definition drifted (mr : MergeRequest) (liveHead : string) : Prop :=
  let s := mr_Status mr in
  mr_State s = "open"%string /\ mr_Ownership s = OwnershipTatara /\ mr_LastBotHeadSHA s <> ""%string
  /\ liveHead <> ""%string /\ liveHead <> mr_LastBotHeadSHA s.

(** Nobody drives it as the platform's own work: it has no controller, its controller was
    read as gone, or was read as a Task that adopted it or whose branch it is not. *)
Definition not_ours_to_keep (toLower : string -> string) (reader : View) (proj : Project) (mr : MergeRequest)
    (es : list (Did Call)) : Prop :=
  match ControllerOwner (owners mr) with
  | None => True
  | Some o =>
      In (did (GetTask reader o) (Err ApiMissing)) es
      \/ exists t, In (did (GetTask reader o) (Ok t)) es
           /\ (AdoptedUpgrade (Some t) = true \/ tataraOwnDeliverableMR toLower proj mr (Some t) = false)
  end.

(** A merge request of the platform's that nobody drives, and an outside that takes writes. *)
Definition pushed_over : MergeRequest :=
  zero_MergeRequest <| mr_Name := "m"%string |>
    <| mr_Status ::= fun s => s <| mr_State := "open"%string |> <| mr_Ownership := OwnershipTatara |>
                               <| mr_LastBotHeadSHA := "a"%string |> |>.

Definition pushing (past : list (Did Call)) (X : Type) (c : Call X) : X :=
  match c in Call Y return Y with
  | MergeRequestAnswers _ => ([ObjBudget.Found pushed_over], [mkAttempt (Some pushed_over) UpdateOk])
  | c => nowhere c
  end.

(** ** Lemmas *)

Lemma does_try_quiet {A B} (p : Io A) (f : A -> Io B) (R : result Fail B -> list (Did Call) -> Prop) :
  (forall e es, R (Err e) es) -> (forall a, does (f a) (fun r es => forall before, R r (before ++ es))) -> does (try p f) R.
Proof.
  intros He Hf. apply does_try. eapply does_mono; [|apply does_True]. intros [a|e] es _; [|apply He].
  eapply does_mono; [|exact (Hf a)]. intros r es' H. apply H.
Qed.

Lemma never_true (p : Io unit) : does (let? _ := p in ok false) (fun r _ => r <> Ok true).
Proof. apply does_try_quiet; [done|]. by intros a. Qed.

Lemma never_external (p : Io unit) (c : list IssueComment) (q : Io unit) :
  does (let? _ := p in match c with [] => ok false | _ => let? _ := q in ok false end) (fun r _ => r <> Ok true).
Proof. apply does_try_quiet; [done|]. intros _. destruct c; [by intros|]. eapply does_mono; [|apply never_true]. by intros. Qed.

Lemma classified_head cls liveHead s :
  (mr_Ownership (classified cls liveHead s) == OwnershipTatara) && (liveHead != "") = true ->
  mr_LastBotHeadSHA (classified cls liveHead s) = liveHead.
Proof.
  unfold classified. destruct (cls == OwnershipTatara) eqn:E, (liveHead != "") eqn:El; try done; cbn [andb];
    try (rewrite andb_false_r; done). change (mr_Ownership _) with cls. by rewrite E.
Qed.

Lemma ownerTaskOf_reads reader (mr : MergeRequest) :
  does (ownerTaskOf reader mr) (fun r es => forall owner, r = Ok owner ->
    match ControllerOwner (owners mr) with
    | None => owner = None
    | Some o => owner = None /\ In (did (GetTask reader o) (Err ApiMissing)) es
                \/ exists t, owner = Some t /\ In (did (GetTask reader o) (Ok t)) es
    end).
Proof.
  unfold ownerTaskOf. destruct (ControllerOwner (owners mr)) as [o|]; [|by intros owner [= <-]].
  intros [t|[]]; cbn [bind found api ok fail IsNotFound]; intros owner [=]; subst.
  - right. exists t. split; [done|by left].
  - left. split; [done|by left].
Qed.

(** ** The theorems *)

(** a merge request is stood down only when somebody else has pushed to it: where a pass
    answers that it stood one down, the merge request was open and owned by the platform, its
    live head is not the one the platform knows, and it is not the deliverable of the Task
    that controls it, unless that Task has adopted it. *)
Theorem stands_down_only_on_drift (toLower unicodeLower : string -> string) (parse : string -> option string)
    (mrSize : MergeRequest -> option Z) (sp : option (Spiller Comment)) (reader : View) (m : bool) (proj : Project)
    (repo : Repository) (mr : MergeRequest) (liveHead : string) (newComments : list IssueComment) (w : World Call) :
  let '(r, es) := run w (ReconcileOwnership toLower unicodeLower parse mrSize sp reader m proj repo mr liveHead newComments) in
  r = Ok true -> drifted mr liveHead /\ not_ours_to_keep toLower reader proj mr es.
Proof.
  assert (does (ReconcileOwnership toLower unicodeLower parse mrSize sp reader m proj repo mr liveHead newComments)
    (fun r es => r = Ok true -> drifted mr liveHead /\ not_ours_to_keep toLower reader proj mr es)) as H.
  2: { pose proof (run_does w _ _ H) as Hr. by destruct (run w _). }
  unfold ReconcileOwnership. destruct (mr_State _ != "open") eqn:Eo; [done|]. apply negb_false_iff, String.eqb_eq in Eo.
  unfold classify. destruct (mr_Ownership (mr_Status mr) != "") eqn:Ec; cbn [try bind ok].
  - destruct (_ && _ && (mr_LastBotHeadSHA _ == "")) eqn:E1; [eapply does_mono; [|apply never_true]; by intros|].
    destruct (_ && _ && (liveHead != _)) eqn:E2.
    + apply andb_true_iff in E2 as [E2 Eh]. apply andb_true_iff in E2 as [Ew El]. rewrite Ew, El in E1. cbn in E1.
      apply String.eqb_eq in Ew. apply negb_true_iff, String.eqb_neq in El, Eh. apply String.eqb_neq in E1.
      apply does_try. eapply does_mono; [|apply ownerTaskOf_reads]. intros [owner|e] es Hown; [|done].
      specialize (Hown owner eq_refl). destruct (negb _ && _) eqn:Ek; [eapply does_mono; [|apply never_true]; by intros|].
      eapply does_mono; [|apply does_True]. intros r es' _ _. split; [by repeat split|].
      unfold not_ours_to_keep. destruct (ControllerOwner (owners mr)) as [o|]; [|done].
      destruct Hown as [[-> Hin]|(t & -> & Hin)]; [left; apply in_app_iff; by left|right; exists t].
      split; [apply in_app_iff; by left|]. apply andb_false_iff in Ek as [Ek|Ek]; [left; by apply negb_false_iff|by right].
    + destruct (mr_Ownership _ == OwnershipExternal); [|done]. eapply does_mono; [|apply never_external]. by intros.
  - apply does_try, does_try. eapply does_mono; [|apply does_True]. intros [u|e] es _; [|done]. cbv beta iota.
    set (mr' := mr <| mr_Status ::= _ |>). cbn [ok does].
    assert ((mr_Ownership (mr_Status mr') == OwnershipTatara) && (liveHead != "") = true -> mr_LastBotHeadSHA (mr_Status mr') = liveHead) as Hb.
    { apply classified_head. }
    destruct (_ && (liveHead != "")) eqn:E; cbn [andb].
    + rewrite Hb by done. apply andb_true_iff in E as [_ El]. rewrite String.eqb_refl. cbn [negb].
      apply negb_true_iff in El. rewrite El. destruct (mr_Ownership _ == OwnershipExternal); [|done].
      eapply does_mono; [|apply never_external]. by intros.
    + destruct (mr_Ownership _ == OwnershipExternal); [|done]. eapply does_mono; [|apply never_external]. by intros.
Qed.

(** ** Witnesses *)

Lemma stands_down_only_on_drift_witness : drifted pushed_over "b" /\ drifted pushed_over "c".
Proof.
  assert (forall head, let '(r, es) := run pushing (ReconcileOwnership id id Some (fun _ => Some 0) None Cached false bot_project
    zero_Repository pushed_over head []) in r = Ok true -> drifted pushed_over head /\ not_ours_to_keep id Cached bot_project pushed_over es) as H.
  { intros head. exact (stands_down_only_on_drift id id Some (fun _ => Some 0) None Cached false bot_project zero_Repository
                          pushed_over head [] pushing). }
  split; [specialize (H "b"%string)|specialize (H "c"%string)];
    (destruct (run pushing _) as [r es] eqn:E; refine (proj1 (H _)); vm_compute in E; by injection E as <- _).
Defined.
