(* ===== verification/Sweep.v ===== *)
(** * The sweep of a project (internal/controller/sweep.go): every open Issue and pull
    request the forge lists is looked at once per pass, and gets its Task within the budget
    of the pass, is adopted, or is left with a reason that is counted. *)

From Stdlib Require Import String Ascii.
From S2P Require Import Prelude GoTime Text Limits Api Vocabulary Machine Park ObjBudget Own Transition Logins Names Seq Queue Refs Corridor Merge LivePods Calls Release Reaper Mirror Intake Proposals Adopt Ownership.

Open Scope Z_scope.
Open Scope go_scope.

(** ** The marker of an Issue a person has just opened *)

Definition conflict_or_missing (e : Fail) : bool := IsConflict e || IsNotFound e.

(** [webhookMarkerBackoff]: five steps. *)
Definition marker_retry {A} (body : Io A) : Io A := on_error 4 conflict_or_missing body.

Section Markers.

Context (reader : View) (proj : Project).

(** Whether the marker is live by this call. *)
Definition MarkWebhookOriginated (repo : Repository) (number : Z) (url : string) (now : Time) : Io bool :=
  let stamp := FormatRFC3339 now in
  let? created := ensureIssueCRWithAnnotations proj reader repo number url {[ AnnWebhookOriginated := stamp ]} in
  if created : bool then ok true
  else marker_retry
    (let? iss := api (GetIssue reader (IssueName (repo_Name repo) number)) in
     if is_set (ControllerOwner (owners iss)) then ok false
     else if annotation iss AnnWebhookOriginated != "" then ok false
     else let? _ := write (UpdateIssue (set_annotation iss AnnWebhookOriginated stamp)) in ok true).

Definition ClearWebhookOriginated (issueName : string) : Io unit :=
  marker_retry
    (let? iss := api (GetIssue reader issueName) in
     match obj_ann iss !! AnnWebhookOriginated with
     | None => ok tt
     | Some _ => write (UpdateIssue (with_ann (delete AnnWebhookOriginated (obj_ann iss)) iss))
     end).

End Markers.

(** ** The budget of a pass *)

Definition SweepCapMaxNewTasksPerSweep : string := "maxNewTasksPerSweep".
Definition SweepCapMaxOpenTasks : string := "maxOpenTasks".

Record SweepBudget := mkSweepBudget {
  sb_maxNew : Z;
  sb_maxOpen : Z;
  sb_active : Z;
  sb_minted : Z;
  sb_hit : gset string
}.

Definition newSweepBudget (proj : Project) (active : Z) : SweepBudget :=
  let maxNew := if proj_MaxNewTasksPerSweep proj <=? 0 then 5 else proj_MaxNewTasksPerSweep proj in
  mkSweepBudget maxNew (max_open proj) active 0 ∅.

(** A cap is counted once per pass. *)
Definition capHit (proj : Project) (b : SweepBudget) (cap : string) : Prog Call SweepBudget :=
  if bool_decide (cap ∈ sb_hit b) then Ret b
  else Do (Count "sweep_mint_cap_hit" [proj_Name proj; cap]) (fun _ =>
         Ret (mkSweepBudget (sb_maxNew b) (sb_maxOpen b) (sb_active b) (sb_minted b) ({[ cap ]} ∪ sb_hit b))).

Definition allow (proj : Project) (b : SweepBudget) (parkReason : string) : Prog Call (bool * SweepBudget) :=
  if sb_maxNew b <=? sb_minted b then let! b := capHit proj b SweepCapMaxNewTasksPerSweep in Ret (false, b)
  else if (parkReason == "") && (sb_maxOpen b <=? sb_active b) then let! b := capHit proj b SweepCapMaxOpenTasks in Ret (false, b)
  else Ret (true, b).

Definition record_mint (b : SweepBudget) (parkReason : string) : SweepBudget :=
  mkSweepBudget (sb_maxNew b) (sb_maxOpen b) (if parkReason == "" then sb_active b + 1 else sb_active b) (sb_minted b + 1) (sb_hit b).

(** Whether the skip is the first of the pass for the budget. *)
Definition countBudgetSkip (b : SweepBudget) : bool * SweepBudget :=
  if bool_decide (SweepSkipMintBudget ∈ sb_hit b) then (false, b)
  else (true, mkSweepBudget (sb_maxNew b) (sb_maxOpen b) (sb_active b) (sb_minted b) ({[ SweepSkipMintBudget ]} ∪ sb_hit b)).

(** ** What a pass carries along *)

(** The budget, the Tasks that were minted active and parked, the first error, and when to
    come back, 0 for the period of the sweep. *)
Record SweepPass := mkSweepPass {
  sw_budget : SweepBudget;
  sw_active : Z;
  sw_parked : Z;
  sw_first : option Fail;
  sw_requeue : Duration
}.

Definition with_budget (b : SweepBudget) (s : SweepPass) : SweepPass :=
  mkSweepPass b (sw_active s) (sw_parked s) (sw_first s) (sw_requeue s).

(** [budget.record] and [minted[mintedBucket(reason)]++]. *)
Definition minted_one (parkReason : string) (s : SweepPass) : SweepPass :=
  mkSweepPass (record_mint (sw_budget s) parkReason)
    (if parkReason == "" then sw_active s + 1 else sw_active s) (if parkReason == "" then sw_parked s else sw_parked s + 1)
    (sw_first s) (sw_requeue s).

Definition soonerRequeue (cur d : Duration) : Duration :=
  if d <=? 0 then cur else if (cur =? 0) || (d <? cur) then d else cur.

Definition come_back (d : Duration) (s : SweepPass) : SweepPass :=
  mkSweepPass (sw_budget s) (sw_active s) (sw_parked s) (sw_first s) (soonerRequeue (sw_requeue s) d).

(** ** Branches *)

(** [cand.Name > cur.Name]. *)
Definition name_after (a b : string) : bool := String.ltb b a.

Definition betterBranchOwner (cur : option Task) (cand : Task) : bool :=
  match cur with
  | None => true
  | Some cur =>
      if negb (Bool.eqb (taskStillPushes cand) (taskStillPushes cur)) then taskStillPushes cand
      else if negb (CreationTimestamp cand =? CreationTimestamp cur) then After (CreationTimestamp cand) (CreationTimestamp cur)
      else name_after (task_Name cand) (task_Name cur)
  end.

Definition on_branch (toLower : string -> string) (proj : Project) (branch : string) (t : Task) : bool :=
  (ProjectRef (Spec t) == proj_Name proj) && (TaskBranch toLower t == branch).

Fixpoint branch_loop (toLower : string -> string) (proj : Project) (branch claimedBy : string) (l : list Task) (best : option Task)
  : option Task :=
  match l with
  | [] => best
  | t :: rest =>
      if negb (on_branch toLower proj branch t) then branch_loop toLower proj branch claimedBy rest best
      else if (claimedBy != "") && (task_Name t == claimedBy) then Some t
      else branch_loop toLower proj branch claimedBy rest (if betterBranchOwner best t then Some t else best)
  end.

(** [Time.Unix]. *)
Definition Unix (t : Time) : Z := (t - Date 1970 1 1 0 0 0 0) / Second.

(** ** The pass *)

(** An error with the word it is counted under. *)
Definition Step (A : Type) : Type := Prog Call (result (string * Fail) A).

Definition because {A} (reason : string) (p : Io A) : Step A :=
  let! r := p in Ret (match r with Ok a => Ok a | Err e => Err (reason, e) end).

Section Sweep.

(** [strings.ToLower], and beyond ASCII; [strconv.Quote]; the path of [url.Parse]; the sizes
    of the objects and the spillers; the reader of the minter, and whether metrics are
    wired; the activity the counters carry. *)
Context (toLower unicodeLower : string -> string) (parse : string -> option string)
  (issueSize : Issue -> option Z) (mrSize : MergeRequest -> option Z) (taskSize : Task -> option Z)
  (sp : option (Spiller Comment)) (notes : option (Spiller Note)) (reader : View) (m : bool) (activity : string) (proj : Project).

Definition sweep_fail (reason : string) (e : Fail) (s : SweepPass) : Prog Call SweepPass :=
  Do (Count "sweep_errors" [proj_Name proj; activity; reason]) (fun _ =>
    Ret (mkSweepPass (sw_budget s) (sw_active s) (sw_parked s) (match sw_first s with None => Some e | f => f end) (sw_requeue s))).

(** [skipIssue], [skipPR]: counted unless it is a further skip for the budget. *)
Definition skip_metered {E} (reason : string) (count : bool) : Prog Call (result E unit) :=
  if count then Do (Count "sweep_skipped" [proj_Name proj; activity; reason]) (fun _ => Ret (Ok tt)) else Ret (Ok tt).

Definition skip {E} (reason : string) : Prog Call (result E unit) := skip_metered reason true.

(** The age is in nanoseconds, where the code sets seconds. *)
Definition strandOrphan {E} (repo : Repository) (ref : IssueRef) (now : Time) : Prog Call (result E unit) :=
  Do (SetGauge "sweep_orphan_stranded_seconds" [proj_Name proj; repo_Name repo; FormatInt (ir_Number ref)] (Sub now (ir_CreatedAt ref)))
    (fun _ => Ret (Ok tt)).

Definition strandOnFailure {E} (repo : Repository) (ext : ScmIssue) (ref : IssueRef) (now : Time) : Prog Call (result E unit) :=
  if fst (IsOrphanIssue proj repo ext "") then strandOrphan repo ref now else Ret (Ok tt).

(** The thread, read for an orphan only. *)
Definition with_thread (ext : ScmIssue) (comments : list IssueComment) (content : IssueContent) : ScmIssue :=
  mkScmIssue (si_Number ext) (si_URL ext) (if icn_Title content != "" then icn_Title content else si_Title ext) (si_Author ext)
    (icn_Body content) (si_State ext) (si_Labels ext) (si_CreatedAt ext) (si_UpdatedAt ext) comments.

(** A retained proposal that the forge lists as open is undone first, and read again. *)
Definition undo_retention (repo : Repository) (number : Z) (ext : ScmIssue) (cr : option Issue) : Step (option Issue) :=
  match cr with
  | Some iss =>
      if (iss_StatusWord (iss_Status iss) == "rejected") && (si_State ext == "open") then
        let? _ := because "reopen_retained_proposal" (reopenRetainedProposal iss (botLoginOf proj)) in
        because "get_issue_cr" (issueCR repo number)
      else Ret (Ok cr)
  | None => Ret (Ok None)
  end.

(** What a mint of an Issue leaves. *)
Definition settle_issue (repo : Repository) (ref : IssueRef) (now : Time) (live : bool) (reason : string) (s : SweepPass)
    (outcome : MintOutcome) : Step SweepPass :=
  match outcome with
  | MintCreated =>
      let! s := (if live
                 then let! r := ClearWebhookOriginated reader (IssueName (repo_Name repo) (ir_Number ref)) in
                      match r with Ok _ => Ret s | Err e => sweep_fail "clear_webhook_marker" e s end
                 else Ret s) in
      Ret (Ok (minted_one reason s))
  | MintExistingLive => let? _ := skip SweepSkipAlreadyMinted in Ret (Ok s)
  | MintTombstoneDeleted =>
      let? _ := skip SweepSkipTombstoneDeleted in
      let? _ := strandOrphan repo ref now in Ret (Ok (come_back sweepRemintDelay s))
  | MintNotOwed =>
      let? _ := skip SweepSkipMintNotOwed in
      let? _ := strandOrphan repo ref now in Ret (Ok s)
  end.

(** One Issue; an error leaves the pass as it was. *)
Definition look_at_issue (repo : Repository) (owner name : string) (now : Time) (s : SweepPass) (ref : IssueRef) : Step SweepPass :=
  let number := ir_Number ref in
  let ext := issueSnapshot proj repo ref in
  let? cr := because "get_issue_cr" (issueCR repo number) in
  let? cr := undo_retention repo number ext cr in
  let? (liveOwner, cr) := because "resolve_live_owner" (resolve_live reader activity proj cr) in
  let '(orphan, skipReason) := IsOrphanIssue proj repo ext liveOwner in
  if negb orphan then let? _ := skip skipReason in Ret (Ok s)
  else
    let? comments := because "list_comments" (forge (ListIssueComments owner name number)) in
    let? content := because "get_issue" (forge (GetIssueContent owner name number)) in
    let ext := with_thread ext comments content in
    let live := WebhookOriginated cr in
    let '(stg, reason) := MintStage proj repo ext cr live in
    let! (allowed, b) := allow proj (sw_budget s) reason in
    if negb allowed then
      let '(count, b) := countBudgetSkip b in
      let? _ := skip_metered SweepSkipMintBudget count in
      let? _ := strandOrphan repo ref now in Ret (Ok (with_budget b s))
    else
      let? (_, outcome) := because "mint_issue_task"
        (MintIssueTask unicodeLower issueSize sp reader m proj repo ext stg reason) in
      settle_issue repo ref now live reason s outcome.

Definition sweep_issue (repo : Repository) (owner name : string) (now : Time) (s : SweepPass) (ref : IssueRef) : Prog Call SweepPass :=
  if ir_IsPR ref then Ret s
  else
    let! r := look_at_issue repo owner name now s ref in
    match r with
    | Ok s => Ret s
    | Err (reason, e) =>
        let! s := sweep_fail reason e s in
        let! _ := strandOnFailure (E := Fail) repo (issueSnapshot proj repo ref) ref now in Ret s
    end.

Definition sweepIssues (repo : Repository) (owner name : string) (now : Time) (issues : list IssueRef) (s : SweepPass)
  : Prog Call SweepPass :=
  Do (ClearSeries "sweep_orphan_stranded_seconds" [proj_Name proj; repo_Name repo]) (fun _ =>
    fold_all issues s (sweep_issue repo owner name now)).

(** ** Pull requests *)

Definition taskForBranch (branch claimedBy : string) : Io (option Task) :=
  let? l := listProjectTasks proj in ok (branch_loop toLower proj branch claimedBy l None).

(** Whether a reference was added is only logged. *)
Definition adoptPRIntoTask (repo : Repository) (pr : PRRef) (task : Task) : Io unit :=
  let? _ := bindMRToTask mrSize sp proj repo (mrSnapshot proj repo pr) task "" in
  let mrName := MergeRequestName (repo_Name repo) (prr_Number pr) in
  let? _ := fitTask taskSize notes (task_Name task) (fun cur => on_status cur (fun s => s <| MRRefs ::= add_ref mrName |>)) in
  ok tt.

Definition adopt_payload (repo : Repository) (pr : PRRef) : QueuedEventPayload :=
  mkQueuedEventPayload "" AdoptedUpgradeKind (repo_Name repo) None ∅ ∅ "" "" "" "" "" "" "" "" "" "" None
    (Some (AdoptedUpgradeRefFromPR pr)).

(** Whether an event was created. *)
Definition enqueue_adoption (repo : Repository) (pr : PRRef) : Io bool :=
  Do QueueAnswers (fun w =>
    let '(r, es) := EnqueueEvent w proj QueueClassNormal true (AdoptUpgradeDedupKey (repo_Name repo) (prr_Number pr))
                      (adopt_payload repo pr) (WithPriority 2 (mkEnqueueOpts false None)) in
    Do (QueueEffects es) (fun _ => match r with Ok q => ok (is_set q) | Err e => fail (QueueFault e) end)).

Definition listPRCommentsAfter (owner name : string) (number : Z) (cursor : string) : Io (list IssueComment) :=
  Do CanListPRComments (fun pl : bool =>
    if negb pl then ok []
    else
      let? all := forge (ListPRComments owner name number) in
      if cursor == "" then ok all
      else ok ((fix after (l : list IssueComment) : list IssueComment :=
                  match l with
                  | [] => all
                  | c :: rest => if ic_ExternalID c == cursor then rest else after rest
                  end) all)).

(** What a pull request is to the platform; whether the pass goes on with its ownership. *)
Definition dispose_pr (repo : Repository) (s : SweepPass) (pr : PRRef) : Step (SweepPass * bool) :=
  let? cr := because "get_mr_cr" (mergeRequestCR repo (prr_Number pr)) in
  let? (claimedBy, cr) := because "resolve_live_owner" (resolve_live reader activity proj cr) in
  let? ownerTask := because "get_owning_task" (taskForBranch (prr_HeadBranch pr) claimedBy) in
  match ClassifyPR toLower proj repo pr ownerTask claimedBy cr, ownerTask with
  | PRAdopt, Some t => let? _ := because "adopt_pr" (adoptPRIntoTask repo pr t) in Ret (Ok (s, true))
  | PRAdopt, None => Ret (Ok (s, true))
  | PRAdoptUpgrade, _ =>
      let? created := because "enqueue_adopt_upgrade" (enqueue_adoption repo pr) in
      if created then Do (Count "adoption_enqueued" [proj_Name proj; SweepActivity]) (fun _ => Ret (Ok (s, true)))
      else Ret (Ok (s, true))
  | PRReview, _ =>
      let '(stg, reason) := MintReviewStage cr in
      let! (allowed, b) := allow proj (sw_budget s) reason in
      if negb allowed then
        let '(count, b) := countBudgetSkip b in
        let? _ := skip_metered SweepSkipMintBudget count in Ret (Ok (with_budget b s, false))
      else
        let? (_, outcome) := because "mint_review_task"
          (MintReviewTask unicodeLower mrSize sp reader m proj repo pr cr stg reason "") in
        match outcome with
        | MintCreated => Ret (Ok (minted_one reason s, true))
        | MintExistingLive => let? _ := skip SweepSkipAlreadyMinted in Ret (Ok (s, true))
        | MintNotOwed => let? _ := skip SweepSkipMintNotOwed in Ret (Ok (s, true))
        | MintTombstoneDeleted =>
            let? _ := skip SweepSkipTombstoneDeleted in Ret (Ok (come_back sweepRemintDelay s, true))
        end
  | PRClaimed, _ => let? _ := skip SweepSkipMRClaimed in Ret (Ok (s, true))
  | PRIgnore, _ => Ret (Ok (s, true))
  end.

(** The live head, [""] where it cannot be read. *)
Definition live_head (repo : Repository) (writer : bool) (pr : PRRef) : Prog Call string :=
  if negb writer then Ret ""%string
  else Do (GetPRHead (repo_URL repo) (prr_Number pr)) (fun h =>
         match h with
         | Ok h => Ret h
         | Err e => let! _ := RecordSCM m proj "get_pr_head" e in Ret ""%string
         end).

(** The ownership of a mirrored merge request, and its new comments. *)
Definition settle_ownership (repo : Repository) (owner name : string) (writer : bool) (s : SweepPass) (pr : PRRef) : Prog Call SweepPass :=
  let! r := mergeRequestCR repo (prr_Number pr) in
  match r with
  | Err e => sweep_fail "get_mr_cr_post_classify" e s
  | Ok None => Ret s
  | Ok (Some mrCR) =>
      let! liveHead := live_head repo writer pr in
      let! (s, newComments) := (if mr_Ownership (mr_Status mrCR) != OwnershipTatara
        then let! nc := listPRCommentsAfter owner name (prr_Number pr) (mr_LastMirroredCommentID (mr_Status mrCR)) in
             match nc with
             | Ok nc => Ret (s, nc)
             | Err e => let! s := sweep_fail "list_pr_comments" e s in Ret (s, [])
             end
        else Ret (s, [])) in
      let! r := ReconcileOwnership toLower unicodeLower parse mrSize sp reader m proj repo mrCR liveHead newComments in
      match r with Ok _ => Ret s | Err e => sweep_fail "reconcile_ownership" e s end
  end.

Definition sweep_pr (repo : Repository) (owner name : string) (writer : bool) (s : SweepPass) (pr : PRRef) : Prog Call SweepPass :=
  let! r := dispose_pr repo s pr in
  match r with
  | Err (reason, e) => sweep_fail reason e s
  | Ok (s, false) => Ret s
  | Ok (s, true) => settle_ownership repo owner name writer s pr
  end.

Definition sweepPRs (repo : Repository) (owner name : string) (writer : bool) (prs : list PRRef) (s : SweepPass) : Prog Call SweepPass :=
  fold_all prs s (sweep_pr repo owner name writer).

(** ** The project *)

Definition sweep_repo (writer : bool) (now : Time) (s : SweepPass) (repo : Repository) : Prog Call SweepPass :=
  match ghOwnerRepo (parse (repo_URL repo)) with
  | None => sweep_fail "owner_repo" (NoSlug (repo_URL repo)) s
  | Some (owner, name) =>
      let! issues := forge (ListOpenIssues owner name) in
      let! s := (match issues with
                 | Err e => sweep_fail "list_issues" e s
                 | Ok l => sweepIssues repo owner name now l s
                 end) in
      let! prs := forge (ListOpenPRs owner name) in
      match prs with
      | Err e => sweep_fail "list_prs" e s
      | Ok l => sweepPRs repo owner name writer l s
      end
  end.

(** When to come back, and the first error; the order of the two observations is the
    map's. *)
Definition SweepProject (repos : list Repository) : Prog Call (Duration * option Fail) :=
  Do TimeNow (fun now : Time =>
    let! l := listProjectTasks proj in
    match l with
    | Err e => Do (Count "sweep_errors" [proj_Name proj; activity; "list_tasks"%string]) (fun _ => Ret (0, Some e))
    | Ok l =>
        let! writer := scanWriter in
        let! s := fold_all repos (mkSweepPass (newSweepBudget proj (active_tasks proj l)) 0 0 None 0) (sweep_repo (is_ok writer) now) in
        Do (Observe "tasks_minted_per_sweep" [proj_Name proj; "active"%string] (sw_active s)) (fun _ =>
        Do (Observe "tasks_minted_per_sweep" [proj_Name proj; "parked"%string] (sw_parked s)) (fun _ =>
        Do (SetGauge "sweep_last_success_timestamp" [proj_Name proj; activity] (Unix now)) (fun _ =>
          Ret (sw_requeue s, sw_first s))))
    end).

End Sweep.

(** ** What the theorems say *)

(** The Task a call has created. *)
Definition made_by (d : Did Call) : option Task :=
  match did_call d in Call X return X -> option Task with
  | CreateTask t => fun r => if is_ok r then Some t else None
  | _ => fun _ => None
  end (did_answer d).

Definition made (es : list (Did Call)) : list Task := omap made_by es.

Definition active_made (es : list (Did Call)) : list Task :=
  List.filter (fun t => InitialParkReason (Spec t) == "") (made es).

(** A mint of an Issue that has failed, after it created the Task or before. *)
Definition mint_failed (d : Did Call) : bool :=
  match did_call d with
  | Count metric [_; _; reason] => (metric == "sweep_errors") && (reason == "mint_issue_task")
  | _ => false
  end.

Definition failures (es : list (Did Call)) : Z := Z.of_nat (length (List.filter mint_failed es)).

(** An Issue that is owed a Task, as far as the forge's list goes. *)
Definition owed (proj : Project) (repo : Repository) (ref : IssueRef) : Prop :=
  ir_IsPR ref = false /\ fst (IsOrphanIssue proj repo (issueSnapshot proj repo ref) "") = true.

(** It has been served, or is known to be owned, or shows as stranded. *)
Definition accounted (unicodeLower : string -> string) (activity : string) (proj : Project) (repo : Repository) (ref : IssueRef)
    (es : list (Did Call)) : Prop :=
  (exists t, In t (made es) /\ task_Name t = IntakeTaskName unicodeLower (proj_Name proj) SweepIssueKind (repo_Name repo) (ir_Number ref))
  \/ In (did (Count "sweep_skipped" [proj_Name proj; activity; SweepSkipIssueOwned]) tt) es
  \/ In (did (Count "sweep_skipped" [proj_Name proj; activity; SweepSkipAlreadyMinted]) tt) es
  \/ exists age, In (did (SetGauge "sweep_orphan_stranded_seconds" [proj_Name proj; repo_Name repo; FormatInt (ir_Number ref)] age) tt) es.

(** The caps of the budget stand. *)
Definition same_caps (b b' : SweepBudget) : Prop := sb_maxNew b' = sb_maxNew b /\ sb_maxOpen b' = sb_maxOpen b.

(** One Task, or none, was made between the budgets, and was charged; it was allowed. *)
Definition charged (b b' : SweepBudget) (es : list (Did Call)) : Prop :=
  same_caps b b'
  /\ (made es = [] /\ sb_minted b' = sb_minted b /\ sb_active b' = sb_active b
      \/ exists t, made es = [t] /\ sb_minted b < sb_maxNew b /\ sb_minted b' = sb_minted b + 1
           /\ (InitialParkReason (Spec t) = ""%string /\ sb_active b < sb_maxOpen b /\ sb_active b' = sb_active b + 1
               \/ InitialParkReason (Spec t) <> ""%string /\ sb_active b' = sb_active b)).

(** The Tasks made so far are within what the budget has been charged and the mints that
    have failed. *)
Definition within_budget (b b' : SweepBudget) (es : list (Did Call)) : Prop :=
  same_caps b b'
  /\ Z.of_nat (length (made es)) <= sb_minted b' - sb_minted b + failures es
  /\ Z.of_nat (length (active_made es)) <= sb_active b' - sb_active b + failures es
  /\ sb_minted b' <= Z.max (sb_minted b) (sb_maxNew b) /\ sb_active b' <= Z.max (sb_active b) (sb_maxOpen b)
  /\ sb_minted b <= sb_minted b' /\ sb_active b <= sb_active b'.

(** What looking at an Issue leaves of the pass; an error leaves the pass as it was, and
    may leave a Task only where the mint has failed. *)
Definition looked (unicodeLower : string -> string) (activity : string) (proj : Project) (repo : Repository) (ref : IssueRef)
    (b : SweepBudget) (r : result (string * Fail) SweepPass) (es : list (Did Call)) : Prop :=
  match r with
  | Ok s => charged b (sw_budget s) es /\ (owed proj repo ref -> accounted unicodeLower activity proj repo ref es)
  | Err (reason, _) => made es = [] \/ reason = "mint_issue_task"%string /\ exists t, made es = [t]
  end.

(** An open Issue of a reporter anybody may be. *)
Definition open_project : Project := bot_project <| proj_Name := "p"%string |>.
Definition listed_issue : IssueRef := mkIssueRef "o/n" 7 "a title" "ann" "open" false [] 1 1.

(** ** Lemmas *)

Lemma made_app es es' : made (es ++ es') = (made es ++ made es')%list.
Proof. apply omap_app. Qed.

Lemma still_makes_none es : Forall still es -> made es = [].
Proof.
  induction 1 as [|d es [Hc _] _ IH]; [done|]. unfold made in *. cbn. rewrite IH. destruct d as [X c x]. cbn in *.
  unfold made_by. cbn. by destruct c.
Qed.

Lemma accounted_app unicodeLower activity proj repo ref es es' :
  accounted unicodeLower activity proj repo ref es \/ accounted unicodeLower activity proj repo ref es' ->
  accounted unicodeLower activity proj repo ref (es ++ es').
Proof.
  intros [[(t & H & E)|[H|[H|[age H]]]]|[(t & H & E)|[H|[H|[age H]]]]].
  1,5: left; exists t; rewrite made_app; split; [apply in_app_iff; tauto|done].
  1,4: right; left; apply in_app_iff; tauto.
  1,3: right; right; left; apply in_app_iff; tauto.
  all: right; right; right; exists age; apply in_app_iff; tauto.
Qed.

(** The creation of a Task, and its outcome. *)
Definition makes {A} (task : Task) (out : A -> MintOutcome) (r : result Fail A) (es : list (Did Call)) : Prop :=
  match r with
  | Ok a => match out a with MintCreated => made es = [task] | _ => made es = [] end
  | Err _ => made es = [] \/ made es = [task]
  end.

Lemma makes_still_before {A} task (out : A -> MintOutcome) r es es' :
  Forall still es -> makes task out r es' -> makes task out r (es ++ es').
Proof.
  intros Hs. unfold makes. rewrite made_app, (still_makes_none es Hs). intros H. exact H.
Qed.

Lemma still_makes {A} task (out : A -> MintOutcome) e es : Forall still es -> makes task out (Err e) es.
Proof. left. by apply still_makes_none. Qed.

Lemma still_first {E A B} (p : Prog Call (result E A)) (f : A -> Prog Call (result E B)) (R : result E B -> list (Did Call) -> Prop) :
  keeps (Forall still) p -> (forall e es, Forall still es -> R (Err e) es) ->
  (forall r es es', Forall still es -> R r es' -> R r (es ++ es')) -> (forall a, does (f a) R) -> does (try p f) R.
Proof.
  intros Hp He Hs Hf. apply does_bind. eapply does_mono; [|exact Hp]. intros [a|e] es Hes; cbn.
  - eapply does_mono; [|exact (Hf a)]. intros r es'. by apply Hs.
  - rewrite app_nil_r. by apply He.
Qed.

(** The value of a mint, and the creation in its trace. *)
Definition mint_value (p : Minted) : MintOutcome := fst (fst p).

Lemma resolve_twin_makes v task : does (resolve_twin v task) (fun r es => made es = [] /\ forall p, r = Ok p -> mint_value p <> MintCreated).
Proof.
  intros [t|e]; cbn [bind api ok fail]; [|by intros []].
  destruct (dead t); [|by intros []; split; [|intros p [= <-]]].
  intros [e|]; cbn [bind try found unless_missing write ok fail]; [|by intros []; split; [|intros p [= <-]]].
  destruct (IsNotFound _); cbn [bind try]; intros []; (split; [done|]); by intros p [=]; subst.
Qed.

Lemma create_task_makes v task : does (create_task v task) (makes task mint_value).
Proof.
  intros [c|e]; cbn [bind api ok fail]; [by intros []|]. destruct (IsAlreadyExists _); [|by intros []; left].
  eapply does_mono; [|apply resolve_twin_makes]. intros [p|e'] es [Hm Hp]; unfold makes, made in *; cbn; [|by left].
  specialize (Hp p eq_refl). by destruct (mint_value p).
Qed.

Lemma createTaskRaceSafe_makes v task : does (createTaskRaceSafe v task) (makes task mint_value).
Proof.
  assert (forall (p : Io Minted) k (r : result ApiError Task), does p (makes task mint_value) ->
    does p (fun a es => makes task mint_value a (did (GetTask v k) r :: es))) as Hd.
  { intros p k r. apply does_mono. intros a es H. exact H. }
  intros [t|e]; cbn [bind api ok fail]; apply Hd.
  - destruct (dead t); [apply create_task_makes|by intros []].
  - destruct (IsNotFound _); [apply create_task_makes|by intros []; left].
Qed.

Section Lemmas.

Context (toLower unicodeLower : string -> string) (parse : string -> option string)
  (issueSize : Issue -> option Z) (mrSize : MergeRequest -> option Z) (taskSize : Task -> option Z)
  (sp : option (Spiller Comment)) (notes : option (Spiller Note)) (reader : View) (m : bool) (activity : string) (proj : Project).

Lemma MintIssueTask_makes repo ext stg reason :
  does (MintIssueTask unicodeLower issueSize sp reader m proj repo ext stg reason)
    (makes (issue_task unicodeLower proj repo ext stg reason) snd).
Proof.
  unfold MintIssueTask. cbv zeta. apply still_first; [apply mintErr_still, set_project_owner_still|intros; by apply still_makes| |].
  { intros. by apply makes_still_before. }
  intros _. apply does_try. eapply does_mono; [|apply createTaskRaceSafe_makes]. intros [[[o t] twin]|e] es Hm; [|done].
  cbn in Hm. unfold mint_value in Hm. cbn in Hm.
  match goal with |- does ?p _ => assert (keeps (Forall still) p /\ does p (fun r _ => forall a, r = Ok a -> snd a = o)) as [Hs Ho] end.
  { split.
    - unfold stampMintStatus, orphan_adopted. destruct o;
      repeat first [apply stampIfChanged_still | apply SyncIssue_still | apply bindMRToTask_still | apply ownIssueForTask_still
        | apply repairIssueBinding_still | apply mintErr_still | progress cbv zeta | keep_step ltac:(by repeat constructor)].
    - destruct o; repeat (eapply yields_try with (P := fun _ => True); [apply yields_any|intros ? _]); by intros res [= <-]. }
  eapply does_mono; [|exact (does_and _ _ _ Hs Ho)]. intros r es' [Hes Hr]. unfold makes. rewrite made_app, (still_makes_none es') by done.
  rewrite app_nil_r. destruct r as [a|e]; [rewrite (Hr a eq_refl); done|]. destruct o; auto.
Qed.

Lemma because_still {A} reason (p : Io A) : keeps (Forall still) p -> keeps (Forall still) (because reason p).
Proof. intros Hp. apply keeps_bind; [apply _|exact Hp|]. intros r. by apply keeps_ret, _. Qed.

Lemma reopen_still iss bot : keeps (Forall still) (reopenRetainedProposal iss bot).
Proof.
  unfold reopenRetainedProposal, return_mirror, clear_verdict, SeverIssueFromTask, detach_issue, orphan_owner, existing_owners,
    strip_parked_label. keep_go ltac:(by repeat constructor).
Qed.

Lemma undo_retention_still repo number ext cr : keeps (Forall still) (undo_retention proj repo number ext cr).
Proof.
  unfold undo_retention. destruct cr as [iss|]; [|by apply keeps_ret, _]. destruct (_ && _); [|by apply keeps_ret, _].
  apply keeps_try; [apply _|apply because_still, reopen_still|]. intros _. apply because_still. unfold issueCR.
  keep_go ltac:(by repeat constructor).
Qed.

Lemma looked_before repo ref b r es es' : Forall still es ->
  looked unicodeLower activity proj repo ref b r es' -> looked unicodeLower activity proj repo ref b r (es ++ es').
Proof using Type.
  intros Hs. unfold looked, charged. rewrite made_app, (still_makes_none es Hs). destruct r as [s|[reason e]]; [|done].
  intros [Hc Ha]. split; [exact Hc|]. intros Ho. apply accounted_app. auto.
Qed.

Lemma looked_err repo ref b e es : Forall still es -> looked unicodeLower activity proj repo ref b (Err e) es.
Proof using Type. intros Hs. destruct e as [reason e]. left. by apply still_makes_none. Qed.

Lemma allow_spec b park : does (allow proj b park) (fun p es => Forall still es /\ same_caps b (snd p)
  /\ sb_minted (snd p) = sb_minted b /\ sb_active (snd p) = sb_active b
  /\ (fst p = true -> snd p = b /\ sb_minted b < sb_maxNew b /\ (park = ""%string -> sb_active b < sb_maxOpen b))).
Proof.
  unfold allow, capHit. destruct (Z.leb_spec (sb_maxNew b) (sb_minted b)).
  - case_bool_decide; [by repeat constructor|]. intros []. by repeat constructor.
  - destruct (park == "") eqn:E; cbn [andb]; [destruct (Z.leb_spec (sb_maxOpen b) (sb_active b))|].
    + case_bool_decide; [by repeat constructor|]. intros []. by repeat constructor.
    + by repeat constructor.
    + repeat constructor; [done|]. intros ->. done.
Qed.

(** The Task a mint of the Issue has made, charged to the budget. *)
Lemma charged_one b t s reason : sw_budget s = b -> InitialParkReason (Spec t) = reason ->
  sb_minted b < sb_maxNew b -> (reason = ""%string -> sb_active b < sb_maxOpen b) ->
  forall es, made es = [t] -> charged b (sw_budget (minted_one reason s)) es.
Proof.
  intros <- <- Hm Ha es He. split; [done|]. right. exists t. cbn. split; [done|]. split; [done|]. split; [done|].
  destruct (String.eqb_spec (InitialParkReason (Spec t)) ""); [left|right]; auto.
Qed.

Lemma sweep_fail_keeps_budget reason e s :
  does (sweep_fail activity proj reason e s) (fun s' es => Forall still es /\ sw_budget s' = sw_budget s).
Proof. intros []. by repeat constructor. Qed.

Lemma clear_still name : keeps (Forall still) (ClearWebhookOriginated reader name).
Proof. unfold ClearWebhookOriginated, marker_retry. keep_go ltac:(by repeat constructor). Qed.

Lemma settle_looked repo ref now live reason s b t outcome es0 :
  sw_budget s = b -> InitialParkReason (Spec t) = reason -> sb_minted b < sb_maxNew b ->
  (reason = ""%string -> sb_active b < sb_maxOpen b) ->
  task_Name t = IntakeTaskName unicodeLower (proj_Name proj) SweepIssueKind (repo_Name repo) (ir_Number ref) ->
  match outcome with MintCreated => made es0 = [t] | _ => made es0 = [] end ->
  does (settle_issue reader activity proj repo ref now live reason s outcome)
    (fun r es => looked unicodeLower activity proj repo ref b r (es0 ++ es)).
Proof.
  intros Hb Hp Hm Ha Hn Ho. destruct outcome; cbn [settle_issue].
  - intros [] []. cbn. split; [split; [by subst|]; left; by rewrite made_app, Ho, Hb|]. intros _. apply accounted_app. right.
    right. right. right. eexists. right. by left.
  - assert (forall s' es, Forall still es -> sw_budget s' = b ->
      looked unicodeLower activity proj repo ref b (Ok (minted_one reason s')) (es0 ++ es)) as Hl.
    { intros s' es Hes Hs'. assert (made (es0 ++ es) = [t]) as Hmade by (rewrite made_app, (still_makes_none es Hes), app_nil_r; done).
      split; [by apply (charged_one b t)|]. intros _. left. exists t. split; [rewrite Hmade; by left|done]. }
    apply does_bind. destruct live; [|by apply (Hl s []); [constructor|]].
    apply does_bind. eapply does_mono; [|apply clear_still]. intros [u|e] es1 Hes1.
    + cbn. rewrite !app_nil_r. by apply Hl.
    + eapply does_mono; [|apply sweep_fail_keeps_budget]. intros s' es2 [Hes2 Hs']. cbn.
      rewrite app_nil_r. apply Hl; [by apply Forall_app|congruence].
  - intros []. cbn. split; [split; [by subst|]; left; by rewrite made_app, Ho, Hb|]. intros _. apply accounted_app. right.
    right. right. left. by left.
  - intros [] []. cbn. split; [split; [by subst|]; left; by rewrite made_app, Ho, Hb|]. intros _. apply accounted_app. right.
    right. right. right. eexists. right. by left.
Qed.

Lemma owed_is_owned repo ext owner why :
  IsOrphanIssue proj repo ext owner = (false, why) -> fst (IsOrphanIssue proj repo ext "") = true -> why = SweepSkipIssueOwned.
Proof.
  unfold IsOrphanIssue. destruct (si_State ext != "open"); [done|]. destruct (owner != ""); [by intros [= <-]|].
  by destruct (negb _).
Qed.

Lemma look_at_issue_looked repo owner name now s ref :
  does (look_at_issue unicodeLower issueSize sp reader m activity proj repo owner name now s ref)
    (looked unicodeLower activity proj repo ref (sw_budget s)).
Proof.
  unfold look_at_issue. cbv zeta.
  apply still_first; [apply because_still; unfold issueCR; keep_go ltac:(by repeat constructor)|intros; by apply looked_err| |].
  { intros. by apply looked_before. }
  intros cr. apply still_first; [apply undo_retention_still|intros; by apply looked_err|intros; by apply looked_before|].
  intros cr1. apply still_first; [by apply because_still, resolve_live_still|intros; by apply looked_err|intros; by apply looked_before|].
  intros [liveOwner cr2]. destruct (IsOrphanIssue _ _ _ liveOwner) as [orphan skipReason] eqn:Eo.
  destruct orphan; cbn [negb].
  - apply still_first; [apply because_still; keep_go ltac:(by repeat constructor)|intros; by apply looked_err|intros; by apply looked_before|].
    intros comments. apply still_first; [apply because_still; keep_go ltac:(by repeat constructor)|intros; by apply looked_err|intros; by apply looked_before|].
    intros content. destruct (MintStage _ _ _ _ _) as [stg reason].
    apply does_bind. eapply does_mono; [|apply allow_spec]. intros [allowed b] es (Hes & Hc & Hm & Ha & Hok). cbn [fst snd] in *.
    destruct allowed; cbn [negb].
    + destruct (Hok eq_refl) as (-> & Hlt & Hact). apply does_try, does_bind. eapply does_mono; [|apply MintIssueTask_makes].
      intros [[t o]|e] es1 Hmake; unfold makes in Hmake; cbn in Hmake; cbn; rewrite ?app_nil_r.
      * assert (match o with MintCreated => made (es ++ es1) = [issue_task unicodeLower proj repo (with_thread (issueSnapshot proj repo ref) comments content) stg reason]
                | _ => made (es ++ es1) = [] end) as Hmade.
        { rewrite made_app, (still_makes_none es Hes). exact Hmake. }
        eapply does_mono; [|exact (settle_looked repo ref now _ reason s (sw_budget s)
          (issue_task unicodeLower proj repo (with_thread (issueSnapshot proj repo ref) comments content) stg reason)
          o (es ++ es1) eq_refl eq_refl Hlt Hact eq_refl Hmade)].
        intros r es2 H0. rewrite app_assoc. exact H0.
      * rewrite made_app, (still_makes_none es Hes). destruct Hmake as [H|H]; [by left|right; split; [done|eexists; exact H]].
    + assert (exists count b', countBudgetSkip b = (count, b') /\ same_caps (sw_budget s) b' /\ sb_minted b' = sb_minted (sw_budget s)
              /\ sb_active b' = sb_active (sw_budget s)) as (count & b' & -> & Hb').
      { unfold countBudgetSkip. case_bool_decide; eexists _, _; (split; [reflexivity|]); split; [exact Hc|done|exact Hc|done]. }
      assert (forall es', Forall still es' ->
        In (did (SetGauge "sweep_orphan_stranded_seconds" [proj_Name proj; repo_Name repo; FormatInt (ir_Number ref)] (Sub now (ir_CreatedAt ref))) tt) es' ->
        looked unicodeLower activity proj repo ref (sw_budget s) (Ok (with_budget b' s)) (es ++ es')) as Hl.
      { intros es' Hes' Hin. split.
        - split; [apply Hb'|]. left. rewrite (still_makes_none (es ++ es')) by by apply Forall_app. split; [done|apply Hb'].
        - intros _. apply accounted_app. right. right. right. right. by eexists. }
      destruct count; [intros [] []|intros []]; cbn; (apply Hl; [by repeat constructor|]); [right|]; by left.
  - intros []. cbn. split; [split; [done|]; by left|]. intros [_ Ho]. right. left. left.
    by rewrite (owed_is_owned repo _ _ _ Eo Ho).
Qed.

(** One turn of the loop. *)
Lemma sweep_issue_looked repo owner name now s ref :
  does (sweep_issue unicodeLower issueSize sp reader m activity proj repo owner name now s ref)
    (fun s' es => (charged (sw_budget s) (sw_budget s') es
                   \/ sw_budget s' = sw_budget s /\ (length (made es) <= 1)%nat /\ 1 <= failures es)
                  /\ (owed proj repo ref -> accounted unicodeLower activity proj repo ref es)).
Proof.
  unfold sweep_issue. destruct (ir_IsPR ref) eqn:Ep.
  { split; [left; split; [done|by left]|]. intros [H _]. congruence. }
  apply does_bind. eapply does_mono; [|apply look_at_issue_looked]. intros [s'|[reason e]] es Hl; cbn.
  { rewrite app_nil_r. destruct Hl as [Hc Ha]. by split; [left|]. }
  intros []. cbn. unfold strandOnFailure.
  assert (forall es', Forall still es' ->
    charged (sw_budget s) (sw_budget s) (es ++ did (Count "sweep_errors" [proj_Name proj; activity; reason]) tt :: es')
    \/ sw_budget s = sw_budget s /\ (length (made (es ++ did (Count "sweep_errors" [proj_Name proj; activity; reason]) tt :: es')) <= 1)%nat
       /\ 1 <= failures (es ++ did (Count "sweep_errors" [proj_Name proj; activity; reason]) tt :: es')) as Hb.
  { intros es' Hes'. set (es0 := (es ++ _)%list). assert (made es0 = made es) as Hm0.
    { unfold es0. rewrite made_app, (still_makes_none (_ :: es')), app_nil_r by by constructor. done. }
    destruct Hl as [Hm|[-> [t Hm]]]; [left; split; [done|]; left; by rewrite Hm0|right]. rewrite Hm0, Hm.
    split; [done|]. split; [cbn; lia|]. unfold failures, es0. rewrite List.filter_app, length_app. cbn. lia. }
  destruct (fst (IsOrphanIssue _ _ _ _)) eqn:Eo.
  - intros []. cbn. split; [apply (Hb [_]); by repeat constructor|]. intros _. apply accounted_app. right. right. right. right.
    eexists. right. by left.
  - cbn. split; [by apply (Hb [])|]. intros [_ H]. congruence.
Qed.

Lemma within_step b b' b'' es es' : within_budget b b' es ->
  charged b' b'' es' \/ b'' = b' /\ (length (made es') <= 1)%nat /\ 1 <= failures es' -> within_budget b b'' (es ++ es').
Proof.
  intros ([C1 C2] & Hm & Ha & Hmx & Hax & Hml & Hal) Hc.
  assert (made (es ++ es') = (made es ++ made es')%list) as E by apply made_app.
  assert (active_made (es ++ es') = (active_made es ++ active_made es')%list) as Ea by (unfold active_made; by rewrite E, List.filter_app).
  assert (failures (es ++ es') = failures es + failures es') as Ef by (unfold failures; rewrite List.filter_app, length_app; lia).
  assert (0 <= failures es') as Hf by (unfold failures; lia).
  assert (length (active_made es') <= length (made es'))%nat as Hle by apply List.filter_length_le.
  unfold within_budget, same_caps. rewrite E, Ea, Ef, !length_app.
  destruct Hc as [[[C3 C4] [(H1 & H2 & H3)|(t & H1 & H2 & H3 & H4)]]|(-> & H1 & H2)].
  - rewrite H1 in *. cbn [length] in *. repeat split; lia.
  - assert (active_made es' = if InitialParkReason (Spec t) == "" then [t] else []) as Et by (unfold active_made; by rewrite H1).
    rewrite H1, Et. destruct H4 as [(Hp & Hlt & H5)|[Hp H5]]; [rewrite Hp|apply String.eqb_neq in Hp; rewrite Hp]; cbn [length String.eqb];
      repeat split; lia.
  - repeat split; lia.
Qed.

Lemma sweepIssues_looked repo owner name now issues s :
  does (sweepIssues unicodeLower issueSize sp reader m activity proj repo owner name now issues s)
    (fun s' es => within_budget (sw_budget s) (sw_budget s') es
                  /\ forall ref, In ref issues -> owed proj repo ref -> accounted unicodeLower activity proj repo ref es).
Proof.
  intros []. set (d := did _ _).
  assert (forall done todo s0 past, issues = (done ++ todo)%list ->
    within_budget (sw_budget s) (sw_budget s0) past /\ (forall ref, In ref done -> owed proj repo ref -> accounted unicodeLower activity proj repo ref past) ->
    does (fold_all todo s0 (sweep_issue unicodeLower issueSize sp reader m activity proj repo owner name now))
      (fun s' es => within_budget (sw_budget s) (sw_budget s') (past ++ es)
        /\ forall ref, In ref issues -> owed proj repo ref -> accounted unicodeLower activity proj repo ref (past ++ es))) as H.
  { intros done todo. revert done. induction todo as [|ref todo IH]; intros done s0 past E [Hw Hd].
    - rewrite app_nil_r in E. subst done. cbn. by rewrite app_nil_r.
    - cbn [fold_all]. apply does_bind. eapply does_mono; [|apply sweep_issue_looked]. intros s1 es [Hc Ha].
      eapply does_mono; [|apply (IH (done ++ [ref])%list s1 (past ++ es)%list)].
      + intros s' es' H0. rewrite app_assoc. exact H0.
      + by rewrite <- app_assoc.
      + split; [by eapply within_step|]. intros ref' [Hin|[<-|[]]]%in_app_iff Ho; apply accounted_app; [left; by apply Hd|right; by apply Ha]. }
  apply (H [] issues s [d] eq_refl). split; [|done]. unfold within_budget.
  change (made [d]) with (@nil Task). change (active_made [d]) with (@nil Task). change (failures [d]) with 0. cbn [length].
  repeat split; lia.
Qed.

End Lemmas.

(** ** The theorems *)

(** C34: a sweep mints within its budget: whatever the forge lists and however the calls
    fail, the Tasks that the pass over a repository's Issues creates are no more than what
    the budget is charged and the mints that failed, the ones created active likewise, and
    the budget is charged no further than its two caps. *)
Theorem sweep_mints_within_the_budget (unicodeLower : string -> string) (issueSize : Issue -> option Z)
    (sp : option (Spiller Comment)) (reader : View) (m : bool) (activity : string) (proj : Project) (repo : Repository)
    (owner name : string) (now : Time) (issues : list IssueRef) (s : SweepPass) (w : World Call) :
  let '(s', es) := run w (sweepIssues unicodeLower issueSize sp reader m activity proj repo owner name now issues s) in
  within_budget (sw_budget s) (sw_budget s') es.
Proof.
  pose proof (run_does w _ _ (sweepIssues_looked unicodeLower issueSize sp reader m activity proj repo owner name now issues s)) as H.
  destruct (run w _). exact (proj1 H).
Qed.

(** no orphan is passed over in silence: after a pass over the Issues of a repository,
    each one that is open and of an allowed reporter has its Task, by this pass or already
    there, is counted as owned, or shows as stranded with its age. *)
Theorem no_orphan_is_passed_over (unicodeLower : string -> string) (issueSize : Issue -> option Z)
    (sp : option (Spiller Comment)) (reader : View) (m : bool) (activity : string) (proj : Project) (repo : Repository)
    (owner name : string) (now : Time) (issues : list IssueRef) (s : SweepPass) (w : World Call) (ref : IssueRef) :
  In ref issues -> owed proj repo ref ->
  accounted unicodeLower activity proj repo ref
    (snd (run w (sweepIssues unicodeLower issueSize sp reader m activity proj repo owner name now issues s))).
Proof.
  exact (proj2 (run_does w _ _ (sweepIssues_looked unicodeLower issueSize sp reader m activity proj repo owner name now issues s)) ref).
Qed.

(** ** Witnesses *)

Lemma no_orphan_is_passed_over_witness :
  owed open_project zero_Repository listed_issue
  /\ accounted id "sweep" open_project zero_Repository listed_issue
       (snd (run (fun _ _ => nowhere) (sweepIssues id (fun _ => Some 0) None Cached false "sweep" open_project zero_Repository "o" "n" 5
          [listed_issue] (mkSweepPass (newSweepBudget open_project 0) 0 0 None 0)))).
Proof.
  split; [by vm_compute|]. apply (no_orphan_is_passed_over id (fun _ => Some 0) None Cached false "sweep" open_project zero_Repository
    "o" "n" 5 [listed_issue] (mkSweepPass (newSweepBudget open_project 0) 0 0 None 0) (fun _ _ => nowhere) listed_issue);
    [by left|by vm_compute].
Defined.
