(* ===== verification/Resume.v ===== *)
(** * Picking parked Tasks back up (internal/controller/resume.go, mr_only_unpark.go,
    strand.go): a park that no un-park rule re-enters is left behind for a new Task on a
    person's reply, released in place where the Task owns merge requests only, or, when it
    is stranded, re-entered up to a budget, landed, or collected. *)

From Stdlib Require Import String Ascii.
From S2P Require Import Prelude GoTime Text Api Vocabulary Machine Park ObjBudget Own Names Logins Seq Refs Corridor LivePods Escalate Drivers Calls Release Reaper Mirror Intake Proposals.

Open Scope Z_scope.
Open Scope go_scope.

(** ** Constants *)

Definition AnnAutoReentries : string := "tatara.dev/auto-reentries".
Definition AnnAutoReentryExhausted : string := "tatara.dev/auto-reentry-exhausted".
Definition AnnMergeStageParked : string := "tatara.dev/merge-stage-parked".
Definition AnnMROnlyUnparkRefused : string := "tatara.dev/mr-only-unpark-refused".
Definition AnnResumeReleasing : string := "tatara.dev/resume-releasing".
Definition resumeTriggerHumanReply : string := "human-reply".
Definition resumeTriggerAutoReentry : string := "auto-reentry".
Definition resumeTriggerAutoCollect : string := "auto-collect".
Definition UnparkClassMROnly : string := "mr-only".
Definition MROnlyUnparkReleased : string := "unparked".
Definition MROnlyUnparkRefused : string := "refused".
Definition StrandedParkReentered : string := "reentered".
Definition StrandedParkBudgetExhausted : string := "exhausted".
Definition StrandedParkCollected : string := "collected".
Definition StrandedParkMergeStage : string := "merge-stage".
Definition mrOnlyRefusalPendingCap : Z := 20.
Definition strandedParkGrace : Duration := 30 * Minute.
Definition defaultStrandedParkInterval : Duration := 60 * Second.
Definition defaultResumeNoReentryInterval : Duration := 60 * Second.

(** ** What is read off a Task and an Issue *)

Definition hasNonBotPendingEvent (t : Task) (botLogin : string) : bool :=
  existsb (fun e => (ev_Author e != botLogin) && negb (is_set (UnparkConsumedAt e))) (PendingEvents (Status t)).

(** Parked for a reason no rule re-enters. *)
Definition no_reentry (t : Task) : bool :=
  match UnparkClassFor (ParkReason (Status t)) with
  | Some (UnparkNever | UnparkRetired) => true
  | _ => false
  end.

Definition autoReentries (iss : Issue) : Z :=
  match ParseInt (annotation iss AnnAutoReentries) with
  | Some n => if n <? 0 then 0 else n
  | None => 0
  end.

Definition forgeItemFromMirror (iss : Issue) : ForgeItem :=
  let s := iss_Status iss in
  ForgeIssue (mkScmIssue (is_Number (iss_Spec iss)) (is_URL (iss_Spec iss)) (iss_Title s) (iss_Author s) (iss_Body s) "open"
    (drop_name TataraParkedLabel (iss_Labels s)) 0 0
    (map (fun c => mkIssueComment (cm_ExternalID c) (cm_Author c) (cm_Body c) (cm_CreatedAt c)) (iss_Comments s))).

Definition live_names (l : list Task) : gmap string bool := fold_left (fun live t => <[task_Name t := true]> live) l ∅.

(** [if err := ...; err != nil { if firstErr == nil { firstErr = err } }]. *)
Definition keep_first (first : option Fail) (p : Io unit) : Prog Call (result Fail (option Fail)) :=
  let! r := p in
  ok (match r with Ok _ => first | Err e => match first with None => Some e | _ => first end end).

Definition first_error (p : Io (option Fail)) : Io unit :=
  let? first := p in match first with Some e => fail e | None => ok tt end.

(** ** The texts *)

Definition mrOnlyUnparkRefusalComment (t : Task) : string :=
  let reason := ParkReason (Status t) in
  if (reason == ReasonDeployTimeout) || (reason == ReasonDeployBlocked) then
    sprintf ["tatara read the comment and is NOT restarting task `"; task_Name t; "`: the implementation finished, was ";
             "reviewed, and this merge request was ALREADY MERGED. The task then stopped AFTER THE ";
             "MERGE, at the deploy step, with `"; reason; "`."; newline; newline;
             "That blocker is outside the code - most likely the deploy pipeline or the deployed ";
             "cluster itself - so re-running the agent cannot clear it, and re-driving a task whose ";
             "merge already happened is how a double-merge happens. This merge request is therefore ";
             "left exactly as it is: merged, and untouched from here."; newline; newline;
             "Clear the deploy blocker by hand, outside this merge request. Further comments here ";
             "will not restart the task."]
  else
    sprintf ["tatara read the comment and is NOT restarting task `"; task_Name t; "`: the implementation finished and was ";
             "reviewed, and the task then stopped at the MERGE with `"; reason; "`."; newline; newline;
             "That blocker is outside the code - a credential, a protected branch, a sibling repo that ";
             "already landed, or somebody else pushing to this branch - so re-running the agent cannot ";
             "clear it, and re-driving a merge that may have partially succeeded is how a double-merge ";
             "happens. This merge request is therefore left exactly as it is."; newline; newline;
             "Clear the blocker and merge it by hand. Further comments here will not restart the task."].

Definition mergeStageParkComment (t : Task) : string :=
  sprintf ["tatara has stopped working this issue by itself: the implementation finished and was reviewed, ";
           "and the task then stopped at the MERGE with `"; ParkReason (Status t); "` (task `"; task_Name t; "`).";
           newline; newline;
           "Restarting the implementation cannot clear a merge-stage blocker, so the merge request is ";
           "left OPEN rather than closed and rebuilt. Clear the blocker and merge it, or comment here to ";
           "have tatara implement the issue again from scratch."; newline; newline;
           "The issue stays open and is labelled `"; TataraParkedLabel; "`, so the platform will not spend another agent on it ";
           "on its own."].

Definition strandedDeadEndComment (t : Task) : string :=
  sprintf ["tatara has stopped working this issue by itself: "; FormatInt MaxAutoReentries; " automatic attempts have now ended in ";
           "`"; ParkReason (Status t); "` (most recently task `"; task_Name t; "`)."; newline; newline;
           "The issue stays open and is labelled `"; TataraParkedLabel; "`, so the platform will not spend another agent ";
           "on it on its own. Comment here to pick it back up."].

Definition resume_close_body (t : Task) (trigger : string) : string :=
  if trigger == resumeTriggerAutoCollect then
    sprintf ["Closing: the issue this PR was opened for is closed, and tatara's task ended in `"; ParkReason (Status t); "`."]
  else
    sprintf ["Closing: tatara is restarting this issue ("; trigger; ") after the previous attempt ended in `";
             ParkReason (Status t); "`."].

Section Resume.

(** [strings.ToLower], and beyond ASCII; the path of [url.Parse]; the sizes of the mirrors
    and the spiller of comments; the view of [APIReader] and whether metrics are wired; the
    activity label of the minter; the wall clock of an un-park. *)
Context (toLower unicodeLower : string -> string) (parse : string -> option string)
  (issueSize : Issue -> option Z) (mrSize : MergeRequest -> option Z) (sp : option (Spiller Comment))
  (reader : View) (m : bool) (activity : string) (proj : Project) (wall : Time).

Definition metric (name : string) (labels : list string) : Io unit := if m then tell (Count name labels) else ok tt.

(** ** Leaving a Task behind *)

Definition liveIssue (name : string) : Io (option Issue) := found (api (GetIssue reader name)).

(** One the bot has open from the Task's branch, not closed by a resume before. *)
Definition still_open (t : Task) (mr : MergeRequest) : bool :=
  mr_open mr && (annotation mr AnnTerminalClosed == "") && ourMR toLower proj t mr.

Definition close_bot_mr (t : Task) (trigger : string) (mr : MergeRequest) : Io unit :=
  let? _ := scanWriter in
  let? repo := repositoryFor (mrs_RepositoryRef (mr_Spec mr)) in
  let? _ := forge_write m proj "close_pr" (ClosePR (repo_URL repo) (mrs_Number (mr_Spec mr)) (resume_close_body t trigger)) in
  let? _ := annotate mr AnnTerminalClosed (task_Name t) in ok tt.

(** What a merge stopped at stays open, unless the Issues are closed too. *)
Definition closeTaskBotMRs (t : Task) (trigger : string) : Io unit :=
  if (trigger != resumeTriggerAutoCollect) && IsMergeStagePark (ParkReason (Status t)) then ok tt
  else
    let? mrs := ownedMRs t in
    foreach mrs (fun mr => if still_open t mr then close_bot_mr t trigger mr else ok tt).

(** Best effort: no error leaves it. *)
Definition stripForgeParkedLabel (iss : Issue) : Io unit :=
  if negb (str_mem (iss_Labels (iss_Status iss)) TataraParkedLabel) then ok tt
  else
    let! r := (let? _ := scanWriter in repositoryFor (is_RepositoryRef (iss_Spec iss))) in
    match r with
    | Err _ => ok tt
    | Ok repo =>
        match RepoSlugFromURL toLower parse (repo_URL repo) with
        | None => ok tt
        | Some slug =>
            Do (RemoveLabel (with_sigil slug "#"%char (is_Number (iss_Spec iss))) TataraParkedLabel) (fun a =>
              RecordSCM m proj "remove_label" a)
        end
    end.

Record mintJob := mkMintJob { mj_item : ForgeItem; mj_repo : Repository; mj_name : string }.

(** One owned Issue is let go of; an open one is to be minted anew. *)
Definition let_go_of (openNames : list string) (s : Task * list mintJob) (name : string) : Io (Task * list mintJob) :=
  let '(t, jobs) := s in
  let? live := liveIssue name in
  match live with
  | None => ok (t, jobs)
  | Some iss =>
      if negb (str_mem openNames name) then
        let? t := SeverIssueFromTask t name SeverOrphan in ok (t, jobs)
      else
        let? _ := stripForgeParkedLabel iss in
        let? t := SeverIssueFromTask t name SeverOrphan in
        let? repo := repositoryFor (is_RepositoryRef (iss_Spec iss)) in
        ok (t, (jobs ++ [mkMintJob (forgeItemFromMirror iss) repo name])%list)
  end.

Definition mint_again (j : mintJob) : Io unit :=
  let? _ := MintForItem unicodeLower issueSize mrSize None reader m activity proj (mj_repo j) (mj_item j) false in ok tt.

Definition is_open (iss : Issue) : bool := iss_State (iss_Status iss) == "open".

Definition resumeOne (t : Task) (live : gmap string bool) (trigger : string) : Io unit :=
  let? issues := ownedIssues t in
  let allNames := map iss_Name issues in
  let openNames := map iss_Name (List.filter is_open issues) in
  let releasing := annotation t AnnResumeReleasing == "true" in
  if (match allNames with [] => true | _ => false end) && negb releasing then ok tt
  else
    let? t := (if releasing then ok t else annotate t AnnResumeReleasing "true") in
    let? _ := closeTaskBotMRs t trigger in
    let? (t, jobs) := fold_prog allNames (t, []) (let_go_of openNames) in
    let? _ := deleteReapedTask toLower m proj t live in
    foreach jobs mint_again.

(** ** A Task with merge requests only *)

Definition mrOnlyUnparkOwnership (t : Task) : Io (list MergeRequest * bool) :=
  let? issues := ownedIssues t in
  match issues with
  | _ :: _ => ok ([], false)
  | [] => let? mrs := ownedMRs t in ok (mrs, match mrs with [] => false | _ => true end)
  end.

(** The park that was seen is still on, and a person's event is still to be spent. *)
Definition still_asked (want : string) (fresh : Task) : bool :=
  Parked fresh && (ParkReason (Status fresh) == want) && hasNonBotPendingEvent fresh (botLoginOf proj).

(** The Task that was written, [None] where it was left alone. *)
Definition applyMROnlyUnpark (t : Task) (now : Time) : Io (option Task) :=
  on_conflict
    (let? fresh := api (GetTask reader (task_Name t)) in
     if negb (still_asked (ParkReason (Status t)) fresh) then ok None
     else match UnparkMaintainerComment fresh (botLoginOf proj) now wall with
          | Err e => fail (StageFault e)
          | Ok fresh => let? _ := write (UpdateTaskStatus fresh) in ok (Some fresh)
          end).

(** The caller's copy of the Task. *)
Definition spendMaintainerComment (t : Task) (now : Time) : Io Task :=
  on_conflict
    (let? fresh := api (GetTask reader (task_Name t)) in
     if negb (hasNonBotPendingEvent fresh (botLoginOf proj)) then ok t
     else let spent := ConsumeUnparkEvents fresh (botLoginOf proj) now wall in
          let? _ := write (UpdateTaskStatus spent) in ok spent).

Definition carries_request (requestID : string) (mr : MergeRequest) : bool :=
  existsb (fun pc => pc_RequestID pc == requestID) (mr_PendingComments (mr_Status mr)).

(** Once per request, and only where there is room. *)
Definition queue_notice (requestID body : string) (cur : MergeRequest) : MergeRequest :=
  if carries_request requestID cur then cur
  else if mrOnlyRefusalPendingCap <=? Z.of_nat (length (mr_PendingComments (mr_Status cur))) then cur
  else cur <| mr_Status ::= fun s =>
         s <| mr_PendingComments ::= fun l => (l ++ [mkPendingComment requestID "comment" body ""])%list |> |>.

(** Whether the merge request that was written carries the notice; one that is too large
    for it is passed over. *)
Definition post_refusal (requestID body : string) (mr : MergeRequest) : Io bool :=
  if mr_State (mr_Status mr) == "closed" then ok false
  else
    let! r := fitMergeRequest mrSize sp (mr_Name mr) (queue_notice requestID body) in
    match r with
    | Ok written => ok (carries_request requestID written)
    | Err (FitFault ErrObjectTooLarge) => ok false
    | Err e => fail e
    end.

Definition refuseMROnlyUnpark (t : Task) (mrs : list MergeRequest) (now : Time) : Io unit :=
  let? fresh := api (GetTask reader (task_Name t)) in
  if negb (still_asked (ParkReason (Status t)) fresh) then ok tt
  else
    let reason := ParkReason (Status fresh) in
    let latch := FormatRFC3339 (parkedAt fresh) in
    if annotation fresh AnnMROnlyUnparkRefused == latch then
      let? _ := spendMaintainerComment fresh now in ok tt
    else
      let body := mrOnlyUnparkRefusalComment fresh in
      let requestID := sprintf ["mr-only-unpark-refused-"; task_Name fresh; "-"; latch] in
      let? posted := fold_prog mrs false (fun any mr => let? p := post_refusal requestID body mr in ok (any || p)) in
      if negb posted then ok tt
      else
        let? t := annotate fresh AnnMROnlyUnparkRefused latch in
        let? _ := metric "mr_only_unpark" [proj_Name proj; reason; MROnlyUnparkRefused] in
        let? _ := spendMaintainerComment t now in ok tt.

Definition driveMROnlyUnpark (t : Task) (mrs : list MergeRequest) (now : Time) : Io unit :=
  let reason := ParkReason (Status t) in
  if IsMergeStagePark reason then refuseMROnlyUnpark t mrs now
  else
    let? released := applyMROnlyUnpark t now in
    match released with
    | None => ok tt
    | Some _ =>
        let? _ := metric "mr_only_unpark" [proj_Name proj; reason; MROnlyUnparkReleased] in
        metric "task_unparked" [reason; UnparkClassMROnly]
    end.

(** ** The pass over the parks a person has replied to *)

(** A park of the project that no rule re-enters and a person has replied to. *)
Definition replied_to (t : Task) : bool :=
  (ProjectRef (Spec t) == proj_Name proj) && Parked t && no_reentry t && hasNonBotPendingEvent t (botLoginOf proj).

Definition resume_task (live : gmap string bool) (now : Time) (t : Task) : Io unit :=
  if annotation t AnnResumeReleasing == "true" then resumeOne t live resumeTriggerHumanReply
  else
    let? (mrs, mrOnly) := mrOnlyUnparkOwnership t in
    if mrOnly then driveMROnlyUnpark t mrs now else resumeOne t live resumeTriggerHumanReply.

Definition resumeNoReentryParks (now : Time) : Io unit :=
  let? l := api ListTasks in
  let live := live_names l in
  first_error (fold_prog l None (fun first t =>
    unless_cancelled (if replied_to t then keep_first first (resume_task live now t) else ok first))).

Definition resumeNoReentryParksPaced (last : gmap string Time) (now : Time) : Prog Call (result Fail Duration * gmap string Time) :=
  paced defaultResumeNoReentryInterval last (proj_Name proj) now (resumeNoReentryParks now).

(** ** Stranded parks *)

Definition strandedCandidate (now : Time) (t : Task) : bool :=
  (ProjectRef (Spec t) == proj_Name proj) && Parked t && no_reentry t
  && (ParkReason (Status t) != ReasonBacklogSweep)
  && negb (hasNonBotPendingEvent t (botLoginOf proj))
  && After now (Add (parkedAt t) strandedParkGrace).

(** The notice and the label on an open Issue, once per marker. *)
Definition land_issue (t : Task) (marker body outcome : string) (now : Time) (iss : Issue) : Io unit :=
  if annotation iss marker != "" then ok tt
  else
    let? repo := repositoryFor (is_RepositoryRef (iss_Spec iss)) in
    let? _ := commentAndParkIssue toLower parse m proj iss repo (mkParkNotice marker (FormatRFC3339 now) body) in
    tell (Count "stranded_park" [proj_Name proj; ParkReason (Status t); outcome]).

Definition landStrandedDeadEnd (t : Task) (open : list Issue) (now : Time) : Io unit :=
  let? _ := scanWriter in
  foreach open (land_issue t AnnAutoReentryExhausted (strandedDeadEndComment t) StrandedParkBudgetExhausted now).

Definition landMergeStagePark (t : Task) (open : list Issue) (now : Time) : Io unit :=
  let? _ := scanWriter in
  foreach open (land_issue t AnnMergeStageParked (mergeStageParkComment t) StrandedParkMergeStage now).

(** One re-entry is charged to an Issue. *)
Definition charge_reentry (t : Task) (iss : Issue) : Io unit :=
  let? _ := annotate iss AnnAutoReentries (FormatInt (autoReentries iss + 1)) in
  tell (Count "stranded_park" [proj_Name proj; ParkReason (Status t); StrandedParkReentered]).

Definition driveOneStrandedPark (t : Task) (live : gmap string bool) (now : Time) : Io unit :=
  let? issues := ownedIssues t in
  let open := List.filter is_open issues in
  match open, issues with
  | [], [] => ok tt
  | [], _ =>
      let? _ := tell (Count "stranded_park" [proj_Name proj; ParkReason (Status t); StrandedParkCollected]) in
      resumeOne t live resumeTriggerAutoCollect
  | _, _ =>
      if IsMergeStagePark (ParkReason (Status t)) then landMergeStagePark t open now
      else if existsb (fun iss => MaxAutoReentries <=? autoReentries iss) open then landStrandedDeadEnd t open now
      else
        let? _ := foreach open (charge_reentry t) in
        resumeOne t live resumeTriggerAutoReentry
  end.

Definition driveStrandedParks (now : Time) : Io unit :=
  let? l := api ListTasks in
  let live := live_names l in
  first_error (fold_prog l None (fun first t =>
    unless_cancelled (if strandedCandidate now t then keep_first first (driveOneStrandedPark t live now) else ok first))).

Definition driveStrandedParksPaced (last : gmap string Time) (now : Time) : Prog Call (result Fail Duration * gmap string Time) :=
  paced defaultStrandedParkInterval last (proj_Name proj) now (driveStrandedParks now).

End Resume.

(** ** What the theorems say *)

(** The mirror is no longer the Task's: it is gone, or was written without the Task as its
    controller. *)
Definition parted (reader : View) (owner name : string) (es : list (Did Call)) : Prop :=
  In (did (GetIssue reader name) (Err ApiMissing)) es \/ returned name owner es.

(** The deletion of the Task was asked for, and it is gone or going. *)
Definition buried (owner : string) (es : list (Did Call)) : Prop :=
  In (did (DeleteTask owner) None) es \/ In (did (DeleteTask owner) (Some ApiMissing)) es.

(** A call that creates or deletes a Task finds every mirror parted from the Task, and one
    that creates finds that Task deleted. *)
Definition left_behind (reader : View) (names : list string) (owner : string) (past : list (Did Call)) (d : Did Call) : Prop :=
  (is_set (deleted_task d) || is_set (created_task d) = true -> forall n, In n names -> parted reader owner n past)
  /\ (is_set (created_task d) = true -> buried owner past).

(** The API server answers reads of Tasks and of Issues with the objects asked for. *)
Definition sane (es : list (Did Call)) : Prop := true_names es /\ honest es.

(** ** Lemmas *)

Lemma sane_app es es' : sane (es ++ es') -> sane es /\ sane es'.
Proof. intros [H1 H2]. apply true_names_app in H1. apply honest_app in H2. unfold sane. tauto. Qed.

Lemma parted_mono reader owner n es es' : incl es es' -> parted reader owner n es -> parted reader owner n es'.
Proof. intros Hi [H|H]; [left; by apply Hi|right; by eapply returned_mono]. Qed.

Lemma annotate_still `{Object A} (o : A) k v :
  (forall v n x, still (did (get_obj v n) x)) -> (forall a x, still (did (update_obj a) x)) -> each still (annotate o k v).
Proof. intros H1 H2. unfold annotate. each_go ltac:(first [apply H1|apply H2]). Qed.

Lemma annotate_name `{Object A} (o : A) k v : does (annotate o k v) (fun r _ => forall o', r = Ok o' -> obj_name o' = obj_name o).
Proof.
  unfold annotate. eapply does_mono; [|apply does_on_error with (R := fun r _ => forall o', r = Ok o' -> obj_name o' = obj_name o)].
  - intros r es (before & es' & -> & Hr). exact Hr.
  - intros [cur|e]; [|done]. play. intros [e|]; [done|]. play. intros o' [= <-]. apply with_ann_name.
Qed.

Lemma owned_each {A} (P : Did Call -> Prop) get refs : (forall n x, P (did (get n) x)) -> each P (owned_of (A := A) get refs).
Proof. intros H. induction refs as [|n refs IH]; cbn [owned_of]; each_go ltac:(apply H); exact IH. Qed.

Lemma drop_still (iss : Issue) toLower parse m proj : each still (stripForgeParkedLabel toLower parse m proj iss).
Proof. unfold stripForgeParkedLabel, RecordSCM, scanWriter, repositoryFor. still_go. Qed.

Lemma sever_still t name mode : each still (SeverIssueFromTask t name mode).
Proof. unfold SeverIssueFromTask, detach_issue, orphan_owner, existing_owners, strip_parked_label. still_go. Qed.

Lemma sever_name t name :
  does (SeverIssueFromTask t name SeverOrphan) (fun r es => true_names es -> forall t', r = Ok t' -> task_Name t' = task_Name t).
Proof.
  unfold SeverIssueFromTask. apply does_try. eapply does_mono; [|apply detach_issue_name]. intros [t'|e] es H; [|by intros].
  assert (forall r es', (forall t2, r = Ok t2 -> t2 = t') -> true_names (es ++ es') ->
            forall t2 : Task, r = Ok (E := Fail) t2 -> task_Name t2 = task_Name t) as Hn.
  { intros r es' Hr Ht t2 E. apply true_names_app in Ht as [Ht _]. rewrite (Hr t2 E). by apply H. }
  apply does_try. eapply does_mono; [|apply does_True]. intros [[u|]|e] es1 _; [..|by apply Hn].
  - apply does_try. eapply does_mono; [|apply does_True]. intros [o|e] es2 _; cbn; rewrite ?app_nil_r; apply Hn; intros t2 [=]; done.
  - cbn. rewrite ?app_nil_r. apply Hn; intros t2 [=]; done.
Qed.

Section Order.

Context (toLower : string -> string) (parse : string -> option string) (reader : View) (m : bool) (proj : Project).

(** What a program leaves still, and what its value then says. *)
Definition settles {A} (p : Io A) (R : A -> list (Did Call) -> Prop) : Prop :=
  does p (fun r es => Forall still es /\ (sane es -> forall a, r = Ok a -> R a es)).

Lemma settles_still {A} (p : Io A) : each still p -> settles p (fun _ _ => True).
Proof. intros H. eapply does_mono; [|exact H]. by intros. Qed.

Lemma settles_and {A} (p : Io A) R :
  each still p -> does p (fun r es => sane es -> forall a, r = Ok a -> R a es) -> settles p R.
Proof. intros H1 H2. exact (does_and _ _ _ H1 H2). Qed.

Lemma settles_mono {A} (p : Io A) (R R' : A -> list (Did Call) -> Prop) :
  (forall a es, R a es -> R' a es) -> settles p R -> settles p R'.
Proof. intros H. apply does_mono. intros r es [Hs Hr]. split; [done|]. eauto. Qed.

Lemma settles_try {A B} (p : Io A) (f : A -> Io B) (R : A -> list (Did Call) -> Prop) (R' : B -> list (Did Call) -> Prop) :
  settles p R -> (forall a es, (sane es -> R a es) -> settles (f a) (fun b es' => sane es -> R' b (es ++ es'))) -> settles (try p f) R'.
Proof.
  intros Hp Hf. apply does_try. eapply does_mono; [|exact Hp]. intros [a|e] es [Hs Ha]; [|by split].
  eapply does_mono; [|apply (Hf a es); auto]. intros b es' [Hs' Hb]. split; [by apply Forall_app|].
  intros H. apply sane_app in H as [H H']. eauto.
Qed.

Lemma let_go_of_parts openNames t jobs name :
  settles (let_go_of toLower parse reader m proj openNames (t, jobs) name)
    (fun s es => task_Name (fst s) = task_Name t /\ parted reader (task_Name t) name es).
Proof.
  assert (forall before, settles (SeverIssueFromTask t name SeverOrphan)
            (fun t' es => task_Name t' = task_Name t /\ parted reader (task_Name t) name (before ++ es))) as Hsever.
  { intros before. apply settles_and; [apply sever_still|].
    eapply does_mono; [|exact (does_and _ _ _ (sever_name t name) (sever_returns t name))].
    intros r es [Hn Hr] [Ht _] t' ->. split; [by apply Hn|]. right. eapply returned_mono; [|by apply Hr]. apply incl_appr, incl_refl. }
  unfold let_go_of, liveIssue. apply does_try, does_found. intros [iss|e]; cbn [IsNotFound].
  - destruct (negb _).
    + apply does_try. eapply does_mono; [|apply (Hsever [did (GetIssue reader name) (Ok iss)])].
      intros [t'|e] es [Hs H]; (split; [constructor; [by split|by rewrite ?app_nil_r]|]); [|by intros].
      cbn. rewrite app_nil_r. intros Hsane s [= <-]. apply (sane_app [_]) in Hsane as [_ Hsane]. by apply H.
    + apply does_try. eapply does_mono; [|apply drop_still]. intros [u|e] es0 Hs0; [|split; [by constructor|by intros]].
      apply does_try. eapply does_mono; [|apply (Hsever (did (GetIssue reader name) (Ok iss) :: es0))].
      intros [t'|e] es [Hs H]; [|split; [constructor; [by split|by apply Forall_app]|by intros]].
      cbn. intros [repo|e]; cbn; (split; [constructor; [by split|apply Forall_app; split; [done|apply Forall_app; by repeat constructor]]|]); [|by intros].
      intros Hsane s [= <-]. cbn. destruct H with (a := t') as [Hn Hp]; [|done|].
      { apply (sane_app [_]) in Hsane as [_ Hsane]. apply sane_app in Hsane as [_ Hsane]. by apply sane_app in Hsane as [? _]. }
      split; [done|]. eapply parted_mono; [|exact Hp]. intros x Hx. cbn in *. rewrite !in_app_iff in *. tauto.
  - destruct e; cbn; (split; [by repeat constructor|]); intros _ s [= <-]. split; [done|]. left. by left.
Qed.

Lemma let_go_all_parts openNames names : forall t jobs,
  settles (fold_prog names (t, jobs) (let_go_of toLower parse reader m proj openNames))
    (fun s es => task_Name (fst s) = task_Name t /\ forall n, In n names -> parted reader (task_Name t) n es).
Proof.
  induction names as [|n names IH]; intros t jobs; cbn [fold_prog]; [split; [constructor|by intros _ s [= <-]]|].
  eapply settles_try; [apply let_go_of_parts|]. intros [t' jobs'] es H. eapply does_mono; [|apply IH].
  intros r es' [Hs Hr]. split; [done|]. intros Hsane' s E Hsane. destruct (H Hsane) as [Hn Hp], (Hr Hsane' s E) as [Hn' Hp'].
  cbn in Hn. rewrite Hn in *. split; [done|]. intros k [<-|Hk].
  - eapply parted_mono; [|exact Hp]. apply incl_appl, incl_refl.
  - eapply parted_mono; [|by apply Hp']. apply incl_appr, incl_refl.
Qed.

Lemma closeTaskBotMRs_still t trigger : each still (closeTaskBotMRs toLower m proj t trigger).
Proof.
  unfold closeTaskBotMRs, close_bot_mr, ownedMRs, scanWriter, repositoryFor, forge_write, RecordSCM. still_go.
  all: first [by apply owned_each|by apply annotate_still].
Qed.

Lemma deletion_makes_none t live : each (fun d => created_task d = None) (deleteReapedTask toLower m proj t live).
Proof.
  unfold deleteReapedTask, ownedIssues, ownedMRs, releaseOwnership, release_issues, release_mrs, carryHumanReviewRounds,
    release_artifact, MutateArtifactOwnerRefs, annotate.
  each_go ltac:(reflexivity); by apply owned_each.
Qed.

(** A deletion creates nothing, deletes one Task, and answers once that is asked for. *)
Lemma deletion_buries t live :
  does (deleteReapedTask toLower m proj t live) (fun r es =>
    Forall (fun d => created_task d = None) es /\ (is_ok r = true -> buried (task_Name t) es)).
Proof.
  apply does_and.
  - apply deletion_makes_none.
  - unfold deleteReapedTask. apply does_try. eapply does_mono; [|apply does_True]. intros [u|e] es _; [|by intros].
    apply does_try, does_bind, does_found. intros [e|]; cbn.
    + destruct e; cbn; try by intros.
      destruct m; cbn; intros; right; apply in_app_iff; right; by left.
    + destruct m; cbn; intros; left; apply in_app_iff; right; by left.
Qed.

End Order.

(** From here on nothing is asked but what is known. *)
Lemma left_ready reader names owner past es : (forall n, In n names -> parted reader owner n past) -> buried owner past ->
  guarded (left_behind reader names owner) past es.
Proof.
  intros Hp Hb. apply (guarded_once _ (fun past => (forall n, In n names -> parted reader owner n past) /\ buried owner past)); [..|by split].
  - intros past' d [Hp' Hb']. by split.
  - intros past' d [Hp' Hb']. split; [|unfold buried in *; rewrite !in_app_iff; tauto].
    intros n Hn. eapply parted_mono; [|by apply Hp']. apply incl_appl, incl_refl.
Qed.

Lemma still_left reader names owner past es : Forall still es -> guarded (left_behind reader names owner) past es.
Proof. intros H. apply (guarded_free _ still); [|done]. intros past' d [H1 H2]. unfold left_behind. by rewrite H1, H2. Qed.

(** A still program in front. *)
Lemma left_step {A B} reader names owner past (p : Io A) (f : A -> Io B) (R : A -> list (Did Call) -> Prop) :
  settles p R ->
  (forall a es, (sane es -> R a es) ->
    does (f a) (fun _ es' => sane ((past ++ es) ++ es') -> guarded (left_behind reader names owner) (past ++ es) es')) ->
  does (try p f) (fun _ es => sane (past ++ es) -> guarded (left_behind reader names owner) past es).
Proof.
  intros Hp Hf. apply does_try. eapply does_mono; [|exact Hp]. intros [a|e] es [Hs Ha]; [|intros _; by apply still_left].
  eapply does_mono; [|apply (Hf a es); auto]. intros b es' H Hsane. apply guarded_app. split; [by apply still_left|]. apply H. by rewrite <- app_assoc.
Qed.

Lemma resumeOne_order (toLower unicodeLower : string -> string) (parse : string -> option string)
    (issueSize : Issue -> option Z) (mrSize : MergeRequest -> option Z) (reader : View) (m : bool) (activity : string)
    (proj : Project) (t : Task) (live : gmap string bool) (trigger : string) :
  does (resumeOne toLower unicodeLower parse issueSize mrSize reader m activity proj t live trigger)
    (fun _ es => sane ([] ++ es) -> guarded (left_behind reader (IssueRefs (Status t)) (task_Name t)) [] es).
Proof.
  unfold resumeOne, ownedIssues. eapply left_step.
  { apply settles_and; [by apply owned_each|]. eapply does_mono; [|apply owned_issues_found].
    intros r es H [_ Hh] l E. exact (H l E Hh). }
  intros issues es1 Hfound. cbn [app]. destruct (_ && _); [intros _; exact I|].
  eapply left_step with (R := fun t' _ => task_Name t' = task_Name t).
  { destruct (_ == _); [split; [constructor|by intros _ t' [= <-]]|]. apply settles_and; [by apply annotate_still|].
    eapply does_mono; [|apply annotate_name]. intros r es H _. exact H. }
  intros t1 es2 Hname1. eapply left_step; [apply settles_still, closeTaskBotMRs_still|]. intros _ es3 _.
  eapply left_step; [apply let_go_all_parts|]. intros [t2 jobs] es4 Hparts. cbn [fst] in Hparts.
  apply does_try. eapply does_mono; [|apply deletion_buries].
  set (past := (((es1 ++ es2) ++ es3) ++ es4)).
  assert (forall rest, sane (past ++ rest) -> task_Name t2 = task_Name t /\
            forall n, In n (IssueRefs (Status t)) -> parted reader (task_Name t) n past) as Hall.
  { intros rest Hsane. apply sane_app in Hsane as [Hsane _].
    apply sane_app in Hsane as [Hsane H4]. apply sane_app in Hsane as [Hsane _]. apply sane_app in Hsane as [H1 H2].
    destruct (Hparts H4) as [Hn Hp]. rewrite (Hname1 H2) in *. split; [done|]. intros n Hin.
    destruct (Hfound H1 n Hin) as [Hl|Hl].
    - eapply parted_mono; [|by apply Hp]. apply incl_appr, incl_refl.
    - right. left. subst past. rewrite !in_app_iff. tauto. }
  assert (forall es5 rest, Forall (fun d => created_task d = None) es5 -> sane (past ++ es5 ++ rest) ->
            guarded (left_behind reader (IssueRefs (Status t)) (task_Name t)) past es5) as Hdel.
  { intros es5 rest H5 Hsane. destruct (Hall _ Hsane) as [_ Hp].
    apply (guarded_each _ (fun past => forall n, In n (IssueRefs (Status t)) -> parted reader (task_Name t) n past)
      (fun d => created_task d = None)); [..|done|done].
    - intros past' d Hp' Hd. unfold left_behind. rewrite Hd. by split.
    - intros past' d Hp' n Hn. eapply parted_mono; [|by apply Hp']. apply incl_appl, incl_refl. }
  intros [u|e] es5 [H5 Hb]; [|intros Hsane; apply (Hdel es5 []); [done|by rewrite app_nil_r]].
  eapply does_mono; [|apply does_True]. intros r es6 _ Hsane. apply guarded_app. split; [by apply (Hdel es5 es6)|].
  destruct (Hall _ Hsane) as [Hn Hp]. apply left_ready.
  - intros n Hin. eapply parted_mono; [|by apply Hp]. apply incl_appl, incl_refl.
  - specialize (Hb eq_refl). rewrite Hn in Hb. unfold buried in *. rewrite !in_app_iff. tauto.
Qed.

(** *** Automatic re-entries *)

(** Leaves every Task and every pull request. *)
Definition inert (d : Did Call) : Prop := still d /\ closed_pr d = None.

Ltac inert_go := each_go ltac:(by repeat constructor).

Lemma annotate_inert `{Object A} (o : A) k v :
  (forall v n x, inert (did (get_obj v n) x)) -> (forall a x, inert (did (update_obj a) x)) -> each inert (annotate o k v).
Proof. intros H1 H2. unfold annotate. each_go ltac:(first [apply H1|apply H2]). Qed.

Lemma annotate_writes (iss : Issue) k v :
  does (annotate iss k v) (fun r es => honest es -> is_ok r = true ->
    exists o, In (did (UpdateIssue o) None) es /\ iss_Name o = iss_Name iss /\ annotation o k = v).
Proof.
  unfold annotate. eapply does_mono; [|apply does_on_error with (R := fun r es => honest es -> is_ok r = true ->
    exists o, In (did (UpdateIssue o) None) es /\ iss_Name o = iss_Name iss /\ annotation o k = v)].
  - intros r es (before & es' & -> & H) Hh Hr. apply honest_app in Hh as [_ Hh].
    destruct (H Hh Hr) as (o & Ho & Hn). exists o. split; [|done]. apply in_app_iff. by right.
  - intros [cur|e]; [|done]. play. intros [e|]; [done|]. play. intros Hh _.
    exists (set_annotation cur k v). split; [right; by left|]. split; [apply (Hh Cached (iss_Name iss) cur); by left|].
    unfold annotation. cbn. by rewrite lookup_insert_eq.
Qed.

Lemma autoReentries_nonneg iss : 0 <= autoReentries iss.
Proof. unfold autoReentries. destruct (ParseInt _) as [n|]; [|lia]. destruct (Z.ltb_spec n 0); lia. Qed.

Lemma autoReentries_written (iss o : Issue) : autoReentries iss < MaxAutoReentries ->
  annotation o AnnAutoReentries = FormatInt (autoReentries iss + 1) -> autoReentries o = autoReentries iss + 1.
Proof.
  pose proof (autoReentries_nonneg iss). unfold MaxAutoReentries. intros Hm Ho. unfold autoReentries at 1. rewrite Ho, FormatInt_parse; [|unfold two63; lia].
  destruct (Z.ltb_spec (autoReentries iss + 1) 0); lia.
Qed.

(** The re-entry was charged to the Issue. *)
Definition paid (es : list (Did Call)) (iss : Issue) : Prop :=
  exists o, In (did (UpdateIssue o) None) es /\ iss_Name o = iss_Name iss /\ autoReentries o = autoReentries iss + 1.

Lemma paid_mono es es' iss : incl es es' -> paid es iss -> paid es' iss.
Proof. intros Hi (o & Ho & H). exists o. split; [by apply Hi|done]. Qed.

Lemma charge_pays proj t open : (forall iss, In iss open -> autoReentries iss < MaxAutoReentries) ->
  does (foreach open (charge_reentry proj t)) (fun r es =>
    Forall inert es /\ (honest es -> is_ok r = true -> forall iss, In iss open -> paid es iss)).
Proof.
  induction open as [|iss open IH]; intros Hm; [split; [constructor|by intros]|]. cbn [foreach]. apply does_try.
  assert (each inert (annotate iss AnnAutoReentries (FormatInt (autoReentries iss + 1)))) as Hi by by apply annotate_inert.
  apply does_try. eapply does_mono; [|exact (does_and _ _ _ Hi (annotate_writes iss AnnAutoReentries (FormatInt (autoReentries iss + 1))))].
  intros [o|e] es [Hs Hr]; [|by split]. intros u. cbn.
  eapply does_mono; [|apply IH; intros i Hin; apply Hm; by right].
  intros r es' [Hs' Hr']. split; [apply Forall_app; split; [apply Forall_app; split; [done|by repeat constructor]|done]|].
  intros Hh Ho i Hin. apply honest_app in Hh as [Hh Hh']. apply honest_app in Hh as [Hh _]. destruct Hin as [<-|Hin].
  - destruct (Hr Hh eq_refl) as (o' & Hw & Hn & Ha). exists o'. rewrite !in_app_iff.
    split; [by left; left|]. split; [done|]. apply autoReentries_written; [apply Hm; by left|done].
  - eapply paid_mono; [|by apply Hr']. apply incl_appr, incl_refl.
Qed.

(** What acts on a Task or a pull request does so within the budget, and charged for. *)
Definition paid_for (t : Task) (open : list Issue) (past : list (Did Call)) (d : Did Call) : Prop :=
  inert d \/ IsMergeStagePark (ParkReason (Status t)) = false
             /\ forall iss, In iss open -> autoReentries iss < MaxAutoReentries /\ paid past iss.

(** ** The theorems *)


(** automatic re-entries are bounded: when the pass over stranded parks finds open Issues
    behind a parked Task, it creates or deletes a Task, or closes a pull request, only where
    the Task did not stop at a merge, where each of the Issues has had fewer than
    [MaxAutoReentries] re-entries, and after each has been written with one more. *)
Theorem reentries_are_paid_for (toLower unicodeLower : string -> string) (parse : string -> option string)
    (issueSize : Issue -> option Z) (mrSize : MergeRequest -> option Z) (reader : View) (m : bool) (activity : string)
    (proj : Project) (t : Task) (live : gmap string bool) (now : Time) (w : World Call) (issues : list Issue)
    (before after : list (Did Call)) (d : Did Call) :
  let es := snd (run w (driveOneStrandedPark toLower unicodeLower parse issueSize mrSize reader m activity proj t live now)) in
  fst (run w (ownedIssues t)) = Ok issues -> List.filter is_open issues <> [] -> honest es -> es = before ++ d :: after ->
  paid_for t (List.filter is_open issues) before d.
Proof.
  cbv zeta. intros Hi Ho Hh E. eapply (guarded_split _ []); [|exact E]. unfold driveOneStrandedPark in *.
  match goal with |- guarded _ _ (snd (run w (try _ ?f))) => destruct (run_try w (ownedIssues t) f issues Hi) as (es' & Ees & ->) end.
  rewrite Ees in *. clear Ees E. set (es1 := snd (run w (ownedIssues t))) in *.
  assert (Forall inert es1) as H1.
  { apply (run_does w _ (fun _ es => Forall inert es)). by apply owned_each. }
  apply guarded_app. split; [apply (guarded_free _ inert); [by left|done]|]. cbn [app]. apply honest_app in Hh as [_ Hh].
  revert Hh. match goal with |- honest (snd (run_from _ _ ?p)) -> _ =>
    apply (run_from_does w p (fun _ es => honest es -> guarded (paid_for t (List.filter is_open issues)) es1 es)) end.
  assert (forall p : Io unit, each inert p -> does p (fun _ es => honest es -> guarded (paid_for t (List.filter is_open issues)) es1 es)) as Hinert.
  { intros p Hp. eapply does_mono; [|exact Hp]. intros r es Hs _. by apply (guarded_free _ inert); [left|]. }
  destruct (List.filter is_open issues) as [|o open] eqn:Eo; [done|]. destruct (IsMergeStagePark _) eqn:Em.
  - apply Hinert. unfold landMergeStagePark, land_issue, scanWriter, repositoryFor, commentAndParkIssue, forge_write, RecordSCM.
    inert_go. all: by apply annotate_inert.
  - destruct (existsb _ _) eqn:Ex.
    + apply Hinert. unfold landStrandedDeadEnd, land_issue, scanWriter, repositoryFor, commentAndParkIssue, forge_write, RecordSCM.
      inert_go. all: by apply annotate_inert.
    + assert (forall iss, In iss (o :: open) -> autoReentries iss < MaxAutoReentries) as Hm.
      { intros iss Hin. destruct (Z.leb_spec MaxAutoReentries (autoReentries iss)) as [Hle|]; [|done].
        apply Z.leb_le in Hle. assert (existsb (fun iss => MaxAutoReentries <=? autoReentries iss) (o :: open) = true); [|congruence].
        apply existsb_exists. by exists iss. }
      apply does_try. eapply does_mono; [|by apply charge_pays]. intros [u|e] es [Hs Hr].
      * eapply does_mono; [|apply does_True]. intros r es0 _ Hh. apply guarded_app.
        split; [by apply (guarded_free _ inert); [left|]|]. apply honest_app in Hh as [Hh _].
        apply (guarded_once _ (fun past => forall iss, In iss (o :: open) -> paid past iss)).
        -- intros past d0 Hp. right. split; [done|]. auto.
        -- intros past d0 Hp iss Hin. eapply paid_mono; [|by apply Hp]. apply incl_appl, incl_refl.
        -- intros iss Hin. eapply paid_mono; [|by apply Hr]. apply incl_appr, incl_refl.
      * intros _. by apply (guarded_free _ inert); [left|].
Qed.

(** ** Witnesses *)

(** A read that was answered with its own object. *)
Definition own_name (d : Did Call) : Prop :=
  match did_call d in Call X return X -> Prop with
  | GetTask _ n => fun r => match r with Ok t => task_Name t = n | Err _ => True end
  | GetIssue _ n => fun r => match r with Ok i => iss_Name i = n | Err _ => True end
  | _ => fun _ => True
  end (did_answer d).

Lemma sane_calls es : Forall own_name es -> sane es.
Proof. intros H. rewrite List.Forall_forall in H. split; intros v n o Hin; exact (H _ Hin). Qed.

(** A parked Task with one open Issue, and an outside that has them. *)
Definition stuck_task : Task :=
  owning_task <| Status ::= fun s => s <| ParkReason := ReasonTurnBudgetExhausted |> |>.

Definition stuck_issue (name : string) : Issue := (owned_issue name) <| iss_Status ::= fun s => s <| iss_State := "open"%string |> |>.

Definition one_stuck (past : list (Did Call)) (X : Type) (c : Call X) : X :=
  match c in Call Y return Y with
  | GetIssue _ name => Ok (stuck_issue name)
  | GetTask _ name => Ok (stuck_task <| task_Name := name |>)
  | GetRepository _ => Ok zero_Repository
  | c => nowhere c
  end.

Definition stuck_run : list (Did Call) :=
  snd (run one_stuck (resumeOne (fun s => s) (fun s => s) Some (fun _ => Some 0) (fun _ => Some 0) Cached false "" bot_project
        stuck_task ∅ resumeTriggerAutoReentry)).
Definition stuck_drive : list (Did Call) :=
  snd (run one_stuck (driveOneStrandedPark (fun s => s) (fun s => s) Some (fun _ => Some 0) (fun _ => Some 0) Cached false "" bot_project
        stuck_task ∅ 0)).


Lemma reentries_are_paid_for_witness :
  paid_for stuck_task [stuck_issue "i"] (firstn 24 stuck_drive) (nth 24 stuck_drive (did ContextDone true))
  /\ is_set (created_task (nth 24 stuck_drive (did ContextDone true))) = true.
Proof.
  split; [|by vm_compute].
  apply (reentries_are_paid_for (fun s => s) (fun s => s) Some (fun _ => Some 0) (fun _ => Some 0) Cached false "" bot_project
    stuck_task ∅ 0 one_stuck [stuck_issue "i"] _ (skipn 25 stuck_drive)).
  - vm_compute. reflexivity.
  - vm_compute. discriminate.
  - apply sane_calls. vm_compute. repeat constructor.
  - apply trace_at. vm_compute. lia.
Defined.
