(* ===== verification/Reviewing.v ===== *)
(** * What is said on the forge for an agent (internal/controller/reviewpost.go,
    internal/scm/review.go): the pending review of a merge request, posted once under a
    marker the forge itself keeps, the way out of a review, and the deferred comments,
    edits, closes and parks of an Issue or a merge request. *)

From Stdlib Require Import String Ascii.
From S2P Require Import Prelude GoTime Text Limits Api Vocabulary Machine Park Unpark ObjBudget Own Transition Logins Names Seq Refs Corridor Merge LivePods Escalate Drivers Calls Release Reaper Mirror Intake Adopt Ownership.

Open Scope Z_scope.
Open Scope go_scope.

(** ** The round marker (internal/scm/review.go) *)

Definition ReviewMarker (round sha : string) : string :=
  sprintf ["<!-- tatara-review round="; round; " sha="; sha; " -->"].

(** What [\s] and [\d] are to a regular expression of Go. *)
Definition re_space (c : ascii) : bool := let b := byte_of c in (b =? 9) || (b =? 10) || (b =? 12) || (b =? 13) || (b =? 32).
Definition re_digit (c : ascii) : bool := within 48 57 c.

(** The longest run of [p] in front, and the rest. *)
Fixpoint take_while (p : ascii -> bool) (s : string) : string * string :=
  match s with
  | EmptyString => (EmptyString, EmptyString)
  | String c rest => if p c then let '(a, b) := take_while p rest in (String c a, b) else (EmptyString, s)
  end.

Definition skip_spaces (s : string) : string := snd (take_while re_space s).
Definition after_spaces (s : string) : option string :=
  let '(a, b) := take_while re_space s in if a == "" then None else Some b.
Definition after_literal (lit s : string) : option string :=
  if HasPrefix s lit then Some (drop_bytes (String.length lit) s) else None.

(** [(\S+?)\s*-->]: the shortest that an end follows. *)
Fixpoint shortest_sha (s : string) : option string :=
  match s with
  | EmptyString => None
  | String c rest =>
      if re_space c then None
      else if HasPrefix (skip_spaces rest) "-->" then Some (String c EmptyString)
      else option_map (String c) (shortest_sha rest)
  end.

(** [reviewMarkerRE] at the start of a text: its two groups. *)
Definition marker_here (s : string) : option (string * string) :=
  after_literal "<!--" s ≫= fun s =>
  after_literal "tatara-review" (skip_spaces s) ≫= fun s =>
  after_spaces s ≫= fun s =>
  after_literal "round=" s ≫= fun s =>
  let '(round, s) := take_while re_digit s in
  if round == "" then None
  else after_spaces s ≫= fun s => after_literal "sha=" s ≫= fun s => option_map (pair round) (shortest_sha s).

(** The leftmost match. *)
Fixpoint ParseReviewMarker (body : string) : option (string * string) :=
  match marker_here body with
  | Some m => Some m
  | None => match body with EmptyString => None | String _ rest => ParseReviewMarker rest end
  end.

Definition HasReviewMarker (body round sha : string) : bool :=
  match ParseReviewMarker body with Some (r, s) => (r == round) && (s == sha) | None => false end.

(** ** Markers and intents *)

Definition pendingCommentMarkerPrefix : string := "<!-- tatara-request id=".
Definition editIntentMarker : string := "<!-- tatara-edit -->".
Definition closeIntentMarker : string := "<!-- tatara-close -->".
Definition parkIntentMarker : string := "<!-- tatara-park -->".

Definition ParkIntentBody (reason : string) : string := sprintf [parkIntentMarker; newline; reason].
Definition PendingCommentMarker (requestID : string) : string := sprintf [pendingCommentMarkerPrefix; requestID; " -->"].

Definition under (marker text : string) : string := sprintf [marker; newline; text].

(** [strings.TrimPrefix], and the cut at the first line break. *)
Definition TrimPrefix (s prefix : string) : string := if HasPrefix s prefix then drop_bytes (String.length prefix) s else s.

Fixpoint cut_line (s : string) : string * string :=
  match s with
  | EmptyString => (EmptyString, EmptyString)
  | String c rest => if byte_of c =? 10 then (EmptyString, rest) else let '(a, b) := cut_line rest in (String c a, b)
  end.

(** The words after a marker and a line break. *)
Definition intent_text (marker body : string) : string := TrimPrefix (TrimPrefix body marker) newline.

Definition parseEditIntent (body : string) : string * string :=
  let rest := intent_text editIntentMarker body in
  if HasPrefix rest "title: " then
    let '(line, tail) := cut_line rest in (ClampIssueTitle (TrimPrefix line "title: "), tail)
  else ("", rest).

(** ** Deciding *)

Definition reviewVerdictFromBody (body : string) : string :=
  if Contains body "## Review: approved" then "approved" else "needs-changes".

Definition finding_line (f : ReviewFinding) : string :=
  let loc := match rf_Line f with Some n => sprintf [rf_Path f; ":"; FormatInt n] | None => rf_Path f end in
  sprintf ["- "; loc; " ["; rf_Severity f; "] "; rf_Body f; newline].

Definition reviewBeltNote (repo : string) (number : Z) (pr : PendingReview) : string :=
  String.append (sprintf ["Review requested changes on "; repo; "!"; FormatInt number; " @ "; pr_SHA pr; ":"; newline])
    (join (map finding_line (pr_Findings pr))).

Definition scmFindings (l : list ReviewFinding) : list ScmReviewFinding :=
  map (fun f => mkScmReviewFinding (rf_Path f) (default 0 (rf_Line f)) (rf_Body f) (rf_Severity f)) l.

Definition terminalMREdge (task : Task) (mrs : list MergeRequest) : option Edge :=
  if (Kind (Spec task) != "review") || negb (AllMRsTerminal mrs) then None
  else if AllMRsMerged mrs then Some (mkEdge StateDone ReasonMRMergedExternally)
  else Some (mkEdge StateRejected ReasonMRClosedExternally).

Definition OwnMRsShippedEdge (task : Task) (mrs : list MergeRequest) : option Edge :=
  if (Kind (Spec task) == "review") || negb (AllMRsTerminal mrs) then None
  else if negb (AllMRsMerged mrs) then Some (mkEdge StateRejected ReasonMRClosedExternally)
  else if existsb (fun mr => is_set (mr_PendingReview (mr_Status mr))) mrs then None
  else Some (mkEdge StateMerged "").

Definition externalTerminalEdge (task : Task) (mrs : list MergeRequest) : option Edge :=
  match terminalMREdge task mrs with Some e => Some e | None => OwnMRsShippedEdge task mrs end.

Definition reviewAdvanceEdge (task : Task) (mrs : list MergeRequest) : option Edge :=
  match terminalMREdge task mrs with
  | Some e => Some e
  | None =>
      match mrs with
      | [] => None
      | _ =>
          if existsb (fun mr => is_set (mr_PendingReview (mr_Status mr))) mrs then None
          else if Kind (Spec task) == "review" then Some (mkEdge ParkTarget ReasonAwaitingHuman)
          else if existsb (fun mr => (mr_StatusWord (mr_Status mr) == "needs-changes") && (mr_State (mr_Status mr) != "merged")) mrs
          then Some (RequestChanges task)
          else Some (mkEdge StateMerged "")
      end
  end.

(** What the forge keeps a thread of. *)
Inductive Threaded := OnIssue (i : Issue) | OnMR (mr : MergeRequest).

Definition th_name (o : Threaded) : string := match o with OnIssue i => iss_Name i | OnMR mr => mr_Name mr end.
Definition th_owners (o : Threaded) : list OwnerReference := match o with OnIssue i => owners i | OnMR mr => owners mr end.
Definition th_pending (o : Threaded) : list PendingComment :=
  match o with OnIssue i => iss_PendingComments (iss_Status i) | OnMR mr => mr_PendingComments (mr_Status mr) end.
Definition th_project (o : Threaded) : string :=
  match o with OnIssue i => is_ProjectRef (iss_Spec i) | OnMR mr => mrs_ProjectRef (mr_Spec mr) end.
Definition th_repo (o : Threaded) : string :=
  match o with OnIssue i => is_RepositoryRef (iss_Spec i) | OnMR mr => mrs_RepositoryRef (mr_Spec mr) end.
Definition th_number (o : Threaded) : Z := match o with OnIssue i => is_Number (iss_Spec i) | OnMR mr => mrs_Number (mr_Spec mr) end.
Definition is_mr (o : Threaded) : bool := match o with OnIssue _ => false | OnMR _ => true end.

(** ** The programs *)

Section Reviewing.

(** [strconv.Quote]; [strings.ToLower]; the path of [url.Parse]; the sizes and the spillers,
    by project; the view of [APIReader], [Cached] where none is wired, which then refreshes
    nothing; whether metrics are wired; whether the terminal release of a Task succeeds. *)
Context (Quote toLower : string -> string) (parse : string -> option string)
  (issueSize : Issue -> option Z) (mrSize : MergeRequest -> option Z) (taskSize : Task -> option Z)
  (sp : Project -> option (Spiller Comment)) (notes : Project -> option (Spiller Note))
  (reader : View) (m : bool) (release : Task -> bool).

(** ** Plumbing of the driver *)

Definition projectAndRepo (projRef repoRef : string) : Io (Project * Repository) :=
  let? proj := api (GetProject projRef) in
  let? repo := api (GetRepository repoRef) in ok (proj, repo).

Definition driver_forge : Io unit := Do ForgeWriter (fun resolved : bool => if resolved then ok tt else fail NoForgeWriter).
Definition driver_reader : Io unit := Do ForgeReader (fun resolved : bool => if resolved then ok tt else fail NoForgeReader).

Definition owningTask (refs : list OwnerReference) : Io (option Task) :=
  match ControllerOwner refs with
  | None => ok None
  | Some name => let? t := api (GetTask Cached name) in ok (Some t)
  end.

(** The merge requests a Task controls, by name, in a view. *)
Definition controlled_mrs (v : View) (task : Task) : Io (list MergeRequest) :=
  let? l := api (ListMergeRequests v) in
  ok (owned_sorted mr_Name task (map (fun mr => (owners mr, mr)) l)).

(** The Task as the API server has it; a Task that is gone is left as it was. *)
Definition refreshTaskFromAPI (task : Task) : Io Task :=
  match reader with
  | Cached => ok task
  | Direct =>
      let? live := found (api (GetTask Direct (task_Name task))) in
      match live with
      | None => ok task
      | Some live =>
          let? _ := (if State (Status live) != State (Status task) then tell (Count "stage_drift" [State (Status task)]) else ok tt) in
          ok live
      end
  end.

Definition append_note (proj : Project) (task : Task) (body : string) : Io unit :=
  Do TimeNow (fun now : Time =>
    Do (TaskAnswers (task_Name task)) (fun '(reads, attempts) =>
      let '(e, es) := appendOperatorNoteTo (mkFitWorld taskSize (notes proj) reads attempts) body now in
      Do (CorridorEffects (task_Name task) es) (fun _ =>
        match e with None => ok tt | Some e => fail (CorridorFault e) end))).

Definition driver_park (task : Task) (reason : string) : Io unit :=
  Do TimeNow (fun now : Time => let? _ := choke (task_Name task) (fun w => ParkTask w m task reason now None) in ok tt).

Definition driver_enter (task : Task) (mrs : list MergeRequest) (e : Edge) : Io unit :=
  Do TimeNow (fun now : Time =>
    let? _ := choke (task_Name task) (fun w =>
      EnterStage w m task mrs (To e) (Reason e) now (Some (cursor_mutate task (-1)))
        (WithTerminalIssueRelease (Some release) no_opts)) in ok tt).

(** The way out of a red pipeline. *)
Definition exit_on_red (task : Task) (mrs : list MergeRequest) (red : MergeRequest) (now : Time) : Io unit :=
  Do (CIRedAnswers (task_Name task)) (fun w =>
    let s := enterCIRed Quote w m task mrs red now in
    Do (CorridorEffects (task_Name task) (st_effects s)) (fun _ =>
      match st_err s with None => ok tt | Some e => fail (CorridorFault e) end)).

(** ** Whether a review was taken over *)

(** Every merge request a Task refers to is controlled by another Task that exists. *)
Fixpoint refs_handed_over (task : Task) (refs : list string) : Io bool :=
  match refs with
  | [] => ok true
  | name :: rest =>
      let? mr := found (api (GetMergeRequest reader name)) in
      match mr with
      | None => ok false
      | Some mr =>
          match ControllerOwner (owners mr) with
          | None => ok false
          | Some owner =>
              if owner == task_Name task then ok false
              else let? o := found (api (GetTask reader owner)) in
                   if is_set o then refs_handed_over task rest else ok false
          end
      end
  end.

Definition MRRefsHandedOver (task : Task) : Io bool :=
  match MRRefs (Status task) with [] => ok false | refs => refs_handed_over task refs end.

Definition TaskTakenOver (task : Task) : Io bool :=
  if Kind (Spec task) != "review" then ok false else MRRefsHandedOver task.

(** ** The pending review *)

(** The settled review; [refused] leaves the verdict. *)
Definition settle (pr : PendingReview) (verdict : string) (mr : MergeRequest) : MergeRequest :=
  mr <| mr_Status ::= fun s =>
    (if verdict != "refused" then
       s <| mr_StatusWord := verdict |> <| mr_ReviewedSHA := pr_SHA pr |>
         <| mr_ReviewRounds ::= fun n => if (verdict == "needs-changes") && (n <? pr_Round pr) then pr_Round pr else n |>
     else s) <| mr_PendingReview := None |> |>.

Definition clearPendingReview (proj : Project) (mr : MergeRequest) (pr : PendingReview) (verdict : string) : Io MergeRequest :=
  let? _ := fitMergeRequest mrSize (sp proj) (mr_Name mr) (settle pr verdict) in ok (settle pr verdict mr).

Definition overlay (fresh : MergeRequest) (mrs : list MergeRequest) : list MergeRequest :=
  map (fun mr => if mr_Name mr == mr_Name fresh then fresh else mr) mrs.

Definition advanceAfterReview (proj : Project) (task : Task) (fresh : MergeRequest) : Io unit :=
  let? task := refreshTaskFromAPI task in
  if State (Status task) != StateAwaitingReview then ok tt
  else
    let? mrs := controlled_mrs reader task in
    let mrs := overlay fresh mrs in
    match reviewAdvanceEdge task mrs with
    | None => ok tt
    | Some edge =>
        let go mrs := if To edge == ParkTarget then driver_park task (Reason edge) else driver_enter task mrs edge in
        if To edge == StateMerged then
          Do CIReads (fun '(fw, read) =>
            let '(r, mrs) := ciRedAtReviewedHead fw read mrs in
            match r with
            | Ok (Some red) => Do TimeNow (fun now : Time => exit_on_red task mrs red now)
            | _ => go mrs
            end)
        else go mrs
    end.

Definition mirrored_finding (proj : Project) (pr : PendingReview) (c : PostedComment) : Comment :=
  let bot := botLoginOf proj in
  mkComment (pst_ExternalID c) bot (pst_Body c) (pst_CreatedAt c) (bot != "") false AgentReview
    (pst_Path c) (pst_Line c) (pst_InReplyTo c) (pr_Round pr).

(** The review with the marker of this round. *)
Definition posted_before (marked : string -> bool) (l : list Review) : string :=
  match List.find (fun rv => marked (rv_Body rv)) l with Some rv => rv_ID rv | None => "" end.

(** After the review is on the forge: its comments, the note, the settling, the advance. *)
Definition after_post (proj : Project) (repo : Repository) (task : option Task) (mr : MergeRequest) (pr : PendingReview)
    (reviewID : string) : Io unit :=
  let n := mrs_Number (mr_Spec mr) in
  Do (ListReviewComments (repo_URL repo) n reviewID) (fun r =>
    match r with
    | Err a => let? _ := tell (Count "review_post" ["error"]) in fail (ForgeFault a)
    | Ok posted =>
        let? _ := foreach posted (fun c => append_to_mr mrSize (sp proj) (mr_Name mr) (mirrored_finding proj pr c)) in
        let? _ := (match task, pr_Findings pr with
                   | Some t, _ :: _ => append_note proj t (reviewBeltNote (repo_Name repo) n pr)
                   | _, _ => ok tt
                   end) in
        let? mr := clearPendingReview proj mr pr (reviewVerdictFromBody (pr_Body pr)) in
        match task with None => ok tt | Some t => advanceAfterReview proj t mr end
    end).

(** The post, under the marker; a refusal is final. *)
Definition post_review (proj : Project) (repo : Repository) (task : option Task) (mr : MergeRequest) (pr : PendingReview)
  : Io (option string) :=
  Do (PostReview (repo_URL repo) (mrs_Number (mr_Spec mr))
        (under (ReviewMarker (FormatInt (pr_Round pr)) (pr_SHA pr)) (pr_Body pr)) (scmFindings (pr_Findings pr))) (fun r =>
    match r with
    | Ok id =>
        let? _ := RecordSCM m proj "post_review" ScmOk in
        let? _ := tell (Count "review_post" ["posted"]) in ok (Some id)
    | Err (refused, a) =>
        let? _ := RecordSCM m proj "post_review" a in
        if refused then
          let? _ := tell (Count "review_post" ["refused"]) in
          let? _ := clearPendingReview proj mr pr "refused" in
          match task with
          | None => ok None
          | Some t =>
              let? _ := controlled_mrs reader t in
              let? _ := driver_park t ReasonReviewPostRefused in ok None
          end
        else let? _ := tell (Count "review_post" ["error"]) in fail (ForgeFault a)
    end).

Definition DrainPendingReview (mr : MergeRequest) : Io unit :=
  match mr_PendingReview (mr_Status mr) with
  | None => ok tt
  | Some pr =>
      let? (proj, repo) := projectAndRepo (mrs_ProjectRef (mr_Spec mr)) (mrs_RepositoryRef (mr_Spec mr)) in
      let? task := owningTask (owners mr) in
      if match task with Some t => State (Status t) != StateAwaitingReview | None => false end then
        let? _ := clearPendingReview proj mr pr "refused" in ok tt
      else
        let? _ := driver_forge in
        Do (ListReviews (repo_URL repo) (mrs_Number (mr_Spec mr))) (fun r =>
          match r with
          | Err a => let? _ := tell (Count "review_post" ["error"]) in fail (ForgeFault a)
          | Ok existing =>
              let marked body := HasReviewMarker body (FormatInt (pr_Round pr)) (pr_SHA pr) in
              let before := posted_before marked existing in
              let? id := (if before == "" then post_review proj repo task mr pr
                          else let? _ := tell (Count "review_post" ["skipped"]) in ok (Some before)) in
              match id with
              | None => ok tt
              | Some id => after_post proj repo task mr pr id
              end
          end)
  end.

(** ** Deferred comments *)

Definition listThreadComments (o : Threaded) (owner name : string) : Io (list IssueComment) :=
  if is_mr o then list_thread owner name (th_number o) else forge (ListIssueComments owner name (th_number o)).

Definition threadCarriesMarker (thread : list IssueComment) (marker : string) : bool :=
  existsb (fun c => Contains (ic_Body c) marker) thread.

(** The agent kind of the Task that controls the mirror, where it can be told. *)
Definition pendingCommentAgentKind (o : Threaded) : Prog Call string :=
  match ControllerOwner (th_owners o) with
  | None => Ret ""%string
  | Some name => Do (GetTask Cached name) (fun r => Ret (match r with Ok t => AgentKind (Status t) | Err _ => ""%string end))
  end.

Definition append_to (proj : Project) (o : Threaded) (c : Comment) : Io unit :=
  match o with
  | OnIssue i => append_to_issue issueSize (sp proj) (iss_Name i) c
  | OnMR mr => append_to_mr mrSize (sp proj) (mr_Name mr) c
  end.

Definition said_by (c : Comment) (inReplyTo kind : string) : Comment :=
  mkComment (cm_ExternalID c) (cm_Author c) (cm_Body c) (cm_CreatedAt c) (cm_IsBot c) (cm_Truncated c) kind
    (cm_Path c) (cm_Line c) inReplyTo (cm_ReviewRound c).

(** A write to the forge that has to succeed. *)
Definition scm_write (proj : Project) (verb : string) (c : Call ScmAnswer) : Io unit :=
  Do c (fun a => let? _ := RecordSCM m proj verb a in if scm_ok a then ok tt else fail (ForgeFault a)).

Definition postThreadComment (proj : Project) (repo : Repository) (o : Threaded) (slug : string) (pc : PendingComment) : Io unit :=
  let marker := PendingCommentMarker (pc_RequestID pc) in
  let? _ := driver_reader in
  let? (owner, name) := owner_repo parse repo in
  let? thread := listThreadComments o owner name in
  let? thread := (if threadCarriesMarker thread marker then ok thread
                  else let? _ := scm_write proj "comment" (PostComment (commentRef slug (provider_of proj) (th_number o) (is_mr o))
                                                             (under marker (pc_Body pc))) in
                       listThreadComments o owner name) in
  foreach thread (fun c =>
    if negb (Contains (ic_Body c) marker) then ok tt
    else let! kind := pendingCommentAgentKind o in
         append_to proj o (said_by (mirrorCommentFrom proj c) (pc_InReplyTo pc) kind)).

Definition drain_close (proj : Project) (o : Threaded) (owner name slug : string) (pc : PendingComment) : Io unit :=
  let marker := PendingCommentMarker (pc_RequestID pc) in
  let? thread := listThreadComments o owner name in
  let comment := if threadCarriesMarker thread marker then "" else under marker (intent_text closeIntentMarker (pc_Body pc)) in
  let? _ := scm_write proj "close_issue" (CloseIssue slug (th_number o) comment) in
  match o with
  | OnIssue iss =>
      let? _ := fitIssue issueSize (sp proj) (iss_Name iss)
                  (fun i => i <| iss_Status ::= fun s => s <| iss_State := "closed" |> |>) in ok tt
  | OnMR _ => ok tt
  end.

Definition drain_park (proj : Project) (o : Threaded) (owner name slug : string) (pc : PendingComment) : Io unit :=
  let marker := PendingCommentMarker (pc_RequestID pc) in
  let ref := with_sigil slug "#" (th_number o) in
  let? thread := listThreadComments o owner name in
  let? _ := (if threadCarriesMarker thread marker then ok tt
             else scm_write proj "comment" (PostComment ref (under marker (intent_text parkIntentMarker (pc_Body pc))))) in
  scm_write proj "add_label" (AddLabel ref TataraParkedLabel).

Definition unless_empty (s : string) : option string := if s == "" then None else Some s.

Definition drain_edit (proj : Project) (o : Threaded) (slug : string) (pc : PendingComment) : Io unit :=
  let '(title, newBody) := parseEditIntent (pc_Body pc) in
  scm_write proj "edit_issue" (EditIssue slug (th_number o) (unless_empty title) (unless_empty newBody)).

Definition drain_intent (proj : Project) (repo : Repository) (o : Threaded) (owner name slug : string) (pc : PendingComment)
  : Io unit :=
  if HasPrefix (pc_Body pc) closeIntentMarker then drain_close proj o owner name slug pc
  else if HasPrefix (pc_Body pc) parkIntentMarker then drain_park proj o owner name slug pc
  else if HasPrefix (pc_Body pc) editIntentMarker then drain_edit proj o slug pc
  else postThreadComment proj repo o slug pc.

(** What is still to be posted; an intent that was queued meanwhile stays. *)
Definition keep_undrained (drained : list string) (l : list PendingComment) : list PendingComment :=
  List.filter (fun pc => negb (str_mem drained (pc_RequestID pc))) l.

Definition removePendingComments (proj : Project) (o : Threaded) (drained : list string) : Io unit :=
  match o with
  | OnIssue i =>
      let? _ := fitIssue issueSize (sp proj) (iss_Name i)
                  (fun i => i <| iss_Status ::= fun s => s <| iss_PendingComments ::= keep_undrained drained |> |>) in ok tt
  | OnMR mr =>
      let? _ := fitMergeRequest mrSize (sp proj) (mr_Name mr)
                  (fun mr => mr <| mr_Status ::= fun s => s <| mr_PendingComments ::= keep_undrained drained |> |>) in ok tt
  end.

Definition DrainPendingComments (o : Threaded) : Io unit :=
  match th_pending o with
  | [] => ok tt
  | pending =>
      let? (proj, repo) := projectAndRepo (th_project o) (th_repo o) in
      let? _ := driver_forge in
      match repoSlugFromURL toLower parse (repo_URL repo) (provider_of proj) with
      | None => fail (NoSlug (repo_URL repo))
      | Some slug =>
          let? _ := driver_reader in
          let? (owner, name) := owner_repo parse repo in
          let? _ := foreach pending (drain_intent proj repo o owner name slug) in
          removePendingComments proj o (map pc_RequestID pending)
      end
  end.

End Reviewing.


(** ** What the theorems say *)

(** Every byte of a text. *)
Fixpoint string_all (p : ascii -> bool) (s : string) : bool :=
  match s with EmptyString => true | String c rest => p c && string_all p rest end.

(** A head a marker can carry: not empty, no space, and no end of a comment. *)
Definition plain_sha (sha : string) : bool :=
  (sha != "") && string_all (fun c => negb (re_space c)) sha && negb (Contains sha "-->").

(** A review that was posted on a merge request, by its text. *)
Definition review_post (url : string) (n : Z) (d : Did Call) : option string :=
  match did_call d with
  | PostReview u k body _ => if (u == url) && (k =? n) then Some body else None
  | _ => None
  end.

(** The reviews of a merge request, as the forge listed them. *)
Definition reviews_read (url : string) (n : Z) (d : Did Call) : option (list Review) :=
  match did_call d in Call X return X -> option (list Review) with
  | ListReviews u k => fun r => if (u == url) && (k =? n) then match r with Ok l => Some l | Err _ => None end else None
  | _ => fun _ => None
  end (did_answer d).

(** The forge is a ledger: every post that [landed], whether its answer arrived or not, is
    in every later list, and what is listed has an identifier. *)
Definition remembers (url : string) (n : Z) (landed : nat -> Prop) (H : list (Did Call)) : Prop :=
  forall j d' l, H !! j = Some d' -> reviews_read url n d' = Some l ->
    Forall (fun rv => rv_ID rv <> ""%string) l
    /\ forall i d body, H !! i = Some d -> review_post url n d = Some body -> landed i -> (i < j)%nat ->
       exists rv, In rv l /\ rv_Body rv = body.

(** The pending review of a merge request can be marked. *)
Definition markable (mr : MergeRequest) : Prop :=
  forall pr, mr_PendingReview (mr_Status mr) = Some pr -> 0 <= pr_Round pr < two63 /\ plain_sha (pr_SHA pr) = true.

Definition posts_review (d : Did Call) : bool := match did_call d with PostReview _ _ _ _ => true | _ => false end.

(** A post finds no other before it, and its marker in no review of a list before it. *)
Definition looked_first (round sha : string) (past : list (Did Call)) (d : Did Call) : Prop :=
  forall url n body, review_post url n d = Some body ->
    Forall (fun d => posts_review d = false) past
    /\ (exists text, body = under (ReviewMarker round sha) text)
    /\ exists d' l, In d' past /\ reviews_read url n d' = Some l
         /\ posted_before (fun b => HasReviewMarker b round sha) l = ""%string.

(** ** Lemmas: the marker *)

Lemma take_while_app p a b : string_all p a = true -> match b with String c _ => p c = false | _ => True end ->
  take_while p (String.append a b) = (a, b).
Proof.
  intros Ha Hb. induction a as [|c a IH]; [destruct b as [|c b]; [done|]; change (String.append "" ?s) with s; cbn [take_while]; by rewrite Hb|].
  cbn in Ha. apply andb_true_iff in Ha as [Hc Ha]. rewrite app_cons. cbn. by rewrite Hc, IH.
Qed.

Lemma digits_are_digits fuel : forall n acc, 0 <= n < 10 ^ Z.of_nat fuel -> (0 < fuel)%nat ->
  string_all re_digit acc = true -> string_all re_digit (format_digits fuel n acc) = true.
Proof.
  assert (forall d, 0 <= d <= 9 -> re_digit (digit d) = true) as Hd.
  { intros d Hd. assert (d = 0 \/ d = 1 \/ d = 2 \/ d = 3 \/ d = 4 \/ d = 5 \/ d = 6 \/ d = 7 \/ d = 8 \/ d = 9) as Hv by lia.
    by destruct_or! Hv; subst d. }
  induction fuel as [|f IH]; intros n acc Hn Hf Ha; [lia|]. cbn [format_digits].
  destruct (Z.ltb_spec n 10) as [Hlt|Hge]; [cbn; by rewrite Hd, Ha by lia|].
  assert (0 < f)%nat as Hf' by (destruct f; [cbn in Hn; lia|lia]).
  apply IH; [|done|].
  - rewrite Nat2Z.inj_succ, Z.pow_succ_r in Hn by lia. split; [apply Z.div_pos; lia|]. apply Z.div_lt_upper_bound; lia.
  - cbn. rewrite Ha, Hd; [done|]. pose proof (Z.mod_pos_bound n 10 ltac:(lia)). lia.
Qed.

Lemma FormatInt_digits n : 0 <= n < two63 -> string_all re_digit (FormatInt n) = true.
Proof.
  intros Hn. unfold FormatInt. destruct (Z.ltb_spec n 0); [lia|]. apply digits_are_digits; [unfold two63 in Hn; cbn; lia|lia|done].
Qed.

Lemma after_literal_app lit s : after_literal lit (String.append lit s) = Some s.
Proof. unfold after_literal. rewrite HasPrefix_append. f_equal. rewrite drop_bytes_skip by lia. by rewrite Nat.sub_diag. Qed.

(** No end of a comment begins in a head. *)
Lemma no_end_inside c rest t : string_all (fun c => negb (re_space c)) (String c rest) = true ->
  Contains (String c rest) "-->" = false -> HasPrefix (skip_spaces (String.append (String c rest) (String " " t))) "-->" = false.
Proof.
  intros Hs Hc. cbn [string_all] in Hs. apply andb_true_iff in Hs as [Hs _]. apply negb_true_iff in Hs.
  rewrite app_cons. unfold skip_spaces. cbn [take_while]. rewrite Hs. cbn [snd].
  cbn [Contains] in Hc. apply orb_false_iff in Hc as [Hc _].
  destruct rest as [|c1 [|c2 rest]]; rewrite ?app_cons, ?app_start; cbn [HasPrefix] in *; [by rewrite ?andb_false_r..|].
  assert (forall s, HasPrefix s "" = true) as Hnil by (by intros []). by rewrite !Hnil in *.
Qed.

Lemma shortest_sha_exact sha t : plain_sha sha = true -> shortest_sha (String.append sha (String.append " -->" t)) = Some sha.
Proof.
  unfold plain_sha. rewrite !andb_true_iff, !negb_true_iff. intros [[Hne Hs] Hc].
  induction sha as [|c sha IH]; [done|]. rewrite app_cons. cbn [shortest_sha].
  pose proof Hs as Hs'. cbn [string_all] in Hs. apply andb_true_iff in Hs as [Hs1 Hs]. apply negb_true_iff in Hs1. rewrite Hs1.
  cbn [Contains] in Hc. apply orb_false_iff in Hc as [_ Hc].
  destruct sha as [|c1 sha].
  { change (skip_spaces (String.append "" (String.append " -->" t))) with (String.append "-->" t). by rewrite HasPrefix_append. }
  change (String.append " -->" t) with (String " " (String.append "-->" t)).
  rewrite no_end_inside; [|done|done]. change (String " " (String.append "-->" t)) with (String.append " -->" t).
  rewrite IH; done.
Qed.

(** The marker is read back out of the text it heads. *)
Lemma marker_read_back n sha text : 0 <= n < two63 -> plain_sha sha = true ->
  ParseReviewMarker (under (ReviewMarker (FormatInt n) sha) text) = Some (FormatInt n, sha).
Proof.
  intros Hn Hs. assert (marker_here (under (ReviewMarker (FormatInt n) sha) text) = Some (FormatInt n, sha)) as H.
  2: { destruct (under _ _) eqn:E; [done|]. cbn [ParseReviewMarker]. by rewrite H. }
  unfold under, ReviewMarker, sprintf. cbn [join fold_right]. rewrite !app_assoc_s.
  unfold marker_here.
  change (String.append "<!-- tatara-review round=" ?x) with (String.append "<!--" (String.append " tatara-review round=" x)).
  rewrite after_literal_app. cbn [mbind option_bind].
  change (skip_spaces (String.append " tatara-review round=" ?x)) with (String.append "tatara-review" (String.append " round=" x)).
  rewrite after_literal_app. cbn [mbind option_bind].
  change (after_spaces (String.append " round=" ?x)) with (Some (String.append "round=" x)). cbn [mbind option_bind].
  rewrite after_literal_app. cbn [mbind option_bind].
  rewrite (take_while_app re_digit (FormatInt n)); [|by apply FormatInt_digits|done].
  rewrite FormatInt_nonempty by done.
  change (after_spaces (String.append " sha=" ?x)) with (Some (String.append "sha=" x)). cbn [mbind option_bind].
  rewrite after_literal_app. cbn [mbind option_bind].
  rewrite shortest_sha_exact by done. done.
Qed.

Lemma marked_by n sha text r s : 0 <= n < two63 -> plain_sha sha = true ->
  HasReviewMarker (under (ReviewMarker (FormatInt n) sha) text) r s = true -> r = FormatInt n /\ s = sha.
Proof.
  intros Hn Hs. unfold HasReviewMarker. rewrite marker_read_back by done. rewrite andb_true_iff, !String.eqb_eq.
  by intros [-> ->].
Qed.

(** ** Lemmas: the drain looks before it posts *)

Definition no_post (d : Did Call) : Prop := posts_review d = false.

Lemma no_post_review url n d : no_post d -> review_post url n d = None.
Proof. unfold no_post, posts_review, review_post. by destruct (did_call d). Qed.

Lemma no_post_looked round sha past d : no_post d -> looked_first round sha past d.
Proof. intros H url n body E. by rewrite no_post_review in E. Qed.

Lemma guarded_no_post round sha past es : Forall no_post es -> guarded (looked_first round sha) past es.
Proof. intros H. apply (guarded_free _ no_post); [|done]. intros p d. apply no_post_looked. Qed.

Lemma quietly {A} (p : Prog Call A) (R : A -> list (Did Call) -> Prop) :
  each no_post p -> (forall a es, Forall no_post es -> R a es) -> does p R.
Proof. intros Hp H. eapply does_mono; [|exact Hp]. exact H. Qed.

Ltac postless_go := each_go ltac:(reflexivity).

Section Looks.

Context (Quote : string -> string) (mrSize : MergeRequest -> option Z) (taskSize : Task -> option Z)
  (sp : Project -> option (Spiller Comment)) (notes : Project -> option (Spiller Note))
  (reader : View) (m : bool) (release : Task -> bool).

Lemma clear_postless proj mr pr v : each no_post (clearPendingReview mrSize sp proj mr pr v).
Proof. unfold clearPendingReview. postless_go. Qed.

Lemma park_postless task reason : each no_post (driver_park m task reason).
Proof. unfold driver_park. postless_go. Qed.

Lemma advance_postless proj task mr : each no_post (advanceAfterReview Quote reader m release proj task mr).
Proof.
  unfold advanceAfterReview, refreshTaskFromAPI, controlled_mrs, driver_enter, exit_on_red. postless_go.
  all: apply park_postless.
Qed.

Lemma after_post_postless proj repo task mr pr id :
  each no_post (after_post Quote mrSize taskSize sp notes reader m release proj repo task mr pr id).
Proof.
  unfold after_post, append_to_mr, append_note. postless_go. all: first [apply clear_postless|apply advance_postless].
Qed.

(** The post comes first; what follows it posts nothing. *)
Lemma post_review_first proj repo task mr pr :
  does (post_review mrSize sp reader m proj repo task mr pr) (fun r es =>
    exists d rest, es = d :: rest /\ Forall no_post rest
    /\ forall url n body, review_post url n d = Some body ->
         url = repo_URL repo /\ n = mrs_Number (mr_Spec mr)
         /\ body = under (ReviewMarker (FormatInt (pr_Round pr)) (pr_SHA pr)) (pr_Body pr)).
Proof.
  unfold post_review. intros x.
  set (p := match x with Ok _ => _ | Err _ => _ end).
  assert (each no_post p) as Hp.
  { subst p. unfold RecordSCM, controlled_mrs. postless_go. all: first [apply clear_postless|apply park_postless]. }
  eapply does_mono; [|exact Hp]. intros r es Hes. eexists _, es. split; [reflexivity|]. split; [exact Hes|].
  intros url n body. cbn. destruct (_ == url) eqn:Eu; [|done]. destruct (_ =? n) eqn:En; [|done]. cbn. intros [= <-].
  apply String.eqb_eq in Eu. apply Z.eqb_eq in En. auto.
Qed.

Lemma DrainPendingReview_looks mr pr : mr_PendingReview (mr_Status mr) = Some pr ->
  does (DrainPendingReview Quote mrSize taskSize sp notes reader m release mr)
    (fun _ es => guarded (looked_first (FormatInt (pr_Round pr)) (pr_SHA pr)) [] es).
Proof.
  intros Hpr. unfold DrainPendingReview. rewrite Hpr.
  assert (forall (p : Io unit) es0, Forall no_post es0 ->
            (does p (fun _ es => guarded (looked_first (FormatInt (pr_Round pr)) (pr_SHA pr)) es0 es)) ->
            does p (fun _ es => guarded (looked_first (FormatInt (pr_Round pr)) (pr_SHA pr)) [] (es0 ++ es))) as Hafter.
  { intros p es0 H0 Hp. eapply does_mono; [|exact Hp]. intros r es H. apply guarded_app. split; [by apply guarded_no_post|done]. }
  apply does_try, quietly; [unfold projectAndRepo; postless_go|].
  intros [[proj repo]|e] es1 H1; [|by apply guarded_no_post]. apply Hafter; [done|].
  apply does_try, quietly; [unfold owningTask; postless_go|].
  intros [task|e] es2 H2; [|by apply guarded_no_post].
  set (stale := match task with Some t => _ | None => _ end). destruct stale.
  { apply quietly; [postless_go; apply clear_postless|].
    intros r es H. apply guarded_no_post, Forall_app. by split. }
  apply does_try. intros resolved. destruct resolved; cbn [ok fail does]; [|by apply guarded_no_post, Forall_app; repeat constructor].
  intros r. destruct r as [existing|a].
  2: { intros x. apply guarded_no_post, Forall_app. by repeat constructor. }
  set (look := did (ListReviews (repo_URL repo) (mrs_Number (mr_Spec mr))) (Ok existing)).
  set (w := did ForgeWriter true).
  assert (Forall no_post (es2 ++ [w; look])) as Hpre by (apply Forall_app; by repeat constructor).
  assert (forall es, guarded (looked_first (FormatInt (pr_Round pr)) (pr_SHA pr)) (es1 ++ es2 ++ [w; look]) es ->
            guarded (looked_first (FormatInt (pr_Round pr)) (pr_SHA pr)) es1 (es2 ++ w :: look :: es)) as Hsplit.
  { intros es H. change (w :: look :: es) with ([w; look] ++ es). rewrite app_assoc. apply guarded_app.
    split; [by apply guarded_no_post|exact H]. }
  cbv zeta. set (before := posted_before _ existing). destruct (before == "") eqn:Eb.
  - apply does_try. eapply does_mono; [|apply post_review_first].
    intros r es (d & rest & -> & Hrest & Hd).
    assert (forall es, Forall no_post es -> guarded (looked_first (FormatInt (pr_Round pr)) (pr_SHA pr)) es1 (es2 ++ w :: look :: d :: rest ++ es)) as Hdone.
    { intros es Hes. apply Hsplit. split; [|apply guarded_no_post, Forall_app; by split].
      intros url n body Eb'. destruct (Hd _ _ _ Eb') as (-> & -> & ->). split; [apply Forall_app; by split|].
      split; [by eexists|]. exists look, existing. split; [rewrite !in_app_iff; cbn; tauto|].
      split; [cbn; by rewrite String.eqb_refl, Z.eqb_refl|]. by apply String.eqb_eq in Eb. }
    destruct r as [[id|]|e].
    + apply quietly; [apply after_post_postless|]. intros r es. apply Hdone.
    + specialize (Hdone [] (List.Forall_nil _)). exact Hdone.
    + specialize (Hdone [] (List.Forall_nil _)). rewrite app_nil_r in Hdone. exact Hdone.
  - apply quietly; [postless_go; apply after_post_postless|].
    intros r es Hes. apply Hsplit. by apply guarded_no_post.
Qed.

(** A run of the drain on some merge request, cut where the process may have died, or
    anything else that posts no review. *)
Definition piece (es : list (Did Call)) : Prop :=
  Forall no_post es
  \/ exists mr w rest, markable mr
       /\ snd (run w (DrainPendingReview Quote mrSize taskSize sp notes reader m release mr)) = es ++ rest.

Lemma piece_looks es : piece es -> exists n sha, 0 <= n < two63 /\ plain_sha sha = true
  /\ guarded (looked_first (FormatInt n) sha) [] es.
Proof.
  intros [H|(mr & w & rest & Hm & Hrun)].
  - exists 0, "a"%string. split; [by unfold two63|]. split; [done|]. by apply guarded_no_post.
  - destruct (mr_PendingReview (mr_Status mr)) as [pr|] eqn:Ep.
    + destruct (Hm pr Ep) as [Hn Hs]. exists (pr_Round pr), (pr_SHA pr). split; [done|]. split; [done|].
      pose proof (run_does w _ _ (DrainPendingReview_looks mr pr Ep)) as H. cbn beta in H. rewrite Hrun in H.
      by apply guarded_app in H as [H _].
    + unfold DrainPendingReview in Hrun. rewrite Ep in Hrun. cbn in Hrun. symmetry in Hrun. apply app_eq_nil in Hrun as [-> _].
      exists 0, "a"%string. split; [by unfold two63|]. by split.
Qed.

End Looks.

(** A place in a history lies in one of its pieces. *)
Lemma concat_place {A} (l : list (list A)) : forall j x, concat l !! j = Some x ->
  exists l1 es l2 k, l = l1 ++ es :: l2 /\ j = (length (concat l1) + k)%nat /\ es !! k = Some x.
Proof.
  induction l as [|es l IH]; intros j x H; [done|]. cbn in H. destruct (decide (j < length es)%nat) as [Hj|Hj].
  - rewrite lookup_app_l in H by done. exists [], es, l, j. done.
  - rewrite lookup_app_r in H by lia. destruct (IH _ _ H) as (l1 & es' & l2 & k & -> & Hk & Hx).
    exists (es :: l1), es', l2, k. split; [done|]. split; [|done]. cbn. rewrite length_app. lia.
Qed.

Lemma concat_in_piece {A} (l1 : list (list A)) es l2 k : (k < length es)%nat ->
  concat (l1 ++ es :: l2) !! (length (concat l1) + k)%nat = es !! k.
Proof.
  intros Hk. rewrite concat_app. rewrite lookup_app_r by lia. cbn. rewrite lookup_app_l by lia. f_equal. lia.
Qed.

Lemma HasReviewMarker_found round sha l rv : In rv l -> Forall (fun rv => rv_ID rv <> ""%string) l ->
  HasReviewMarker (rv_Body rv) round sha = true -> posted_before (fun b => HasReviewMarker b round sha) l <> ""%string.
Proof.
  intros Hin Hid Hm. unfold posted_before. destruct (List.find _ l) as [rv'|] eqn:E.
  - apply List.find_some in E as [Hin' _]. rewrite List.Forall_forall in Hid. by apply Hid.
  - by rewrite (List.find_none _ _ E rv Hin) in Hm.
Qed.

(** A landed post is in every list after it, so nothing is posted under its marker again. *)
Lemma no_second_post pieces url n landed (looks : list (Did Call) -> Prop) :
  (forall es, looks es -> exists k sha, 0 <= k < two63 /\ plain_sha sha = true /\ guarded (looked_first (FormatInt k) sha) [] es) ->
  Forall looks pieces -> remembers url n landed (concat pieces) ->
  forall i j d d' body body' round sha,
  concat pieces !! i = Some d -> concat pieces !! j = Some d' -> review_post url n d = Some body -> review_post url n d' = Some body' ->
  HasReviewMarker body round sha = true -> HasReviewMarker body' round sha = true -> landed i -> ~ (i < j)%nat.
Proof.
  intros Hlooks Hp Hr i j d d' body body' round sha Hi Hj Hd Hd' Hb Hb' Hl Hij.
  destruct (concat_place _ _ _ Hj) as (l1 & es & l2 & k & -> & -> & Hk).
  assert (looks es) as He by (rewrite List.Forall_forall in Hp; apply Hp, in_app_iff; right; by left).
  destruct (Hlooks es He) as (num & head & Hnum & Hhead & Hg).
  assert (k < length es)%nat as Hlen by by eapply lookup_lt_Some.
  pose proof (guarded_split _ [] es _ d' _ Hg (eq_sym (take_drop_middle _ _ _ Hk))) as Hlook.
  destruct (Hlook url n body' Hd') as (Hnone & (text & ->) & look & l & Hin & Hread & Hbefore). cbn [app] in Hnone, Hin.
  destruct (marked_by _ _ _ _ _ Hnum Hhead Hb') as [-> ->].
  apply list_elem_of_In, list_elem_of_lookup in Hin as [q Hq]. apply lookup_take_Some in Hq as [Hq' Hqk].
  assert (concat (l1 ++ es :: l2) !! (length (concat l1) + q)%nat = Some look) as Hlk by (rewrite concat_in_piece; [done|lia]).
  destruct (Hr _ _ _ Hlk Hread) as [Hids Hall].
  destruct (decide (i < length (concat l1))%nat) as [Hlt|Hge].
  - destruct (Hall i d body Hi Hd Hl ltac:(lia)) as (rv & Hrv & <-).
    by apply (HasReviewMarker_found (FormatInt num) head l rv Hrv Hids Hb).
  - assert (i = (length (concat l1) + (i - length (concat l1)))%nat) as Ei by lia. rewrite Ei in Hi.
    rewrite concat_in_piece in Hi by lia.
    assert (In d (firstn k es)) as Hdin. { apply list_elem_of_In, list_elem_of_lookup. eexists. rewrite lookup_take_lt; [exact Hi|lia]. }
    rewrite List.Forall_forall in Hnone. specialize (Hnone d Hdin). by rewrite (no_post_review url n d Hnone) in Hd.
Qed.

(** ** The theorems *)


Lemma gate_of mrs : mrs <> [] -> existsb (fun mr => is_set (mr_PendingReview (mr_Status mr))) mrs = false -> reviewGateOpen mrs = true.
Proof.
  destruct mrs as [|mr mrs]; [done|]. intros _ H. unfold reviewGateOpen. apply forallb_forall. intros x Hx.
  apply negb_true_iff. destruct (is_set _) eqn:E; [|done].
  assert (existsb (fun mr => is_set (mr_PendingReview (mr_Status mr))) (mr :: mrs) = true); [|congruence].
  apply existsb_exists. by exists x.
Qed.

(** the exit of a review asks for nothing illegal: whatever the merge requests of a Task
    awaiting review are, the edge the advance or the external finalization decides on is a
    park for a known reason, or a transition the guards of the table let through. *)
Theorem review_exit_is_legal (t : Task) (mrs : list MergeRequest) (e : Edge) :
  State (Status t) = StateAwaitingReview ->
  reviewAdvanceEdge t mrs = Some e \/ externalTerminalEdge t mrs = Some e ->
  if To e == ParkTarget then IsParkReason (Reason e) = true
  else LegalFor (Some t) mrs (State (Status t)) (To e) = true.
Proof.
  intros -> H.
  assert (forall e, terminalMREdge t mrs = Some e -> (To e == ParkTarget) = false /\ LegalFor (Some t) mrs StateAwaitingReview (To e) = true) as Hterm.
  { unfold terminalMREdge. intros e0. destruct (Kind (Spec t) == "review") eqn:Ek; cbn [negb orb]; [|done].
    destruct (negb _); [done|]. unfold LegalFor, kind_of. change kindReview with "review"%string. rewrite Ek.
    destruct (AllMRsMerged mrs) eqn:Em; intros [= <-]; (split; [reflexivity|]); cbn [To]; by vm_compute. }
  destruct H as [H|H].
  - unfold reviewAdvanceEdge in H. destruct (terminalMREdge t mrs) as [e0|] eqn:E0.
    { injection H as <-. destruct (Hterm e0 eq_refl) as [-> ?]. done. }
    destruct mrs as [|mr rest] eqn:Emrs; [done|]. rewrite <- Emrs in *.
    destruct (existsb _ mrs) eqn:Ep; [done|]. pose proof (gate_of mrs ltac:(by rewrite Emrs) Ep) as Hg.
    destruct (Kind (Spec t) == "review") eqn:Ek.
    { injection H as <-. by vm_compute. }
    assert (forall to, to = StateUnderImplementation \/ to = StateMerged -> LegalFor (Some t) mrs StateAwaitingReview to = true) as Hl.
    { intros to Hto. unfold LegalFor, kind_of. change kindReview with "review"%string. rewrite Ek, Hg. by destruct Hto as [-> | ->]. }
    match type of H with context [existsb ?f mrs] => destruct (existsb f mrs) end.
    + injection H as <-. unfold RequestChanges. change kindReview with "review"%string. rewrite Ek. exact (Hl _ (or_introl eq_refl)).
    + injection H as <-. exact (Hl _ (or_intror eq_refl)).
  - unfold externalTerminalEdge in H. destruct (terminalMREdge t mrs) as [e0|] eqn:E0.
    { injection H as <-. destruct (Hterm e0 eq_refl) as [-> ?]. done. }
    unfold OwnMRsShippedEdge in H. destruct (Kind (Spec t) == "review") eqn:Ek; cbn [orb] in H; [done|].
    destruct (AllMRsTerminal mrs) eqn:Et; [|done]. cbn [negb] in H. destruct (AllMRsMerged mrs) eqn:Em; cbn [negb] in H.
    + destruct (existsb _ mrs) eqn:Ep; [done|]. injection H as <-. cbn. unfold LegalFor, kind_of. change kindReview with "review"%string.
      rewrite Ek. rewrite (gate_of mrs); [done| |done]. by destruct mrs.
    + injection H as <-. cbn. unfold LegalFor, kind_of. by change kindReview with "review"%string; rewrite Ek.
Qed.

(** *** Deferred comments *)

(** The thread of an Issue or a merge request, as it was listed. *)
Definition thread_read (d : Did Call) : option (list IssueComment) :=
  match did_call d in Call X return X -> option (list IssueComment) with
  | ListIssueComments _ _ _ => fun r => match r with Ok l => Some l | Err _ => None end
  | ListPRComments _ _ _ => fun r => match r with Ok l => Some l | Err _ => None end
  | _ => fun _ => None
  end (did_answer d).

(** The text of a comment that a call puts on a thread. *)
Definition commented (d : Did Call) : option string :=
  match did_call d with
  | PostComment _ body => Some body
  | CloseIssue _ _ comment => if comment == "" then None else Some comment
  | _ => None
  end.

(** What is put on a thread carries the marker of a pending comment, and the call just
    before it is a list of the thread without that marker. *)
Definition thread_lacked (pending : list PendingComment) (past : list (Did Call)) (d : Did Call) : Prop :=
  forall body, commented d = Some body ->
    exists pc text before look thread, In pc pending /\ body = under (PendingCommentMarker (pc_RequestID pc)) text
      /\ past = before ++ [look] /\ thread_read look = Some thread
      /\ threadCarriesMarker thread (PendingCommentMarker (pc_RequestID pc)) = false.

Definition mute (d : Did Call) : Prop := commented d = None.

Lemma mute_lacked pending past d : mute d -> thread_lacked pending past d.
Proof. intros H body. unfold mute in H. congruence. Qed.

Ltac mute_go := each_go ltac:(reflexivity).

Lemma always_mute {A} pending (p : Prog Call A) : each mute p -> always (thread_lacked pending) p.
Proof. apply always_free. apply mute_lacked. Qed.

Lemma thread_listed o owner name :
  does (listThreadComments o owner name) (fun r es => Forall mute es
    /\ forall thread, r = Ok thread -> exists before look, es = before ++ [look] /\ thread_read look = Some thread).
Proof.
  unfold listThreadComments, list_thread. destruct (is_mr o); [intros [] [l|a]|intros [l|a]]; (split; [by repeat constructor|]).
  all: intros thread [= <-].
  - by eexists [_], _.
  - by eexists [_], _.
  - by eexists [], _.
Qed.

(** A write that follows the list at once. *)
Lemma listed_then {A} pending o owner name (f : list IssueComment -> Io A) :
  (forall thread past look, thread_read look = Some thread ->
     does (f thread) (fun _ es => guarded (thread_lacked pending) (past ++ [look]) es)) ->
  always (thread_lacked pending) (try (listThreadComments o owner name) f).
Proof.
  intros Hf past. apply does_try. eapply does_mono; [|apply thread_listed]. intros [thread|e] es [Hm Hl].
  - destruct (Hl thread eq_refl) as (before & look & -> & Hlook).
    eapply does_mono; [|exact (Hf thread (past ++ before) look Hlook)]. intros r es' H. apply guarded_app.
    split; [apply (guarded_free _ mute); [apply mute_lacked|done]|]. by rewrite app_assoc.
  - apply (guarded_free _ mute); [apply mute_lacked|done].
Qed.

Section Drained.

Context (toLower : string -> string) (parse : string -> option string) (issueSize : Issue -> option Z)
  (mrSize : MergeRequest -> option Z) (sp : Project -> option (Spiller Comment)) (m : bool).

(** A write to the forge, where what it says is known. *)
Lemma write_lacking pending past look thread proj verb (c : Call ScmAnswer) :
  thread_read look = Some thread ->
  (forall x body, commented (did c x) = Some body -> exists pc text, In pc pending
     /\ body = under (PendingCommentMarker (pc_RequestID pc)) text
     /\ threadCarriesMarker thread (PendingCommentMarker (pc_RequestID pc)) = false) ->
  does (scm_write m proj verb c) (fun _ es => guarded (thread_lacked pending) (past ++ [look]) es).
Proof.
  intros Hl Hc x. assert (thread_lacked pending (past ++ [look]) (did c x)) as H.
  { intros body Hb. destruct (Hc x body Hb) as (pc & text & Hin & Hbody & Hno). by exists pc, text, past, look, thread. }
  assert (each mute (let? _ := RecordSCM m proj verb x in if scm_ok x then ok tt else fail (ForgeFault x))) as Hm
    by (unfold RecordSCM; mute_go).
  eapply does_mono; [|exact Hm]. intros r es Hes. split; [exact H|]. apply (guarded_free _ mute); [apply mute_lacked|done].
Qed.

Lemma drain_intent_lacks pending proj repo o owner name slug pc : In pc pending ->
  always (thread_lacked pending) (drain_intent parse issueSize mrSize sp m proj repo o owner name slug pc).
Proof.
  intros Hin. assert (forall thread text, threadCarriesMarker thread (PendingCommentMarker (pc_RequestID pc)) = false ->
    exists pc' text', In pc' pending /\ under (PendingCommentMarker (pc_RequestID pc)) text = under (PendingCommentMarker (pc_RequestID pc')) text'
      /\ threadCarriesMarker thread (PendingCommentMarker (pc_RequestID pc')) = false) as Hmark.
  { intros thread text H. by exists pc, text. }
  unfold drain_intent. destruct (HasPrefix _ _); [|destruct (HasPrefix _ _); [|destruct (HasPrefix _ _)]].
  - unfold drain_close. apply listed_then. intros thread past look Hl. apply does_try.
    eapply does_mono; [|apply (write_lacking pending past look thread _ _ _ Hl)].
    + intros [u|e] es H; [|exact H]. eapply does_mono; [|apply always_mute with (pending := pending) (past := (past ++ [look]) ++ es)].
      * intros r es' H'. by apply guarded_app.
      * mute_go.
    + intros x body. cbn. destruct (threadCarriesMarker _ _) eqn:E; [done|]. intros [= <-]. by apply Hmark.
  - unfold drain_park. apply listed_then. intros thread past look Hl. apply does_try.
    eapply does_mono with (R := fun _ es => guarded (thread_lacked pending) (past ++ [look]) es).
    + intros [u|e] es H; [|exact H]. eapply does_mono; [|apply always_mute with (pending := pending) (past := (past ++ [look]) ++ es)].
      * intros r es' H'. by apply guarded_app.
      * unfold scm_write, RecordSCM. mute_go.
    + destruct (threadCarriesMarker _ _) eqn:E; [exact I|]. apply (write_lacking pending past look thread _ _ _ Hl).
      intros x body. cbn. intros [= <-]. by apply Hmark.
  - apply always_mute. unfold drain_edit, scm_write, RecordSCM. mute_go.
  - unfold postThreadComment. apply always_try; [apply always_mute; unfold driver_reader; mute_go|]. intros _.
    apply always_try; [apply always_mute; unfold owner_repo; mute_go|]. intros [owner' name'].
    apply listed_then. intros thread past look Hl. apply does_try.
    eapply does_mono with (R := fun _ es => guarded (thread_lacked pending) (past ++ [look]) es).
    + intros [u|e] es H; [|exact H]. eapply does_mono; [|apply always_mute with (pending := pending) (past := (past ++ [look]) ++ es)].
      * intros r es' H'. by apply guarded_app.
      * unfold append_to, pendingCommentAgentKind, append_to_issue, append_to_mr. mute_go.
    + destruct (threadCarriesMarker _ _) eqn:E; [exact I|]. apply does_try.
      eapply does_mono; [|apply (write_lacking pending past look thread _ _ _ Hl)].
      * intros [u|e] es H; [|exact H]. eapply does_mono; [|apply always_mute with (pending := pending) (past := (past ++ [look]) ++ es)].
        -- intros r es' H'. by apply guarded_app.
        -- eapply does_mono; [|apply thread_listed]. by intros ? ? [? _].
      * intros x body. cbn. intros [= <-]. by apply Hmark.
Qed.

Lemma drain_lacks o : always (thread_lacked (th_pending o)) (DrainPendingComments toLower parse issueSize mrSize sp m o).
Proof.
  unfold DrainPendingComments. destruct (th_pending o) as [|pc0 rest] eqn:Ep; [apply always_ret|]. rewrite <- Ep.
  apply always_try; [apply always_mute; unfold projectAndRepo; mute_go|]. intros [proj repo].
  apply always_try; [apply always_mute; unfold driver_forge; mute_go|]. intros _.
  destruct (repoSlugFromURL _ _ _ _) as [slug|]; [|apply always_ret].
  apply always_try; [apply always_mute; unfold driver_reader; mute_go|]. intros _.
  apply always_try; [apply always_mute; unfold owner_repo; mute_go|]. intros [owner name].
  apply always_try.
  - apply always_foreach. intros pc Hin. by apply drain_intent_lacks.
  - intros _. apply always_mute. unfold removePendingComments. mute_go.
Qed.

End Drained.

(** a deferred comment is not repeated: whatever a drain of pending comments puts on a
    thread is headed by the marker of one of them, and the call just before it has listed the
    thread and found that marker nowhere in it; so a drain after a crash, which finds what
    landed, posts nothing twice. *)
Theorem comments_look_first (toLower : string -> string) (parse : string -> option string) (issueSize : Issue -> option Z)
    (mrSize : MergeRequest -> option Z) (sp : Project -> option (Spiller Comment)) (m : bool) (o : Threaded) (w : World Call)
    (before after : list (Did Call)) (d : Did Call) :
  snd (run w (DrainPendingComments toLower parse issueSize mrSize sp m o)) = before ++ d :: after ->
  thread_lacked (th_pending o) before d.
Proof.
  intros E. exact (guarded_split _ [] _ before d after (run_does w _ _ (drain_lacks toLower parse issueSize mrSize sp m o [])) E).
Qed.

(** ** Witnesses *)

(** A merge request with a review and a comment to be posted, and nobody's. *)
Definition reviewed_mr : MergeRequest :=
  (owned_mr "m") <| mr_OwnerReferences := [] |>
    <| mr_Status ::= fun s => s <| mr_PendingReview := Some (mkPendingReview "## Review: approved" [] "abc" 1) |>
                               <| mr_PendingComments := [mkPendingComment "r1" "comment" "hello" ""] |> |>.

Definition posted_body : string := under (ReviewMarker "1" "abc") "## Review: approved".

(** A forge whose lists answer what [l] says. *)
Definition with_reviews (l : list Review) (past : list (Did Call)) (X : Type) (c : Call X) : X :=
  match c in Call Y return Y with
  | GetProject _ => Ok bot_project
  | GetRepository _ => Ok (sample_repo "r" "https://github.com/o/r")
  | ListReviews _ _ => Ok l
  | PostReview _ _ _ _ => Ok "7"%string
  | ForgeReader => true
  | c => nowhere c
  end.

Definition drain_trace (l : list Review) : list (Did Call) :=
  snd (run (with_reviews l) (DrainPendingReview (fun s => s) (fun _ => Some 0) (fun _ => Some 0) (fun _ => None) (fun _ => None)
    Cached false (fun _ => true) reviewed_mr)).

Definition comment_trace : list (Did Call) :=
  snd (run (with_reviews []) (DrainPendingComments (fun s => s) (fun _ => Some "/o/r"%string) (fun _ => Some 0) (fun _ => Some 0)
    (fun _ => None) false (OnMR reviewed_mr))).

(** The process dies right after the post; the next run finds what has landed. *)
Definition cut_and_rerun : list (list (Did Call)) := [firstn 5 (drain_trace []); drain_trace [mkReview "7" posted_body]].

Lemma cut_is_remembered : remembers "https://github.com/o/r" 7 (fun _ => True) (concat cut_and_rerun).
Proof.
  intros j d' l Hj Hl. assert (j < 13)%nat as Hlt by (apply lookup_lt_Some in Hj; exact Hj).
  do 13 (destruct j as [|j];
    [vm_compute in Hj; injection Hj as <-; vm_compute in Hl;
     first [discriminate Hl
           | injection Hl as <-; split; [first [apply List.Forall_nil | apply List.Forall_cons; [discriminate|apply List.Forall_nil]]|];
             intros i d body Hi Hd _ Hlt';
             do 8 (destruct i as [|i]; [vm_compute in Hi; injection Hi as <-; vm_compute in Hd;
               first [discriminate Hd | exfalso; lia | injection Hd as <-; eexists; split; [by left|reflexivity]]|]); lia]|]).
  lia.
Qed.


Lemma review_exit_is_legal_witness :
  reviewAdvanceEdge (owning_task <| Status ::= fun s => s <| State := StateAwaitingReview |> |>)
    [reviewed_mr <| mr_Status ::= fun s => s <| mr_PendingReview := None |> |>] = Some (mkEdge StateMerged "")
  /\ LegalFor (Some (owning_task <| Status ::= fun s => s <| State := StateAwaitingReview |> |>))
       [reviewed_mr <| mr_Status ::= fun s => s <| mr_PendingReview := None |> |>] StateAwaitingReview StateMerged = true.
Proof.
  split; [vm_compute; reflexivity|].
  exact (review_exit_is_legal (owning_task <| Status ::= fun s => s <| State := StateAwaitingReview |> |>)
    [reviewed_mr <| mr_Status ::= fun s => s <| mr_PendingReview := None |> |>] (mkEdge StateMerged "") eq_refl
    (or_introl eq_refl)).
Defined.

Lemma comments_look_first_witness :
  thread_lacked (th_pending (OnMR reviewed_mr)) (firstn 7 comment_trace) (nth 7 comment_trace (did ContextDone true))
  /\ is_set (commented (nth 7 comment_trace (did ContextDone true))) = true.
Proof.
  split; [|by vm_compute].
  apply (comments_look_first (fun s => s) (fun _ => Some "/o/r"%string) (fun _ => Some 0) (fun _ => Some 0) (fun _ => None) false
    (OnMR reviewed_mr) (with_reviews []) _ (skipn 8 comment_trace)).
  apply (trace_at 7 comment_trace (did ContextDone true)). vm_compute. lia.
Defined.
