(* ===== verification/StageGuards.v ===== *)
(** * What the Task reconciler does before it runs an agent (internal/controller:
    task_stage.go, reset_guard.go, parked_terminal.go, issue_url.go): the guard against a
    reset, the repair of an interrupted mint, the clocks, the CI hold, the caps and
    triage. *)

From stdpp Require Import sorting.
From Stdlib Require Import String Ascii.
From S2P Require Import Prelude GoTime Text Limits Api Vocabulary Machine Park Clocks Unpark ObjBudget Own Transition Settings Names TtlStop LivePods Corridor Merge Refs Seq Escalate Queue Calls Release Mirror Intake Proposals Reviewing.

Open Scope Z_scope.
Open Scope go_scope.

(** ** Constants *)

Definition stageRequeue : Duration := 30 * Second.
Definition admissionRequeue : Duration := 5 * Minute.
Definition agentBootRequeue : Duration := 5 * Second.
Definition mrBindingBackstopGrace : Duration := 5 * Minute.
Definition HandoffDeadline : Duration := 5 * Minute.
Definition CIWaitDeadline : Duration := 30 * Minute.

(** ** Results *)

(** [ctrl.Result]. *)
Record Requeue := mkRequeue { rs_Requeue : bool; rs_After : Duration }.

Definition at_rest : Requeue := mkRequeue false 0.
Definition at_once : Requeue := mkRequeue true 0.
Definition after (d : Duration) : Requeue := mkRequeue false d.

(** Whether the work queue brings the Task back. *)
Definition comes_back (r : Requeue) : bool := rs_Requeue r || (0 <? rs_After r).

(** ** URLs of issues and changes (issue_url.go) *)

(** The text before the separator and the number after it; [None] without a separator, or
    with nothing before it. *)
Definition split_number (p sep : string) : option (option (string * Z)) :=
  match split_at p sep with
  | Some (slug, rest) =>
      if slug == "" then None else Some (option_map (fun n => (slug, n)) (ParseInt rest))
  | None => None
  end.

Definition url_number (path : option string) (gitlab github : string) : option (string * Z) :=
  match path with
  | None => None
  | Some p =>
      let p := trim_right_slash (trim_left_slash p) in
      match split_number p gitlab with
      | Some r => r
      | None => match split_number p github with Some r => r | None => None end
      end
  end.

Definition parseIssueURL (parse : string -> option string) (itemURL : string) : option (string * Z) :=
  url_number (parse itemURL) "/-/issues/" "/issues/".

Definition parsePRURL (parse : string -> option string) (itemURL : string) : option (string * Z) :=
  url_number (parse itemURL) "/-/merge_requests/" "/pull/".

Definition parseSourceURL (parse : string -> option string) (itemURL : string) (isPR : bool) : option (string * Z) :=
  if isPR then parsePRURL parse itemURL else parseIssueURL parse itemURL.

Definition repoOwnsURL (parse : string -> option string) (repoURL itemURL : string) : bool :=
  match parseIssueURL parse itemURL, gh_slug (parse repoURL) with
  | Some (slug, _), Some own => own == slug
  | _, _ => false
  end.

(** ** Decisions *)

Definition projectPaused (proj : Project) : bool := proj_MaxConcurrentAgents proj =? 0.

(** The outcome that was committed in this stay at awaiting-review. *)
Definition handoffCondition (task : Task) : option Condition :=
  if State (Status task) != StateAwaitingReview then None
  else if negb (OutcomeCommittedFor task (AgentKindFor (State (Status task)) (Kind (Spec task)))) then None
  else match OutcomeCondition task, StateEnteredAt (Status task) with
       | Some cond, Some entered => if After (c_LastTransitionTime cond) entered then Some cond else None
       | _, _ => None
       end.

Definition clockRequeue (clock : string) (remaining : Duration) : Duration :=
  let most := if clock == ClockAdmission then admissionRequeue
              else if clock == ClockReadiness then agentBootRequeue
              else stageRequeue in
  if (0 <? remaining) && (remaining <? most) then remaining + Second else most.

Definition triageTarget (task : Task) : option string :=
  let kind := Kind (Spec task) in
  if str_mem [AgentBrainstorm; AgentIncident; AgentRefine; AgentImplement] kind then Some StateRefined
  else if kind == AgentReview then Some StateAwaitingReview
  else if kind == AgentUpgrade then (if AdoptedUpgrade (Some task) then Some StateAwaitingReview else None)
  else None.

Definition parkedBindingRepairEligible (task : Task) : bool :=
  (ParkReason (Status task) == ReasonAwaitingHuman) && (ParkedFromState (Status task) != "")
  && match Source (Spec task) with Some src => 0 <? src_Number src | None => false end
  && match MRRefs (Status task), IssueRefs (Status task) with [], [] => true | _, _ => false end.

(** A mint that was interrupted, past its grace. *)
Definition unbound_past_grace (task : Task) (now : Time) : bool :=
  negb (Parked task)
  && match Source (Spec task) with Some src => 0 <? src_Number src | None => false end
  && match MRRefs (Status task), IssueRefs (Status task) with [], [] => true | _, _ => false end
  && (mrBindingBackstopGrace <? Sub now (stageEnteredAt task))
  && negb (TaskDone task).

(** What the mirrors of a Task's issues say of a Task that has lost its state: [None]
    while one of them is open. *)
Fixpoint reset_scan (declined stamped : bool) (issues : list Issue) : option (bool * bool) :=
  match issues with
  | [] => Some (declined, stamped)
  | iss :: rest =>
      let st := iss_Status iss in
      let declined := declined || (iss_StatusWord st == "rejected") in
      let stamped := stamped && ((iss_StatusWord st == "rejected") || (iss_StatusWord st == "done")) in
      if iss_State st != "closed" then None else reset_scan declined stamped rest
  end.

Definition reset_verdict (issues : list Issue) : string * string :=
  match issues with
  | [] => (""%string, ""%string)
  | _ => match reset_scan false true issues with
         | None => (""%string, ""%string)
         | Some (declined, stamped) =>
             if declined then (StateRejected, ReasonDeclined)
             else if stamped then (StateDone, ""%string)
             else (StateRejected, ReasonIssueClosed)
         end
  end.

(** ** The programs *)

Section Guards.

(** [strconv.Quote]; the path of [url.Parse]; the removal of a condition by its type; the
    sizes and the spillers, by project; the view of [APIReader]; whether metrics are wired;
    whether the terminal release of a Task succeeds; the poll interval of a stop. *)
Context (Quote : string -> string) (parse : string -> option string) (dropCondition : string -> list Condition -> list Condition)
  (issueSize : Issue -> option Z) (mrSize : MergeRequest -> option Z) (sp : Project -> option (Spiller Comment))
  (reader : View) (m : bool) (release : Task -> bool) (poll : Duration).

(** *** Plumbing of the reconciler (transition.go, task_controller.go) *)

Definition enter (task : Task) (mrs : list MergeRequest) (to reason : string) (now : Time) : Io unit :=
  let? _ := choke (task_Name task) (fun w =>
    EnterStage w m task mrs to reason now None (WithTerminalIssueRelease (Some release) no_opts)) in ok tt.

(** An entry with a mutation of its own and no release. *)
Definition enter_with (mutate : Task -> Task) (task : Task) (mrs : list MergeRequest) (to reason : string) (now : Time) : Io unit :=
  let? _ := choke (task_Name task) (fun w => EnterStage w m task mrs to reason now (Some mutate) no_opts) in ok tt.

Definition park (task : Task) (reason : string) (now : Time) : Io unit :=
  let? _ := choke (task_Name task) (fun w => ParkTask w m task reason now None) in ok tt.

Definition mint_parked (task : Task) (to reason : string) (now : Time) : Io unit :=
  let? _ := choke (task_Name task) (fun w => enterParkedAtMint w m task to reason now) in ok tt.

(** Read, change, write, again on a conflict; the Task as it is then. *)
Definition patch_status (task : Task) (mutate : Task -> option Task) : Io Task := stampMintStatusIfChanged task mutate.

Definition patch_annotations (task : Task) (mutate : Task -> option Task) : Io Task :=
  choke (task_Name task) (fun w => patchTaskAnnotations task mutate (w_turn w)).

Definition clear_turn (task : Task) : Io Task := choke (task_Name task) (fun w => clearTurnAnnotations w task).

Definition projectRepos (proj : Project) : Io (list Repository) :=
  Do (ListRepositoriesOf (proj_Name proj)) (fun r =>
    match r with
    | Ok l => ok l
    | Err ApiUnindexed =>
        let? l := api ListRepositories in ok (List.filter (fun repo => repo_ProjectRef repo == proj_Name proj) l)
    | Err e => fail (ApiFault e)
    end).

(** The issues a Task controls, by name. *)
Definition controlled_issues (task : Task) : Io (list Issue) :=
  let? l := api ListIssues in ok (owned_sorted iss_Name task (map (fun iss => (owners iss, iss)) l)).

(** The first red merge request on the forge, with what the read learnt of the others; a
    forge that cannot be read shows none. *)
Definition live_red {A} (mrs : list MergeRequest) (k : option MergeRequest -> list MergeRequest -> Io A) : Io A :=
  Do CIReads (fun '(fw, read) =>
    let '(r, mrs) := ciRedAtReviewedHead fw read mrs in
    k (match r with Ok red => red | Err _ => None end) mrs).

Definition red_exit (task : Task) (mrs : list MergeRequest) (red : MergeRequest) (now : Time) (extra : option (Task -> Task)) : Io unit :=
  Do (CIRedAnswers (task_Name task)) (fun w =>
    let s := enterCIRedWith Quote w m task mrs red now extra in
    Do (CorridorEffects (task_Name task) (st_effects s)) (fun _ =>
      match st_err s with None => ok tt | Some e => fail (CorridorFault e) end)).

(** *** The guard against a reset *)

Definition mintedAlready (task : Task) : Io bool :=
  match reader with
  | Cached => ok false
  | Direct =>
      let? live := found (api (GetTask Direct (task_Name task))) in
      ok (match live with None => true | Some live => State (Status live) != "" end)
  end.

Fixpoint refs_unseen (seen refs : list string) (owned : list Issue) : Io (list Issue) :=
  match refs with
  | [] => ok owned
  | name :: rest =>
      if str_mem seen name then refs_unseen seen rest owned
      else
        let? iss := found (api (GetIssue Cached name)) in
        match iss with
        | None => refs_unseen seen rest owned
        | Some iss => refs_unseen (name :: seen) rest (owned ++ [iss])%list
        end
  end.

(** By controller, and by reference. *)
Definition resetGuardIssues (task : Task) : Io (list Issue) :=
  let? owned := controlled_issues task in
  refs_unseen (map iss_Name owned) (IssueRefs (Status task)) owned.

Definition terminalResetTarget (task : Task) : Io (string * string) :=
  if is_set (DeliveredAt (Status task)) then ok (StateDone, ""%string)
  else if DocumentedBy (Status task) != "" then ok (StateDone, ""%string)
  else let? issues := resetGuardIssues task in ok (reset_verdict issues).

(** The create edge. *)
Definition reconcile_mint (task : Task) (now : Time) : Io Requeue :=
  let? minted := mintedAlready task in
  if minted then ok (after Second)
  else
    let? (to, reason) := terminalResetTarget task in
    if to != "" then let? _ := enter task [] to reason now in ok at_rest
    else
      let initStage := if InitialState (Spec task) == "" then StateNew else InitialState (Spec task) in
      let? _ := (if InitialParkReason (Spec task) != "" then mint_parked task initStage (InitialParkReason (Spec task)) now
                 else enter task [] initStage "" now) in
      ok at_once.

(** *** A parked Task whose merge requests are all finished *)

(** The edge of a Task whose merge requests ended outside, or were taken over. *)
Definition external_exit (task : Task) (mrs : list MergeRequest) : Io (option Edge) :=
  match externalTerminalEdge task mrs, mrs with
  | Some e, _ => ok (Some e)
  | None, [] =>
      let? over := TaskTakenOver reader task in
      ok (if over then Some (mkEdge StateRejected ReasonMRTakenOver) else None)
  | None, _ => ok None
  end.

Definition reconcileParkedExternalTerminal (task : Task) (now : Time) : Io bool :=
  if negb (Parked task) || TaskDone task then ok false
  else if (Kind (Spec task) != "review") && (State (Status task) != StateAwaitingReview) then ok false
  else
    let? mrs := controlled_mrs reader task in
    let? edge := external_exit task mrs in
    match edge with
    | None => ok false
    | Some e =>
        if negb (TaskIsTerminalOutcome (To e)) then ok false
        else if negb (LegalFor (Some task) mrs (State (Status task)) (To e)) then ok false
        else
          let? _ := choke (task_Name task) (fun w =>
            EnterStage w m task mrs (To e) (Reason e) now None
              (WithParkClearedForMRTerminal (WithTerminalIssueRelease (Some release) no_opts))) in
          ok true
    end.

(** *** The repair of an interrupted mint *)

Definition repositoryForSlug (proj : Project) (task : Task) (slug : string) : Io (option Repository) :=
  if RepositoryRef (Spec task) != "" then found (api (GetRepository (RepositoryRef (Spec task))))
  else
    let? repos := projectRepos proj in
    ok (List.find (fun repo => match gh_slug (parse (repo_URL repo)) with Some s => s == slug | None => false end) repos).

(** The text before the first [sep]: [strings.Cut]. *)
Definition cut_before (s sep : string) : string := match split_at s sep with Some (a, _) => a | None => s end.

Definition bind_source (proj : Project) (repo : Repository) (src : TaskSource) (number : Z) (task : Task) : Io Task :=
  if src_IsPR src then
    repairMRBinding mrSize (sp proj) proj repo
      (mkScmMergeRequest number (src_IssueRef src) (src_Title src) (src_AuthorLogin src) "" "open" "" (src_HeadSHA src) "" false 0 0 None [])
      task
  else
    repairIssueBinding issueSize (sp proj) proj repo
      (mkScmIssue number (cut_before (src_IssueRef src) "#") (src_Title src) (src_AuthorLogin src) "" "open" [] 0 0 []) task.

(** Whether the Task is bound now; an error is logged and reads no. *)
Definition repairSourceBinding (proj : Project) (task : Task) : Io bool :=
  match Source (Spec task) with
  | None => ok false
  | Some src =>
      match parseSourceURL parse (src_IssueRef src) (src_IsPR src) with
      | None => ok false
      | Some (slug, number) =>
          let! repo := repositoryForSlug proj task slug in
          match repo with
          | Err _ | Ok None => ok false
          | Ok (Some repo) =>
              let! bound := bind_source proj repo src number task in
              ok (match bound with
                  | Err _ => false
                  | Ok task => match MRRefs (Status task), IssueRefs (Status task) with [], [] => false | _, _ => true end
                  end)
          end
      end
  end.

(** Best effort. *)
Definition commentMRBindingBackstopParked (task : Task) : Io unit :=
  match Source (Spec task) with
  | None => ok tt
  | Some src =>
      match parseSourceURL parse (src_IssueRef src) (src_IsPR src) with
      | None => ok tt
      | Some (slug, number) =>
          let! w := driver_forge in
          match w with
          | Err _ => ok tt
          | Ok _ =>
              let body := sprintf ["tatara parked this task: it has not recorded an owned merge-request or issue after `";
                DurationString mrBindingBackstopGrace; "` (likely an interrupted mint on the operator side). ";
                "No agent will run against it until a human comments here to prompt a retry."] in
              Do (PostComment (with_sigil slug "#"%char number) body) (fun _ => ok tt)
          end
      end
  end.

Definition reconcileMRBindingBackstop (proj : Project) (task : Task) (now : Time) : Io bool :=
  if negb (unbound_past_grace task now) then ok false
  else
    let? repaired := repairSourceBinding proj task in
    if repaired then ok true
    else
      let? _ := park task ReasonAwaitingHuman now in
      let? _ := tell (Count "mr_binding_backstop_parked" [proj_Name proj; Kind (Spec task)]) in
      let? _ := commentMRBindingBackstopParked task in
      ok true.

(** Whether it was repaired, and the Task as it was read. *)
Definition reconcileParkedBindingRepair (proj : Project) (task : Task) : Io (bool * Task) :=
  if negb (parkedBindingRepairEligible task) then ok (false, task)
  else
    let? task := refreshTaskFromAPI reader task in
    if negb (parkedBindingRepairEligible task) then ok (false, task)
    else let? repaired := repairSourceBinding proj task in ok (repaired, task).

(** *** The CI hold *)

Definition clear_hold (t : Task) : Task := on_status t (fun s => s <| CIWaitSince := None |>).

Definition revoke_outcome (t : Task) : Task :=
  on_status (clear_hold t) (fun s => s <| Conditions ::= dropCondition ConditionOutcomeAccepted |>).

Definition release_hold (task : Task) (mrs : list MergeRequest) (now : Time) : Io Requeue :=
  let? _ := enter_with clear_hold task mrs StateAwaitingReview "" now in ok at_rest.

Definition reconcileCIWait (task : Task) (since now : Time) : Io Requeue :=
  let? mrs := controlled_mrs reader task in
  let held := Sub now since in
  let wait mrs := if CIWaitDeadline <=? held then release_hold task mrs now else ok (after stageRequeue) in
  if ciMirrorVerdict mrs == ciVerdictRed then
    live_red mrs (fun red mrs =>
      match red with
      | Some red => let? _ := red_exit task mrs red now (Some revoke_outcome) in ok at_rest
      | None => wait mrs
      end)
  else if ciMirrorVerdict mrs == ciVerdictClear then release_hold task mrs now
  else wait mrs.

(** *** The clocks *)

Definition deployTimeoutBody (repos : string) (reentries : Z) : string :=
  sprintf ["Deployment of `"; repos; "` has not completed after `"; DurationString (default 0 (Budget StateDeployed));
           "`; retry `"; FormatInt reentries; "`/`"; FormatInt MaxDeployReentries;
           "`. tatara keeps retrying until it succeeds or the deploy budget is exhausted."].

Definition queue_deploy_comment (task : Task) (body : string) (now : Time) (cur : Issue) : Issue :=
  if is_set (iss_LastDeployTimeoutCommentAt (iss_Status cur)) || (20 <=? Z.of_nat (List.length (iss_PendingComments (iss_Status cur))))
  then cur
  else cur <| iss_Status ::= fun s =>
    s <| iss_PendingComments ::= fun l => (l ++ [mkPendingComment (sprintf ["deploy-timeout-"; task_Name task]) "comment" body ""])%list |>
      <| iss_LastDeployTimeoutCommentAt := Some now |> |>.

Definition enqueueDeployTimeoutComment (proj : Project) (task : Task) (mrs : list MergeRequest) (now : Time) : Io unit :=
  let? issues := ownedIssues task in
  let stuck := map (fun mr => mrs_RepositoryRef (mr_Spec mr)) (List.filter (fun mr => negb (is_set (mr_DeployedAt (mr_Status mr)))) mrs) in
  let repos := if join_comma stuck == "" then RepositoryRef (Spec task) else join_comma stuck in
  let body := deployTimeoutBody repos (DeployReentries (Status task)) in
  foreach (List.filter (fun iss => (iss_State (iss_Status iss) == "open")
                                   && negb (is_set (iss_LastDeployTimeoutCommentAt (iss_Status iss)))) issues)
    (fun iss => let? _ := fitIssue issueSize (sp proj) (iss_Name iss) (queue_deploy_comment task body now) in ok tt).

(** A conversation that has been idle. *)
Definition end_conversation (proj : Project) (task : Task) (now : Time) : Io unit :=
  Do (ExitAnswers (task_Name task)) (fun w =>
    let '(e, es) := liveHandoffAndPark w m poll proj task causeIdle now in
    Do (ExitEffects (task_Name task) es) (fun _ => match e with None => ok tt | Some e => fail (ExitFault e) end)).

(** At awaiting-review: merge requests that ended outside, and a pipeline that went red.
    Whether it acted. *)
Definition review_exits (task : Task) (now : Time) : Io bool :=
  if State (Status task) != StateAwaitingReview then ok false
  else
    let? mrs := controlled_mrs reader task in
    let? edge := external_exit task mrs in
    match edge with
    | Some e => let? _ := enter task mrs (To e) (Reason e) now in ok true
    | None =>
        if ciMirrorVerdict mrs == ciVerdictRed then
          live_red mrs (fun red mrs =>
            match red with
            | Some red => let? _ := red_exit task mrs red now None in ok true
            | None => ok false
            end)
        else ok false
    end.

(** The advance of a committed outcome that the drain did not make. *)
Definition handoff_redrive (task : Task) (now : Time) : Io bool :=
  match handoffCondition task with
  | None => ok false
  | Some cond =>
      let? mrs := controlled_mrs reader task in
      match reviewAdvanceEdge task mrs with
      | Some edge =>
          let go mrs := let? _ := (if To edge == ParkTarget then park task (Reason edge) now
                                   else enter task mrs (To edge) (Reason edge) now) in ok true in
          if To edge == StateMerged then
            live_red mrs (fun red mrs =>
              match red with
              | Some red => let? _ := red_exit task mrs red now None in ok true
              | None => go mrs
              end)
          else go mrs
      | None =>
          if HandoffDeadline <? Sub now (c_LastTransitionTime cond) then
            let? _ := park task ReasonHandoffStalled now in ok true
          else ok false
      end
  end.

(** The clock that is armed, with the budget of a conversation from its project. *)
Definition armed (proj : Project) (task : Task) : ClockReading :=
  let r := ArmedClock task (projectPaused proj) in
  if Live (State (Status task)) && (ck_clock r == ClockWork) && negb (Parked task)
  then mkClock (ck_clock r) (ck_since r) (ConversationIdle (Some proj)) (ck_edge r) else r.

(** A clock past its budget. *)
Definition elapse (proj : Project) (task : Task) (edge : Edge) (now : Time) : Io (Requeue * bool) :=
  if To edge == Reap then ok (at_rest, true)
  else if To edge == Respawn then ok (after agentBootRequeue, false)
  else
    let? mrs := controlled_mrs Cached task in
    if Live (State (Status task)) && negb (Parked task) && (Reason edge == ReasonAwaitingHuman) then
      let? _ := end_conversation proj task now in ok (at_rest, true)
    else if To edge != ParkTarget then fail (NotAPark (To edge))
    else
      let? _ := park task (Reason edge) now in
      let? _ := (if Reason edge == ReasonDeployTimeout then enqueueDeployTimeoutComment proj task mrs now else ok tt) in
      ok (at_rest, true).

Definition run_clock (proj : Project) (task : Task) (now : Time) : Io (Requeue * bool) :=
  let r := armed proj task in
  if ck_clock r == ClockNone then ok (at_rest, false)
  else
    let elapsed := Sub now (ck_since r) in
    if elapsed <=? ck_budget r then ok (after (clockRequeue (ck_clock r) (i64 (ck_budget r - elapsed))), false)
    else elapse proj task (ck_edge r) now.

(** The result, and whether the pass ends with it. *)
Definition reconcileClocks (proj : Project) (task : Task) (now : Time) : Io (Requeue * bool) :=
  match CIWaitSince (Status task) with
  | Some since => let? r := reconcileCIWait task since now in ok (r, true)
  | None =>
      let? acted := review_exits task now in
      if acted then ok (at_rest, true)
      else
        let? acted := handoff_redrive task now in
        if acted then ok (at_rest, true)
        else if negb (projectPaused proj) && negb (Parked task) && ResidencyExceeded task now then
          let? _ := tell (Count "residency_exceeded" [State (Status task); Kind (Spec task)]) in
          let? _ := park task ReasonStageDeadline now in ok (at_rest, true)
        else run_clock proj task now
  end.

(** *** Triage *)

Definition sourceRepository (proj : Project) (task : Task) (src : TaskSource) : Io (option Repository) :=
  if RepositoryRef (Spec task) != "" then found (api (GetRepository (RepositoryRef (Spec task))))
  else
    let? repos := projectRepos proj in
    ok (List.find (fun repo => (src_URL src != "") && repoOwnsURL parse (repo_URL repo) (src_URL src)) repos).

(** The mirror of the issue a Task was minted for; the Task as it is then. *)
Definition mintIssueCRs (proj : Project) (task : Task) : Io Task :=
  match Source (Spec task) with
  | None => ok task
  | Some src =>
      if src_IsPR src || (src_Number src <=? 0) || (Kind (Spec task) == AgentReview) then ok task
      else
        let? repo := sourceRepository proj task src in
        match repo with
        | None => ok task
        | Some repo =>
            let name := IssueName (repo_Name repo) (src_Number src) in
            if str_mem (IssueRefs (Status task)) name then ok task
            else
              let? _ := ensureIssueCR proj repo (src_Number src) (src_URL src) in
              let? _ := ownIssueForTask name task in
              let refs := (IssueRefs (Status task) ++ [name])%list in
              patch_status task (fun fresh =>
                if str_mem (IssueRefs (Status fresh)) name then None
                else Some (on_status fresh (fun s => s <| IssueRefs := refs |>)))
        end
  end.

Definition reconcileTriaging (proj : Project) (task : Task) (now : Time) : Io Requeue :=
  if MaxTaskNameLength <? strlen (task_Name task) then let? _ := park task ReasonNameTooLong now in ok at_rest
  else if is_set (ValidateTaskSpec (Spec task)) then let? _ := park task ReasonTriageStalled now in ok at_rest
  else
    let? task := mintIssueCRs proj task in
    match triageTarget task with
    | None => let? _ := park task ReasonTriageStalled now in ok at_rest
    | Some next => let? _ := enter task [] next "" now in ok at_rest
    end.

End Guards.

(** ** Vocabulary of the properties *)

(** What a guard read of a Task's issues: those it controls in a list, those it refers to. *)
Definition issue_read (task : Task) (es : list (Did Call)) (iss : Issue) : Prop :=
  (exists l, In (did ListIssues (Ok l)) es /\ In iss l /\ ControllerOwner (owners iss) = Some (task_Name task))
  \/ exists n, In (did (GetIssue Cached n) (Ok iss)) es.

Definition closed_issue (iss : Issue) : Prop := iss_State (iss_Status iss) = "closed"%string.
Definition stamped_done (iss : Issue) : Prop := iss_StatusWord (iss_Status iss) = "done"%string.

(** The answers of those reads. *)
Definition got_issue (d : Did Call) : option Issue :=
  match did_call d in Call X return X -> option Issue with
  | GetIssue Cached _ => fun r => match r with Ok iss => Some iss | Err _ => None end
  | _ => fun _ => None
  end (did_answer d).

Definition got_issues (d : Did Call) : option (list Issue) :=
  match did_call d in Call X return X -> option (list Issue) with
  | ListIssues => fun r => match r with Ok l => Some l | Err _ => None end
  | _ => fun _ => None
  end (did_answer d).

(** ** Lemmas: the guard against a reset *)

Lemma reset_scan_spec l : forall d s d' s', reset_scan d s l = Some (d', s') ->
  Forall closed_issue l /\ (d' = false -> s' = true -> d = false /\ s = true /\ Forall stamped_done l).
Proof.
  induction l as [|iss l IH]; intros d s d' s'; cbn [reset_scan]; [intros [= -> ->]; by repeat constructor|].
  destruct (iss_State _ != "closed")%go eqn:Ec; [done|]. apply negb_false_iff, String.eqb_eq in Ec.
  intros H. apply IH in H as [H1 H2]. split; [by constructor|]. intros Hd Hs.
  destruct (H2 Hd Hs) as [[-> Hr]%orb_false_iff [[-> Hst]%andb_true_iff Hl]]. split; [done|]. split; [done|].
  constructor; [|done]. rewrite Hr in Hst. by apply String.eqb_eq in Hst.
Qed.

Lemma reset_verdict_spec l to reason : reset_verdict l = (to, reason) -> to <> ""%string ->
  l <> [] /\ Forall closed_issue l /\ (to = StateDone -> Forall stamped_done l).
Proof.
  unfold reset_verdict. destruct l as [|iss l]; [by intros [= <- _]|].
  destruct (reset_scan false true (iss :: l)) as [[d s]|] eqn:E; [|by intros [= <- _]].
  apply reset_scan_spec in E as [Hc Hs]. intros H _. split; [done|]. split; [exact Hc|].
  intros ->. destruct d; [done|]. destruct s; [|done]. by apply Hs.
Qed.

Lemma owned_sorted_In {A} (name : A -> string) task l (x : A) :
  In x (owned_sorted name task l) <-> exists refs, In (refs, x) l /\ ControllerOwner refs = Some (task_Name task).
Proof.
  unfold owned_sorted. rewrite <- !list_elem_of_In, merge_sort_Permutation, list_elem_of_In, in_map_iff. split.
  - intros ([refs y] & Hy & Hin). apply filter_In in Hin as [Hin Hc]. cbn in *. subst y. exists refs. split; [done|].
    unfold controlled_by in Hc. cbn in Hc. destruct (ControllerOwner refs) as [c|]; [|done]. apply String.eqb_eq in Hc. by subst.
  - intros (refs & Hin & Hc). exists (refs, x). split; [done|]. apply filter_In. split; [done|].
    unfold controlled_by. cbn. rewrite Hc. apply String.eqb_refl.
Qed.

Lemma refs_unseen_reads refs : forall seen owned,
  does (refs_unseen seen refs owned) (fun r es => forall issues, r = Ok issues ->
    (forall iss, In iss issues <-> In iss owned \/ exists n, In (did (GetIssue Cached n) (Ok iss)) es)
    /\ (forall l, ~ In (did ListIssues (Ok l)) es)).
Proof.
  induction refs as [|name rest IH]; intros seen owned; cbn [refs_unseen].
  - intros issues [= <-]. split; [|by intros l []]. intros iss. split; [by left|]. by intros [H|[n []]].
  - destruct (str_mem seen name); [apply IH|]. apply does_try, does_found. intros [iss|[]]; cbn [ok fail does api IsNotFound]; try done.
    + eapply does_mono; [|apply IH]. intros r es H issues Hi. destruct (H issues Hi) as [H1 H2]. split.
      * intros i. rewrite H1, in_app_iff. cbn. split.
        -- intros [[Hin|[<-|[]]]|[n Hn]]; [by left|right; exists name; by left|right; exists n; by right].
        -- intros [Hin|[n [Hn|Hn]]]; [by left; left| |by right; exists n]. left. right. left. by apply (f_equal got_issue) in Hn as [= ->].
      * intros l [Hl|Hl]; [by apply (f_equal got_issues) in Hl|by apply (H2 l)].
    + eapply does_mono; [|apply IH]. intros r es H issues Hi. destruct (H issues Hi) as [H1 H2]. split.
      * intros i. rewrite H1. split; [intros [Hin|[n Hn]]; [by left|right; exists n; by right]|].
        intros [Hin|[n [Hn|Hn]]]; [by left|by apply (f_equal got_issue) in Hn|by right; exists n].
      * intros l [Hl|Hl]; [by apply (f_equal got_issues) in Hl|by apply (H2 l)].
Qed.

Lemma resetGuardIssues_reads task :
  does (resetGuardIssues task) (fun r es => forall issues, r = Ok issues -> forall iss, In iss issues <-> issue_read task es iss).
Proof.
  unfold resetGuardIssues, controlled_issues. apply does_try, does_try. intros [l|e]; [|done]. cbn [ok does].
  eapply does_mono; [|apply refs_unseen_reads]. intros r es H issues Hi iss. destruct (H issues Hi) as [H1 H2].
  rewrite H1, owned_sorted_In. unfold issue_read. split.
  - intros [(refs & Hin & Hc)|[n Hn]]; [|right; exists n; by right]. left. exists l. split; [by left|].
    apply in_map_iff in Hin as (i & [= <- <-] & Hin). done.
  - intros [(l' & [Hl|Hl] & Hin & Hc)|[n [Hn|Hn]]]; [|by apply H2 in Hl|by apply (f_equal got_issue) in Hn|by right; exists n].
    left. apply (f_equal got_issues) in Hl as [= Hl']. exists (owners iss). split; [|done]. apply in_map_iff. exists iss. split; [done|]. by rewrite Hl'.
Qed.

(** A Task that has lost its state is finished again only on proof: it carries the stamp of
    a delivery or of its documentation, or it has issues, every one that was read is closed
    on the forge, and - to be done rather than rejected - every one was stamped delivered. *)
Theorem a_reset_finishes_only_the_finished task (w : World Call) to reason es :
  run w (terminalResetTarget task) = (Ok (to, reason), es) -> to <> ""%string ->
  is_set (DeliveredAt (Status task)) = true \/ DocumentedBy (Status task) <> ""%string
  \/ ((exists iss, issue_read task es iss)
      /\ forall iss, issue_read task es iss -> closed_issue iss /\ (to = StateDone -> stamped_done iss)).
Proof.
  intros Hrun Hto.
  assert (does (terminalResetTarget task) (fun r es => r = Ok (to, reason) ->
            is_set (DeliveredAt (Status task)) = true \/ DocumentedBy (Status task) <> ""%string
            \/ exists l, reset_verdict l = (to, reason) /\ forall iss, In iss l <-> issue_read task es iss)) as H.
  { unfold terminalResetTarget. destruct (is_set (DeliveredAt _)); [by left|].
    destruct (DocumentedBy _ != "")%go eqn:Ed; [right; left; by apply negb_true_iff, String.eqb_neq in Ed|].
    apply does_try. eapply does_mono; [|apply resetGuardIssues_reads]. intros [l|e] es' Hl; [|done].
    cbn. intros [= Hv]. right. right. exists l. split; [done|]. rewrite app_nil_r. by apply Hl. }
  pose proof (run_does w _ _ H) as Hr. rewrite Hrun in Hr. destruct (Hr eq_refl) as [?|[?|(l & Hv & Hl)]]; [by left|by right; left|].
  right. right. apply reset_verdict_spec in Hv as (Hne & Hc & Hd); [|done]. split.
  - destruct l as [|iss l]; [done|]. exists iss. apply Hl. by left.
  - intros iss Hin%Hl. split; [exact (proj1 (List.Forall_forall _ _) Hc iss Hin)|].
    intros Ht. exact (proj1 (List.Forall_forall _ _) (Hd Ht) iss Hin).
Qed.

(** ** Witnesses *)

Definition reset_task : Task :=
  zero_Task <| task_Name := "t"%string |> <| Status ::= fun s => s <| IssueRefs := ["i"%string] |> |>.

Definition delivered_issue : Issue :=
  zero_Issue <| iss_Name := "i"%string |>
    <| iss_Status ::= fun s => s <| iss_State := "closed"%string |> <| iss_StatusWord := "done"%string |> |>.

Definition delivered_world (past : list (Did Call)) (X : Type) (c : Call X) : X :=
  match c in Call X return X with
  | GetIssue _ _ => Ok delivered_issue
  | c => nowhere c
  end.

Lemma a_reset_finishes_only_the_finished_witness :
  exists es, run delivered_world (terminalResetTarget reset_task) = (Ok (StateDone, ""%string), es)
  /\ (is_set (DeliveredAt (Status reset_task)) = true \/ DocumentedBy (Status reset_task) <> ""%string
      \/ ((exists iss, issue_read reset_task es iss)
          /\ forall iss, issue_read reset_task es iss -> closed_issue iss /\ (StateDone = StateDone -> stamped_done iss))).
Proof.
  eexists. split; [vm_compute; reflexivity|].
  eapply (a_reset_finishes_only_the_finished reset_task delivered_world StateDone ""); [vm_compute; reflexivity|by vm_compute].
Defined.
