(* ===== verification/Deploy.v ===== *)
(** * The deploy stage (internal/controller: deploy_stage.go, deploy_supervision.go,
    stage_controller.go): the versions a pin file carries, when a merged change counts as
    deployed, the bounded wait for the fan-out of its pin, and the reconciler that drives
    merging and deploying. *)

From Stdlib Require Import String Ascii.
From S2P Require Import Prelude GoTime Text Limits Api Vocabulary Machine Park Clocks ObjBudget Own Transition Logins Names Corridor Merge Refs Seq Calls Release Intake Reviewing StageGuards.

Open Scope Z_scope.
Open Scope go_scope.

(** ** Constants *)

Definition deployStageRequeue : Duration := 60 * Second.
Definition deployPinFanoutDeadline : Duration := 45 * Minute.
Definition helmfileRepoName : string := "tatara-helmfile".
Definition applyWorkflowFile : string := "apply.yaml".

Definition deployPinFiles : list string :=
  ["helmfile.yaml.gotmpl"; "values/tatara-operator/common.yaml"; "values/tatara-operator/default.yaml";
   "values/project-tatara/common.yaml"; "values/project-infrastructure/common.yaml"; "values/project-mtg/common.yaml"]%string.

Definition releaseArtifact : list (string * string) :=
  [("tatara-operator", "tatara-operator"); ("project-tatara", "tatara-operator");
   ("project-infrastructure", "tatara-operator"); ("project-mtg", "tatara-operator")]%string.

(** ** Versions *)

Definition is_digit (a : ascii) : bool := within 48 57 a.

(** The digits at the front, and what follows them. *)
Fixpoint span_digits (s : string) : string * string :=
  match s with
  | String a s' => if is_digit a then let '(d, r) := span_digits s' in (String a d, r) else (""%string, s)
  | EmptyString => (""%string, ""%string)
  end.

(** One or more digits. *)
Definition some_digits (s : string) : option (string * string) :=
  let '(d, r) := span_digits s in if d == "" then None else Some (d, r).

Definition dot (s : string) : option string :=
  match s with String a s' => if Ascii.eqb a "." then Some s' else None | EmptyString => None end.

(** The three groups of [v?(\d+)\.(\d+)\.(\d+)] at the front of a text. *)
Definition semver_here (s : string) : option (string * string * string) :=
  let s := match s with String a s' => if Ascii.eqb a "v" then s' else s | EmptyString => s end in
  match some_digits s with
  | Some (a, s) =>
      match option_map some_digits (dot s) with
      | Some (Some (b, s)) =>
          match option_map some_digits (dot s) with
          | Some (Some (c, _)) => Some (a, b, c)
          | _ => None
          end
      | _ => None
      end
  | None => None
  end.

(** The leftmost match. *)
Fixpoint semver_find (s : string) : option (string * string * string) :=
  match semver_here s with
  | Some m => Some m
  | None => match s with String _ s' => semver_find s' | EmptyString => None end
  end.

Definition parseSemver (s : string) : option (Z * Z * Z) :=
  match semver_find s with
  | Some (a, b, c) =>
      match ParseInt a, ParseInt b, ParseInt c with
      | Some a, Some b, Some c => Some (a, b, c)
      | _, _, _ => None
      end
  | None => None
  end.

Definition semverAtLeast (have want : Z * Z * Z) : bool :=
  let '(a, b, c) := have in
  let '(a', b', c') := want in
  if negb (a =? a') then a' <? a
  else if negb (b =? b') then b' <? b
  else if negb (c =? c') then c' <? c
  else true.

(** ** The pin files *)

(** [strings.Split(s, "\n")]. *)
Fixpoint split_lines (s : string) : list string :=
  match s with
  | EmptyString => [""%string]
  | String a s' =>
      match split_lines s' with
      | l :: ls => if Ascii.eqb a "010" then ""%string :: l :: ls else String a l :: ls
      | [] => [""%string]
      end
  end.

(** [\s] of a Go regular expression. *)
Definition re_space (a : ascii) : bool := within 9 10 a || within 12 13 a || Ascii.eqb a " ".

Fixpoint drop_spaces (s : string) : string :=
  match s with String a s' => if re_space a then drop_spaces s' else s | EmptyString => s end.

(** [\S+], and what follows it. *)
Fixpoint span_word (s : string) : string * string :=
  match s with
  | String a s' => if re_space a then (""%string, s) else let '(w, r) := span_word s' in (String a w, r)
  | EmptyString => (""%string, ""%string)
  end.

(** [helmfileReleaseRe]: the name of a release that starts on this line. *)
Definition release_name (line : string) : option string :=
  match drop_spaces line with
  | String a s =>
      if negb (Ascii.eqb a "-") then None
      else
        let s := drop_spaces s in
        if negb (HasPrefix s "name:") then None
        else
          let '(w, r) := span_word (drop_spaces (drop_bytes 5 s)) in
          if (w == "") || (drop_spaces r != "") then None else Some w
  | EmptyString => None
  end.

Definition isVersionByte (a : ascii) : bool := within 48 57 a || Ascii.eqb a ".".

Definition first_byte (s : string) : ascii := match s with String a _ => a | EmptyString => " "%char end.

(** The token at a place where no version goes on, [before] being the byte in front. *)
Fixpoint token_from (before : ascii) (s tok : string) : bool :=
  (HasPrefix s tok && negb (isVersionByte before) && negb (isVersionByte (first_byte (drop_bytes (String.length tok) s))))
  || match s with String a s' => token_from a s' tok | EmptyString => false end.

Definition tokenMatch (s tok : string) : bool := if tok == "" then false else token_from " " s tok.

Definition lineCarriesVersion (line version bare : string) : bool :=
  tokenMatch line version || ((bare != version) && tokenMatch line bare).

(** A line, with the release it stands under. *)
Fixpoint under_release (current : string) (lines : list string) : list (string * string) :=
  match lines with
  | [] => []
  | line :: rest =>
      match release_name line with
      | Some name => under_release name rest
      | None => (current, line) :: under_release current rest
      end
  end.

Definition of_artifact (artifact : string) (cl : string * string) : bool :=
  Contains (snd cl) (sprintf ["/"; artifact; ":"])
  || match tbl releaseArtifact (fst cl) with Some a => a == artifact | None => "" == artifact end.

Definition artifactPinLines (pinState artifact : string) : list string :=
  if artifact == "" then []
  else map snd (List.filter (of_artifact artifact) (under_release "" (split_lines pinState))).

Definition pinArtifactPresent (pinState artifact : string) : bool :=
  existsb (fun line => is_set (parseSemver line)) (artifactPinLines pinState artifact).

Definition pinCarriesArtifactVersion (pinState artifact version : string) : bool :=
  if (version == "") || (artifact == "") then false
  else
    let bare := TrimPrefix version "v" in
    existsb (fun cl => of_artifact artifact cl && lineCarriesVersion (snd cl) version bare)
      (under_release "" (split_lines pinState)).

Definition pinAtOrPastArtifactVersion (pinState artifact version : string) : bool :=
  match parseSemver version with
  | None => pinCarriesArtifactVersion pinState artifact version
  | Some want =>
      existsb (fun line => match parseSemver line with Some have => semverAtLeast have want | None => false end)
        (artifactPinLines pinState artifact)
  end.

Definition shortSHA (sha : string) : string := take_bytes 7 sha.

(** ** The programs *)

Section Deploying.

(** [strconv.Quote], [strings.ToLower] and the path of [url.Parse]; the sizes and the
    spiller, by project; whether metrics are wired. *)
Context (Quote toLower : string -> string) (parse : string -> option string)
  (issueSize : Issue -> option Z) (mrSize : MergeRequest -> option Z) (sp : Project -> option (Spiller Comment)) (m : bool).

Fixpoint pin_state (owner repo ref : string) (files : list string) : Io string :=
  match files with
  | [] => ok ""%string
  | f :: rest =>
      let? content := forge (GetFileContent owner repo f ref) in
      let? tail := pin_state owner repo ref rest in
      ok (sprintf [content; newline; tail])
  end.

Definition helmfilePinState (owner repo ref : string) : Io string := pin_state owner repo ref deployPinFiles.

(** The project's helmfile repository; an error reads as none. *)
Definition helmfile_among (proj : Project) (r : result ApiError (list Repository)) : option (string * string) :=
  match r with
  | Err _ => None
  | Ok l =>
      List.find (fun on => snd on == helmfileRepoName)
        (omap (fun repo => if repo_ProjectRef repo == proj_Name proj then ghOwnerRepo (parse (repo_URL repo)) else None) l)
  end.

Definition helmfileRepoFor (proj : Project) : Io (option (string * string)) :=
  Do ListRepositories (fun r => ok (helmfile_among proj r)).

(** The last run of the apply on main, where it is a green one; an error reads as none. *)
Definition green (r : result ScmAnswer (option WorkflowRun)) : option WorkflowRun :=
  match r with
  | Ok (Some run) => if (wr_Status run == "completed") && (wr_Conclusion run == "success") then Some run else None
  | _ => None
  end.

Definition applyRun (owner repo : string) : Io (option WorkflowRun) :=
  Do (LatestWorkflowRun owner repo applyWorkflowFile "main") (fun r => ok (green r)).

Definition applyPostdatesMerge (run : WorkflowRun) (mr : MergeRequest) : bool :=
  match mr_MergedAt (mr_Status mr) with Some merged => negb (Before (wr_CreatedAt run) merged) | None => true end.

Definition deployed (now : Time) (version : string) (cur : MergeRequest) : MergeRequest :=
  cur <| mr_Status ::= fun s =>
    s <| mr_DeployedAt ::= fun at_ => match at_ with Some t => Some t | None => Some now end |>
      <| mr_DeployedVersion ::= fun v => if version != "" then version else v |> |>.

(** The stamp, and the caller's copy with it. *)
Definition stampDeployed (proj : Project) (mr : MergeRequest) (version : string) : Io MergeRequest :=
  Do TimeNow (fun now : Time =>
    let? _ := fitMergeRequest mrSize (sp proj) (mr_Name mr) (deployed now version) in
    ok (mr <| mr_Status ::= fun s =>
          s <| mr_DeployedAt := Some now |> <| mr_DeployedVersion ::= fun v => if version != "" then version else v |> |>)).

(** Not yet, and no longer than the deadline where the pin on main has not moved. *)
Definition fanoutBoundedWait (mr : MergeRequest) (artifact tag mainPin : string) : Io (option MergeRequest) :=
  if pinAtOrPastArtifactVersion mainPin artifact tag then ok None
  else match mr_MergedAt (mr_Status mr) with
       | None => ok None
       | Some merged =>
           Do TimeNow (fun now : Time =>
             if Sub now merged <? deployPinFanoutDeadline then ok None
             else let? _ := tell (Count "deploy_pin_fanout_stalled" [artifact]) in fail FanoutStalled)
       end.

(** The merge is the delivery. *)
Definition stamped (proj : Project) (mr : MergeRequest) (version : string) : Io (option MergeRequest) :=
  let? mr := stampDeployed proj mr version in ok (Some mr).

(** A change of the helmfile repository itself. *)
Definition resolve_helmfile (proj : Project) (mr : MergeRequest) (owner name : string) : Io (option MergeRequest) :=
  let? run := applyRun owner name in
  match run with
  | None => ok None
  | Some run =>
      if negb (applyPostdatesMerge run mr) then ok None
      else stamped proj mr (sprintf [helmfileRepoName; "@"; shortSHA (wr_HeadSHA run)])
  end.

(** The apply that carried the tag of a component. *)
Definition resolve_pinned (proj : Project) (mr : MergeRequest) (name tag mainPin hfOwner hfRepo : string) : Io (option MergeRequest) :=
  let waiting := fanoutBoundedWait mr name tag mainPin in
  let? run := applyRun hfOwner hfRepo in
  match run with
  | None => waiting
  | Some run =>
      if negb (applyPostdatesMerge run mr) then waiting
      else
        let! appliedPin := helmfilePinState hfOwner hfRepo (wr_HeadSHA run) in
        match appliedPin with
        | Err _ => ok None
        | Ok appliedPin =>
            if negb (pinAtOrPastArtifactVersion appliedPin name tag) then waiting else stamped proj mr tag
        end
  end.

Definition resolve_component (proj : Project) (mr : MergeRequest) (owner name hfOwner hfRepo : string) : Io (option MergeRequest) :=
  let! tag := forge (LatestSemverTag owner name) in
  match tag with
  | Err _ => ok None
  | Ok tag =>
      let! mainPin := helmfilePinState hfOwner hfRepo "main" in
      match mainPin with
      | Err _ => ok None
      | Ok mainPin =>
          if negb (pinArtifactPresent mainPin name) then stamped proj mr (default ""%string tag)
          else match tag with
               | None => ok None
               | Some tag => resolve_pinned proj mr name tag mainPin hfOwner hfRepo
               end
      end
  end.

(** The merge request with its stamp, once it is deployed. *)
Definition resolveDeployed (proj : Project) (mr : MergeRequest) : Io (option MergeRequest) :=
  let? repo := api (GetRepository (mrs_RepositoryRef (mr_Spec mr))) in
  match ghOwnerRepo (parse (repo_URL repo)) with
  | None => fail (NoSlug (repo_URL repo))
  | Some (owner, name) =>
      let? _ := (let? _ := driver_forge in driver_reader) in
      Do CanWatchDeploys (fun isWatcher : bool =>
        let? hf := helmfileRepoFor proj in
        match (if isWatcher then hf else None) with
        | None => stamped proj mr ""
        | Some (hfOwner, hfRepo) =>
            if name == helmfileRepoName then resolve_helmfile proj mr owner name
            else resolve_component proj mr owner name hfOwner hfRepo
        end)
  end.

Definition parkOnStalledFanout (proj : Project) (task : Task) (mrs : list MergeRequest) : Io unit :=
  Do TimeNow (fun now : Time =>
    let? _ := park m task ReasonDeployTimeout now in
    enqueueDeployTimeoutComment issueSize sp proj task mrs now).

(** The delivery, on the answers of the outside. *)
Definition deliver (proj : Project) (task : Task) : Io unit :=
  Do TimeNow (fun now : Time =>
    Do (DeliveryAnswers (task_Name task)) (fun w =>
      let r := CloseIssuesOnDelivery toLower parse w proj now task in
      Do (CorridorEffects (task_Name task) (p_effects r)) (fun _ =>
        match p_err r with None => ok tt | Some e => fail (CorridorFault e) end))).

(** The merge requests one by one, those before with their stamps. *)
Fixpoint deploy_loop (proj : Project) (task : Task) (pending : bool) (before mrs : list MergeRequest) : Io Requeue :=
  match mrs with
  | [] => if pending then ok (after deployStageRequeue) else let? _ := deliver proj task in ok at_rest
  | mr :: rest =>
      if mr_State (mr_Status mr) != "merged" then deploy_loop proj task true (before ++ [mr])%list rest
      else if is_set (mr_DeployedAt (mr_Status mr)) then deploy_loop proj task pending (before ++ [mr])%list rest
      else
        let! r := resolveDeployed proj mr in
        match r with
        | Err FanoutStalled => let? _ := parkOnStalledFanout proj task (before ++ mr :: rest)%list in ok at_rest
        | Err e => fail e
        | Ok None => deploy_loop proj task true (before ++ [mr])%list rest
        | Ok (Some mr) => deploy_loop proj task pending (before ++ [mr])%list rest
        end
  end.

Definition ReconcileDeploying (proj : Project) (task : Task) : Io Requeue :=
  let? mrs := controlled_mrs Cached task in
  match mrs with
  | [] => ok (after deployStageRequeue)
  | _ => deploy_loop proj task false [] mrs
  end.

(** ** The stage reconciler *)

Definition merge_pass (proj : Project) (task : Task) : Io Requeue :=
  Do TimeNow (fun now : Time =>
    Do (MergeAnswers (task_Name task)) (fun w =>
      let r := ReconcileMerging Quote toLower parse w proj now task in
      Do (CorridorEffects (task_Name task) (p_effects r)) (fun _ =>
        match p_err r with None => ok (after (p_requeue r)) | Some e => fail (CorridorFault e) end))).

Definition drive_stage (name : string) : Io Requeue :=
  let? task := found (api (GetTask Cached name)) in
  match task with
  | None => ok at_rest
  | Some task =>
      if is_set (DeletionTimestamp task) then ok at_rest
      else if negb ((State (Status task) == StateMerged) || (State (Status task) == StateDeployed)) then ok at_rest
      else
        let? proj := found (api (GetProject (ProjectRef (Spec task)))) in
        match proj with
        | None => ok at_rest
        | Some proj =>
            if State (Status task) == StateMerged then merge_pass proj task else ReconcileDeploying proj task
        end
  end.

Definition ownerTaskRequests (refs : list OwnerReference) : list string :=
  match ControllerOwner refs with Some name => [name] | None => [] end.

End Deploying.

(** ** Vocabulary of the properties *)

(** A write to a merge request. *)
Definition stamps (d : Did Call) : bool := match did_call d with MergeRequestEffects _ _ => true | _ => false end.

(** The text of the pin files, in their order. *)
Definition pins_of (contents : list string) : string := fold_right (fun c tail => sprintf [c; newline; tail]) ""%string contents.

(** The files as the forge showed them at a commit. *)
Definition read_pins (past : list (Did Call)) (owner repo ref : string) (pins : string) : Prop :=
  exists contents, pins = pins_of contents
    /\ Forall2 (fun f c => In (did (GetFileContent owner repo f ref) (Ok c)) past) deployPinFiles contents.

(** The cascade ended at a green apply of main that is not older than the merge: the
    repository's own, or one whose pin of the component is at its tag or past it. *)
Definition applied (mr : MergeRequest) (owner name hfOwner hfRepo : string) (past : list (Did Call)) : Prop :=
  exists run, applyPostdatesMerge run mr = true /\ wr_Status run = "completed"%string /\ wr_Conclusion run = "success"%string
    /\ ((name = helmfileRepoName /\ In (did (LatestWorkflowRun owner name applyWorkflowFile "main") (Ok (Some run))) past)
        \/ (In (did (LatestWorkflowRun hfOwner hfRepo applyWorkflowFile "main") (Ok (Some run))) past
            /\ exists tag pins, In (did (LatestSemverTag owner name) (Ok (Some tag))) past
                 /\ read_pins past hfOwner hfRepo (wr_HeadSHA run) pins /\ pinAtOrPastArtifactVersion pins name tag = true)).

(** What a change may be called deployed on: nothing would ever show it, nothing deploys
    it, or an apply carried it. *)
Definition evidence (parse : string -> option string) (proj : Project) (mr : MergeRequest) (owner name : string) (past : list (Did Call)) : Prop :=
  In (did CanWatchDeploys false) past
  \/ (exists r, In (did ListRepositories r) past
        /\ match helmfile_among parse proj r with
           | None => True
           | Some (hfOwner, hfRepo) =>
               (exists pins, read_pins past hfOwner hfRepo "main" pins /\ pinArtifactPresent pins name = false)
               \/ applied mr owner name hfOwner hfRepo past
           end).

Definition based (parse : string -> option string) (proj : Project) (mr : MergeRequest) (past : list (Did Call)) : Prop :=
  exists repo owner name, In (did (GetRepository (mrs_RepositoryRef (mr_Spec mr))) (Ok repo)) past
    /\ ghOwnerRepo (parse (repo_URL repo)) = Some (owner, name) /\ evidence parse proj mr owner name past.

Definition on_evidence (parse : string -> option string) (proj : Project) (mr : MergeRequest) (past : list (Did Call)) (d : Did Call) : Prop :=
  stamps d = true -> based parse proj mr past.

(** No digit in a text, and none in front of it. *)
Fixpoint no_digits (s : string) : bool := match s with String a s' => negb (is_digit a) && no_digits s' | EmptyString => true end.
Definition no_digit_first (s : string) : bool := match s with String a _ => negb (is_digit a) | EmptyString => true end.

(** A text of digits and nothing else. *)
Definition digits_only (p : string) : Prop := span_digits p = (p, ""%string).

(** ** Lemmas: versions *)

Lemma digit_is_digit d : 0 <= d <= 9 -> is_digit (digit d) = true.
Proof.
  intros H. assert (d = 0 \/ d = 1 \/ d = 2 \/ d = 3 \/ d = 4 \/ d = 5 \/ d = 6 \/ d = 7 \/ d = 8 \/ d = 9) as Hd by lia.
  by destruct_or! Hd; subst d.
Qed.

Lemma span_app p s : digits_only p -> span_digits (p ++ s) = ((p ++ (span_digits s).1)%string, (span_digits s).2).
Proof.
  unfold digits_only. induction p as [|a p IH]; intros H; [apply surjective_pairing|]. cbn [span_digits] in H.
  change ((String a p ++ s)%string) with (String a (p ++ s)). cbn [span_digits]. destruct (is_digit a); [|discriminate H].
  destruct (span_digits p) as [d r]. injection H as -> ->. by rewrite IH.
Qed.

Lemma append_nil p : (p ++ "")%string = p.
Proof. induction p as [|a p IH]; [done|]. change (String a (p ++ "") = String a p). by rewrite IH. Qed.

Lemma append_cons p a s : ((p ++ String a "") ++ s)%string = (p ++ String a s)%string.
Proof. induction p as [|b p IH]; [done|]. change (String b ((p ++ String a "") ++ s) = String b (p ++ String a s)). by rewrite IH. Qed.

Lemma format_digits_only fuel : forall n acc, 0 <= n < 10 ^ Z.of_nat fuel -> (0 < fuel)%nat ->
  exists p, digits_only p /\ p <> ""%string /\ format_digits fuel n acc = (p ++ acc)%string.
Proof.
  assert (forall x, 0 <= x <= 9 -> digits_only (String (digit x) "")) as H1
    by (intros x Hx; unfold digits_only; cbn [span_digits]; by rewrite digit_is_digit).
  induction fuel as [|fuel IH]; intros n acc Hn Hf; [lia|]. cbn [format_digits].
  destruct (Z.ltb_spec n 10) as [Hlt|Hge].
  { exists (String (digit n) ""). split; [apply H1; lia|done]. }
  assert (0 < fuel)%nat as Hf' by (destruct fuel; [change (Z.of_nat 1) with 1 in Hn|]; lia).
  rewrite Nat2Z.inj_succ, Z.pow_succ_r in Hn by lia. pose proof (Z.mod_pos_bound n 10).
  destruct (IH (n / 10) (String (digit (n mod 10)) acc)) as (p & Hp & Hne & ->); [|done|].
  { split; [apply Z.div_pos; lia|apply Z.div_lt_upper_bound; lia]. }
  exists (p ++ String (digit (n mod 10)) "")%string. split; [|split; [by destruct p|by rewrite append_cons]].
  unfold digits_only. rewrite span_app by done. by rewrite H1 by lia.
Qed.

Lemma FormatInt_prints_digits n : 0 <= n < two63 -> digits_only (FormatInt n) /\ FormatInt n <> ""%string.
Proof.
  intros Hn. unfold FormatInt. destruct (Z.ltb_spec n 0); [lia|].
  destruct (format_digits_only 20 n "") as (p & Hp & Hne & ->); [unfold two63 in Hn; lia|lia|]. by rewrite append_nil.
Qed.

(** The digits of a number, in front of something else. *)
Lemma some_digits_printed n s : 0 <= n < two63 -> no_digit_first s = true -> some_digits (FormatInt n ++ s) = Some (FormatInt n, s).
Proof.
  intros Hn Hs. destruct (FormatInt_prints_digits n Hn) as [Hd Hne]. unfold some_digits. rewrite span_app by done.
  assert (span_digits s = (""%string, s)) as -> by (destruct s as [|a s]; [done|]; cbn in *; by destruct (is_digit a)).
  cbn [fst snd]. rewrite append_nil. by destruct (String.eqb_spec (FormatInt n) "").
Qed.

Lemma digits_first_digit p s : digits_only p -> p <> ""%string -> no_digit_first (p ++ s) = false.
Proof.
  unfold digits_only. destruct p as [|a p]; [done|]. intros H _. change (negb (is_digit a) = false). cbn [span_digits] in H.
  by destruct (is_digit a).
Qed.

Lemma semver_here_skip a s : is_digit a = false -> no_digit_first s = true -> semver_here (String a s) = None.
Proof.
  intros Ha Hs. unfold semver_here, some_digits. destruct (Ascii.eqb a "v").
  - destruct s as [|b s]; [done|]. cbn in *. by destruct (is_digit b).
  - cbn. by rewrite Ha.
Qed.

Lemma dot_after s : dot ("." ++ s) = Some s.
Proof. reflexivity. Qed.

(** A printed version is read back, whatever text stands around it: no digit in front of
    it, and none right behind. *)
Theorem printed_versions_parse (before : string) (a b c : Z) (behind : string) :
  0 <= a < two63 -> 0 <= b < two63 -> 0 <= c < two63 -> no_digits before = true -> no_digit_first behind = true ->
  parseSemver (sprintf [before; FormatInt a; "."; FormatInt b; "."; FormatInt c; behind]%string) = Some (a, b, c).
Proof.
  intros Ha Hb Hc Hbefore Hbehind. unfold parseSemver, sprintf, join. cbn [fold_right]. rewrite append_nil.
  set (v := (FormatInt a ++ "." ++ FormatInt b ++ "." ++ FormatInt c ++ behind)%string).
  assert (no_digit_first v = false) as Hv by (destruct (FormatInt_prints_digits a Ha); by apply digits_first_digit).
  assert (forall s, s = v \/ s = String "v" v -> semver_here s = Some (FormatInt a, FormatInt b, FormatInt c)) as Hhere.
  { assert (match v with String x s' => if Ascii.eqb x "v" then s' else v | EmptyString => v end = v) as Hstrip.
    { destruct v as [|x v']; [done|]. cbn in Hv. by destruct (Ascii.eqb_spec x "v") as [->|]. }
    assert (some_digits v = Some (FormatInt a, ("." ++ FormatInt b ++ "." ++ FormatInt c ++ behind)%string)) as H1
      by (by apply some_digits_printed).
    intros s [->| ->]; unfold semver_here.
    1: rewrite Hstrip. 2: change (Ascii.eqb "v" "v") with true; cbv iota.
    all: rewrite H1, dot_after; cbn [option_map]; rewrite some_digits_printed by done.
    all: rewrite dot_after; cbn [option_map]; by rewrite some_digits_printed. }
  assert (semver_find (before ++ v) = Some (FormatInt a, FormatInt b, FormatInt c)) as ->.
  2: { by rewrite !FormatInt_parse. }
  clearbody v. induction before as [|x before IH].
  - change (("" ++ v)%string) with v. destruct v as [|y v']; [done|]. cbn [semver_find]. by rewrite Hhere by (by left).
  - change ((String x before ++ v)%string) with (String x (before ++ v)). cbn [no_digits] in Hbefore.
    apply andb_true_iff in Hbefore as [Hx Hbefore]. apply negb_true_iff in Hx. cbn [semver_find].
    destruct before as [|y before].
    + change (("" ++ v)%string) with v in *. destruct (Ascii.eqb_spec x "v") as [->|Hxv]; [by rewrite Hhere by (by right)|].
      assert (semver_here (String x v) = None) as ->; [|by apply IH].
      unfold semver_here, some_digits. destruct (Ascii.eqb_spec x "v"); [done|]. cbn [span_digits]. by rewrite Hx.
    + rewrite semver_here_skip; [by apply IH|done|]. change ((String y before ++ v)%string) with (String y (before ++ v)).
      cbn [no_digits] in Hbefore. by apply andb_true_iff in Hbefore as [Hy _].
Qed.

Lemma semverAtLeast_trans u v w : semverAtLeast u v = true -> semverAtLeast v w = true -> semverAtLeast u w = true.
Proof.
  destruct u as [[a b] c], v as [[a' b'] c'], w as [[a'' b''] c'']. unfold semverAtLeast. cbv zeta.
  intros H H'. repeat match goal with
    | H : context [?x =? ?y] |- _ => destruct (Z.eqb_spec x y); cbn [negb] in H
    | |- context [?x =? ?y] => destruct (Z.eqb_spec x y); cbn [negb]
    end; try apply Z.ltb_lt in H; try apply Z.ltb_lt in H'; try apply Z.ltb_lt; first [done|lia].
Qed.

(** A pin that is past a version is past every earlier one. *)
Lemma pins_cover_what_they_pass pins artifact v w x y :
  parseSemver v = Some x -> parseSemver w = Some y -> semverAtLeast y x = true ->
  pinAtOrPastArtifactVersion pins artifact w = true -> pinAtOrPastArtifactVersion pins artifact v = true.
Proof.
  intros Hv Hw Hxy. unfold pinAtOrPastArtifactVersion. rewrite Hv, Hw. intros H. apply existsb_exists in H as (l & Hl & H).
  apply existsb_exists. exists l. split; [exact Hl|]. destruct (parseSemver l); [|done]. by apply semverAtLeast_trans with y.
Qed.

(** ** Lemmas: what a stamp is based on *)

Section Evidence.

#[local] Set Default Proof Using "Type*".

Context (parse : string -> option string) (mrSize : MergeRequest -> option Z) (sp : Project -> option (Spiller Comment)) (m : bool)
  (proj : Project) (mr : MergeRequest).

#[local] Abbreviation P := (on_evidence parse proj mr).

Lemma read_pins_mono past more owner repo ref pins : read_pins past owner repo ref pins -> read_pins (past ++ more)%list owner repo ref pins.
Proof.
  intros (contents & -> & H). exists contents. split; [done|]. eapply Forall2_impl; [exact H|].
  intros f c Hin. apply in_or_app. by left.
Qed.

Lemma based_mono past more : based parse proj mr past -> based parse proj mr (past ++ more)%list.
Proof.
  intros (repo & owner & name & Hr & Ho & He). exists repo, owner, name.
  split; [apply in_or_app; by left|]. split; [exact Ho|].
  destruct He as [He|(r & Hl & He)]; [left; apply in_or_app; by left|right].
  exists r. split; [apply in_or_app; by left|]. destruct (helmfile_among parse proj r) as [[o n]|]; [|done].
  destruct He as [(pins & Hp & He)|(run & H1 & H2 & H3 & He)]; [left|right].
  - exists pins. split; [by apply read_pins_mono|exact He].
  - exists run. repeat (split; [done|]). destruct He as [[Hn He]|[He (tag & pins & Ht & Hp & Hat)]]; [left|right].
    + split; [done|]. apply in_or_app. by left.
    + split; [apply in_or_app; by left|]. exists tag, pins. split; [apply in_or_app; by left|]. split; [by apply read_pins_mono|exact Hat].
Qed.

(** A part that stamps nothing, and what its value says of its trace. *)
Lemma learns {A B} (p : Prog Call A) (f : A -> Prog Call B) (K : A -> list (Did Call) -> Prop) past :
  does p (fun a es => Forall (fun d => stamps d = false) es /\ K a es) ->
  (forall a es, K a es -> does (f a) (fun _ es' => guarded P (past ++ es)%list es')) ->
  does (bind p f) (fun _ es => guarded P past es).
Proof.
  intros Hp Hf. apply does_bind. eapply does_mono; [|exact Hp]. intros a es [Hes HK].
  eapply does_mono; [|exact (Hf a es HK)]. intros b es' H. apply guarded_app. split; [|exact H].
  apply (guarded_free P (fun d => stamps d = false)); [|exact Hes]. intros past' d Hd. unfold on_evidence. congruence.
Qed.

(** One call, of which the rest knows the answer. *)
Lemma learns_call {A X} (c : Call X) (f : X -> Prog Call A) past :
  (forall x, stamps (did c x) = false) -> (forall x, does (f x) (fun _ es => guarded P (past ++ [did c x])%list es)) ->
  does (Do c f) (fun _ es => guarded P past es).
Proof.
  intros Hc Hf x. eapply does_mono; [|exact (Hf x)]. intros a es H. split; [|exact H]. unfold on_evidence. by rewrite Hc.
Qed.

Lemma quiet {A} (p : Prog Call A) past : each (fun d => stamps d = false) p -> does p (fun _ es => guarded P past es).
Proof. intros H. apply (always_free P (fun d => stamps d = false)); [|exact H]. intros past' d Hd. unfold on_evidence. congruence. Qed.

Lemma once_based {A} (p : Prog Call A) past : based parse proj mr past -> does p (fun _ es => guarded P past es).
Proof.
  intros H. eapply does_mono; [|exact (does_True p)]. intros _ es _.
  apply (guarded_once P (based parse proj mr)); [by intros ? ? ? _|by intros; apply based_mono|exact H].
Qed.

(** What the forge showed of the pin files. *)
Lemma pin_state_reads owner repo ref files :
  does (pin_state owner repo ref files) (fun r es => Forall (fun d => stamps d = false) es
    /\ forall pins, r = Ok pins -> exists contents, pins = pins_of contents
         /\ Forall2 (fun f c => In (did (GetFileContent owner repo f ref) (Ok c)) es) files contents).
Proof.
  induction files as [|f files IH]; cbn [pin_state].
  { split; [constructor|]. intros pins [= <-]. by exists []. }
  cbn [forge bind try]. intros [c|e]; [|split; [by repeat constructor|done]].
  cbn [ok bind try]. apply does_try. eapply does_mono; [|exact IH]. intros [tail|e] es [Hes H].
  - cbn [ok does]. rewrite app_nil_r. split; [by constructor|]. intros pins [= <-].
    destruct (H _ eq_refl) as (contents & -> & H2). exists (c :: contents). split; [done|].
    constructor; [by left|]. eapply Forall2_impl; [exact H2|]. intros g d Hin. by right.
  - split; [by constructor|done].
Qed.

Lemma helmfilePinState_reads owner repo ref :
  does (helmfilePinState owner repo ref) (fun r es => Forall (fun d => stamps d = false) es
    /\ forall pins, r = Ok pins -> read_pins es owner repo ref pins).
Proof. exact (pin_state_reads owner repo ref deployPinFiles). Qed.

Lemma wait_quiet artifact tag pins : each (fun d => stamps d = false) (fanoutBoundedWait mr artifact tag pins).
Proof. unfold fanoutBoundedWait. each_go ltac:(reflexivity). Qed.

Context (repo : Repository) (owner name : string) (past : list (Did Call)).
Hypotheses (Hrepo : In (did (GetRepository (mrs_RepositoryRef (mr_Spec mr))) (Ok repo)) past)
  (Howner : ghOwnerRepo (parse (repo_URL repo)) = Some (owner, name)).

Lemma based_on more : evidence parse proj mr owner name (past ++ more)%list -> based parse proj mr (past ++ more)%list.
Proof. intros He. exists repo, owner, name. split; [apply in_or_app; by left|by split]. Qed.

Context (r : result ApiError (list Repository)) (hfOwner hfRepo : string) (more : list (Did Call)).
Hypotheses (Hlist : In (did ListRepositories r) more) (Hhf : helmfile_among parse proj r = Some (hfOwner, hfRepo)).

Lemma based_applied more' : applied mr owner name hfOwner hfRepo ((past ++ more) ++ more')%list ->
  based parse proj mr ((past ++ more) ++ more')%list.
Proof.
  rewrite <- app_assoc. intros He. apply based_on. right. exists r. rewrite Hhf.
  split; [apply in_or_app; right; apply in_or_app; by left|by right].
Qed.

Lemma green_spec a run : green a = Some run -> a = Ok (Some run) /\ wr_Status run = "completed"%string /\ wr_Conclusion run = "success"%string.
Proof.
  destruct a as [[x|]|e]; [|done..]. cbn. destruct (String.eqb_spec (wr_Status x) "completed"); [|done].
  destruct (String.eqb_spec (wr_Conclusion x) "success"); [|done]. by intros [= <-].
Qed.

Lemma helmfile_on_evidence : name = helmfileRepoName ->
  does (resolve_helmfile mrSize sp proj mr owner name) (fun _ es => guarded P (past ++ more)%list es).
Proof.
  intros Hn. unfold resolve_helmfile, applyRun. cbn [try bind]. apply learns_call; [done|]. intros a. cbn [ok bind try].
  destruct (green a) as [run|] eqn:Eg; [|done]. apply green_spec in Eg as (-> & Hs & Hc).
  destruct (applyPostdatesMerge run mr) eqn:Ep; [|done]. cbn [negb]. apply once_based, based_applied. exists run.
  repeat (split; [done|]). left. split; [done|]. apply in_or_app. right. by left.
Qed.

Lemma pinned_on_evidence tag mainPin : In (did (LatestSemverTag owner name) (Ok (Some tag))) more ->
  does (resolve_pinned mrSize sp proj mr name tag mainPin hfOwner hfRepo) (fun _ es => guarded P (past ++ more)%list es).
Proof.
  intros Ht. unfold resolve_pinned, applyRun. cbv zeta. cbn [try bind]. apply learns_call; [done|]. intros a. cbn [ok bind try].
  destruct (green a) as [run|] eqn:Eg; [|apply quiet, wait_quiet]. apply green_spec in Eg as (-> & Hs & Hc).
  destruct (applyPostdatesMerge run mr) eqn:Ep; cbn [negb]; [|apply quiet, wait_quiet].
  eapply learns; [apply helmfilePinState_reads|]. intros [pins|e] es Hp; [|done].
  destruct (pinAtOrPastArtifactVersion pins name tag) eqn:Ev; cbn [negb]; [|apply quiet, wait_quiet].
  rewrite <- app_assoc. apply once_based, based_applied. exists run. repeat (split; [done|]). right.
  split; [apply in_or_app; right; by left|]. exists tag, pins. split; [apply in_or_app; left; apply in_or_app; by right|].
  split; [|exact Ev]. specialize (Hp _ eq_refl) as (contents & -> & H). exists contents. split; [done|].
  eapply Forall2_impl; [exact H|]. intros f c Hin. apply in_or_app. right. by right.
Qed.

End Evidence.

Section Deployed.

#[local] Set Default Proof Using "Type*".

Context (parse : string -> option string) (mrSize : MergeRequest -> option Z) (sp : Project -> option (Spiller Comment)) (m : bool)
  (proj : Project) (mr : MergeRequest).

#[local] Abbreviation P := (on_evidence parse proj mr).

Lemma component_on_evidence repo owner name past r hfOwner hfRepo more :
  In (did (GetRepository (mrs_RepositoryRef (mr_Spec mr))) (Ok repo)) past -> ghOwnerRepo (parse (repo_URL repo)) = Some (owner, name) ->
  In (did ListRepositories r) more -> helmfile_among parse proj r = Some (hfOwner, hfRepo) ->
  does (resolve_component mrSize sp proj mr owner name hfOwner hfRepo) (fun _ es => guarded P (past ++ more)%list es).
Proof.
  intros Hrepo Howner Hlist Hhf. unfold resolve_component. cbn [forge bind]. apply learns_call; [done|].
  intros [tag|e]; cbn [ok fail bind]; [|done].
  eapply learns; [apply helmfilePinState_reads|]. intros [pins|e] es Hp; [|done]. specialize (Hp _ eq_refl).
  rewrite <- !app_assoc. destruct (pinArtifactPresent pins name) eqn:Ep; cbn [negb].
  - destruct tag as [tag|]; [|done]. apply (pinned_on_evidence _ _ _ _ _ repo owner _ _ Hrepo Howner r); [apply in_or_app; by left|done|].
    apply in_or_app. right. by left.
  - apply once_based. exists repo, owner, name. split; [apply in_or_app; by left|]. split; [exact Howner|]. right.
    exists r. rewrite Hhf. split; [apply in_or_app; right; apply in_or_app; by left|]. left. exists pins. split; [|exact Ep].
    destruct Hp as (contents & -> & H). exists contents. split; [done|]. eapply Forall2_impl; [exact H|].
    intros f c Hin. rewrite !app_assoc. apply in_or_app. by right.
Qed.


(** The pins of a commit are missing only for a file the forge did not show. *)
Lemma pin_state_fails owner repo ref files :
  does (pin_state owner repo ref files) (fun r es => forall e, r = Err e ->
    exists path x, In (did (GetFileContent owner repo path ref) (Err x)) es).
Proof.
  induction files as [|f files IH]; cbn [pin_state]; [done|]. cbn [forge bind try]. intros [c|x]; cbn [ok fail bind try].
  - apply does_try. eapply does_mono; [|exact IH]. intros [tail|e] es H; [by intros e [=]|].
    intros e' [= <-]. destruct (H e eq_refl) as (path & x & Hin). exists path, x. by right.
  - intros e _. exists f, x. by left.
Qed.

Lemma stamped_answers version : does (stamped mrSize sp proj mr version) (fun r _ => r <> Ok None).
Proof.
  unfold stamped, stampDeployed, fitMergeRequest. cbn [try bind]. intros now [reads attempts].
  destruct (FitMergeRequest _ _ _ _ _) as [r es]. cbn [bind]. intros u. by destruct r.
Qed.

(** The wait for the pin of a tag is bounded: once the clock is 45 minutes past the merge, a
    pass on a component that main pins below its tag does not answer "not yet" again, unless
    the pins of the applied commit could not be read. *)
Theorem the_fanout_wait_is_bounded (w : World Call) (merged : Time) name tag mainPin hfOwner hfRepo :
  mr_MergedAt (mr_Status mr) = Some merged -> pinAtOrPastArtifactVersion mainPin name tag = false ->
  (forall past, deployPinFanoutDeadline <= Sub (w past _ TimeNow) merged) ->
  fst (run w (resolve_pinned mrSize sp proj mr name tag mainPin hfOwner hfRepo)) = Ok None ->
  exists path ref e, In (did (GetFileContent hfOwner hfRepo path ref) (Err e))
    (snd (run w (resolve_pinned mrSize sp proj mr name tag mainPin hfOwner hfRepo))).
Proof.
  intros Hm Hp Hnow.
  set (late d := forall t : Time, d = did TimeNow t -> deployPinFanoutDeadline <= Sub t merged).
  assert (does (fanoutBoundedWait mr name tag mainPin) (fun a es => Forall late es -> a <> Ok None)) as Hwait.
  { unfold fanoutBoundedWait. rewrite Hp, Hm. intros now. destruct (Z.ltb_spec (Sub now merged) deployPinFanoutDeadline) as [Hlt|_].
    - intros H _. inversion_clear H as [|? ? Hl _]. specialize (Hl now eq_refl). lia.
    - by intros []. }
  assert (does (resolve_pinned mrSize sp proj mr name tag mainPin hfOwner hfRepo) (fun a es => Forall late es -> a = Ok None ->
    exists path ref e, In (did (GetFileContent hfOwner hfRepo path ref) (Err e)) es)) as H.
  2: { intros Ha. apply (run_does w) in H. apply H; [|exact Ha]. apply List.Forall_forall. intros d Hin t ->.
       apply run_answer in Hin as [past ->]. apply Hnow. }
  unfold resolve_pinned, applyRun. cbv zeta. cbn [try bind ok]. intros a. cbn [try bind ok].
  assert (does (fanoutBoundedWait mr name tag mainPin) (fun r es => Forall late (did (LatestWorkflowRun hfOwner hfRepo applyWorkflowFile "main") a :: es) ->
    r = Ok None -> exists path ref e, In (did (GetFileContent hfOwner hfRepo path ref) (Err e)) (did (LatestWorkflowRun hfOwner hfRepo applyWorkflowFile "main") a :: es))) as Hw.
  { eapply does_mono; [|exact Hwait]. intros r es H Hl Hr. inversion_clear Hl as [|? ? _ Hl']. by destruct (H Hl'). }
  destruct (green a) as [run0|]; [|exact Hw]. destruct (applyPostdatesMerge run0 mr); cbn [negb]; [|exact Hw].
  apply does_bind. eapply does_mono; [|exact (pin_state_fails hfOwner hfRepo (wr_HeadSHA run0) deployPinFiles)].
  intros [pins|e] es Hf.
  - destruct (pinAtOrPastArtifactVersion pins name tag); cbn [negb].
    + eapply does_mono; [|apply stamped_answers]. by intros r es' Hr _.
    + eapply does_mono; [|exact Hwait]. intros r es' H Hl Hr. inversion_clear Hl as [|? ? _ Hl'].
      apply Forall_app in Hl' as [_ Hl']. by destruct (H Hl').
  - intros _ _. destruct (Hf e eq_refl) as (path & x & Hin). exists path, (wr_HeadSHA run0), x. rewrite app_nil_r. by right.
Qed.

End Deployed.

(** ** Witnesses *)

Lemma printed_versions_parse_witness : parseSemver (sprintf ["    image: x/y:v"; FormatInt 1; "."; FormatInt 20; "."; FormatInt 3; " # z"]%string) = Some (1, 20, 3).
Proof. apply printed_versions_parse; [vm_compute; split; congruence..|reflexivity|reflexivity]. Defined.

Definition pinned_mr : MergeRequest :=
  zero_MergeRequest <| mr_Name := "mr"%string |> <| mr_Spec := mkMergeRequestSpec "memory" 7 "" "" |>
    <| mr_Status ::= fun s => s <| mr_State := "merged"%string |> <| mr_MergedAt := Some 5 |> |>.

Definition url_path (url : string) : option string := Some url.

Definition helmfile_repo : Repository := sample_repo "helmfile" "/o/tatara-helmfile".

Definition green_apply : WorkflowRun := mkWorkflowRun "c0ffee" "completed" "success" 9.

(** A forge whose helmfile pins the component at [pin] on main, and at [past] where the last
    apply ran. *)
Definition pinned_world (now : Time) (main applied_pin : string) (past : list (Did Call)) (X : Type) (c : Call X) : X :=
  match c in Call X return X with
  | TimeNow => now
  | GetRepository _ => Ok (sample_repo "memory" "/o/tatara-memory")
  | ListRepositories => Ok [helmfile_repo]
  | ForgeReader => true
  | CanWatchDeploys => true
  | LatestSemverTag _ _ => Ok (Some "v1.4.0"%string)
  | GetFileContent _ _ _ ref => Ok (sprintf ["  image: x/tatara-memory:"; if ref == "main" then main else applied_pin])%string
  | LatestWorkflowRun _ _ _ _ => Ok (Some green_apply)
  | MergeRequestAnswers _ => ([ObjBudget.Found pinned_mr], [mkAttempt (Some pinned_mr) UpdateOk])
  | c => nowhere c
  end.

Definition resolved (now : Time) (main applied_pin : string) : result Fail (option MergeRequest) * list (Did Call) :=
  run (pinned_world now main applied_pin) (resolveDeployed url_path (fun _ => Some 0) (fun _ => None) zero_Project pinned_mr).


(** The clock 46 minutes past the merge, main at an older version, and a file of the applied
    commit that cannot be read. *)
Definition unread_world (past : list (Did Call)) (X : Type) (c : Call X) : X :=
  match c in Call X return X with
  | GetFileContent _ _ _ _ => Err ScmFailed
  | c => pinned_world (5 + 46 * Minute) "v1.3.9" "" past _ c
  end.

Lemma the_fanout_wait_is_bounded_witness :
  (exists path ref e, In (did (GetFileContent "o" "tatara-helmfile" path ref) (Err e))
    (snd (run unread_world (resolve_pinned (fun _ => Some 0) (fun _ => None) zero_Project pinned_mr "tatara-memory" "v1.4.0"
            "  image: x/tatara-memory:v1.3.9" "o" "tatara-helmfile"))))
  /\ fst (resolved (5 + 46 * Minute) "v1.3.9" "v1.3.9") = Err FanoutStalled.
Proof.
  split; [|vm_compute; reflexivity].
  apply (the_fanout_wait_is_bounded (fun _ => Some 0) (fun _ => None) zero_Project pinned_mr unread_world 5);
    [reflexivity|vm_compute; reflexivity| |vm_compute; reflexivity].
  intros past. vm_compute. congruence.
Defined.
