(* ===== verification/PodStage.v ===== *)
(** * A Task with an agent (internal/controller: task_stage.go, stall.go, task_workspace.go,
    proposalhistory.go, task_controller.go; internal/agent: session.go, pod.go, workspace.go):
    the admission ticket, the pod with its volumes, the turns, the probe of a turn that has
    gone silent, and the stops. *)

From Stdlib Require Import String Ascii.
From stdpp Require Import sorting.
From S2P Require Import Prelude GoTime Text Limits Api Vocabulary Machine Park Clocks Unpark ObjBudget Own Transition Settings Names Logins TtlStop LivePods Corridor Merge Refs Seq Escalate Queue Calls Release Reaper Mirror Intake Events Proposals Reviewing StageGuards.

Open Scope Z_scope.
Open Scope go_scope.

(** ** Constants *)

Definition agentBootDeadline : Duration := 5 * Minute.
Definition busyRequeue : Duration := 15 * Second.
Definition turnTimeoutGrace : Duration := 60 * Second.
Definition StalledTurnHandoffWait : Duration := 90 * Second.
Definition workspaceBindDeadline : Duration := 10 * Minute.
Definition MemoryReadyStabilizationWindow : Duration := 3 * Minute.
Definition annStageTurn0 : string := "tatara.dev/stage-turn0".
Definition annPodStage : string := "tatara.dev/pod-stage".
Definition annAgentUnreachableSince : string := "tatara.dev/agent-unreachable-since".
Definition LabelActivity : string := "tatara.io/activity".
Definition ReasonOOMKilled : string := "OOMKilled".
Definition RecreationReasonPodGone : string := "PodGone".
Definition RecreationReasonOOMKilled : string := "OOMKilled".
Definition RecreationReasonContainerExited : string := "ContainerExited".
Definition RecreationReasonPodFailed : string := "PodFailed".
Definition RecreationReasonBootTimeout : string := "BootTimeout".
Definition RecreationReasonAgentStop : string := "AgentStop".
Definition ConditionMemoryDegraded : string := "MemoryDegraded".
Definition stallProbeText : string :=
  "TATARA STALL PROBE. You are not being asked to stop or to change what you are doing - keep working immediately afterwards. Reply with exactly TATARA-ALIVE <one sentence about what you are doing right now>.".
Definition defaultStallProbeGraceSeconds : Z := 300.
Definition defaultStallProbeMaxAttempts : Z := 2.
Definition maxStallProbeMaxAttempts : Z := 5.
Definition DefaultHistoryWindow : Z := 20.

(** [PodConfig], the fields the modelled code reads. *)
Record PodConfig := mkPodConfig {
  pcf_WorkspacePVCEnabled : bool;
  pcf_AnthropicSecretName : string;
  pcf_CLIOIDCSecretName : string
}.

(** ** Errors of the wrapper (session.go) *)

Definition isTransientWrapperStatus (status : Z) : bool := (status =? 503) || (status =? 425).

Definition IsTTLGone (e : SessionError) : bool := match e with SessionHTTP status => status =? 410 | _ => false end.
Definition IsSessionBusy (e : SessionError) : bool := match e with SessionHTTP status => status =? 409 | _ => false end.

Definition IsTransientWrapper (e : SessionError) : bool :=
  match e with
  | SessionUnreachable => true
  | SessionHTTP status => isTransientWrapperStatus status
  | _ => false
  end.

Definition IsProbeUnsupported (e : SessionError) : bool := match e with SessionUnsupported => true | _ => false end.

Definition SubmitOutcome (e : SessionError) : string :=
  match e with
  | SessionUnreachable => "unreachable"
  | SessionHTTP status =>
      if status =? 503 then "http_503"
      else if status =? 409 then "http_409"
      else if status =? 425 then "http_425"
      else "http_error"
  | SessionTimeout => "timeout"
  | SessionUnsupported | SessionFailed => "error"
  end.

Definition Answered (r : ProbeResult) : bool := pb_State r == "answered".

(** ** The turn that is in flight (turncallback.go, stall.go) *)

Definition turnTimedOut (startedAtRaw lastActivityRaw : string) (timeoutSeconds : Z) (now : Time) : bool :=
  if startedAtRaw == "" then false
  else match ParseRFC3339 startedAtRaw with
       | None => false
       | Some anchor =>
           let anchor :=
             if lastActivityRaw == "" then anchor
             else match ParseRFC3339 lastActivityRaw with
                  | Some la => if After la anchor then la else anchor
                  | None => anchor
                  end in
           let timeoutSeconds := if timeoutSeconds <=? 0 then 1800 else timeoutSeconds in
           After now (Add anchor (i64 (i64 (timeoutSeconds * Second) + turnTimeoutGrace)))
       end.

Definition stallProbeGrace (proj : Project) : Duration :=
  let s := proj_StallProbeGraceSeconds proj in
  i64 ((if s <=? 0 then defaultStallProbeGraceSeconds else s) * Second).

Definition stallProbeMaxAttempts (proj : Project) : Z :=
  let n := proj_StallProbeMaxAttempts proj in
  Z.min (if n <=? 0 then defaultStallProbeMaxAttempts else n) maxStallProbeMaxAttempts.

Definition taskStallProbeInFlight (task : Task) : bool := ann task AnnStallProbeID != "".

Definition stallProbeAttempts (task : Task) : Z :=
  match ParseInt (ann task AnnStallProbeAttempts) with Some n => Z.max n 0 | None => 0 end.

Definition turnIsStalled (proj : Project) (task : Task) (now : Time) : bool :=
  turnTimedOut (ann task AnnTurnStartedAt) (ann task AnnTurnLastActivity) (proj_TurnTimeoutSeconds proj) now.

Definition parseStallProbeSentAt (task : Task) : option Time :=
  if ann task AnnStallProbeAt == "" then None else ParseRFC3339 (ann task AnnStallProbeAt).

Definition agentAskedToBeStopped (task : Task) : bool :=
  match PodStartedAt (Status task) with
  | Some started => negb (TurnInFlight task) && HasAgentHandoffNoteSince task started
  | None => false
  end.

Definition turn0Marker (task : Task) : string :=
  sprintf [State (Status task); "|"; match PodStartedAt (Status task) with Some at_ => FormatRFC3339 at_ | None => "" end].

(** Annotations are set, then others dropped. *)
Definition annotate (kvs : list (string * string)) (drops : list string) (t : Task) : Task :=
  t <| Annotations ::= fun a =>
    fold_left (fun a k => delete k a) drops (fold_left (fun a '(k, v) => <[k := v]> a) kvs a) |>.

Definition probe_annotations : list string := [AnnStallProbeID; AnnStallProbeAt; AnnStallProbeAttempts].

(** ** Pods (pod.go, workspace.go) *)

(** Why a pod is of no more use, and when its container ended. *)
Fixpoint terminated_reason (l : list (option Termination)) : option (string * Time) :=
  match l with
  | [] => None
  | None :: rest => terminated_reason rest
  | Some term :: rest =>
      if tm_Reason term == ReasonOOMKilled then Some (RecreationReasonOOMKilled, tm_FinishedAt term)
      else if negb (tm_ExitCode term =? 0) then Some (RecreationReasonContainerExited, tm_FinishedAt term)
      else terminated_reason rest
  end.

Definition podTerminationReason (pod : PodObject) : string * Time :=
  match terminated_reason (pod_Terminated pod) with
  | Some r => r
  | None => if pod_Phase pod == "Failed" then (RecreationReasonPodFailed, 0) else (""%string, 0)
  end.

Definition WorkspaceEnabled (proj : Project) : bool := default true (proj_WorkspaceEnabled proj).
Definition WorkspaceCacheEnabled (proj : Project) : bool := default true (proj_WorkspaceCacheEnabled proj).
Definition WorkspaceSize (proj : Project) : string := if proj_WorkspaceSize proj == "" then "10Gi" else proj_WorkspaceSize proj.
Definition WorkspaceCacheSize (proj : Project) : string :=
  if proj_WorkspaceCacheSize proj == "" then "50Gi" else proj_WorkspaceCacheSize proj.
Definition WorkspacePVCEnabled (proj : Project) (cfg : PodConfig) : bool := pcf_WorkspacePVCEnabled cfg && WorkspaceEnabled proj.
Definition CachePVCEnabled (proj : Project) (cfg : PodConfig) : bool := WorkspacePVCEnabled proj cfg && WorkspaceCacheEnabled proj.
Definition WorkspacePVCName (task : Task) : string := sprintf [PodName task; "-ws"].
Definition CachePVCName (project : string) : string := sprintf ["tatara-cache-"; project].

Definition ValidatePodSecretRefs (proj : Project) (cfg : PodConfig) : bool :=
  (proj_ScmSecretRef proj != "") && (pcf_AnthropicSecretName cfg != "") && (pcf_CLIOIDCSecretName cfg != "").

Definition MemoryStablyReady (proj : Project) (now : Time) : bool :=
  if proj_MemoryPhase proj != "Ready" then false
  else match proj_MemoryReadySince proj with
       | None => false
       | Some since => MemoryReadyStabilizationWindow <=? Sub now since
       end.

Definition MemoryDisabled (proj : Project) : bool := negb (default true (proj_MemoryEnabled proj)).

Definition resolveByKind (byKind : gmap string string) (kind activity fallback : string) : string :=
  let at_ k := default ""%string (byKind !! k) in
  if (activity == "healthCheck") && (at_ "healthCheck" != "") then at_ "healthCheck"
  else if at_ kind != "" then at_ kind
  else fallback.

Definition kindDefaultModel : list (string * string) :=
  [("brainstorm", "claude-opus-5"); ("incident", "claude-opus-5"); ("implement", "claude-opus-5");
   ("review", "claude-opus-5"); ("documentation", "claude-sonnet-5"); ("refine", "claude-sonnet-5");
   ("upgrade", "claude-opus-5")]%string.

Definition modelForKind (proj : Project) (kind activity : string) : string :=
  resolveByKind (proj_ModelByKind proj) kind activity (default (proj_Model proj) (tbl kindDefaultModel kind)).

Definition helmfileTargetRepo : string := "tatara-helmfile".

Definition modelFloorKinds : list string := ["brainstorm"; "incident"; "implement"; "review"; "takeover"]%string.

Definition modelFloorAppliesOnRepo (kind activity targetRepo : string) : bool :=
  (targetRepo == helmfileTargetRepo) && (activity != "healthCheck") && str_mem modelFloorKinds kind.

Definition modelForKindOnRepo (proj : Project) (kind activity targetRepo : string) : string :=
  match (if modelFloorAppliesOnRepo kind activity targetRepo then tbl kindDefaultModel kind else None) with
  | Some def => def
  | None => modelForKind proj kind activity
  end.

Definition repoComponentName (path : option string) : string :=
  match ghOwnerRepo path with Some (_, name) => name | None => "" end.

Definition ModelForKind (parse : string -> option string) (proj : Project) (kind activity repoURL : string) : string :=
  modelForKindOnRepo proj kind activity (repoComponentName (parse repoURL)).

(** ** The history of proposals (proposalhistory.go, proposalcount.go) *)

Definition proposalCreatedAt (iss : Issue) : Time := default (iss_CreationTimestamp iss) (iss_CreatedAt (iss_Status iss)).

Definition proposalDisplayStatus (iss : Issue) : string :=
  let st := iss_Status iss in
  if (iss_StatusWord st == "approved") || (iss_StatusWord st == "done") then "approved"
  else if (iss_StatusWord st == "rejected") || (iss_State st == "closed") then "declined"
  else "open".

Definition history_leb (a b : Issue) : bool :=
  if proposalCreatedAt a =? proposalCreatedAt b then String.leb (iss_Name a) (iss_Name b)
  else proposalCreatedAt b <? proposalCreatedAt a.

Definition history_le (a b : Issue) : Prop := history_leb a b = true.

#[export] Instance history_le_dec a b : Decision (history_le a b).
Proof. unfold history_le. apply _. Defined.

Definition ResolveHistoryWindow (window : option Z) : Z :=
  match window with Some n => Z.max n 0 | None => DefaultHistoryWindow end.

Definition history_entry (p : Issue) : ProposalHistoryEntry :=
  mkProposalHistoryEntry (is_RepositoryRef (iss_Spec p)) (is_Number (iss_Spec p)) (proposalDisplayStatus p)
    (iss_Title (iss_Status p)) (iss_Body (iss_Status p)) (proposalCreatedAt p) (iss_Comments (iss_Status p)).

Definition ProposalHistoryFor (proj : Project) (agentKind : string) : Io (list ProposalHistoryEntry) :=
  match proj_BrainstormHistory proj with
  | Some window =>
      if (agentKind != AgentBrainstorm) || (ResolveHistoryWindow window <=? 0) then ok []
      else
        let? l := api ListIssues in
        let proposals := List.filter (fun iss => (is_ProjectRef (iss_Spec iss) == proj_Name proj)
          && (effectiveProposalKind iss (botLoginOf proj) == ProposalKindBrainstorm)) l in
        ok (map history_entry (firstn (Z.to_nat (ResolveHistoryWindow window)) (merge_sort history_le proposals)))
  | None => ok []
  end.

(** ** The programs *)

Section Pods.

(** As in [Guards], with [meta.SetStatusCondition], [None] where it changes nothing;
    whether a text is a positive quantity ([resource.ParseQuantity]); the size of a Task and
    the spiller of notes; the configuration of pods; whether a sequence is wired. *)
Context (parse : string -> option string) (setCondition : Condition -> list Condition -> option (list Condition))
  (quantity : string -> bool) (taskSize : Task -> option Z) (notes : Project -> option (Spiller Note))
  (reader : View) (m : bool) (release : Task -> bool) (poll : Duration) (cfg : PodConfig) (seq_wired : bool).

(** *** Notes *)

Definition note_once (proj : Project) (task : Task) (n : Note) : Io unit :=
  Do (TaskAnswers (task_Name task)) (fun '(reads, attempts) =>
    let '(r, es) := AppendNoteOnce taskSize (notes proj) n reads attempts in
    Do (TaskEffects (task_Name task) es) (fun _ => let? _ := fit_answer r in ok tt)).

Definition note (proj : Project) (task : Task) (n : Note) : Io unit :=
  Do (TaskAnswers (task_Name task)) (fun '(reads, attempts) =>
    let '(r, es) := AppendNote taskSize (notes proj) n reads attempts in
    Do (TaskEffects (task_Name task) es) (fun _ => let? _ := fit_answer r in ok tt)).

(** The same lost repositories are told once; an error is logged. *)
Definition note_failed_repos (proj : Project) (task : Task) (now : Time) : Io unit :=
  match failed_repos_note (LastTurnFailedRepos (Status task)) (LastTurnReposTurnID (Status task)) now with
  | None => ok tt
  | Some n => let! _ := note_once proj task n in ok tt
  end.

(** *** A pod that is lost *)

Definition podUnusable (task : Task) : Io (bool * string) :=
  let? pod := found (api (GetPod (PodName task))) in
  ok (match pod with
      | None => (true, RecreationReasonPodGone)
      | Some pod => let '(reason, _) := podTerminationReason pod in (reason != "", reason)
      end).

Definition noted_since (at_ : Time) (n : Note) : bool :=
  (n_Agent n == NoteAgentOperator) && Contains (n_Body n) OOMKilledNoteMarker && negb (Before (n_At n) at_).

Definition noteOOMKilledPod (proj : Project) (task : Task) : Io unit :=
  let? pod := found (api (GetPod (PodName task))) in
  match pod with
  | None => ok tt
  | Some pod =>
      let '(reason, at_) := podTerminationReason pod in
      if reason != RecreationReasonOOMKilled then ok tt
      else if existsb (noted_since at_) (Notes (Status task)) then ok tt
      else note proj task (mkNote "" at_ NoteAgentOperator NoteKindHandoff (OOMKilledNoteBody at_))
  end.

(** The pod is forgotten. *)
Definition no_pod (t : Task) : Task :=
  on_status t (fun s => s <| PodStartedAt := None |> <| StateWorkStartedAt := None |>).

Definition respawned (recreations : Z) (fresh : Task) : Task :=
  no_pod (on_status fresh (fun s => s <| Stats ::= fun st => st <| PodRecreations := recreations |> |>)).

Definition respawnLostPod (task : Task) (reason : string) : Io Requeue :=
  let? _ := delete_wrapper task in
  let task := snd (RecordRespawn task) in
  let recreations := PodRecreations (Stats (Status task)) in
  let? _ := tell (Count "pod_recreation" [ProjectRef (Spec task); Kind (Spec task); reason]) in
  let? task := patch_status task (fun fresh => Some (respawned recreations fresh)) in
  let? _ := clear_turn task in
  ok (after agentBootRequeue).

(** Whether the API server has the Task in another state; what cannot be read has not. *)
Definition liveStageDiffers (task : Task) : Prog Call bool :=
  match reader with
  | Cached => Ret false
  | Direct => let! live := api (GetTask Direct (task_Name task)) in
              Ret (match live with Ok live => State (Status live) != State (Status task) | Err _ => false end)
  end.

(** *** Caps *)

Definition reconcileCaps (proj : Project) (task : Task) (now : Time) : Io bool :=
  let? stopped := (if is_set (PodStartedAt (Status task)) && is_set (StateWorkStartedAt (Status task)) then
                     let? (gone, reason) := podUnusable task in
                     let? _ := (if reason == RecreationReasonOOMKilled then noteOOMKilledPod proj task else ok tt) in
                     ok gone
                   else ok false) in
  match BudgetExit task stopped with
  | None => ok false
  | Some edge =>
      if is_set (handoffCondition task) && (Reason edge == ReasonNoOutcome) then ok false
      else let? _ := park m task (Reason edge) now in ok true
  end.

(** *** The admission ticket *)

Definition ticket_payload (task : Task) (agentKind : string) : QueuedEventPayload :=
  mkQueuedEventPayload "" (Kind (Spec task)) (RepositoryRef (Spec task)) None ∅ ∅ "" "" "" "" "" "" "" "" agentKind (task_Name task) None None.

Definition is_ticket (task : Task) (agentKind : string) (q : QueuedEvent) : bool :=
  let p := qs_Payload (qe_Spec q) in (p_TaskRef p == task_Name task) && (p_AgentKind p == agentKind).

(** Whether the Task is admitted. *)
Definition ensureTicket (proj : Project) (task : Task) (agentKind : string) : Io bool :=
  Do (TicketsOf (task_Name task)) (fun listing =>
    match field_list TaskRefIndexer (task_Name task) listing with
    | None => fail (ApiFault ApiFailed)
    | Some l =>
        match List.find (is_ticket task agentKind) l with
        | Some q => ok (qst_State (qe_Status q) == QueueStateAdmitted)
        | None =>
            if negb seq_wired then ok true
            else
              let class := if agentKind == AgentIncident then QueueClassAlert else QueueClassNormal in
              let opts := mkEnqueueOpts false None in
              Do QueueAnswers (fun w =>
                let '(r, es) := EnqueueEvent w proj class true (sprintf ["ticket|"; task_Name task; "|"; agentKind])
                  (ticket_payload task agentKind) (if Kind (Spec task) == "incident" then WithPriority 0 opts else opts) in
                Do (QueueEffects es) (fun _ => match r with Ok _ => ok false | Err e => fail (QueueFault e) end))
        end
    end).

(** *** Volumes (task_workspace.go) *)

(** A volume that does not bind parks its Task in the end. *)
Definition parkOnStuckWorkspaceVolume (task : Task) (since : Time) : Io unit :=
  Do TimeNow (fun now : Time =>
    if Sub now since <? workspaceBindDeadline then ok tt
    else if Parked task then ok tt
    else Do TimeNow (fun now : Time => park m task ReasonOperatorError now)).

(** [Create], where what is there already is as good. *)
Definition create_if_absent (c : Call (option ApiError)) : Io unit :=
  let! r := write c in
  match r with
  | Err e => if IsAlreadyExists e then ok tt else fail e
  | Ok _ => ok tt
  end.

Definition ensureWorkspacePVC (proj : Project) (task : Task) : Io bool :=
  if negb (WorkspacePVCEnabled proj cfg) then ok true
  else
    let? pvc := found (api (GetPVC (WorkspacePVCName task))) in
    match pvc with
    | None =>
        if negb (quantity (WorkspaceSize proj)) then fail PodRefused
        else let? _ := create_if_absent (CreatePVC (WorkspacePVCName task)) in ok false
    | Some pvc =>
        let since := pvc_Created pvc in
        if pvc_Phase pvc != "Bound" then let? _ := parkOnStuckWorkspaceVolume task since in ok false
        else if CachePVCEnabled proj cfg then
          let? cache := found (api (GetPVC (CachePVCName (proj_Name proj)))) in
          match cache with
          | Some c => if pvc_Phase c != "Bound" then let? _ := parkOnStuckWorkspaceVolume task since in ok false else ok true
          | None => let? _ := parkOnStuckWorkspaceVolume task since in ok false
          end
        else ok true
    end.

(** *** The pod *)

Definition memory_condition (proj : Project) : Condition :=
  if MemoryDisabled proj then mkCondition ConditionMemoryDegraded "False" "MemoryDisabled" 0
    "memory is disabled for this project; the agent runs without recall by configuration"
  else mkCondition ConditionMemoryDegraded "True" "SpawnedWithoutRecall" 0
    "project memory stack is not stably ready; the agent runs with no recall".

(** The error is logged. *)
Definition mark_degraded (proj : Project) (task : Task) : Io Task :=
  let? _ := (if MemoryDisabled proj then ok tt
             else tell (Count "agent_pod_degraded" [proj_Name proj; Kind (Spec task); "memory"%string])) in
  let! r := patch_status task (fun fresh =>
    option_map (fun l => on_status fresh (fun s => s <| Conditions := l |>))
      (setCondition (memory_condition proj) (Conditions (Status fresh)))) in
  ok (match r with Ok task => task | Err _ => task end).

Definition stampResolvedModel (task : Task) (model : string) : Io Task :=
  patch_status task (fun fresh =>
    if ResolvedModel (Status fresh) == model then None
    else Some (on_status fresh (fun s => s <| ResolvedModel := model |>))).

(** Nothing to spawn for: the merge requests ended outside, or were taken over. *)
Definition review_is_over (task : Task) : Io bool :=
  if (Kind (Spec task) == "review") || (State (Status task) == StateAwaitingReview) then
    let? mrs := controlled_mrs reader task in
    let? edge := external_exit reader task mrs in
    match edge with
    | None => ok false
    | Some e => Do TimeNow (fun now : Time => let? _ := enter m release task mrs (To e) (Reason e) now in ok true)
    end
  else ok false.

Definition spawn (proj : Project) (repo : option Repository) (task : Task) : Io unit :=
  let? _ := projectRepos proj in
  let? _ := create_if_absent (CreatePod (PodName task) (State (Status task))) in
  let? _ := create_if_absent (CreateService (PodName task)) in
  Do TimeNow (fun now : Time =>
    let? task := (if MemoryStablyReady proj now then ok task else mark_degraded proj task) in
    let! _ := stampResolvedModel task
      (ModelForKind parse proj (Kind (Spec task)) (default ""%string (Labels task !! LabelActivity))
         (match repo with Some r => repo_URL r | None => ""%string end)) in
    ok tt).

(** Whether it was left out, because the Task is no longer where it was or is not ready. *)
Definition ensureStagePod (proj : Project) (task : Task) : Io bool :=
  let? repo := (if RepositoryRef (Spec task) != "" then let? r := api (GetRepository (RepositoryRef (Spec task))) in ok (Some r)
                else ok None) in
  let? existing := found (api (GetPod (PodName task))) in
  match existing with
  | Some pod =>
      if default ""%string (pod_Annotations pod !! annPodStage) == State (Status task) then ok false
      else let? _ := delete_wrapper task in ok false
  | None =>
      let! moved := liveStageDiffers task in
      if moved then ok true
      else
        let? over := review_is_over task in
        if over then ok true
        else if negb (ValidatePodSecretRefs proj cfg) then fail PodRefused
        else if WorkspacePVCEnabled proj cfg && negb (quantity (WorkspaceSize proj) && quantity (WorkspaceCacheSize proj))
        then fail PodRefused
        else
          let? ready := ensureWorkspacePVC proj task in
          if negb ready then ok true
          else let? _ := spawn proj repo task in ok false
  end.

(** *** Stops *)

Definition stop_input (proj : Project) (task : Task) (agentKind : string) (deadline : Time) (maxWait : Duration) (cause : string)
  : TTLStopInput :=
  mkTTLStopInput agentKind deadline (i64 (proj_TurnTimeoutSeconds proj * Second)) maxWait (LastTurnFinalText (Status task))
    (LastTurnPushedRepos (Status task)) (LastTurnFailedRepos (Status task)) (LastTurnReposTurnID (Status task)) cause.

Definition stop (task : Task) (inp : TTLStopInput) : Io unit :=
  Do (StopAnswers (task_Name task)) (fun w =>
    let '(r, es) := StopWithHandoff w poll inp in
    Do (StopEffects (task_Name task) es) (fun _ => match r with Ok _ => ok tt | Err e => fail (StopFault e) end)).

(** The next pod starts without this one's turn. *)
Definition rearm (t : Task) : option Task := Some (clearLastTurn (no_pod t)).

Definition stalledTurnStop (proj : Project) (task : Task) (agentKind : string) (now : Time) : Io Requeue :=
  let? _ := (if m then tell (Count "turn_timeout" ["stage_reconcile"%string]) else ok tt) in
  let? _ := stop task (stop_input proj task agentKind now StalledTurnHandoffWait TTLCauseStall) in
  let? task := clear_turn task in
  let? _ := patch_status task rearm in
  ok (after agentBootRequeue).

Definition ttlStop (proj : Project) (task : Task) (agentKind : string) : Io Requeue :=
  match TTLDeadline proj task with
  | None => ok at_rest
  | Some deadline =>
      let? _ := stop task (stop_input proj task agentKind deadline 0 TTLCauseTTL) in
      let? task := patch_status task rearm in
      let? _ := clear_turn task in
      ok (after agentBootRequeue)
  end.

Definition stop_counted (fresh : Task) : option Task :=
  Some (clearLastTurn (on_status (no_pod fresh) (fun s => s <| Stats ::= fun st => st <| AgentStops ::= fun n => i64 (n + 1) |> |>))).

Definition stopAfterAgentHandoff (proj : Project) (task : Task) (now : Time) : Io Requeue :=
  Do (DeleteSession (task_Name task)) (fun _ =>
    let? _ := delete_wrapper task in
    let? task := clear_turn task in
    let? _ := note_failed_repos proj task now in
    let? task := patch_status task stop_counted in
    let? _ := tell (Count "pod_recreation" [proj_Name proj; Kind (Spec task); RecreationReasonAgentStop]) in
    let? _ := tell (Count "agent_requested_stop" [proj_Name proj; Kind (Spec task); "rearmed"%string]) in
    ok (after agentBootRequeue)).

(** *** The probe of a silent turn (stall.go) *)

(** An old wrapper, or one that does not answer: the stop without a probe. *)
Definition stallProbeFallback (proj : Project) (task : Task) (agentKind : string) (now : Time) (cause : SessionError) : Io Requeue :=
  let? _ := tell (Count "stall_probe" [if IsProbeUnsupported cause then "unsupported"%string else "error"%string]) in
  stalledTurnStop proj task agentKind now.

Definition probe_sent (probeID : string) (now : Time) (attempt : Z) (fresh : Task) : option Task :=
  Some (annotate [(AnnStallProbeID, probeID); (AnnStallProbeAt, FormatRFC3339 now); (AnnStallProbeAttempts, FormatInt attempt)]
          [] fresh).

Definition sendStallProbe (proj : Project) (task : Task) (agentKind : string) (now : Time) (attempt : Z) : Io Requeue :=
  Do (Probe (task_Name task) stallProbeText) (fun r =>
    match r with
    | Err e => stallProbeFallback proj task agentKind now e
    | Ok probeID =>
        let? _ := patch_annotations task (probe_sent probeID now attempt) in
        let? _ := tell (Count "stall_probe" ["sent"%string]) in
        ok (after (stallProbeGrace proj))
    end).

Definition recordProbeAnswer (task : Task) (now : Time) : Io Task :=
  patch_annotations task (fun fresh => Some (annotate [(AnnTurnLastActivity, FormatRFC3339 now)] probe_annotations fresh)).

Definition clearStallProbe (task : Task) : Io Task :=
  patch_annotations task (fun fresh =>
    if negb (taskStallProbeInFlight fresh) && (ann fresh AnnStallProbeAttempts == "") then None
    else Some (annotate [] probe_annotations fresh)).

(** The interrupt may fail. *)
Definition escalateStall (proj : Project) (task : Task) (agentKind : string) (now : Time) : Io Requeue :=
  Do (Interrupt (task_Name task)) (fun _ => stalledTurnStop proj task agentKind now).

Definition evaluateStallProbe (proj : Project) (task : Task) (agentKind : string) (now : Time) : Io Requeue :=
  Do (ProbeStatus (task_Name task) (ann task AnnStallProbeID)) (fun r =>
    match r with
    | Err e => stallProbeFallback proj task agentKind now e
    | Ok res =>
        if Answered res then
          let? _ := recordProbeAnswer task now in
          let? _ := tell (Count "stall_probe" ["answered"%string]) in
          ok (after stageRequeue)
        else
          let wait := match parseStallProbeSentAt task with
                      | Some sentAt => let deadline := Add sentAt (stallProbeGrace proj) in
                                       if Before now deadline then Some (Sub deadline now) else None
                      | None => None
                      end in
          match wait with
          | Some d => ok (after d)
          | None =>
              let? _ := tell (Count "stall_probe" [if pb_State res == "delivered" then "unanswered"%string else "never_delivered"%string]) in
              let attempts := stallProbeAttempts task in
              if attempts <? stallProbeMaxAttempts proj then sendStallProbe proj task agentKind now (i64 (attempts + 1))
              else escalateStall proj task agentKind now
          end
    end).

(** The result, [None] where the pass goes on, and the Task as it is then. *)
Definition reconcileStall (proj : Project) (task : Task) (agentKind : string) (now : Time) : Io (option Requeue * Task) :=
  Do TimeNow (fun clock : Time =>
    if negb (turnIsStalled proj task clock) then
      if negb (taskStallProbeInFlight task) then ok (None, task)
      else let? task := clearStallProbe task in ok (None, task)
    else
      let? r := (if negb (taskStallProbeInFlight task)
                 then sendStallProbe proj task agentKind now (i64 (stallProbeAttempts task + 1))
                 else evaluateStallProbe proj task agentKind now) in
      ok (Some r, task)).

(** *** Turns *)

Definition keep_stamp (now : Time) (fresh : Task) : option Task :=
  let cur := ann fresh annAgentUnreachableSince in
  if (cur != "") && is_set (ParseRFC3339 cur) then None
  else Some (annotate [(annAgentUnreachableSince, FormatRFC3339 now)] [] fresh).

Definition stampUnreachableSince (task : Task) : Io unit :=
  Do TimeNow (fun now : Time => let? _ := patch_annotations task (keep_stamp now) in ok tt).

(** A wrapper that is not ready yet; past its deadline the pod is replaced. *)
Definition handleTransientWrapper (task : Task) : Io Requeue :=
  let wait := let? _ := tell (Count "agent_boot_race_requeue" []) in ok (after agentBootRequeue) in
  match ParseRFC3339 (ann task annAgentUnreachableSince) with
  | None => let? _ := stampUnreachableSince task in wait
  | Some started =>
      Do TimeNow (fun now : Time =>
        if After now (Add started agentBootDeadline) then
          let? _ := tell (Count "agent_unreachable_termination" []) in
          let? _ := delete_wrapper task in
          let? task := patch_annotations task (fun fresh =>
            if ann fresh annAgentUnreachableSince == "" then None
            else Some (annotate [] [annAgentUnreachableSince] fresh)) in
          respawnLostPod task RecreationReasonBootTimeout
        else wait)
  end.

Definition submitted (task : Task) (word outcome : string) : Io unit :=
  tell (Count "turn_submit" [Kind (Spec task); word; outcome]).

Definition handleTurnSubmitFailure (proj : Project) (task : Task) (e : SessionError) : Io Requeue :=
  let outcome := SubmitOutcome e in
  if IsTTLGone e then
    let? _ := submitted task "transient" outcome in
    ttlStop proj task (AgentKindFor (State (Status task)) (Kind (Spec task)))
  else if IsSessionBusy e then
    let? _ := submitted task "transient" outcome in
    let? _ := tell (Count "agent_session_busy_requeue" []) in
    ok (after busyRequeue)
  else if IsTransientWrapper e then
    let! r := handleTransientWrapper task in
    let? _ := submitted task "transient" outcome in
    Ret r
  else let? _ := submitted task "error" outcome in fail (SessionFault e).

Definition renderBundle (proj : Project) (task : Task) (agentKind : string) : Io string :=
  let? issues := controlled_issues task in
  let? mrs := controlled_mrs Cached task in
  let? history := ProposalHistoryFor proj agentKind in
  Do (RenderBundle task agentKind issues mrs history) (fun out =>
    match out with Some text => ok text | None => fail BundleFailed end).

Definition turn_stamped (marker turnID : string) (now : Time) (fresh : Task) : option Task :=
  Some (annotate [(annStageTurn0, marker); (AnnCurrentTurn, turnID); (AnnTurnStartedAt, FormatRFC3339 now)]
          [AnnTurnComplete; AnnTurnLastActivity] fresh).

Definition drain_rendered (rendered : list TaskEvent) (fresh : Task) : option Task :=
  let drained := drainRenderedEvents (PendingEvents (Status fresh)) rendered in
  if Nat.eqb (List.length drained) (List.length (PendingEvents (Status fresh))) then None
  else Some (on_status fresh (fun s => s <| PendingEvents := drained |>)).

Definition submitStageTurn (proj : Project) (task : Task) (agentKind : string) (now : Time) : Io Requeue :=
  let rendered := PendingEvents (Status task) in
  let? text := renderBundle proj task agentKind in
  Do (SubmitTurn (task_Name task) text) (fun r =>
    match r with
    | Err e => handleTurnSubmitFailure proj task e
    | Ok turnID =>
        let? _ := submitted task "ok" "ok" in
        let marker := turn0Marker task in
        let? task := patch_annotations task (turn_stamped marker turnID now) in
        let? _ := (match rendered with
                   | [] => ok task
                   | _ => patch_status task (drain_rendered rendered)
                   end) in
        ok (after stageRequeue)
    end).

(** *** A pass over a Task with an agent *)

(** What a pod that exists asks for: a result, or [None] and on with the Task. *)
Definition tend_pod (proj : Project) (task : Task) (agentKind : string) (now : Time) : Io (option Requeue * Task) :=
  let? (gone, reason) := podUnusable task in
  if gone then
    let! moved := liveStageDiffers task in
    if moved then ok (Some (after agentBootRequeue), task)
    else
      let? _ := (if reason == RecreationReasonOOMKilled then noteOOMKilledPod proj task else ok tt) in
      let? r := respawnLostPod task reason in ok (Some r, task)
  else if agentAskedToBeStopped task then let? r := stopAfterAgentHandoff proj task now in ok (Some r, task)
  else if TTLExpired proj task now then let? r := ttlStop proj task agentKind in ok (Some r, task)
  else reconcileStall proj task agentKind now.

(** The pod is there, or made; the turn is submitted once to each pod, and again for events. *)
Definition work_stage (proj : Project) (task : Task) (agentKind : string) (now : Time) : Io Requeue :=
  let? skipped := ensureStagePod proj task in
  if skipped then ok (after stageRequeue)
  else if negb (is_set (StateWorkStartedAt (Status task))) then ok (after agentBootRequeue)
  else if ann task annStageTurn0 == turn0Marker task then
    if Live (State (Status task)) && negb (Parked task)
       && match PendingEvents (Status task) with [] => false | _ => true end && negb (TurnInFlight task)
    then submitStageTurn proj task agentKind now
    else ok (after stageRequeue)
  else submitStageTurn proj task agentKind now.

Definition reconcilePodStage (proj : Project) (task : Task) (agentKind : string) (now : Time) : Io Requeue :=
  if is_set (handoffCondition task) then ok (after stageRequeue)
  else if negb (is_set (PodStartedAt (Status task))) && AgentStopReArmExhausted (Some task) then
    let? _ := tell (Count "agent_requested_stop" [proj_Name proj; Kind (Spec task); "capped"%string]) in
    let? _ := park m task ReasonNoOutcome now in ok at_rest
  else
    let? admitted := ensureTicket proj task agentKind in
    if negb admitted then ok (after admissionRequeue)
    else
      let? (r, task) := (if is_set (PodStartedAt (Status task)) then tend_pod proj task agentKind now else ok (None, task)) in
      match r with
      | Some r => ok r
      | None => work_stage proj task agentKind now
      end.

End Pods.

(** ** Vocabulary of the properties *)

Definition stops_pod (d : Did Call) : bool := match did_call d with StopEffects _ _ => true | _ => false end.

(** The agent was asked: the wrapper could not pass the question on, or it went unanswered as
    often as the project allows, each time for its grace, and the turn was interrupted. *)
Definition asked (proj : Project) (task : Task) (now : Time) (past : list (Did Call)) : Prop :=
  (exists text e, In (did (Probe (task_Name task) text) (Err e)) past)
  \/ (exists id e, In (did (ProbeStatus (task_Name task) id) (Err e)) past)
  \/ (exists res x, In (did (ProbeStatus (task_Name task) (ann task AnnStallProbeID)) (Ok res)) past
        /\ Answered res = false /\ In (did (Interrupt (task_Name task)) x) past
        /\ stallProbeMaxAttempts proj <= stallProbeAttempts task
        /\ forall sent, parseStallProbeSentAt task = Some sent -> Before now (Add sent (stallProbeGrace proj)) = false).

Definition asked_first (proj : Project) (task : Task) (now : Time) (past : list (Did Call)) (d : Did Call) : Prop :=
  stops_pod d = true -> asked proj task now past.

(** The Task is left to an event: it was written through the choke points. *)
Definition handed_over (d : Did Call) : Prop := exists name es, d = did (StageEffects name es) tt.

(** The wrapper says that the time of the pod is over. *)
Definition says_gone (d : Did Call) : Prop := exists name text, d = did (SubmitTurn name text) (Err (SessionHTTP 410)).

Definition excused (proj : Project) (d : Did Call) : Prop :=
  handed_over d \/ (says_gone d /\ exists t, TTLDeadline proj t = None).

(** A program that answers well, or has an excuse. *)
Definition settles {A} (proj : Project) (good : A -> bool) (p : Io A) : Prop :=
  does p (fun r es => forall a, r = Ok a -> good a = true \/ exists d, In d es /\ excused proj d).

Definition back_or_on (r : option Requeue * Task) : bool := match fst r with Some r => comes_back r | None => true end.

(** ** Lemmas: a turn is asked before it is stopped *)

(** What is known once stays known. *)
Lemma does_once {A} (E : list (Did Call) -> Prop) (P : list (Did Call) -> Did Call -> Prop) (p : Prog Call A) past :
  (forall past d, E past -> P past d) -> (forall past d, E past -> E (past ++ [d])%list) -> E past ->
  does p (fun _ es => guarded P past es).
Proof. intros HP Hm H. eapply does_mono; [|exact (does_True p)]. intros _ es _. by apply (guarded_once P E). Qed.

Section Asked.

Context (proj : Project) (task : Task) (now : Time).

Lemma asked_mono past d : asked proj task now past -> asked proj task now (past ++ [d])%list.
Proof.
  intros [(a & b & H)|[(a & b & H)|(res & x & H1 & H2 & H3 & H4 & H5)]]; [left|right; left|right; right].
  - exists a, b. apply in_or_app. by left.
  - exists a, b. apply in_or_app. by left.
  - exists res, x. repeat split; try done; apply in_or_app; by left.
Qed.

Lemma once_asked {A} (p : Prog Call A) past : asked proj task now past -> does p (fun _ es => guarded (asked_first proj task now) past es).
Proof. apply does_once; [by intros p' d H _|apply asked_mono]. Qed.

Context (m : bool) (poll : Duration) (agentKind : string).

Lemma send_asks attempt past :
  does (sendStallProbe m poll proj task agentKind now attempt) (fun _ es => guarded (asked_first proj task now) past es).
Proof.
  unfold sendStallProbe. intros [id|e]; cbn beta iota.
  - eapply does_mono; [|apply (always_free (asked_first proj task now) (fun d => stops_pod d = false))].
    + intros a es H. split; [by intros [=]|exact H].
    + intros p d H. unfold asked_first. congruence.
    + unfold patch_annotations. each_go ltac:(reflexivity).
  - eapply does_mono; [|apply once_asked]; [intros a es H; split; [by intros [=]|exact H]|].
    left. do 2 eexists. apply in_or_app. right. by left.
Qed.

Lemma evaluate_asks past :
  does (evaluateStallProbe m poll proj task agentKind now) (fun _ es => guarded (asked_first proj task now) past es).
Proof.
  unfold evaluateStallProbe. intros [res|e]; cbn beta iota.
  2: { eapply does_mono; [|apply once_asked]; [intros a es H; split; [by intros [=]|exact H]|].
       right. left. do 2 eexists. apply in_or_app. right. by left. }
  destruct (Answered res) eqn:Ea.
  { eapply does_mono; [|apply (always_free (asked_first proj task now) (fun d => stops_pod d = false))].
    - intros a es H. split; [by intros [=]|exact H].
    - intros p d H. unfold asked_first. congruence.
    - unfold recordProbeAnswer, patch_annotations. each_go ltac:(reflexivity). }
  cbv zeta. set (wait := match parseStallProbeSentAt task with Some _ => _ | None => _ end).
  destruct wait eqn:Ew; [split; [by intros [=]|done]|].
  intros u. cbn beta iota. destruct (_ <? _) eqn:En.
  { eapply does_mono; [|apply send_asks]. intros a es H. split; [by intros [=]|]. split; [by intros [=]|exact H]. }
  apply Z.ltb_ge in En. intros x. eapply does_mono; [|apply once_asked].
  { intros a es H. split; [by intros [=]|]. split; [by intros [=]|]. split; [by intros [=]|exact H]. }
  right. right. exists res, x. repeat split; try done.
  - do 2 (apply in_or_app; left). apply in_or_app. right. by left.
  - apply in_or_app. right. by left.
  - intros sent Hs. unfold wait in Ew. rewrite Hs in Ew. by destruct (Before now _).
Qed.


End Asked.

(** ** Lemmas: a pass comes back *)

Section Settles.

Context (proj : Project).

Lemma settles_ok {A} (good : A -> bool) a : good a = true -> settles proj good (ok a).
Proof. intros H a' [= <-]. by left. Qed.

Lemma settles_fail {A} (good : A -> bool) e : settles proj good (fail e).
Proof. by intros a. Qed.

Lemma settles_after_calls {A B} (good : B -> bool) (p : Prog Call A) (f : A -> Io B) :
  (forall a, settles proj good (f a)) -> settles proj good (bind p f).
Proof.
  intros H. apply does_bind. eapply does_mono; [|apply does_True]. intros a es _. eapply does_mono; [|exact (H a)].
  intros r es' Hr b Hb. destruct (Hr b Hb) as [Hg|(d & Hin & Hd)]; [by left|right]. exists d. split; [|done]. apply in_or_app. by right.
Qed.

Lemma settles_then {A B} (good : B -> bool) (p : Io A) (f : A -> Io B) :
  (forall a, settles proj good (f a)) -> settles proj good (try p f).
Proof. intros H. apply settles_after_calls. intros [a|e]; [apply H|apply settles_fail]. Qed.

Lemma settles_do {A X} (good : A -> bool) (c : Call X) (k : X -> Io A) :
  (forall x, settles proj good (k x) \/ excused proj (did c x)) -> settles proj good (Do c k).
Proof.
  intros H x. destruct (H x) as [Hk|He].
  - eapply does_mono; [|exact Hk]. intros r es Hr a Ha. destruct (Hr a Ha) as [Hg|(d & Hin & Hd)]; [by left|right].
    exists d. split; [by right|done].
  - eapply does_mono; [|apply does_True]. intros r es _ a _. right. eexists. split; [by left|done].
Qed.

(** What a program leaves in the trace excuses all that follows it. *)
Lemma settles_excused {A B} (good : B -> bool) (p : Io A) (f : A -> Io B) :
  does p (fun _ es => exists d, In d es /\ excused proj d) -> settles proj good (try p f).
Proof.
  intros H. apply does_bind. eapply does_mono; [|exact H]. intros r es (d & Hin & Hd).
  eapply does_mono; [|apply does_True]. intros r' es' _ a _. right. exists d. split; [|done]. apply in_or_app. by left.
Qed.

(** The results of a program that settles go on settled. *)
Lemma settles_value {A B} (good : A -> bool) (good' : B -> bool) (p : Io A) (f : A -> Io B) :
  settles proj good p -> (forall a, good a = true -> settles proj good' (f a)) -> settles proj good' (try p f).
Proof.
  intros Hp Hf. apply does_bind. eapply does_mono; [|exact Hp]. intros [a|e] es Ha; [|by intros b [=]].
  destruct (Ha a eq_refl) as [Hg|(d & Hin & Hd)].
  - eapply does_mono; [|exact (Hf a Hg)]. intros r es' Hr b Hb. destruct (Hr b Hb) as [?|(d & Hin & Hd)]; [by left|right].
    exists d. split; [|done]. apply in_or_app. by right.
  - eapply does_mono; [|apply does_True]. intros r es' _ b _. right. exists d. split; [|done]. apply in_or_app. by left.
Qed.

Lemma choke_hands_over name f : does (choke name f) (fun _ es => exists d, In d es /\ excused proj d).
Proof.
  intros x u. destruct u, (o_err _); eexists; (split; [by right; left|]); left; by do 2 eexists.
Qed.

Lemma park_hands_over m task reason now : does (park m task reason now) (fun _ es => exists d, In d es /\ excused proj d).
Proof.
  unfold park. apply does_try. eapply does_mono; [|apply choke_hands_over]. intros [t|e] es H; cbn; by rewrite ?app_nil_r.
Qed.

End Settles.

(** A program, call by call, up to what it answers. *)
Ltac settle :=
  repeat match goal with
  | |- settles _ _ (ok _) => apply settles_ok
  | |- settles _ _ (fail _) => apply settles_fail
  | |- settles _ _ (try (park _ _ _ _) _) => apply settles_excused, park_hands_over
  | |- settles _ _ (try _ _) => apply settles_then; intros ?
  | |- settles _ _ (bind _ _) => apply settles_after_calls; intros ?
  | |- settles _ _ (Do _ _) => apply settles_do; intros ?; left
  | |- settles _ _ (if ?b then _ else _) => destruct b eqn:?
  | |- settles _ _ (match ?x with _ => _ end) => destruct x eqn:?
  end.

Section ComesBack.

#[local] Set Default Proof Using "Type*".

Context (parse : string -> option string) (setCondition : Condition -> list Condition -> option (list Condition))
  (quantity : string -> bool) (taskSize : Task -> option Z) (notes : Project -> option (Spiller Note))
  (reader : View) (m : bool) (release : Task -> bool) (poll : Duration) (cfg : PodConfig) (seq_wired : bool).
Context (proj : Project) (agentKind : string) (now : Time) (Hgrace : 0 < stallProbeGrace proj).

Lemma respawn_settles task reason : settles proj comes_back (respawnLostPod task reason).
Proof. unfold respawnLostPod. by settle. Qed.

Lemma stalled_settles task : settles proj comes_back (stalledTurnStop m poll proj task agentKind now).
Proof. unfold stalledTurnStop. by settle. Qed.

Lemma ttl_settles task : is_set (TTLDeadline proj task) = true -> settles proj comes_back (ttlStop poll proj task agentKind).
Proof. unfold ttlStop. intros H. destruct (TTLDeadline proj task); [|done]. by settle. Qed.

Lemma agent_stop_settles task : settles proj comes_back (stopAfterAgentHandoff taskSize notes proj task now).
Proof. unfold stopAfterAgentHandoff. by settle. Qed.

Lemma send_settles task attempt : settles proj comes_back (sendStallProbe m poll proj task agentKind now attempt).
Proof.
  unfold sendStallProbe, stallProbeFallback. settle; [|apply stalled_settles].
  unfold comes_back. cbn. by apply Z.ltb_lt.
Qed.

Lemma evaluate_settles task : settles proj comes_back (evaluateStallProbe m poll proj task agentKind now).
Proof.
  unfold evaluateStallProbe, stallProbeFallback, escalateStall. cbv zeta. settle; try reflexivity; try apply stalled_settles; [|apply send_settles].
  unfold comes_back. cbn. destruct (parseStallProbeSentAt task) as [sent|]; [|done]. destruct (Before now _) eqn:Hb; [|done].
  simplify_eq. apply Z.ltb_lt in Hb. apply Z.ltb_lt. unfold Sub, two63. lia.
Qed.

Lemma stall_settles task : settles proj back_or_on (reconcileStall m poll proj task agentKind now).
Proof.
  unfold reconcileStall. apply settles_do. intros clock. left. destruct (negb (turnIsStalled proj task clock)).
  - settle; reflexivity.
  - apply (settles_value proj comes_back); [|intros r Hr; by apply settles_ok].
    destruct (negb _); [apply send_settles|apply evaluate_settles].
Qed.

Lemma TTLExpired_deadline task : TTLExpired proj task now = true -> is_set (TTLDeadline proj task) = true.
Proof. unfold TTLExpired. by destruct (TTLDeadline proj task). Qed.

Lemma tend_settles task : settles proj back_or_on (tend_pod taskSize notes reader m poll proj task agentKind now).
Proof.
  unfold tend_pod. apply settles_then. intros [gone reason]. destruct gone.
  - apply settles_after_calls. intros []; [by apply settles_ok|]. apply settles_then. intros _.
    apply (settles_value proj comes_back); [apply respawn_settles|intros r Hr; by apply settles_ok].
  - destruct (agentAskedToBeStopped task).
    { apply (settles_value proj comes_back); [apply agent_stop_settles|intros r Hr; by apply settles_ok]. }
    destruct (TTLExpired proj task now) eqn:E; [|apply stall_settles].
    apply (settles_value proj comes_back); [|intros r Hr; by apply settles_ok]. by apply ttl_settles, TTLExpired_deadline.
Qed.

Lemma transient_settles task : settles proj comes_back (handleTransientWrapper task).
Proof. unfold handleTransientWrapper. cbv zeta. settle; try reflexivity. apply respawn_settles. Qed.

(** A result that is recorded on the way stays what it is. *)
Lemma settles_recorded task word outcome (p : Io Requeue) : settles proj comes_back p ->
  settles proj comes_back (let! r := p in let? _ := submitted task word outcome in Ret r).
Proof.
  intros Hp. apply does_bind. eapply does_mono; [|exact Hp]. intros r es Hr. apply does_try. intros u a Ha.
  destruct (Hr a Ha) as [?|(d & Hin & Hd)]; [by left|right]. exists d. split; [|done]. apply in_or_app. by left.
Qed.

Lemma submit_settles task : settles proj comes_back (submitStageTurn poll proj task agentKind now).
Proof.
  unfold submitStageTurn. cbv zeta. apply settles_then. intros text. apply settles_do. intros [id|e].
  { left. by settle. }
  unfold handleTurnSubmitFailure. destruct (IsTTLGone e) eqn:Eg.
  - destruct (TTLDeadline proj task) eqn:Ed.
    + left. apply settles_then. intros _. unfold ttlStop. rewrite Ed. by settle.
    + right. right. split; [|by exists task]. do 2 eexists. destruct e; try done. cbn in Eg. apply Z.eqb_eq in Eg. by subst.
  - left. destruct (IsSessionBusy e); [by settle|]. destruct (IsTransientWrapper e); [apply settles_recorded, transient_settles|by settle].
Qed.

Lemma work_settles task :
  settles proj comes_back (work_stage parse setCondition quantity reader m release poll cfg proj task agentKind now).
Proof. unfold work_stage. settle; try reflexivity; apply submit_settles. Qed.


End ComesBack.

(** The mark of a wrapper that could not be reached outlives the turn that was submitted
    after all: the first time a later wrapper is not ready, its pod is deleted at once, as if
    it had been booting since the mark, and never mind its five minutes. *)
Theorem an_old_mark_costs_the_next_pod (w : World Call) t t' marker turnID now started :
  turn_stamped marker turnID now t = Some t' -> ParseRFC3339 (ann t annAgentUnreachableSince) = Some started ->
  (forall past, After (w past _ TimeNow) (Add started agentBootDeadline) = true) ->
  exists clock x rest, snd (run w (handleTransientWrapper t'))
    = did TimeNow clock :: did (Count "agent_unreachable_termination" []) tt :: did (DeletePodNamed (PodName t')) x :: rest.
Proof.
  intros Ht Hs Hw. assert (ann t' annAgentUnreachableSince = ann t annAgentUnreachableSince) as Ha.
  { injection Ht as <-. unfold ann, annotate. cbn [Annotations fold_left].
    unfold upd. cbn -[FormatRFC3339]. by rewrite !lookup_delete_ne, !lookup_insert_ne. }
  unfold handleTransientWrapper. rewrite Ha, Hs. unfold run. cbn [run_from bind try tell ok]. rewrite Hw.
  unfold delete_wrapper, unless_missing, found, write. cbn [run_from bind try ok]. destruct (w _ _ (Count _ _)).
  destruct (run_from _ _ _) as [r es]. by do 3 eexists.
Qed.

(** ** Witnesses *)

Definition silent_task : Task :=
  zero_Task <| task_Name := "t"%string |>
    <| Annotations := <[AnnTurnStartedAt := "2026-08-22T10:00:00Z"%string]> (<[AnnStallProbeID := "p"%string]>
         (<[AnnStallProbeAt := "2026-08-22T11:00:00Z"%string]> (<[AnnStallProbeAttempts := "2"%string]> ∅))) |>.

Definition later : Time := Date 2026 8 22 12 0 0 0.

Definition mute_agent (past : list (Did Call)) (X : Type) (c : Call X) : X :=
  match c in Call X return X with
  | TimeNow => later
  | ProbeStatus _ _ => Ok (mkProbeResult "delivered" "")
  | c => nowhere c
  end.

Definition silent_pass : list (Did Call) :=
  snd (run mute_agent (reconcileStall true Second zero_Project silent_task "implement" later)).


Definition podless_task : Task :=
  zero_Task <| task_Name := "t"%string |> <| Spec ::= fun s => s <| Kind := "implement"%string |> |>
    <| Status ::= fun s => s <| State := StateUnderImplementation |> |>.


(** Marked in the morning, at work since, and its next pod not ready at noon. *)
Definition marked_task : Task :=
  zero_Task <| task_Name := "t"%string |> <| Annotations := {[ annAgentUnreachableSince := "2026-08-22T09:00:00Z"%string ]} |>.

Lemma an_old_mark_costs_the_next_pod_witness :
  exists t', turn_stamped "m" "turn" (Date 2026 8 22 9 1 0 0) marked_task = Some t'
  /\ exists clock x rest, snd (run mute_agent (handleTransientWrapper t'))
     = did TimeNow clock :: did (Count "agent_unreachable_termination" []) tt :: did (DeletePodNamed (PodName t')) x :: rest.
Proof.
  eexists. split; [reflexivity|].
  apply (an_old_mark_costs_the_next_pod mute_agent marked_task _ "m" "turn" (Date 2026 8 22 9 1 0 0) (Date 2026 8 22 9 0 0 0));
    [reflexivity|vm_compute; reflexivity|intros past; vm_compute; reflexivity].
Defined.
