(* ===== verification/Reconciler.v ===== *)
(** * A pass of the Task reconciler (internal/controller: task_controller.go, labels.go):
    which of its parts runs on a Task, in which order, and on which copy of it. *)

From Stdlib Require Import String Ascii.
From S2P Require Import Prelude GoTime Text Limits Api Vocabulary Machine Park Clocks Unpark ObjBudget Own Transition Settings Names TtlStop Patch LivePods Corridor Merge Refs Seq Escalate Queue Calls Release Reaper Mirror Intake Proposals Reviewing StageGuards PodStage.

Open Scope Z_scope.
Open Scope go_scope.

(** ** The short description *)

(** [[]rune(s)] and back: a byte that is not UTF-8 becomes the replacement character. *)
Definition clean_rune (w : string) : string := if encoded w then w else RuneError.

Definition first_line (goal : string) : string := match split_at goal (String "010" "") with Some (line, _) => line | None => goal end.

Fixpoint trim_right_spaces (s : string) : string :=
  match s with
  | String a s' =>
      match trim_right_spaces s' with
      | EmptyString => if Ascii.eqb a " " then "" else String a ""
      | t => String a t
      end
  | EmptyString => ""
  end.

Definition nul : string := String "000" "".

(** [None]: the slice is out of range.  [room] is the capacity Go gives a slice of that many
    runes: the cut is a number of bytes, taken for a number of runes, and reads zero runes
    between the length of the slice and its capacity. *)
Definition shortDescription (room : nat -> nat) (goal : string) : option string :=
  let r := map clean_rune (runes (TrimSpace (first_line goal))) in
  let maxLen := 60%nat in
  if Nat.leb (List.length r) maxLen then Some (join r)
  else
    let i := LastIndexByte (join (firstn maxLen r)) " " in
    let cut := if 0 <? i then Z.to_nat i else maxLen in
    if Nat.ltb (room (List.length r)) cut then None
    else Some (String.append (trim_right_spaces (join (firstn cut (r ++ repeat nul (cut - List.length r))%list))) "...").

(** ** The gauge of Tasks at work *)

Definition inflightKinds : list string :=
  ["brainstorm"; "incident"; "implement"; "refine"; "review"; "documentation"; "upgrade"]%string.

Definition at_work (t : Task) : bool :=
  negb (TaskDone t) && negb (Parked t) && (AgentKindFor (State (Status t)) (Kind (Spec t)) != "").

Definition count_kind (byKind : gmap string Z) (t : Task) : gmap string Z :=
  if at_work t then <[Kind (Spec t) := default 0 (byKind !! Kind (Spec t)) + 1]> byKind else byKind.

Definition updateInflightGauge : Io unit :=
  let! l := api ListTasks in
  match l with
  | Err _ => ok tt
  | Ok l =>
      let byKind := fold_left count_kind l ∅ in
      let? _ := tell (SetGauge "tasks_inflight" [] (Z.of_nat (List.length (List.filter at_work l)))) in
      let? _ := foreach inflightKinds (fun k => tell (SetGauge "tasks_inflight_kind" [k] (default 0 (byKind !! k)))) in
      foreach (List.filter (fun kc => negb (str_mem inflightKinds (fst kc))) (map_to_list byKind))
        (fun '(k, n) => tell (SetGauge "tasks_inflight_kind" [k] n))
  end.

(** ** The pass *)

Section Reconciler.

(** As in [Guards] and [Pods]; the capacity of a slice of runes. *)
Context (Quote : string -> string) (parse : string -> option string) (dropCondition : string -> list Condition -> list Condition)
  (setCondition : Condition -> list Condition -> option (list Condition)) (quantity : string -> bool)
  (issueSize : Issue -> option Z) (mrSize : MergeRequest -> option Z) (taskSize : Task -> option Z)
  (sp : Project -> option (Spiller Comment)) (notes : Project -> option (Spiller Note))
  (reader : View) (m : bool) (release : Task -> bool) (poll : Duration) (cfg : PodConfig) (seq_wired : bool)
  (room : nat -> nat).

(** A parked Task that holds a pod: whether it was repaired. *)
Definition repair_parked (task : Task) : Io bool :=
  Do (StageAnswers (task_Name task)) (fun w =>
    let '(handled, e, _, es) := repairParkedWithLivePod w task in
    Do (StageEffects (task_Name task) es) (fun _ =>
      match e with Some e => fail (RepairFault e) | None => ok handled end)).

(** The state's own work, once the guards, the clocks and the caps let it through. *)
Definition drive (proj : Project) (task : Task) (now : Time) (res : Requeue) : Io Requeue :=
  let agentKind := AgentKindFor (State (Status task)) (Kind (Spec task)) in
  if agentKind == "" then
    if State (Status task) == StateNew then reconcileTriaging parse m release proj task now else ok res
  else reconcilePodStage parse setCondition quantity taskSize notes reader m release poll cfg seq_wired proj task agentKind now.

(** A Task that is neither done nor parked where it was read last. *)
Definition reconcile_live (proj : Project) (task : Task) (now : Time) : Io Requeue :=
  let? bound := reconcileMRBindingBackstop parse issueSize mrSize sp m proj task now in
  if bound then ok at_rest
  else
    let? (res, handled) := reconcileClocks Quote dropCondition issueSize sp reader m release poll proj task now in
    if handled then ok res
    else
      let? capped := reconcileCaps taskSize notes m proj task now in
      if capped then ok at_rest else drive proj task now res.

Definition reconcileStage (proj : Project) (task : Task) (now : Time) : Io Requeue :=
  if State (Status task) == "" then reconcile_mint reader m release task now
  else
    let? (repaired, task) := reconcileParkedBindingRepair parse issueSize mrSize sp reader proj task in
    if repaired then ok at_rest
    else
      let? repaired := repair_parked task in
      if repaired then ok at_once
      else
        let? over := reconcileParkedExternalTerminal reader m release task now in
        if over then ok at_rest
        else if TaskDone task || Parked task then ok at_rest
        else
          let? task := refreshTaskFromAPI reader task in
          if TaskDone task || Parked task then ok at_rest
          else reconcile_live proj task now.

(** The printed column; a panic ends the pass, an error does not. *)
Definition describe (task : Task) : Io Task :=
  on_conflict
    (let? fresh := api (GetTask Cached (task_Name task)) in
     match shortDescription room (Goal (Spec fresh)) with
     | None => fail Panicked
     | Some desc =>
         if ShortDescription (Status fresh) == desc then ok fresh
         else let fresh := on_status fresh (fun s => s <| ShortDescription := desc |>) in
              let? _ := write (UpdateTaskStatus fresh) in ok fresh
     end).

Definition counted {A} (word : string) (p : Io A) : Io A := let? _ := tell (Count "reconcile" ["Task"%string; word]) in p.

Definition doReconcile (name : string) : Io Requeue :=
  let! task := api (GetTask Cached name) in
  match task with
  | Err e => if IsNotFound e then ok at_rest else counted "error" (fail e)
  | Ok task =>
      if is_set (DeletionTimestamp task) then ok at_rest
      else
        let! described := describe task in
        match described with
        | Err Panicked => fail Panicked
        | _ =>
            let task := match described with Ok fresh => fresh | Err _ => task end in
            let! proj := api (GetProject (ProjectRef (Spec task))) in
            match proj with
            | Err e => counted "error" (fail e)
            | Ok proj =>
                Do TimeNow (fun now : Time =>
                  let! r := reconcileStage proj task now in
                  match r with
                  | Err e => counted "error" (fail e)
                  | Ok r => let? _ := updateInflightGauge in counted "success" (ok r)
                  end)
            end
        end
  end.

(** An error of the manager's own shutdown is none; a panic is no error. *)
Definition classifyReconcileShutdown (r : result Fail Requeue) : Io Requeue :=
  match r with
  | Ok r => ok r
  | Err Panicked => fail Panicked
  | Err e => Do Cancelled (fun shutdown : bool => if shutdown then ok at_rest else fail e)
  end.

Definition Reconcile (name : string) : Io Requeue :=
  let! r := doReconcile name in classifyReconcileShutdown r.

End Reconciler.

(** ** Vocabulary of the properties *)

(** Work with an agent: its pod, its volume, its ticket, its session and its end. *)
Definition pod_work (d : Did Call) : bool :=
  match did_call d with
  | CreatePod _ _ | CreateService _ | CreatePVC _ | QueueEffects _ | SubmitTurn _ _ | Probe _ _ | ProbeStatus _ _
  | Interrupt _ | DeleteSession _ | StopEffects _ _ | ExitEffects _ _ => true
  | _ => false
  end.

Definition live_task (t : Task) : bool := negb (TaskDone t) && negb (Parked t).

(** What the API server answered last for the Task: it is live, or there is none. *)
Definition confirms (d : Did Call) (name : string) : Prop :=
  (exists live, d = did (GetTask Direct name) (Ok live) /\ live_task live = true)
  \/ d = did (GetTask Direct name) (Err ApiMissing).

Definition confirmed (name : string) (past : list (Did Call)) : Prop := exists d, In d past /\ confirms d name.

(** Work with an agent comes after that answer. *)
Definition work_is_confirmed (name : string) (past : list (Did Call)) (d : Did Call) : Prop :=
  pod_work d = true -> confirmed name past.

(** ** Lemmas: before the live read there is no work *)

Definition workless (d : Did Call) : Prop := pod_work d = false.

Ltac workless_go := each_go ltac:(reflexivity).

Lemma workless_confirmed name past d : workless d -> work_is_confirmed name past d.
Proof. unfold workless, work_is_confirmed. congruence. Qed.

Lemma always_workless {A} name (p : Prog Call A) : each workless p -> always (work_is_confirmed name) p.
Proof. apply always_free, workless_confirmed. Qed.

Lemma once_confirmed {A} name (p : Prog Call A) past :
  confirmed name past -> does p (fun _ es => guarded (work_is_confirmed name) past es).
Proof.
  intros H. eapply does_mono; [|exact (does_True p)]. intros _ es _.
  apply (guarded_once _ (confirmed name)); [by intros ? ? ? _| |done].
  intros past' d' (d & Hin & Hd). exists d. split; [|done]. apply in_or_app. by left.
Qed.

Lemma stamp_workless task f : each workless (stampMintStatusIfChanged task f).
Proof. unfold stampMintStatusIfChanged. workless_go. Qed.

Section Workless.

Context (parse : string -> option string) (issueSize : Issue -> option Z) (mrSize : MergeRequest -> option Z)
  (sp : Project -> option (Spiller Comment)) (reader : View) (proj : Project).

Lemma bind_source_workless repo src number task : each workless (bind_source issueSize mrSize sp proj repo src number task).
Proof.
  unfold bind_source, repairMRBinding, repairIssueBinding, stampMRRef, stampIssueRef, bindMRToTask, SyncMergeRequest, SyncIssue,
    counting_failure, ensureMergeRequestCR, ensureIssueCR, ensureIssueCRWithAnnotations, mirrorComments, recordMirrorSyncFailure,
    ownMergeRequest, ownIssueForTask, take_control.
  workless_go. all: apply stamp_workless.
Qed.

Lemma repairSourceBinding_workless task : each workless (repairSourceBinding parse issueSize mrSize sp proj task).
Proof. unfold repairSourceBinding, repositoryForSlug, projectRepos. workless_go. all: apply bind_source_workless. Qed.

Lemma refresh_workless task : each workless (refreshTaskFromAPI reader task).
Proof. unfold refreshTaskFromAPI. workless_go. Qed.

Lemma parked_repair_workless task :
  each workless (reconcileParkedBindingRepair parse issueSize mrSize sp reader proj task).
Proof.
  unfold reconcileParkedBindingRepair. workless_go. all: first [apply refresh_workless|apply repairSourceBinding_workless].
Qed.

End Workless.

Lemma external_exit_workless reader task mrs : each workless (external_exit reader task mrs).
Proof.
  unfold external_exit, TaskTakenOver, MRRefsHandedOver. workless_go.
  all: induction (_ :: _) as [|name rest IH]; cbn [refs_handed_over]; workless_go; exact IH.
Qed.

Lemma parked_terminal_workless reader m release task now :
  each workless (reconcileParkedExternalTerminal reader m release task now).
Proof.
  unfold reconcileParkedExternalTerminal, controlled_mrs. workless_go. all: apply external_exit_workless.
Qed.

Lemma refs_unseen_workless seen refs owned : each workless (refs_unseen seen refs owned).
Proof. revert seen owned. induction refs as [|name rest IH]; intros seen owned; cbn [refs_unseen]; workless_go; apply IH. Qed.

Lemma mint_workless reader m release task now : each workless (reconcile_mint reader m release task now).
Proof.
  unfold reconcile_mint, mintedAlready, terminalResetTarget, resetGuardIssues, controlled_issues, enter, mint_parked.
  workless_go. all: apply refs_unseen_workless.
Qed.

Lemma repair_parked_workless task : each workless (repair_parked task).
Proof. unfold repair_parked. workless_go. Qed.

Lemma refresh_confirms task : live_task task = true ->
  does (refreshTaskFromAPI Direct task) (fun r es => forall t, r = Ok t -> live_task t = true -> confirmed (task_Name task) es).
Proof.
  intros Ht. unfold refreshTaskFromAPI. apply does_try, does_found. intros [live|[]]; cbn [IsNotFound does ok fail api]; try done.
  - apply does_try. destruct (State (Status live) != State (Status task)); cbn [tell does ok app]; intros.
    all: simplify_eq; eexists; (split; [by left|]); left; by exists t.
  - intros t [= <-] _. eexists. split; [by left|]. by right.
Qed.

Lemma guarded_workless name past es : Forall workless es -> guarded (work_is_confirmed name) past es.
Proof. intros H. apply (guarded_free _ workless); [apply workless_confirmed|done]. Qed.

(** What follows a live read is confirmed; a read that says otherwise is followed by no work. *)
Lemma after_refresh {A} task (f : Task -> Io A) :
  live_task task = true -> (forall t, live_task t = false -> each workless (f t)) ->
  always (work_is_confirmed (task_Name task)) (try (refreshTaskFromAPI Direct task) f).
Proof.
  intros Ht Hf past. apply does_bind.
  eapply does_mono; [|apply does_and; [apply refresh_workless|by apply refresh_confirms]].
  intros [t|e] es [Hw Hc]; cbn beta iota; [|by apply guarded_workless; rewrite app_nil_r].
  destruct (live_task t) eqn:El.
  - eapply does_mono; [|apply (once_confirmed (task_Name task) (f t) (past ++ es))].
    + intros a es' H. apply guarded_app. split; [by apply guarded_workless|exact H].
    + destruct (Hc t eq_refl El) as (d & Hin & Hd). exists d. split; [|done]. apply in_or_app. by right.
  - eapply does_mono; [|exact (Hf t El)]. intros a es' H. apply guarded_workless, Forall_app. by split.
Qed.

Section Confirmed.

Context (Quote : string -> string) (parse : string -> option string) (dropCondition : string -> list Condition -> list Condition)
  (setCondition : Condition -> list Condition -> option (list Condition)) (quantity : string -> bool)
  (issueSize : Issue -> option Z) (mrSize : MergeRequest -> option Z) (taskSize : Task -> option Z)
  (sp : Project -> option (Spiller Comment)) (notes : Project -> option (Spiller Note))
  (m : bool) (release : Task -> bool) (poll : Duration) (cfg : PodConfig) (seq_wired : bool) (proj : Project).

Lemma parked_repair_name task :
  does (reconcileParkedBindingRepair parse issueSize mrSize sp Direct proj task) (fun r es =>
    true_names es -> forall b t, r = Ok (b, t) -> task_Name t = task_Name task).
Proof.
  unfold reconcileParkedBindingRepair. destruct (negb _); [by intros _ b t [= _ <-]|].
  apply does_try. unfold refreshTaskFromAPI. apply does_try, does_found.
  assert (forall t d0, (true_names d0 -> task_Name t = task_Name task) ->
    does (if negb (parkedBindingRepairEligible t) then ok (false, t)
          else let? repaired := repairSourceBinding parse issueSize mrSize sp proj t in ok (repaired, t))
      (fun r es => true_names (d0 ++ es) -> forall b t', r = Ok (b, t') -> task_Name t' = task_Name task)) as Hk.
  { intros t d0 Hn. destruct (negb _).
    - intros H b t' [= _ <-]. apply Hn. by apply true_names_app in H as [? _].
    - apply does_try. eapply does_mono; [|apply does_True]. intros [b0|e] es _; cbn; [|by intros _ b t' [=]].
      intros H b t' [= _ <-]. apply Hn. by apply true_names_app in H as [? _]. }
  intros [live|[]]; cbn [IsNotFound does ok fail api]; try (by intros _ b t [=]).
  - apply does_try. destruct (State (Status live) != State (Status task)); cbn [tell does ok app]; [intros u|].
    + eapply does_mono; [|apply (Hk live [did (GetTask Direct (task_Name task)) (Ok live); did (Count "stage_drift" [State (Status task)]) u])].
      * intros r es H. exact H.
      * intros H. apply (H Direct). by left.
    + eapply does_mono; [|apply (Hk live [did (GetTask Direct (task_Name task)) (Ok live)])].
      * intros r es H. exact H.
      * intros H. apply (H Direct). by left.
  - eapply does_mono; [|apply (Hk task [did (GetTask Direct (task_Name task)) (Err ApiMissing)])]; [|done].
    intros r es H. exact H.
Qed.

Lemma reconcileStage_confirmed task now :
  does (reconcileStage Quote parse dropCondition setCondition quantity issueSize mrSize taskSize sp notes Direct m release poll cfg
          seq_wired proj task now)
    (fun _ es => true_names es -> guarded (work_is_confirmed (task_Name task)) [] es).
Proof.
  unfold reconcileStage. destruct (_ == "")%go.
  { eapply does_mono; [|apply mint_workless]. intros r es H _. by apply guarded_workless. }
  apply does_bind. eapply does_mono; [|apply does_and; [apply parked_repair_workless|apply parked_repair_name]].
  intros [[[] t]|e] es [Hw Hn]; cbn beta iota; [cbn; intros _; by apply guarded_workless; rewrite app_nil_r| |cbn; intros _; by apply guarded_workless; rewrite app_nil_r].
  match goal with |- does ?p _ => assert (task_Name t = task_Name task -> always (work_is_confirmed (task_Name task)) p) as Hp end.
  { intros <-. apply always_try; [apply always_workless, repair_parked_workless|]. intros [].
    { apply always_ret. }
    apply always_try; [apply always_workless, parked_terminal_workless|]. intros []; [apply always_ret|].
    destruct (TaskDone t || Parked t) eqn:E; [apply always_ret|]. apply orb_false_iff in E as [E1 E2].
    apply after_refresh; [unfold live_task; by rewrite E1, E2|].
    intros l Hl. assert (TaskDone l || Parked l = true) as ->; [|workless_go].
    unfold live_task in Hl. by destruct (TaskDone l), (Parked l). }
  destruct (decide (task_Name t = task_Name task)) as [E|E].
  - eapply does_mono; [|exact (Hp E es)]. intros a es' H _. apply guarded_app. split; [by apply guarded_workless|exact H].
  - eapply does_mono; [|apply does_True]. intros a es' _ H. exfalso. apply E.
    apply true_names_app in H as [H _]. exact (Hn H false t eq_refl).
Qed.

End Confirmed.

Section Promise.

Context (Quote : string -> string) (parse : string -> option string) (dropCondition : string -> list Condition -> list Condition)
  (setCondition : Condition -> list Condition -> option (list Condition)) (quantity : string -> bool)
  (issueSize : Issue -> option Z) (mrSize : MergeRequest -> option Z) (taskSize : Task -> option Z)
  (sp : Project -> option (Spiller Comment)) (notes : Project -> option (Spiller Note))
  (m : bool) (release : Task -> bool) (poll : Duration) (cfg : PodConfig) (seq_wired : bool).

(** C24: In every pass of the reconciler over a Task, each piece of work with an agent - a
    ticket, a volume, a pod, a turn, a probe, a stop - comes after a read of the API server
    that showed the Task neither done nor parked (or gone): the cached copy alone never
    starts any, and a Task that is parked meanwhile is left to its un-park. *)
Theorem agents_work_on_live_tasks_only proj task now (w : World Call) before d after :
  let es := snd (run w (reconcileStage Quote parse dropCondition setCondition quantity issueSize mrSize taskSize sp notes Direct m
                          release poll cfg seq_wired proj task now)) in
  true_names es -> es = (before ++ d :: after)%list -> pod_work d = true -> confirmed (task_Name task) before.
Proof.
  intros es Hn He Hd.
  pose proof (run_does w _ _ (reconcileStage_confirmed Quote parse dropCondition setCondition quantity issueSize mrSize taskSize
    sp notes m release poll cfg seq_wired proj task now)) as H.
  exact (guarded_split _ _ _ _ _ _ (H Hn) He Hd).
Qed.

End Promise.

(** ** The description, and the goal that stops its Task *)

(** 59 letters of two bytes each, a space, 20 letters. *)
Definition wide_goal : string :=
  join (repeat (of_bytes [195; 169]%nat) 59 ++ [" "%string] ++ repeat "a"%string 20)%list.

Lemma LastIndexByte_bound s c : LastIndexByte s c < 0 \/ LastIndexByte s c < strlen s.
Proof.
  induction s as [|a s IH]; [by left|]. cbn [LastIndexByte]. unfold strlen in *. cbn [String.length].
  destruct (0 <=? LastIndexByte s c) eqn:E; [apply Z.leb_le in E; lia|]. destruct (Ascii.eqb _ _); lia.
Qed.

Lemma trim_right_spaces_length s : strlen (trim_right_spaces s) <= strlen s.
Proof.
  unfold strlen. induction s as [|a s IH]; [done|]. cbn [trim_right_spaces String.length].
  destruct (trim_right_spaces s) as [|b t]; cbn [String.length] in *; [destruct (Ascii.eqb a " "); cbn [String.length]; lia|lia].
Qed.

Lemma clean_singles s : isASCII s = true -> map clean_rune (singles s) = singles s.
Proof.
  induction s as [|a s IH]; [done|]. cbn [isASCII singles map]. intros [Ha H]%andb_true_iff. rewrite IH by done.
  unfold clean_rune, encoded. by rewrite Ha.
Qed.

Lemma join_singles_length l s : (forall w, In w l -> In w (singles s)) -> strlen (join l) = Z.of_nat (List.length l).
Proof.
  intros H. induction l as [|w l IH]; [done|]. cbn [join fold_right List.length]. fold (join l). rewrite strlen_app, IH by (intros; apply H; by right).
  assert (strlen w = 1) as ->; [|lia].
  assert (In w (singles s)) as Hw by (apply H; by left). clear -Hw. induction s as [|a s IH]; [done|]. by destruct Hw as [<-|Hw]; [|apply IH].
Qed.

(** A goal in ASCII has its description, of at most 63 bytes. *)
Lemma ascii_goals_are_described room goal :
  (forall n, n <= room n)%nat -> isASCII (TrimSpace (first_line goal)) = true ->
  exists s, shortDescription room goal = Some s /\ strlen s <= 63.
Proof.
  intros Hroom Hascii. unfold shortDescription. rewrite runes_ascii, clean_singles by done.
  set (r := singles (TrimSpace (first_line goal))). cbv zeta. destruct (Nat.leb_spec (List.length r) 60).
  { eexists. split; [reflexivity|]. rewrite (join_singles_length r (TrimSpace (first_line goal))) by done. lia. }
  assert (strlen (join (firstn 60 r)) = 60) as Hlen.
  { rewrite (join_singles_length _ (TrimSpace (first_line goal))).
    - rewrite length_firstn. lia.
    - intros w Hw. by apply firstn_In in Hw. }
  pose proof (LastIndexByte_bound (join (firstn 60 r)) " "%char) as Hi. rewrite Hlen in Hi.
  set (i := LastIndexByte _ _) in *. set (cut := if 0 <? i then _ else _).
  assert (cut <= 60)%nat as Hcut by (unfold cut; destruct (Z.ltb_spec 0 i); lia).
  specialize (Hroom (List.length r)). destruct (Nat.ltb_spec (room (List.length r)) cut); [lia|].
  eexists. split; [reflexivity|]. rewrite strlen_app. pose proof (trim_right_spaces_length (join (firstn cut (r ++ repeat nul (cut - List.length r))%list))) as Ht.
  replace (cut - List.length r)%nat with 0%nat in * by lia. cbn [repeat] in *. rewrite app_nil_r in *.
  rewrite (join_singles_length (firstn cut r) (TrimSpace (first_line goal))) in Ht by (intros w Hw; by apply firstn_In in Hw).
  rewrite length_firstn in Ht. change (strlen "...") with 3. lia.
Qed.

Section Description.

Context (Quote : string -> string) (parse : string -> option string) (dropCondition : string -> list Condition -> list Condition)
  (setCondition : Condition -> list Condition -> option (list Condition)) (quantity : string -> bool)
  (issueSize : Issue -> option Z) (mrSize : MergeRequest -> option Z) (taskSize : Task -> option Z)
  (sp : Project -> option (Spiller Comment)) (notes : Project -> option (Spiller Note))
  (reader : View) (m : bool) (release : Task -> bool) (poll : Duration) (cfg : PodConfig) (seq_wired : bool) (room : nat -> nat).

(** The cut of the short description is counted in bytes and applied to runes: a Task whose
    goal has a late space after enough letters of more than a byte ends every pass of the
    reconciler in a panic, before anything but two reads of it was done. *)
Theorem a_goal_can_stop_the_reconciler (w : World Call) (t : Task) :
  (room 80 < 118)%nat -> Goal (Spec t) = wide_goal -> DeletionTimestamp t = None ->
  (forall past, w past _ (GetTask Cached (task_Name t)) = Ok t) ->
  run w (Reconcile Quote parse dropCondition setCondition quantity issueSize mrSize taskSize sp notes reader m release poll cfg
           seq_wired room (task_Name t))
  = (Err Panicked, [did (GetTask Cached (task_Name t)) (Ok t); did (GetTask Cached (task_Name t)) (Ok t)]).
Proof.
  intros Hr Hg Hd Hw. assert (shortDescription room wide_goal = None) as Hp.
  { unfold shortDescription.
    assert (map clean_rune (runes (TrimSpace (first_line wide_goal))) =
            (repeat (of_bytes [195; 169]%nat) 59 ++ [" "%string] ++ repeat "a"%string 20)%list) as -> by (vm_compute; reflexivity).
    cbv zeta. replace (Nat.leb _ 60) with false by (vm_compute; reflexivity).
    match goal with |- context [LastIndexByte ?s ?c] => replace (LastIndexByte s c) with 118 by (vm_compute; reflexivity) end.
    change (0 <? 118) with true. cbv iota. change (Z.to_nat 118) with 118%nat.
    match goal with |- context [room ?n] => replace n with 80%nat by (vm_compute; reflexivity) end.
    by apply Nat.ltb_lt in Hr as ->. }
  unfold run, Reconcile, doReconcile, describe, on_conflict.
  cbn [run_from bind api]. rewrite Hw. cbn [ok bind run_from]. rewrite Hd. cbn [is_set on_error bind try run_from api].
  rewrite Hw. cbn [ok bind run_from]. by rewrite Hg, Hp.
Qed.

End Description.

(** ** Witnesses *)

Definition fresh_work : Task :=
  zero_Task <| task_Name := "t"%string |> <| Spec ::= fun s => s <| Kind := "implement"%string |> |>
    <| Status ::= fun s => s <| State := StateUnderImplementation |> <| StateEnteredAt := Some 1 |> |>.

Definition one_live (past : list (Did Call)) (X : Type) (c : Call X) : X :=
  match c in Call X return X with
  | GetTask Direct n => if n == "t" then Ok fresh_work else Err ApiMissing
  | c => nowhere c
  end.

Definition live_pass : list (Did Call) :=
  snd (run one_live (reconcileStage id (fun _ => None) (fun _ l => l) (fun _ _ => None) (fun _ => true) (fun _ => Some 0)
         (fun _ => Some 0) (fun _ => Some 0) (fun _ => None) (fun _ => None) Direct true (fun _ => true) Second
         (mkPodConfig false "a" "b") true zero_Project fresh_work 2)).

Definition nothing_done : Did Call := did TimeNow 0.

Lemma live_pass_names : true_names live_pass.
Proof.
  intros v n t Hin. apply run_answer in Hin as [past H]. destruct v; [done|]. cbn in H.
  destruct (n == "t")%go eqn:E; [|done]. apply String.eqb_eq in E. injection H as ->. by subst n.
Qed.

Lemma agents_work_on_live_tasks_only_witness :
  exists before d after, live_pass = (before ++ d :: after)%list /\ pod_work d = true /\ confirmed "t" before.
Proof.
  exists (firstn 5 live_pass), (nth 5 live_pass nothing_done), (skipn 6 live_pass).
  assert (live_pass = firstn 5 live_pass ++ nth 5 live_pass nothing_done :: skipn 6 live_pass)%list as E by (vm_compute; reflexivity).
  assert (pod_work (nth 5 live_pass nothing_done) = true) as Hd by (vm_compute; reflexivity).
  split; [exact E|]. split; [exact Hd|].
  exact (agents_work_on_live_tasks_only id (fun _ => None) (fun _ l => l) (fun _ _ => None) (fun _ => true) (fun _ => Some 0)
    (fun _ => Some 0) (fun _ => Some 0) (fun _ => None) (fun _ => None) true (fun _ => true) Second
    (mkPodConfig false "a" "b") true zero_Project fresh_work 2 one_live _ _ _ live_pass_names E Hd).
Defined.

Definition wide_task : Task := zero_Task <| task_Name := "t"%string |> <| Spec ::= fun s => s <| Goal := wide_goal |> |>.

Definition wide_world (past : list (Did Call)) (X : Type) (c : Call X) : X :=
  match c in Call X return X with
  | GetTask _ _ => Ok wide_task
  | c => nowhere c
  end.

(** The capacity is the length itself for 80 runes. *)
Lemma a_goal_can_stop_the_reconciler_witness :
  fst (run wide_world (Reconcile id (fun _ => None) (fun _ l => l) (fun _ _ => None) (fun _ => true) (fun _ => Some 0)
         (fun _ => Some 0) (fun _ => Some 0) (fun _ => None) (fun _ => None) Direct true (fun _ => true) Second
         (mkPodConfig false "a" "b") true (fun n => n) "t")) = Err Panicked.
Proof.
  pose proof (a_goal_can_stop_the_reconciler id (fun _ => None) (fun _ l => l) (fun _ _ => None) (fun _ => true) (fun _ => Some 0)
    (fun _ => Some 0) (fun _ => Some 0) (fun _ => None) (fun _ => None) Direct true (fun _ => true) Second
    (mkPodConfig false "a" "b") true (fun n => n) wide_world wide_task) as H.
  change (task_Name wide_task) with "t"%string in H. rewrite H; try reflexivity. vm_compute. lia.
Defined.
