(* ===== verification/Outcome.v ===== *)
(** * The outcome of a turn (internal/restapi: outcome.go, readiness.go, approval_ship.go,
    handlers_v2.go, handlers.go): the request by which an agent ends its work.  The claim that
    lets one of many identical requests through, the commit that stamps it with the
    transition, and the outcomes of a change, of its review and of the approval gate. *)

From Stdlib Require Import String.
From S2P Require Import Prelude GoTime Text Limits Api Vocabulary Machine Park Clocks ObjBudget Own Transition Logins Names Seq Refs Checks Corridor Merge LivePods Approval Ship Escalate Drivers Calls Release Reaper Mirror Intake Proposals Reviewing.

Open Scope Z_scope.
Open Scope go_scope.

(** ** Answers *)

(** What stands in the way of a merge request at its live head. *)
Record MRReadiness := mkMRReadiness {
  rdy_repo : string;
  rdy_number : Z;
  rdy_headSHA : string;
  rdy_blockers : list string;
  rdy_ciPending : bool
}.

(** The bodies an answer may have; [ErrorText] stands for every message. *)
Inductive ResponseBody :=
  | TaskDTO (t : Task)
  | gateGrantedResponse (t : Task)
  | gateResponse (reason declared : string)
  | NoopResponse (reason : string)
  | headMovedResponse (repo : string) (number : Z) (reviewed live : string)
  | prNotReadyResponse (blocked : list MRReadiness)
  | approvalRequiredBody (blocked : list ShipBlocker)
  | ErrorText.

(** [ClientErr]: the status is that of the error, the cause not found, refused or other. *)
Inductive Response := Reply (status : Z) (body : ResponseBody) | ClientErr (e : Fail).

(** A handler, until it has answered. *)
Definition Http (A : Type) : Type := Prog Call (result Response A).

Definition go_on {A} (a : A) : Http A := Ret (Ok a).
Definition answer {A} (r : Response) : Http A := Ret (Err r).

(** [if err != nil { writeClientErr(w, err); return }]. *)
Definition or_client {A} (p : Io A) : Http A :=
  bind p (fun r => Ret (match r with Ok a => Ok a | Err e => Err (ClientErr e) end)).

(** A step whose error is logged, and no more. *)
Definition best_effort (p : Io unit) : Http unit := bind p (fun _ => go_on tt).

(** An answer that is thrown away: whether there was none. *)
Definition discarding {A} (p : Http A) : Prog Call bool := bind p (fun r => Ret (is_ok r)).

Definition count (name : string) (labels : list string) : Http unit := Do (Count name labels) (fun _ => go_on tt).

(** ** Payloads *)

Record implementPayload := mkImplementPayload {
  ip_Action : string;
  ip_Title : string;
  ip_Body : string;
  ip_ChangeSignificance : string;
  ip_MergeOrder : list string;
  ip_Reason : string;
  ip_ApprovingMaintainer : string;
  ip_PlanNoteID : string;
  ip_ApprovalCitations : list ApprovalCitation
}.

Record reviewedSHA := mkReviewedSHA { rs_Repo : string; rs_Number : Z; rs_SHA : string }.

Record reviewFindingPayload := mkReviewFindingPayload {
  fp_Repo : string;
  fp_Number : Z;
  fp_Path : string;
  fp_Line : option Z;
  fp_Body : string;
  fp_Severity : string
}.

Record reviewPayload := mkReviewPayload {
  rp_Verdict : string;
  rp_ChangeSignificance : string;
  rp_ReviewedSHAs : list reviewedSHA;
  rp_Findings : list reviewFindingPayload
}.

(** ** Shared lookups *)

(** Sorted by name: [sort.Slice]. *)
Fixpoint insert_named {A} (name : A -> string) (a : A) (l : list A) : list A :=
  match l with
  | [] => [a]
  | b :: l' => if String.leb (name a) (name b) then a :: l else b :: insert_named name a l'
  end.

Definition sort_named {A} (name : A -> string) (l : list A) : list A := fold_right (insert_named name) [] l.

Definition getTaskCR (name : string) : Io Task := api (GetTask Cached name).
Definition getProjectCR (name : string) : Io Project := api (GetProject name).

Definition repoCR (projName repoName : string) : Io Repository :=
  let? repo := api (GetRepository repoName) in
  if repo_ProjectRef repo != projName then fail (SpecRefused "repository is not in project") else ok repo.

Definition owned_named {A} `{Artifact A} (task : Task) (l : list A) : list A :=
  sort_named obj_name (List.filter (owned_by task) l).

Definition controlledIssues (task : Task) : Io (list Issue) :=
  let? l := api ListIssues in ok (owned_named task l).

Definition controlledMRs (task : Task) : Io (list MergeRequest) :=
  let? l := api (ListMergeRequests Cached) in ok (owned_named task l).

Definition mr_in_flight (mr : MergeRequest) : bool := (mr_State (mr_Status mr) == "") || (mr_State (mr_Status mr) == "open").
Definition openMRs (mrs : list MergeRequest) : list MergeRequest := List.filter mr_in_flight mrs.

(** Whether every merge request is over; none are not. *)
Definition mrTerminalStates (mrs : list MergeRequest) : bool :=
  match mrs with [] => false | _ => match openMRs mrs with [] => true | _ => false end end.

(** The repositories, each once, in their order. *)
Fixpoint repos_seen (seen : list string) (mrs : list MergeRequest) : list string :=
  match mrs with
  | [] => []
  | mr :: rest => let repo := mrs_RepositoryRef (mr_Spec mr) in
                  if str_mem seen repo then repos_seen seen rest else repo :: repos_seen (repo :: seen) rest
  end.

Definition ownedMRRepos (mrs : list MergeRequest) : list string := repos_seen [] mrs.

Definition updateTaskSpec (name : string) (mutate : Task -> Task) : Io unit :=
  on_conflict (let? t := api (GetTask Cached name) in write (UpdateTask (mutate t))).

Definition validChangeSignificance (s : string) : bool := str_mem ["major"; "minor"; "patch"]%string s.

(** ** Notes *)

Definition planNoteKind : string := "plan".

Definition agentNote (agent kind body : string) (now : Time) (t : Task) : Task :=
  on_status t (fun s => s <| Notes ::= fun l =>
    (l ++ [mkNote "" now agent kind (TruncateUTF8 body NoteBodyMaxBytes)])%list |>).

(** The newest plan note, the pinned one where none is left. *)
Definition pinnedPlanNoteID (t : Task) : string :=
  match List.find (fun n => n_Kind n == planNoteKind) (rev (Notes (Status t))) with
  | Some n => n_ID n
  | None => PinnedPlanNoteID (Status t)
  end.

Definition findNote (t : Task) (id : string) : option Note := List.find (fun n => n_ID n == id) (Notes (Status t)).

Definition findPlanNote (t : Task) (id : string) : option Note :=
  if id == "" then None
  else match findNote t id with
       | Some n => if n_Kind n != planNoteKind then None else Some n
       | None => None
       end.

Definition planNote (t : Task) : option Note := findPlanNote t (pinnedPlanNoteID t).
Definition notePlanHash (body : string) : string := sha256_hex body.

(** ** The claim *)

Inductive outcomeClaimState := claimWon | claimCommitted | claimInFlight.

Definition classifyOutcomeClaim (t : Task) (fp : string) (now : Time) : outcomeClaimState :=
  match OutcomeCondition t with
  | None => claimWon
  | Some cond =>
      if (c_Status cond != ConditionTrue) || (c_Message cond != fp) then claimWon
      else if c_Reason cond != OutcomeReasonClaimed then claimCommitted
      else if Sub now (c_LastTransitionTime cond) <? OutcomeClaimTTL then claimInFlight
      else claimWon
  end.

Definition conditionReason (kind : string) : string := OutcomeReasonFor kind.

(** The condition of that type as a whole, where there is one; otherwise at the end. *)
Fixpoint upsert_condition (c : Condition) (l : list Condition) : list Condition :=
  match l with
  | [] => [c]
  | d :: l' => if c_Type d == c_Type c then c :: l' else d :: upsert_condition c l'
  end.

Definition setCondition (c : Condition) (t : Task) : Task := on_status t (fun s => s <| Conditions ::= upsert_condition c |>).

Definition outcome_condition (kind fp : string) (now : Time) : Condition :=
  mkCondition ConditionOutcomeAccepted ConditionTrue (conditionReason kind) now fp.

Definition claimed_by (fp : string) (now : Time) (t : Task) : Task := setCondition (outcome_condition "" fp now) t.

Definition peekOutcomeClaim (name fp : string) (now : Time) : Io (Task * outcomeClaimState) :=
  let? fresh := api (GetTask Cached name) in ok (fresh, classifyOutcomeClaim fresh fp now).

Definition claimOutcomeFingerprint (name fp : string) (now : Time) : Io (Task * outcomeClaimState) :=
  on_conflict
    (let? fresh := api (GetTask Cached name) in
     match classifyOutcomeClaim fresh fp now with
     | claimWon => let? _ := write (UpdateTaskStatus (claimed_by fp now fresh)) in ok (claimed_by fp now fresh, claimWon)
     | st => ok (fresh, st)
     end).

(** ** The context of a request *)

Record outcomeCtx := mkOutcomeCtx {
  oc_task : Task;
  oc_proj : Project;
  oc_fp : string;
  oc_kind : string;
  oc_claimed : bool;
  oc_gateGrant : bool
}.

Definition with_claim (b : bool) (o : outcomeCtx) : outcomeCtx :=
  mkOutcomeCtx (oc_task o) (oc_proj o) (oc_fp o) (oc_kind o) b (oc_gateGrant o).

Definition granting (o : outcomeCtx) : outcomeCtx :=
  mkOutcomeCtx (oc_task o) (oc_proj o) (oc_fp o) (oc_kind o) (oc_claimed o) true.

(** The caller's copy takes over where the write has left the Task. *)
Definition moved_to (o : outcomeCtx) (w : Task) : outcomeCtx :=
  mkOutcomeCtx (on_status (oc_task o) (fun s => s <| State := State (Status w) |> <| StateReason := StateReason (Status w) |>
                                                 <| ParkReason := ParkReason (Status w) |>))
    (oc_proj o) (oc_fp o) (oc_kind o) (oc_claimed o) (oc_gateGrant o).

Definition oc_name (o : outcomeCtx) : string := task_Name (oc_task o).

Definition gateGrantReplayBody (grant : bool) (t : Task) : ResponseBody :=
  if grant then gateGrantedResponse t else TaskDTO t.

Definition in_flight_answer {A} (kind : string) : Http A :=
  let? _ := count "rest_outcome_rejected" [kind; "claim-in-flight"]%string in answer (Reply 409 ErrorText).

Definition claim (o : outcomeCtx) : Http outcomeCtx :=
  if oc_claimed o then go_on o
  else Do TimeNow (fun now =>
    let? (fresh, st) := or_client (claimOutcomeFingerprint (oc_name o) (oc_fp o) now) in
    match st with
    | claimCommitted => answer (Reply 200 (gateGrantReplayBody (oc_gateGrant o) fresh))
    | claimInFlight => in_flight_answer (oc_kind o)
    | claimWon => go_on (with_claim true o)
    end).

(** Whether the condition is the bare claim of this fingerprint. *)
Definition own_claim (fp : string) (t : Task) : bool :=
  match OutcomeCondition t with
  | Some cond => (c_Message cond == fp) && (c_Reason cond == OutcomeReasonClaimed)
  | None => false
  end.

Section Outcome.

(** The path of [url.Parse]; [strconv.Quote]; the sizes and the spillers, by project; whether
    metrics, the writer, the reader and the approval verifier are wired;
    [meta.RemoveStatusCondition]; html.UnescapeString and strings.EqualFold. *)
Context (parse : string -> option string) (Quote : string -> string)
  (issueSize : Issue -> option Z) (mrSize : MergeRequest -> option Z) (taskSize : Task -> option Z)
  (sp : Project -> option (Spiller Comment)) (notes : Project -> option (Spiller Note))
  (m scmFor readerFor approval : bool)
  (RemoveStatusCondition : list Condition -> string -> list Condition)
  (UnescapeString : string -> string) (EqualFold : string -> string -> bool).

Definition without_outcome (t : Task) : Task :=
  on_status t (fun s => s <| Conditions := RemoveStatusCondition (Conditions s) ConditionOutcomeAccepted |>).

Definition release (o : outcomeCtx) : Http outcomeCtx :=
  if negb (oc_claimed o) then go_on o
  else
    let? _ := best_effort (on_conflict
                (let? fresh := api (GetTask Cached (oc_name o)) in
                 if own_claim (oc_fp o) fresh then write (UpdateTaskStatus (without_outcome fresh)) else ok tt)) in
    go_on (with_claim false o).

(** A refusal of the request, with its reason counted. *)
Definition refuse {A} (status : Z) (o : outcomeCtx) (reason : string) : Http A :=
  let? o := release o in
  let? _ := count "rest_outcome_rejected" [oc_kind o; reason] in
  answer (Reply status ErrorText).

Definition bad {A} (o : outcomeCtx) (reason : string) : Http A := refuse 400 o reason.
Definition conflict {A} (o : outcomeCtx) (reason : string) : Http A := refuse 409 o reason.

(** ** The forge of a project *)

Definition metric (name : string) (labels : list string) : Http unit := if m then count name labels else go_on tt.

(** The provider as it is set.  [RecordSCM] runs only where a writer was found, so that there is
    one, and [provider_of], which it uses, is the same. *)
Definition providerOf (proj : Project) : string := match proj_Scm proj with Some s => scm_Provider s | None => "" end.

Definition resolveProjectSCMProviderToken (proj : Project) : Http string :=
  if providerOf proj == "" then answer (Reply 409 ErrorText)
  else or_client (api (SecretToken (proj_ScmSecretRef proj))).

Definition projectSCMWriterAndToken (proj : Project) : Http unit :=
  if negb scmFor then answer (Reply 501 ErrorText)
  else
    let? token := resolveProjectSCMProviderToken proj in
    Do ForgeWriter (fun wired : bool =>
      if negb wired then answer (Reply 500 ErrorText)
      else if token == "" then answer (Reply 500 ErrorText) else go_on tt).

Definition projectSCMReader (proj : Project) : Http unit :=
  if negb readerFor then answer (Reply 501 ErrorText)
  else
    let? _ := resolveProjectSCMProviderToken proj in
    Do ForgeReader (fun wired : bool => if negb wired then answer (Reply 500 ErrorText) else go_on tt).

Definition fit_mr (o : outcomeCtx) (mr : MergeRequest) (f : MergeRequest -> MergeRequest) : Io unit :=
  let? _ := fitMergeRequest mrSize (sp (oc_proj o)) (mr_Name mr) f in ok tt.

Definition fit_issue (proj : Project) (iss : Issue) (f : Issue -> Issue) : Io unit :=
  let? _ := fitIssue issueSize (sp proj) (iss_Name iss) f in ok tt.

(** ** The commit *)

(** What a commit does to the Task it reads: the mutation, and with it the condition, stamped
    as committed or, on a refusal, dropped where it is our claim.  A mutation that fails leaves
    the Task as it was. *)
Definition commit_closure (o : outcomeCtx) (mutate : Time -> Task -> result StageError Task) (refusal : bool) (now : Time)
    (t : Task) : Task :=
  match mutate now t with
  | Err _ => t
  | Ok t => if refusal then if own_claim (oc_fp o) t then without_outcome t else t
            else setCondition (outcome_condition (oc_kind o) (oc_fp o) now) t
  end.

(** The copies the closure runs on: the first read, then those of the attempts that were made,
    each after the ones before it have met a conflict. *)
Definition closure_runs (cap : bool) (f : Task -> Task) (o : outcomeCtx) (reads : list (GetAnswer Task))
    (attempts : list (Attempt Task)) : list Task :=
  match getWaitingOutCreateLag reads with
  | None => []
  | Some cur =>
      let comes k := match fst (FitTask taskSize (notes (oc_proj o)) cap reads f (firstn k attempts)) with
                     | Err ConflictsExhausted => true
                     | _ => false
                     end in
      cur :: omap (fun k => if comes k then match nth_error attempts k with Some a => at_fresh a | None => None end else None)
               (seq 0 5)
  end.

(** The captured error: that of the last run that failed; a later success does not clear it. *)
Definition mut_error (mutate : Task -> result StageError Task) (runs : list Task) : option StageError :=
  fold_left (fun e t => match mutate t with Err x => Some x | Ok _ => e end) runs None.

(** One guarded write of the outcome; the clock is read once for all runs of the closure. *)
Definition commit_fit (cap : bool) (o : outcomeCtx) (mutate : Time -> Task -> result StageError Task) (refusal : bool)
  : Prog Call (result FitError Task * option StageError) :=
  Do TimeNow (fun now =>
  Do (TaskAnswers (oc_name o)) (fun '(reads, attempts) =>
    let f := commit_closure o mutate refusal now in
    let '(r, es) := FitTask taskSize (notes (oc_proj o)) cap reads f attempts in
    Do (TaskEffects (oc_name o) es) (fun _ =>
      Ret (r, mut_error (mutate now) (closure_runs cap f o reads attempts))))).

Definition spill_error (r : result FitError Task) : bool :=
  match r with Err ErrSpillFailed | Err ErrSpillerUnconfigured => true | _ => false end.

(** With the cap on notes; without it where the cap alone could not have its spill. *)
Definition commit_write (o : outcomeCtx) (mutate : Time -> Task -> result StageError Task) (refusal : bool)
  : Prog Call (result FitError Task * option StageError) :=
  let! (r, e) := commit_fit true o mutate refusal in
  match e with
  | None => if spill_error r then commit_fit false o mutate refusal else Ret (r, e)
  | Some _ => Ret (r, e)
  end.

(** What follows a write that was stored: the counters, and the pod that goes with a park. *)
Definition committed (o : outcomeCtx) (refusal : bool) (w : Task) : Http outcomeCtx :=
  let from := State (Status (oc_task o)) in
  let parked := (ParkReason (Status w) != "") && (ParkReason (Status (oc_task o)) == "") in
  let? _ := (if (from == "") || negb (TaskIsTerminalOutcome (State (Status w))) then go_on tt
             else metric "task_terminal" [Kind (Spec (oc_task o)); State (Status w); StateReason (Status w)]) in
  let? _ := (if parked then metric "task_parked" [from; ParkReason (Status w)] else go_on tt) in
  let? _ := (if parked then best_effort (delete_wrapper (oc_task o)) else go_on tt) in
  let o := moved_to o w in
  go_on (if refusal then with_claim false o else o).

Definition commitAs (o : outcomeCtx) (mutate : Time -> Task -> result StageError Task) (refusal : bool) : Http outcomeCtx :=
  let? o := claim o in
  let! (r, e) := commit_write o mutate refusal in
  match e with
  | Some (IllegalTransition _ _) => conflict o "illegal-transition"
  | Some _ => answer (Reply 500 ErrorText)
  | None =>
      match r with
      | Err ErrSpillFailed | Err ErrSpillerUnconfigured => answer (Reply 503 ErrorText)
      | Err ErrObjectTooLarge =>
          let? _ := count "rest_outcome_rejected" [oc_kind o; ReasonObjectTooLarge] in
          Do TimeNow (fun wall =>
            let? _ := best_effort (write (PatchFailed (oc_task o) ReasonObjectTooLarge wall)) in
            answer (Reply 507 ErrorText))
      | Err e => answer (ClientErr (FitFault e))
      | Ok w => committed o refusal w
      end
  end.

Definition commit (o : outcomeCtx) (mutate : Time -> Task -> result StageError Task) : Http outcomeCtx := commitAs o mutate false.
Definition commitRefusal (o : outcomeCtx) (mutate : Time -> Task -> result StageError Task) : Http outcomeCtx := commitAs o mutate true.

(** A transition, then a note. *)
Definition enter_noting (mrs : list MergeRequest) (to reason kind text : string) (now : Time) (t : Task) : result StageError Task :=
  match Enter t mrs to reason now with Ok t => Ok (agentNote kind "note" text now t) | Err e => Err e end.

Definition park_noting (reason kind text : string) (now : Time) (t : Task) : result StageError Task :=
  match Park t reason now with Ok t => Ok (agentNote kind "note" text now t) | Err e => Err e end.

(** ** The accepted answers *)

Definition okay (o : outcomeCtx) (action : string) : Http Response :=
  let? fresh := or_client (getTaskCR (oc_name o)) in
  let? _ := count "rest_outcome_accepted" [oc_kind o; action] in
  go_on (Reply 200 (TaskDTO fresh)).

Definition okGranted (o : outcomeCtx) (action : string) : Http Response :=
  let? fresh := or_client (getTaskCR (oc_name o)) in
  let? _ := count "rest_outcome_accepted" [oc_kind o; action] in
  go_on (Reply 200 (gateGrantedResponse fresh)).

Definition noop (o : outcomeCtx) (label reason : string) : Http Response :=
  let? o := release o in
  let? _ := count "rest_outcome_accepted" [oc_kind o; label] in
  go_on (Reply 200 (NoopResponse reason)).

Definition terminalNoop (o : outcomeCtx) : Http Response := noop o "mr-terminal-noop" "mr-terminal".
Definition takenOverNoop (o : outcomeCtx) : Http Response := noop o "mr-taken-over-noop" "mr-taken-over".

Definition refuseGate (o : outcomeCtx) (reason declared : string) : Http Response :=
  let? _ := count "rest_outcome_accepted" [oc_kind o; "gate-refused"]%string in
  go_on (Reply 200 (gateResponse reason declared)).

(** Work that has shipped already: the Task goes to [merged], its pod with it.  [None] where
    this is not the case. *)
Definition deliverShippedMRs (o : outcomeCtx) (mrs : list MergeRequest) : Http (option Response) :=
  match OwnMRsShippedEdge (oc_task o) mrs with
  | None => go_on None
  | Some edge =>
      if (To edge != StateMerged) || negb (LegalFor (Some (oc_task o)) mrs (State (Status (oc_task o))) (To edge)) then go_on None
      else
        let? o := claim o in
        let order := match MergeOrder (Spec (oc_task o)) with [] => ownedMRRepos mrs | l => l end in
        let? _ := or_client (updateTaskSpec (oc_name o) (fun t => t <| Spec ::= fun s => s <| MergeOrder := order |> |>)) in
        let? o := commit o (enter_noting mrs (To edge) (Reason edge) (oc_kind o)
                    "delivered: every merge request this task opened had already merged on the forge") in
        let? _ := best_effort (delete_wrapper (oc_task o)) in
        let? r := okay o "shipped-externally" in
        go_on (Some r)
  end.

(** ** The ship gate *)

Definition fail_open (f : ShipGateFailOpen) : Http unit :=
  count "approval_ship_gate_fail_open" [match f with ShipGateReadProject => "project" | ShipGateReadIssues => "issues" end]%string.

(** The verdict on the reads that were made. *)
Definition ship_verdict (t : Task) (significance : string) : Prog Call (list ShipBlocker) :=
  let verdict get proj issues :=
    let '(blockers, opened) := shipVerdict get (Some t) proj issues significance in
    let! _ := foreach opened fail_open in Ret blockers in
  if negb (shipGateApplies (Some t)) then Ret []
  else
    let! p := getProjectCR (ProjectRef (Spec t)) in
    match p with
    | Err _ => verdict (fun _ => None) None None
    | Ok proj =>
        let! l := controlledIssues t in
        match l with
        | Err _ => verdict (fun _ => None) (Some proj) None
        | Ok issues => Do ApprovalReads (fun '(get, _) => verdict get (Some proj) (Some issues))
        end
    end.

Definition approvalRequiredReason : string := "approval-required".

Definition writeApprovalRequired (kind : string) (blockers : list ShipBlocker) : Http Response :=
  let? _ := count "rest_ownership_refused" [approvalRequiredReason] in
  let? _ := (if kind != "" then count "rest_outcome_rejected" [kind; approvalRequiredReason] else go_on tt) in
  go_on (Reply 409 (approvalRequiredBody blockers)).

(** The first Issue whose evidence pins another plan. *)
Definition plan_drifted (task : Task) (iss : Issue) : bool :=
  match iss_Approval (iss_Status iss) with
  | None => false
  | Some ev =>
      if ae_PlanHash ev == "" then false
      else match planNote task with None => false | Some note => notePlanHash (n_Body note) != ae_PlanHash ev end
  end.

Definition planPinRefusal (task : Task) : Http bool :=
  let! l := controlledIssues task in
  match l with
  | Err _ => go_on false
  | Ok issues => if existsb (plan_drifted task) issues
                 then let? _ := metric "approval_refused" [ApprovalRefusedPlanHashMismatch] in go_on true
                 else go_on false
  end.

(** ** Readiness *)

Definition blockerCIRed : string := "ci-red".
Definition blockerConflict : string := "conflict".
Definition blockerUnresolvedReview : string := "unresolved-review".

Definition unresolvedChangeRequest (mr : MergeRequest) (liveHead : string) : bool :=
  (mr_StatusWord (mr_Status mr) == "needs-changes") && (mr_ReviewedSHA (mr_Status mr) != "") && (liveHead != "")
  && (liveHead == mr_ReviewedSHA (mr_Status mr)).

(** The required checks are asked for where the answer turns on them. *)
Definition red_suppressed (url : string) (number : Z) (ms : string) : Prog Call bool :=
  if ms != MergeStateUnstable then Ret (fst (CIRedSuppressed None ms))
  else Do (RequiredChecks url number) (fun l => Ret (fst (CIRedSuppressed l ms))).

(** One merge request; [None] where it is over. *)
Definition judge_mr (o : outcomeCtx) (changeRequests : bool) (mr : MergeRequest) : Io (option MRReadiness) :=
  let? repo := repoCR (proj_Name (oc_proj o)) (mrs_RepositoryRef (mr_Spec mr)) in
  let url := repo_URL repo in
  let number := mrs_Number (mr_Spec mr) in
  let? st := forge (GetPRState url number) in
  if prs_Merged st || prs_Closed st then ok None
  else
    Do (GetMergeState url number) (fun ms =>
    let! suppressed := (match ms with
                        | Ok ms => if prs_CIStatus st == "failure" then red_suppressed url number ms else Ret false
                        | Err _ => Ret false
                        end) in
    let red := (prs_CIStatus st == "failure") && negb suppressed in
    let dirty := match ms with Ok ms => ms == MergeStateDirty | Err _ => false end in
    let unresolved := changeRequests && unresolvedChangeRequest mr (prs_HeadSHA st) in
    ok (Some (mkMRReadiness (mrs_RepositoryRef (mr_Spec mr)) number (prs_HeadSHA st)
                ((if red then [blockerCIRed] else []) ++ (if dirty then [blockerConflict] else [])
                 ++ (if unresolved then [blockerUnresolvedReview] else []))%list
                (prs_CIStatus st == "pending")))).

Fixpoint judge_mrs (o : outcomeCtx) (changeRequests : bool) (mrs : list MergeRequest) : Io (list MRReadiness) :=
  match mrs with
  | [] => ok []
  | mr :: rest =>
      let? r := judge_mr o changeRequests mr in
      let? l := judge_mrs o changeRequests rest in
      ok (match r with Some r => r :: l | None => l end)
  end.

(** [None]: the forge could not be read, and the caller goes on. *)
Definition evaluateReadiness (o : outcomeCtx) (open : list MergeRequest) (changeRequests : bool)
  : Prog Call (option (list MRReadiness)) :=
  let! wired := discarding (projectSCMWriterAndToken (oc_proj o)) in
  if negb wired then Ret None
  else let! r := judge_mrs o changeRequests open in Ret (match r with Ok l => Some l | Err _ => None end).

Definition blocked_mrs (rd : list MRReadiness) : list MRReadiness :=
  List.filter (fun r => match rdy_blockers r with [] => false | _ => true end) rd.

(** The axes that refuse, sorted. *)
Definition axes_of (rd : list MRReadiness) : list string :=
  List.filter (fun a => existsb (fun r => str_mem (rdy_blockers r) a) rd) [blockerCIRed; blockerConflict; blockerUnresolvedReview].

Definition refuseNotReady (o : outcomeCtx) (rd : list MRReadiness) : Http unit :=
  match blocked_mrs rd with
  | [] => go_on tt
  | blocked =>
      let? _ := count "rest_outcome_rejected" [oc_kind o; sprintf ["not-ready:"; str_join "+" (axes_of rd)]]%string in
      let? _ := release o in
      answer (Reply 409 (prNotReadyResponse blocked))
  end.

Definition anyCIPending (rd : list MRReadiness) : bool := existsb rdy_ciPending rd.
Definition ciRedRefused (rd : list MRReadiness) : bool := existsb (fun r => str_mem (rdy_blockers r) blockerCIRed) rd.

(** ** The evidence of a red *)

Definition decline_evidence (record : bool) (ci heads : string) (t : Task) : Task :=
  t <| Annotations ::= fun a =>
    if record then <[AnnDeclineHeads := heads]> (<[AnnDeclineCI := ci]> a)
    else delete AnnDeclineHeads (delete AnnDeclineCI a) |>.

Definition stampDeclineCIEvidence (o : outcomeCtx) (mrs : list MergeRequest) : Http unit :=
  let '(ci, heads) := CIDeclineEvidence mrs in
  best_effort (updateTaskSpec (oc_name o) (decline_evidence (ci != "") ci heads)).

Definition recordCIRedRefusal (o : outcomeCtx) (mrs : list MergeRequest) (refused : bool) : Http unit :=
  let '(ci, heads) := CIDeclineEvidence mrs in
  let record := refused && (ci == CIEvidenceRed) && (heads != "") in
  let anns := Annotations (oc_task o) in
  if negb record && negb (is_set (anns !! AnnDeclineCI)) && negb (is_set (anns !! AnnDeclineHeads)) then go_on tt
  else best_effort (updateTaskSpec (oc_name o) (decline_evidence record CIEvidenceRed heads)).

(** ** The outcome of a change *)

(** The head the forge has after the submit is the last the bot has pushed. *)
Definition record_bot_head (o : outcomeCtx) (mr : MergeRequest) : Io unit :=
  let? repo := repoCR (proj_Name (oc_proj o)) (mrs_RepositoryRef (mr_Spec mr)) in
  let? live := forge (GetPRHead (repo_URL repo) (mrs_Number (mr_Spec mr))) in
  if live == "" then ok tt
  else let! r := fit_mr o mr (fun x => x <| mr_Status ::= fun s => s <| mr_LastBotHeadSHA := live |> |>) in
       match r with
       | Ok _ => ok tt
       | Err _ => tell (Count "mirror_write_dropped" [proj_Name (oc_proj o); "MergeRequest"; "record_bot_head"]%string)
       end.

Definition record_bot_heads (o : outcomeCtx) (open : list MergeRequest) : Http unit :=
  let! wired := discarding (projectSCMWriterAndToken (oc_proj o)) in
  if wired then foreach open (fun mr => best_effort (record_bot_head o mr)) else go_on tt.

Definition clampTitleForForge (site raw : string) : Http string :=
  let sent := ClampIssueTitle raw in
  if sent == raw then go_on sent else let? _ := count "rest_title_clamped" [site] in go_on sent.

Definition edit_mr (o : outcomeCtx) (title body : string) (mr : MergeRequest) : Io unit :=
  if mr_Ownership (mr_Status mr) == OwnershipExternal then ok tt
  else
    let? repo := repoCR (proj_Name (oc_proj o)) (mrs_RepositoryRef (mr_Spec mr)) in
    Do (EditPR (repo_URL repo) (mrs_Number (mr_Spec mr)) title body) (fun a =>
    let? _ := RecordSCM m (oc_proj o) "edit_pr" a in
    if negb (scm_ok a) then ok tt
    else
      let! r := fit_mr o mr (fun x => x <| mr_Status ::= fun s =>
                  s <| mr_Title := title |> <| mr_Body := TruncateUTF8 body MergeRequestBodyMaxBytes |> |>) in
      match r with
      | Ok _ => ok tt
      | Err _ => tell (Count "mirror_write_dropped" [proj_Name (oc_proj o); "MergeRequest"; "mr_edit"]%string)
      end).

Definition editSubmittedMRs (o : outcomeCtx) (open : list MergeRequest) (rawTitle body : string) : Http unit :=
  let? title := clampTitleForForge "mr_edit" rawTitle in
  let! wired := discarding (projectSCMWriterAndToken (oc_proj o)) in
  if wired then foreach open (fun mr => best_effort (edit_mr o title body mr)) else go_on tt.

(** The Tasks a documentation batch covers, but for those that are gone. *)
Definition stampDocumentedBy (o : outcomeCtx) : Io unit :=
  foreach (DocumentsTasks (Spec (oc_task o))) (fun name =>
    let? covered := found (api (GetTask Cached name)) in
    match covered with
    | None => ok tt
    | Some _ => let? _ := fitTask taskSize (notes (oc_proj o)) name
                            (fun t => on_status t (fun s => s <| DocumentedBy := oc_name o |>)) in ok tt
    end).

Definition gate_fields (p : implementPayload) : bool :=
  (ip_ApprovingMaintainer p != "") || (ip_PlanNoteID p != "") || negb (match ip_ApprovalCitations p with [] => true | _ => false end).

Definition blank (s : string) : bool := TrimSpace s == "".

(** What is wrong with the payload of a change: the reason it is refused for. *)
Definition implement_fault (p : implementPayload) : option string :=
  let fault :=
    if ip_Action p == "submitted" then
      if blank (ip_Title p) || blank (ip_Body p) || blank (ip_ChangeSignificance p) then Some "missing-field"%string
      else if negb (validChangeSignificance (ip_ChangeSignificance p)) then Some "bad-significance"%string
      else if ip_Reason p != "" then Some "unexpected-field"%string else None
    else if ip_Action p == "declined" then if blank (ip_Reason p) then Some "missing-field"%string else None
    else Some "bad-action"%string in
  match fault with
  | Some f => Some f
  | None => if gate_fields p then Some "unexpected-field"%string else None
  end.

Definition sent_back (mrs : list MergeRequest) (now : Time) (t : Task) : result StageError Task := Enter t mrs StateRefined "" now.

(** What an implement Task must have passed to ship: the answer where it has not. *)
Definition ship_gate (o : outcomeCtx) (mrs : list MergeRequest) (p : implementPayload) : Http (option Response) :=
  if State (Status (oc_task o)) == StateRefined then
    let! blockers := ship_verdict (oc_task o) (ip_ChangeSignificance p) in
    let? r := writeApprovalRequired (oc_kind o) blockers in go_on (Some r)
  else
    let? drifted := planPinRefusal (oc_task o) in
    if drifted then
      let? o := commitRefusal o (sent_back mrs) in
      let? r := refuseGate o ApprovalRefusedPlanHashMismatch "" in go_on (Some r)
    else
      let! blockers := ship_verdict (oc_task o) (ip_ChangeSignificance p) in
      match blockers with
      | [] => go_on None
      | _ =>
          let? o := commitRefusal o (sent_back mrs) in
          let? r := writeApprovalRequired (oc_kind o) blockers in go_on (Some r)
      end.

Definition declined (o : outcomeCtx) (mrs : list MergeRequest) (p : implementPayload) : Http Response :=
  let text := String.append "declined: " (ip_Reason p) in
  if oc_kind o == "documentation" then
    let? o := commit o (enter_noting mrs StateDone ReasonDocTimeout (oc_kind o) text) in
    let? _ := or_client (stampDocumentedBy o) in
    okay o "declined"
  else
    let? o := commit o (park_noting ReasonImplementDeclined (oc_kind o) text) in
    let? _ := stampDeclineCIEvidence o mrs in
    okay o "declined".

(** No merge request is open: delivered already, over, handed over, or never opened. *)
Definition nothing_open (o : outcomeCtx) (mrs : list MergeRequest) (deliver : bool) : Http Response :=
  let handed_over :=
    let? over := or_client (MRRefsHandedOver Cached (oc_task o)) in
    if over then takenOverNoop o else bad o "no-open-mr" in
  if mrTerminalStates mrs then
    let? shipped := (if deliver then deliverShippedMRs o mrs else go_on None) in
    match shipped with Some r => go_on r | None => terminalNoop o end
  else handed_over.

(** The order of the merges, or the fault of the payload's. *)
Definition merge_order (repos given : list string) : result string (list string) :=
  match repos, given with
  | [_], [] => Ok repos
  | _, [] => Err "merge-order-missing"%string
  | _, _ => if forallb (str_mem given) repos then Ok given else Err "merge-order-coverage"%string
  end.

Definition submit_note (p : implementPayload) : string :=
  sprintf ["submitted: "; ip_Title p; newline; newline; ip_Body p].

(** The transition of a submit, or the hold for a CI that has not answered. *)
Definition submit_mutate (hold : bool) (mrs : list MergeRequest) (kind text : string) (now : Time) (t : Task) : result StageError Task :=
  if hold then Ok (agentNote kind "note" text now (on_status t (fun s => s <| CIWaitSince := Some now |>)))
  else enter_noting mrs StateAwaitingReview "" kind text now t.

Definition with_significance (sig : string) (mr : MergeRequest) : MergeRequest :=
  mr <| mr_Status ::= fun s => s <| mr_Significance := sig |> |>.

(** The writes of an accepted submit. *)
Definition submit (o : outcomeCtx) (mrs open : list MergeRequest) (order : list string) (hold : bool) (p : implementPayload)
  : Http Response :=
  let? o := claim o in
  let? _ := or_client (foreach open (fun mr => fit_mr o mr (with_significance (ip_ChangeSignificance p)))) in
  let? _ := or_client (updateTaskSpec (oc_name o) (fun t => t <| Spec ::= fun s => s <| MergeOrder := order |> |>)) in
  let? o := commit o (submit_mutate hold mrs (oc_kind o) (submit_note p)) in
  let? _ := record_bot_heads o open in
  let? _ := editSubmittedMRs o open (ip_Title p) (ip_Body p) in
  okay o "submitted".

Definition submitted (o : outcomeCtx) (mrs : list MergeRequest) (p : implementPayload) : Http Response :=
  let open := openMRs mrs in
  match ownedMRRepos open with
  | [] => nothing_open o mrs true
  | repos =>
      match merge_order repos (ip_MergeOrder p) with
      | Err fault => bad o fault
      | Ok order =>
          let! rd := evaluateReadiness o open true in
          let? _ := (match rd with
                     | None => go_on tt
                     | Some rd => let? _ := recordCIRedRefusal o mrs (ciRedRefused rd) in refuseNotReady o rd
                     end) in
          submit o mrs open order (match rd with Some rd => anyCIPending rd | None => false end) p
      end
  end.

Definition implement (o : outcomeCtx) (p : implementPayload) : Http Response :=
  match implement_fault p with
  | Some fault => bad o fault
  | None =>
      let? mrs := or_client (controlledMRs (oc_task o)) in
      let? refused := (if (ip_Action p == "submitted") && (oc_kind o == "implement") then ship_gate o mrs p else go_on None) in
      match refused with
      | Some r => go_on r
      | None => if ip_Action p == "declined" then declined o mrs p else submitted o mrs p
      end
  end.

(** ** The outcome of a review *)

Definition mrKey (repo : string) (number : Z) : string := sprintf [repo; "!"; FormatInt number].
Definition mr_key (mr : MergeRequest) : string := mrKey (mrs_RepositoryRef (mr_Spec mr)) (mrs_Number (mr_Spec mr)).

Definition mrKeyOwned (mrs : list MergeRequest) (key : string) : bool := existsb (fun mr => mr_key mr == key) mrs.

Definition reviewBody (verdict : string) : string :=
  if verdict == "approve" then "## Review: approved" else "## Review: changes requested".

Definition reviewOutcomeVerdictLabel (verdict : string) : string :=
  if verdict == "approve" then "approved" else "changes_requested".

Definition findingsFor (l : list reviewFindingPayload) (repo : string) (number : Z) : list ReviewFinding :=
  map (fun f => mkReviewFinding (fp_Path f) (fp_Line f) (TruncateUTF8 (fp_Body f) ReviewFindingBodyMaxBytes) (fp_Severity f))
    (List.filter (fun f => (fp_Repo f == repo) && (fp_Number f =? number)) l).

Definition review_fault (p : reviewPayload) : option string :=
  let fault :=
    if rp_Verdict p == "approve" then None
    else if rp_Verdict p == "request_changes" then
      match rp_Findings p with [] => Some "missing-findings"%string | _ => None end
    else Some "bad-verdict"%string in
  match fault with
  | Some f => Some f
  | None =>
      if (rp_ChangeSignificance p != "") && negb (validChangeSignificance (rp_ChangeSignificance p)) then Some "bad-significance"%string
      else match rp_ReviewedSHAs p with [] => Some "missing-reviewed-shas"%string | _ => None end
  end.

(** The heads the agent reports, by merge request: the last one counts. *)
Definition reported_heads (l : list reviewedSHA) : gmap string string :=
  fold_left (fun r rs => <[mrKey (rs_Repo rs) (rs_Number rs) := rs_SHA rs]> r) l ∅.

(** Total coverage, and nothing beside it. *)
Definition coverage_fault (open : list MergeRequest) (l : list reviewedSHA) : option string :=
  if existsb (fun rs => (rs_Repo rs == "") || (rs_Number rs =? 0) || (rs_SHA rs == "")) l then Some "bad-reviewed-sha"%string
  else if existsb (fun mr => negb (is_set (reported_heads l !! mr_key mr))) open then Some "review-coverage"%string
  else if existsb (fun rs => negb (mrKeyOwned open (mrKey (rs_Repo rs) (rs_Number rs)))) l then Some "reviewed-sha-unowned"%string
  else None.

Definition reported_head (l : list reviewedSHA) (mr : MergeRequest) : string := default ""%string (reported_heads l !! mr_key mr).

(** The head has moved: the mirror follows it, and nothing is stamped. *)
Definition head_moved (o : outcomeCtx) (repo : Repository) (mr : MergeRequest) (reviewed live : string) : Http unit :=
  let? _ := projectSCMReader (oc_proj o) in
  let? _ := best_effort (SyncMergeRequestOnDemand parse mrSize (sp (oc_proj o)) (oc_proj o) repo mr live) in
  let? _ := count "rest_outcome_rejected" [oc_kind o; "head-moved"]%string in
  let? _ := metric "review_head_moved" [mrs_RepositoryRef (mr_Spec mr)] in
  let? _ := release o in
  answer (Reply 409 (headMovedResponse (mrs_RepositoryRef (mr_Spec mr)) (mrs_Number (mr_Spec mr)) reviewed live)).

Definition live_heads (o : outcomeCtx) (open : list MergeRequest) (l : list reviewedSHA) : Http unit :=
  foreach open (fun mr =>
    let? repo := or_client (repoCR (proj_Name (oc_proj o)) (mrs_RepositoryRef (mr_Spec mr))) in
    Do (GetPRHead (repo_URL repo) (mrs_Number (mr_Spec mr))) (fun r =>
      match r with
      | Err _ => answer (Reply 502 ErrorText)
      | Ok live => if live != reported_head l mr then head_moved o repo mr (reported_head l mr) live else go_on tt
      end)).

Definition significance_rank (s : string) : Z := default 0 (tbl SignificanceRank s).

(** The intent of the review, which the reconciler posts; a significance may only rise. *)
Definition intend_review (p : reviewPayload) (sha : string) (findings : list ReviewFinding) (mr : MergeRequest) : MergeRequest :=
  mr <| mr_Status ::= fun s =>
    let round := i64 (mr_ReviewRounds s + 1) in
    let s := s <| mr_ReviewedSHA := sha |>
               <| mr_PendingReview := Some (mkPendingReview (reviewBody (rp_Verdict p)) findings sha round) |> in
    let s := if rp_Verdict p == "approve" then s <| mr_StatusWord := "approved"%string |>
             else s <| mr_StatusWord := "needs-changes"%string |> <| mr_ReviewRounds := round |> in
    if (rp_ChangeSignificance p != "") && (significance_rank (mr_Significance s) <? significance_rank (rp_ChangeSignificance p))
    then s <| mr_Significance := rp_ChangeSignificance p |> else s |>.

Definition persist_review (o : outcomeCtx) (p : reviewPayload) (mr : MergeRequest) : Http unit :=
  let repo := mrs_RepositoryRef (mr_Spec mr) in
  let? _ := or_client (fit_mr o mr (intend_review p (reported_head (rp_ReviewedSHAs p) mr)
                                      (findingsFor (rp_Findings p) repo (mrs_Number (mr_Spec mr))))) in
  metric "review_outcome" [proj_Name (oc_proj o); repo; proj_Model (oc_proj o); reviewOutcomeVerdictLabel (rp_Verdict p)].

Definition review_mutate (kind verdict : string) (now : Time) (t : Task) : result StageError Task :=
  Ok (agentNote kind "note" (String.append "review: " verdict) now t).

Definition reviewed (o : outcomeCtx) (open : list MergeRequest) (p : reviewPayload) : Http Response :=
  let? o := claim o in
  let? _ := foreach open (persist_review o p) in
  let? o := commit o (review_mutate (oc_kind o) (rp_Verdict p)) in
  okay o (rp_Verdict p).

Definition review (o : outcomeCtx) (p : reviewPayload) : Http Response :=
  match review_fault p with
  | Some fault => bad o fault
  | None =>
      let? all := or_client (controlledMRs (oc_task o)) in
      match openMRs all with
      | [] => nothing_open o all false
      | open =>
          match coverage_fault open (rp_ReviewedSHAs p) with
          | Some fault => bad o fault
          | None =>
              let? _ := projectSCMWriterAndToken (oc_proj o) in
              let? _ := live_heads o open (rp_ReviewedSHAs p) in
              let? _ := (if rp_Verdict p == "approve" then
                           let! rd := evaluateReadiness o open false in
                           match rd with Some rd => refuseNotReady o rd | None => go_on tt end
                         else go_on tt) in
              reviewed o open p
          end
      end
  end.

End Outcome.

(** ** The claims of many requests *)

Module Lease.

(** Requests for outcomes of one Task: the fingerprint of each and the instant its claim is
    taken at. *)
Record Request := mkRequest { rq_fp : string; rq_at : Time }.

(** Where the claim of a request stands: before its read, with the copy it has read and the
    version of it, held, or not. *)
Inductive Phase := Looking | Holding (version : nat) (copy : Task) | Won | Lost.

(** The Task on the server, and the claims that were taken, the latest first. *)
Record Config := mkConfig { version : nat; task : Task; phase : nat -> Phase; wins : list nat }.

(** What the server keeps of a time. *)
Definition to_second (t : Time) : Time := t - t `mod` Second.

Definition stored_condition (c : Condition) : Condition :=
  mkCondition (c_Type c) (c_Status c) (c_Reason c) (to_second (c_LastTransitionTime c)) (c_Message c).

Definition stored (t : Task) : Task := on_status t (fun s => s <| Conditions ::= map stored_condition |>).

Definition at_phase (c : Config) (i : nat) (p : Phase) : nat -> Phase := fun j => if Nat.eqb i j then p else phase c j.

(** The read and the update of [claimOutcomeFingerprint], its conflict, its end without a
    claim, and any write that leaves the condition alone. *)
Inductive step (rq : nat -> Request) (c : Config) : Config -> Prop :=
  | step_read i : phase c i = Looking -> classifyOutcomeClaim (task c) (rq_fp (rq i)) (rq_at (rq i)) = claimWon ->
      step rq c (mkConfig (version c) (task c) (at_phase c i (Holding (version c) (task c))) (wins c))
  | step_update i t : phase c i = Holding (version c) t ->
      step rq c (mkConfig (S (version c)) (stored (claimed_by (rq_fp (rq i)) (rq_at (rq i)) t)) (at_phase c i Won) (i :: wins c))
  | step_conflict i v t : phase c i = Holding v t -> v <> version c ->
      step rq c (mkConfig (version c) (task c) (at_phase c i Looking) (wins c))
  | step_lose i : step rq c (mkConfig (version c) (task c) (at_phase c i Lost) (wins c))
  | step_other t : OutcomeCondition t = OutcomeCondition (task c) ->
      step rq c (mkConfig (S (version c)) t (phase c) (wins c)).

Inductive reachable (rq : nat -> Request) (t0 : Task) : Config -> Prop :=
  | start : reachable rq t0 (mkConfig 0 t0 (fun _ => Looking) [])
  | next c c' : reachable rq t0 c -> step rq c c' -> reachable rq t0 c'.

(** The condition is the claim of the latest winner; a copy that is held is of its version. *)
Definition held_by (rq : nat -> Request) (i : nat) (t : Task) : Prop :=
  OutcomeCondition t = Some (stored_condition (outcome_condition "" (rq_fp (rq i)) (rq_at (rq i)))).

Definition invariant (rq : nat -> Request) (c : Config) : Prop :=
  (forall i v t, phase c i = Holding v t -> (v <= version c)%nat)
  /\ (forall i t, phase c i = Holding (version c) t ->
        OutcomeCondition t = OutcomeCondition (task c) /\ classifyOutcomeClaim t (rq_fp (rq i)) (rq_at (rq i)) = claimWon)
  /\ match wins c with [] => True | i :: _ => held_by rq i (task c) end.

(** Each claim of the log was free of the one right before it. *)
Fixpoint spaced (rq : nat -> Request) (l : list nat) : Prop :=
  match l with
  | j :: ((i :: _) as rest) =>
      (rq_fp (rq j) = rq_fp (rq i) -> OutcomeClaimTTL <= Sub (rq_at (rq j)) (to_second (rq_at (rq i)))) /\ spaced rq rest
  | _ => True
  end.

End Lease.

(** ** What the theorems say *)

(** The calls that change an object of the API server, a pod or the forge. *)
Definition is_write {X} (c : Call X) : bool :=
  match c with
  | CreateTask _ | UpdateTask _ | UpdateTaskStatus _ | DeleteTask _ | PatchFailed _ _ _ | TaskEffects _ _
  | CreateIssue _ | UpdateIssue _ | UpdateIssueStatus _ | DeleteIssue _ | IssueEffects _ _
  | CreateMergeRequest _ | UpdateMergeRequest _ | MergeRequestEffects _ _ | UpdateProjectStatus _
  | DeletePodNamed _ | DeleteServiceNamed _ | DeletePVCNamed _ | CreatePod _ _ | CreateService _ | CreatePVC _
  | StageEffects _ _ | UnparkEffects _ _ | StopEffects _ _ | ExitEffects _ _ | CorridorEffects _ _ | QueueEffects _
  | PostReview _ _ _ _ | CloseIssue _ _ _ | EditIssue _ _ _ _ | PostComment _ _ | AddLabel _ _ | RemoveLabel _ _
  | ClosePR _ _ _ | DeleteBranch _ _ | EditPR _ _ _ _ | OpenIssue _ _ _ _ | AddSubIssue _ _ => true
  | _ => false
  end.

(** The claim of a fingerprint has been stored. *)
Definition claim_taken (fp : string) (past : list (Did Call)) : Prop :=
  exists t, In (did (UpdateTaskStatus t) None) past /\ own_claim fp t = true.

(** The write that takes it. *)
Definition takes_claim (fp : string) (d : Did Call) : Prop :=
  exists t x, d = did (UpdateTaskStatus t) x /\ own_claim fp t = true.

(** The evidence of a red, on the annotations of the Task. *)
Definition keeps_evidence (d : Did Call) : Prop :=
  exists record ci heads t x, d = did (UpdateTask (decline_evidence record ci heads t)) x.

(** The mirror of a merge request, after the read of a live head. *)
Definition follows_head (past : list (Did Call)) (d : Did Call) : Prop :=
  (exists name es x, d = did (MergeRequestEffects name es) x)
  /\ exists url number head, In (did (GetPRHead url number) (Ok head)) past.

(** A write comes behind the claim, but for the claim itself and the two of a refusal. *)
Definition behind_claim (fp : string) (past : list (Did Call)) (d : Did Call) : Prop :=
  is_write (did_call d) = true -> claim_taken fp past \/ takes_claim fp d \/ keeps_evidence d \/ follows_head past d.

(** A review that is written names the head that the forge has just answered for this merge
    request, one of those that were listed. *)
Definition review_of_live_head (past : list (Did Call)) (d : Did Call) : Prop :=
  forall name fx x mr', d = did (MergeRequestEffects name fx) x -> In (Updated mr') fx ->
  exists l mr repo pr, In (did (ListMergeRequests Cached) (Ok l)) past /\ In mr l /\ mr_Name mr = name
    /\ In (did (GetRepository (mrs_RepositoryRef (mr_Spec mr))) (Ok repo)) past
    /\ In (did (GetPRHead (repo_URL repo) (mrs_Number (mr_Spec mr))) (Ok (mr_ReviewedSHA (mr_Status mr')))) past
    /\ mr_PendingReview (mr_Status mr') = Some pr /\ pr_SHA pr = mr_ReviewedSHA (mr_Status mr').

(** The answer to a head that has moved. *)
Definition is_head_moved {A} (r : result Response A) : bool :=
  match r with Err (Reply _ (headMovedResponse _ _ _ _)) => true | _ => false end.

(** What a commit may store of a Task: the result of the mutation together with the record of
    the outcome; or the Task as it was, where the mutation has failed on it. *)
Definition stamped_together (fp : string) (mutate : Time -> Task -> result StageError Task) (d : Did Call) : Prop :=
  forall name fx x t', d = did (TaskEffects name fx) x -> In (Updated t') fx ->
  exists now fresh, match mutate now fresh with
    | Ok t => State (Status t') = State (Status t) /\ ParkReason (Status t') = ParkReason (Status t)
              /\ forall later, classifyOutcomeClaim t' fp later = claimCommitted
    | Err _ => trimmed fresh t'
    end.

(** *** Samples *)

Definition sample_task : Task := zero_Task <| task_Name := "t"%string |> <| task_UID := "u"%string |>.

Definition sample_owner (t : Task) : list OwnerReference :=
  [mkOwnerReference groupVersion taskKind (task_Name t) (task_UID t) (Some true) (Some true)].

Definition sample_mr : MergeRequest :=
  zero_MergeRequest <| mr_Name := "m"%string |> <| mr_OwnerReferences := sample_owner sample_task |>
    <| mr_Spec := mkMergeRequestSpec "r" 1 "" "" |>.

Definition sample_repo : Repository := mkRepository "r" "https://github.com/o/r" "main" None None "" ∅.

Definition sample_project : Project := zero_Project <| proj_Scm := Some (mkScmSpec "github" "bot" [] [] "" "" 0 "" None "" "" "") |>.

Definition sample_context (kind : string) : outcomeCtx := mkOutcomeCtx sample_task sample_project "fp" kind false false.

(** The merge request is open, its head is [h], and every write is stored at once. *)
Definition review_world : World Call := fun _ X c =>
  match c in Call X return X with
  | ListMergeRequests _ => Ok [sample_mr]
  | GetRepository _ => Ok sample_repo
  | GetPRHead _ _ => Ok "h"%string
  | GetTask _ _ => Ok sample_task
  | MergeRequestAnswers _ => ([ObjBudget.Found sample_mr], [mkAttempt (Some sample_mr) UpdateOk])
  | TaskAnswers _ => ([ObjBudget.Found sample_task], [mkAttempt (Some sample_task) UpdateOk])
  | c => nowhere c
  end.

Definition sample_approve : reviewPayload := mkReviewPayload "approve" "" [mkReviewedSHA "r" 1 "h"] [].

(** The review of the sample, everything wired and every object small. *)
Definition sample_review : Http Response :=
  review Some (fun _ => Some 0) (fun _ => Some 0) (fun _ => None) (fun _ => None) true true true (fun l _ => l)
    (sample_context "review") sample_approve.

(** A brainstorm at its work, the copy of it that a cache may still have, and the run of a commit
    that reads that copy first and updates the other. *)
Definition sample_working : Task :=
  on_status (sample_task <| Spec ::= fun s => s <| Kind := "brainstorm"%string |> |>) (fun s => s <| State := StateRefined |>).

Definition sample_stale : Task := on_status sample_working (fun s => s <| State := StateNew |>).

Definition stale_world : World Call := fun _ X c =>
  match c in Call X return X with
  | GetTask _ _ => Ok sample_working
  | TaskAnswers _ => ([ObjBudget.Found sample_stale], [mkAttempt (Some sample_working) UpdateOk])
  | c => nowhere c
  end.

Definition sample_finish : Http outcomeCtx :=
  commit (fun _ => Some 0) (fun _ => None) true (fun l _ => l) (sample_context "brainstorm")
    (enter_noting [] StateDone "" "brainstorm" "skip").

(** ** Lemmas *)

Lemma upsert_condition_find (c : Condition) l : List.find (fun d => c_Type d == c_Type c) (upsert_condition c l) = Some c.
Proof.
  induction l as [|d l IH]; cbn; [by rewrite String.eqb_refl|].
  destruct (String.eqb_spec (c_Type d) (c_Type c)) as [E|E]; cbn; [by rewrite String.eqb_refl|].
  destruct (String.eqb_spec (c_Type d) (c_Type c)); [done|exact IH].
Qed.

Lemma OutcomeCondition_set kind fp now t :
  OutcomeCondition (setCondition (outcome_condition kind fp now) t) = Some (outcome_condition kind fp now).
Proof. exact (upsert_condition_find (outcome_condition kind fp now) (Conditions (Status t))). Qed.

Section LeaseLemmas.

Import Lease.

Lemma OutcomeCondition_stored t : OutcomeCondition (stored t) = option_map stored_condition (OutcomeCondition t).
Proof.
  unfold OutcomeCondition. cbn. induction (Conditions (Status t)) as [|d l IH]; [done|]. cbn.
  destruct (c_Type d == ConditionOutcomeAccepted); [done|exact IH].
Qed.

Lemma at_phase_other c i p j : j <> i -> at_phase c i p j = phase c j.
Proof. intros H. unfold at_phase. destruct (Nat.eqb_spec i j); congruence. Qed.

Lemma at_phase_same c i p : at_phase c i p i = p.
Proof. unfold at_phase. by rewrite Nat.eqb_refl. Qed.

(** What holds of every request's phase but for the one that moves. *)
Lemma at_phase_holding c i p j v t : at_phase c i p j = Holding v t -> (j = i /\ p = Holding v t) \/ phase c j = Holding v t.
Proof. unfold at_phase. destruct (Nat.eqb_spec i j); auto. Qed.

Lemma step_invariant rq c c' : invariant rq c -> step rq c c' -> invariant rq c'.
Proof.
  intros (Hv & Hh & Hw) Hs. destruct Hs as [i Hl Hc|i t Hp|i v t Hp Hne|i|t Ht]; unfold invariant; cbn [version task phase wins].
  - split; [|split; [|exact Hw]].
    + intros j v t H. apply at_phase_holding in H as [[-> [= <- <-]]|H]; [done|by apply Hv in H].
    + intros j t H. apply at_phase_holding in H as [[-> [= <-]]|H]; [done|by apply Hh].
  - split; [|split].
    + intros j v t' H. apply at_phase_holding in H as [[_ [=]]|H]. apply Hv in H. lia.
    + intros j t' H. apply at_phase_holding in H as [[_ [=]]|H]. apply Hv in H. lia.
    + unfold held_by, claimed_by. by rewrite OutcomeCondition_stored, OutcomeCondition_set.
  - split; [|split; [|exact Hw]]; intros j *; intros H; apply at_phase_holding in H as [[_ [=]]|H]; eauto.
  - split; [|split; [|exact Hw]]; intros j *; intros H; apply at_phase_holding in H as [[_ [=]]|H]; eauto.
  - split; [|split].
    + intros j v t' H. apply Hv in H. lia.
    + intros j t' H. apply Hv in H. lia.
    + destruct (wins c); [done|]. unfold held_by. by rewrite Ht.
Qed.

Lemma reachable_invariant rq t0 c : reachable rq t0 c -> invariant rq c.
Proof. induction 1; [by repeat split|by eapply step_invariant]. Qed.

(** A claim that is free although the last one was of the same outcome comes after its end. *)
Lemma free_after rq i j t : held_by rq i t -> rq_fp (rq j) = rq_fp (rq i) ->
  classifyOutcomeClaim t (rq_fp (rq j)) (rq_at (rq j)) = claimWon ->
  OutcomeClaimTTL <= Sub (rq_at (rq j)) (to_second (rq_at (rq i))).
Proof.
  intros Hh Hf. unfold classifyOutcomeClaim. rewrite Hh. cbn. rewrite Hf, String.eqb_refl. cbn.
  destruct (Z.ltb_spec (Sub (rq_at (rq j)) (to_second (rq_at (rq i)))) OutcomeClaimTTL); [done|lia].
Qed.

Lemma reachable_spaced rq t0 c : reachable rq t0 c -> spaced rq (wins c).
Proof.
  induction 1 as [|c c' Hr IH Hs]; [done|]. apply reachable_invariant in Hr as (_ & Hh & Hw).
  destruct Hs as [| i t Hp | | |]; try exact IH. cbn [wins]. destruct (wins c) as [|k rest]; [done|].
  split; [|exact IH]. intros Hf. destruct (Hh i t Hp) as [Ht Hc]. apply (free_after rq k i t); [|done|done].
  unfold held_by. by rewrite Ht.
Qed.

Lemma gap (rq : nat -> Request) i j : OutcomeClaimTTL <= Sub (rq_at (rq j)) (to_second (rq_at (rq i))) ->
  rq_at (rq i) + (OutcomeClaimTTL - Second) < rq_at (rq j).
Proof.
  unfold to_second, Sub, two63. pose proof (Z.mod_pos_bound (rq_at (rq i)) Second ltac:(unfold Second; lia)).
  change OutcomeClaimTTL with (300 * Second). change Second with 1000000000 in *. lia.
Qed.

Lemma spaced_gap (rq : nat -> Request) l2 : forall l1 j i l3, spaced rq (l1 ++ j :: l2 ++ i :: l3) ->
  rq_fp (rq j) = rq_fp (rq i) -> Forall (fun k => rq_fp (rq k) = rq_fp (rq i)) l2 ->
  rq_at (rq i) + (OutcomeClaimTTL - Second) < rq_at (rq j).
Proof.
  intros l1. induction l1 as [|x l1 IH1].
  - induction l2 as [|k l2 IH]; intros j i l3 Hs Hf Hl; cbn in Hs.
    + destruct Hs as [Hg _]. apply gap, Hg, Hf.
    + destruct Hs as [Hg Hs]. inversion_clear Hl as [|? ? Hk Hl']. specialize (IH k i l3 Hs Hk Hl').
      specialize (Hg ltac:(congruence)). apply gap in Hg. change OutcomeClaimTTL with (300 * Second) in *.
      change Second with 1000000000 in *. lia.
  - intros j i l3 Hs. apply (IH1 j i l3). destruct l1; cbn in *; tauto.
Qed.

End LeaseLemmas.

(** *** What comes behind the claim *)

Definition quiet (d : Did Call) : Prop := is_write (did_call d) = false.

Lemma quiet_behind fp past d : quiet d -> behind_claim fp past d.
Proof. unfold quiet, behind_claim. by intros ->. Qed.

Lemma claim_taken_app fp past es : claim_taken fp past -> claim_taken fp (past ++ es).
Proof. intros (t & Hin & Ht). exists t. split; [apply in_or_app; by left|done]. Qed.

Lemma taken_free fp past es : claim_taken fp past -> guarded (behind_claim fp) past es.
Proof.
  intros H. apply (guarded_once _ (claim_taken fp)); [by left|by intros; apply claim_taken_app|done].
Qed.

(** Goes on only with the claim taken. *)
Definition leads {A} (fp : string) (p : Http A) : Prop :=
  forall past, does p (fun r es => guarded (behind_claim fp) past es /\ forall a, r = Ok a -> claim_taken fp (past ++ es)).

Lemma leads_always {A} fp (p : Http A) : leads fp p -> always (behind_claim fp) p.
Proof. intros H past. eapply does_mono; [|exact (H past)]. by intros r es [? _]. Qed.

Lemma leads_try {A B} fp (p : Http A) (f : A -> Http B) : leads fp p -> leads fp (try p f).
Proof.
  intros H past. apply does_bind. eapply does_mono; [|exact (H past)]. intros [a|e] es [Hg Ht]; cbn.
  - specialize (Ht a eq_refl). eapply does_mono; [|apply does_True]. intros r es' _. split.
    + apply guarded_app. split; [done|by apply taken_free].
    + intros _ _. rewrite app_assoc. by apply claim_taken_app.
  - rewrite app_nil_r. by split.
Qed.

Lemma leads_then {A B} fp (p : Http A) (f : A -> Http B) : leads fp p -> always (behind_claim fp) (try p f).
Proof. intros H. by apply leads_always, leads_try. Qed.

Lemma always_do {A X} P (c : Call X) (k : X -> Prog Call A) :
  (forall past x, P past (did c x)) -> (forall x, always P (k x)) -> always P (Do c k).
Proof. intros Hc Hk past x. eapply does_mono; [|exact (Hk x (past ++ [did c x]))]. intros a es H. by split. Qed.

Lemma own_claim_claimed fp now t : own_claim fp (claimed_by fp now t) = true.
Proof. unfold own_claim, claimed_by. rewrite OutcomeCondition_set. cbn. by rewrite !String.eqb_refl. Qed.

(** The tries of the claim. *)
Lemma claim_tries fp name now n : forall past,
  does (on_error n IsConflict
          (let? fresh := api (GetTask Cached name) in
           match classifyOutcomeClaim fresh fp now with
           | claimWon => let? _ := write (UpdateTaskStatus (claimed_by fp now fresh)) in ok (claimed_by fp now fresh, claimWon)
           | st => ok (fresh, st)
           end))
    (fun r es => guarded (behind_claim fp) past es /\ forall t, r = Ok (t, claimWon) -> claim_taken fp (past ++ es)).
Proof.
  set (body := (let? fresh := api (GetTask Cached name) in _)).
  assert (forall past, does body (fun r es => guarded (behind_claim fp) past es /\ forall t, r = Ok (t, claimWon) -> claim_taken fp (past ++ es))) as Hb.
  { intros past [fresh|e]; unfold ok, fail; cbn [bind]; [|split; [split; [by apply quiet_behind|done]|done]].
    destruct (classifyOutcomeClaim fresh fp now); [|split; [split; [by apply quiet_behind|done]|done]..].
    intros x. assert (guarded (behind_claim fp) past [did (GetTask Cached name) (Ok fresh); did (UpdateTaskStatus (claimed_by fp now fresh)) x]) as Hg.
    { split; [by apply quiet_behind|]. split; [|done]. intros _. right; left. eexists _, _. split; [done|apply own_claim_claimed]. }
    destruct x as [e|]; (split; [exact Hg|]); [done|].
    intros t _. exists (claimed_by fp now fresh). split; [|apply own_claim_claimed]. apply in_or_app. right. right. by left. }
  induction n as [|n IH]; [exact Hb|]. intros past. cbn [on_error]. apply does_bind. eapply does_mono; [|exact (Hb past)].
  intros [a|e] es [Hg Ht]; cbn.
  - rewrite app_nil_r. by split.
  - destruct (IsConflict e); cbn; [|rewrite app_nil_r; by split].
    eapply does_mono; [|exact (IH (past ++ es))]. intros r es' [Hg' Ht']. split; [by apply guarded_app|].
    intros t Hr. rewrite app_assoc. by apply (Ht' t).
Qed.

Lemma claim_leads o : oc_claimed o = false -> leads (oc_fp o) (claim o).
Proof.
  unfold claim. intros -> past now. apply does_bind, does_bind. unfold claimOutcomeFingerprint.
  eapply does_mono; [|exact (claim_tries (oc_fp o) (oc_name o) now 4 (past ++ [did TimeNow now]))].
  assert (behind_claim (oc_fp o) past (did TimeNow now)) as Hq by by apply quiet_behind.
  intros [[t st]|e] es [Hg Ht]; cbn; [|by rewrite !app_nil_r].
  destruct st; cbn; rewrite ?app_nil_r; [|done|].
  - split; [done|]. intros a _. specialize (Ht t eq_refl). rewrite <- app_assoc in Ht. exact Ht.
  - intros x. split; [|done]. split; [done|]. apply guarded_app. split; [done|]. split; [by apply quiet_behind|done].
Qed.

(** One step into a program that may not write yet. *)
Ltac look := idtac; match goal with
  | |- quiet _ => reflexivity
  | |- always _ (go_on _) => apply always_ret
  | |- always _ (answer _) => apply always_ret
  | |- always _ (Ret _) => apply always_ret
  | |- always (behind_claim ?fp) (try (claim _) _) => apply leads_then, claim_leads; assumption
  | |- always (behind_claim ?fp) (try _ _) => apply always_try; [|intros ?]
  | |- always (behind_claim ?fp) (bind _ _) => apply always_bind; [|intros ?]
  | |- always (behind_claim ?fp) (Do _ _) => apply always_do; [intros ? ?; apply quiet_behind; reflexivity|intros ?]
  | |- always _ (let '(_, _) := ?x in _) => destruct x
  | |- always _ (if ?b then _ else _) => destruct b eqn:?
  | |- always _ (match ?x with _ => _ end) => destruct x eqn:?
  end.

Lemma always_quiet {A} fp (p : Prog Call A) : each quiet p -> always (behind_claim fp) p.
Proof. apply always_free. intros past d. apply quiet_behind. Qed.

#[export] Hint Resolve always_ret : go_db.

Lemma insert_named_In {A} (name : A -> string) a b l : In a (insert_named name b l) <-> a = b \/ In a l.
Proof.
  induction l as [|c l IH]; cbn; [intuition congruence|]. destruct (String.leb _ _); cbn; [intuition congruence|]. rewrite IH. intuition congruence.
Qed.

Lemma owned_named_iff {A} `{Artifact A} t (l : list A) a : In a (owned_named t l) <-> In a l /\ owned_by t a = true.
Proof.
  unfold owned_named. rewrite <- List.filter_In. unfold sort_named.
  induction (List.filter (owned_by t) l) as [|b l' IH]; cbn; [done|]. rewrite insert_named_In. intuition congruence.
Qed.

Section Behind.

Context (parse : string -> option string) (mrSize : MergeRequest -> option Z) (taskSize : Task -> option Z)
  (sp : Project -> option (Spiller Comment)) (notes : Project -> option (Spiller Note)) (m scmFor readerFor : bool)
  (RemoveStatusCondition : list Condition -> string -> list Condition).

Lemma release_unclaimed o : oc_claimed o = false -> release RemoveStatusCondition o = go_on o.
Proof. unfold release. by intros ->. Qed.

Lemma refuse_behind {A} status o reason : oc_claimed o = false -> always (behind_claim (oc_fp o)) (refuse RemoveStatusCondition (A := A) status o reason).
Proof. intros Ho. unfold refuse. rewrite release_unclaimed by done. unfold count. repeat look. Qed.

Lemma commitAs_leads o mutate refusal : oc_claimed o = false ->
  leads (oc_fp o) (commitAs taskSize notes m RemoveStatusCondition o mutate refusal).
Proof. intros Ho. by apply leads_try, claim_leads. Qed.

Lemma quiet_or_client {A} (p : Io A) : each quiet p -> each quiet (or_client p).
Proof. intros Hp. apply keeps_bind; [apply closed_Forall|exact Hp|]. intros [a|e]; apply keeps_ret, closed_Forall. Qed.

Lemma quiet_count name labels : each quiet (count name labels).
Proof. apply keeps_do; [apply closed_Forall| |]; intros; [by repeat constructor|by apply keeps_ret, closed_Forall]. Qed.

Lemma quiet_metric name labels : each quiet (metric m name labels).
Proof. unfold metric. destruct m; [apply quiet_count|by apply keeps_ret, closed_Forall]. Qed.

Lemma quiet_foreach {A} (l : list A) (f : A -> Http unit) : (forall a, each quiet (f a)) -> each quiet (foreach l f).
Proof. intros Hf. apply keeps_foreach; [apply closed_Forall|]. intros a _. apply Hf. Qed.

(** A step into a program that only reads and counts. *)
Ltac reads := repeat first
  [ apply quiet_or_client | apply quiet_count | apply quiet_metric | apply quiet_foreach; intros ?
  | progress unfold go_on, answer, each
  | keep_step ltac:(repeat constructor) ].

Lemma quiet_controlledIssues t : each quiet (controlledIssues t).
Proof. unfold controlledIssues. reads. Qed.

Lemma quiet_controlledMRs t : each quiet (controlledMRs t).
Proof. unfold controlledMRs. reads. Qed.

Lemma quiet_repoCR p r : each quiet (repoCR p r).
Proof. unfold repoCR. reads. Qed.

Lemma quiet_ship_verdict t sig : each quiet (ship_verdict t sig).
Proof.
  unfold ship_verdict, getProjectCR, fail_open. destruct (negb _); [reads|].
  apply keeps_bind; [apply closed_Forall|reads|]. intros [proj|e]; [|destruct (shipVerdict _ _ _ _ _); reads].
  apply keeps_bind; [apply closed_Forall|apply quiet_controlledIssues|].
  intros [l|e]; [|destruct (shipVerdict _ _ _ _ _); reads].
  apply keeps_do; [apply closed_Forall|by repeat constructor|]. intros [get wall]. destruct (shipVerdict _ _ _ _ _). reads.
Qed.

Lemma quiet_planPinRefusal t : each quiet (planPinRefusal m t).
Proof.
  unfold planPinRefusal. apply keeps_bind; [apply closed_Forall|apply quiet_controlledIssues|]. intros [l|e]; reads.
Qed.

Lemma quiet_writer proj : each quiet (projectSCMWriterAndToken scmFor proj).
Proof. unfold projectSCMWriterAndToken, resolveProjectSCMProviderToken. reads. Qed.

Lemma quiet_discarding {A} (p : Http A) : each quiet p -> each quiet (discarding p).
Proof. intros Hp. apply keeps_bind; [apply closed_Forall|exact Hp|]. intros. apply keeps_ret, closed_Forall. Qed.

Lemma quiet_judge_mrs o cr mrs : each quiet (judge_mrs o cr mrs).
Proof.
  induction mrs as [|mr mrs IH]; cbn [judge_mrs]; [reads|]. apply keeps_try; [apply closed_Forall| |].
  - unfold judge_mr, red_suppressed. apply keeps_try; [apply closed_Forall|apply quiet_repoCR|]. intros repo. reads.
  - intros r. apply keeps_try; [apply closed_Forall|exact IH|]. intros; reads.
Qed.

Lemma quiet_evaluateReadiness o open cr : each quiet (evaluateReadiness scmFor o open cr).
Proof.
  unfold evaluateReadiness. apply keeps_bind; [apply closed_Forall|apply quiet_discarding, quiet_writer|]. intros [|]; cbn [negb]; [|reads].
  apply keeps_bind; [apply closed_Forall|apply quiet_judge_mrs|]. intros [l|e]; reads.
Qed.

Lemma quiet_handed_over v t refs : each quiet (refs_handed_over v t refs).
Proof.
  induction refs as [|name refs IH]; cbn [refs_handed_over]; [reads|]. apply keeps_try; [apply closed_Forall|reads|].
  intros [mr|]; [|reads]. destruct (ControllerOwner _); [|reads]. destruct (_ == _); [reads|].
  apply keeps_try; [apply closed_Forall|reads|]. intros x. destruct (is_set x); [exact IH|reads].
Qed.

Lemma quiet_MRRefsHandedOver t : each quiet (MRRefsHandedOver Cached t).
Proof. unfold MRRefsHandedOver. destruct (MRRefs (Status t)); [reads|apply quiet_handed_over]. Qed.

Lemma refuseNotReady_behind o rd : oc_claimed o = false -> always (behind_claim (oc_fp o)) (refuseNotReady RemoveStatusCondition o rd).
Proof. intros Ho. unfold refuseNotReady. rewrite release_unclaimed by done. unfold count. repeat look. Qed.

Lemma noop_behind o label reason : oc_claimed o = false -> always (behind_claim (oc_fp o)) (noop RemoveStatusCondition o label reason).
Proof. intros Ho. unfold noop. rewrite release_unclaimed by done. unfold count. repeat look. Qed.

Lemma recordCIRedRefusal_behind fp o mrs refused : always (behind_claim fp) (recordCIRedRefusal o mrs refused).
Proof.
  unfold recordCIRedRefusal. destruct (CIDeclineEvidence mrs) as [ci heads]. destruct (_ && _); [apply always_ret|].
  unfold best_effort. apply always_bind; [|intros; apply always_ret]. unfold updateTaskSpec.
  assert (each (fun d => quiet d \/ keeps_evidence d)
            (on_conflict (let? t := api (GetTask Cached (oc_name o)) in
               write (UpdateTask (decline_evidence (refused && (ci == CIEvidenceRed) && (heads != "")) CIEvidenceRed heads t))))) as H.
  { apply keeps_on_conflict; [apply closed_Forall|]. apply keeps_try; [apply closed_Forall| |].
    - apply keeps_api; [apply closed_Forall|]. intros. constructor; [by left|done].
    - intros t. apply keeps_write; [apply closed_Forall|]. intros. constructor; [|done]. right. by eexists _, _, _, _, _. }
  apply (always_free _ (fun d => quiet d \/ keeps_evidence d)); [|exact H]. intros past d [Hd|Hd]; [by apply quiet_behind|]. intros _. auto.
Qed.

Lemma commit_then {A} o mutate refusal (k : outcomeCtx -> Http A) : oc_claimed o = false ->
  always (behind_claim (oc_fp o)) (try (commitAs taskSize notes m RemoveStatusCondition o mutate refusal) k).
Proof. intros Ho. by apply leads_then, commitAs_leads. Qed.

Lemma claim_then {A} o (k : outcomeCtx -> Http A) : oc_claimed o = false -> always (behind_claim (oc_fp o)) (try (claim o) k).
Proof. intros Ho. by apply leads_then, claim_leads. Qed.

Lemma reading_then {A B} fp (p : Http A) (k : A -> Http B) :
  each quiet p -> (forall a, always (behind_claim fp) (k a)) -> always (behind_claim fp) (try p k).
Proof. intros Hp Hk. apply always_try; [by apply always_quiet|done]. Qed.

Lemma reading_with {A B} fp (p : Prog Call A) (k : A -> Http B) :
  each quiet p -> (forall a, always (behind_claim fp) (k a)) -> always (behind_claim fp) (bind p k).
Proof. intros Hp Hk. apply always_bind; [by apply always_quiet|done]. Qed.

Lemma writeApprovalRequired_quiet kind blockers : each quiet (writeApprovalRequired kind blockers).
Proof. unfold writeApprovalRequired. reads. Qed.

Lemma ship_gate_behind o mrs p : oc_claimed o = false ->
  always (behind_claim (oc_fp o)) (ship_gate taskSize notes m RemoveStatusCondition o mrs p).
Proof.
  intros Ho. unfold ship_gate. destruct (_ == _).
  - apply reading_with; [apply quiet_ship_verdict|]. intros blockers. apply always_quiet.
    apply keeps_try; [apply closed_Forall|apply writeApprovalRequired_quiet|]. intros; reads.
  - apply reading_then; [apply quiet_planPinRefusal|]. intros [|]; [by apply commit_then|].
    apply reading_with; [apply quiet_ship_verdict|]. intros [|b l]; [apply always_ret|by apply commit_then].
Qed.

Lemma deliverShippedMRs_behind o mrs : oc_claimed o = false ->
  always (behind_claim (oc_fp o)) (deliverShippedMRs taskSize notes m RemoveStatusCondition o mrs).
Proof.
  intros Ho. unfold deliverShippedMRs. destruct (OwnMRsShippedEdge _ _); [|apply always_ret].
  destruct (_ || _); [apply always_ret|by apply claim_then].
Qed.

Lemma nothing_open_behind o mrs deliver : oc_claimed o = false ->
  always (behind_claim (oc_fp o)) (nothing_open taskSize notes m RemoveStatusCondition o mrs deliver).
Proof.
  intros Ho. unfold nothing_open, terminalNoop, takenOverNoop. destruct (mrTerminalStates mrs).
  - apply always_try; [destruct deliver; [by apply deliverShippedMRs_behind|apply always_ret]|].
    intros [r|]; [apply always_ret|by apply noop_behind].
  - apply reading_then; [apply quiet_or_client, quiet_MRRefsHandedOver|]. intros [|]; [by apply noop_behind|by apply refuse_behind].
Qed.

Lemma submitted_behind o mrs p : oc_claimed o = false ->
  always (behind_claim (oc_fp o)) (submitted mrSize taskSize sp notes m scmFor RemoveStatusCondition o mrs p).
Proof.
  intros Ho. unfold submitted. destruct (ownedMRRepos _) as [|r l]; [by apply nothing_open_behind|].
  destruct (merge_order _ _); [|by apply refuse_behind]. apply reading_with; [apply quiet_evaluateReadiness|]. intros rd.
  apply always_try; [|intros _; by apply claim_then]. destruct rd; [|apply always_ret].
  apply always_try; [apply recordCIRedRefusal_behind|]. intros _. by apply refuseNotReady_behind.
Qed.

Lemma implement_behind o p : oc_claimed o = false ->
  always (behind_claim (oc_fp o)) (implement mrSize taskSize sp notes m scmFor RemoveStatusCondition o p).
Proof.
  intros Ho. unfold implement. destruct (implement_fault p); [by apply refuse_behind|].
  apply reading_then; [apply quiet_or_client, quiet_controlledMRs|]. intros mrs. apply always_try.
  - destruct (_ && _); [by apply ship_gate_behind|apply always_ret].
  - intros [r|]; [apply always_ret|]. destruct (_ == _); [|by apply submitted_behind].
    unfold declined. destruct (_ == _); by apply commit_then.
Qed.

(** *** The mirror that follows a head *)

Definition mirrors (d : Did Call) : Prop := quiet d \/ exists name es x, d = did (MergeRequestEffects name es) x.

Lemma mirrors_fit size s name f : each mirrors (fitMergeRequest size s name f).
Proof. apply keeps_fitMergeRequest; [apply closed_Forall| |]; intros; (constructor; [|done]); [by left|right; eauto]. Qed.

Lemma quiet_mirrors {A} (p : Prog Call A) : each quiet p -> each mirrors p.
Proof. intros H. eapply does_mono; [|exact H]. intros a es. apply List.Forall_impl. by left. Qed.

(** A step into a program that reads, counts and follows a thread. *)
Ltac mirror_steps := repeat first
  [ apply mirrors_fit
  | progress unfold go_on, answer, each
  | keep_step ltac:(first [by repeat constructor | constructor; [by left|done]]) ].

Lemma mirrors_sync s proj repo mr live : each mirrors (SyncMergeRequestOnDemand parse mrSize s proj repo mr live).
Proof.
  unfold SyncMergeRequestOnDemand, syncMergeRequestThread, counting_failure, recordMirrorSyncFailure, list_thread, owner_repo, mirrorComments.
  mirror_steps. destruct x; mirror_steps.
Qed.

Lemma mirrors_head_moved o repo mr reviewed live : oc_claimed o = false ->
  each mirrors (head_moved parse mrSize sp m readerFor RemoveStatusCondition o repo mr reviewed live).
Proof.
  intros Ho. unfold head_moved. rewrite release_unclaimed by done. unfold projectSCMReader, resolveProjectSCMProviderToken.
  apply keeps_try; [apply closed_Forall|apply quiet_mirrors; reads|]. intros _.
  apply keeps_try; [apply closed_Forall|apply keeps_bind; [apply closed_Forall|apply mirrors_sync|intros; reads]|]. intros _.
  apply quiet_mirrors. reads.
Qed.

Definition head_read (past : list (Did Call)) : Prop := exists url number head, In (did (GetPRHead url number) (Ok head)) past.

Lemma mirrors_follow fp past es : head_read past -> Forall mirrors es -> guarded (behind_claim fp) past es.
Proof.
  apply (guarded_each _ head_read).
  - intros past' d Hh [Hd|Hd]; [by apply quiet_behind|]. intros _. right; right; right. by split.
  - intros past' d (url & n & h & Hin). exists url, n, h. apply in_or_app. by left.
Qed.

Lemma live_heads_behind o open l : oc_claimed o = false ->
  always (behind_claim (oc_fp o)) (live_heads parse mrSize sp m readerFor RemoveStatusCondition o open l).
Proof.
  intros Ho. unfold live_heads. apply always_foreach. intros mr _.
  apply reading_then; [apply quiet_or_client, quiet_repoCR|]. intros repo past [live|e].
  - destruct (_ != _); [|by split; [apply quiet_behind|]].
    eapply does_mono; [|apply mirrors_head_moved, Ho]. intros r es Hes. split; [by apply quiet_behind|].
    apply mirrors_follow; [|exact Hes]. eexists _, _, live. apply in_or_app. right. by left.
  - by split; [apply quiet_behind|].
Qed.

Lemma review_behind o p : oc_claimed o = false ->
  always (behind_claim (oc_fp o)) (review parse mrSize taskSize sp notes m scmFor readerFor RemoveStatusCondition o p).
Proof.
  intros Ho. unfold review. destruct (review_fault p); [by apply refuse_behind|].
  apply reading_then; [apply quiet_or_client, quiet_controlledMRs|]. intros all.
  destruct (openMRs all) as [|mr l]; [by apply nothing_open_behind|].
  destruct (coverage_fault _ _); [by apply refuse_behind|].
  apply reading_then; [apply quiet_writer|]. intros _.
  apply always_try; [by apply live_heads_behind|]. intros _.
  apply always_try; [|intros _; by apply claim_then]. destruct (_ == _); [|apply always_ret].
  apply reading_with; [apply quiet_evaluateReadiness|]. intros [rd|]; [by apply refuseNotReady_behind|apply always_ret].
Qed.

(** *** What a write has stored *)

Lemma In_written {Obj Item} (o : Obj) (es : list (FitEffect Obj Item)) : In (Updated o) es -> In o (written es).
Proof. intros Hin. apply list_elem_of_In, list_elem_of_omap. exists (Updated o). split; [by apply list_elem_of_In|done]. Qed.

(** A guarded write stores the closure's result on what it read last, up to the trim. *)
Lemma stored_by_writes_last {Obj Item} (trim : Obj -> Obj -> Prop) mutate attempts r (es : list (FitEffect Obj Item)) o :
  writes_last trim mutate attempts (r, es) -> In (Updated o) es -> exists fresh, trim (mutate fresh) o.
Proof.
  intros H Hin%In_written. destruct r as [o'|e]; cbn in H; [|by rewrite H in Hin].
  destruct H as (Hw & fresh & _ & _ & Ht). rewrite Hw in Hin. destruct Hin as [->|[]]. by exists fresh.
Qed.

(** *** A review and its heads *)

(** Every call but the write of a merge request. *)
Definition is_mr_write {X} (c : Call X) : bool := match c with MergeRequestEffects _ _ => true | _ => false end.
Definition still (d : Did Call) : Prop := is_mr_write (did_call d) = false.

Lemma quiet_still {A} (p : Prog Call A) : each quiet p -> each still p.
Proof.
  intros H. eapply does_mono; [|exact H]. intros a es. apply List.Forall_impl. intros [X c x] Hq. by destruct c.
Qed.

Lemma still_reviews past d : still d -> review_of_live_head past d.
Proof. intros Hs name fx x mr' ->. discriminate. Qed.

(** A step into a program that writes no merge request. *)
Ltac stills := repeat first [ progress unfold go_on, answer, each, count, metric | keep_step ltac:(repeat constructor) ].

Lemma still_claim o : each still (claim o).
Proof. unfold claim, or_client, claimOutcomeFingerprint, in_flight_answer. stills. Qed.

Lemma still_release o : each still (release RemoveStatusCondition o).
Proof. unfold release, best_effort. stills. Qed.

Lemma still_refuse {A} status o reason : each still (refuse RemoveStatusCondition (A := A) status o reason).
Proof. unfold refuse. apply keeps_try; [apply closed_Forall|apply still_release|]. intros. stills. Qed.

Lemma still_commitAs o mutate refusal : each still (commitAs taskSize notes m RemoveStatusCondition o mutate refusal).
Proof.
  unfold commitAs, conflict. apply keeps_try; [apply closed_Forall|apply still_claim|]. intros o'.
  apply keeps_bind; [apply closed_Forall|unfold commit_write, commit_fit; stills|]. intros [r e].
  destruct e as [[]|]; [apply still_refuse|stills..|]. destruct r as [w|[]]; try (unfold best_effort; stills).
  unfold committed, best_effort, delete_wrapper. stills.
Qed.

Lemma still_okay o action : each still (okay o action).
Proof. unfold okay, or_client, getTaskCR. stills. Qed.

Lemma still_noop o label reason : each still (noop RemoveStatusCondition o label reason).
Proof. unfold noop. apply keeps_try; [apply closed_Forall|apply still_release|]. intros. stills. Qed.

Lemma still_nothing_open o mrs : each still (nothing_open taskSize notes m RemoveStatusCondition o mrs false).
Proof.
  unfold nothing_open, terminalNoop, takenOverNoop. destruct (mrTerminalStates mrs).
  - apply keeps_try; [apply closed_Forall|stills|]. intros [r|]; [stills|apply still_noop].
  - apply keeps_try; [apply closed_Forall|apply quiet_still, quiet_or_client, quiet_MRRefsHandedOver|].
    intros [|]; [apply still_noop|apply still_refuse].
Qed.

Lemma still_refuseNotReady o rd : each still (refuseNotReady RemoveStatusCondition o rd).
Proof.
  unfold refuseNotReady. destruct (blocked_mrs rd); [stills|]. apply keeps_try; [apply closed_Forall|stills|].
  intros _. apply keeps_try; [apply closed_Forall|apply still_release|]. intros. stills.
Qed.

(** The head of a listed merge request as the forge has answered it. *)
Definition head_answered (past : list (Did Call)) (mr : MergeRequest) (sha : string) : Prop :=
  exists l repo, In (did (ListMergeRequests Cached) (Ok l)) past /\ In mr l
    /\ In (did (GetRepository (mrs_RepositoryRef (mr_Spec mr))) (Ok repo)) past
    /\ In (did (GetPRHead (repo_URL repo) (mrs_Number (mr_Spec mr))) (Ok sha)) past.

Lemma head_answered_app past es mr sha : head_answered past mr sha -> head_answered (past ++ es) mr sha.
Proof. intros (l & repo & H1 & H2 & H3 & H4). exists l, repo. split_and!; [apply in_or_app; by left|done|apply in_or_app; by left..]. Qed.

(** Runs that keep to the live heads, from a state of which [E] is known and which only grows. *)
Definition careful {A} (past : list (Did Call)) (p : Http A) : Prop :=
  does p (fun r es => is_head_moved r = true \/ guarded review_of_live_head past es).

Lemma careful_still {A} past (p : Http A) : each still p -> careful past p.
Proof.
  intros H. eapply does_mono; [|exact H]. intros r es Hes. right.
  apply (guarded_free _ still); [apply still_reviews|exact Hes].
Qed.

Lemma careful_try {A B} past (p : Http A) (f : A -> Http B) :
  does p (fun r es => is_head_moved r = true \/ (guarded review_of_live_head past es /\ forall a, r = Ok a -> careful (past ++ es) (f a))) ->
  careful past (try p f).
Proof.
  intros H. apply does_bind. eapply does_mono; [|exact H]. intros [a|e] es Hr; cbn.
  - destruct Hr as [[=]|[Hg Hf]]. eapply does_mono; [|exact (Hf a eq_refl)]. intros r es' [Hm|Hg']; [by left|right].
    by apply guarded_app.
  - rewrite app_nil_r. destruct Hr as [Hm|[Hg _]]; [by left|by right].
Qed.

Lemma careful_after {A B} past (p : Http A) (f : A -> Http B) :
  each still p -> (forall a es, careful (past ++ es) (f a)) -> careful past (try p f).
Proof.
  intros Hp Hf. apply careful_try. eapply does_mono; [|exact Hp]. intros r es Hes. right. split; [|intros; apply Hf].
  apply (guarded_free _ still); [apply still_reviews|exact Hes].
Qed.

(** The merge requests of a review are among those listed. *)
Lemma controlledMRs_listed t :
  does (or_client (controlledMRs t)) (fun r es => Forall still es /\ forall mrs, r = Ok mrs ->
    exists l, In (did (ListMergeRequests Cached) (Ok l)) es /\ forall mr, In mr mrs -> In mr l).
Proof.
  intros [l|e]; cbn; (split; [by repeat constructor|]); [|done]. intros mrs [= <-].
  exists l. split; [by left|]. intros mr Hin. by apply owned_named_iff in Hin as [? _].
Qed.

(** A head that has moved ends the request; what it writes, it writes before saying so. *)
Lemma head_moved_says o repo mr reviewed live : oc_claimed o = false ->
  does (head_moved parse mrSize sp m readerFor RemoveStatusCondition o repo mr reviewed live)
    (fun r es => is_ok r = false /\ (is_head_moved r = true \/ Forall still es)).
Proof.
  intros Ho. unfold head_moved. apply does_bind.
  eapply does_mono; [|exact (quiet_still (projectSCMReader readerFor (oc_proj o)) ltac:(unfold projectSCMReader, resolveProjectSCMProviderToken; reads))].
  intros [a|e] es Hes; cbn; [|split; [done|right; by rewrite app_nil_r]].
  unfold best_effort. apply does_bind, does_bind. eapply does_mono; [|apply does_True]. intros x es1 _. cbn.
  intros n1. unfold metric. destruct m; cbn; [intros n2|]; rewrite release_unclaimed by done; cbn; (split; [done|by left]).
Qed.

(** One head that is read: it is the reported one, or the answer says that it has moved. *)
Lemma live_heads_answered o l mrs : oc_claimed o = false -> forall open past, (forall mr, In mr open -> In mr mrs) ->
  In (did (ListMergeRequests Cached) (Ok mrs)) past ->
  does (live_heads parse mrSize sp m readerFor RemoveStatusCondition o open l)
    (fun r es => is_head_moved r = true \/ (guarded review_of_live_head past es /\
       forall a, r = Ok a -> forall mr, In mr open -> head_answered (past ++ es) mr (reported_head l mr))).
Proof.
  intros Ho. unfold live_heads. induction open as [|mr open IH]; intros past Hin Hl; cbn [foreach]; [by right|].
  apply does_bind. unfold repoCR. apply does_bind. intros [repo|e]; cbn; [|right; by split].
  destruct (repo_ProjectRef repo != _); cbn; [right; by split|].
  intros [live|e]; cbn; [|right; by split].
  set (first := [did (GetRepository (mrs_RepositoryRef (mr_Spec mr))) (Ok repo);
                 did (GetPRHead (repo_URL repo) (mrs_Number (mr_Spec mr))) (Ok live)]).
  assert (forall es, guarded review_of_live_head (past ++ first) es -> guarded review_of_live_head past (first ++ es)) as Hg.
  { intros es H. apply guarded_app. split; [|done]. by apply (guarded_free _ still); [apply still_reviews|repeat constructor]. }
  destruct (String.eqb_spec live (reported_head l mr)) as [Hr|Hr]; cbn.
  - eapply does_mono; [|exact (IH (past ++ first) (fun x H => Hin x (or_intror H)) (in_or_app _ _ _ (or_introl Hl)))].
    intros r es [Hm|[Hg' Ha]]; [by left|right]. split; [by apply (Hg es)|]. intros a Hok mr' [<-|Hin'].
    + exists mrs, repo. rewrite Hr in *. split_and!; [apply in_or_app; by left|apply Hin; by left|..]; apply in_or_app; right; cbn; auto.
    + specialize (Ha a Hok mr' Hin'). by rewrite <- app_assoc in Ha.
  - eapply does_mono; [|exact (head_moved_says o repo mr (reported_head l mr) live Ho)].
    intros [a|e] es [Hok Hm]; [discriminate Hok|]. cbn. rewrite app_nil_r. destruct Hm as [Hm|Hs]; [by left|right].
    split; [|done]. apply (Hg es). by apply (guarded_free _ still); [apply still_reviews|].
Qed.

(** What is stored of the intent of a review, whatever the guard trims. *)
Lemma intended_head p sha findings fresh mr' : mirror_trimmed (intend_review p sha findings fresh) mr' ->
  mr_ReviewedSHA (mr_Status mr') = sha /\ exists pr, mr_PendingReview (mr_Status mr') = Some pr /\ pr_SHA pr = sha.
Proof.
  intros (gone & at_ & trackID & st & ->). destruct at_ as [at_|]; cbn; unfold intend_review; cbn;
    destruct (rp_Verdict p == "approve"); destruct (_ && _); cbn; eauto.
Qed.

Lemma persist_careful o p mr past : head_answered past mr (reported_head (rp_ReviewedSHAs p) mr) ->
  careful past (persist_review mrSize sp m o p mr).
Proof.
  intros (l & repo & H1 & H2 & H3 & H4). unfold persist_review. apply careful_try. apply does_bind. unfold fit_mr, fitMergeRequest.
  intros [reads attempts]. destruct (FitMergeRequest _ _ _ _ _) as [r fx] eqn:E. intros [].
  assert (forall k, guarded review_of_live_head past [did (MergeRequestAnswers (mr_Name mr)) (reads, attempts); did (MergeRequestEffects (mr_Name mr) fx) k]) as Hg.
  { intros k. split; [by apply still_reviews|]. split; [|done]. intros name fx' x mr' Hd Hin. inversion Hd; subst.
    pose proof (fit_mirror_last (mrSize) (sp (oc_proj o)) reads (intend_review p (reported_head (rp_ReviewedSHAs p) mr)
      (findingsFor (rp_Findings p) (mrs_RepositoryRef (mr_Spec mr)) (mrs_Number (mr_Spec mr)))) attempts) as Hw.
    unfold FitMergeRequest in E. rewrite E in Hw. destruct (stored_by_writes_last _ _ _ _ _ _ Hw Hin) as [fresh Ht].
    destruct (intended_head _ _ _ _ _ Ht) as [Hs (pr & Hp & Hps)]. rewrite Hs.
    exists l, mr, repo, pr. split_and!; auto; apply in_or_app; by left. }
  destruct r as [x|e]; cbn; right; (split; [apply Hg|]); [|done]. intros a _.
  apply careful_still, quiet_still, quiet_metric.
Qed.

Lemma persist_all_careful o p : forall open past,
  (forall mr, In mr open -> head_answered past mr (reported_head (rp_ReviewedSHAs p) mr)) ->
  does (foreach open (persist_review mrSize sp m o p)) (fun r es => is_head_moved r = true \/ guarded review_of_live_head past es).
Proof.
  induction open as [|mr open IH]; intros past Hh; cbn [foreach]; [by right|]. apply careful_try.
  eapply does_mono; [|apply persist_careful, Hh; by left]. intros r es [Hm|Hg]; [by left|right]. split; [done|]. intros _ _.
  apply IH. intros mr' Hin. apply head_answered_app, Hh. by right.
Qed.

Lemma reviewed_careful o open p past : (forall mr, In mr open -> head_answered past mr (reported_head (rp_ReviewedSHAs p) mr)) ->
  careful past (reviewed mrSize taskSize sp notes m RemoveStatusCondition o open p).
Proof.
  intros Hh. unfold reviewed. apply careful_after; [apply still_claim|]. intros o' es. apply careful_try.
  eapply does_mono; [|apply persist_all_careful; intros; by apply head_answered_app, Hh].
  intros r es' [Hm|Hg]; [by left|right]. split; [done|]. intros _ _. apply careful_still.
  apply keeps_try; [apply closed_Forall|apply still_commitAs|]. intros. apply still_okay.
Qed.

Lemma review_careful o p : oc_claimed o = false ->
  careful [] (review parse mrSize taskSize sp notes m scmFor readerFor RemoveStatusCondition o p).
Proof.
  intros Ho. unfold review. destruct (review_fault p); [apply careful_still, still_refuse|]. apply careful_try.
  eapply does_mono; [|apply controlledMRs_listed]. intros r es [Hes Hl]. right.
  split; [by apply (guarded_free _ still); [apply still_reviews|]|]. intros all Hok. destruct (Hl all Hok) as (l & Hin & Hall).
  destruct (openMRs all) as [|mr0 open0] eqn:Eo; [apply careful_still, still_nothing_open|]. set (open := mr0 :: open0) in *.
  assert (forall mr, In mr open -> In mr l) as Hopen.
  { intros mr Hmr. apply Hall. rewrite <- Eo in Hmr. by apply List.filter_In in Hmr as [? _]. }
  destruct (coverage_fault _ _); [apply careful_still, still_refuse|].
  apply careful_after; [apply quiet_still, quiet_writer|]. intros _ es1. apply careful_try.
  assert (In (did (ListMergeRequests Cached) (Ok l)) (([] ++ es) ++ es1)) as Hin' by (apply in_or_app; by left).
  eapply does_mono; [|exact (live_heads_answered o (rp_ReviewedSHAs p) l Ho open _ Hopen Hin')].
  intros r2 es2 [Hm|[Hg Ha]]; [by left|right]. split; [done|]. intros u Hu. specialize (Ha u Hu).
  apply careful_after; [|intros _ es3; apply reviewed_careful; intros; by apply head_answered_app, Ha].
  destruct (rp_Verdict p == "approve"); [|apply keeps_ret, closed_Forall].
  apply keeps_bind; [apply closed_Forall|apply quiet_still, quiet_evaluateReadiness|].
  intros [rd|]; [apply still_refuseNotReady|apply keeps_ret, closed_Forall].
Qed.

End Behind.

(** *** What a commit stores *)

Section Committing.

Context (taskSize : Task -> option Z) (notes : Project -> option (Spiller Note)) (m : bool)
  (RemoveStatusCondition : list Condition -> string -> list Condition) (mutate : Time -> Task -> result StageError Task).

Lemma committed_condition kind fp now t : OutcomeReasonFor kind <> OutcomeReasonClaimed -> OutcomeCondition t = Some (outcome_condition kind fp now) ->
  forall later, classifyOutcomeClaim t fp later = claimCommitted.
Proof.
  intros Hk Ht later. unfold classifyOutcomeClaim. rewrite Ht. cbn. rewrite String.eqb_refl. cbn.
  unfold conditionReason. rewrite str_neq_eqb by done. done.
Qed.

Lemma trimmed_status t t' : trimmed t t' ->
  State (Status t') = State (Status t) /\ ParkReason (Status t') = ParkReason (Status t) /\ OutcomeCondition t' = OutcomeCondition t.
Proof. intros (cap & n & trackID & st & ->). unfold trim_task. destruct (0 <? n); cbn; auto. Qed.

Definition not_task_effect {X} (c : Call X) : bool := match c with TaskEffects _ _ => false | _ => true end.

Lemma other_stamped fp d : not_task_effect (did_call d) = true -> stamped_together fp mutate d.
Proof. intros Hd name fx x t' ->. discriminate. Qed.

Ltac others := repeat first [ progress unfold go_on, answer, each, count, metric | keep_step ltac:(constructor; [by apply other_stamped|done]) ].

Lemma commit_fit_stamps cap o : OutcomeReasonFor (oc_kind o) <> OutcomeReasonClaimed ->
  each (stamped_together (oc_fp o) mutate) (commit_fit taskSize notes RemoveStatusCondition cap o mutate false).
Proof.
  intros Hk. unfold commit_fit. intros now [reads attempts]. destruct (FitTask _ _ _ _ _ _) as [r fx] eqn:E. intros [].
  repeat (constructor; [by apply other_stamped|]). constructor; [|done]. intros name fx' x t' Hd Hin. inversion Hd; subst.
  pose proof (FitTask_last taskSize (notes (oc_proj o)) cap reads (commit_closure RemoveStatusCondition o mutate false now) attempts) as Hw.
  rewrite E in Hw. destruct (stored_by_writes_last _ _ _ _ _ _ Hw Hin) as [fresh Ht]. exists now, fresh.
  unfold commit_closure in Ht. destruct (mutate now fresh) as [t|e]; [|exact Ht].
  destruct (trimmed_status _ _ Ht) as (Hs & Hp & Hc). split; [exact Hs|]. split; [exact Hp|].
  apply (committed_condition (oc_kind o) _ now); [done|]. by rewrite Hc, OutcomeCondition_set.
Qed.

Lemma claim_context o : yields (fun o' => oc_fp o' = oc_fp o /\ oc_kind o' = oc_kind o) (claim o).
Proof.
  unfold claim. destruct (oc_claimed o); [intros a [= <-]; by split|]. intros now.
  apply (yields_try (fun _ => True)); [apply yields_any|]. intros [t []] _; [by intros a [= <-]|by intros a|].
  apply (yields_try (fun _ => True)); [apply yields_any|]. by intros [] _ a.
Qed.

Lemma commit_stamps o : OutcomeReasonFor (oc_kind o) <> OutcomeReasonClaimed ->
  each (stamped_together (oc_fp o) mutate) (commit taskSize notes m RemoveStatusCondition o mutate).
Proof.
  intros Hk. unfold commit, commitAs. eapply (keeps_try_that _ (fun o' => oc_fp o' = oc_fp o /\ oc_kind o' = oc_kind o)).
  - unfold claim, or_client, claimOutcomeFingerprint, in_flight_answer. others.
  - apply claim_context.
  - intros o' [Hf Hk']. rewrite <- Hf. rewrite <- Hk' in Hk. apply keeps_bind; [apply closed_Forall| |].
    + unfold commit_write. apply keeps_bind; [apply closed_Forall|by apply commit_fit_stamps|].
      intros [r e]. destruct e; [others|]. destruct (spill_error r); [by apply commit_fit_stamps|others].
    + intros [r e]. unfold conflict, refuse, release, committed, best_effort, delete_wrapper. others.
Qed.

End Committing.

(** ** Properties *)


(** The claims of [rq], one after the other. *)
Fixpoint claims_run (rq : nat -> Lease.Request) (c : Lease.Config) (l : list nat) : Lease.Config :=
  match l with
  | [] => c
  | i :: l' =>
      let c1 := Lease.mkConfig (Lease.version c) (Lease.task c)
                  (Lease.at_phase c i (Lease.Holding (Lease.version c) (Lease.task c))) (Lease.wins c) in
      claims_run rq (Lease.mkConfig (S (Lease.version c)) (Lease.stored (claimed_by (Lease.rq_fp (rq i)) (Lease.rq_at (rq i)) (Lease.task c)))
                       (Lease.at_phase c1 i Lease.Won) (i :: Lease.wins c)) l'
  end.

(** Each finds the claim free and has not looked before. *)
Fixpoint claims_free (rq : nat -> Lease.Request) (c : Lease.Config) (l : list nat) : Prop :=
  match l with
  | [] => True
  | i :: l' => Lease.phase c i = Lease.Looking
               /\ classifyOutcomeClaim (Lease.task c) (Lease.rq_fp (rq i)) (Lease.rq_at (rq i)) = claimWon
               /\ claims_free rq (claims_run rq c [i]) l'
  end.

Lemma claims_run_reachable rq t0 l : forall c, Lease.reachable rq t0 c -> claims_free rq c l -> Lease.reachable rq t0 (claims_run rq c l).
Proof.
  induction l as [|i l IH]; intros c Hr Hf; [done|]. destruct Hf as (Hl & Hc & Hf). cbn [claims_run]. apply IH; [|exact Hf].
  eapply Lease.next; [eapply Lease.next; [exact Hr|exact (Lease.step_read rq c i Hl Hc)]|].
  eapply (Lease.step_update rq (Lease.mkConfig _ _ _ _) i (Lease.task c)). apply at_phase_same.
Qed.


(** A different outcome in between lets two runs overlap: a claim gives way to any claim of another
    fingerprint, however young it is, so that one request after it the first outcome runs
    twice at the same instant. *)
Theorem a_third_request_breaks_the_lease : exists (rq : nat -> Lease.Request) (c : Lease.Config),
  Lease.reachable rq zero_Task c /\ Lease.wins c = [2; 1; 0]%nat
  /\ Lease.rq_fp (rq 2%nat) = Lease.rq_fp (rq 0%nat) /\ Lease.rq_at (rq 2%nat) = Lease.rq_at (rq 0%nat).
Proof.
  exists (fun i : nat => Lease.mkRequest (match i with 1%nat => "y" | _ => "x" end) 0).
  eexists. split; [|split; [|by split]].
  - apply (claims_run_reachable _ _ [0; 1; 2]%nat _ (Lease.start _ _)). repeat split; reflexivity.
  - reflexivity.
Qed.

(** C15: an accepted review is of the code as it stands: unless the answer is that a head has
    moved, each review that a run of the handler stores, whatever the guard of the write trims,
    names the head which the forge answered, in this very run and before the write, for a merge
    request that was listed under this name, and the review that is to be posted names it too. *)
Theorem reviews_are_of_live_heads (parse : string -> option string) (mrSize : MergeRequest -> option Z)
    (taskSize : Task -> option Z) (sp : Project -> option (Spiller Comment)) (notes : Project -> option (Spiller Note))
    (m scmFor readerFor : bool) (RemoveStatusCondition : list Condition -> string -> list Condition)
    (o : outcomeCtx) (p : reviewPayload) (w : World Call) :
  oc_claimed o = false ->
  is_head_moved (fst (run w (review parse mrSize taskSize sp notes m scmFor readerFor RemoveStatusCondition o p))) = false ->
  guarded review_of_live_head []
    (snd (run w (review parse mrSize taskSize sp notes m scmFor readerFor RemoveStatusCondition o p))).
Proof.
  intros Ho Hm. pose proof (run_does w _ _ (review_careful parse mrSize taskSize sp notes m scmFor readerFor RemoveStatusCondition o p Ho)) as H.
  cbn in H. destruct H as [H|H]; [congruence|exact H].
Qed.

Lemma reviews_are_of_live_heads_witness :
  is_head_moved (fst (run review_world sample_review)) = false /\ guarded review_of_live_head [] (snd (run review_world sample_review))
  /\ existsb (fun d => is_mr_write (did_call d)) (snd (run review_world sample_review)) = true.
Proof.
  split; [vm_compute; reflexivity|split; [|vm_compute; reflexivity]].
  apply reviews_are_of_live_heads; [reflexivity|vm_compute; reflexivity].
Defined.

(** C13: the transition of an outcome and its record are one write: whatever a commit stores of
    the Task is either the result of the transition, and then every later copy of the request is
    told that it was committed, or the Task it has read, where the transition is illegal on it.
    No write has the one without the other, so that neither a lost answer nor a crash between
    two writes can make the transition happen twice. *)
Theorem transition_and_record_are_one_write (taskSize : Task -> option Z) (notes : Project -> option (Spiller Note)) (m : bool)
    (RemoveStatusCondition : list Condition -> string -> list Condition) (mutate : Time -> Task -> result StageError Task)
    (o : outcomeCtx) (w : World Call) :
  OutcomeReasonFor (oc_kind o) <> OutcomeReasonClaimed ->
  Forall (stamped_together (oc_fp o) mutate) (snd (run w (commit taskSize notes m RemoveStatusCondition o mutate))).
Proof. intros Hk. exact (run_does w _ _ (commit_stamps taskSize notes m RemoveStatusCondition mutate o Hk)). Qed.

Lemma transition_and_record_are_one_write_witness :
  let p := commit (fun _ => Some 0) (fun _ => None) true (fun l _ => l) (sample_context "review") (review_mutate "review" "approve") in
  Forall (stamped_together "fp" (review_mutate "review" "approve")) (snd (run review_world p))
  /\ existsb (fun d => negb (not_task_effect (did_call d))) (snd (run review_world p)) = true.
Proof.
  intros p. split; [|vm_compute; reflexivity].
  apply (transition_and_record_are_one_write (fun _ => Some 0) (fun _ => None) true (fun l _ => l) (review_mutate "review" "approve") (sample_context "review")).
  discriminate.
Defined.

(** A commit whose first run of the mutation fails, on a copy that only sizes the write, keeps that
    error although the write that follows stores the transition and its record: the caller is told
    that the transition is illegal, the outcome being done. *)
Theorem a_stored_outcome_can_be_refused :
  fst (run stale_world sample_finish) = Err (Reply 409 ErrorText)
  /\ exists d, nth_error (snd (run stale_world sample_finish)) 5 = Some d
       /\ match did_call d with
          | TaskEffects _ [Updated t'] => State (Status t') = StateDone /\ forall later, classifyOutcomeClaim t' "fp" later = claimCommitted
          | _ => False
          end.
Proof.
  split; [vm_compute; reflexivity|]. eexists. split; [vm_compute; reflexivity|]. cbn [did_call].
  split; [vm_compute; reflexivity|]. intros later. vm_compute. reflexivity.
Qed.
