(* ===== verification/Submissions.v ===== *)
(** * The other outcomes, and the request itself (internal/restapi/outcome.go, with
    handlers_v2.go, internal/controller/closeinvariant.go and labels.go): the approval gate,
    the proposals of a brainstorm, an incident's tracker, a refinement with its folds, and
    [postOutcome], which runs the outcome of the agent's kind behind the gates they share. *)

From Stdlib Require Import String Ascii.
From S2P Require Import Prelude GoTime Text Limits Api Vocabulary Machine Park Clocks ObjBudget Own Transition Logins Names Seq Queue Refs Checks Corridor Merge LivePods Approval Ship Escalate Drivers Calls Release Reaper Mirror Intake Proposals Reviewing Outcome.

Open Scope Z_scope.
Open Scope go_scope.

(** ** Payloads *)

Record proposalPayload := mkProposalPayload { pp_Repo : string; pp_Title : string; pp_Body : string; pp_Kind : string }.

Record brainstormPayload := mkBrainstormPayload { bp_Action : string; bp_Proposals : list proposalPayload; bp_Reason : string }.

Record incidentParent := mkIncidentParent { par_Repo : string; par_Number : Z }.

Record incidentIssue := mkIncidentIssue { ii_Repo : string; ii_Title : string; ii_Body : string; ii_Parent : option incidentParent }.

Record incidentComment := mkIncidentComment { ic_Repo : string; ic_Number : Z; inc_Body : string }.

Record incidentPayload := mkIncidentPayload {
  inp_Action : string;
  inp_AlertRules : list string;
  inp_Issue : option incidentIssue;
  inp_Comment : option incidentComment;
  inp_Reason : string
}.

Record closeRef := mkCloseRef { cl_Repo : string; cl_Number : Z; cl_Reason : string }.
Record linkRef := mkLinkRef { lk_Repo : string; lk_Number : Z; lk_IsPR : bool }.

Record refinePayload := mkRefinePayload { rfp_Folds : list string; rfp_Closes : list closeRef; rfp_Links : list linkRef }.

(** What the body of the request is decoded to. *)
Inductive Decoded := BodyTooLarge | BodyMalformed | Envelope (kind payload : string).

(** ** Names and references *)

Definition pendingCommentsCap : Z := 20.
Definition forgeAlertRulePrefix : string := "tatara-alert-rule=".

Definition TaskName (project kind : string) (t : Time) (uid : string) : string :=
  let suffix := sprintf ["-"; kind; "-"; first_bytes (FormatRFC3339 t) 10; "-"; uid] in
  let budget := MaxTaskNameLength - strlen suffix in
  let budget := if budget <? 1 then 1 else budget in
  let project := if budget <? strlen project then first_bytes project budget else project in
  let name := String.append (TrimRightDash project) suffix in
  if MaxTaskNameLength <? strlen name then first_bytes name MaxTaskNameLength else name.

Definition newRequestID (parts : list string) : string := sha256_hex (str_join "|" parts).

Definition issueRefNumber (ref : string) : Z :=
  let i := LastIndexByte ref "#"%char in
  if i <? 0 then 0 else default 0 (ParseInt (drop_bytes (Z.to_nat i + 1) ref)).

Definition brainstormingLabel (s : option ScmSpec) : string :=
  match s with
  | Some s => if scm_BrainstormingLabel s != "" then scm_BrainstormingLabel s else "tatara-brainstorming"
  | None => "tatara-brainstorming"
  end.

(** ** Intents on an Issue *)

Definition pending (i : Issue) : list PendingComment := iss_PendingComments (iss_Status i).

(** One comment per request; [capped] refuses it over the cap. *)
Definition add_pending (capped : bool) (requestID body : string) (i : Issue) : Issue :=
  if existsb (fun e => pc_RequestID e == requestID) (pending i) then i
  else if capped && (pendingCommentsCap <=? Z.of_nat (List.length (pending i))) then i
  else i <| iss_Status ::= fun s => s <| iss_PendingComments ::= fun l => (l ++ [mkPendingComment requestID "comment" body ""])%list |> |>.

Definition closeIntentBody (reason : string) : string := under closeIntentMarker reason.

Definition OpenOwnedMRs (mrs : list MergeRequest) : list string :=
  map mr_Name (List.filter (fun mr => negb ((mr_State (mr_Status mr) == "merged") || (mr_State (mr_Status mr) == "closed"))) mrs).

Definition ParkedForOpenMRsComment (taskName : string) (open : list string) : string :=
  sprintf ["tatara did not close this issue: task `"; taskName; "` still has unfinished pull requests (";
           str_join ", " open; ")."; newline; newline;
           "An issue is closed only once every one of its PRs is merged, so this issue is labelled `"; TataraParkedLabel;
           "` and stays open instead. Merge or close the PRs above, or comment here to have the platform pick it up again."].

(** ** References of a Task *)

Definition append_ref (issueRef mrRef : string) (t : Task) : Task :=
  on_status t (fun s =>
    let s := if (issueRef != "") && negb (str_mem (IssueRefs s) issueRef) then
               let l := (IssueRefs s ++ [issueRef])%list in
               s <| IssueRefs := l |> <| Stats ::= fun st => st <| IssueCount := Z.of_nat (List.length l) |> |>
             else s in
    if (mrRef != "") && negb (str_mem (MRRefs s) mrRef) then
      let l := (MRRefs s ++ [mrRef])%list in
      s <| MRRefs := l |> <| Stats ::= fun st => st <| MRCount := Z.of_nat (List.length l) |> |>
    else s).

Section Submissions.

(** The contexts of [Outcome]; [strings.ToLower]; the pause between two comments on a tracker;
    encoding/json: the canonical form of a payload, the action in it, and the payload of each
    kind, [None] on an error. *)
Context (parse : string -> option string) (Quote toLower : string -> string)
  (issueSize : Issue -> option Z) (mrSize : MergeRequest -> option Z) (taskSize : Task -> option Z)
  (sp : Project -> option (Spiller Comment)) (notes : Project -> option (Spiller Note))
  (m scmFor readerFor approval : bool)
  (RemoveStatusCondition : list Condition -> string -> list Condition)
  (UnescapeString : string -> string) (EqualFold : string -> string -> bool)
  (incidentInvestigationCommentCooldown : Duration)
  (canonical actionOf : string -> option string)
  (decodeImplement : string -> option implementPayload) (decodeReview : string -> option reviewPayload)
  (decodeBrainstorm : string -> option brainstormPayload) (decodeIncident : string -> option incidentPayload)
  (decodeRefine : string -> option refinePayload).

#[local] Abbreviation release_ := (release RemoveStatusCondition).
#[local] Abbreviation bad_ := (bad RemoveStatusCondition).
#[local] Abbreviation conflict_ := (conflict RemoveStatusCondition).
#[local] Abbreviation commit_ := (commit taskSize notes m RemoveStatusCondition).
#[local] Abbreviation metric_ := (metric m).
#[local] Abbreviation writer_ := (projectSCMWriterAndToken scmFor).
#[local] Abbreviation fit_issue_ := (fit_issue issueSize sp).
#[local] Abbreviation fitTask_ proj name f := (let? _ := fitTask taskSize (notes proj) name f in ok tt).

Definition repoSlug (repo : Repository) : string :=
  match ghOwnerRepo (parse (repo_URL repo)) with
  | Some (owner, name) => sprintf [owner; "/"; name]
  | None => repo_Name repo
  end.

Definition issueRef (repo : Repository) (number : Z) : string := sprintf [repoSlug repo; "#"; FormatInt number].

Definition appendTaskRef (proj : Project) (taskName issueRef mrRef : string) : Io unit :=
  fitTask_ proj taskName (append_ref issueRef mrRef).

(** ** Closing an Issue, or parking it *)

Definition queueIssueClose (proj : Project) (iss : Issue) (taskName reason : string) : Io unit :=
  fit_issue_ proj iss (add_pending true (newRequestID [taskName; "close"%string; iss_Name iss; reason])
                         (TruncateUTF8 (closeIntentBody reason) PendingCommentBodyMaxBytes)).

Definition queueIssuePark (proj : Project) (iss : Issue) (taskName body : string) : Io unit :=
  fit_issue_ proj iss (add_pending true (newRequestID [taskName; "park"%string; iss_Name iss])
                         (TruncateUTF8 (ParkIntentBody body) PendingCommentBodyMaxBytes)).

Definition openOwnedMRs (task : Task) : Io (list string) := let? mrs := controlledMRs task in ok (OpenOwnedMRs mrs).

Definition closeOrParkIssue (proj : Project) (task : Task) (iss : Issue) (reason path : string) (open : list string) : Io unit :=
  match open with
  | [] => queueIssueClose proj iss (task_Name task) reason
  | _ =>
      let? _ := queueIssuePark proj iss (task_Name task) (ParkedForOpenMRsComment (task_Name task) open) in
      tell (Count "issue_close_refused" [proj_Name proj; path])
  end.

Definition closeOrParkIssues (proj : Project) (task : Task) (issues : list Issue) (reason path : string) : Io unit :=
  let? open := openOwnedMRs task in
  foreach issues (fun iss => closeOrParkIssue proj task iss reason path open).

(** ** The gate *)

Definition gate_fault (p : implementPayload) : option string :=
  if blank (ip_Reason p) then Some "missing-field"%string
  else if (ip_Title p != "") || (ip_Body p != "") || (ip_ChangeSignificance p != "")
          || negb (match ip_MergeOrder p with [] => true | _ => false end) then Some "unexpected-field"%string
  else if (ip_Action p != "approved") && gate_fields p then Some "unexpected-field"%string
  else None.

Definition count_approval (c : ApprovalMetric) : Http unit :=
  match c with
  | MetricAutoApproveRefused axis => metric_ "auto_approve_refused" [axis]
  | MetricApprovalRefused reason => metric_ "approval_refused" [reason]
  end.

Definition Evidence : Type := list (string * ApprovalEvidence).

(** Every Issue in scope is offered the same citations. *)
Fixpoint scope_loop (proj : Project) (citations : list ApprovalCitation) (declared : string) (issues : list Issue) (out : Evidence)
  : Prog Call (bool * Evidence * string) :=
  match issues with
  | [] => Ret (match out with [] => (false, [], ApprovalRefusedNoLiveIssue) | _ => (true, out, ""%string) end)
  | iss :: rest =>
      if negb (ApprovalInScope iss) then scope_loop proj citations declared rest out
      else Do ApprovalReads (fun '(get, wall) =>
        let '((ev, ok_, refusal), counted) := VerifyApprovalDeclared UnescapeString EqualFold get proj iss citations declared wall in
        let! _ := foreach counted count_approval in
        if refusal != "" then Ret (false, [], refusal)
        else match ev with
             | Some ev => if ok_ then scope_loop proj citations declared rest (out ++ [(iss_Name iss, ev)])%list
                          else Ret (false, [], ""%string)
             | None => Ret (false, [], ""%string)
             end)
  end.

Definition verifyApprovalScope (proj : Project) (issues : list Issue) (citations : list ApprovalCitation) (declared : string)
  : Prog Call (bool * Evidence * string) :=
  if negb approval then Ret (false, [], ""%string)
  else match issues with
       | [] => Ret (false, [], ApprovalRefusedNoLiveIssue)
       | _ => scope_loop proj citations declared issues []
       end.

Definition evidence_of (out : Evidence) (name : string) : option ApprovalEvidence :=
  option_map snd (List.find (fun ne => fst ne == name) out).

Definition pin (planHash : string) (ev : ApprovalEvidence) : ApprovalEvidence :=
  mkApprovalEvidence (ae_Login ev) (ae_CommentID ev) (ae_CreatedAt ev) (ae_Phrase ev) (ae_Auto ev) planHash.

Definition approve_issue (ev : ApprovalEvidence) (i : Issue) : Issue :=
  i <| iss_Status ::= fun s => s <| iss_StatusWord := "approved"%string |> <| iss_Approval := Some ev |> |>.

Definition confirmation_body (taskName : string) (ev : ApprovalEvidence) (planNoteID : string) : string :=
  sprintf ["Approval accepted for `"; taskName; "`."; newline; newline; "- approver: `"; ae_Login ev; "`"; newline;
           "- cited comment: `"; ae_CommentID ev; "`"; newline; "- quote: "; Quote (ae_Phrase ev); newline;
           "- plan note: `"; planNoteID; "`"; newline; newline;
           "If this is not what you meant, say so on this thread: the operator re-reads it every turn."].

Definition queueApprovalConfirmation (proj : Project) (iss : Issue) (taskName : string) (ev : ApprovalEvidence) (planNoteID : string)
  : Io unit :=
  if ae_Auto ev then ok tt
  else fit_issue_ proj iss
         (add_pending false (newRequestID [taskName; "approval-confirm"%string; iss_Name iss; ae_CommentID ev])
            (confirmation_body taskName ev planNoteID)).

(** An Issue of the grant. *)
Definition grant_issue (o : outcomeCtx) (out : Evidence) (planHash planNoteID : string) (iss : Issue) : Http unit :=
  if negb (ApprovalInScope iss) then go_on tt
  else match evidence_of out (iss_Name iss) with
       | None => go_on tt
       | Some ev =>
           let kind := ProposalKindFromBody (iss_Body (iss_Status iss)) in
           let? _ := (if ae_Auto ev && (iss_StatusWord (iss_Status iss) != "approved") && (kind != "")
                      then metric_ "auto_approve" [kind] else go_on tt) in
           let ev := pin planHash ev in
           let? _ := or_client (fit_issue_ (oc_proj o) iss (approve_issue ev)) in
           or_client (queueApprovalConfirmation (oc_proj o) iss (oc_name o) ev planNoteID)
       end.

Definition grant (o : outcomeCtx) (mrs : list MergeRequest) (issues : list Issue) (out : Evidence) (note : Note) (p : implementPayload)
  : Http Response :=
  let? o := claim (granting o) in
  let? _ := foreach issues (grant_issue o out (notePlanHash (n_Body note)) (ip_PlanNoteID p)) in
  let? o := commit_ o (enter_noting mrs StateUnderImplementation "" (oc_kind o) (String.append "approved: " (ip_Reason p))) in
  okGranted o "approved".

(** [action=approved], past the payload's own checks. *)
Definition approve (o : outcomeCtx) (mrs : list MergeRequest) (p : implementPayload) : Http Response :=
  if negb (Bool.eqb (ip_ApprovingMaintainer p == "") (match ip_ApprovalCitations p with [] => true | _ => false end))
  then bad_ o "gate-pair-mismatch"
  else if blank (ip_PlanNoteID p) then bad_ o "missing-field"
  else match planNote (oc_task o) with
       | None => refuseGate o ApprovalRefusedPlanNoteMissing (ip_ApprovingMaintainer p)
       | Some note =>
           if n_ID note != TrimSpace (ip_PlanNoteID p) then refuseGate o ApprovalRefusedPlanNoteNotPlan (ip_ApprovingMaintainer p)
           else
             let? issues := or_client (controlledIssues (oc_task o)) in
             let! (granted, out, refusal) :=
               verifyApprovalScope (oc_proj o) issues (ip_ApprovalCitations p) (ip_ApprovingMaintainer p) in
             if granted then grant o mrs issues out note p
             else
               let? _ := (if refusal != "" then metric_ "approval_refused" [refusal] else go_on tt) in
               refuseGate o (if refusal == "" then "citation-not-verified"%string else refusal) (ip_ApprovingMaintainer p)
       end.

Definition gate (o : outcomeCtx) (p : implementPayload) : Http Response :=
  match gate_fault p with
  | Some fault => bad_ o fault
  | None =>
      let? mrs := or_client (controlledMRs (oc_task o)) in
      if ip_Action p == "discuss" then
        let? o := commit_ o (park_noting ReasonAwaitingHuman (oc_kind o) (String.append "discuss: " (ip_Reason p))) in
        okay o "discuss"
      else if ip_Action p == "rejected" then
        let? issues := or_client (controlledIssues (oc_task o)) in
        let? o := claim o in
        let? _ := or_client (closeOrParkIssues (oc_proj o) (oc_task o) issues (ip_Reason p) "gate-rejected") in
        let? o := commit_ o (enter_noting mrs StateRejected ReasonDeclined (oc_kind o) (String.append "rejected: " (ip_Reason p))) in
        okay o "rejected"
      else approve o mrs p
  end.

(** ** The proposals of a brainstorm *)

Definition brainstormQuota (t : Task) : Z :=
  match Annotations t !! AnnBrainstormQuota with
  | None => MaxProposalsPerOutcome
  | Some raw => match ParseInt raw with Some n => Z.min (Z.max n 1) MaxProposalsPerOutcome | None => MaxProposalsPerOutcome end
  end.

(** The pause with its reason, unless the project has moved since the session began; or none. *)
Definition setBrainstormPause (projName : string) (reason : option string) (sessionStart : Time) : Io unit :=
  on_conflict
    (let? proj := api (GetProject projName) in
     match reason with
     | None =>
         if negb (is_set (proj_BrainstormPausedAt proj)) && (proj_BrainstormPauseReason proj == "") then ok tt
         else write (UpdateProjectStatus (proj <| proj_BrainstormPausedAt := None |> <| proj_BrainstormPauseReason := ""%string |>))
     | Some reason =>
         if (match proj_LastMovementAt proj with Some at_ => After at_ sessionStart | None => false end) then ok tt
         else Do TimeNow (fun now =>
                write (UpdateProjectStatus (proj <| proj_BrainstormPausedAt := Some now |> <| proj_BrainstormPauseReason := reason |>)))
     end).

Definition brainstormSessionStart (t : Task) : Time := default (CreationTimestamp t) (StateEnteredAt (Status t)).

Definition brainstorm_fault (p : brainstormPayload) : option string :=
  if bp_Action p == "propose" then
    let n := Z.of_nat (List.length (bp_Proposals p)) in
    if (n <? 1) || (5 <? n) then Some "bad-proposals"%string
    else if existsb (fun pr => (pp_Repo pr == "") || blank (pp_Title pr) || blank (pp_Body pr)
                               || ((pp_Kind pr != "bug") && (pp_Kind pr != "improvement"))) (bp_Proposals p)
    then Some "bad-proposals"%string else None
  else if (bp_Action p == "skip") || (bp_Action p == "exhausted") then
    if blank (bp_Reason p) then Some "missing-field"%string else None
  else Some "bad-action"%string.

Definition gateTaskMintParkReason (proj : Project) : string :=
  if AutoApproveCeiling (Some proj) != AutoApproveOff then "" else ReasonBacklogSweep.

Definition gate_task (proj : Project) (repo : Repository) (pr : proposalPayload) (number : Z) (url name : string) : Task :=
  let source := mkTaskSource (providerOf proj) (issueRef repo number) url "" false number "" "" in
  StampPodName toLower
    (zero_Task <| task_Name := name |>
       <| Spec ::= fun s => s <| ProjectRef := proj_Name proj |> <| RepositoryRef := repo_Name repo |> <| Kind := SweepIssueKind |>
                              <| Goal := TruncateUTF8 (sprintf [pp_Title pr; newline; newline; pp_Body pr]) GoalMaxBytes |>
                              <| InitialState := StateNew |> <| InitialParkReason := gateTaskMintParkReason proj |>
                              <| Source := Some source |> |>)
    (proj_Name proj) (repo_Name repo).

Definition mintGateTask (proj : Project) (repo : Repository) (pr : proposalPayload) (number : Z) (url : string) : Io Task :=
  Do TimeNow (fun now =>
  Do (RandString 5) (fun uid =>
    api (CreateTask (gate_task proj repo pr number url (TaskName (proj_Name proj) SweepIssueKind now uid))))).

(** The Task as the controller of an Issue nobody else controls. *)
Definition own_issue (t : Task) (iss : Issue) : result Fail Issue :=
  match HandOverController (snd (AddPlainOwner (iss_OwnerReferences iss) (task_Name t) (task_UID t))) None (Some (task_Name t)) with
  | Ok refs => Ok (iss <| iss_OwnerReferences := refs |>)
  | Err e => Err (OwnerFault e)
  end.

(** The mirror that holds the name already: it gets the provenance it has none of, the labels
    it lacks, and its controller, unless another Task is that. *)
Definition adopt_filed (want : IssueSpec) (labels : gmap string string) (t : Task) (fresh : Issue) : result Fail Issue :=
  let anchor := (is_ProposalKind want != "") && (is_ProposalKind (iss_Spec fresh) == "") && (is_ProposalBodyHash (iss_Spec fresh) == "") in
  let stamped := if anchor then fresh <| iss_Spec ::= fun s => s <| is_ProposalKind := is_ProposalKind want |>
                                                                 <| is_ProposalBodyHash := is_ProposalBodyHash want |> |>
                 else fresh in
  let adopted := own_issue t (stamped <| iss_MetaLabels ::= fun l => l ∪ labels |>) in
  match ControllerOwner (iss_OwnerReferences fresh) with
  | Some owner => if owner != task_Name t then Err (OwnedElsewhere owner) else adopted
  | None => adopted
  end.

Definition adoptFiledIssueCR (name : string) (want : IssueSpec) (labels : gmap string string) (t : Task) : Io Issue :=
  on_conflict
    (let? fresh := api (GetIssue Cached name) in
     match adopt_filed want labels t fresh with
     | Err e => fail e
     | Ok fresh => let? _ := write (UpdateIssue fresh) in ok fresh
     end).

Definition seed_status (proj : Project) (title body : string) (now : Time) (i : Issue) : Issue :=
  i <| iss_Status ::= fun s =>
    s <| iss_Title := title |> <| iss_Body := TruncateUTF8 body IssueBodyMaxBytes |> <| iss_Author := botLoginOf proj |>
      <| iss_State := "open"%string |>
      <| iss_StatusWord := if iss_StatusWord s == "" then "new"%string else iss_StatusWord s |>
      <| iss_CreatedAt := Some (default now (iss_CreatedAt s)) |>
      <| iss_UpdatedAt := Some now |> <| iss_LastSyncedAt := Some now |> |>.

Definition filed_issue (proj : Project) (repo : Repository) (number : Z) (url body proposalKind : string) (labels : gmap string string) : Issue :=
  zero_Issue <| iss_Name := IssueName (repo_Name repo) number |> <| iss_MetaLabels := labels |>
    <| iss_Spec := mkIssueSpec (repo_Name repo) number url (proj_Name proj)
                     (if proposalKind != "" then ComputeProposalContentHash body else "") proposalKind |>.

Definition mintIssueCR (proj : Project) (repo : Repository) (t : Task) (number : Z) (url title body proposalKind : string)
    (labels : gmap string string) : Io unit :=
  let bare := filed_issue proj repo number url body proposalKind labels in
  match own_issue t bare with
  | Err e => fail e
  | Ok iss =>
      Do (CreateIssue iss) (fun r =>
        let? iss := (match r with
                     | None => ok iss
                     | Some ApiExists => adoptFiledIssueCR (iss_Name iss) (iss_Spec iss) labels t
                     | Some e => fail (ApiFault e)
                     end) in
        Do TimeNow (fun now =>
          let? _ := write (UpdateIssueStatus (seed_status proj title body now iss)) in
          appendTaskRef proj (task_Name t) (iss_Name iss) ""))
  end.

(** An Issue on the forge, which has to answer with a number. *)
Definition open_issue (proj : Project) (repo : Repository) (title body : string) (labels : list string) : Http CreatedIssue :=
  Do (OpenIssue (repo_URL repo) title body labels) (fun r =>
    let? _ := or_client (RecordSCM m proj "create_issue" (match r with Ok _ => ScmOk | Err e => e end)) in
    match r with
    | Err _ => answer (Reply 502 ErrorText)
    | Ok created => if issueRefNumber (ci_Ref created) =? 0 then answer (Reply 502 ErrorText) else go_on created
    end).

Definition propose_one (o : outcomeCtx) (pr : proposalPayload) : Http string :=
  let? repo := or_client (repoCR (proj_Name (oc_proj o)) (pp_Repo pr)) in
  let body := StampProposalMarker (pp_Body pr) ProposalKindBrainstorm in
  let? title := clampTitleForForge "brainstorm_propose" (pp_Title pr) in
  let? created := open_issue (oc_proj o) repo title body [brainstormingLabel (proj_Scm (oc_proj o))] in
  let number := issueRefNumber (ci_Ref created) in
  let? child := or_client (mintGateTask (oc_proj o) repo pr number (ci_URL created)) in
  let? _ := or_client (mintIssueCR (oc_proj o) repo child number (ci_URL created) title body ProposalKindBrainstorm ∅) in
  go_on (task_Name child).

Definition finish (o : outcomeCtx) (to reason text : string) : Http outcomeCtx :=
  commit_ o (enter_noting [] to reason (oc_kind o) text).

Definition brainstorm (o : outcomeCtx) (p : brainstormPayload) : Http Response :=
  match brainstorm_fault p with
  | Some fault => bad_ o fault
  | None =>
      let? o := claim o in
      if bp_Action p != "propose" then
        let! paused := (if bp_Action p == "exhausted"
                        then setBrainstormPause (proj_Name (oc_proj o)) (Some (bp_Reason p)) (brainstormSessionStart (oc_task o))
                        else ok tt) in
        match paused with
        | Err _ => answer (Reply 500 ErrorText)
        | Ok _ =>
            let? o := finish o StateDone "" (sprintf [bp_Action p; ": "; bp_Reason p]) in
            okay o (bp_Action p)
        end
      else
        let quota := brainstormQuota (oc_task o) in
        let n := Z.of_nat (List.length (bp_Proposals p)) in
        let? _ := (if quota <? n then metric_ "brainstorm_quota_truncated" [proj_Name (oc_proj o); FormatInt (n - quota)] else go_on tt) in
        let? _ := writer_ (oc_proj o) in
        let? spawned := fold_prog (firstn (Z.to_nat quota) (bp_Proposals p)) []
                          (fun l pr => let? name := propose_one o pr in go_on (l ++ [name])%list) in
        let? o := finish o StateDone "" (sprintf ["proposed: "; str_join ", " spawned]) in
        let? _ := best_effort (setBrainstormPause (proj_Name (oc_proj o)) None 0) in
        okay o "propose"
  end.

(** ** An incident *)

Definition incident_fault (p : incidentPayload) : option string :=
  let filled := match inp_Issue p with
                | Some i => negb ((ii_Repo i == "") || blank (ii_Title i) || blank (ii_Body i))
                | None => false
                end in
  let bad_parent := match inp_Issue p with
                    | Some i => match ii_Parent i with Some pa => (par_Repo pa == "") || (par_Number pa =? 0) | None => false end
                    | None => false
                    end in
  let commented := match inp_Comment p with
                   | Some c => negb ((ic_Repo c == "") || (ic_Number c =? 0) || blank (inc_Body c))
                   | None => false
                   end in
  if match inp_AlertRules p with [] => true | _ => false end then Some "missing-field"%string
  else if blank (inp_Reason p) then Some "missing-field"%string
  else if inp_Action p == "file_issue" then
    if is_set (inp_Comment p) then Some "unexpected-field"%string
    else if negb filled then Some "missing-field"%string
    else if bad_parent then Some "bad-parent"%string else None
  else if inp_Action p == "comment_issue" then
    if is_set (inp_Issue p) then Some "unexpected-field"%string
    else if negb commented then Some "missing-field"%string else None
  else if inp_Action p == "false_positive" then
    if is_set (inp_Issue p) || is_set (inp_Comment p) then Some "unexpected-field"%string else None
  else Some "bad-action"%string.

(** The tracker a comment is for: an Issue of the mirror with a rule or a group. *)
Definition commentTarget (o : outcomeCtx) (c : incidentComment) : Http (Repository * Issue) :=
  let? repo := or_client (repoCR (proj_Name (oc_proj o)) (ic_Repo c)) in
  Do (GetIssue Cached (IssueName (repo_Name repo) (ic_Number c))) (fun r =>
    match r with
    | Err _ => bad_ o "not-mirrored"
    | Ok iss =>
        if (default ""%string (iss_MetaLabels iss !! LabelAlertRuleKey) == "")
           && (default ""%string (iss_MetaLabels iss !! LabelAlertGroupKey) == "")
        then bad_ o "not-a-tracker" else go_on (repo, iss)
    end).

Definition merge_rules (rules : list string) (t : Task) : Task :=
  t <| Spec ::= fun s => s <| AlertRules ::= fun l => fold_left (fun l r => if str_mem l r then l else (l ++ [r])%list) rules l |> |>.

Definition suppressed (iss : Issue) (now : Time) : bool :=
  match iss_LastInvestigationCommentAt (iss_Status iss) with
  | Some at_ => Sub now at_ <? incidentInvestigationCommentCooldown
  | None => false
  end.

Definition evidence_body (prior : Z) (body : string) : string :=
  if 0 <? prior then
    sprintf ["("; FormatInt prior; " prior evidence comment(s) suppressed by the investigation-comment cooldown)"; newline; newline; body]
  else body.

Definition incident_comment (o : outcomeCtx) (c : incidentComment) (reason : string) : Http Response :=
  let? (repo, iss) := commentTarget o c in
  let ref := issueRef repo (ic_Number c) in
  Do TimeNow (fun now =>
    let? _ := (if suppressed iss now then
                 let! r := fit_issue_ (oc_proj o) iss
                             (fun i => i <| iss_Status ::= fun s => s <| iss_SuppressedInvestigationCount ::= fun n => i64 (n + 1) |> |>) in
                 match r with
                 | Err e => let? _ := release_ o in answer (ClientErr e)
                 | Ok _ => metric_ "incident_tracker_comment" ["suppressed"]%string
                 end
               else
                 let? _ := writer_ (oc_proj o) in
                 Do (PostComment ref (evidence_body (iss_SuppressedInvestigationCount (iss_Status iss)) (inc_Body c))) (fun a =>
                 let? _ := or_client (RecordSCM m (oc_proj o) "comment" a) in
                 if negb (scm_ok a) then
                   let? _ := metric_ "incident_tracker_comment" ["failed"]%string in
                   let? _ := release_ o in answer (Reply 502 ErrorText)
                 else
                   let? _ := metric_ "incident_tracker_comment" ["posted"]%string in
                   let! r := fit_issue_ (oc_proj o) iss
                               (fun i => i <| iss_Status ::= fun s => s <| iss_SuppressedInvestigationCount := 0 |>
                                                                         <| iss_LastInvestigationCommentAt := Some now |> |>) in
                   match r with
                   | Ok _ => go_on tt
                   | Err _ => count "mirror_write_dropped" [proj_Name (oc_proj o); "Issue"; "incident_cooldown_reset"]%string
                   end)) in
    let? o := finish o StateRejected ReasonTrackedElsewhere (sprintf ["comment_issue "; ref; ": "; reason]) in
    okay o "comment_issue").

(** A comment whose error is not looked at. *)
Definition mention (ref body : string) : Http unit := Do (PostComment ref body) (fun _ => go_on tt).

(** The tracker under its parent; where the forge refuses, a comment on both. *)
Definition linkIncidentParent (o : outcomeCtx) (childRef : string) (parent : incidentParent) : Http unit :=
  let! r := repoCR (proj_Name (oc_proj o)) (par_Repo parent) in
  match r with
  | Err _ =>
      Do (PostComment childRef (sprintf ["Related to "; par_Repo parent; "#"; FormatInt (par_Number parent)])) (fun a =>
      let? _ := or_client (RecordSCM m (oc_proj o) "comment" a) in
      metric_ "incident_sublink" [if scm_ok a then "fallback_comment" else "failed"]%string)
  | Ok parentRepo =>
      let parentRef := issueRef parentRepo (par_Number parent) in
      Do (AddSubIssue parentRef (issueRefNumber childRef)) (fun a =>
      if scm_ok a then
        let? _ := mention childRef (sprintf ["Related to "; parentRef]) in
        let? _ := mention parentRef (sprintf ["Related sub-issue: "; childRef]) in
        metric_ "incident_sublink" ["linked"]%string
      else
        Do (PostComment childRef (sprintf ["Related to "; parentRef])) (fun c1 =>
        let? _ := or_client (RecordSCM m (oc_proj o) "comment" c1) in
        Do (PostComment parentRef (sprintf ["Related: "; childRef])) (fun c2 =>
        let? _ := or_client (RecordSCM m (oc_proj o) "comment" c2) in
        metric_ "incident_sublink" [if negb (scm_ok c1) && negb (scm_ok c2) then "failed" else "fallback_comment"]%string)))
  end.

Definition tracker_labels (t : Task) : gmap string string :=
  let l := if DedupKey (Spec t) != "" then {[LabelAlertRuleKey := DedupKey (Spec t)]} else ∅ in
  if GroupKey (Spec t) != "" then <[LabelAlertGroupKey := GroupKey (Spec t)]> l else l.

(** The parent the agent names, or else the oldest open tracker of the group. *)
Definition parent_of (o : outcomeCtx) (named : option incidentParent) : Http (option incidentParent) :=
  let spec := Spec (oc_task o) in
  match named with
  | Some p => go_on (Some p)
  | None =>
      if (GroupKey spec != "") && (DedupKey spec != "") then
        Do ListIssues (fun r =>
          match FindOldestOpenGroupSibling (proj_Name (oc_proj o)) (GroupKey spec) (DedupKey spec)
                  (match r with Ok l => Some l | Err _ => None end) with
          | Some (Some sib) =>
              let? _ := metric_ "incident_group_linked" ["linked"]%string in
              go_on (Some (mkIncidentParent (is_RepositoryRef (iss_Spec sib)) (is_Number (iss_Spec sib))))
          | _ => let? _ := metric_ "incident_group_linked" ["no_sibling"]%string in go_on None
          end)
      else go_on None
  end.

Definition file_issue (o : outcomeCtx) (i : incidentIssue) (reason : string) : Http Response :=
  let? repo := or_client (repoCR (proj_Name (oc_proj o)) (ii_Repo i)) in
  let? _ := writer_ (oc_proj o) in
  let ruleKey := DedupKey (Spec (oc_task o)) in
  let body := StampProposalMarker (ii_Body i) ProposalKindIncident in
  let? title := clampTitleForForge "incident_file_issue" (ii_Title i) in
  let? created := open_issue (oc_proj o) repo title body
                    (if ruleKey != "" then [String.append forgeAlertRulePrefix ruleKey] else []) in
  let? _ := or_client (mintIssueCR (oc_proj o) repo (oc_task o) (issueRefNumber (ci_Ref created)) (ci_URL created) title body
                         ProposalKindIncident (tracker_labels (oc_task o))) in
  let? parent := parent_of o (ii_Parent i) in
  let? _ := (match parent with Some pa => linkIncidentParent o (ci_Ref created) pa | None => go_on tt end) in
  let? o := finish o StateDone "" (String.append "file_issue: " reason) in
  okay o "file_issue".

Definition incident (o : outcomeCtx) (p : incidentPayload) : Http Response :=
  match incident_fault p with
  | Some fault => bad_ o fault
  | None =>
      let? _ := (match inp_Comment p with Some c => let? _ := commentTarget o c in go_on tt | None => go_on tt end) in
      let? o := claim o in
      let? _ := or_client (updateTaskSpec (oc_name o) (merge_rules (inp_AlertRules p))) in
      match inp_Issue p, inp_Comment p with
      | Some i, _ => file_issue o i (inp_Reason p)
      | None, Some c => incident_comment o c (inp_Reason p)
      | None, None =>
          let? o := finish o StateRejected ReasonFalsePositive (String.append "false_positive: " (inp_Reason p)) in
          okay o "false_positive"
      end
  end.

(** ** A refinement, with its folds *)

Definition foldMemberBusy (t : Task) : bool :=
  if (Api.PodName (Status t) != "") && is_set (PodStartedAt (Status t)) then true
  else str_mem [StateRefined; StateUnderImplementation; StateAwaitingReview; StateMerged; StateDeployed] (State (Status t)).

(** The swap of the controller in one update. *)
Definition adopt `{Artifact A} (o : A) (from to : Task) : Io unit :=
  match HandOverController (snd (AddPlainOwner (owners o) (task_Name to) (task_UID to))) (Some (task_Name from)) (Some (task_Name to)) with
  | Err e => fail (OwnerFault e)
  | Ok refs => write (update_obj (with_owners refs o))
  end.

(** What the umbrella has adopted, by name. *)
Inductive Adoptee := AdoptedIssue (name : string) | AdoptedMR (name : string).

Definition adopt_issue (proj : Project) (umbrella from : Task) (iss : Issue) : Io Adoptee :=
  let? _ := adopt iss from umbrella in
  let? _ := appendTaskRef proj (task_Name umbrella) (iss_Name iss) "" in
  ok (AdoptedIssue (iss_Name iss)).

Definition adopt_mr (proj : Project) (umbrella from : Task) (mr : MergeRequest) : Io Adoptee :=
  let? _ := adopt mr from umbrella in
  let? _ := appendTaskRef proj (task_Name umbrella) "" (mr_Name mr) in
  ok (AdoptedMR (mr_Name mr)).

Definition collect {A} (f : A -> Io Adoptee) (l : list A) (out : list Adoptee) : Io (list Adoptee) :=
  fold_prog l out (fun out a => let? x := f a in ok (out ++ [x])%list).

(** Everything the member controls. *)
Definition adopt_member (proj : Project) (umbrella : Task) (out : list Adoptee) (member : Task) : Io (list Adoptee) :=
  let? issues := controlledIssues member in
  let? out := collect (adopt_issue proj umbrella member) issues out in
  let? mrs := controlledMRs member in
  collect (adopt_mr proj umbrella member) mrs out.

(** A fresh read says that the umbrella is the controller. *)
Definition controlled (umbrella : Task) (a : Adoptee) : Prog Call bool :=
  match a with
  | AdoptedIssue name => Do (GetIssue Cached name) (fun r => Ret (match r with Ok i => owned_by umbrella i | Err _ => false end))
  | AdoptedMR name => Do (GetMergeRequest Cached name) (fun r => Ret (match r with Ok i => owned_by umbrella i | Err _ => false end))
  end.

Fixpoint verified (umbrella : Task) (l : list Adoptee) : Prog Call bool :=
  match l with
  | [] => Ret true
  | a :: rest => let! b := controlled umbrella a in if b then verified umbrella rest else Ret false
  end.

Inductive FoldResult := Folded | FoldUnverified.

Definition folding (names : list string) (since : Time) (t : Task) : Task :=
  on_status t (fun s => s <| FoldInFlight := names |> <| FoldInFlightSince := Some since |>).

(** Mark, adopt, verify, delete, unmark. *)
Definition foldMembers (proj : Project) (umbrella : Task) (members : list Task) : Io FoldResult :=
  Do TimeNow (fun since =>
    let? _ := fitTask_ proj (task_Name umbrella) (folding (map task_Name members) since) in
    let? adopted := fold_prog members [] (adopt_member proj umbrella) in
    let! sure := verified umbrella adopted in
    if negb sure then ok FoldUnverified
    else
      let? _ := foreach members (fun t => unless_missing (write (DeleteTask (task_Name t)))) in
      let? _ := fitTask_ proj (task_Name umbrella) no_fold in
      ok Folded).

(** The owner references of a link: a plain owner, the controller where there is none. *)
Definition linkOwnership `{Artifact A} (t : Task) (fresh : A) : result Fail (A * unit) :=
  let '(added, refs) := AddPlainOwner (owners fresh) (task_Name t) (task_UID t) in
  match ControllerOwner refs with
  | Some _ => if added then Ok (with_owners refs fresh, tt) else Err OwnerRefsUnchanged
  | None => match HandOverController refs None (Some (task_Name t)) with
            | Ok refs => Ok (with_owners refs fresh, tt)
            | Err e => Err (OwnerFault e)
            end
  end.

Definition linkArtifact (proj : Project) (t : Task) (l : linkRef) : Io unit :=
  if lk_IsPR l then
    let name := MergeRequestName (lk_Repo l) (lk_Number l) in
    let? _ := MutateArtifactOwnerRefs (zero_MergeRequest <| mr_Name := name |>) (linkOwnership t) in
    appendTaskRef proj (task_Name t) "" name
  else
    let name := IssueName (lk_Repo l) (lk_Number l) in
    let? _ := MutateArtifactOwnerRefs (zero_Issue <| iss_Name := name |>) (linkOwnership t) in
    appendTaskRef proj (task_Name t) name "".

(** A close is refused where another Task works the Issue, and where it would stop this Task
    in the middle of a fold. *)
Definition check_close (o : outcomeCtx) (folds : bool) (c : closeRef) : Http unit :=
  if (cl_Repo c == "") || (cl_Number c =? 0) || blank (cl_Reason c) then bad_ o "bad-closes"
  else
    let? iss := or_client (api (GetIssue Cached (IssueName (cl_Repo c) (cl_Number c)))) in
    match ControllerOwner (iss_OwnerReferences iss) with
    | None => go_on tt
    | Some ctrl =>
        if ctrl != oc_name o then conflict_ o "close-target-live"
        else if folds then conflict_ o "close-target-self-mid-fold" else go_on tt
    end.

Definition check_member (o : outcomeCtx) (name : string) : Http Task :=
  if name == "" then bad_ o "bad-folds"
  else
    let? t := or_client (getTaskCR name) in
    if task_Name t == oc_name o then bad_ o "bad-folds"
    else if foldMemberBusy t then conflict_ o "fold-target-live" else go_on t.

Definition close_one (o : outcomeCtx) (open : list string) (c : closeRef) : Http unit :=
  let? repo := or_client (repoCR (proj_Name (oc_proj o)) (cl_Repo c)) in
  Do (GetIssueClosed (repo_URL repo) (cl_Number c)) (fun r =>
    match r with
    | Err _ => answer (Reply 502 ErrorText)
    | Ok true => go_on tt
    | Ok false =>
        let? iss := or_client (api (GetIssue Cached (IssueName (cl_Repo c) (cl_Number c)))) in
        or_client (closeOrParkIssue (oc_proj o) (oc_task o) iss (cl_Reason c) "refine-closes" open)
    end).

Definition unverified_mutate (now : Time) (t : Task) : result StageError Task :=
  match Park t ReasonFoldAdoptionUnverified now with Ok t => Ok (no_fold t) | Err e => Err e end.

Definition refined_mutate (now : Time) (t : Task) : result StageError Task :=
  match Enter t [] StateDone "" now with Ok t => Ok (no_fold t) | Err e => Err e end.

Definition fold_all_members (o : outcomeCtx) (members : list Task) : Http unit :=
  match members with
  | [] => go_on tt
  | _ =>
      let! r := foldMembers (oc_proj o) (oc_task o) members in
      match r with
      | Ok Folded => go_on tt
      | Ok FoldUnverified =>
          let? o := commit_ o unverified_mutate in
          let? _ := count "rest_outcome_rejected" [oc_kind o; ReasonFoldAdoptionUnverified] in
          answer (Reply 409 ErrorText)
      | Err e => answer (ClientErr e)
      end
  end.

Definition refine (o : outcomeCtx) (p : refinePayload) : Http Response :=
  match rfp_Folds p, rfp_Closes p, rfp_Links p with
  | [], [], [] => bad_ o "empty-refine"
  | _, _, _ =>
      let? _ := foreach (rfp_Closes p) (check_close o (match rfp_Folds p with [] => false | _ => true end)) in
      if existsb (fun l => (lk_Repo l == "") || (lk_Number l =? 0)) (rfp_Links p) then bad_ o "bad-links"
      else
        let? members := fold_prog (rfp_Folds p) [] (fun l name => let? t := check_member o name in go_on (l ++ [t])%list) in
        let? _ := fold_all_members o members in
        let? _ := (match rfp_Closes p with
                   | [] => go_on tt
                   | closes =>
                       let? _ := writer_ (oc_proj o) in
                       let? open := or_client (openOwnedMRs (oc_task o)) in
                       foreach closes (close_one o open)
                   end) in
        let? _ := or_client (foreach (rfp_Links p) (linkArtifact (oc_proj o) (oc_task o))) in
        let? o := commit_ o refined_mutate in
        okay o "refine"
  end.

(** ** The request *)

Definition outcomeFingerprint (kind payload : string) : string :=
  sha256_hex (sprintf [kind; "|"; default payload (canonical payload)]).

Definition gateGrantEnvelope (kind payload : string) : bool :=
  if kind != "implement" then false else match actionOf payload with Some a => a == "approved" | None => false end.

(** A payload that cannot be decoded gives its claim back. *)
Definition decoded {A} (o : outcomeCtx) (p : option A) (handler : A -> Http Response) : Http Response :=
  match p with
  | Some p => handler p
  | None => let? _ := release_ o in answer (Reply 400 ErrorText)
  end.

Definition implement_ (o : outcomeCtx) (p : implementPayload) : Http Response :=
  implement mrSize taskSize sp notes m scmFor RemoveStatusCondition o p.

Definition review_ (o : outcomeCtx) (p : reviewPayload) : Http Response :=
  review parse mrSize taskSize sp notes m scmFor readerFor RemoveStatusCondition o p.

Definition dispatch (o : outcomeCtx) (payload : string) : Http Response :=
  let kind := oc_kind o in
  if kind == "implement" then
    decoded o (decodeImplement payload) (fun p =>
      if str_mem ["approved"; "discuss"; "rejected"]%string (ip_Action p) then gate o p else implement_ o p)
  else if (kind == "documentation") || (kind == "upgrade") then
    decoded o (decodeImplement payload) (fun p => if ip_Action p == "discuss" then gate o p else implement_ o p)
  else if kind == "review" then decoded o (decodeReview payload) (review_ o)
  else if kind == "brainstorm" then decoded o (decodeBrainstorm payload) (brainstorm o)
  else if kind == "incident" then decoded o (decodeIncident payload) (incident o)
  else if kind == "refine" then decoded o (decodeRefine payload) (refine o)
  else let? _ := release_ o in answer (Reply 400 ErrorText).

(** The gates every kind meets. *)
Definition admitted_outcome (t : Task) (fp kind payload : string) : Http Response :=
  let o proj := mkOutcomeCtx t proj fp kind false false in
  if TaskDone t then conflict_ (o zero_Project) "terminal-stage"
  else if ParkReason (Status t) != "" then conflict_ (o zero_Project) "task-parked"
  else if kind != AgentKind (Status t) then conflict_ (o zero_Project) "kind-mismatch"
  else
    let? proj := or_client (getProjectCR (ProjectRef (Spec t))) in
    dispatch (o proj) payload.

Definition outcome_handler (name kind payload : string) : Http Response :=
  if kind == "" then answer (Reply 400 ErrorText)
  else if payload == "" then answer (Reply 400 ErrorText)
  else
    let fp := outcomeFingerprint kind payload in
    Do TimeNow (fun now =>
    let? (t, st) := or_client (peekOutcomeClaim name fp now) in
    match st with
    | claimCommitted => go_on (Reply 200 (gateGrantReplayBody (gateGrantEnvelope kind payload) t))
    | claimInFlight => in_flight_answer kind
    | claimWon => admitted_outcome t fp kind payload
    end).

(** [caller]: the subject of the verified token, [None] where no middleware runs. *)
Definition postOutcome (caller : option string) (name : string) (body : Decoded) : Prog Call Response :=
  if match caller with Some subject => subject == "" | None => false end then Ret (Reply 403 ErrorText)
  else match body with
       | BodyTooLarge => Ret (Reply 413 ErrorText)
       | BodyMalformed => Ret (Reply 400 ErrorText)
       | Envelope kind payload =>
           let! r := outcome_handler name kind payload in
           Ret (match r with Ok a => a | Err a => a end)
       end.

End Submissions.

(** ** What the theorems say *)

(** The Issue was verified on what was read before. *)
Definition verified_before (UnescapeString : string -> string) (EqualFold : string -> string -> bool)
    (past : list (Did Call)) (proj : Project) (citations : list ApprovalCitation) (declared : string) (iss : Issue) : Prop :=
  exists get wall ev counted, In (did ApprovalReads (get, wall)) past
    /\ VerifyApprovalDeclared UnescapeString EqualFold get proj iss citations declared wall = ((Some ev, true, ""%string), counted).

(** Every Issue in scope that the Task controls was verified, there is one, and the plan that is
    named is the one that is pinned. *)
Definition scope_verified (UnescapeString : string -> string) (EqualFold : string -> string -> bool)
    (o : outcomeCtx) (p : implementPayload) (past : list (Did Call)) : Prop :=
  exists l, In (did ListIssues (Ok l)) past
    /\ (forall iss, In iss l -> owned_by (oc_task o) iss = true -> ApprovalInScope iss = true ->
          verified_before UnescapeString EqualFold past (oc_proj o) (ip_ApprovalCitations p) (ip_ApprovingMaintainer p) iss)
    /\ (exists iss, In iss l /\ owned_by (oc_task o) iss = true /\ ApprovalInScope iss = true)
    /\ exists note, planNote (oc_task o) = Some note /\ n_ID note = TrimSpace (ip_PlanNoteID p).

Definition approved_write (UnescapeString : string -> string) (EqualFold : string -> string -> bool)
    (o : outcomeCtx) (p : implementPayload) (past : list (Did Call)) (d : Did Call) : Prop :=
  is_write (did_call d) = true -> scope_verified UnescapeString EqualFold o p past.

(** A fresh read has said that the umbrella controls it. *)
Definition confirmed (umbrella : Task) (past : list (Did Call)) (a : Adoptee) : Prop :=
  match a with
  | AdoptedIssue name => exists i, In (did (GetIssue Cached name) (Ok i)) past /\ owned_by umbrella i = true
  | AdoptedMR name => exists i, In (did (GetMergeRequest Cached name) (Ok i)) past /\ owned_by umbrella i = true
  end.

(** A member is deleted after everything that it was listed to control. *)
Definition deletes_the_emptied (umbrella : Task) (past : list (Did Call)) (d : Did Call) : Prop :=
  forall name x, d = did (DeleteTask name) x ->
  exists member issues mrs, task_Name member = name
    /\ In (did ListIssues (Ok issues)) past /\ In (did (ListMergeRequests Cached) (Ok mrs)) past
    /\ (forall i, In i issues -> owned_by member i = true -> confirmed umbrella past (AdoptedIssue (iss_Name i)))
    /\ (forall i, In i mrs -> owned_by member i = true -> confirmed umbrella past (AdoptedMR (mr_Name i))).

Definition is_task_delete {X} (c : Call X) : bool := match c with DeleteTask _ => true | _ => false end.

(** *** Samples *)

Definition sample_planned : Task :=
  on_status sample_task (fun s => s <| State := StateRefined |> <| AgentKind := "implement"%string |>
                                    <| Notes := [mkNote "n" 0 "implement" planNoteKind "the plan"] |>).

Definition sample_approved : Issue :=
  zero_Issue <| iss_Name := "i"%string |> <| iss_OwnerReferences := sample_owner sample_task |>
    <| iss_Status ::= fun s => s <| iss_State := "open"%string |> <| iss_StatusWord := "approved"%string |>
         <| iss_Approval := Some (mkApprovalEvidence "maintainer" "c" 0 "go ahead" false "") |> |>.

Definition stores (t : Task) : list (GetAnswer Task) * list (Attempt Task) := ([ObjBudget.Found t], [mkAttempt (Some t) UpdateOk]).

(** The Task controls an Issue that is approved; every write is stored at once. *)
Definition gate_world : World Call := fun _ X c =>
  match c in Call X return X with
  | ListIssues => Ok [sample_approved]
  | GetTask _ _ => Ok sample_planned
  | IssueAnswers _ => ([ObjBudget.Found sample_approved], [mkAttempt (Some sample_approved) UpdateOk])
  | TaskAnswers _ => stores sample_planned
  | c => nowhere c
  end.

Definition sample_grant : implementPayload := mkImplementPayload "approved" "" "" "" [] "as planned" "" "n" [].

Definition sample_gate : Http Response :=
  gate id (fun _ => Some 0) (fun _ => Some 0) (fun _ => None) (fun _ => None) true true (fun l _ => l) id String.eqb
    (mkOutcomeCtx sample_planned zero_Project "fp" "implement" false false) sample_grant.

Definition sample_session : Task :=
  on_status (sample_task <| Spec ::= fun s => s <| Kind := "brainstorm"%string |> |>)
    (fun s => s <| State := StateRefined |> <| AgentKind := "brainstorm"%string |>).

(** The Task of a brainstorm, which proposes nothing. *)
Definition skip_world : World Call := fun _ X c =>
  match c in Call X return X with
  | GetTask _ _ => Ok sample_session
  | GetProject _ => Ok zero_Project
  | TaskAnswers _ => stores sample_session
  | c => nowhere c
  end.

Definition sample_post (kind : string) (brainstorm : option brainstormPayload) (refine : option refinePayload) : Prog Call Response :=
  postOutcome Some id id (fun _ => Some 0) (fun _ => Some 0) (fun _ => Some 0) (fun _ => None) (fun _ => None) true true true true
    (fun l _ => l) id String.eqb 0 (fun _ => None) (fun _ => None) (fun _ => None) (fun _ => None) (fun _ => brainstorm) (fun _ => None)
    (fun _ => refine) None "t" (Envelope kind "{}").

(** An umbrella with one member, and the Issue of the member before and after its adoption. *)
Definition sample_umbrella : Task :=
  on_status (sample_task <| Spec ::= fun s => s <| Kind := "refine"%string |> |>)
    (fun s => s <| State := StateRefined |> <| AgentKind := "refine"%string |>).

Definition sample_member : Task := zero_Task <| task_Name := "m"%string |> <| task_UID := "um"%string |>.

Definition issue_of (t : Task) : Issue := zero_Issue <| iss_Name := "i"%string |> <| iss_OwnerReferences := sample_owner t |>.

Definition sample_fold : refinePayload := mkRefinePayload ["m"%string] [] [].

(** The umbrella is free; with [rival], another copy of the request has claimed the outcome by
    the time the member is deleted. *)
Definition fold_world (rival : bool) : World Call := fun past X c =>
  match c in Call X return X with
  | GetTask _ name =>
      if name == "m" then Ok sample_member
      else if rival && existsb (fun d => is_task_delete (did_call d)) past
           then Ok (claimed_by (outcomeFingerprint (fun _ => None) "refine" "{}") 0 sample_umbrella) else Ok sample_umbrella
  | GetProject _ => Ok zero_Project
  | ListIssues => Ok [issue_of sample_member]
  | GetIssue _ _ => Ok (issue_of sample_umbrella)
  | TaskAnswers _ => stores sample_umbrella
  | c => nowhere c
  end.

(** The sample gate over an Issue without a word from anybody. *)
Definition unapproved_world : World Call := fun _ X c =>
  match c in Call X return X with
  | ListIssues => Ok [sample_approved <| iss_Status ::= fun s => s <| iss_StatusWord := "new"%string |> <| iss_Approval := None |> |>]
  | c => nowhere c
  end.

Definition counts_refusal (reason : string) (d : Did Call) : bool :=
  match did_call d with Count name [r] => (name == "approval_refused") && (r == reason) | _ => false end.

(** ** Lemmas *)

Section BehindTheClaim.

Context (parse : string -> option string) (Quote toLower : string -> string)
  (issueSize : Issue -> option Z) (mrSize : MergeRequest -> option Z) (taskSize : Task -> option Z)
  (sp : Project -> option (Spiller Comment)) (notes : Project -> option (Spiller Note))
  (m scmFor readerFor approval : bool)
  (RemoveStatusCondition : list Condition -> string -> list Condition)
  (UnescapeString : string -> string) (EqualFold : string -> string -> bool)
  (incidentInvestigationCommentCooldown : Duration)
  (canonical actionOf : string -> option string)
  (decodeImplement : string -> option implementPayload) (decodeReview : string -> option reviewPayload)
  (decodeBrainstorm : string -> option brainstormPayload) (decodeIncident : string -> option incidentPayload)
  (decodeRefine : string -> option refinePayload).

Lemma quiet_count_approval c : each quiet (count_approval m c).
Proof. destruct c; apply quiet_metric. Qed.

Lemma quiet_scope_loop proj citations declared issues : forall out,
  each quiet (scope_loop m UnescapeString EqualFold proj citations declared issues out).
Proof.
  induction issues as [|iss issues IH]; intros out; cbn [scope_loop]; [destruct out; by apply keeps_ret, closed_Forall|].
  destruct (negb _); [apply IH|]. apply keeps_do; [apply closed_Forall|by repeat constructor|]. intros [get wall].
  destruct (VerifyApprovalDeclared _ _ _ _ _ _ _ _) as [[[ev ok_] refusal] counted].
  apply keeps_bind; [apply closed_Forall|apply quiet_foreach; intros; apply quiet_count_approval|]. intros _.
  destruct (_ != _); [by apply keeps_ret, closed_Forall|]. destruct ev as [ev|]; [|by apply keeps_ret, closed_Forall].
  destruct ok_; [apply IH|by apply keeps_ret, closed_Forall].
Qed.

Lemma quiet_verifyApprovalScope proj issues citations declared :
  each quiet (verifyApprovalScope m approval UnescapeString EqualFold proj issues citations declared).
Proof.
  unfold verifyApprovalScope. destruct (negb approval); [by apply keeps_ret, closed_Forall|].
  destruct issues; [by apply keeps_ret, closed_Forall|apply quiet_scope_loop].
Qed.

Lemma quiet_refuseGate o reason declared : each quiet (refuseGate o reason declared).
Proof. apply keeps_try; [apply closed_Forall|apply quiet_count|]. intros; by apply keeps_ret, closed_Forall. Qed.

Lemma gate_behind o p : oc_claimed o = false ->
  always (behind_claim (oc_fp o)) (gate Quote issueSize taskSize sp notes m approval RemoveStatusCondition UnescapeString EqualFold o p).
Proof.
  intros Ho. unfold gate. destruct (gate_fault p); [by apply refuse_behind|].
  apply reading_then; [apply quiet_or_client, quiet_controlledMRs|]. intros mrs.
  destruct (_ == "discuss"); [by apply commit_then|]. destruct (_ == "rejected").
  { apply reading_then; [apply quiet_or_client, quiet_controlledIssues|]. intros issues. by apply claim_then. }
  unfold approve. destruct (negb _); [by apply refuse_behind|]. destruct (blank _); [by apply refuse_behind|].
  destruct (planNote _) as [note|]; [|apply always_quiet, quiet_refuseGate]. destruct (_ != _); [apply always_quiet, quiet_refuseGate|].
  apply reading_then; [apply quiet_or_client, quiet_controlledIssues|]. intros issues.
  apply reading_with; [apply quiet_verifyApprovalScope|]. intros [[granted out] refusal].
  destruct granted; [by apply (claim_then (granting o))|].
  apply reading_then; [destruct (_ != _); [apply quiet_metric|by apply keeps_ret, closed_Forall]|].
  intros _. apply always_quiet, quiet_refuseGate.
Qed.

Lemma brainstorm_behind o p : oc_claimed o = false ->
  always (behind_claim (oc_fp o))
    (brainstorm parse toLower taskSize notes m scmFor RemoveStatusCondition o p).
Proof. intros Ho. unfold brainstorm. destruct (brainstorm_fault p); [by apply refuse_behind|by apply claim_then]. Qed.

Lemma commentTarget_behind o c : oc_claimed o = false -> always (behind_claim (oc_fp o)) (commentTarget RemoveStatusCondition o c).
Proof.
  intros Ho. unfold commentTarget. apply reading_then; [apply quiet_or_client, quiet_repoCR|]. intros repo.
  apply always_do; [intros; by apply quiet_behind|]. intros [iss|e]; [|by apply refuse_behind].
  destruct (_ && _); [by apply refuse_behind|apply always_ret].
Qed.

Lemma incident_behind o p : oc_claimed o = false ->
  always (behind_claim (oc_fp o))
    (incident parse issueSize taskSize sp notes m scmFor RemoveStatusCondition incidentInvestigationCommentCooldown o p).
Proof.
  intros Ho. unfold incident. destruct (incident_fault p); [by apply refuse_behind|]. apply always_try.
  - destruct (inp_Comment p); [|apply always_ret]. apply always_try; [by apply commentTarget_behind|intros; apply always_ret].
  - intros _. by apply claim_then.
Qed.

Lemma decoded_behind {A} o (p : option A) (h : A -> Http Response) : oc_claimed o = false ->
  (forall p, always (behind_claim (oc_fp o)) (h p)) -> always (behind_claim (oc_fp o)) (decoded RemoveStatusCondition o p h).
Proof. intros Ho Hh. unfold decoded. destruct p; [apply Hh|]. rewrite release_unclaimed by done. apply always_ret. Qed.

Lemma dispatch_behind o payload : oc_claimed o = false -> oc_kind o <> "refine"%string ->
  always (behind_claim (oc_fp o))
    (dispatch parse Quote toLower issueSize mrSize taskSize sp notes m scmFor readerFor approval RemoveStatusCondition
       UnescapeString EqualFold incidentInvestigationCommentCooldown decodeImplement decodeReview decodeBrainstorm
       decodeIncident decodeRefine o payload).
Proof.
  intros Ho Hk. unfold dispatch, implement_, review_.
  destruct (oc_kind o == "implement").
  { apply decoded_behind; [done|]. intros p. destruct (str_mem _ _); [by apply gate_behind|by apply implement_behind]. }
  destruct (_ || _).
  { apply decoded_behind; [done|]. intros p. destruct (_ == _); [by apply gate_behind|by apply implement_behind]. }
  destruct (oc_kind o == "review"); [apply decoded_behind; [done|]; intros; by apply review_behind|].
  destruct (oc_kind o == "brainstorm"); [apply decoded_behind; [done|]; intros; by apply brainstorm_behind|].
  destruct (oc_kind o == "incident"); [apply decoded_behind; [done|]; intros; by apply incident_behind|].
  rewrite str_neq_eqb by done. rewrite release_unclaimed by done. apply always_ret.
Qed.

Lemma admitted_behind t fp kind payload : kind <> "refine"%string ->
  always (behind_claim fp)
    (admitted_outcome parse Quote toLower issueSize mrSize taskSize sp notes m scmFor readerFor approval RemoveStatusCondition
       UnescapeString EqualFold incidentInvestigationCommentCooldown decodeImplement decodeReview decodeBrainstorm
       decodeIncident decodeRefine t fp kind payload).
Proof.
  intros Hk. unfold admitted_outcome, getProjectCR.
  set (o proj := mkOutcomeCtx t proj fp kind false false). change fp with (oc_fp (o zero_Project)).
  destruct (TaskDone t); [by apply refuse_behind|]. destruct (_ != ""); [by apply refuse_behind|].
  destruct (kind != _); [by apply refuse_behind|].
  apply always_try; [apply always_quiet, quiet_or_client, keeps_api; [apply closed_Forall|by repeat constructor]|].
  intros proj. by apply (dispatch_behind (o proj)).
Qed.

(** ** Properties *)


End BehindTheClaim.

(** *** The gate verifies before it writes *)

Section GateWrites.

Context (Quote : string -> string) (issueSize : Issue -> option Z) (taskSize : Task -> option Z)
  (sp : Project -> option (Spiller Comment)) (notes : Project -> option (Spiller Note)) (m approval : bool)
  (RemoveStatusCondition : list Condition -> string -> list Condition)
  (UnescapeString : string -> string) (EqualFold : string -> string -> bool) (o : outcomeCtx) (p : implementPayload).

#[local] Abbreviation P := (approved_write UnescapeString EqualFold o p).

Lemma quiet_approved past d : quiet d -> P past d.
Proof. unfold quiet, approved_write. by intros ->. Qed.

#[local] Abbreviation guards := (Calls.guards P).

Lemma quiet_trace past es : Forall quiet es -> guarded P past es.
Proof. intros Hes. by apply (guarded_free _ quiet); [apply quiet_approved|]. Qed.

Lemma quiet_guards {A} past (q : Prog Call A) : each quiet q -> guards past q.
Proof. intros H. eapply does_mono; [|exact H]. intros a es. apply quiet_trace. Qed.

Lemma verified_app past es proj citations declared iss : verified_before UnescapeString EqualFold past proj citations declared iss ->
  verified_before UnescapeString EqualFold (past ++ es) proj citations declared iss.
Proof. intros (get & wall & ev & counted & Hin & Hv). exists get, wall, ev, counted. split; [apply in_or_app; by left|done]. Qed.

Lemma scope_loop_verifies proj citations declared : forall issues out past,
  does (scope_loop m UnescapeString EqualFold proj citations declared issues out)
    (fun r es => fst (fst r) = true ->
       (forall iss, In iss issues -> ApprovalInScope iss = true ->
          verified_before UnescapeString EqualFold (past ++ es) proj citations declared iss)
       /\ (out = [] -> exists iss, In iss issues /\ ApprovalInScope iss = true)).
Proof.
  induction issues as [|iss issues IH]; intros out past; cbn [scope_loop]; [by destruct out|].
  destruct (ApprovalInScope iss) eqn:Es; cbn [negb].
  2: { eapply does_mono; [|apply (IH out past)]. intros r es H Hr. destruct (H Hr) as [Hv Hn]. split.
       - intros i [<-|Hin] Hi; [congruence|by apply Hv].
       - intros Ho. destruct (Hn Ho) as (i & Hin & Hi). exists i. split; [by right|done]. }
  intros [get wall]. destruct (VerifyApprovalDeclared _ _ _ _ _ _ _ _) as [[[ev ok_] refusal] counted] eqn:Ev.
  apply does_bind. eapply does_mono; [|apply does_True]. intros _ es1 _.
  destruct (String.eqb_spec refusal "") as [->|Hne]; cbn [negb]; [|done].
  destruct ev as [ev|]; [|done]. destruct ok_; [|done].
  eapply does_mono; [|apply (IH _ (past ++ did ApprovalReads (get, wall) :: es1))]. intros r es H Hr. destruct (H Hr) as [Hv _].
  rewrite <- app_assoc in Hv. split.
  - intros i [<-|Hin] Hi; [|by apply Hv]. exists get, wall, ev, counted. split; [|exact Ev]. apply in_or_app. right. by left.
  - intros _. exists iss. split; [by left|done].
Qed.

Lemma verify_scope proj issues citations declared past :
  does (verifyApprovalScope m approval UnescapeString EqualFold proj issues citations declared)
    (fun r es => fst (fst r) = true ->
       (forall iss, In iss issues -> ApprovalInScope iss = true ->
          verified_before UnescapeString EqualFold (past ++ es) proj citations declared iss)
       /\ exists iss, In iss issues /\ ApprovalInScope iss = true).
Proof.
  unfold verifyApprovalScope. destruct (negb approval); [done|]. destruct issues as [|i l]; [done|].
  eapply does_mono; [|apply (scope_loop_verifies proj citations declared (i :: l) [] past)]. intros r es H Hr. destruct (H Hr). auto.
Qed.

(** Whatever comes once the scope is verified. *)
Lemma guards_all {A} past (q : Prog Call A) : scope_verified UnescapeString EqualFold o p past -> guards past q.
Proof.
  intros H. eapply does_mono; [|apply does_True]. intros a es _.
  apply (guarded_once _ (scope_verified UnescapeString EqualFold o p)); [by intros past' d Hv _| |exact H].
  intros past' d (l & Hl & Hv & Hs & Hn). exists l. split_and!; [apply in_or_app; by left| |done|done].
  intros iss Hin Hown Hsc. by apply verified_app, Hv.
Qed.

Lemma controlledIssues_listed t :
  does (or_client (controlledIssues t)) (fun r es => Forall quiet es /\ forall issues, r = Ok issues ->
    exists l, In (did ListIssues (Ok l)) es /\ forall i, In i issues <-> In i l /\ owned_by t i = true).
Proof.
  intros [l|e]; cbn; (split; [by repeat constructor|]); [|done]. intros issues [= <-].
  exists l. split; [by left|]. apply owned_named_iff.
Qed.

Lemma approve_guards mrs past : oc_claimed o = false ->
  guards past (approve Quote issueSize taskSize sp notes m approval RemoveStatusCondition UnescapeString EqualFold o mrs p).
Proof.
  intros Ho. unfold approve.
  assert (forall A status reason, guards past (refuse RemoveStatusCondition (A := A) status o reason)) as Hbad.
  { intros A status reason. apply quiet_guards. unfold refuse. rewrite release_unclaimed by done.
    apply keeps_try; [apply closed_Forall|by apply keeps_ret, closed_Forall|]. intros o'.
    apply keeps_try; [apply closed_Forall|apply quiet_count|]. intros; by apply keeps_ret, closed_Forall. }
  assert (forall past reason, guards past (refuseGate o reason (ip_ApprovingMaintainer p))) as Hno
    by (intros; apply quiet_guards, quiet_refuseGate).
  destruct (negb _); [apply Hbad|]. destruct (blank _); [apply Hbad|].
  destruct (planNote (oc_task o)) as [note|] eqn:En; [|apply Hno].
  destruct (String.eqb_spec (n_ID note) (TrimSpace (ip_PlanNoteID p))) as [Hid|]; cbn [negb]; [|apply Hno].
  apply (guards_try _ quiet); [apply quiet_approved|]. eapply does_mono; [|apply controlledIssues_listed]. intros r es [Hes Hl]. split; [exact Hes|].
  intros issues Hr. destruct (Hl issues Hr) as (l & Hin & Hiff). apply (guards_bind _ quiet); [apply quiet_approved|].
  eapply does_mono; [|exact (does_and _ _ _ (quiet_verifyApprovalScope m approval UnescapeString EqualFold (oc_proj o) issues (ip_ApprovalCitations p) (ip_ApprovingMaintainer p)) (verify_scope _ issues _ _ (past ++ es)))].
  intros [[granted out] refusal] es2 [Hes2 Hv]. split; [exact Hes2|]. cbn [fst] in Hv. destruct granted.
  - apply guards_all. destruct (Hv eq_refl) as [Hall (i & Hi & Hs)]. exists l. split_and!.
    + apply in_or_app. left. apply in_or_app. by right.
    + intros iss Hin' Hown Hsc. apply Hall; [by apply Hiff|exact Hsc].
    + exists i. apply Hiff in Hi as [Hi Ho']. done.
    + exists note. done.
  - apply (guards_try _ quiet); [apply quiet_approved|]. eapply does_mono; [|instantiate (1 := fun _ es => Forall quiet es)].
    + intros r3 es3 Hes3. split; [exact Hes3|]. intros _ _. apply Hno.
    + destruct (_ != _); [apply quiet_metric|by apply keeps_ret, closed_Forall].
Qed.

Lemma gate_guards past : oc_claimed o = false -> ip_Action p = "approved"%string ->
  guards past (gate Quote issueSize taskSize sp notes m approval RemoveStatusCondition UnescapeString EqualFold o p).
Proof.
  intros Ho Ha. unfold gate. destruct (gate_fault p).
  - apply quiet_guards. unfold bad, refuse. rewrite release_unclaimed by done.
    apply keeps_try; [apply closed_Forall|by apply keeps_ret, closed_Forall|]. intros o'.
    apply keeps_try; [apply closed_Forall|apply quiet_count|]. intros; by apply keeps_ret, closed_Forall.
  - apply (guards_try _ quiet); [apply quiet_approved|]. eapply does_mono; [|exact (quiet_or_client _ (quiet_controlledMRs (oc_task o)))]. intros r es Hes.
    split; [exact Hes|]. intros mrs _. rewrite Ha. cbn. by apply approve_guards.
Qed.

End GateWrites.

(** *** A fold deletes what it has emptied *)

Section Folding.

Context (taskSize : Task -> option Z) (notes : Project -> option (Spiller Note)) (proj : Project) (umbrella : Task).

(** Every call but the deletion of a Task. *)
Definition spares (d : Did Call) : Prop := is_task_delete (did_call d) = false.

Lemma spares_deletes past d : spares d -> deletes_the_emptied umbrella past d.
Proof. intros Hs name x ->. discriminate. Qed.

Lemma quiet_spares {A} (q : Prog Call A) : each quiet q -> each spares q.
Proof. intros H. eapply does_mono; [|exact H]. intros a es. apply List.Forall_impl. intros [X c x] Hq. by destruct c. Qed.

(** A step into a program that deletes no Task. *)
Ltac sparing := repeat first [ progress unfold go_on, answer, each, count, metric, or_client, best_effort | keep_step ltac:(repeat constructor) ].

Lemma collect_spec {A} (f : A -> Io Adoptee) (name : A -> Adoptee) :
  (forall a, each spares (f a)) -> (forall a, yields (fun x => x = name a) (f a)) -> forall l out,
  does (collect f l out) (fun r es => Forall spares es /\ forall out', r = Ok out' -> incl out out' /\ forall a, In a l -> In (name a) out').
Proof.
  intros Hs Hy. unfold collect. induction l as [|a l IH]; intros out; cbn [fold_prog].
  - split; [done|]. intros out' [= <-]. split; [apply incl_refl|done].
  - apply does_try, does_try. eapply does_mono; [|exact (does_and _ _ _ (Hs a) (Hy a))]. intros [x|e] es [Hes Hx]; [|by split].
    cbn. eapply does_mono; [|apply IH]. rewrite (Hx x eq_refl). intros r es' [Hes' Ho]. split; [by rewrite app_nil_r; apply Forall_app|].
    intros out' Hr. destruct (Ho out' Hr) as [Hi Ha]. split.
    + intros y Hy'. apply Hi, in_or_app. by left.
    + intros b [<-|Hin]; [apply Hi, in_or_app; right; by left|by apply Ha].
Qed.

Lemma spares_adopt `{Artifact A} (a : A) from to : (forall a x, spares (did (update_obj a) x)) -> each spares (adopt a from to).
Proof. intros Hu. unfold adopt. destruct (HandOverController _ _ _); [|sparing].
  apply keeps_write; [apply closed_Forall|]. intros x. constructor; [apply Hu|done].
Qed.

Lemma adopt_issue_spec from i : each spares (adopt_issue taskSize notes proj umbrella from i)
  /\ yields (fun x => x = AdoptedIssue (iss_Name i)) (adopt_issue taskSize notes proj umbrella from i).
Proof.
  unfold adopt_issue, appendTaskRef. split.
  - apply keeps_try; [apply closed_Forall|by apply spares_adopt|]. intros _. sparing.
  - apply (yields_try (fun _ => True)); [apply yields_any|]. intros _ _.
    apply (yields_try (fun _ => True)); [apply yields_any|]. by intros _ _ a [= <-].
Qed.

Lemma adopt_mr_spec from i : each spares (adopt_mr taskSize notes proj umbrella from i)
  /\ yields (fun x => x = AdoptedMR (mr_Name i)) (adopt_mr taskSize notes proj umbrella from i).
Proof.
  unfold adopt_mr, appendTaskRef. split.
  - apply keeps_try; [apply closed_Forall|by apply spares_adopt|]. intros _. sparing.
  - apply (yields_try (fun _ => True)); [apply yields_any|]. intros _ _.
    apply (yields_try (fun _ => True)); [apply yields_any|]. by intros _ _ a [= <-].
Qed.

(** What a member was listed to control is among the adopted. *)
Definition taken_over (es : list (Did Call)) (out : list Adoptee) (member : Task) : Prop :=
  exists issues mrs, In (did ListIssues (Ok issues)) es /\ In (did (ListMergeRequests Cached) (Ok mrs)) es
    /\ (forall i, In i issues -> owned_by member i = true -> In (AdoptedIssue (iss_Name i)) out)
    /\ (forall i, In i mrs -> owned_by member i = true -> In (AdoptedMR (mr_Name i)) out).

Lemma taken_over_grows es es' out out' member : incl es es' -> incl out out' -> taken_over es out member -> taken_over es' out' member.
Proof. intros He Ho (issues & mrs & H1 & H2 & H3 & H4). exists issues, mrs. split_and!; auto. Qed.

Lemma adopt_member_spec out member :
  does (adopt_member taskSize notes proj umbrella out member)
    (fun r es => Forall spares es /\ forall out', r = Ok out' -> incl out out' /\ taken_over es out' member).
Proof.
  unfold adopt_member, controlledIssues, controlledMRs. apply does_try. intros [issues|e]; cbn; [|split; [by repeat constructor|done]].
  apply does_try. eapply does_mono; [|exact (collect_spec _ _ (fun i => proj1 (adopt_issue_spec member i)) (fun i => proj2 (adopt_issue_spec member i)) _ _)].
  intros [out1|e] es [Hes H1]; [|split; [by repeat constructor|done]]. destruct (H1 out1 eq_refl) as [Hi1 Ha1].
  intros [mrs|e]; cbn; [|split; [by constructor; [|apply Forall_app; split; [|repeat constructor]]|done]].
  eapply does_mono; [|exact (collect_spec _ _ (fun i => proj1 (adopt_mr_spec member i)) (fun i => proj2 (adopt_mr_spec member i)) _ _)].
  intros r es2 [Hes2 H2]. split; [constructor; [done|apply Forall_app; split; [done|by constructor]]|].
  intros out' Hr. destruct (H2 out' Hr) as [Hi2 Ha2]. split; [by eapply incl_tran|].
  exists issues, mrs. split_and!; [by left|right; apply in_or_app; right; by left| |].
  - intros i Hin Ho. apply Hi2, Ha1, owned_named_iff. by split.
  - intros i Hin Ho. apply Ha2, owned_named_iff. by split.
Qed.

Lemma adopt_all_spec : forall members out,
  does (fold_prog members out (adopt_member taskSize notes proj umbrella))
    (fun r es => Forall spares es /\ forall out', r = Ok out' -> incl out out' /\ forall t, In t members -> taken_over es out' t).
Proof.
  induction members as [|t members IH]; intros out; cbn [fold_prog].
  - split; [done|]. intros out' [= <-]. split; [apply incl_refl|done].
  - apply does_try. eapply does_mono; [|apply adopt_member_spec]. intros [out1|e] es [Hes H1]; [|by split].
    destruct (H1 out1 eq_refl) as [Hi1 Ht]. eapply does_mono; [|apply IH]. intros r es2 [Hes2 H2].
    split; [by apply Forall_app|]. intros out' Hr. destruct (H2 out' Hr) as [Hi2 Ha]. split; [by eapply incl_tran|].
    intros t' [<-|Hin].
    + eapply taken_over_grows; [apply incl_appl, incl_refl|exact Hi2|exact Ht].
    + eapply taken_over_grows; [apply incl_appr, incl_refl|apply incl_refl|by apply Ha].
Qed.

Lemma confirmed_grows es es' a : incl es es' -> confirmed umbrella es a -> confirmed umbrella es' a.
Proof. intros H. destruct a; intros (i & Hin & Hi); exists i; (split; [by apply H|done]). Qed.

Lemma verified_spec : forall l,
  does (verified umbrella l) (fun b es => Forall spares es /\ (b = true -> forall a, In a l -> confirmed umbrella es a)).
Proof.
  induction l as [|a l IH]; cbn [verified]; [by split|]. apply does_bind.
  assert (does (controlled umbrella a) (fun b es => Forall spares es /\ (b = true -> confirmed umbrella es a))) as Hc.
  { destruct a as [name|name]; cbn; intros [i|e]; (split; [by repeat constructor|]); [|done| |done]; intros Hi; exists i; (split; [by left|done]). }
  eapply does_mono; [|exact Hc]. intros [] es [Hes Ha]; [|split; [by rewrite app_nil_r|done]].
  eapply does_mono; [|exact IH]. intros b es2 [Hes2 Hl]. split; [by apply Forall_app|]. intros Hb a' [<-|Hin].
  - eapply confirmed_grows; [apply incl_appl, incl_refl|by apply Ha].
  - eapply confirmed_grows; [apply incl_appr, incl_refl|by apply Hl].
Qed.

(** Everything of a member has a new controller. *)
Definition emptied (past : list (Did Call)) (member : Task) : Prop :=
  exists issues mrs, In (did ListIssues (Ok issues)) past /\ In (did (ListMergeRequests Cached) (Ok mrs)) past
    /\ (forall i, In i issues -> owned_by member i = true -> confirmed umbrella past (AdoptedIssue (iss_Name i)))
    /\ (forall i, In i mrs -> owned_by member i = true -> confirmed umbrella past (AdoptedMR (mr_Name i))).

Lemma emptied_grows past past' member : incl past past' -> emptied past member -> emptied past' member.
Proof.
  intros H (issues & mrs & H1 & H2 & H3 & H4). exists issues, mrs.
  split_and!; auto; intros i Hin Ho; eapply confirmed_grows; eauto.
Qed.

(** The deletions, and what follows them. *)
Lemma deletions_guards {A} members past (q : Prog Call A) : (forall t, In t members -> emptied past t) ->
  each (fun d => spares d \/ exists t x, In t members /\ d = did (DeleteTask (task_Name t)) x) q ->
  guards (deletes_the_emptied umbrella) past q.
Proof.
  intros He Hq. eapply does_mono; [|exact Hq]. intros a es Hes.
  eapply (guarded_each _ (fun past => forall t, In t members -> emptied past t)); [| |exact He|exact Hes].
  - intros past' d Hp [Hs|(t & x & Hin & ->)]; [by apply spares_deletes|]. intros name y Hd. inversion Hd; subst.
    destruct (Hp t Hin) as (issues & mrs & H). by exists t, issues, mrs.
  - intros past' d Hp t Hin. eapply emptied_grows; [apply incl_appl, incl_refl|by apply Hp].
Qed.

Lemma foldMembers_guards members past : guards (deletes_the_emptied umbrella) past (foldMembers taskSize notes proj umbrella members).
Proof.
  unfold foldMembers. apply (guards_bind _ spares _ (ask TimeNow)); [apply spares_deletes|]. intros since. split; [by repeat constructor|].
  apply (guards_try _ spares); [apply spares_deletes|].
  assert (each spares (let? _ := fitTask taskSize (notes proj) (task_Name umbrella) (folding (map task_Name members) since) in ok tt)) as Hm
    by sparing.
  eapply does_mono; [|exact Hm]. intros r es Hes. split; [exact Hes|]. intros _ _.
  apply (guards_try _ spares); [apply spares_deletes|]. eapply does_mono; [|apply adopt_all_spec].
  intros r2 es2 [Hes2 Hout]. split; [exact Hes2|]. intros adopted Hr. destruct (Hout adopted Hr) as [_ Hall].
  apply (guards_bind _ spares); [apply spares_deletes|]. eapply does_mono; [|apply verified_spec].
  intros sure es3 [Hes3 Hv]. split; [exact Hes3|]. destruct sure; cbn [negb]; [|done]. specialize (Hv eq_refl).
  apply (deletions_guards members).
  - intros t Hin. destruct (Hall t Hin) as (issues & mrs & H1 & H2 & H3 & H4). exists issues, mrs.
    assert (incl es2 ((((past ++ [did TimeNow since]) ++ es) ++ es2) ++ es3)) as Hi2 by (intros y Hy; apply in_or_app; left; apply in_or_app; by right).
    split_and!; [by apply Hi2|by apply Hi2| |]; intros i Hi Ho; eapply confirmed_grows; try apply Hv; auto; intros y Hy; apply in_or_app; by right.
  - apply keeps_try; [apply closed_Forall| |intros _; keep_go ltac:(constructor; [by left|done])].
    apply keeps_foreach; [apply closed_Forall|]. intros t Hin.
    keep_go ltac:(constructor; [right; by exists t, x|done]).
Qed.

End Folding.

Section Refining.

Context (issueSize : Issue -> option Z) (taskSize : Task -> option Z) (sp : Project -> option (Spiller Comment))
  (notes : Project -> option (Spiller Note)) (m scmFor : bool) (RemoveStatusCondition : list Condition -> string -> list Condition).

#[local] Abbreviation always_ u q := (always (deletes_the_emptied u) q).

Lemma spares_always {A} u (q : Prog Call A) : each spares q -> always_ u q.
Proof. apply always_free. intros past d. apply spares_deletes. Qed.

(** A step into a program that deletes no Task. *)
Ltac sparing := repeat first [ progress unfold go_on, answer, each, count, metric, or_client, best_effort, ok, fail | keep_step ltac:(repeat constructor) ].

Lemma spares_refuse {A} status o reason : each spares (refuse RemoveStatusCondition (A := A) status o reason).
Proof. unfold refuse, release. sparing. Qed.

Lemma spares_claim o : each spares (claim o).
Proof. unfold claim, claimOutcomeFingerprint, in_flight_answer. sparing. Qed.

Lemma spares_commit o mutate : each spares (commit taskSize notes m RemoveStatusCondition o mutate).
Proof.
  unfold commit, commitAs. apply keeps_try; [apply closed_Forall|apply spares_claim|]. intros o'.
  apply keeps_bind; [apply closed_Forall|unfold commit_write, commit_fit; sparing|]. intros [r e].
  destruct e as [[]|]; [apply spares_refuse|sparing..|]. destruct r as [w|[]]; try (unfold best_effort; sparing).
  unfold committed, best_effort, delete_wrapper. sparing.
Qed.

Lemma spares_closeOrPark proj t iss reason path open : each spares (closeOrParkIssue issueSize sp proj t iss reason path open).
Proof. unfold closeOrParkIssue, queueIssueClose, queueIssuePark, fit_issue. sparing. Qed.

Lemma spares_close_one o open c : each spares (close_one issueSize sp o open c).
Proof.
  unfold close_one, repoCR. sparing. apply spares_closeOrPark.
Qed.

Lemma spares_link proj t l : each spares (linkArtifact taskSize notes proj t l).
Proof. unfold linkArtifact, MutateArtifactOwnerRefs, appendTaskRef. sparing. Qed.

Lemma fold_all_members_guards o members :
  always_ (oc_task o) (fold_all_members taskSize notes m RemoveStatusCondition o members).
Proof.
  unfold fold_all_members. destruct members as [|t l]; [apply always_ret|]. apply always_bind; [intros past; apply foldMembers_guards|].
  intros [[]|e]; [apply always_ret| |apply always_ret]. apply spares_always.
  apply keeps_try; [apply closed_Forall|apply spares_commit|]. intros; sparing.
Qed.

Lemma refine_guards o p : always_ (oc_task o) (refine issueSize taskSize sp notes m scmFor RemoveStatusCondition o p).
Proof.
  unfold refine.
  assert (always_ (oc_task o) (bad RemoveStatusCondition (A := Response) o "empty-refine")) as Hbad by apply spares_always, spares_refuse.
  match goal with |- always _ (match _ with [] => match _ with [] => match _ with [] => _ | _ :: _ => ?q end | _ :: _ => _ end | _ :: _ => _ end) =>
    assert (always_ (oc_task o) q) as Hq end.
  2: { destruct (rfp_Folds p); [destruct (rfp_Closes p); [destruct (rfp_Links p)|]|]; assumption. }
  clear Hbad. apply always_try.
  - apply spares_always, keeps_foreach; [apply closed_Forall|]. intros c _. unfold check_close, conflict.
    destruct (_ || _); [apply spares_refuse|]. sparing; apply spares_refuse.
  - intros _. destruct (existsb _ _); [apply spares_always, spares_refuse|]. apply always_try.
    + apply spares_always, keeps_fold_prog; [apply closed_Forall|]. intros l name _. unfold check_member, conflict, getTaskCR.
      apply keeps_try; [apply closed_Forall| |intros; sparing]. destruct (name == ""); [apply spares_refuse|].
      sparing; apply spares_refuse.
    + intros members. apply always_try; [apply fold_all_members_guards|]. intros _. apply spares_always.
      apply keeps_try; [apply closed_Forall| |intros _; apply keeps_try; [apply closed_Forall| |]].
      * destruct (rfp_Closes p); [sparing|]. unfold projectSCMWriterAndToken, resolveProjectSCMProviderToken, openOwnedMRs, controlledMRs.
        sparing. apply spares_close_one.
      * apply keeps_bind; [apply closed_Forall| |intros; sparing]. apply keeps_foreach; [apply closed_Forall|]. intros; apply spares_link.
      * intros _. apply keeps_try; [apply closed_Forall|apply spares_commit|]. intros. unfold okay, getTaskCR. sparing.
Qed.

End Refining.


(** C11: the gate lets nothing through on the agent's word: in every run of an approval, before the
    first write of any kind, the claim included, the Issues were listed, each of them that the
    Task controls and that is in scope was verified against a maintainer's comment (or had been,
    or is the bot's own proposal under the ceiling), there is at least one such Issue, and the
    plan note that is named is the pinned one. *)
Theorem approvals_are_verified_first (Quote : string -> string) (issueSize : Issue -> option Z) (taskSize : Task -> option Z)
    (sp : Project -> option (Spiller Comment)) (notes : Project -> option (Spiller Note)) (m approval : bool)
    (RemoveStatusCondition : list Condition -> string -> list Condition)
    (UnescapeString : string -> string) (EqualFold : string -> string -> bool) (o : outcomeCtx) (p : implementPayload)
    (w : World Call) :
  oc_claimed o = false -> ip_Action p = "approved"%string ->
  guarded (approved_write UnescapeString EqualFold o p) []
    (snd (run w (gate Quote issueSize taskSize sp notes m approval RemoveStatusCondition UnescapeString EqualFold o p))).
Proof.
  intros Ho Ha. exact (run_does w _ (fun _ es => guarded (approved_write UnescapeString EqualFold o p) [] es)
    (gate_guards Quote issueSize taskSize sp notes m approval RemoveStatusCondition UnescapeString EqualFold o p [] Ho Ha)).
Qed.

Lemma approvals_are_verified_first_witness :
  guarded (approved_write id String.eqb (mkOutcomeCtx sample_planned zero_Project "fp" "implement" false false) sample_grant) []
    (snd (run gate_world sample_gate))
  /\ existsb (fun d => is_write (did_call d)) (snd (run gate_world sample_gate)) = true
  /\ fst (run gate_world sample_gate) = Ok (Reply 200 (gateGrantedResponse sample_planned)).
Proof.
  split; [|split; vm_compute; reflexivity]. apply approvals_are_verified_first; reflexivity.
Defined.

(** C16: a refinement deletes no Task whose work it has not taken over: in every run, each member
    is deleted only after the Issues and the merge requests were listed, and after a fresh read
    of each one that the member controlled has said that the umbrella controls it now. *)
Theorem folds_delete_the_emptied (issueSize : Issue -> option Z) (taskSize : Task -> option Z)
    (sp : Project -> option (Spiller Comment)) (notes : Project -> option (Spiller Note)) (m scmFor : bool)
    (RemoveStatusCondition : list Condition -> string -> list Condition) (o : outcomeCtx) (p : refinePayload)
    (w : World Call) before d after :
  snd (run w (refine issueSize taskSize sp notes m scmFor RemoveStatusCondition o p)) = before ++ d :: after ->
  deletes_the_emptied (oc_task o) before d.
Proof.
  intros Hs. pose proof (run_does w _ (fun _ es => guarded (deletes_the_emptied (oc_task o)) [] es)
    (refine_guards issueSize taskSize sp notes m scmFor RemoveStatusCondition o p [])) as H.
  exact (guarded_split _ [] _ before d after H Hs).
Qed.

(** The sample with a member: the deletion is the call at place 10. *)
Lemma folds_delete_the_emptied_witness :
  let es := snd (run (fold_world false) (refine (fun _ => Some 0) (fun _ => Some 0) (fun _ => None) (fun _ => None) true true
                   (fun l _ => l) (mkOutcomeCtx sample_umbrella zero_Project "fp" "refine" false false) sample_fold)) in
  exists d, nth_error es 10 = Some d /\ is_task_delete (did_call d) = true /\ deletes_the_emptied sample_umbrella (firstn 10 es) d.
Proof.
  eexists. split; [vm_compute; reflexivity|]. split; [reflexivity|].
  eapply (folds_delete_the_emptied (fun _ => Some 0) (fun _ => Some 0) (fun _ => None) (fun _ => None) true true (fun l _ => l)
            (mkOutcomeCtx sample_umbrella zero_Project "fp" "refine" false false) sample_fold (fold_world false)).
  vm_compute. reflexivity.
Defined.

(** A refinement is not behind its claim, as the other outcomes are: where two copies of a request run side by side, the one
    that holds no claim folds as well, its member is deleted with nothing of the claim written,
    and only then is it told that the outcome is in flight. *)
Theorem a_refinement_folds_without_a_claim :
  let '(a, es) := run (fold_world true) (sample_post "refine" None (Some sample_fold)) in
  a = Reply 409 ErrorText
  /\ existsb (fun d => is_task_delete (did_call d)) es = true
  /\ forallb (fun d => match did_call d with UpdateTaskStatus _ => false | _ => true end) es = true.
Proof. vm_compute. repeat split. Qed.

(** A refusal by the verifier is counted twice: by the verifier, and again by the gate, which takes
    the reason of every refusal for that of an empty scope. *)
Theorem a_refusal_is_counted_twice :
  let '(a, es) := run unapproved_world sample_gate in
  a = Ok (Reply 200 (gateResponse ApprovalRefusedNoMaintainer ""))
  /\ List.length (List.filter (counts_refusal ApprovalRefusedNoMaintainer) es) = 2%nat.
Proof. vm_compute. repeat split. Qed.
