(* ===== verification/Deliveries.v ===== *)
(** * Deliveries of the forges' webhooks (internal/scm: github.go, gitlab.go, registry.go,
    scm.go): which forge a request is from, whether it is authentic, and the event it is
    read as.  HMAC-SHA256 (crypto/hmac) is written out over [Text]'s SHA-256. *)

From Stdlib Require Import String Ascii.
From S2P Require Import Prelude Text Limits Names Seq Refs Checks.

Open Scope Z_scope.
Open Scope go_scope.

(** ** The event *)

Record WebhookEvent := mkWebhookEvent {
  we_Kind : string;
  we_Repo : string;
  we_Branch : string;
  we_Labels : list string;
  we_Title : string;
  we_Body : string;
  we_CommentBody : string;
  we_CommentID : Z;
  we_IsComment : bool;
  we_IssueRef : string;
  we_URL : string;
  we_AuthorLogin : string;
  we_ActorLogin : string;
  we_Action : string;
  we_Number : Z;
  we_IsPR : bool;
  we_Merged : bool;
  we_HeadSHA : string;
  we_BaseSHA : string;
  we_HeadBranch : string;
  we_HeadRepo : string;
  we_ChangedLabel : string;
  we_CIStatus : string;
  we_IsReview : bool;
  we_ReviewState : string;
  we_ReviewID : string;
  we_ReviewCommitSHA : string
}.

Definition eta_WebhookEvent (x : WebhookEvent) : WebhookEvent :=
  mkWebhookEvent (we_Kind x) (we_Repo x) (we_Branch x) (we_Labels x) (we_Title x) (we_Body x) (we_CommentBody x)
    (we_CommentID x) (we_IsComment x) (we_IssueRef x) (we_URL x) (we_AuthorLogin x) (we_ActorLogin x) (we_Action x)
    (we_Number x) (we_IsPR x) (we_Merged x) (we_HeadSHA x) (we_BaseSHA x) (we_HeadBranch x) (we_HeadRepo x)
    (we_ChangedLabel x) (we_CIStatus x) (we_IsReview x) (we_ReviewState x) (we_ReviewID x) (we_ReviewCommitSHA x).

#[export] Instance set_we_Kind : Settable we_Kind := ltac:(setter_of we_Kind eta_WebhookEvent).
#[export] Instance set_we_Repo : Settable we_Repo := ltac:(setter_of we_Repo eta_WebhookEvent).
#[export] Instance set_we_Branch : Settable we_Branch := ltac:(setter_of we_Branch eta_WebhookEvent).
#[export] Instance set_we_CommentBody : Settable we_CommentBody := ltac:(setter_of we_CommentBody eta_WebhookEvent).
#[export] Instance set_we_CommentID : Settable we_CommentID := ltac:(setter_of we_CommentID eta_WebhookEvent).
#[export] Instance set_we_IsComment : Settable we_IsComment := ltac:(setter_of we_IsComment eta_WebhookEvent).
#[export] Instance set_we_ActorLogin : Settable we_ActorLogin := ltac:(setter_of we_ActorLogin eta_WebhookEvent).
#[export] Instance set_we_Action : Settable we_Action := ltac:(setter_of we_Action eta_WebhookEvent).
#[export] Instance set_we_Number : Settable we_Number := ltac:(setter_of we_Number eta_WebhookEvent).
#[export] Instance set_we_IsPR : Settable we_IsPR := ltac:(setter_of we_IsPR eta_WebhookEvent).
#[export] Instance set_we_HeadSHA : Settable we_HeadSHA := ltac:(setter_of we_HeadSHA eta_WebhookEvent).
#[export] Instance set_we_BaseSHA : Settable we_BaseSHA := ltac:(setter_of we_BaseSHA eta_WebhookEvent).
#[export] Instance set_we_CIStatus : Settable we_CIStatus := ltac:(setter_of we_CIStatus eta_WebhookEvent).
#[export] Instance set_we_IsReview : Settable we_IsReview := ltac:(setter_of we_IsReview eta_WebhookEvent).
#[export] Instance set_we_ReviewState : Settable we_ReviewState := ltac:(setter_of we_ReviewState eta_WebhookEvent).
#[export] Instance set_we_ReviewID : Settable we_ReviewID := ltac:(setter_of we_ReviewID eta_WebhookEvent).
#[export] Instance set_we_ReviewCommitSHA : Settable we_ReviewCommitSHA :=
  ltac:(setter_of we_ReviewCommitSHA eta_WebhookEvent).

Definition no_event : WebhookEvent :=
  mkWebhookEvent "" "" "" [] "" "" "" 0 false "" "" "" "" "" 0 false false "" "" "" "" "" "" false "" "" "".

Definition event_of (kind : string) : WebhookEvent := no_event <| we_Kind := kind |>.
Definition push_event (repo branch after before : string) : WebhookEvent :=
  (event_of "push"%string) <| we_Repo := repo |> <| we_Branch := branch |> <| we_HeadSHA := after |> <| we_BaseSHA := before |>.
Definition ci_event (repo headSHA ciStatus : string) : WebhookEvent :=
  if headSHA == "" then event_of "other"
  else (event_of "ci"%string) <| we_Repo := repo |> <| we_HeadSHA := headSHA |> <| we_CIStatus := ciStatus |>.

(** Why a delivery is refused; [json.Unmarshal] is the last of them. *)
Inductive VerifyError := EmptySecret | MissingSignature | MalformedSignature | SignatureMismatch | Unparsed.

(** [http.Header.Get]. *)
Definition Header : Type := string -> string.

(** ** HMAC-SHA256 *)

Definition sha256_bytes (m : list Z) : list Z :=
  let ws := words (pad m) in flat_map (be_bytes 4) (blocks (List.length ws) ws H256).

(** The key as one block of 64 bytes. *)
Definition hmac_key (secret : string) : list Z :=
  let k := bytes_of secret in
  let k := if (64 <? List.length k)%nat then sha256_bytes k else k in
  (k ++ repeat 0 (64 - List.length k))%list.

Definition hmac_sha256_hex (secret payload : string) : string :=
  let k := hmac_key secret in
  hex (sha256_bytes (map (Z.lxor 92) k ++ sha256_bytes (map (Z.lxor 54) k ++ bytes_of payload))).

(** ** GitHub *)

Record ghWorkItem := mkGhWorkItem {
  wi_Number : Z;
  wi_Title : string;
  wi_Body : string;
  wi_User_Login : string;
  wi_Labels : list string;
  wi_HTMLURL : string;
  wi_Head_SHA : string;
  wi_Head_Ref : string;
  wi_Head_Repo_FullName : string;
  wi_Merged : bool;
  (* whether the item has a pull request *)
  wi_PullRequest : bool
}.

Record ghCheck := mkGhCheck { chk_HeadSHA : string; chk_Status : string; chk_Conclusion : string }.

Record ghPayload := mkGhPayload {
  gh_Action : string;
  gh_Ref : string;
  gh_Before : string;
  gh_After : string;
  gh_CloneURL : string;
  gh_FullName : string;
  gh_Sender_Login : string;
  gh_Label_Name : string;
  gh_Comment_ID : Z;
  gh_Comment_Body : string;
  gh_SHA : string;
  gh_State : string;
  gh_CheckRun : option ghCheck;
  gh_CheckSuite : option ghCheck;
  gh_Issue : option ghWorkItem;
  gh_PullRequest : option ghWorkItem;
  gh_Review_ID : Z;
  gh_Review_State : string;
  gh_Review_CommitID : string;
  gh_Review_Body : string
}.

Definition ghActions : list string :=
  ["opened"; "reopened"; "labeled"; "unlabeled"; "closed"; "synchronize"; "submitted"; "created"; "edited"].

Definition ghNormalizeAction (action : string) : string := if str_mem ghActions action then action else "other".

Definition ghWorkItemEvent (kind : string) (isPR : bool) (p : ghPayload) (wi : option ghWorkItem) : WebhookEvent :=
  match wi with
  | None => event_of "other"
  | Some wi =>
      mkWebhookEvent kind (gh_CloneURL p) "" (wi_Labels wi) (wi_Title wi) (wi_Body wi) "" 0 false
        (join [gh_FullName p; "#"; FormatInt (wi_Number wi)]) (wi_HTMLURL wi) (wi_User_Login wi) (gh_Sender_Login p)
        (ghNormalizeAction (gh_Action p)) (wi_Number wi) isPR (wi_Merged wi) (wi_Head_SHA wi) "" (wi_Head_Ref wi)
        (wi_Head_Repo_FullName wi) (gh_Label_Name p) "" false "" "" ""
  end.

Definition ghCIEvent (p : ghPayload) (headSHA ciStatus : string) : WebhookEvent := ci_event (gh_CloneURL p) headSHA ciStatus.

Definition verifyGitHubSig (header payload secret : string) : option VerifyError :=
  if secret == "" then Some EmptySecret
  else if header == "" then Some MissingSignature
  else if negb (HasPrefix header "sha256=") then Some MalformedSignature
  else if hmac_sha256_hex secret payload != drop_bytes 7 header then Some SignatureMismatch
  else None.

Definition commented_on (p : ghPayload) (ev : WebhookEvent) : WebhookEvent :=
  ev <| we_CommentBody := gh_Comment_Body p |> <| we_CommentID := gh_Comment_ID p |> <| we_IsComment := true |>.

Definition gh_event (event : string) (p : ghPayload) : WebhookEvent :=
  if event == "push" then
    push_event (gh_CloneURL p) (if HasPrefix (gh_Ref p) "refs/heads/" then drop_bytes 11 (gh_Ref p) else gh_Ref p)
      (gh_After p) (gh_Before p)
  else if event == "issues" then ghWorkItemEvent "issue" false p (gh_Issue p)
  else if event == "issue_comment" then
    let isPR := match gh_Issue p with Some i => wi_PullRequest i | None => false end in
    let ev := commented_on p (ghWorkItemEvent "issue" isPR p (gh_Issue p)) in
    if isPR then ev <| we_Kind := "mr"%string |> else ev
  else if event == "pull_request" then ghWorkItemEvent "mr" true p (gh_PullRequest p)
  else if event == "pull_request_review_comment" then
    if (gh_Action p != "created") || negb (is_set (gh_PullRequest p)) then event_of "other"
    else commented_on p (ghWorkItemEvent "mr" true p (gh_PullRequest p))
  else if event == "pull_request_review" then
    (ghWorkItemEvent "mr" true p (gh_PullRequest p))
      <| we_IsReview := true |> <| we_ReviewState := gh_Review_State p |> <| we_ReviewID := FormatInt (gh_Review_ID p) |>
      <| we_ReviewCommitSHA := gh_Review_CommitID p |> <| we_CommentBody := gh_Review_Body p |>
  else if event == "check_suite" then
    match gh_CheckSuite p with
    | None => event_of "other"
    | Some c => ghCIEvent p (chk_HeadSHA c) (ghAggregateCIStatus (chk_Status c) (chk_Conclusion c))
    end
  else if event == "check_run" then
    match gh_CheckRun p with
    | None => event_of "other"
    | Some c => ghCIEvent p (chk_HeadSHA c) (ghSingleCheckCIStatus (chk_Status c) (chk_Conclusion c))
    end
  else if event == "status" then ghCIEvent p (gh_SHA p) (ghSingleCheckCIStatus "completed" (gh_State p))
  else event_of "other".

(** ** GitLab *)

Record glAttributes := mkGlAttributes {
  at_IID : Z;
  at_NoteID : Z;
  at_Title : string;
  at_Description : string;
  at_Note : string;
  at_URL : string;
  at_Action : string;
  at_SourceBranch : string;
  at_SHA : string;
  at_Status : string;
  at_LastCommit_ID : string;
  (* [""] where the source is not an object *)
  at_Source_PathWithNamespace : string
}.

Record glPayload := mkGlPayload {
  gl_Ref : string;
  gl_Before : string;
  gl_After : string;
  gl_User_Username : string;
  gl_GitHTTPURL : string;
  gl_PathWithNamespace : string;
  gl_ObjectAttributes : glAttributes;
  gl_Issue_IID : Z;
  gl_MergeRequest_IID : Z;
  gl_MergeRequest_SourceBranch : string;
  gl_Labels_Previous : list string;
  gl_Labels_Current : list string;
  gl_Labels : list string
}.

Definition trimGitLabRef (ref : string) : string :=
  if (11 <? strlen ref) && HasPrefix ref "refs/heads/" then drop_bytes 11 ref else ref.

Definition glPipelineEvent (p : glPayload) : WebhookEvent :=
  ci_event (gl_GitHTTPURL p) (at_SHA (gl_ObjectAttributes p)) (glPipelineCIStatus (at_Status (gl_ObjectAttributes p))).

Definition glNoteEvent (p : glPayload) : WebhookEvent :=
  let a := gl_ObjectAttributes p in
  let onMR := negb (gl_MergeRequest_IID p =? 0) in
  let number := if onMR then gl_MergeRequest_IID p else gl_Issue_IID p in
  mkWebhookEvent (if onMR then "mr" else "issue")%string (gl_GitHTTPURL p) "" (gl_Labels p) (at_Title a) (at_Description a)
    (at_Note a) (at_NoteID a) true (join [gl_PathWithNamespace p; (if onMR then "!" else "#")%string; FormatInt number])
    (at_URL a) (gl_User_Username p) (gl_User_Username p) "created" number onMR false "" ""
    (if onMR then gl_MergeRequest_SourceBranch p else ""%string) "" "" "" false "" "" "".

Section GitLab.

(** The order in which a Go map ranges over its keys. *)
Context (range : list string -> list string).

(** The keys of [labelSet]. *)
Definition labelSet (l : list string) : list string := remove_dups l.

Definition glAction (action : string) : string :=
  if (action == "open") || (action == "reopen") then "opened"
  else if action == "close" then "closed"
  else if action == "merge" then "merged"
  else if action == "update" then "synchronize"
  else if action == "approved" then "submitted"
  else "other".

Definition glActionAndLabel (p : glPayload) : string * string :=
  let prev := labelSet (gl_Labels_Previous p) in
  let cur := labelSet (gl_Labels_Current p) in
  match List.find (fun name => negb (str_mem prev name)) (range cur) with
  | Some name => ("labeled"%string, name)
  | None =>
      match List.find (fun name => negb (str_mem cur name)) (range prev) with
      | Some name => ("unlabeled"%string, name)
      | None => (glAction (at_Action (gl_ObjectAttributes p)), ""%string)
      end
  end.

Definition glWorkItemEvent (kind : string) (isPR : bool) (p : glPayload) : WebhookEvent :=
  let a := gl_ObjectAttributes p in
  let sep := (if kind == "issue" then "#" else "!")%string in
  let '(action, changed) := glActionAndLabel p in
  let ev := mkWebhookEvent kind (gl_GitHTTPURL p) "" (gl_Labels p) (at_Title a) (at_Description a) "" 0 false
              (join [gl_PathWithNamespace p; sep; FormatInt (at_IID a)]) (at_URL a) (gl_User_Username p)
              (gl_User_Username p) action (at_IID a) isPR (action == "merged") (at_LastCommit_ID a) "" (at_SourceBranch a)
              (at_Source_PathWithNamespace a) changed "" false "" "" "" in
  if (kind == "mr") && (at_Action a == "approved") then
    ev <| we_IsReview := true |> <| we_ReviewState := "approved"%string |> <| we_ReviewCommitSHA := at_LastCommit_ID a |>
       <| we_ReviewID := join ["gl-approve-"; FormatInt (at_IID a); "-"; at_LastCommit_ID a] |>
  else ev.

Definition gl_event (event : string) (p : glPayload) : WebhookEvent :=
  if event == "Push Hook" then push_event (gl_GitHTTPURL p) (trimGitLabRef (gl_Ref p)) (gl_After p) (gl_Before p)
  else if event == "Issue Hook" then glWorkItemEvent "issue" false p
  else if event == "Merge Request Hook" then glWorkItemEvent "mr" true p
  else if event == "Note Hook" then glNoteEvent p
  else if event == "Pipeline Hook" then glPipelineEvent p
  else event_of "other".

(** ** Either *)

(** encoding/json's reading of a payload, [None] on an error. *)
Context (decodeGitHub : string -> option ghPayload) (decodeGitLab : string -> option glPayload).

Inductive Provider := GitHub | GitLab.

Definition provider_name (p : Provider) : string := match p with GitHub => "github" | GitLab => "gitlab" end.

(** [scm.Select]. *)
Definition Select (h : Header) : option Provider :=
  if h "X-GitHub-Event" != "" then Some GitHub else if h "X-Gitlab-Event" != "" then Some GitLab else None.

Definition verifyGitLabToken (token secret : string) : option VerifyError :=
  if secret == "" then Some EmptySecret
  else if token == "" then Some MissingSignature
  else if token != secret then Some SignatureMismatch
  else None.

Definition DetectAndVerify (provider : Provider) (h : Header) (payload secret : string) : result VerifyError WebhookEvent :=
  match provider with
  | GitHub =>
      match verifyGitHubSig (h "X-Hub-Signature-256") payload secret with
      | Some e => Err e
      | None => match decodeGitHub payload with
                | Some p => Ok (gh_event (h "X-GitHub-Event") p)
                | None => Err Unparsed
                end
      end
  | GitLab =>
      match verifyGitLabToken (h "X-Gitlab-Token") secret with
      | Some e => Err e
      | None => match decodeGitLab payload with
                | Some p => Ok (gl_event (h "X-Gitlab-Event") p)
                | None => Err Unparsed
                end
      end
  end.

End GitLab.

(** ** Remotes *)

(** [strings.TrimSuffix(s, "/")]. *)
Fixpoint trim_slash (s : string) : string :=
  if s == "/" then "" else match s with String a s' => String a (trim_slash s') | EmptyString => "" end.

(** [url] is what [url.Parse] answers for the host and the path. *)
Definition normalizeRemote (toLower : string -> string) (url : string -> option (string * string)) (raw : string) : option string :=
  option_map (fun '(host, path) => String.append (toLower host) (trim_git (trim_slash path))) (url raw).

Definition SameRemote (toLower : string -> string) (url : string -> option (string * string)) (a b : string) : bool :=
  match normalizeRemote toLower url a, normalizeRemote toLower url b with
  | Some na, Some nb => na == nb
  | _, _ => false
  end.

(** ** What the theorems say *)

Definition event_kinds : list string := ["push"; "issue"; "mr"; "ci"; "other"]%string.
Definition event_actions : list string :=
  ["opened"; "reopened"; "labeled"; "unlabeled"; "closed"; "synchronize"; "submitted"; "created"; "edited"; "merged"; "other"; ""]%string.
Definition ci_words : list string := [CIMirrorNone; CIMirrorPending; CIMirrorRunning; CIMirrorGreen; CIMirrorRed].

(** What the server relies on when it routes an event. *)
Record well_formed (ev : WebhookEvent) : Prop := {
  wf_kind : In (we_Kind ev) event_kinds;
  wf_action : In (we_Action ev) event_actions;
  wf_issue : we_Kind ev = "issue"%string -> we_IsPR ev = false /\ we_IsReview ev = false;
  wf_mr : we_Kind ev = "mr"%string -> we_IsPR ev = true;
  wf_one : we_IsReview ev = true -> we_IsComment ev = false;
  wf_ci : we_Kind ev = "ci"%string -> we_HeadSHA ev <> ""%string /\ In (we_CIStatus ev) ci_words
}.

(** The header or token that lets a payload through. *)
Definition authentic (p : Provider) (h : Header) (payload secret : string) : Prop :=
  secret <> ""%string
  /\ match p with
     | GitHub => h "X-Hub-Signature-256" = String.append "sha256=" (hmac_sha256_hex secret payload)
     | GitLab => h "X-Gitlab-Token" = secret
     end.

(** ** Lemmas *)

Example hmac_rfc4231_2 :
  hmac_sha256_hex "Jefe" "what do ya want for nothing?"
  = "5bdcc146bf60754e6a042426089575c75a003f089d2739839dec58b964ec3843"%string.
Proof. vm_compute. reflexivity. Qed.

(** A key longer than a block is hashed first. *)
Example hmac_rfc4231_6 :
  hmac_sha256_hex (of_bytes (repeat 170%nat 131)) "Test Using Larger Than Block-Size Key - Hash Key First"
  = "60e431591ee0b67f0d8a26aacbf5b77f8e0bc6213728c5140546040f0ee37f54"%string.
Proof. vm_compute. reflexivity. Qed.

Lemma ci_event_wf repo sha word : In word ci_words -> well_formed (ci_event repo sha word).
Proof.
  intros Hw. unfold ci_event. destruct (String.eqb_spec sha "") as [->|Hs]; split; cbn; intuition congruence.
Qed.

Lemma event_of_other_wf : well_formed (event_of "other").
Proof. split; cbn; intuition congruence. Qed.

Lemma push_event_wf repo branch after before : well_formed (push_event repo branch after before).
Proof. split; cbn; intuition congruence. Qed.

Lemma gh_action_known a : In (ghNormalizeAction a) event_actions.
Proof.
  unfold ghNormalizeAction. destruct (str_mem ghActions a) eqn:E; [|cbn; tauto].
  apply str_mem_In in E. cbn in *. tauto.
Qed.

Lemma gl_action_known a : In (glAction a) event_actions.
Proof. unfold glAction. repeat case_match; cbn; tauto. Qed.

Lemma glActionAndLabel_known range p : In (fst (glActionAndLabel range p)) event_actions.
Proof. unfold glActionAndLabel. repeat case_match; cbn [fst]; [cbn; tauto..|apply gl_action_known]. Qed.

Lemma item_wf kind isPR p wi : (kind = "issue"%string /\ isPR = false) \/ (kind = "mr"%string /\ isPR = true) ->
  well_formed (ghWorkItemEvent kind isPR p wi).
Proof.
  intros H. destruct wi as [wi|]; [|apply event_of_other_wf]. pose proof (gh_action_known (gh_Action p)).
  destruct H as [[-> ->]|[-> ->]]; split; cbn; intuition congruence.
Qed.

Lemma commented_on_wf p ev : well_formed ev -> we_IsReview ev = false -> well_formed (commented_on p ev).
Proof. intros [] Hr. by split; [..|cbn; congruence|]. Qed.

Lemma item_no_review kind isPR p wi : we_IsReview (ghWorkItemEvent kind isPR p wi) = false.
Proof. by destruct wi. Qed.

Lemma single_word s c : In (ghSingleCheckCIStatus s c) ci_words.
Proof. unfold ghSingleCheckCIStatus. repeat case_match; cbn; tauto. Qed.

Lemma aggregate_word s c : In (ghAggregateCIStatus s c) ci_words.
Proof. unfold ghAggregateCIStatus. repeat case_match; cbn; tauto. Qed.

Lemma pipeline_word s : In (glPipelineCIStatus s) ci_words.
Proof. unfold glPipelineCIStatus. repeat case_match; cbn; tauto. Qed.

(** A comment on an issue of GitHub, which may be that of a pull request. *)
Lemma gh_comment_wf p :
  let isPR := match gh_Issue p with Some i => wi_PullRequest i | None => false end in
  let ev := commented_on p (ghWorkItemEvent "issue" isPR p (gh_Issue p)) in
  well_formed (if isPR then ev <| we_Kind := "mr"%string |> else ev).
Proof.
  destruct (gh_Issue p) as [wi|]; cbn zeta iota; [destruct (wi_PullRequest wi)|].
  - pose proof (gh_action_known (gh_Action p)). split; cbn; intuition congruence.
  - apply commented_on_wf; [apply item_wf; tauto|done].
  - apply commented_on_wf; [apply event_of_other_wf|done].
Qed.

Lemma gh_review_wf p : well_formed (gh_event "pull_request_review" p).
Proof.
  unfold gh_event. cbn -[ghWorkItemEvent]. destruct (gh_PullRequest p) as [wi|]; [|split; cbn; intuition congruence].
  pose proof (gh_action_known (gh_Action p)). split; cbn; intuition congruence.
Qed.

Lemma gh_event_wf event p : well_formed (gh_event event p).
Proof.
  destruct (String.eqb_spec event "pull_request_review") as [->|Hne]; [apply gh_review_wf|].
  unfold gh_event. case_match; [apply push_event_wf|]. case_match; [apply item_wf; tauto|].
  case_match; [apply gh_comment_wf|]. case_match; [apply item_wf; tauto|].
  case_match; [case_match; [apply event_of_other_wf|apply commented_on_wf; [apply item_wf; tauto|apply item_no_review]]|].
  case_match; [by apply String.eqb_eq in H4|].
  repeat (case_match; try apply event_of_other_wf; try apply ci_event_wf); first [apply aggregate_word | apply single_word].
Qed.

Lemma gl_item_wf range kind isPR p : (kind = "issue"%string /\ isPR = false) \/ (kind = "mr"%string /\ isPR = true) ->
  well_formed (glWorkItemEvent range kind isPR p).
Proof.
  intros H. unfold glWorkItemEvent. pose proof (glActionAndLabel_known range p) as Ha.
  destruct (glActionAndLabel range p) as [action changed]. cbn [fst] in Ha.
  destruct H as [[-> ->]|[-> ->]]; cbn [String.eqb Ascii.eqb Bool.eqb andb]; [|case_match]; split; cbn; intuition congruence.
Qed.

Lemma gl_event_wf range event p : well_formed (gl_event range event p).
Proof.
  unfold gl_event. repeat (case_match; try apply push_event_wf; try apply event_of_other_wf); try (apply gl_item_wf; tauto).
  - unfold glNoteEvent. case_match; split; cbn; intuition congruence.
  - apply ci_event_wf, pipeline_word.
Qed.

(** ** The theorems *)

(** C32: a delivery is let through only with the secret of its project: on GitHub the
    HMAC-SHA256 of the very payload under it, on GitLab the secret itself; a project without
    a secret takes none. *)
Theorem only_authentic_deliveries (range : list string -> list string) (decodeGitHub : string -> option ghPayload)
    (decodeGitLab : string -> option glPayload) (p : Provider) (h : Header) (payload secret : string) (ev : WebhookEvent) :
  DetectAndVerify range decodeGitHub decodeGitLab p h payload secret = Ok ev -> authentic p h payload secret.
Proof.
  unfold DetectAndVerify, authentic, verifyGitHubSig, verifyGitLabToken. destruct p.
  - destruct (String.eqb_spec secret "") as [->|Hs]; [done|]. destruct (_ == ""); [done|].
    destruct (HasPrefix _ _) eqn:Hp; cbn [negb]; [|done]. destruct (String.eqb_spec (hmac_sha256_hex secret payload) (drop_bytes 7 (h "X-Hub-Signature-256"))) as [->|]; [|done].
    intros _. split; [done|]. exact (HasPrefix_split _ _ Hp).
  - destruct (String.eqb_spec secret "") as [->|Hs]; [done|]. destruct (_ == ""); [done|].
    destruct (String.eqb_spec (h "X-Gitlab-Token") secret) as [->|]; [|done]. by intros _.
Qed.

(** C33: whatever a forge sends, the event it is read as has a kind and an action of the
    closed sets the counters are labelled by; what says it is an issue is never a pull request
    nor a review, what says it is a merge request always is one; nothing is both a comment
    and a review; and what is said of CI names a commit and has a word the mirror knows. *)
Theorem events_are_well_formed (range : list string -> list string) (decodeGitHub : string -> option ghPayload)
    (decodeGitLab : string -> option glPayload) (p : Provider) (h : Header) (payload secret : string) (ev : WebhookEvent) :
  DetectAndVerify range decodeGitHub decodeGitLab p h payload secret = Ok ev -> well_formed ev.
Proof.
  unfold DetectAndVerify. destruct p.
  - destruct (verifyGitHubSig _ _ _); [done|]. destruct (decodeGitHub _); [|done]. intros [= <-]. apply gh_event_wf.
  - destruct (verifyGitLabToken _ _); [done|]. destruct (decodeGitLab _); [|done]. intros [= <-]. apply gl_event_wf.
Qed.

(** two labels added in one edit on GitLab: which of them the event reports is up to the
    order a Go map ranges in, though a comment says that it is the first.  A trigger label that
    is added beside another can be missed. *)
Theorem an_added_label_can_be_missed :
  exists p : glPayload,
    glActionAndLabel id p = ("labeled", "tatara")%string /\ glActionAndLabel (@rev string) p = ("labeled", "bug")%string.
Proof.
  exists (mkGlPayload "" "" "" "" "" "" (mkGlAttributes 1 0 "" "" "" "" "update" "" "" "" "" "") 0 0 "" [] ["tatara"; "bug"] [])%string.
  split; reflexivity.
Qed.

(** ** Witnesses *)

Definition sample_check : ghPayload :=
  mkGhPayload "" "" "" "" "https://github.com/o/r" "o/r" "" "" 0 "" "c0ffee" "failure" None None None None 0 "" "" "".

Definition sample_header : Header := fun k =>
  if k == "X-GitHub-Event" then "status"
  else if k == "X-Hub-Signature-256" then "sha256=5bdcc146bf60754e6a042426089575c75a003f089d2739839dec58b964ec3843"
  else "".

Definition sample_delivery : string := "what do ya want for nothing?".

Lemma only_authentic_deliveries_witness : authentic GitHub sample_header sample_delivery "Jefe".
Proof.
  apply (only_authentic_deliveries id (fun _ => Some sample_check) (fun _ => None) GitHub sample_header sample_delivery "Jefe"
           (ci_event "https://github.com/o/r" "c0ffee" CIMirrorRed)).
  vm_compute. reflexivity.
Defined.

Lemma events_are_well_formed_witness :
  we_Kind (ci_event "https://github.com/o/r" "c0ffee" CIMirrorRed) = "ci"%string
  /\ well_formed (ci_event "https://github.com/o/r" "c0ffee" CIMirrorRed).
Proof.
  split; [reflexivity|].
  apply (events_are_well_formed id (fun _ => Some sample_check) (fun _ => None) GitHub sample_header sample_delivery "Jefe").
  vm_compute. reflexivity.
Defined.
