(* ===== verification/HumanReview.v ===== *)
(** * The word of a human reviewer (internal/controller/review_apply.go, and the record of
    applied reviews of internal/webhook/server.go): changes requested send a Task back to
    work, an approval sends it on to its merge, and a review that was applied is remembered
    so that a redelivery is not applied again. *)

From Stdlib Require Import String Ascii.
From S2P Require Import Prelude GoTime Text Limits Api Vocabulary Machine Park Unpark ObjBudget Own Transition Names Seq Refs Corridor Merge LivePods Calls Release Reaper Mirror Intake Proposals Reviewing.

Open Scope Z_scope.
Open Scope go_scope.

(** ** The record of applied reviews *)

Definition annReviewed : string := "tatara.dev/reviewed".
Definition maxReviewedEntries : Z := 32.

(** [strings.Split(s, ",")]. *)
Fixpoint split_comma (s : string) : list string :=
  match s with
  | EmptyString => [""%string]
  | String a s' =>
      if Ascii.eqb a "," then ""%string :: split_comma s'
      else match split_comma s' with
           | w :: l => String a w :: l
           | [] => [String a ""]
           end
  end.

Definition reviewEntry (reviewID state : string) : string :=
  String.append (first_bytes (sha256_hex reviewID) 12) (String.append ":" state).

Definition reviewAlreadyProcessed (task : Task) (reviewID state : string) : bool :=
  if reviewID == "" then false
  else str_mem (split_comma (ann task annReviewed)) (reviewEntry reviewID state).

(** The entries without the empty ones and the new one, then the new one; the last [max]. *)
Definition reviewed_entries (cur entry : string) (max : Z) : list string :=
  let out := (List.filter (fun e => negb ((e == "") || (e == entry))) (split_comma cur) ++ [entry])%list in
  if (0 <? max) && (max <? Z.of_nat (List.length out)) then skipn (List.length out - Z.to_nat max) out else out.

Definition appendReviewedEntry (cur entry : string) (max : Z) : string := str_join "," (reviewed_entries cur entry max).

Definition with_reviewed (entry : string) (t : Task) : Task :=
  t <| Annotations ::= fun a => <[annReviewed := appendReviewedEntry (ann t annReviewed) entry maxReviewedEntries]> a |>.

Definition stampReviewProcessed (task : Task) (reviewID state : string) : Io unit :=
  if reviewID == "" then ok tt
  else on_conflict
    (let? fresh := api (GetTask Cached (task_Name task)) in
     write (UpdateTask (with_reviewed (reviewEntry reviewID state) fresh))).

(** ** The appliers *)

Definition mr_is_merged (mr : MergeRequest) : bool :=
  (mr_State (mr_Status mr) == "merged") || is_set (mr_MergedAt (mr_Status mr)).

(** An approved merge request, at the head that was reviewed. *)
Definition settled (sha : string) (mr : MergeRequest) : MergeRequest :=
  mr <| mr_Status ::= fun s => s <| mr_PendingReview := None |> <| mr_StatusWord := "approved"%string |> <| mr_ReviewedSHA := sha |> |>.

(** The first head a mirror knows. *)
Definition first_head (mrs : list MergeRequest) : string :=
  match List.find (fun mr => mr_HeadSHA (mr_Status mr) != "") mrs with Some mr => mr_HeadSHA (mr_Status mr) | None => "" end.

Section Appliers.

(** The size of a mirror and the spiller; the view of [APIReader]. *)
Context (mrSize : MergeRequest -> option Z) (sp : option (Spiller Comment)) (reader : View).

(** The Task as it re-entered, and the state it left. *)
Definition reenter (task : Task) (now : Time) : Io (option (string * Task)) :=
  on_conflict
    (let? fresh := api (GetTask reader (task_Name task)) in
     let? mrs := controlled_mrs reader fresh in
     if existsb mr_is_merged mrs then ok None
     else
       let '(taken, t) := ReenterOnReviewChangesRequested fresh mrs now now in
       if negb taken then ok None
       else let? _ := write (UpdateTaskStatus t) in ok (Some (State (Status fresh), t))).

(** The Task as it was written, [None] where the review is left to the thread. *)
Definition ApplyReviewChangesRequested (task : Task) (now : Time) : Io (option Task) :=
  let? r := reenter task now in
  match r with
  | None => ok None
  | Some (prevStage, t) =>
      let? _ := (if AgentKindFor prevStage (Kind (Spec t)) != "" then delete_wrapper t else ok tt) in ok (Some t)
  end.

(** Every merge request, in order. *)
Definition settle_all (sha : string) (mrs : list MergeRequest) : Io unit :=
  foreach mrs (fun mr => let? _ := fitMergeRequest mrSize sp (mr_Name mr) (settled sha) in ok tt).

Definition enter_merging (task : Task) (mrs : list MergeRequest) (now : Time) : Io (option Task) :=
  on_conflict
    (let? t := api (GetTask reader (task_Name task)) in
     if State (Status t) != StateAwaitingReview then ok None
     else match Enter t mrs StateMerged "" now with
          | Err _ => ok None
          | Ok t => let? _ := write (UpdateTaskStatus t) in ok (Some t)
          end).

Definition ApplyReviewApproval (task : Task) (reviewCommitSHA : string) (now : Time) : Io (option Task) :=
  if Kind (Spec task) == "review" then ok None
  else
    let? live := api (GetTask reader (task_Name task)) in
    if State (Status live) != StateAwaitingReview then ok None
    else
      let? mrs := controlled_mrs reader task in
      match mrs with
      | [] => ok None
      | _ =>
          let sha := if reviewCommitSHA == "" then first_head mrs else reviewCommitSHA in
          if sha == "" then ok None
          else
            let? _ := delete_wrapper task in
            let? _ := settle_all sha mrs in
            let? fresh := controlled_mrs reader task in
            enter_merging task fresh now
      end.

End Appliers.

(** ** What the theorems say *)

(** A text without a comma. *)
Definition no_comma (a : ascii) : bool := negb (Ascii.eqb a ",").

Definition entries (t : Task) : list string := split_comma (ann t annReviewed).

(** The Task whose status a call writes. *)
Definition status_of (d : Did Call) : option Task := match did_call d with UpdateTaskStatus t => Some t | _ => None end.

(** The merge requests of a Task in a list. *)
Definition controlled_in (t : Task) (l : list MergeRequest) : list MergeRequest :=
  owned_sorted mr_Name t (map (fun mr => (owners mr, mr)) l).

(** Changes requested write what [ReenterOnReviewChangesRequested] makes of a Task and of
    merge requests that were read right before, none of them merged. *)
Definition reentry_of_unmerged (reader : View) (name : string) (now : Time) (past : list (Did Call)) (d : Did Call) : Prop :=
  forall t', status_of d = Some t' ->
  exists pre t l, past = (pre ++ [did (GetTask reader name) (Ok t); did (ListMergeRequests reader) (Ok l)])%list
    /\ existsb mr_is_merged (controlled_in t l) = false
    /\ ReenterOnReviewChangesRequested t (controlled_in t l) now now = (true, t').

(** The pod was deleted, or was gone. *)
Definition pod_deleted (task : Task) (past : list (Did Call)) : Prop :=
  exists r, In (did (DeletePodNamed (PodName task)) r) past /\ (r = None \/ r = Some ApiMissing).

(** An approval writes the merge of a Task that was read right before, waiting for its
    review and not parked, with its pod deleted and no review pending on any of the merge
    requests that were read after. *)
Definition merge_of_settled (reader : View) (task : Task) (now : Time) (past : list (Did Call)) (d : Did Call) : Prop :=
  forall t', status_of d = Some t' ->
  exists pre t l, past = (pre ++ [did (GetTask reader (task_Name task)) (Ok t)])%list
    /\ State (Status t) = StateAwaitingReview /\ ParkReason (Status t) = ""%string
    /\ In (did (ListMergeRequests reader) (Ok l)) pre /\ controlled_in task l <> []
    /\ Forall (fun mr => mr_PendingReview (mr_Status mr) = None) (controlled_in task l)
    /\ pod_deleted task pre /\ State (Status t') = StateMerged.

(** ** Lemmas: the record *)

Lemma split_comma_nonempty s : split_comma s <> [].
Proof. induction s as [|a s IH]; [done|]. cbn. destruct (Ascii.eqb a ","); [done|]. by destruct (split_comma s). Qed.

Lemma split_comma_plain w : all_bytes no_comma w = true -> split_comma w = [w].
Proof.
  induction w as [|a w IH]; [done|]. cbn. unfold no_comma at 1. destruct (Ascii.eqb a ","); [done|]. intros H. by rewrite (IH H).
Qed.

Lemma split_comma_app w s : all_bytes no_comma w = true -> split_comma (w ++ String "," s) = w :: split_comma s.
Proof.
  induction w as [|a w IH]; [done|]. cbn [all_bytes]. unfold no_comma at 1.
  change (String a w ++ String "," s)%string with (String a (w ++ String "," s)). cbn [split_comma].
  destruct (Ascii.eqb a ","); [done|]. intros H. by rewrite (IH H).
Qed.

(** The record round trips. *)
Lemma split_join l : l <> [] -> Forall (fun w => all_bytes no_comma w = true) l -> split_comma (str_join "," l) = l.
Proof.
  induction l as [|w l IH]; [done|]. intros _ Hl. inversion_clear Hl as [|? ? Hw Hl']. destruct l as [|w' l]; [by apply split_comma_plain|].
  change (str_join "," (w :: w' :: l)) with (w ++ String "," (str_join "," (w' :: l)))%string.
  rewrite (split_comma_app _ _ Hw). f_equal. by apply IH.
Qed.

Lemma split_comma_free s : Forall (fun w => all_bytes no_comma w = true) (split_comma s).
Proof.
  induction s as [|a s IH]; [by repeat constructor|]. cbn. destruct (Ascii.eqb a ",") eqn:E; [by constructor|].
  destruct (split_comma s) as [|w l]; inversion_clear IH; constructor; try done; cbn; unfold no_comma at 1; by rewrite E.
Qed.

Lemma alnum_no_comma a : alnum a = true -> no_comma a = true.
Proof. unfold no_comma. destruct (Ascii.eqb_spec a ",") as [->|]; [by vm_compute|done]. Qed.

Lemma entry_free reviewID state : all_bytes no_comma state = true -> all_bytes no_comma (reviewEntry reviewID state) = true.
Proof.
  intros Hs. unfold reviewEntry. rewrite !all_bytes_app, Hs. cbn. rewrite andb_true_r.
  apply (all_bytes_imp alnum no_comma); [apply alnum_no_comma|]. by apply digest_prefix.
Qed.

Lemma entry_nonempty reviewID state : reviewEntry reviewID state <> ""%string.
Proof. unfold reviewEntry. by destruct (first_bytes _ _). Qed.

Lemma In_skipn_le {A} n (l : list A) : forall x, In x (skipn n l) -> In x l.
Proof. revert l. induction n as [|n IH]; intros [|a l] x; cbn; auto. Qed.

Lemma reviewed_entries_free cur entry max : all_bytes no_comma entry = true ->
  Forall (fun w => all_bytes no_comma w = true) (reviewed_entries cur entry max).
Proof.
  intros He. apply List.Forall_forall. intros w Hw.
  assert (In w (List.filter (fun e => negb ((e == "") || (e == entry))) (split_comma cur) ++ [entry])) as Hin.
  { unfold reviewed_entries in Hw. destruct (_ && _); [by apply In_skipn_le in Hw|done]. }
  apply in_app_or in Hin as [Hin|[<-|[]]]; [|done]. apply filter_In in Hin as [Hin _].
  exact (proj1 (List.Forall_forall _ _) (split_comma_free cur) _ Hin).
Qed.

(** The newest entry is always the last. *)
Lemma reviewed_entries_last cur entry max : exists l, reviewed_entries cur entry max = (l ++ [entry])%list.
Proof.
  unfold reviewed_entries. set (l := List.filter _ _). destruct (_ && _) eqn:E; [|by exists l].
  apply andb_true_iff in E as [E1 E2]. rewrite length_app in *. cbn [List.length] in *. apply Z.ltb_lt in E1, E2.
  exists (skipn (List.length l + 1 - Z.to_nat max) l). rewrite skipn_app.
  by replace (List.length l + 1 - Z.to_nat max - List.length l)%nat with O by lia.
Qed.

Lemma reviewed_entries_bound cur entry max : 0 < max -> Z.of_nat (List.length (reviewed_entries cur entry max)) <= max.
Proof.
  intros Hm. unfold reviewed_entries. destruct (Z.ltb_spec 0 max); [|lia]. cbn [andb].
  destruct (Z.ltb_spec max (Z.of_nat (List.length (List.filter (fun e => negb ((e == "") || (e == entry))) (split_comma cur) ++ [entry])))); [|lia].
  rewrite length_skipn. lia.
Qed.

Lemma entries_stamped reviewID state t : all_bytes no_comma state = true ->
  entries (with_reviewed (reviewEntry reviewID state) t)
  = reviewed_entries (ann t annReviewed) (reviewEntry reviewID state) maxReviewedEntries.
Proof.
  intros Hs. unfold entries, with_reviewed, ann at 1. cbn. rewrite lookup_insert_eq. cbn.
  unfold appendReviewedEntry. apply split_join; [|by apply reviewed_entries_free, entry_free].
  destruct (reviewed_entries_last (ann t annReviewed) (reviewEntry reviewID state) maxReviewedEntries) as [l ->]. by destruct l.
Qed.

(** With room, the others stay. *)
Lemma reviewed_entries_keep cur entry e : In e (split_comma cur) -> e <> ""%string ->
  Z.of_nat (List.length (split_comma cur)) < maxReviewedEntries -> In e (reviewed_entries cur entry maxReviewedEntries).
Proof.
  intros Hin Hne Hl. unfold reviewed_entries. set (l := List.filter _ _).
  assert (List.length l <= List.length (split_comma cur))%nat as Hle by apply filter_length_le.
  rewrite length_app. cbn [List.length]. destruct (Z.ltb_spec maxReviewedEntries (Z.of_nat (List.length l + 1))); [lia|].
  rewrite andb_false_r. apply in_or_app. destruct (String.eqb_spec e entry) as [->|Hd]; [right; by left|]. left.
  apply filter_In. split; [done|]. apply str_neq_eqb in Hne, Hd. by rewrite Hne, Hd.
Qed.

(** ** Lemmas: the appliers *)

Lemma always_on_error {A} P n again (body : Io A) : always P body -> always P (on_error n again body).
Proof.
  intros Hb. induction n as [|n IH]; [exact Hb|]. cbn [on_error]. apply always_bind; [exact Hb|].
  intros [a|e]; [apply always_ret|]. destruct (again e); [exact IH|apply always_ret].
Qed.

Definition no_status_write (d : Did Call) : Prop := status_of d = None.

Lemma unwritten_always {A} (P : list (Did Call) -> Did Call -> Prop) (p : Prog Call A) :
  (forall past d, no_status_write d -> P past d) -> each no_status_write p -> always P p.
Proof. apply always_free. Qed.

Lemma no_reentry_write reader name now past d : no_status_write d -> reentry_of_unmerged reader name now past d.
Proof. intros H t' Ht. by rewrite H in Ht. Qed.

Lemma no_merge_write reader task now past d : no_status_write d -> merge_of_settled reader task now past d.
Proof. intros H t' Ht. by rewrite H in Ht. Qed.

Lemma deletes_no_status t : each no_status_write (delete_wrapper t).
Proof. unfold delete_wrapper. each_go ltac:(reflexivity). Qed.

(** One attempt of a re-entry. *)
Lemma reenter_attempt reader task now :
  always (reentry_of_unmerged reader (task_Name task) now)
    (let? fresh := api (GetTask reader (task_Name task)) in
     let? mrs := controlled_mrs reader fresh in
     if existsb mr_is_merged mrs then ok None
     else
       let '(taken, t) := ReenterOnReviewChangesRequested fresh mrs now now in
       if negb taken then ok None
       else let? _ := write (UpdateTaskStatus t) in ok (Some (State (Status fresh), t))).
Proof.
  intros past [fresh|e]; play; [|split; [by apply no_reentry_write|done]].
  intros [l|e]; play; [|split; [by apply no_reentry_write|split; [by apply no_reentry_write|done]]].
  fold (controlled_in fresh l). destruct (existsb _ _) eqn:Em; [split; [by apply no_reentry_write|split; [by apply no_reentry_write|done]]|].
  destruct (ReenterOnReviewChangesRequested _ _ _ _) as [taken t] eqn:Er.
  destruct taken; cbn [negb]; [|split; [by apply no_reentry_write|split; [by apply no_reentry_write|done]]].
  intros x. assert (forall P : Prop, P -> P /\ True) as Hand by tauto. destruct x as [e|]; play;
    (split; [by apply no_reentry_write|split; [by apply no_reentry_write|]]; apply Hand;
     intros t' [= <-]; exists past, fresh, l; rewrite <- app_assoc; split_and!; [done|exact Em|exact Er]).
Qed.

(** The only way into [merged] from a review. *)
Lemma enter_merged t mrs now t' : State (Status t) = StateAwaitingReview -> Enter t mrs StateMerged "" now = Ok t' ->
  ParkReason (Status t) = ""%string /\ mrs <> [] /\ Forall (fun mr => mr_PendingReview (mr_Status mr) = None) mrs
  /\ State (Status t') = StateMerged.
Proof.
  intros Hs. unfold Enter. destruct (String.eqb_spec (ParkReason (Status t)) "") as [->|]; [|done]. cbn [negb].
  rewrite Hs. cbn [String.eqb]. change (if StateAwaitingReview == "" then Create else StateAwaitingReview) with StateAwaitingReview.
  change (pseudoTarget StateMerged) with false. cbn iota. destruct (LegalFor _ _ _ _) eqn:El; cbn [negb]; [|done].
  apply LegalFor_contract in El. destruct (ec_review_posted _ _ _ _ El eq_refl (or_intror eq_refl)) as [Hne Hall].
  intros [= <-]. done.
Qed.

Lemma pod_deleted_app task past es : pod_deleted task past -> pod_deleted task (past ++ es).
Proof. intros (r & Hin & Hr). exists r. split; [apply in_or_app; by left|done]. Qed.

(** The last step of an approval, once the rest is in the past. *)
Lemma enter_merging_guards reader task mrs l now : mrs = controlled_in task l -> forall past,
  In (did (ListMergeRequests reader) (Ok l)) past -> pod_deleted task past ->
  guards (merge_of_settled reader task now) past (enter_merging reader task mrs now).
Proof.
  intros -> past Hl Hp. unfold enter_merging, on_conflict.
  set (body := (let? t := api (GetTask reader (task_Name task)) in _)).
  assert (forall past, In (did (ListMergeRequests reader) (Ok l)) past -> pod_deleted task past ->
            guards (merge_of_settled reader task now) past body) as Hb.
  { clear past Hl Hp. intros past Hl Hp [t|e]; play; [|split; [by apply no_merge_write|done]].
    destruct (String.eqb_spec (State (Status t)) StateAwaitingReview) as [Hs|Hs]; cbn [negb]; [|split; [by apply no_merge_write|done]].
    destruct (Enter _ _ _ _ _) as [t'|] eqn:Ee; [|split; [by apply no_merge_write|done]].
    destruct (enter_merged _ _ _ _ Hs Ee) as (Hpk & Hne & Hall & Ht').
    intros x. assert (merge_of_settled reader task now (past ++ [did (GetTask reader (task_Name task)) (Ok t)]) (did (UpdateTaskStatus t') x)) as Hw.
    { intros t0 [= <-]. by exists past, t, l. }
    destruct x as [e|]; (split; [by apply no_merge_write|split; [exact Hw|done]]). }
  clearbody body. revert past Hl Hp. generalize 4%nat as n. induction n as [|n IH]; intros past Hl Hp; [by apply Hb|].
  cbn [on_error]. apply does_bind. eapply does_mono; [|exact (Hb past Hl Hp)]. intros [a|e] es Hg; cbn; [by rewrite app_nil_r|].
  destruct (IsConflict e); cbn; [|by rewrite app_nil_r].
  eapply does_mono; [|apply (IH (past ++ es)); [apply in_or_app; by left|by apply pod_deleted_app]].
  intros b es' Hg'. by apply guarded_app.
Qed.

(** The deletion of the pod, with what it leaves in the trace. *)
Lemma delete_wrapper_deletes task : does (delete_wrapper task) (fun r es => Forall no_status_write es /\ (is_ok r = true -> pod_deleted task es)).
Proof.
  intros x. destruct x as [[]|]; play; cbn; try (split; [by repeat constructor|done]);
    intros y; destruct y as [[]|]; play; cbn; (split; [by repeat constructor|]); try done; intros _; eexists; (split; [by left|]); auto.
Qed.

Lemma settles_no_status mrSize sp sha mrs : each no_status_write (settle_all mrSize sp sha mrs).
Proof. unfold settle_all. each_go ltac:(reflexivity). Qed.

Lemma approval_guards mrSize sp reader task sha now past :
  guards (merge_of_settled reader task now) past (ApplyReviewApproval mrSize sp reader task sha now).
Proof.
  assert (forall past d, no_status_write d -> merge_of_settled reader task now past d) as Hq by (intros; by apply no_merge_write).
  unfold ApplyReviewApproval. destruct (_ == _); [done|].
  intros [live|e]; play; [|split; [by apply Hq|done]]. destruct (_ != _); [split; [by apply Hq|done]|].
  intros [l0|e]; play; [|split; [by apply Hq|split; [by apply Hq|done]]]. fold (controlled_in task l0).
  set (past2 := ((past ++ [did (GetTask reader (task_Name task)) (Ok live)]) ++ [did (ListMergeRequests reader) (Ok l0)])%list). assert (forall es, guarded (merge_of_settled reader task now) past2 es ->
    guarded (merge_of_settled reader task now) past (did (GetTask reader (task_Name task)) (Ok live) :: did (ListMergeRequests reader) (Ok l0) :: es)) as Hstep.
  { intros es H. split; [by apply Hq|]. split; [by apply Hq|exact H]. }
  destruct (controlled_in task l0) as [|mr mrs] eqn:Em; [by apply Hstep|]. rewrite <- Em.
  destruct ((if sha == "" then _ else _) == ""); [by apply Hstep|].
  set (s := if sha == "" then _ else _). clearbody s. eapply does_mono; [intros a es; apply Hstep|].
  apply (guards_try _ no_status_write); [exact Hq|]. eapply does_mono; [|exact (delete_wrapper_deletes task)].
  intros r es [Hes Hd]. split; [exact Hes|]. intros [] ->. specialize (Hd eq_refl).
  apply (guards_try _ no_status_write); [exact Hq|]. eapply does_mono; [|exact (settles_no_status mrSize sp s (controlled_in task l0))].
  intros r' es' Hes'. split; [exact Hes'|]. intros [] _.
  intros [l|e]; play; [|split; [by apply Hq|done]]. fold (controlled_in task l).
  eapply does_mono; [|apply (enter_merging_guards reader task _ l now eq_refl (((past2 ++ es) ++ es') ++ [did (ListMergeRequests reader) (Ok l)]))].
  - intros b es'' Hg. split; [by apply Hq|exact Hg].
  - apply in_or_app. right. by left.
  - apply pod_deleted_app, pod_deleted_app. destruct Hd as (r0 & Hin & Hr). exists r0. split; [apply in_or_app; by right|done].
Qed.

(** ** The theorems *)

(** C31: a review that was applied is remembered: once it is stamped on a Task, a redelivery
    of the same review with the same word is recognised; the record keeps at most thirty-two
    reviews, and with room to spare it forgets none of the others. *)
Theorem an_applied_review_is_remembered (t : Task) (reviewID state : string) :
  reviewID <> ""%string -> all_bytes no_comma state = true ->
  let t' := with_reviewed (reviewEntry reviewID state) t in
  reviewAlreadyProcessed t' reviewID state = true
  /\ Z.of_nat (List.length (entries t')) <= maxReviewedEntries
  /\ (Z.of_nat (List.length (entries t)) < maxReviewedEntries ->
      forall id st, reviewAlreadyProcessed t id st = true -> reviewAlreadyProcessed t' id st = true).
Proof.
  intros Hid Hs. cbv zeta. apply str_neq_eqb in Hid. unfold reviewAlreadyProcessed. rewrite Hid.
  fold (entries (with_reviewed (reviewEntry reviewID state) t)). rewrite (entries_stamped _ _ _ Hs). split_and!.
  - apply str_mem_In. destruct (reviewed_entries_last (ann t annReviewed) (reviewEntry reviewID state) maxReviewedEntries) as [l ->].
    apply in_or_app. right. by left.
  - by apply reviewed_entries_bound.
  - intros Hl id st. destruct (id == ""); [done|]. rewrite !str_mem_In. intros Hin.
    apply reviewed_entries_keep; [exact Hin|apply entry_nonempty|exact Hl].
Qed.

(** C29: work that has shipped is never rewound: whatever the outside answers, changes
    requested write a Task only as the re-entry of the Task and of its merge requests that were
    read right before the write, none of which is merged. *)
Theorem merged_work_is_not_rewound (reader : View) (task : Task) (now : Time) :
  always (reentry_of_unmerged reader (task_Name task) now) (ApplyReviewChangesRequested reader task now).
Proof.
  apply always_try; [apply always_on_error, reenter_attempt|]. intros [[prev t]|]; [|apply always_ret].
  apply (unwritten_always _ _ (no_reentry_write _ _ _)). destruct (_ != ""); [|each_go ltac:(reflexivity)].
  apply (keeps_try (Forall no_status_write)); [apply deletes_no_status|]. intros _. each_go ltac:(reflexivity).
Qed.

(** C30: an approval moves a Task only into its merge, and only one that was read right before,
    waiting for its review and not parked, after its review pod was deleted and after a read of
    its merge requests that shows no review pending on any of them. *)
Theorem approval_settles_before_it_moves (mrSize : MergeRequest -> option Z) (sp : option (Spiller Comment)) (reader : View)
    (task : Task) (sha : string) (now : Time) :
  always (merge_of_settled reader task now) (ApplyReviewApproval mrSize sp reader task sha now).
Proof. intros past. apply approval_guards. Qed.

(** *** A finding *)

(** A Task that waits for its review and for a person, with one merge request. *)
Definition waiting_task : Task :=
  on_status (zero_Task <| task_Name := "t"%string |>)
    (fun s => s <| State := StateAwaitingReview |> <| ParkReason := ReasonAwaitingHuman |>).

Definition waiting_mr : MergeRequest :=
  zero_MergeRequest <| mr_Name := "m"%string |>
    <| mr_OwnerReferences := [mkOwnerReference groupVersion taskKind "t" "" (Some true) (Some true)] |>
    <| mr_Status ::= fun s => s <| mr_PendingReview := Some (mkPendingReview "" [] "" 0) |> |>.

Definition waiting_world : World Call := fun _ X c =>
  match c in Call X return X with
  | GetTask _ _ => Ok waiting_task
  | ListMergeRequests _ => Ok [waiting_mr]
  | MergeRequestAnswers _ => ([ObjBudget.Found waiting_mr], [mkAttempt (Some waiting_mr) UpdateOk])
  | c => nowhere c
  end.

(** an approval of a parked Task is applied by half: the pod is deleted and the pending
    review dropped with the merge request marked approved, and then the move into the merge
    is refused because the Task is parked, so that the review is left to the thread as if
    nothing had been done. *)
Theorem a_parked_task_is_half_approved :
  let r := run waiting_world (ApplyReviewApproval (fun _ => Some 0) None Direct waiting_task "c0ffee" 1) in
  fst r = Ok None /\ pod_deleted waiting_task (snd r)
  /\ In (did (MergeRequestEffects "m" [Updated (settled "c0ffee" waiting_mr)]) tt) (snd r)
  /\ omap status_of (snd r) = [].
Proof.
  cbv zeta. split; [vm_compute; reflexivity|]. split; [|split; [|vm_compute; reflexivity]].
  - exists None. split; [|by left]. vm_compute. right; right; left; reflexivity.
  - vm_compute. do 5 right. by left.
Qed.

(** ** Witnesses *)

Lemma an_applied_review_is_remembered_witness :
  reviewAlreadyProcessed (with_reviewed (reviewEntry "7" "approved") zero_Task) "7" "approved" = true.
Proof.
  refine (proj1 (an_applied_review_is_remembered zero_Task "7" "approved" _ _)); [discriminate|vm_compute; reflexivity].
Defined.
